(* ===== verification/_CoqProject ===== *)
-Q . S2P
Prelude.v
Text.v
Utf8.v
Gate.v
Data.v
Sql.v
Memory.v
Store.v
StoreInv.v
Space.v
SpaceInv.v
StoreProps.v
SpaceProps.v
SpaceMove.v
StoreRuns.v
StoreCalls.v
StoreEnd.v
Budget.v
MemoryStore.v
BudgetProps.v
Lark.v
LarkProps.v
Workspace.v
Patch.v
PatchProps.v
Profile.v
ProfileProps.v
FilePolicy.v
FilePolicyProps.v
Permission.v
PermissionProps.v
Model.v
Routing.v
RoutingProps.v
Plan.v
PlanProps.v
Conflicts.v
Evidence.v
Results.v
Report.v
Schedule.v
ScheduleProps.v
ScheduleRuns.v
ResultsProps.v
Entry.v
EntryProps.v
Revision.v
Replan.v
RevisionInv.v
RevisionProps.v
RevisionWork.v
RevisionRuns.v
Collaborations.v
MemoryProps.v
Channel.v
Queue.v
QueueInv.v
Telegram.v
System.v
QueueProps.v
MemoryRuns.v
TelegramProps.v
ChannelProps.v
Ledger.v
Service.v
