(* ===== verification/Prelude.v ===== *)
(** * FreeAgent: verification development

    FreeAgent is a local agent service written in Go. A person, in the local
    interface or in a chat, gives it a task; the task is a _run_ of a
    _conversation_; the service calls a model, executes the tools the model asks
    for under the permissions of the run, and records every call before and
    after it happens in a PostgreSQL database, so that nothing is repeated after
    a crash. Several agents may share a task: a _collaboration_ is a
    parent run with a plan of children. This library models the core of
    src/internal/harness and the frame codec of src/internal/channels, and proves
    what makes them correct.

    ** The parts and how they interact

    - _Prelude_: errors, results, list and option lemmas, tactics. _Text_: Go's
      strings, path and unicode/utf8 on byte strings. _Utf8_: cutting texts
      between runes (excerptEnd of memory_tools.go).
    - _Data_: the rows of the tables and the documents in their JSON columns, the
      database [db] and the [world] a method runs in (the database, the supply of
      identifiers, the clock); the class [Host] of what the service takes from
      the standard library (digests, sizes of encodings). _Sql_: the monad [M] of
      store methods, transactions, and one primitive per form of statement, with
      the constraints of the schema.
    - _Store_ (store.go, callguard.go, model_recovery.go, limit_continuation.go,
      input_queue.go): runs, attempts and messages. _StoreInv_: the invariant
      [db_wf], the order [db_le] in which databases evolve, the class [Respects]
      of the preorders every statement moves along and the class [Steps] of the
      methods that move along all of them. _StoreProps_, _StoreRuns_,
      _StoreCalls_, _StoreEnd_: what the methods guarantee.
    - _Budget_ (collaboration_budget.go) implements the interface [callGuard] of
      the store: a record of operations, with the laws [GuardSteps], [GuardMeta]
      and [GuardRecordMeta] as classes. _BudgetProps_: its accounts.
    - _Space_ (spaces.go, conversations of store.go, pairing of
      channel_messages.go): spaces and what they route to. _SpaceInv_,
      _SpaceProps_, _SpaceMove_: routing, moving, deleting.
    - _Profile_ (execution_profile.go, commands.go, permissions.go,
      runtime_policy.go): what a permission mode grants. _FilePolicy_
      (filepolicy.go, private_paths.go, file_scope.go): which paths outside the
      workspace. _Workspace_ (filetools.go, filechanges.go,
      collaboration_plan.go): which paths inside. _Permission_ (permissions.go,
      space_permissions.go, telegram_access.go): what a run freezes, who changes
      it, and the check before each call. Each has its file of theorems.
    - _Memory_, _MemoryStore_ (memory.go, memory_context.go, memory_pins.go,
      memory_tools.go, collaboration_memory.go): scopes, grants, entries, their
      mutations and what a request cites. _MemoryProps_: one operation;
      _MemoryRuns_: all reachable states.
    - _Channel_ (channel_messages.go) and _Telegram_ (telegram_access.go):
      messages of chats, and who may use the service from one.
    - _Queue_ (input_queue.go, attachments.go): what is sent to a conversation
      while a run is active. _QueueInv_, _QueueProps_: no input is lost.
    - _Model_ (config.go, providers.go), _Routing_, _RoutingProps_
      (model_selection.go, routing.go, attachment_context.go): which models are
      configured, and which one a run uses.
    - _Plan_, _PlanProps_ (collaboration_plan.go, the references of
      collaboration_results.go): what a plan may ask for, and the tools and
      subtrees of a child. _Conflicts_ (collaboration_conflicts.go): files
      without a single history. _Evidence_, _Results_, _ResultsProps_
      (evidence.go, collaboration_results.go): what saved calls prove, and the
      excerpts children are given; [results_checks] implements the interface
      [ReadChecks] of the budget. _Report_ (collaboration_report.go,
      collaboration_synthesis.go, the questions of collaboration_replan.go).
      _Schedule_, _ScheduleProps_, _ScheduleRuns_ (collaboration.go): controls,
      leases, delivery, and the loop of Continue. _Entry_, _EntryProps_
      (collaboration_entry.go, authorizeReplan): what the person authorises, and
      the plan a model suggests. _Revision_ (collaboration_revision.go, Create,
      startGoal, planGoal, insertActiveDelegation) and _Replan_
      (collaboration_replan.go): how a collaboration comes to be and how its plan
      changes. _RevisionInv_ states the invariant [record_ok], _RevisionProps_ and
      _RevisionWork_ what an edit does, _RevisionRuns_ the guard, the leases and
      the creation, and _Collaborations_ composes them to one transition system.
    - _System_: the operations on the store, spaces, permissions, channels,
      memory, models, the input queue and the Telegram registry as the steps of
      one transition system. _Ledger_: the abstract specification of calls it
      refines. _QueueProps_, _TelegramProps_, _ChannelProps_, _MemoryRuns_:
      theorems over its runs. _Service_: the steps of _System_ and those of
      _Collaborations_ together, and what holds along every interleaving of them.
    - _Patch_, _PatchProps_ (patch.go): unified diffs. _Gate_ (execution_gate.go):
      the leases of executions. _Lark_, _LarkProps_ (lark_frame.go): the frame
      codec of the Lark websocket.

    A definition has the name of the function it translates; a method's receiver
    is its first argument or part of its name; what is between two comments of
    the code is named in lower case with underscores. State the code keeps in the
    database is a field of [db]; a transaction of the code is [transaction] of
    its body; an error return is [Err] or [fail].

    ** What the theorems show

    - Calls happen at most once: [dispatched_at_most_once], [tool_result_saved_once],
      [calls_refine_ledger], [recover_effect], [abandon_effect],
      [save_model_effect]; runs are created once and one at a time
      ([createRun_idempotent], [createRun_one_active], [successor_unique]); a
      failing method changes nothing ([failures_are_atomic]); no row is lost in
      any reachable state of the service ([reachable_evolves]). What is sent to a conversation is
      queued within bounds and never lost ([accept_effect], [pending_bounded],
      [adopt_effect], [input_settled]).
    - Collaborations are carried out as planned: [plan_validated],
      [assigned_call_confined], [batch_safe], [schedule_completes],
      [delivered_exact], [conflicts_exact]; whatever is created, revised,
      controlled and scheduled in between, every record stays one the scheduler
      can finish ([collaborations_sound]), and dispatched work stays as it is
      ([edit_preserves_work]); and a run uses the model it should:
      [choice_is_best], [switch_routed] (for runs with a recorded decision:
      finding 2).
    - Limits hold: [reserve_within_budget], [settle_conserves],
      [assembler_bounded], the gate ([reachable_inv]).
    - Nothing is done without authority: [resolved_permission_lowest],
      [reduced_permission_stops], [full_needs_confirmation],
      [superseded_stays_revoked], [applied_grant], [channel_action_authorised],
      [command_approval], [buildExecutionProfile_within],
      [external_route_safe], [validatePath_inside], [preparePatch_safe],
      [agent_writes_confined], [request_memory_exact],
      [experts_within_authority] (the paths of apply_patch excepted: finding 3).
    - Data keeps its meaning: [spaces_route_inside], [move_publishes],
      [delete_space_effect], [received_once], [mutation_effect],
      [memory_reachable], [deleted_stays_erased], [mutation_once],
      [memory_pages_whole], [applyHunks_exact], [appendPrivatePaths_covers],
      [frame_round_trip].

    ** Bounds and fuel

    Loops over data are structural recursions. Where they are not, the fuel is
    the length of the text or list they consume ([wireReadFuel], [patch_files],
    [file_hunks], [canonical_from], [no_links], [publish_pages], [pages]), the
    size of the graph they walk plus one ([visit_fuel]) or the number of children
    ([precedes]), and a theorem or lemma shows that it suffices; each step of
    [Fields], [Runes] and [whole_word] consumes a byte of their fuel, the length
    of the text. The loop of Continue takes one iteration more than children are
    left to carry out a plan whose batches end with their children completed
    ([schedule_completes]; a failing child ends the loop or has the plan revised,
    and a revision starts another such count). Integers are [Z] where the code's bounds keep
    them far from the width of an int (revisions, budgets, byte counts), and are
    reduced modulo 2^32 or 2^64 where the code relies on it (Lark).

    ** Not modelled, and why

    - The failure of the database connection, and the interleaving of statements
      inside a transaction: the code takes the locks that serialise them, and a
      transaction is one step of the machine.
    - The bytes of JSON documents and their decoders: a column holds the value it
      encodes; where the code compares or measures bytes, the encoder is a
      function of [Host].
    - The operating system, processes, the network, the model and the tools:
      parameters ([FileSystem], [Disk], the classes and arguments of the
      operations). [filepath] is that of Unix.
    - Time is an integer that grows with every reading; random identifiers come
      from a supply, and where freshness matters it is a hypothesis of the step.
    - What the scheduler starts: the agent loop of the children, how the children
      of a batch interleave, and the calls to the model for a new plan or a
      synthesis are arguments of [round] and [finalize]; contexts, their
      cancellation and timeouts are not modelled. The operations on
      collaborations are steps of _Collaborations_ and _Service_, not of _System_,
      whose runs keep the prompt they were created with: deliverResults and an
      edit give a run that has not begun another one.
    - Of collaborations, the texts of the requests for a plan and for a new one,
      where the settings of a chat are kept, the review of a suggestion, the
      loop of a delegation inside an active run, reading the revisions back and
      the text commands; the execution gate a method enters is an argument or
      assumed free. Of the routing, the context and assessment requests; events.
      Config.Validate and Service.snapshot are parameters.
    - The interfaces (chatui, the desktop and command-line programs), the clients
      of model providers and of channels, extensions, the control service, keys
      and configuration files: PROJECT.json lists each part with the reason. *)

From stdpp Require Export base gmap strings list list_numbers fin_maps sorting.
From Stdlib Require Export ZArith Lia.

(** ** Errors

    The sentinel errors of the program are constructors; [EText] is
    [errors.New], [EFmt f args] is [fmt.Errorf] with the format [f], [EWrap e d] is [fmt.Errorf] with [%w] for [e] and the dynamic
    parts [d] of the message, and [EJoin] is [errors.Join]. [ErrConstraint] is the error the database driver
    returns when a statement violates a constraint of the schema, [ErrNoRows]
    is [sql.ErrNoRows]. *)
#[warnings="-register-all"]
Inductive error :=
  | ErrStoreFormat | ErrActiveRun | ErrUnknownResult | ErrRequestKey | ErrStepLimit
  | ErrPinnedLimit | ErrModelBoundary | ErrControlledRun | ErrParentBudget | ErrChildBudget
  | ErrChildPaused | ErrPlanRevision | ErrResultReference | ErrTimeLimit | ErrInputPending
  | ErrQueuePaused | ErrInputTargetEnded | ErrInputNotPending | ErrPermissionDenied
  | ErrPermissionRevoked | ErrFullAccessConfirmation | ErrAttachment | ErrAutoDisabled
  | ErrModelCapability | ErrContextLimit | ErrCommandBusy | ErrControlAlreadyUsed
  | ErrToolDisabled | ErrInvalidSpace | ErrConversationSpace | ErrPathNotAllowed
  | ErrComputerFilesDisabled | ErrComputerRootsRequired | ErrConfigChanged
  | ErrHostExecutionRequiresFull | ErrSpaceNotFound | ErrLocalSpace | ErrSpaceHasActiveRun
  | ErrPathBlocked | ErrProtectedPath | ErrNotExist
  | ErrControlExpired | ErrControlStaleRevision
  | ErrMemoryDenied | ErrMemoryConflict | ErrMemoryDeleted | ErrMemoryMissing | ErrMemoryDisabled
  | ErrCollaborationDisabled | ErrMergeDecision | ErrMissingEvidence | ErrApprovalChanged
  | ErrProviderDisabled | ErrKeyNotFound
  | ErrConstraint | ErrNoRows
  | EText (msg : string)
  | EFmt (format : string) (args : list string)
  | EWrap (e : error) (detail : list string)
  | EJoin (errs : list error).

(** The messages of the sentinels ([errors.New]) whose text the code stores or
    searches; [ErrConstraint]'s text is the driver's and never stored. *)
Fixpoint Error (e : error) : string :=
  match e with
  | ErrUnknownResult => "harness: unresolved call; automatic replay is forbidden"
  | ErrStepLimit => "harness: explicit child step budget reached"
  | ErrTimeLimit => "harness: explicit collaboration time budget reached"
  | ErrParentBudget => "harness: cumulative collaboration budget exhausted"
  | ErrChildBudget => "harness: child output budget exhausted"
  | ErrContextLimit => "harness: current task exceeds context budget"
  | EText s => s
  | EWrap e d => Error e +:+ String.concat ", " d
  | EJoin es =>
      (fix join es := match es with
         | [] => "" | [e] => Error e | e :: es => Error e +:+ String (Ascii.ascii_of_nat 10) (join es) end) es
  | _ => ""
  end.

(** [errors.Is] for the sentinel the test [same] accepts. *)
Fixpoint errors_Is (same : error → bool) (e : error) : bool :=
  same e || match e with
            | EWrap e _ => errors_Is same e
            | EJoin es => (fix any es := match es with [] => false | e :: es => errors_Is same e || any es end) es
            | _ => false
            end.

Inductive res (A : Type) :=
  | Ok (a : A)
  | Err (e : error).
Arguments Ok {A} _.
Arguments Err {A} _.

#[global] Instance res_mret : MRet res := λ A a, Ok a.
#[global] Instance res_mbind : MBind res := λ A B f m,
  match m with Ok a => f a | Err e => Err e end.

Definition is_ok {A} (r : res A) : bool := match r with Ok _ => true | Err _ => false end.

Lemma res_bind_ok {A B} (f : A → res B) (m : res A) b :
  m ≫= f = Ok b ↔ ∃ a, m = Ok a ∧ f a = Ok b.
Proof. destruct m; naive_solver. Qed.

(** [check b e]: the guard [if !b { return e }]. *)
Definition check (b : bool) (e : error) : res unit := if b then Ok tt else Err e.

Lemma check_ok b e : check b e = Ok tt ↔ b = true.
Proof. destruct b; naive_solver. Qed.

(** Peel one layer of a successful computation in the error type. *)
Ltac res_step :=
  match goal with
  | H : _ ≫= _ = Ok _ |- _ => apply res_bind_ok in H as (? & ? & H)
  | H : check _ _ = Ok ?u |- _ => destruct u; apply check_ok in H
  | H : Ok _ = Ok _ |- _ => injection H as H; subst
  | H : Err _ = Ok _ |- _ => discriminate H
  end.
Ltac res_steps := repeat res_step.

(** Turn the booleans of the code into propositions. *)
Ltac bool_prop :=
  repeat match goal with
  | H : context [andb _ _ = true] |- _ => rewrite andb_true_iff in H; destruct H
  | H : andb _ _ = true |- _ => apply andb_true_iff in H; destruct H
  | H : orb _ _ = false |- _ => apply orb_false_iff in H; destruct H
  | H : negb _ = true |- _ => apply negb_true_iff in H
  | H : negb _ = false |- _ => apply negb_false_iff in H
  | H : bool_decide _ = true |- _ => apply bool_decide_eq_true in H
  | H : bool_decide _ = false |- _ => apply bool_decide_eq_false in H
  | H : Z.eqb _ _ = true |- _ => apply Z.eqb_eq in H
  | H : Z.eqb _ _ = false |- _ => apply Z.eqb_neq in H
  | H : Z.ltb _ _ = true |- _ => apply Z.ltb_lt in H
  | H : Z.ltb _ _ = false |- _ => apply Z.ltb_ge in H
  | H : Z.leb _ _ = true |- _ => apply Z.leb_le in H
  | H : Z.leb _ _ = false |- _ => apply Z.leb_gt in H
  end.

(** ** Lists, counts and sums *)
Section lists.
Context {A : Type}.
Implicit Types l : list A.

Definition zlen l : Z := Z.of_nat (length l).

Lemma zlen_nonneg l : (0 <= zlen l)%Z.
Proof. unfold zlen. lia. Qed.

Lemma zlen_cons x l : zlen (x :: l) = (zlen l + 1)%Z.
Proof. unfold zlen. simpl. lia. Qed.

Lemma zlen_app l k : zlen (l ++ k) = (zlen l + zlen k)%Z.
Proof. unfold zlen. rewrite length_app. lia. Qed.

Fixpoint sum_by (f : A → Z) l : Z :=
  match l with [] => 0 | x :: l => f x + sum_by f l end.

Lemma sum_by_app f l1 l2 : sum_by f (l1 ++ l2) = (sum_by f l1 + sum_by f l2)%Z.
Proof. induction l1; simpl; lia. Qed.

Lemma sum_by_perm f l1 l2 : l1 ≡ₚ l2 → sum_by f l1 = sum_by f l2.
Proof. induction 1; simpl; lia. Qed.

Lemma sum_by_ext f g l : (∀ x, x ∈ l → f x = g x) → sum_by f l = sum_by g l.
Proof.
  induction l as [|x l IH]; simpl; intros H; [done|].
  rewrite (H x), IH; [done| |]; set_solver.
Qed.

Lemma sum_by_nonneg f l : (∀ x, x ∈ l → (0 <= f x)%Z) → (0 <= sum_by f l)%Z.
Proof.
  induction l as [|x l IH]; simpl; intros H; [lia|].
  assert (0 <= f x)%Z by (apply H; set_solver).
  assert (0 <= sum_by f l)%Z by (apply IH; set_solver). lia.
Qed.

Definition count_if (p : A → bool) l : nat := length (filter (λ x, p x = true) l).

Lemma count_if_cons p x l : count_if p (x :: l) = ((if p x then 1 else 0) + count_if p l)%nat.
Proof. unfold count_if. rewrite filter_cons. destruct (p x); simpl; done. Qed.

Lemma count_if_zero p l : count_if p l = 0%nat ↔ ∀ x, x ∈ l → p x = false.
Proof.
  induction l as [|y l IH]; [set_solver|]. rewrite count_if_cons.
  destruct (p y) eqn:E; split; intros H; try lia.
  - specialize (H y). rewrite H in E; set_solver.
  - intros x [->|Hx]%elem_of_cons; [done|]. apply IH; [lia|done].
  - apply IH. set_solver.
Qed.

Lemma count_if_perm p l1 l2 : l1 ≡ₚ l2 → count_if p l1 = count_if p l2.
Proof. unfold count_if. intros ->. done. Qed.
End lists.

Lemma NoDup_map_inj {A B} (f : A → B) l x y :
  NoDup (map f l) → x ∈ l → y ∈ l → f x = f y → x = y.
Proof.
  induction l as [|z l IH]; simpl; [set_solver|].
  intros [Hz Hn]%NoDup_cons [->|Hx]%elem_of_cons [->|Hy]%elem_of_cons E; try done.
  - exfalso. apply Hz. rewrite E. by apply list_elem_of_fmap_2.
  - exfalso. apply Hz. rewrite <- E. by apply list_elem_of_fmap_2.
  - by apply IH.
Qed.

Lemma NoDup_map_filter {A B} (f : A → B) (P : A → Prop) `{!∀ x, Decision (P x)} l : NoDup (map f l) → NoDup (map f (filter P l)).
Proof.
  intros Hl. eapply sublist_NoDup; [exact Hl|]. change (fmap f (filter P l) `sublist_of` fmap f l). apply fmap_sublist, sublist_filter.
Qed.

Lemma StronglySorted_snoc {A} (R : relation A) l x :
  StronglySorted R l → (∀ y, y ∈ l → R y x) → StronglySorted R (l ++ [x]).
Proof.
  induction 1 as [|y l Hl IH Hy]; simpl; intros Hx; [repeat constructor|].
  constructor; [apply IH; set_solver|]. apply Forall_app. split; [done|]. constructor; [|done].
  apply Hx. set_solver.
Qed.

(** Rule induction for an invariant of a step relation. *)
Lemma rtc_invariant {S : Type} (R : S → S → Prop) (I : S → Prop) x y :
  (∀ a b, R a b → I a → I b) → rtc R x y → I x → I y.
Proof. intros HR H. induction H; eauto. Qed.
