(* ===== verification/Text.v ===== *)
(** * Go's string functions

    The functions of packages strings, path and unicode/utf8 the modelled code
    uses, on byte strings. *)

From S2P Require Import Prelude.
From Stdlib Require Import Ascii.

Definition chr (n : nat) : ascii := ascii_of_nat n.
Definition code (c : ascii) : nat := nat_of_ascii c.
Definition newline : ascii := chr 10.
Definition return_ : ascii := chr 13.
Definition slash : ascii := "/"%char.
Definition str (c : ascii) : string := String c "".
Definition nl : string := str newline.
Definition crlf : string := String return_ nl.

Definition HasPrefix (s p : string) : bool := String.prefix p s.
Definition drop_s (n : nat) (s : string) : string := String.substring n (String.length s - n) s.
Definition TrimPrefix (s p : string) : string := if HasPrefix s p then drop_s (String.length p) s else s.

Fixpoint HasSuffix (s p : string) : bool :=
  bool_decide (s = p) || match s with "" => false | String _ s => HasSuffix s p end.

Fixpoint Contains (s p : string) : bool :=
  HasPrefix s p || match s with "" => false | String _ s => Contains s p end.

Fixpoint ContainsByte (s : string) (c : ascii) : bool :=
  match s with "" => false | String x s => bool_decide (x = c) || ContainsByte s c end.

(** [strings.Split(s, sep)] for a one-byte separator. *)
Fixpoint Split (s : string) (sep : ascii) : list string :=
  match s with
  | "" => [""]
  | String c s =>
      if bool_decide (c = sep) then "" :: Split s sep
      else match Split s sep with x :: l => String c x :: l | [] => [str c] end
  end.

(** [strings.SplitAfter(s, sep)]. *)
Fixpoint SplitAfter (s : string) (sep : ascii) : list string :=
  match s with
  | "" => [""]
  | String c s =>
      if bool_decide (c = sep) then str c :: SplitAfter s sep
      else match SplitAfter s sep with x :: l => String c x :: l | [] => [str c] end
  end.

Fixpoint Join (l : list string) (sep : string) : string :=
  match l with [] => "" | [x] => x | x :: l => x +:+ sep +:+ Join l sep end.

(** [strings.ReplaceAll(s, "\r\n", "\n")] and [strings.ReplaceAll(s, a, b)] for
    single bytes. *)
Fixpoint ReplaceCRLF (s : string) : string :=
  match s with
  | "" => ""
  | String c s' =>
      match s' with
      | String d t => if bool_decide (c = return_) && bool_decide (d = newline)
                      then String d (ReplaceCRLF t) else String c (ReplaceCRLF s')
      | "" => s
      end
  end.
Fixpoint ReplaceByte (s : string) (a b : ascii) : string :=
  match s with "" => "" | String c s => String (if bool_decide (c = a) then b else c) (ReplaceByte s a b) end.

(** [strings.TrimSuffix(s, "\n")]. *)
Fixpoint TrimNewline (s : string) : string :=
  match s with
  | "" => ""
  | String c "" => if bool_decide (c = newline) then "" else s
  | String c s => String c (TrimNewline s)
  end.

Definition concat_s (l : list string) : string := foldr String.append "" l.

(** [utf8.ValidString]: the ranges of table 3-7 of the Unicode standard. *)
Definition between (lo hi n : nat) : bool := (lo <=? n)%nat && (n <=? hi)%nat.
Definition cont (c : ascii) : bool := between 128 191 (code c).
Fixpoint ValidString (s : string) : bool :=
  match s with
  | "" => true
  | String a s1 =>
      let n := code a in
      if (n <? 128)%nat then ValidString s1
      else match s1 with
      | "" => false
      | String b s2 =>
          if between 194 223 n then cont b && ValidString s2
          else match s2 with
          | "" => false
          | String c s3 =>
              if bool_decide (n = 224%nat) then between 160 191 (code b) && cont c && ValidString s3
              else if bool_decide (n = 237%nat) then between 128 159 (code b) && cont c && ValidString s3
              else if between 225 239 n then cont b && cont c && ValidString s3
              else match s3 with
              | "" => false
              | String d s4 =>
                  if bool_decide (n = 240%nat) then between 144 191 (code b) && cont c && cont d && ValidString s4
                  else if bool_decide (n = 244%nat) then between 128 143 (code b) && cont c && cont d && ValidString s4
                  else between 241 243 n && cont b && cont c && cont d && ValidString s4
              end
          end
      end
  end.

(** The bytes [utf8.DecodeRune] takes from the front of a text: those of a valid
    encoding, or one. *)
Definition rune_width (s : string) : nat :=
  match s with
  | String a (String b r) =>
      let n := code a in
      if between 194 223 n && cont b then 2
      else match r with
      | String c r =>
          if (bool_decide (n = 224%nat) && between 160 191 (code b) || bool_decide (n = 237%nat) && between 128 159 (code b)
              || between 225 236 n && cont b || between 238 239 n && cont b) && cont c then 3
          else match r with
          | String d _ =>
              if (bool_decide (n = 240%nat) && between 144 191 (code b) || bool_decide (n = 244%nat) && between 128 143 (code b)
                  || between 241 243 n && cont b) && cont c && cont d then 4 else 1
          | "" => 1
          end
      | "" => 1
      end
  | _ => 1
  end%nat.
Fixpoint runes (fuel : nat) (s : string) : nat :=
  match fuel, s with
  | O, _ | _, "" => 0
  | S fuel, _ => S (runes fuel (String.substring (rune_width s) (String.length s - rune_width s) s))
  end%nat.
(** [len([]rune(s))]. *)
Definition RuneCount (s : string) : nat := runes (String.length s) s.

(** [hasControl] (keys.go): the control characters of Unicode are the bytes
    below 32, 127 and the encodings C2 80 to C2 9F. *)
Fixpoint hasControl (s : string) : bool :=
  match s with
  | "" => false
  | String c s => (code c <? 32)%nat || bool_decide (code c = 127%nat)
      || bool_decide (code c = 194%nat) && match s with String d _ => between 128 159 (code d) | "" => false end
      || hasControl s
  end.

(** ** [path.Clean] *)

(** Put one element of a path on the elements kept so far, last first. *)
Definition clean_push (rooted : bool) (stack : list string) (e : string) : list string :=
  if bool_decide (e = "") || bool_decide (e = ".") then stack
  else if bool_decide (e = "..") then
    match stack with
    | top :: below => if bool_decide (top = "..") then ".." :: stack else below
    | [] => if rooted then [] else [".."]
    end
  else e :: stack.

Definition clean_elements (rooted : bool) (l : list string) : list string := rev (foldl (clean_push rooted) [] l).

Definition Clean (p : string) : string :=
  let rooted := HasPrefix p "/" in
  let out := (if rooted then "/" else "") +:+ Join (clean_elements rooted (Split p slash)) "/" in
  if bool_decide (out = "") then "." else out.

(** ** White space, sets of characters and case *)

(** [strings.TrimSpace]: the white space of Unicode, as UTF-8 encodes it. An
    encoding at the end of a text is what [utf8.DecodeLastRune] decodes there,
    because UTF-8 is self-synchronising. *)
Definition bytes_str (l : list nat) : string := foldr (λ n s, String (chr n) s) "" l.
Definition spaces_utf8 : list string :=
  map bytes_str ([[9]; [10]; [11]; [12]; [13]; [32]; [194; 133]; [194; 160]; [225; 154; 128];
    [226; 128; 168]; [226; 128; 169]; [226; 128; 175]; [226; 129; 159]; [227; 128; 128]]
    ++ map (λ n, [226; 128; 128 + n]) (seq 0 11))%nat.
Definition TrimSuffix (s p : string) : string :=
  if HasSuffix s p then String.substring 0 (String.length s - String.length p) s else s.
Fixpoint trim_fuel (cut : string → option string) (fuel : nat) (s : string) : string :=
  match fuel with
  | O => s
  | S fuel => match cut s with Some s' => trim_fuel cut fuel s' | None => s end
  end.
Definition cut_first (s : string) : option string :=
  match List.find (HasPrefix s) spaces_utf8 with Some p => Some (TrimPrefix s p) | None => None end.
Definition cut_last (s : string) : option string :=
  match List.find (HasSuffix s) spaces_utf8 with Some p => Some (TrimSuffix s p) | None => None end.
Definition TrimSpace (s : string) : string :=
  let s := trim_fuel cut_first (String.length s) s in
  trim_fuel cut_last (String.length s) s.

(** [strings.ContainsAny] with a set of ASCII characters. *)
Definition ContainsAny (s : string) (set : list ascii) : bool := existsb (ContainsByte s) set.
Definition control_chars : list ascii := [chr 0; return_; newline].

(** [strings.Replace(s, old, new, 1)]. *)
Fixpoint ReplaceFirst (s old new : string) : string :=
  if HasPrefix s old then new +:+ TrimPrefix s old
  else match s with "" => "" | String c s => String c (ReplaceFirst s old new) end.

(** [strings.ToLower], [strings.ToUpper] and [strings.EqualFold] use the case
    tables of Unicode, which the development leaves open; [ascii_case] is the
    case of ASCII, for the examples. *)
Class Unicode := { ToLower : string → string; ToUpper : string → string; EqualFold : string → string → bool }.

Definition lower_char (c : ascii) : ascii := if between 65 90 (code c) then chr (code c + 32) else c.
Fixpoint lower_ascii (s : string) : string :=
  match s with "" => "" | String c s => String (lower_char c) (lower_ascii s) end.
Definition upper_char (c : ascii) : ascii := if between 97 122 (code c) then chr (code c - 32) else c.
Fixpoint upper_ascii (s : string) : string :=
  match s with "" => "" | String c s => String (upper_char c) (upper_ascii s) end.
Definition ascii_case : Unicode :=
  {| ToLower := lower_ascii; ToUpper := upper_ascii; EqualFold a b := bool_decide (lower_ascii a = lower_ascii b) |}.

Example TrimSpace_ex : TrimSpace ("  a b" +:+ bytes_str [194; 160; 9]%nat) = "a b".
Proof. reflexivity. Qed.
Example ReplaceFirst_ex : ReplaceFirst "a workspace workspace" "workspace" "w" = "a w workspace".
Proof. reflexivity. Qed.

(** ** Facts *)
Lemma append_assoc (a b c : string) : (a +:+ b) +:+ c = a +:+ (b +:+ c).
Proof. induction a as [|x a IH]; [done|]. exact (f_equal (String x) IH). Qed.
Lemma append_nil_r (a : string) : a +:+ "" = a.
Proof. induction a as [|x a IH]; [done|]. exact (f_equal (String x) IH). Qed.
Lemma append_length (a b : string) : String.length (a +:+ b) = (String.length a + String.length b)%nat.
Proof. induction a as [|x a IH]; [done|]. exact (f_equal S IH). Qed.

Lemma concat_s_app l k : concat_s (l ++ k) = concat_s l +:+ concat_s k.
Proof. induction l as [|x l IH]; simpl; [done|]. by rewrite IH, append_assoc. Qed.

Lemma Split_nonempty s c : Split s c ≠ [].
Proof. destruct s as [|x s]; simpl; [done|]. case_bool_decide; [done|]. by destruct (Split s c). Qed.

Lemma SplitAfter_nonempty s c : SplitAfter s c ≠ [].
Proof. destruct s as [|x s]; simpl; [done|]. case_bool_decide; [done|]. by destruct (SplitAfter s c). Qed.

Lemma SplitAfter_concat s c : concat_s (SplitAfter s c) = s.
Proof.
  induction s as [|x s IH]; simpl; [done|]. case_bool_decide; [exact (f_equal (String x) IH)|].
  destruct (SplitAfter s c) as [|y l] eqn:E; [by apply SplitAfter_nonempty in E|]. exact (f_equal (String x) IH).
Qed.

Lemma Split_Join s c : Join (Split s c) (str c) = s.
Proof.
  induction s as [|x s IH]; simpl; [done|]. pose proof (Split_nonempty s c) as Hne. case_bool_decide as E.
  - destruct (Split s c) as [|y l]; [done|]. subst x. exact (f_equal (String c) IH).
  - destruct (Split s c) as [|y [|z l]]; [done|..]; exact (f_equal (String x) IH).
Qed.

Lemma Split_cons x s c y l : x ≠ c → Split s c = y :: l → Split (String x s) c = String x y :: l.
Proof. intros Hx E. simpl. rewrite bool_decide_eq_false_2 by done. by rewrite E. Qed.

(** The elements of a split contain no separator. *)
Lemma Split_no_sep s c : Forall (λ x, ContainsByte x c = false) (Split s c).
Proof.
  induction s as [|y s IH]; [by constructor|]. simpl. case_bool_decide as E; [by constructor|].
  destruct (Split s c) as [|z l]; [by repeat constructor; simpl; rewrite bool_decide_eq_false_2|].
  inversion IH; subst. constructor; [|done]. simpl. rewrite bool_decide_eq_false_2 by done. done.
Qed.

(** Splitting a join gives the elements back. *)
Lemma Split_plain x c : ContainsByte x c = false → Split x c = [x].
Proof.
  induction x as [|y x IH]; simpl; [done|]. intros [Hy Hx]%orb_false_iff. rewrite Hy.
  by rewrite IH.
Qed.
Lemma Split_append x s c : ContainsByte x c = false →
  Split (x +:+ String c s) c = x :: Split s c.
Proof.
  induction x as [|y x IH]; intros Hx.
  - simpl. by rewrite bool_decide_eq_true_2.
  - simpl in Hx. apply orb_false_iff in Hx as [Hy Hx]. change ((String y x) +:+ String c s) with (String y (x +:+ String c s)).
    simpl. rewrite Hy. by rewrite (IH Hx).
Qed.
Lemma Join_Split l c : l ≠ [] → Forall (λ x, ContainsByte x c = false) l → Split (Join l (str c)) c = l.
Proof.
  induction l as [|x [|y l] IH]; intros Hne Hl; [done|..]; inversion Hl as [|? ? Hx Hr]; subst.
  - simpl. by apply Split_plain.
  - change (Join (x :: y :: l) (str c)) with (x +:+ String c (Join (y :: l) (str c))).
    rewrite Split_append by done. f_equal. by apply IH.
Qed.

(** ** [Clean] *)
Definition normal (e : string) : Prop := e ≠ "" ∧ e ≠ "." ∧ e ≠ "..".

(** The elements of a cleaned path: parent references only in front, and none
    in a rooted path. *)
Definition clean_list (rooted : bool) (l : list string) : Prop :=
  ∃ k ns, l = replicate k ".." ++ ns ∧ Forall normal ns ∧ (rooted = true → k = 0%nat).

Lemma clean_push_rev rooted stack e :
  clean_list rooted (rev stack) → clean_list rooted (rev (clean_push rooted stack e)).
Proof.
  intros (k & ns & El & Hns & Hk). unfold clean_push.
  destruct (bool_decide (e = "") || bool_decide (e = ".")) eqn:E1; [by exists k, ns|].
  apply orb_false_iff in E1 as [E1%bool_decide_eq_false E2%bool_decide_eq_false].
  case_bool_decide as E3.
  - subst e. destruct stack as [|top below].
    + destruct rooted; [by exists 0%nat, []|by exists 1%nat, []].
    + simpl in El. case_bool_decide as Et.
      * subst top. destruct ns as [|x ns _] using rev_ind.
        -- exists (S k), []. rewrite app_nil_r in *. split; [|split; [constructor|]].
           ++ simpl. rewrite El. symmetry. apply (replicate_S_end k "..").
           ++ intros Hr. specialize (Hk Hr). subst k. destruct (rev below); simpl in El; done.
        -- exfalso. rewrite app_assoc in El. apply app_inj_tail in El as [_ <-].
           apply Forall_app in Hns as [_ Hx]. inversion Hx as [|? ? [_ [_ Hd]]]. done.
      * destruct ns as [|x ns _] using rev_ind.
        -- exfalso. rewrite app_nil_r in El. destruct k as [|k].
           ++ destruct (rev below); simpl in El; done.
           ++ rewrite replicate_S_end in El. apply app_inj_tail in El as [_ ?]. done.
        -- rewrite app_assoc in El. apply app_inj_tail in El as [El _].
           apply Forall_app in Hns as [Hns _]. by exists k, ns.
  - exists k, (ns ++ [e]). simpl. rewrite El, app_assoc. split; [done|]. split; [|done].
    apply Forall_app. split; [done|]. constructor; [|done]. done.
Qed.

Lemma clean_elements_clean rooted l : clean_list rooted (clean_elements rooted l).
Proof.
  unfold clean_elements.
  assert (Hg : ∀ stack, clean_list rooted (rev stack) → clean_list rooted (rev (foldl (clean_push rooted) stack l))).
  { induction l as [|e l IH]; intros stack Hs; simpl; [done|]. by apply IH, clean_push_rev. }
  apply (Hg []). by exists 0%nat, [].
Qed.

(** A clean list is not changed by cleaning. *)
Lemma clean_elements_fixed rooted l : clean_list rooted l → clean_elements rooted l = l.
Proof.
  intros (k & ns & -> & Hns & Hk). unfold clean_elements. rewrite foldl_app.
  assert (Hd : foldl (clean_push rooted) [] (replicate k "..") = replicate k "..").
  { destruct rooted; [by rewrite (Hk eq_refl)|]. clear.
    assert (Hg : ∀ j, foldl (clean_push false) (replicate j "..") (replicate k "..") = replicate (j + k) "..").
    { induction k as [|k IH]; intros j; simpl; [by rewrite Nat.add_0_r|].
      replace (clean_push false (replicate j "..") "..") with (replicate (S j) "..") by (by destruct j).
      rewrite IH. f_equal. lia. }
    apply (Hg 0%nat). }
  rewrite Hd. clear Hd Hk.
  assert (Hg : ∀ stack, foldl (clean_push rooted) stack ns = rev ns ++ stack).
  { induction Hns as [|e ns [H1 [H2 H3]] _ IH]; intros stack; simpl; [done|].
    unfold clean_push at 2. rewrite !bool_decide_eq_false_2 by done. simpl. rewrite IH. by rewrite <- app_assoc. }
  rewrite Hg, rev_app_distr, rev_involutive. f_equal. clear. induction k as [|k IH]; [done|].
  simpl. rewrite IH. symmetry. apply (replicate_S_end k "..").
Qed.

Lemma clean_elements_sub rooted l : Forall (λ e, e ∈ ".." :: l) (clean_elements rooted l).
Proof.
  unfold clean_elements. apply Forall_rev.
  assert (Hg : ∀ l' stack, (∀ e, e ∈ l' → e ∈ ".." :: l) → Forall (λ e, e ∈ ".." :: l) stack →
     Forall (λ e, e ∈ ".." :: l) (foldl (clean_push rooted) stack l')).
  { induction l' as [|x l' IH]; intros stack Hl Hs; simpl; [done|]. apply IH; [set_solver|].
    unfold clean_push. destruct (_ || _); [done|]. destruct (bool_decide _).
    - destruct stack as [|top below]; [destruct rooted; repeat constructor; set_solver|].
      destruct (bool_decide _); [constructor; [set_solver|done]|by inversion Hs].
    - constructor; [apply Hl; set_solver|done]. }
  apply Hg; [set_solver|constructor].
Qed.

Lemma clean_elements_no_slash rooted p :
  Forall (λ e, ContainsByte e slash = false) (clean_elements rooted (Split p slash)).
Proof.
  eapply Forall_impl; [apply clean_elements_sub|]. simpl. intros e [->|He]%elem_of_cons; [done|].
  pose proof (Split_no_sep p slash) as Hf. rewrite Forall_forall in Hf. by apply Hf.
Qed.

Lemma Join_empty l : clean_list false l → Join l "/" = "" → l = [].
Proof.
  intros (k & ns & -> & Hns & _). destruct k as [|k]; [|destruct k, ns; done].
  destruct ns as [|n ns]; [done|]. inversion Hns as [|? ? [Hn _] _]; subst.
  destruct n as [|c n]; [done|]. by destruct ns.
Qed.

(** A relative clean path is "." or lists clean elements. *)
Lemma Clean_relative p : HasPrefix p "/" = false → Clean p = p →
  p = "." ∨ clean_list false (Split p slash).
Proof.
  intros Hp Hc. unfold Clean in Hc. rewrite Hp in Hc. change ("" +:+ ?x) with x in Hc.
  set (l := clean_elements false (Split p slash)) in *.
  assert (Hl : clean_list false l) by apply clean_elements_clean.
  case_bool_decide as E; [by left|]. right. rewrite <- Hc.
  change "/" with (str slash) in *. rewrite Join_Split; [done| |apply clean_elements_no_slash].
  intros El. rewrite El in E. done.
Qed.

(** It stays below its root when it does not begin with a parent reference. *)
Lemma Clean_inside p : HasPrefix p "/" = false → Clean p = p → p ≠ "." → p ≠ ".." → HasPrefix p "../" = false →
  Forall normal (Split p slash).
Proof.
  intros Hp Hc Hd Hdd Hpre. destruct (Clean_relative p Hp Hc) as [|(k & ns & El & Hns & _)]; [done|].
  destruct k as [|k]; [by rewrite El|]. exfalso. pose proof (Split_Join p slash) as Hj. rewrite El in Hj.
  destruct k as [|k]; simpl in Hj.
  - destruct ns as [|n ns]; [by subst p|]. subst p. by destruct ns, n.
  - subst p. by destruct k, ns.
Qed.

Lemma HasPrefix_spec s p : HasPrefix s p = true ↔ ∃ t, s = p +:+ t.
Proof.
  unfold HasPrefix. revert s. induction p as [|x p IH]; intros s.
  - split; [by exists s|by destruct s].
  - destruct s as [|y s]; [split; [done|by intros [t ?]]|].
    change (String.prefix (String x p) (String y s)) with (if ascii_dec x y then String.prefix p s else false).
    destruct (ascii_dec x y) as [->|Hne].
    + rewrite IH. split; intros [t Ht]; exists t; [by rewrite Ht|by injection Ht].
    + split; [done|]. intros [t Ht]. by injection Ht as -> _.
Qed.

Lemma Split_sep a b c : Split (a +:+ String c b) c = Split a c ++ Split b c.
Proof.
  induction a as [|x a IH].
  - simpl. by rewrite bool_decide_eq_true_2.
  - change (String x a +:+ String c b) with (String x (a +:+ String c b)). simpl. rewrite IH.
    case_bool_decide; [done|]. destruct (Split a c) as [|y l] eqn:E; [by apply Split_nonempty in E|done].
Qed.

Lemma Join_snoc l x sep : l ≠ [] → Join (l ++ [x]) sep = Join l sep +:+ sep +:+ x.
Proof.
  induction l as [|y [|z l] IH]; intros Hl; [done|done|].
  change (Join ((y :: z :: l) ++ [x]) sep) with (y +:+ sep +:+ Join ((z :: l) ++ [x]) sep).
  rewrite IH by done. change (Join (y :: z :: l) sep) with (y +:+ sep +:+ Join (z :: l) sep).
  by rewrite !append_assoc.
Qed.

(** A join of clean relative elements is clean. *)
Lemma Join_no_root l : clean_list false l → l ≠ [] → Forall (λ e, ContainsByte e slash = false) l →
  HasPrefix (Join l "/") "/" = false.
Proof.
  intros (k & ns & -> & Hns & _) Hne Hs. apply not_true_iff_false. intros [t Ht]%HasPrefix_spec.
  change ("/" +:+ t) with (String slash t) in Ht.
  destruct k as [|k].
  - destruct ns as [|n ns]; [done|]. inversion Hns as [|? ? [Hn _] _]; subst. inversion Hs as [|? ? Hc _]; subst.
    destruct n as [|c n]; [done|]. simpl in Hc. apply orb_false_iff in Hc as [Hc%bool_decide_eq_false _].
    destruct ns; by injection Ht.
  - destruct k, ns; done.
Qed.

Lemma Clean_join l : clean_list false l → l ≠ [] → Forall (λ e, ContainsByte e slash = false) l →
  Clean (Join l "/") = Join l "/".
Proof.
  intros Hc Hne Hs. unfold Clean. rewrite Join_no_root by done.
  change ("" +:+ ?x) with x. 
  pose proof (Join_Split l slash Hne Hs) as Es. change (str slash) with "/" in Es.
  rewrite Es, clean_elements_fixed by done.
  rewrite bool_decide_eq_false_2; [done|]. intros E. by apply Hne, Join_empty.
Qed.

Lemma Clean_idem p : HasPrefix p "/" = false → Clean (Clean p) = Clean p ∧ HasPrefix (Clean p) "/" = false.
Proof.
  intros Hp. unfold Clean at 2 3 4. rewrite Hp. change ("" +:+ ?x) with x.
  pose proof (clean_elements_clean false (Split p slash)) as Hc.
  pose proof (clean_elements_no_slash false p) as Hs.
  set (l := clean_elements false (Split p slash)) in *. destruct (decide (l = [])) as [->|Hne]; [done|].
  rewrite bool_decide_eq_false_2 by (intros E; by apply Hne, Join_empty).
  split; [by apply Clean_join|by apply Join_no_root].
Qed.

(** An absolute path. *)
Lemma clean_elements_root l : Forall (λ e, ContainsByte e slash = false) l → clean_list true l →
  clean_elements true (Split ("/" +:+ Join l "/") slash) = l.
Proof.
  intros Hs Hc. change ("/" +:+ Join l "/") with ("" +:+ String slash (Join l "/")). rewrite Split_sep.
  destruct l as [|e l]; [done|].
  pose proof (Join_Split (e :: l) slash ltac:(done) Hs) as Es. change (str slash) with "/" in Es. rewrite Es.
  change (clean_elements true (Split "" slash ++ e :: l)) with (clean_elements true (e :: l)).
  by apply clean_elements_fixed.
Qed.

Lemma Clean_root_join l : Forall (λ e, ContainsByte e slash = false) l → clean_list true l →
  Clean ("/" +:+ Join l "/") = "/" +:+ Join l "/".
Proof.
  intros Hs Hc. pose proof (clean_elements_root l Hs Hc) as E. unfold Clean.
  replace (HasPrefix ("/" +:+ Join l "/") "/") with true; [by rewrite E, bool_decide_eq_false_2|].
  symmetry. apply HasPrefix_spec. by eexists.
Qed.

Lemma Clean_rooted p : HasPrefix p "/" = true → Clean (Clean p) = Clean p ∧ HasPrefix (Clean p) "/" = true.
Proof.
  intros Hp.
  assert (E : Clean p = "/" +:+ Join (clean_elements true (Split p slash)) "/").
  { unfold Clean. rewrite Hp. by rewrite bool_decide_eq_false_2. }
  rewrite E. split; [|apply HasPrefix_spec; by eexists].
  apply Clean_root_join; [apply clean_elements_no_slash|apply clean_elements_clean].
Qed.

Lemma Clean_Clean p : Clean (Clean p) = Clean p.
Proof. destruct (HasPrefix p "/") eqn:Hp; [apply Clean_rooted, Hp|apply Clean_idem, Hp]. Qed.
