(* ===== verification/Utf8.v ===== *)
(** * Cutting texts between runes

    The facts about UTF-8 behind the excerpts the program hands out: a valid text
    is a sequence of encodings none of which is a prefix of another, so what
    follows a valid prefix of a valid text is valid. [excerptEnd]
    (src/internal/harness/memory_tools.go) is where an excerpt of bounded length
    ends; [boundedResult] (collaboration_results.go) cuts the same way. *)

From S2P Require Import Prelude Text.
From Stdlib Require Import Ascii.

Lemma append_cons a (s t : string) : String a s +:+ t = String a (s +:+ t).
Proof. reflexivity. Qed.
Lemma append_nil_l (t : string) : "" +:+ t = t.
Proof. reflexivity. Qed.

(** One encoding. *)
Definition rune (r : string) : bool :=
  match r with
  | String a "" => (code a <? 128)%nat
  | String a (String b "") => negb (code a <? 128)%nat && (between 194 223 (code a) && cont b)
  | String a (String b (String c "")) =>
      let n := code a in
      negb (n <? 128)%nat && negb (between 194 223 n) &&
      (if bool_decide (n = 224%nat) then between 160 191 (code b) && cont c
       else if bool_decide (n = 237%nat) then between 128 159 (code b) && cont c
       else between 225 239 n && cont b && cont c)
  | String a (String b (String c (String d ""))) =>
      let n := code a in
      negb (n <? 128)%nat && negb (between 194 223 n) && negb (bool_decide (n = 224%nat)) && negb (bool_decide (n = 237%nat))
      && negb (between 225 239 n) &&
      (if bool_decide (n = 240%nat) then between 144 191 (code b) && cont c && cont d
       else if bool_decide (n = 244%nat) then between 128 143 (code b) && cont c && cont d
       else between 241 243 n && cont b && cont c && cont d)
  | _ => false
  end.
(** How many bytes the encoding beginning with a byte has. *)
Definition rune_bytes (n : nat) : nat :=
  if (n <? 128)%nat then 1 else if between 194 223 n then 2
  else if bool_decide (n = 224%nat) || bool_decide (n = 237%nat) || between 225 239 n then 3 else 4.

Lemma valid_rune_cons s : ValidString s = true → s ≠ "" → ∃ r t, s = r +:+ t ∧ rune r = true ∧ ValidString t = true.
Proof.
  destruct s as [|a s]; [done|]. intros Hv _. simpl in Hv. destruct (code a <? 128)%nat eqn:E1; [by exists (str a), s|].
  destruct s as [|b s]; [done|]. destruct (between 194 223 (code a)) eqn:E2.
  { apply andb_true_iff in Hv as [Hb Hv]. exists (String a (str b)), s. simpl. by rewrite E1, E2, Hb. }
  destruct s as [|c s]; [done|].
  destruct (bool_decide (code a = 224%nat)) eqn:E3; [|destruct (bool_decide (code a = 237%nat)) eqn:E4; [|destruct (between 225 239 (code a)) eqn:E5]].
  1-3: apply andb_true_iff in Hv as [Hb Hv]; exists (String a (String b (str c))), s; cbn [rune str]; rewrite ?E1, ?E2, ?E3, ?E4, ?E5; done.
  destruct s as [|d s]; [done|].
  destruct (bool_decide (code a = 240%nat)) eqn:E6; [|destruct (bool_decide (code a = 244%nat)) eqn:E7];
    apply andb_true_iff in Hv as [Hb Hv]; exists (String a (String b (String c (str d)))), s; cbn [rune str];
    rewrite ?E1, ?E2, ?E3, ?E4, ?E5, ?E6, ?E7; done.
Qed.
Lemma rune_valid r t : rune r = true → ValidString (r +:+ t) = ValidString t.
Proof.
  destruct r as [|a [|b [|c [|d [|e r]]]]]; [done|..|done]; intros Hr; cbn [rune] in Hr; rewrite ?append_cons, append_nil_l; cbn [ValidString]; cbv zeta in *.
  - by rewrite Hr.
  - apply andb_true_iff in Hr as [E1%negb_true_iff Hr]. apply andb_true_iff in Hr as [-> ->]. by rewrite E1.
  - apply andb_true_iff in Hr as [Hr Hb]. apply andb_true_iff in Hr as [E1%negb_true_iff E2%negb_true_iff]. rewrite E1, E2.
    destruct (bool_decide (code a = 224%nat)); [by rewrite Hb|]. destruct (bool_decide (code a = 237%nat)); [by rewrite Hb|].
    apply andb_true_iff in Hb as [Hb ->]. apply andb_true_iff in Hb as [-> ->]. done.
  - repeat (apply andb_true_iff in Hr as [Hr ?]). repeat match goal with H : negb _ = true |- _ => apply negb_true_iff in H; rewrite H end.
    repeat match goal with H : bool_decide (_ = ?k) = false |- _ => rewrite H end.
    destruct (bool_decide (code a = 240%nat)); [|destruct (bool_decide (code a = 244%nat))];
      match goal with H : (_ && cont d)%bool = true |- _ => rewrite H end; done.
Qed.
Lemma rune_length a r : rune (String a r) = true → String.length (String a r) = rune_bytes (code a).
Proof.
  unfold rune_bytes. destruct r as [|b [|c [|d [|e r]]]]; [..|done]; cbn [rune String.length]; cbv zeta; intros Hr.
  - by rewrite Hr.
  - apply andb_true_iff in Hr as [E1%negb_true_iff Hr]. apply andb_true_iff in Hr as [-> _]. by rewrite E1.
  - apply andb_true_iff in Hr as [Hr Hb]. apply andb_true_iff in Hr as [E1%negb_true_iff E2%negb_true_iff]. rewrite E1, E2.
    repeat case_bool_decide; try done. apply andb_true_iff in Hb as [Hb _]. apply andb_true_iff in Hb as [-> _]. done.
  - repeat (apply andb_true_iff in Hr as [Hr ?]). repeat match goal with H : negb _ = true |- _ => apply negb_true_iff in H end.
    repeat match goal with H : _ = false |- _ => rewrite H end. done.
Qed.

(** ** Prefixes *)
Lemma valid_append a b : ValidString a = true → ValidString (a +:+ b) = ValidString b.
Proof.
  remember (String.length a) as n eqn:En. revert a En. induction (lt_wf n) as [n _ IH]. intros a -> Ha.
  destruct (decide (a = "")) as [->|Hne]; [done|]. destruct (valid_rune_cons a Ha Hne) as (r & t & -> & Hr & Ht).
  rewrite append_assoc, rune_valid by done. apply (IH (String.length t)); [|done|done].
  rewrite append_length. destruct r as [|x r]; [done|]. simpl. lia.
Qed.

(** A valid text that is not empty begins with one to four valid bytes, the
    first of which no encoding continues with. *)
Definition RuneStart (c : ascii) : bool := negb (cont c).
Lemma rune_bounds r : rune r = true → (1 ≤ String.length r ≤ 4)%nat.
Proof. destruct r as [|a [|b [|c [|d [|e r]]]]]; simpl; (lia || done). Qed.
Lemma rune_start a r : rune (String a r) = true → RuneStart a = true.
Proof.
  unfold RuneStart, cont, between. intros Hr. destruct (128 <=? code a)%nat eqn:E; [|done]. simpl. apply negb_true_iff, Nat.leb_gt.
  apply Nat.leb_le in E. revert Hr. destruct r as [|b [|c [|d [|e r]]]]; [..|done]; cbn [rune]; cbv zeta; unfold between; intros Hr.
  - apply Nat.ltb_lt in Hr. lia.
  - repeat (apply andb_true_iff in Hr as [? Hr]). repeat match goal with Hx : _ && _ = true |- _ => apply andb_true_iff in Hx as [? ?] end.
    repeat match goal with Hx : (_ <=? _)%nat = true |- _ => apply Nat.leb_le in Hx end. lia.
  - apply andb_true_iff in Hr as [_ Hr]. repeat case_bool_decide; [lia..|].
    repeat match goal with Hx : _ && _ = true |- _ => apply andb_true_iff in Hx as [? ?] end.
    repeat match goal with Hx : (_ <=? _)%nat = true |- _ => apply Nat.leb_le in Hx end. lia.
  - apply andb_true_iff in Hr as [_ Hr]. repeat case_bool_decide; [lia..|].
    repeat match goal with Hx : _ && _ = true |- _ => apply andb_true_iff in Hx as [? ?] end.
    repeat match goal with Hx : (_ <=? _)%nat = true |- _ => apply Nat.leb_le in Hx end. lia.
Qed.
Lemma valid_start a s : ValidString (String a s) = true → RuneStart a = true.
Proof.
  intros Hv. destruct (valid_rune_cons _ Hv) as (r & t & E & Hr & _); [done|]. destruct r as [|b r]; [done|].
  rewrite append_cons in E. injection E as <- _. by eapply rune_start.
Qed.

(** The first [n] bytes of a text and the rest. *)
Definition take_s (n : nat) (s : string) : string := String.substring 0 n s.
Lemma take_cons n a s : take_s (S n) (String a s) = String a (take_s n s).
Proof. reflexivity. Qed.
Lemma drop_s_cons n a s : drop_s (S n) (String a s) = drop_s n s.
Proof. reflexivity. Qed.
Lemma substring_all s : String.substring 0 (String.length s) s = s.
Proof. induction s as [|a s IH]; [done|]. simpl. by rewrite IH. Qed.
Lemma take_drop_s n s : take_s n s +:+ drop_s n s = s.
Proof.
  revert n. induction s as [|a s IH]; intros [|n]; try reflexivity.
  - unfold take_s, drop_s. simpl. rewrite append_nil_l. f_equal. apply substring_all.
  - rewrite take_cons, drop_s_cons, append_cons. by rewrite IH.
Qed.
Lemma take_length n s : String.length (take_s n s) = (n `min` String.length s)%nat.
Proof.
  revert n. induction s as [|a s IH]; intros [|n]; try reflexivity. rewrite take_cons. simpl. by rewrite IH.
Qed.
Lemma take_append a b : take_s (String.length a) (a +:+ b) = a.
Proof. induction a as [|x a IH]; [by destruct b|]. rewrite append_cons. simpl String.length. rewrite take_cons. by rewrite IH. Qed.
Lemma drop_length n s : String.length (drop_s n s) = (String.length s - n)%nat.
Proof. pose proof (f_equal String.length (take_drop_s n s)) as E. rewrite append_length, take_length in E. lia. Qed.
Lemma valid_drop n s : ValidString s = true → ValidString (take_s n s) = true → ValidString (drop_s n s) = true.
Proof. intros Hs Ht. pose proof (valid_append (take_s n s) (drop_s n s) Ht) as E. rewrite take_drop_s in E. congruence. Qed.

(** ** [excerptEnd] *)
Definition byte_at (s : string) (n : nat) : option ascii := String.get n s.
Definition bad_offset : error := EText "harness: excerpt offset must be a UTF-8 byte boundary".
(** The loop: the longest valid prefix of at most [n] bytes. *)
Fixpoint back_up (s : string) (n : nat) : nat :=
  match n with
  | O => O
  | S n' => if ValidString (take_s n s) then n else back_up s n'
  end.
Definition excerptEnd (body : string) (start maxBytes : Z) : res Z :=
  let len := Z.of_nat (String.length body) in
  _ ← check (negb ((maxBytes <? 1)%Z || (start <? 0)%Z || (len <? start)%Z
       || (start <? len)%Z && match byte_at body (Z.to_nat start) with Some c => negb (RuneStart c) | None => false end)) bad_offset;
  let s := drop_s (Z.to_nat start) body in
  let n := back_up s (Z.to_nat (Z.min (len - start) maxBytes)) in
  if bool_decide (n = 0%nat) && (start <? len)%Z then Err ErrContextLimit else Ok (start + Z.of_nat n)%Z.

(** The excerpt between two offsets. *)
Definition excerpt (body : string) (start stop : Z) : string := take_s (Z.to_nat (stop - start)) (drop_s (Z.to_nat start) body).

Lemma back_up_le s n : (back_up s n ≤ n)%nat.
Proof. induction n as [|n IH]; simpl; [lia|]. destruct (ValidString _); lia. Qed.
Lemma back_up_valid s n : ValidString (take_s (back_up s n) s) = true.
Proof. induction n as [|n IH]; [by destruct s|]. simpl. by destruct (ValidString (take_s (S n) s)) eqn:E. Qed.
Lemma back_up_max s n k : (k ≤ n)%nat → ValidString (take_s k s) = true → (k ≤ back_up s n)%nat.
Proof.
  intros Hk Hv. induction n as [|n IH]; simpl; [lia|]. destruct (ValidString (take_s (S n) s)) eqn:E; [lia|].
  apply IH. destruct (decide (k = S n)) as [->|]; [congruence|lia].
Qed.
Lemma take_take j k s : take_s j s +:+ take_s k (drop_s j s) = take_s (j + k) s.
Proof.
  revert j. induction s as [|a s IH]; intros [|j]; try (destruct k; reflexivity).
  - unfold drop_s. rewrite Nat.sub_0_r, substring_all. reflexivity.
  - rewrite take_cons, drop_s_cons, append_cons. simpl Nat.add. rewrite take_cons. by rewrite IH.
Qed.
Lemma drop_drop_s j k s : drop_s k (drop_s j s) = drop_s (j + k) s.
Proof.
  revert j. induction s as [|a s IH]; intros [|j]; try (destruct k; reflexivity).
  - unfold drop_s at 2. by rewrite Nat.sub_0_r, substring_all.
  - rewrite !drop_s_cons. simpl Nat.add. by rewrite drop_s_cons.
Qed.
Lemma get_drop s n : String.get n s = match drop_s n s with String c _ => Some c | "" => None end.
Proof.
  revert n. induction s as [|a s IH]; intros [|n]; try reflexivity. rewrite drop_s_cons. simpl. apply IH.
Qed.

(** From a boundary of a valid text, an excerpt of at least four bytes makes
    progress and ends at a boundary. *)
Lemma excerptEnd_progress body start maxBytes : ValidString body = true → (4 <= maxBytes)%Z →
  (0 <= start < Z.of_nat (String.length body))%Z → ValidString (take_s (Z.to_nat start) body) = true →
  ∃ stop, excerptEnd body start maxBytes = Ok stop ∧ (start < stop <= start + maxBytes)%Z ∧ (stop <= Z.of_nat (String.length body))%Z ∧
    ValidString (excerpt body start stop) = true ∧ ValidString (take_s (Z.to_nat stop) body) = true.
Proof.
  intros Hb Hm Hs Ht. pose proof (valid_drop _ _ Hb Ht) as Hd. set (s := drop_s (Z.to_nat start) body) in *.
  assert (Hlen : Z.of_nat (String.length s) = (Z.of_nat (String.length body) - start)%Z) by (unfold s; rewrite drop_length; lia).
  assert (Hne : s ≠ "") by (intros E; rewrite E in Hlen; simpl in Hlen; lia).
  destruct (valid_rune_cons s Hd Hne) as (r & t & Es & Hr & Hvt). pose proof (rune_bounds r Hr) as Hrl.
  set (n := back_up s (Z.to_nat (Z.min (Z.of_nat (String.length body) - start) maxBytes))).
  assert (Hn : (1 ≤ n)%nat).
  { transitivity (String.length r); [lia|]. apply back_up_max.
    - assert (String.length r <= String.length s)%nat by (rewrite Es, append_length; lia). lia.
    - rewrite Es, take_append. rewrite <- (append_nil_r r). by rewrite rune_valid. }
  pose proof (back_up_le s (Z.to_nat (Z.min (Z.of_nat (String.length body) - start) maxBytes))) as Hle. fold n in Hle.
  assert (Hv : ValidString (take_s n s) = true) by apply back_up_valid.
  exists (start + Z.of_nat n)%Z. split_and!; try lia.
  - unfold excerptEnd. fold s. assert (Hg : byte_at body (Z.to_nat start) = match s with String c _ => Some c | "" => None end) by apply get_drop.
    rewrite Hg. destruct s as [|c s'] eqn:Ec; [done|]. rewrite (valid_start _ _ Hd). cbn [negb]. rewrite andb_false_r, orb_false_r.
    rewrite (proj2 (Z.ltb_ge maxBytes 1)), (proj2 (Z.ltb_ge start 0)), (proj2 (Z.ltb_ge (Z.of_nat (String.length body)) start)) by lia.
    cbn [orb negb check mbind res_mbind]. fold n. rewrite bool_decide_eq_false_2 by lia. done.
  - unfold excerpt. fold s. by replace (Z.to_nat (start + Z.of_nat n - start)) with n by lia.
  - replace (Z.to_nat (start + Z.of_nat n)) with (Z.to_nat start + n)%nat by lia. rewrite <- take_take. by rewrite valid_append.
Qed.

(** Reading a text page by page, each page from where the last one ended. *)
Fixpoint pages (fuel : nat) (body : string) (start maxBytes : Z) : res (list string) :=
  match fuel with
  | O => Ok []
  | S fuel =>
      if (Z.of_nat (String.length body) <=? start)%Z then Ok []
      else stop ← excerptEnd body start maxBytes; rest ← pages fuel body stop maxBytes; Ok (excerpt body start stop :: rest)
  end.
Lemma pages_from fuel body start maxBytes : ValidString body = true → (4 <= maxBytes)%Z → (0 <= start <= Z.of_nat (String.length body))%Z →
  ValidString (take_s (Z.to_nat start) body) = true → (Z.of_nat (String.length body) - start <= Z.of_nat fuel)%Z →
  ∃ l, pages fuel body start maxBytes = Ok l ∧ concat_s l = drop_s (Z.to_nat start) body ∧
    Forall (λ p, ValidString p = true ∧ (1 ≤ String.length p)%nat ∧ (Z.of_nat (String.length p) <= maxBytes)%Z) l.
Proof.
  intros Hb Hm. revert start. induction fuel as [|fuel IH]; intros start Hs Ht Hf.
  { exists []. split; [done|]. split; [|constructor]. assert (E : String.length (drop_s (Z.to_nat start) body) = 0%nat) by (rewrite drop_length; lia).
    by destruct (drop_s _ _). }
  simpl. destruct (Z.leb_spec (Z.of_nat (String.length body)) start).
  { exists []. split; [done|]. split; [|constructor]. assert (E : String.length (drop_s (Z.to_nat start) body) = 0%nat) by (rewrite drop_length; lia).
    by destruct (drop_s _ _). }
  destruct (excerptEnd_progress body start maxBytes Hb Hm ltac:(lia) Ht) as (stop & -> & Hp & Hl & Hv & Hvt).
  destruct (IH stop ltac:(lia) Hvt ltac:(lia)) as (l & El & Ec & Hall). exists (excerpt body start stop :: l). simpl. rewrite El. split; [done|].
  assert (Hx : String.length (excerpt body start stop) = Z.to_nat (stop - start)) by (unfold excerpt; rewrite take_length, drop_length; lia).
  split.
  - change (concat_s (excerpt body start stop :: l)) with (excerpt body start stop +:+ concat_s l). rewrite Ec. unfold excerpt.
    replace (Z.to_nat stop) with (Z.to_nat start + Z.to_nat (stop - start))%nat by lia. rewrite <- drop_drop_s. apply take_drop_s.
  - constructor; [|done]. rewrite Hx. split; [done|]. lia.
Qed.
