(* ===== verification/Gate.v ===== *)
(** * The execution gate

    Model of [executionGate] (src/internal/harness/execution_gate.go): the
    exclusive boundary for settings, backups and workspace changes, the
    per-conversation leases of running executions, and the two model slots. *)

From S2P Require Import Prelude.

Module Gate.

(** [MaxForegroundRuns]. *)
Definition MaxForegroundRuns : nat := 2.

(** [executionGate]; the mutex makes every method atomic, so a method is a
    function on this state. [chats]: true consumes a foreground slot. *)
Record executionGate := mkGate {
  exclusive : bool;
  chats : gmap string bool;
}.

(** The function [acquire] returns, with the state of its [sync.Once]. *)
Record lease := mkLease { lease_chat : string; lease_done : bool }.

Definition TryLock (g : executionGate) : bool * executionGate :=
  if exclusive g || negb (bool_decide (size (chats g) = 0%nat))
  then (false, g)
  else (true, mkGate true (chats g)).

Definition Unlock (g : executionGate) : executionGate := mkGate false (chats g).

(** The loop that counts the leases that consume a foreground slot. *)
Definition executing (m : gmap string bool) : nat := size (filter (λ kv : string * bool, kv.2 = true) m).

(** The sorted conversation ids of the error message. *)
Definition blocking (m : gmap string bool) : list string :=
  merge_sort String.le (map fst (map_to_list m)).

Definition acquire (g : executionGate) (chat : string) (execution : bool)
    : res (lease * executionGate) :=
  if bool_decide (chat = "") || exclusive g || bool_decide (is_Some (chats g !! chat))
     || execution && (MaxForegroundRuns <=? executing (chats g))%nat
  then Err (EWrap ErrActiveRun (blocking (chats g)))
  else Ok (mkLease chat false, mkGate (exclusive g) (<[chat := execution]> (chats g))).

Definition release (g : executionGate) (l : lease) : lease * executionGate :=
  if lease_done l then (l, g)
  else (mkLease (lease_chat l) true, mkGate (exclusive g) (delete (lease_chat l) (chats g))).

(** [Service.acquireConversation]; [None] is the release function that does
    nothing, [id] the value of [newID()]. *)
Definition acquireConversation (ownsLease : bool) (id : string) (g : executionGate)
    (chat : string) : res (option lease * executionGate) :=
  if ownsLease then Ok (None, g)
  else
    let chat := if bool_decide (chat = "") then "draft-" +:+ id else chat in
    match acquire g chat true with
    | Ok (l, g') => Ok (Some l, g')
    | Err e => Err e
    end.

(** [commit] permits only the proposing conversation's own lease. *)
Definition commit (g : executionGate) (allowChat : string) : res executionGate :=
  if exclusive g
     || existsb (λ id, negb (bool_decide (id = allowChat)) || bool_decide (allowChat = ""))
          (map fst (map_to_list (chats g)))
  then Err (EWrap ErrActiveRun (blocking (chats g)))
  else Ok (mkGate true (chats g)).

(** [Store.acquireModel]: the buffered channel [modelSlots] of capacity 2 as
    the number of tokens in it; [None] is a blocked send. *)
Definition modelCapacity : nat := 2.
Definition acquireModel (slots : nat) : option nat :=
  if (slots <? modelCapacity)%nat then Some (S slots) else None.
Definition releaseModel (slots : nat) : option nat :=
  match slots with O => None | S n => Some n end.

(** ** The clients of one gate, as an interleaving of atomic method calls *)
Inductive gstep : executionGate → executionGate → Prop :=
  | step_trylock g g' : TryLock g = (true, g') → gstep g g'
  | step_commit g g' c : commit g c = Ok g' → gstep g g'
  | step_unlock g : exclusive g = true → gstep g (Unlock g)
  | step_acquire g g' l c x : acquire g c x = Ok (l, g') → gstep g g'
  | step_release g l : gstep g (release g l).2.

Definition initial : executionGate := mkGate false ∅.

(** At most [MaxForegroundRuns] executions; an exclusive holder coexists with
    at most one lease (the proposing conversation's own); no lease of [""]. *)
Definition inv (g : executionGate) : Prop :=
  (executing (chats g) ≤ MaxForegroundRuns)%nat ∧
  (exclusive g = true → (size (chats g) ≤ 1)%nat) ∧
  chats g !! "" = None.

(** ** Lemmas *)
Lemma executing_insert m c x :
  m !! c = None →
  executing (<[c:=x]> m) = ((if x : bool then 1 else 0) + executing m)%nat.
Proof.
  intros Hc. unfold executing. destruct x.
  - rewrite map_filter_insert_True by done. rewrite map_size_insert_None; [done|].
    apply map_lookup_filter_None; auto.
  - rewrite map_filter_insert_False by done. by rewrite delete_id.
Qed.

Lemma executing_delete m c : (executing (delete c m) ≤ executing m)%nat.
Proof.
  unfold executing. rewrite map_filter_delete. apply map_subseteq_size, delete_subseteq.
Qed.

Lemma TryLock_true g g' :
  TryLock g = (true, g') ↔ exclusive g = false ∧ chats g = ∅ ∧ g' = mkGate true ∅.
Proof.
  unfold TryLock. destruct g as [[] m]; simpl; [naive_solver|].
  case_bool_decide as H; simpl.
  - apply map_size_empty_inv in H as ->. naive_solver.
  - split; [done|]. intros (_ & -> & _). by rewrite map_size_empty in H.
Qed.

Lemma acquire_ok g c x l g' :
  acquire g c x = Ok (l, g') ↔
  c ≠ "" ∧ exclusive g = false ∧ chats g !! c = None ∧
  (x = true → executing (chats g) < MaxForegroundRuns)%nat ∧
  l = mkLease c false ∧ g' = mkGate false (<[c:=x]> (chats g)).
Proof.
  unfold acquire. case_bool_decide; cbn [orb]; [naive_solver|].
  destruct (exclusive g); cbn [orb]; [naive_solver|].
  case_bool_decide as Hs; cbn [orb]; [split; [done|]; intros (_&_&E&_); rewrite E in Hs; by destruct Hs|].
  apply eq_None_not_Some in Hs.
  destruct (Nat.leb_spec MaxForegroundRuns (executing (chats g))); destruct x; cbn [andb orb].
  - split; [done|]. intros (_&_&_&Hlt&_). specialize (Hlt eq_refl). lia.
  - split; [intros [= <- <-]; naive_solver|]. by intros (_&_&_&_&->&->).
  - split; [intros [= <- <-]; naive_solver|]. by intros (_&_&_&_&->&->).
  - split; [intros [= <- <-]; naive_solver|]. by intros (_&_&_&_&->&->).
Qed.

Lemma commit_ok g c g' :
  commit g c = Ok g' ↔
  exclusive g = false ∧ (∀ d, is_Some (chats g !! d) → d = c ∧ c ≠ "") ∧
  g' = mkGate true (chats g).
Proof.
  unfold commit. destruct (exclusive g); simpl; [naive_solver|].
  match goal with |- context [existsb ?f ?l] => destruct (existsb f l) eqn:E end.
  - split; [done|]. intros (_ & Hall & _). apply existsb_exists in E as (d & Hd & Hb).
    apply list_elem_of_In, list_elem_of_fmap in Hd as ([k v] & -> & Hk%elem_of_map_to_list).
    destruct (Hall k) as [-> Hne]; [eauto|]. simpl in Hb. repeat case_bool_decide; naive_solver.
  - split; [|naive_solver]. intros [= <-]. split; [done|]. split; [|done]. intros d [v Hd].
    assert (Hn : (negb (bool_decide (d = c)) || bool_decide (c = "")) = false).
    { apply not_true_iff_false. intros Ht. apply not_true_iff_false in E. apply E, existsb_exists.
      exists d. split; [|done]. apply list_elem_of_In, list_elem_of_fmap. exists (d, v).
      split; [done|]. by apply elem_of_map_to_list. }
    repeat case_bool_decide; naive_solver.
Qed.

Lemma singleton_keys_size (m : gmap string bool) c :
  (∀ d, is_Some (m !! d) → d = c) → (size m ≤ 1)%nat.
Proof.
  intros H. assert (Hm : m ⊆ {[ c := default true (m !! c) ]}).
  { apply map_subseteq_spec. intros i x Hi. destruct (H i) as []; [eauto|].
    rewrite Hi. simpl. apply lookup_singleton_eq. }
  apply map_subseteq_size in Hm. by rewrite map_size_singleton in Hm.
Qed.

#[export] Hint Rewrite TryLock_true acquire_ok commit_ok : gate.

Lemma gstep_inv g g' : gstep g g' → inv g → inv g'.
Proof.
  intros Hs (Hmax & Hex & Hne). inversion Hs as [? ? H|? ? c H|? H|? ? l c x H|? l]; subst; clear Hs;
    autorewrite with gate in *.
  - destruct H as (_ & Hm & ->). unfold inv; simpl. rewrite map_size_empty. unfold executing.
    rewrite map_filter_empty, map_size_empty. unfold MaxForegroundRuns. split; [lia|]. split; [lia|done].
  - destruct H as (_ & Hall & ->). split; [done|]. split; [intros _|done].
    apply singleton_keys_size with c. naive_solver.
  - split; [done|]. split; [done|]. done.
  - destruct H as (Hc & Hx & Hn & Hlt & -> & ->). split; [|split].
    + simpl. rewrite executing_insert by done. destruct x; [specialize (Hlt eq_refl)|]; lia.
    + done.
    + simpl. by rewrite lookup_insert_ne.
  - unfold release. destruct (lease_done l); [done|]. split; [|split]; simpl.
    + pose proof (executing_delete (chats g) (lease_chat l)). lia.
    + intros He. specialize (Hex He). etrans; [|exact Hex]. apply map_subseteq_size, delete_subseteq.
    + destruct (decide (lease_chat l = "")) as [->|]; [apply lookup_delete_eq|by rewrite lookup_delete_ne].
Qed.

Lemma inv_initial : inv initial.
Proof.
  unfold inv, initial, executing; simpl. rewrite map_filter_empty, map_size_empty.
  split; [unfold MaxForegroundRuns; lia|]. done.
Qed.

(** ** Properties *)

(** C35: in every state any interleaving of method calls can reach, at most two
    executions hold a foreground slot, an exclusive holder coexists with at
    most one lease, and no lease is held for the empty conversation id. *)
Theorem reachable_inv g : rtc gstep initial g → inv g.
Proof. intros H. eapply rtc_invariant; eauto using inv_initial, gstep_inv. Qed.

Lemma reachable_inv_witness :
  rtc gstep initial (mkGate false {[ "a" := true ]}) ∧ inv (mkGate false {[ "a" := true ]}).
Proof.
  assert (H : rtc gstep initial (mkGate false {[ "a" := true ]})).
  { apply rtc_once. eapply (step_acquire _ _ (mkLease "a" false) "a" true). vm_compute. reflexivity. }
  split; [exact H|]. exact (reachable_inv _ H).
Defined.

(** [acquire] answers every request: it grants a lease exactly when the id
    is not empty, the gate is not exclusive, the conversation holds no lease
    and, for an execution, fewer than two executions run; a grant adds that
    lease and nothing else, a refusal is [ErrActiveRun] with the sorted
    blocking ids. *)
Theorem acquire_complete g c x :
  match acquire g c x with
  | Ok (l, g') =>
      c ≠ "" ∧ exclusive g = false ∧ chats g !! c = None ∧
      (x = true → executing (chats g) < MaxForegroundRuns)%nat ∧
      l = mkLease c false ∧ chats g' = <[c := x]> (chats g) ∧ exclusive g' = false
  | Err e =>
      e = EWrap ErrActiveRun (blocking (chats g)) ∧ Sorted String.le (blocking (chats g)) ∧
      (c = "" ∨ exclusive g = true ∨ is_Some (chats g !! c) ∨
       x = true ∧ (MaxForegroundRuns ≤ executing (chats g))%nat)
  end.
Proof.
  destruct (acquire g c x) as [[l g']|e] eqn:E; [apply acquire_ok in E; naive_solver|].
  split; [|split; [apply Sorted_merge_sort, _|]].
  - unfold acquire in E. destruct (_ || _); congruence.
  - destruct (decide (c = "")); [by left|]. destruct (exclusive g) eqn:Ex; [by right; left|].
    destruct (chats g !! c) eqn:Ec; [by right; right; left|]. right; right; right.
    destruct x, (Nat.le_gt_cases MaxForegroundRuns (executing (chats g))) as [|Hlt]; try done;
      match goal with |- context [?x = true] =>
        assert (acquire g c x = Ok (mkLease c false, mkGate false (<[c:=x]> (chats g))))
          as E' by (apply acquire_ok; naive_solver) end; congruence.
Qed.

(** The release function is effective once: it gives back exactly the lease
    it was returned for, and calling it again later never removes a lease the
    same conversation acquired in between. *)
Theorem release_once g c x l g1 y l2 g2 :
  acquire g c x = Ok (l, g1) →
  acquire (release g1 l).2 c y = Ok (l2, g2) →
  (release g1 l).2 = g ∧ (release g2 (release g1 l).1).2 = g2.
Proof.
  intros (_ & Hx & Hn & _ & -> & ->)%acquire_ok (_ & _ & _ & _ & -> & ->)%acquire_ok.
  split; [|done]. unfold release; simpl. rewrite delete_insert_id by done. by destruct g; simpl in *; subst.
Qed.

Lemma release_once_witness :
  (release (mkGate false {["a" := true]}) (mkLease "a" false)).2 = initial ∧
  (release (mkGate false {["a" := false]}) (mkLease "a" true)).2 = mkGate false {["a" := false]}.
Proof.
  apply (release_once initial "a" true (mkLease "a" false) (mkGate false {["a" := true]}) false
           (mkLease "a" false) (mkGate false {["a" := false]})); vm_compute; reflexivity.
Defined.

End Gate.
