(* ===== verification/Data.v ===== *)
(** * Data shared by the components

    The rows of the PostgreSQL tables (src/internal/harness/postgres_schema*.sql,
    read by src/internal/harness/store.go), the documents their JSON columns
    hold, and the world the store's methods run in. A JSON column is modelled by
    the value it encodes: encoding and decoding is Go's encoding/json, whose
    byte length, where the code uses it, is a function of [Host]. Fields no
    modelled operation reads are left out of the records. *)

From S2P Require Import Prelude.

(** ** Permissions (permissions.go, space_permissions.go)

    Go's [PermissionMode] is a string: the empty one is "not set", and a stored
    text may be anything. *)
Definition PermissionNone : string := "none".
Definition PermissionAsk : string := "ask".
Definition PermissionWorkspace : string := "workspace".
Definition PermissionFull : string := "full".

Record PermissionSelection := mkSelection {
  ps_owner_private : bool;
  ps_remote_limit : string;
  ps_space : string;
  ps_person : string;
  ps_entry : string;
  ps_space_limit : string;
  ps_person_limit : string;
  ps_mode : string;
  ps_source : string;
  ps_computer_files : bool;
  ps_computer_roots : list string;
  ps_scope : string;
  ps_additional_roots : list string;
  ps_blocked : list string;
  ps_command_enabled : option bool;
  ps_generation : string;
}.
#[export] Instance PermissionSelection_eq_dec : EqDecision PermissionSelection.
Proof. solve_decision. Defined.

Record PersonPermission := mkPerson {
  pp_id : string; pp_name : string; pp_mode : string; pp_updated_at : string;
}.

(** ** Attachments (attachments.go) *)
Record AttachmentRef := mkAttachmentRef {
  ar_unavailable : bool;
  ar_id : string;
  ar_sha256 : string;
  ar_name : string;
  ar_mime : string;
  ar_bytes : Z;
  ar_width : Z;
  ar_height : Z;
  ar_source : string;
  ar_public : bool;
}.
#[export] Instance AttachmentRef_eq_dec : EqDecision AttachmentRef.
Proof. solve_decision. Defined.

Record attachmentRecord := mkAttachmentRecord {
  at_ref : AttachmentRef;
  at_conversation : string;
  at_space : string;
  at_principal : string;
  at_committed : bool;
  at_deleted : bool;
  at_request : string;
}.

(** ** Channel origin of a run (channel_messages.go) *)
Record ChannelTarget := mkChannelTarget {
  ct_source : string; ct_application : string; ct_chat : string;
}.
#[export] Instance ChannelTarget_eq_dec : EqDecision ChannelTarget.
Proof. solve_decision. Defined.

Record ChannelRunOrigin := mkChannelRunOrigin {
  co_revision : Z;                   (** [AccessRevision] *)
  co_target : ChannelTarget;
  co_input_message : Z;
  co_history_through : Z;
  co_request_key : string;
}.
#[export] Instance ChannelRunOrigin_eq_dec : EqDecision ChannelRunOrigin.
Proof. solve_decision. Defined.

(** [MediaRef] (internal/channelwire): the fields the store validates. *)
Record MediaRef := mkMedia { md_id : string; md_name : string; md_bytes : Z }.

Record ChannelMessageSource := mkChannelMessageSource {
  cs_media : list MediaRef; cs_target : ChannelTarget; cs_person : string; cs_name : string;
  cs_message_id : string; cs_purpose : string;
}.

(** [TelegramAccess] (telegram_access.go): the fields that are stored; the
    others are filled in for display. [Revision] is a uint64. *)
Record TelegramAccess := mkAccess {
  ta_target : ChannelTarget;
  ta_space : string;
  ta_kind : string;
  ta_enabled : bool;
  ta_whole_group : bool;
  ta_members : list string;
  ta_revision : Z;
  ta_updated_at : string;
}.

(** ** Memory (memory.go, memory_context.go, memory_pins.go)

    The rows of fa.memories, fa.memory_revisions and fa.memory_operations, the
    grants a run holds on them, and what of them a request cites. *)
Record MemoryScope := mkScope { ms_kind : string; ms_owner : string; ms_project : string; ms_task : string }.
#[export] Instance MemoryScope_eq_dec : EqDecision MemoryScope.
Proof. solve_decision. Defined.

Record MemorySource := mkSource {
  so_kind : string; so_run : string; so_attempt : string; so_entry : string; so_revision : Z;
  so_hash : string; so_path : string;
}.
#[export] Instance MemorySource_eq_dec : EqDecision MemorySource.
Proof. solve_decision. Defined.

Record MemoryPin := mkPin { pin_scope : string; pin_target : string }.
#[export] Instance MemoryPin_eq_dec : EqDecision MemoryPin.
Proof. solve_decision. Defined.

Record MemoryEntry := mkEntry {
  me_pinned : option MemoryPin;
  me_id : string;
  me_scope : MemoryScope;
  me_revision : Z;
  me_state : string;
  me_kind : string;
  me_title : string;
  me_body : string;
  me_author : string;
  me_sources : list MemorySource;
  me_created_at : string;
  me_updated_at : string;
}.

(** A row of fa.memory_revisions. *)
Record MemoryRevision := mkRevision {
  mv_entry : string; mv_revision : Z; mv_state : string; mv_kind : string; mv_title : string;
  mv_body : string; mv_author : string; mv_sources : list MemorySource; mv_reason : string;
  mv_created_at : string; mv_pin : option MemoryPin;
}.

Record MemoryGrant := mkGrant {
  mg_scope : MemoryScope; mg_read : bool; mg_append : bool; mg_modify : bool;
  mg_kinds : list string; mg_entries : list string;
}.
#[export] Instance MemoryGrant_eq_dec : EqDecision MemoryGrant.
Proof. solve_decision. Defined.

Record MemoryReference := mkReference { mref_scope : MemoryScope; mref_entry : string }.
#[export] Instance MemoryReference_eq_dec : EqDecision MemoryReference.
Proof. solve_decision. Defined.

Record MemorySelection := mkMemorySelection {
  sel_excluded_pins : list string;
  sel_pinned_grants : list string;
  sel_entries : list MemoryReference;
  sel_knowledge : list MemoryScope;
  sel_task_private : bool;
}.
#[export] Instance MemorySelection_eq_dec : EqDecision MemorySelection.
Proof. solve_decision. Defined.

Record MemoryExcerpt := mkExcerpt { ex_start : Z; ex_end : Z; ex_hash : string }.
#[export] Instance MemoryExcerpt_eq_dec : EqDecision MemoryExcerpt.
Proof. solve_decision. Defined.

Record MemoryUse := mkUse {
  mu_pinned : option MemoryPin;
  mu_scope : MemoryScope;
  mu_entry : string;
  mu_revision : Z;
  mu_state : string;
  mu_hash : string;
  mu_kind : string;
  mu_title : string;
  mu_author : string;
  mu_sources : list MemorySource;
  mu_updated_at : string;
  mu_excerpt : option MemoryExcerpt;
}.
#[export] Instance MemoryUse_eq_dec : EqDecision MemoryUse.
Proof. solve_decision. Defined.

Record memoryRunPolicy := mkPolicy {
  mp_pins : list MemoryUse;
  mp_agent : string;
  mp_parent : string;
  mp_selection : MemorySelection;
  mp_shared : option MemoryGrant;
}.
#[export] Instance memoryRunPolicy_eq_dec : EqDecision memoryRunPolicy.
Proof. solve_decision. Defined.

Record MemoryMutation := mkMutation {
  mut_pinned : option MemoryPin;
  mut_request_key : string;
  mut_action : string;
  mut_scope : MemoryScope;
  mut_entry : string;
  mut_expected : Z;
  mut_kind : string;
  mut_title : string;
  mut_body : string;
  mut_sources : list MemorySource;
  mut_reason : string;
}.

Record MemoryReceipt := mkReceipt {
  mc_entry : string; mc_revision : Z; mc_state : string; mc_action : string; mc_duplicate : bool;
}.
#[export] Instance MemoryReceipt_eq_dec : EqDecision MemoryReceipt.
Proof. solve_decision. Defined.

(** The three tables; an operation is its request's hash and its receipt. *)
Record memoryTables := mkMemory {
  mt_entries : list MemoryEntry;
  mt_revisions : list MemoryRevision;
  mt_operations : gmap string (string * MemoryReceipt);
}.

(** ** Model and tool protocol (model.go, tool_outcome.go) *)
Record ToolCall := mkToolCall { tc_id : string; tc_name : string; tc_arguments : string }.
#[export] Instance ToolCall_eq_dec : EqDecision ToolCall.
Proof. solve_decision. Defined.

Record ToolOutcome := mkToolOutcome {
  to_status : string; to_dispatched : bool; to_completion_known : bool; to_truncated : bool;
}.

(** [ToolReceipt], without the fields that describe the sandbox of a command. *)
Record ToolReceipt := mkToolReceipt {
  tx_kind : string; tx_path : string; tx_status : string; tx_before : string; tx_after : string;
  tx_command : string; tx_exit : option Z; tx_check : bool; tx_truncated : bool; tx_detail : string;
  tx_url : string; tx_http_status : Z;
}.
#[export] Instance ToolReceipt_eq_dec : EqDecision ToolReceipt.
Proof. solve_decision. Defined.

Record ToolResult := mkToolResult {
  tr_attachments : list AttachmentRef;
  tr_outcome : option ToolOutcome;
  tr_truncated : bool;
  tr_content : string;
  tr_is_error : bool;
  tr_receipts : list ToolReceipt;
  tr_memory : list MemoryUse;
}.

Record CallError := mkCallError {
  ce_certain : bool; ce_message : string; ce_category : string; ce_retry_after_ms : Z;
}.

Record ModelMessage := mkModelMessage {
  mm_deferred : bool;
  mm_attachments : list AttachmentRef;
  mm_channel : option ChannelMessageSource;
  mm_public : bool;
  mm_role : string;
  mm_content : string;
  mm_name : string;
  mm_tool_call_id : string;
  mm_tool_calls : list ToolCall;
}.

(** [ModelRecovery] (model_recovery.go). *)
Record ModelRecovery := mkModelRecovery {
  mr_root : string; mr_previous : string; mr_number : Z; mr_reason : string; mr_fingerprint : string;
}.
#[export] Instance ModelRecovery_eq_dec : EqDecision ModelRecovery.
Proof. solve_decision. Defined.

Record ModelRequest := mkModelRequest {
  rq_recovery : option ModelRecovery;
  rq_model_id : string;
  rq_purpose : string;
  rq_messages : list ModelMessage;
  rq_max_output_tokens : Z;
  rq_memory : list MemoryUse;
}.

Record ModelResponse := mkModelResponse {
  rs_content : string; rs_tool_calls : list ToolCall; rs_failure : option CallError;
}.

(** [request_json] and [response_json] of an attempt: the three kinds of
    request, and the bodies the code writes ([RText] is the bare reason
    [markUnknown] and [recover] store). *)
Inductive AttemptRequest :=
  | QModel (r : ModelRequest)
  | QTool (c : ToolCall)
  | QWorkflow (extension workflow input : string).

Inductive AttemptResponse :=
  | RModel (r : ModelResponse)
  | RTool (r : ToolResult)
  | RText (s : string).

(** ** Runs and attempts *)
Inductive RunStatus :=
  | Running | WaitingConfirmation | Completed | Stopped | Unknown | Limited | Failed | Abandoned.
#[export] Instance RunStatus_eq_dec : EqDecision RunStatus.
Proof. solve_decision. Defined.

Inductive AttemptStatus := APending | ADispatched | AFinished | AUnknown.
#[export] Instance AttemptStatus_eq_dec : EqDecision AttemptStatus.
Proof. solve_decision. Defined.

Inductive AttemptKind := KModel | KTool | KWorkflow.
#[export] Instance AttemptKind_eq_dec : EqDecision AttemptKind.
Proof. solve_decision. Defined.

(** ** Models (config.go, attachment_context.go, model_selection.go) *)
Record VisionCapabilities := mkVision {
  vi_enabled : bool; vi_png : bool; vi_jpeg : bool;
  vi_max_image : Z; vi_max_side : Z; vi_max_images : Z; vi_max_request : Z;
}.
#[export] Instance VisionCapabilities_eq_dec : EqDecision VisionCapabilities.
Proof. solve_decision. Defined.

Record ModelCapabilities := mkCapabilities {
  mc_vision : VisionCapabilities;
  mc_protocol : string;
  mc_streaming : string;
  mc_tools : string;
  mc_web_search : string;
  mc_embeddings : string;
  mc_parallel_tools : string;
  mc_context_bytes : Z;
  mc_context_tokens : Z;
  mc_context_source : string;
  mc_output_tokens : Z;
  mc_strength : string;
  mc_finish_reason : string;
  mc_usage : string;
  mc_error_policy : string;
  mc_token_limit : string;
}.
#[export] Instance ModelCapabilities_eq_dec : EqDecision ModelCapabilities.
Proof. solve_decision. Defined.

Record ModelConfig := mkModel {
  mo_provider : string; mo_key : string; mo_model : string; mo_capabilities : ModelCapabilities;
}.
#[export] Instance ModelConfig_eq_dec : EqDecision ModelConfig.
Proof. solve_decision. Defined.

Record ModelBinding := mkBinding {
  bd_id : string; bd_revision : string; bd_config : ModelConfig; bd_base_url : string;
}.
#[export] Instance ModelBinding_eq_dec : EqDecision ModelBinding.
Proof. solve_decision. Defined.

Record ExecutionLimits := mkLimits { xl_history : Z; xl_context : Z; xl_output : Z; xl_result : Z }.
#[export] Instance ExecutionLimits_eq_dec : EqDecision ExecutionLimits.
Proof. solve_decision. Defined.

(** [autoRunPolicy] and [RoutingDecision] (routing.go), and the fields of
    [runSnapshot] (model_selection.go) that select the model of a run. *)
Record autoRunPolicy := mkAutoPolicy {
  ap_models : list ModelBinding; ap_assessment_model : string; ap_max_assessments : Z; ap_max_upgrades : Z;
}.
#[export] Instance autoRunPolicy_eq_dec : EqDecision autoRunPolicy.
Proof. solve_decision. Defined.
Record RoutingDecision := mkRouting {
  rd_mode : string; rd_requested : string; rd_selected : string; rd_revision : string;
  rd_candidates : list string; rd_reason : string; rd_assessments : Z; rd_upgrades : Z;
}.
#[export] Instance RoutingDecision_eq_dec : EqDecision RoutingDecision.
Proof. solve_decision. Defined.
Record RunSelection := mkRunSelection {
  sn_bindings : list ModelBinding;
  sn_limits : option ExecutionLimits;
  sn_auto : option autoRunPolicy;
  sn_routing : list RoutingDecision;
}.
#[export] Instance RunSelection_eq_dec : EqDecision RunSelection.
Proof. solve_decision. Defined.
Definition no_selection : RunSelection := mkRunSelection [] None None [].

(** The fields of [runSnapshot] (model_selection.go) the store reads from
    [config_json]. *)
Record RunConfig := mkRunConfig {
  rc_input_request : string;
  rc_continuation_of : string;
  rc_attachments : list AttachmentRef;
  rc_channel : option ChannelRunOrigin;
  rc_selection : RunSelection;
  rc_permission : option PermissionSelection;
  rc_memory : option memoryRunPolicy;
  rc_workspace : string;             (** [Config.Workspace] *)
  rc_memory_entries : Z;             (** [Config.Memory.MaxEntries] *)
}.
#[export] Instance RunConfig_eq_dec : EqDecision RunConfig.
Proof. solve_decision. Defined.

Record Run := mkRun {
  run_id : string;
  run_conversation : string;
  run_request_key : string;
  run_prompt : string;
  run_config : RunConfig;
  run_status : RunStatus;
  run_stop_reason : string;
  run_steps : Z;
  run_elapsed_ms : Z;
  run_output : string;
  run_created_at : string;
  run_updated_at : string;
  run_active_since : string;
  run_seq : Z;
  run_last_attempt_seq : Z;
}.

Record Attempt := mkAttempt {
  att_id : string;
  att_run : string;
  att_kind : AttemptKind;
  att_call : string;
  att_status : AttemptStatus;
  att_request : AttemptRequest;
  att_response : option AttemptResponse;
  att_seq : Z;
}.

Record Conversation := mkConversation {
  cv_id : string;
  cv_title : string;
  cv_workspace : string;
  cv_space : string;
  cv_created_at : string;
  cv_updated_at : string;
  cv_last_message_seq : Z;
  cv_last_run_seq : Z;
}.

(** [Space] (store.go). *)
Record Space := mkSpace {
  sp_id : string;
  sp_title : string;
  sp_source : string;
  sp_kind : string;
  sp_external : string;
  sp_default : string;
  sp_active : string;
  sp_multi : bool;
  sp_created_at : string;
  sp_updated_at : string;
}.

Record Message := mkMessage {
  msg_id : Z;
  msg_conversation : string;
  msg_run : option string;
  msg_request_key : string;
  msg_body : ModelMessage;
}.

(** ** Collaboration overlay (collaboration_plan.go, collaboration_budget.go) *)
Record ParentBudget := mkParentBudget {
  pb_children : Z; pb_model_calls : Z; pb_tool_calls : Z; pb_output_bytes : Z;
  pb_concurrent : Z; pb_active_seconds : Z;
}.

Record ChildBudget := mkChildBudget {
  cb_steps : Z; cb_seconds : Z; cb_output_bytes : Z; cb_call_output_bytes : Z;
}.

#[export] Instance ParentBudget_eq_dec : EqDecision ParentBudget.
Proof. solve_decision. Defined.
#[export] Instance ChildBudget_eq_dec : EqDecision ChildBudget.
Proof. solve_decision. Defined.

(** [EvidenceRequirement] (collaboration_results.go), [SharedMemoryAccess] and
    [RoleMemory] (collaboration_memory.go). *)
Record EvidenceRequirement := mkRequirement { er_kind : string; er_target : string }.
#[export] Instance EvidenceRequirement_eq_dec : EqDecision EvidenceRequirement.
Proof. solve_decision. Defined.
Record SharedMemoryAccess := mkShared {
  sh_read : bool; sh_append : bool; sh_modify : bool; sh_kinds : list string; sh_entries : list string;
}.
#[export] Instance SharedMemoryAccess_eq_dec : EqDecision SharedMemoryAccess.
Proof. solve_decision. Defined.
Record RoleMemory := mkRoleMemory {
  rm_agent : string; rm_selection : MemorySelection; rm_shared : SharedMemoryAccess;
}.
#[export] Instance RoleMemory_eq_dec : EqDecision RoleMemory.
Proof. solve_decision. Defined.

Record RoleProfile := mkRoleProfile {
  rp_instructions : string;
  rp_model_id : string;
  rp_tools : list string;
  rp_paths : list string;
  rp_output_format : string;
  rp_acceptance : string;
  rp_evidence : list EvidenceRequirement;
  rp_budget : ChildBudget;
  rp_memory : RoleMemory;
}.
#[export] Instance RoleProfile_eq_dec : EqDecision RoleProfile.
Proof. solve_decision. Defined.

Record ResultReference := mkResultReference {
  rr_source : string; rr_scope : string; rr_offset : Z; rr_max_bytes : Z;
}.
#[export] Instance ResultReference_eq_dec : EqDecision ResultReference.
Proof. solve_decision. Defined.

Record ChildSpec := mkChildSpec {
  sp_name : string;
  sp_role : string;
  sp_objective : string;
  sp_context : string;
  sp_depends_on : list string;
  sp_results : list ResultReference;
}.
#[export] Instance ChildSpec_eq_dec : EqDecision ChildSpec.
Proof. solve_decision. Defined.

Record DeliveredResult := mkDelivered {
  dv_reference : ResultReference; dv_run : string; dv_output_hash : string; dv_section_hash : string;
  dv_next_offset : Z; dv_truncated : bool; dv_content : string;
}.
#[export] Instance DeliveredResult_eq_dec : EqDecision DeliveredResult.
Proof. solve_decision. Defined.

Record CollaborationPlan := mkPlan {
  pl_objective : string;
  pl_budget : ParentBudget;
  pl_roles : gmap string RoleProfile;
  pl_children : list ChildSpec;
  pl_parallel : bool;
  pl_max_replans : Z;
  pl_synthesis : bool;
}.

Record CollaborationUsage := mkUsage {
  us_children : Z; us_model_calls : Z; us_tool_calls : Z; us_output_bytes : Z;
  us_active_children : Z; us_replans : Z;
}.

Record childRecord := mkChild {
  ch_spec : ChildSpec;
  ch_run : string;
  ch_control : string;
  ch_output_bytes : Z;
  ch_retired : bool;
  ch_delivered : list DeliveredResult;
  ch_results_ready : bool;
}.

Record outputReservation := mkReservation {
  re_child : string; re_bytes : Z; re_observed : Z; re_final : bool;
}.

(** [CollaborationSettings] (collaboration_entry.go). *)
Record CollaborationSettings := mkSettings {
  st_mode : string;
  st_budget : ParentBudget;
  st_child : ChildBudget;
  st_max_replans : Z;
  st_models : list string;
  st_tools : list string;
  st_paths : list string;
  st_synthesis : bool;
  st_shared : SharedMemoryAccess;
}.

(** Without [config_json] and [reason]. *)
Record collaborationRecord := mkRecord {
  cr_parent : string;
  cr_plan : CollaborationPlan;
  cr_control : string;
  cr_usage : CollaborationUsage;
  cr_children : list childRecord;
  cr_active : list string;
  cr_reservations : gmap string outputReservation;
  cr_accepted_digest : string;
  cr_decision : string;
  cr_settings : option CollaborationSettings;
  cr_planning : bool;
  cr_single : bool;
  cr_revision : Z;
  cr_replan_attempt : string;
  cr_replanned : list string;
  cr_synthesis_attempt : string;
  cr_synthesis_digest : string;
  cr_initial_plan : string;
}.
Definition cr_settings_child (r : collaborationRecord) : option ChildBudget := st_child <$> cr_settings r.

(** [PlanRevision] (collaboration_revision.go). *)
Record PlanRevision := mkPlanRevision {
  rv_revision : Z; rv_source : string; rv_reason : string; rv_attempt : string; rv_created_at : string;
  rv_plan : CollaborationPlan; rv_retired : list string;
}.

(** ** Pending input (input_queue.go), without the frozen capabilities *)
Record PendingInput := mkInput {
  in_adopted_at : string;
  in_key : string;
  in_action : string;
  in_status : string;
  in_message : Z;
  in_conversation : string;
  in_target_run : string;
  in_run : string;
  in_principal : string;
  in_created_at : string;
  in_attachments : list AttachmentRef;
  in_person : string;
  in_remote : option string;         (** the principal of [Remote] *)
  in_channel : option ChannelRunOrigin;
  in_binding : ModelBinding;
  in_config_hash : string;
  in_profile_hash : string;
  in_permission : string;
}.

(** [LocalSpaceID], and where a space's permission is kept. *)
Definition LocalSpaceID : string := "local".
Definition permissionKey (space : string) : string := "space/permission/" +:+ space.

(** ** The key/value table [fa.meta], by the kind of document of its value *)
Inductive MetaValue :=
  | MText (s : string)
  | MReplacement (replacement root : string) (number : Z)
  | MVerified (outcome run : string)
  | MRecovery (r : ModelRecovery)
  | MInput (i : PendingInput)
  | MCollaboration (r : collaborationRecord)
  | MBranch (source : string)
  | MAttachment (r : attachmentRecord)
  | MCommand (conversation state : string) (reviewed : bool)
  | MSend (state : string)
  | MPermission (p : PermissionSelection)
  | MPerson (p : PersonPermission)
  | MAccess (g : TelegramAccess)
  | MMemory (s : MemorySelection)
  | MDelivery (run state : string) (bytes : Z) (target : ChannelTarget)
  | MRevision (r : PlanRevision).

Record db := mkDb {
  spaces : list Space;
  conversations : list Conversation;
  runs : list Run;
  attempts : list Attempt;
  messages : list Message;
  meta : gmap string MetaValue;
  memory : memoryTables;
}.

(** The database, and how far the sources of identifiers and of time were
    consumed. *)
Record world := mkWorld { w_db : db; w_ids : nat; w_ticks : nat }.

(** ** The host: what the code uses of the outside world

    [newID_at n] is the n-th value of [newID()] (crypto/rand), [now_at n] the
    n-th reading of the clock as [nowText()] writes it; [hash_request] is
    [contentHash] of the stored request bytes,
    [hash_response] of the stored response; [json_*] the JSON text of a value;
    [sha256hex] of any other text; [len_*] the length of the JSON
    encoding; [json_revision]/[json_digest] read a field of a JSON text, [None]
    when it does not decode; [text_lt] is the
    order of the database's text columns. *)
Class Host := {
  newID_at : nat → string;
  now_at : nat → string;
  elapsed_since : nat → string → option Z;
  sha256hex : string → string;
  hash_request : AttemptRequest → string;
  hash_response : AttemptResponse → string;
  json_scope : MemoryScope → string;
  json_mutation : MemoryMutation → string;
  json_receipt : MemoryReceipt → string;
  len_response : AttemptResponse → Z;
  len_collaboration : collaborationRecord → Z;
  json_revision : string → option Z;
  json_digest : string → option string;
  text_lt : string → string → bool;
}.

(** The read-only check the store asks of the result component
    (collaboration_results.go); [Results.results_checks] implements it. *)
Class ReadChecks := {
  validateDeliveredResults : db → collaborationRecord → childRecord → res unit;
}.
