(* ===== verification/Sql.v ===== *)
(** * Transactions and statements

    A store method is a computation over the world that either returns a value
    or fails. As in Go, a failing statement leaves what was written before it in
    the open transaction; [transaction] is [BeginTx] ... [defer tx.Rollback()]
    ... [Commit]: it discards the writes of a failing body. Each SQL statement
    form the store uses is one primitive, which enforces the schema's
    constraints (postgres_schema.sql) and fails with [ErrConstraint]. Failures
    of the database connection itself are not modelled. *)

From S2P Require Import Prelude Data.

Definition M (A : Type) : Type := world → res A * world.
#[export] Instance M_ret : MRet M := λ A a w, (Ok a, w).
#[export] Instance M_bind : MBind M := λ A B f m w,
  match m w with (Ok a, w') => f a w' | (Err e, w') => (Err e, w') end.

Definition fail {A} (e : error) : M A := λ w, (Err e, w).
Definition guard_ (b : bool) (e : error) : M unit := if b then mret tt else fail e.
Definition query {A} (f : db → A) : M A := λ w, (Ok (f (w_db w)), w).
Definition lift {A} (r : res A) : M A := λ w, (r, w).
(** A row that must exist: [QueryRowContext(...).Scan]. *)
Definition query_row {A} (f : db → option A) : M A := λ w,
  (match f (w_db w) with Some a => Ok a | None => Err ErrNoRows end, w).
Definition write (f : db → db) : M unit := λ w, (Ok tt, mkWorld (f (w_db w)) (w_ids w) (w_ticks w)).

(** Any error of a check is this one. *)
Definition or_else {A} (m : M A) (e : error) : M A := λ w, match m w with (Ok a, w') => (Ok a, w') | (Err _, w') => (Err e, w') end.

(** [newID()] and [nowText()]. *)
Section host.
Context {H : Host}.
Definition newID : M string := λ w,
  (Ok (newID_at (w_ids w)), mkWorld (w_db w) (S (w_ids w)) (w_ticks w)).
Definition nowText : M string := λ w,
  (Ok (now_at (w_ticks w)), mkWorld (w_db w) (w_ids w) (S (w_ticks w))).
End host.

Definition rollback (w w' : world) : world := mkWorld (w_db w) (w_ids w') (w_ticks w').

Definition transaction {A} (body : M A) : M A := λ w,
  match body w with (Ok a, w') => (Ok a, w') | (Err e, w') => (Err e, rollback w w') end.

(** [return errors.Join(outputErr, tx.Commit())]: the writes are committed and
    the error, when there is one, is returned. *)
Definition transaction_join {A} (body : M (A * option error)) : M A := λ w,
  match body w with
  | (Ok (a, None), w') => (Ok a, w')
  | (Ok (_, Some e), w') => (Err e, w')
  | (Err e, w') => (Err e, rollback w w')
  end.

(** A transaction that is never committed ([return] before [tx.Commit()]). *)
Definition read_only {A} (body : M A) : M A := λ w,
  match body w with (r, w') => (r, rollback w w') end.

(** ** Conditions of the schema *)
Definition settledLimitPrefix : string := "settled_limit:".

(** [activeRunPredicate] (limit_continuation.go), also the condition of the
    unique index one_active_run. *)
Definition activeRunPredicate (r : Run) : bool :=
  match run_status r with
  | Running | WaitingConfirmation | Stopped | Unknown => true
  | Limited => negb (String.prefix settledLimitPrefix (run_stop_reason r))
  | _ => false
  end.

Definition active_conversations (l : list Run) : list string :=
  map run_conversation (filter (λ r, activeRunPredicate r = true) l).

(** The constraints of [fa.runs]: the primary key, the unique indexes and the
    check on [steps]. *)
Definition runs_constraints (l : list Run) : bool :=
  bool_decide (NoDup (map run_id l)) &&
  bool_decide (NoDup (map (λ r, (run_conversation r, run_request_key r)) l)) &&
  bool_decide (NoDup (active_conversations l)) &&
  forallb (λ r, 0 <=? run_steps r)%Z l.

(** Setters used by the UPDATE statements on runs and attempts. *)
Definition set_status (s : RunStatus) (reason now : string) (r : Run) : Run :=
  mkRun (run_id r) (run_conversation r) (run_request_key r) (run_prompt r) (run_config r)
    s reason (run_steps r) (run_elapsed_ms r) (run_output r) (run_created_at r) now
    (run_active_since r) (run_seq r) (run_last_attempt_seq r).
Definition set_output (out : string) (r : Run) : Run :=
  mkRun (run_id r) (run_conversation r) (run_request_key r) (run_prompt r) (run_config r)
    (run_status r) (run_stop_reason r) (run_steps r) (run_elapsed_ms r) out (run_created_at r)
    (run_updated_at r) (run_active_since r) (run_seq r) (run_last_attempt_seq r).
Definition add_step (r : Run) : Run :=
  mkRun (run_id r) (run_conversation r) (run_request_key r) (run_prompt r) (run_config r)
    (run_status r) (run_stop_reason r) (run_steps r + 1) (run_elapsed_ms r) (run_output r)
    (run_created_at r) (run_updated_at r) (run_active_since r) (run_seq r) (run_last_attempt_seq r).
Definition add_elapsed (ms : Z) (r : Run) : Run :=
  mkRun (run_id r) (run_conversation r) (run_request_key r) (run_prompt r) (run_config r)
    (run_status r) (run_stop_reason r) (run_steps r) (run_elapsed_ms r + ms) (run_output r)
    (run_created_at r) (run_updated_at r) "" (run_seq r) (run_last_attempt_seq r).
Definition set_attempt (s : AttemptStatus) (resp : option AttemptResponse) (a : Attempt) : Attempt :=
  mkAttempt (att_id a) (att_run a) (att_kind a) (att_call a) s (att_request a) resp (att_seq a).
Definition conv_run_seq (n : Z) (c : Conversation) : Conversation :=
  mkConversation (cv_id c) (cv_title c) (cv_workspace c) (cv_space c) (cv_created_at c) (cv_updated_at c) (cv_last_message_seq c) n.
Definition conv_message_seq (n : Z) (c : Conversation) : Conversation :=
  mkConversation (cv_id c) (cv_title c) (cv_workspace c) (cv_space c) (cv_created_at c) (cv_updated_at c) n (cv_last_run_seq c).
Definition conv_move (space now : string) (c : Conversation) : Conversation :=
  mkConversation (cv_id c) (cv_title c) (cv_workspace c) space (cv_created_at c) now (cv_last_message_seq c) (cv_last_run_seq c).
Definition conv_touch (now : string) (c : Conversation) : Conversation := conv_move (cv_space c) now c.
Definition set_run_last_attempt_seq (n : Z) (r : Run) : Run :=
  mkRun (run_id r) (run_conversation r) (run_request_key r) (run_prompt r) (run_config r)
    (run_status r) (run_stop_reason r) (run_steps r) (run_elapsed_ms r) (run_output r)
    (run_created_at r) (run_updated_at r) (run_active_since r) (run_seq r) n.

(** ** Statements *)
Definition set_runs (l : list Run) (d : db) : db :=
  mkDb (spaces d) (conversations d) l (attempts d) (messages d) (meta d) (memory d).
Definition set_attempts (l : list Attempt) (d : db) : db :=
  mkDb (spaces d) (conversations d) (runs d) l (messages d) (meta d) (memory d).
Definition set_messages (l : list Message) (d : db) : db :=
  mkDb (spaces d) (conversations d) (runs d) (attempts d) l (meta d) (memory d).
Definition set_conversations (l : list Conversation) (d : db) : db :=
  mkDb (spaces d) l (runs d) (attempts d) (messages d) (meta d) (memory d).
Definition set_meta (m : gmap string MetaValue) (d : db) : db :=
  mkDb (spaces d) (conversations d) (runs d) (attempts d) (messages d) m (memory d).
Definition set_spaces (l : list Space) (d : db) : db :=
  mkDb l (conversations d) (runs d) (attempts d) (messages d) (meta d) (memory d).

Definition set_memory (m : memoryTables) (d : db) : db :=
  mkDb (spaces d) (conversations d) (runs d) (attempts d) (messages d) (meta d) m.

Definition update_rows {A} (p : A → bool) (f : A → A) (l : list A) : list A :=
  map (λ x, if p x then f x else x) l.

Definition find_run (id : string) (d : db) : option Run :=
  List.find (λ r, bool_decide (run_id r = id)) (runs d).
Definition find_attempt (id : string) (d : db) : option Attempt :=
  List.find (λ a, bool_decide (att_id a = id)) (attempts d).
Definition find_conversation (id : string) (d : db) : option Conversation :=
  List.find (λ c, bool_decide (cv_id c = id)) (conversations d).

(** UPDATE fa.runs SET f WHERE p; the number of rows affected. *)
Definition update_runs (p : Run → bool) (f : Run → Run) : M nat :=
  d ← query id;
  let l := update_rows p f (runs d) in
  _ ← guard_ (runs_constraints l) ErrConstraint;
  _ ← write (set_runs l);
  mret (count_if p (runs d)).

(** UPDATE fa.attempts SET f WHERE p. *)
Definition update_attempts (p : Attempt → bool) (f : Attempt → Attempt) : M nat :=
  d ← query id;
  _ ← write (set_attempts (update_rows p f (attempts d)));
  mret (count_if p (attempts d)).

(** INSERT INTO fa.runs, with the trigger allocate_run. *)
Definition insert_run (r : Run) : M unit :=
  c ← query_row (find_conversation (run_conversation r));
  d ← query id;
  let seq := (cv_last_run_seq c + 1)%Z in
  let r := mkRun (run_id r) (run_conversation r) (run_request_key r) (run_prompt r) (run_config r)
             (run_status r) (run_stop_reason r) (run_steps r) (run_elapsed_ms r) (run_output r)
             (run_created_at r) (run_updated_at r) (run_active_since r) seq 0 in
  let l := runs d ++ [r] in
  _ ← guard_ (runs_constraints l) ErrConstraint;
  write (λ d, set_runs l (set_conversations (update_rows (λ c, bool_decide (cv_id c = run_conversation r))
         (conv_run_seq seq)
         (conversations d)) d)).

(** INSERT INTO fa.attempts, with the trigger allocate_attempt. *)
Definition insert_attempt (a : Attempt) : M unit :=
  d ← query id;
  r ← match find_run (att_run a) d with Some r => mret r | None => fail ErrConstraint end;
  _ ← guard_ (negb (existsb (λ b, bool_decide (att_id b = att_id a)) (attempts d))) ErrConstraint;
  let seq := (run_last_attempt_seq r + 1)%Z in
  write (λ d, set_attempts (attempts d ++
    [mkAttempt (att_id a) (att_run a) (att_kind a) (att_call a) (att_status a) (att_request a)
       (att_response a) seq])
    (set_runs (update_rows (λ r, bool_decide (run_id r = att_run a)) (set_run_last_attempt_seq seq) (runs d)) d)).

(** INSERT INTO fa.messages, with the trigger allocate_message; RETURNING id. *)
Definition insert_message_row (conversation : string) (run : option string) (body : ModelMessage) : M Z :=
  c ← query_row (find_conversation conversation);
  d ← query id;
  let next := (cv_last_message_seq c + 1)%Z in
  _ ← write (λ d, set_messages (messages d ++ [mkMessage next conversation run "" body])
       (set_conversations (update_rows (λ c, bool_decide (cv_id c = conversation))
         (conv_message_seq next)
         (conversations d)) d));
  mret next.

Definition set_body (b : ModelMessage) (m : Message) : Message :=
  mkMessage (msg_id m) (msg_conversation m) (msg_run m) (msg_request_key m) b.
(** UPDATE fa.messages SET f WHERE p, not changing ids. *)
Definition update_messages (p : Message → bool) (f : Message → Message) : M nat :=
  d ← query id;
  _ ← write (set_messages (update_rows p f (messages d)));
  mret (count_if p (messages d)).

(** UPDATE fa.messages SET id=last+1, run_id, body_json WHERE id AND
    conversation_id AND run_id IS NULL, with the trigger allocate_message;
    RETURNING id. *)
Definition move_message_row (conversation : string) (old : Z) (run : string)
    (f : ModelMessage → ModelMessage) : M Z :=
  c ← query_row (find_conversation conversation);
  d ← query id;
  let next := (cv_last_message_seq c + 1)%Z in
  let target m := bool_decide (msg_id m = old) && bool_decide (msg_conversation m = conversation) &&
                  bool_decide (msg_run m = None) in
  _ ← guard_ (existsb target (messages d)) ErrNoRows;
  _ ← write (λ d, set_messages (update_rows target
         (λ m, mkMessage next (msg_conversation m) (Some run) (msg_request_key m) (f (msg_body m)))
         (messages d))
       (set_conversations (update_rows (λ c, bool_decide (cv_id c = conversation))
         (conv_message_seq next)
         (conversations d)) d));
  mret next.

Definition touch_conversation (id now : string) : M unit :=
  d ← query Datatypes.id;
  write (set_conversations (update_rows (λ c, bool_decide (cv_id c = id))
    (conv_touch now)
    (conversations d))).

(** fa.meta: INSERT (primary key), INSERT ... ON CONFLICT DO UPDATE. *)
Definition meta_insert (k : string) (v : MetaValue) : M unit :=
  d ← query id;
  _ ← guard_ (bool_decide (meta d !! k = None)) ErrConstraint;
  write (set_meta (<[k := v]> (meta d))).
Definition meta_upsert (k : string) (v : MetaValue) : M unit :=
  d ← query id; write (set_meta (<[k := v]> (meta d))).


Definition meta_delete (p : string → MetaValue → bool) : M unit :=
  write (λ d, set_meta (filter (λ kv, p kv.1 kv.2 = false) (meta d)) d).
Definition meta_update (f : string → MetaValue → MetaValue) : M unit :=
  write (λ d, set_meta (map_imap (λ k v, Some (f k v)) (meta d)) d).

(** ** Spaces *)
Definition find_space (id : string) (d : db) : option Space :=
  List.find (λ s, bool_decide (sp_id s = id)) (spaces d).

(** The constraints of [fa.spaces]: the primary key, the unique identity of an
    external space and the check on the source. *)
Definition external_identity (s : Space) : bool :=
  negb (bool_decide (sp_source s = "local")) && negb (bool_decide (sp_external s = "")).
Definition spaces_constraints (l : list Space) : bool :=
  bool_decide (NoDup (map sp_id l)) &&
  bool_decide (NoDup (map (λ s, (sp_source s, sp_external s)) (filter (λ s, external_identity s = true) l))) &&
  forallb (λ s, bool_decide (sp_source s ∈ ["local"; "telegram"; "lark"; "qq"])) l.

(** The foreign key of [fa.conversations] on [fa.spaces]. *)
Definition space_references (cs : list Conversation) (l : list Space) : bool :=
  forallb (λ c, existsb (λ s, bool_decide (sp_id s = cv_space c)) l) cs.

(** INSERT, UPDATE and DELETE of spaces, and the statements on conversations
    the foreign key restricts. *)
Definition change_spaces (f : list Space → list Space) : M unit :=
  d ← query id;
  _ ← guard_ (spaces_constraints (f (spaces d)) && space_references (conversations d) (f (spaces d))) ErrConstraint;
  write (set_spaces (f (spaces d))).
Definition insert_space (s : Space) : M unit := change_spaces (λ l, l ++ [s]).
Definition delete_space (id : string) : M unit := change_spaces (filter (λ s, sp_id s ≠ id)).
Definition update_spaces (p : Space → bool) (f : Space → Space) : M nat :=
  d ← query id;
  _ ← change_spaces (update_rows p f);
  mret (count_if p (spaces d)).
Definition move_conversations (p : Conversation → bool) (space now : string) : M unit :=
  d ← query id;
  _ ← guard_ (space_references (update_rows p (conv_move space now) (conversations d)) (spaces d)) ErrConstraint;
  write (set_conversations (update_rows p (conv_move space now) (conversations d))).
Definition insert_conversation (c : Conversation) : M unit :=
  d ← query id;
  _ ← guard_ (bool_decide (find_conversation (cv_id c) d = None) && space_references [c] (spaces d)) ErrConstraint;
  write (set_conversations (conversations d ++ [c])).

(** INSERT INTO fa.messages(...) ON CONFLICT(request_key) DO NOTHING, with a
    request key: the trigger allocates the number also when the row is not
    inserted. *)
Definition insert_message_once (conversation key : string) (body : ModelMessage) : M unit :=
  c ← query_row (find_conversation conversation);
  d ← query id;
  let next := (cv_last_message_seq c + 1)%Z in
  let dup := existsb (λ m, bool_decide (msg_request_key m = key)) (messages d) in
  write (λ d, set_messages (if dup then messages d else messages d ++ [mkMessage next conversation None key body])
       (set_conversations (update_rows (λ c, bool_decide (cv_id c = conversation)) (conv_message_seq next) (conversations d)) d)).
