(* ===== verification/Memory.v ===== *)
(** * Memory: scopes, grants and reading

    Model of the reading half of src/internal/harness/memory.go, of
    memory_context.go and of memory_pins.go: which entries of memory a run or the
    user may see, the policy a run freezes and the authority it gives, and the
    check before a model call that what the request cites is exactly what memory
    holds. [filepath] is that of Unix. *)

From S2P Require Import Prelude Text Utf8 Data Sql.
From Stdlib Require Import Ascii.

(** ** Identifiers, scopes, sources *)
Definition id_char (c : ascii) : bool :=
  let n := code c in
  between 97 122 n || between 65 90 n || between 48 57 n || bool_decide (c ∈ ["_"; "-"; "."]%char).

(** [memoryID]: its loop reads runes, but only ASCII ones pass. *)
Definition memoryID (value : string) : bool :=
  between 1 128 (String.length value) && forallb id_char (String.list_ascii_of_string value)
  && negb (bool_decide (value = ".") || bool_decide (value = "..")).

Definition clean_absolute (p : string) : bool := HasPrefix p "/" && bool_decide (Clean p = p).

(** [MemoryScope.validate]. *)
Definition scope_validate (s : MemoryScope) : res unit :=
  let owner := ms_owner s in
  let validOwner :=
    if bool_decide (ms_kind s = "knowledge") then
      between 1 128 (String.length owner) && bool_decide (TrimSpace owner = owner) && ValidString owner
      && negb (ContainsAny owner [chr 0; return_; newline; chr 9])
    else memoryID owner in
  check (negb (negb (bool_decide (ms_kind s ∈ ["private"; "shared"; "knowledge"])) || negb validOwner
    || negb (bool_decide (ms_task s = "")) && negb (memoryID (ms_task s))
    || negb (bool_decide (ms_project s = "")) && negb (clean_absolute (ms_project s))
    || negb (bool_decide (ms_kind s = "private")) && negb (bool_decide (ms_task s = ""))
    || bool_decide (ms_kind s = "shared") && bool_decide (ms_project s = ""))) ErrMemoryDenied.

(** [MemorySource.validate]; a hash is 32 bytes in lower-case hexadecimal. *)
Definition hex_lower (c : ascii) : bool := between 48 57 (code c) || between 97 102 (code c).
Definition source_hash_ok (h : string) : bool :=
  bool_decide (String.length h = 64%nat) && forallb hex_lower (String.list_ascii_of_string h).
Definition source_validate (s : MemorySource) : res unit :=
  _ ← check (bool_decide (so_hash s = "") || source_hash_ok (so_hash s)) ErrMemoryDenied;
  let hashed := bool_decide (String.length (so_hash s) = 64%nat) in
  let no x := bool_decide (x = "") in
  check
    (if bool_decide (so_kind s = "user") then bool_decide (s = mkSource "user" "" "" "" 0 "" "")
     else if bool_decide (so_kind s ∈ ["request"; "run"]) then
       memoryID (so_run s) && hashed && no (so_attempt s) && no (so_entry s) && (so_revision s =? 0)%Z && no (so_path s)
     else if bool_decide (so_kind s = "attempt") then
       memoryID (so_run s) && memoryID (so_attempt s) && hashed && no (so_entry s) && (so_revision s =? 0)%Z && no (so_path s)
     else if bool_decide (so_kind s = "memory") then
       memoryID (so_entry s) && (0 <? so_revision s)%Z && hashed && no (so_run s) && no (so_attempt s) && no (so_path s)
     else if bool_decide (so_kind s = "file") then
       clean_absolute (so_path s) && (String.length (so_path s) <=? 4096)%nat && hashed
       && no (so_run s) && no (so_attempt s) && no (so_entry s) && (so_revision s =? 0)%Z
     else false) ErrMemoryDenied.

(** [memoryKind]. *)
Definition memoryKinds : list string :=
  ["fact"; "hypothesis"; "finding"; "decision"; "question"; "artifact"; "preference"; "background"].
Definition memoryKind (k : string) : bool := bool_decide (k ∈ memoryKinds).

(** [MemoryPin.validate]. *)
Definition pin_validate (p : MemoryPin) : res unit :=
  check
    (if bool_decide (pin_scope p = "conversation") then memoryID (pin_target p)
     else if bool_decide (pin_scope p = "workspace") then clean_absolute (pin_target p)
     else if bool_decide (pin_scope p = "global") then bool_decide (pin_target p = "")
     else false) ErrMemoryDenied.

(** ** Grants *)

(** [MemoryGrant.validate]. *)
Definition grant_validate (g : MemoryGrant) : res unit :=
  _ ← check (is_ok (scope_validate (mg_scope g)) && negb (mg_modify g && negb (mg_read g)
       || (8 <? length (mg_kinds g))%nat || (64 <? length (mg_entries g))%nat
       || mg_append g && negb (bool_decide (mg_entries g = []))
       || negb (mg_read g) && negb (mg_append g) && negb (mg_modify g))) ErrMemoryDenied;
  _ ← check (forallb memoryKind (mg_kinds g) && bool_decide (NoDup (mg_kinds g))) ErrMemoryDenied;
  check (forallb memoryID (mg_entries g) && bool_decide (NoDup (mg_entries g))) ErrMemoryDenied.

(** [memoryAuthority]. *)
Record memoryAuthority := mkAuthority {
  au_user : bool; au_agent : string; au_run : string; au_parent : string; au_project : string;
  au_grants : list MemoryGrant; au_files : gmap string string;
}.
Definition userAuthority (project : string) : memoryAuthority := mkAuthority true "" "" "" project [] ∅.

Definition grant_allows (action : string) (g : MemoryGrant) : bool :=
  if bool_decide (action = "read") then mg_read g
  else if bool_decide (action = "create") then mg_append g else mg_modify g.

(** [memoryAuthority.grant]. *)
Definition authority_grant (a : memoryAuthority) (s : MemoryScope) (action : string) : res MemoryGrant :=
  _ ← check (is_ok (scope_validate s) && (bool_decide (ms_project s = "") || bool_decide (ms_project s = au_project a))) ErrMemoryDenied;
  if au_user a then Ok (mkGrant s true true true [] [])
  else
    _ ← check (negb (negb (memoryID (au_agent a)) || negb (memoryID (au_run a))
         || bool_decide (ms_kind s = "private") && (negb (bool_decide (ms_owner s = au_agent a))
            || negb (bool_decide (ms_task s = "")) && negb (bool_decide (ms_task s = au_run a)))
         || bool_decide (ms_kind s = "shared") && negb (bool_decide (ms_owner s = au_parent a)))) ErrMemoryDenied;
    _ ← check (negb (negb (bool_decide (action = "read")) && (bool_decide (ms_kind s = "knowledge")
         || bool_decide (ms_kind s = "private") && bool_decide (ms_task s = "")))) ErrMemoryDenied;
    match List.find (λ g, bool_decide (mg_scope g = s) && is_ok (grant_validate g) && grant_allows action g) (au_grants a) with
    | Some g => Ok g
    | None => Err ErrMemoryDenied
    end.

(** ** Entries *)
Definition memory_states : list string := ["active"; "disabled"; "deleted"].

(** The checks of [scanMemory]. *)
Definition has_nul (s : string) : bool := ContainsByte s (chr 0).
Definition scanMemory (e : MemoryEntry) : res MemoryEntry :=
  _ ← check (negb (negb (memoryID (me_id e)) || negb (is_ok (scope_validate (me_scope e)))
       || (me_revision e <? 1)%Z || (256 <? me_revision e)%Z || negb (bool_decide (me_state e ∈ memory_states))
       || negb (memoryKind (me_kind e)) || (256 <? String.length (me_title e))%nat || (65536 <? Z.of_nat (String.length (me_body e)))%Z
       || (16 <? length (me_sources e))%nat || negb (ValidString (me_title e +:+ me_body e))
       || has_nul (me_title e +:+ me_body e))) ErrStoreFormat;
  _ ← check (forallb (λ s, is_ok (source_validate s)) (me_sources e)) ErrStoreFormat;
  Ok e.

Definition find_entry (id : string) (d : db) : option MemoryEntry :=
  List.find (λ e, bool_decide (me_id e = id)) (mt_entries (memory d)).

(** The condition of the queries: the scope and what the grant is limited to. *)
Definition granted (g : MemoryGrant) (s : MemoryScope) (e : MemoryEntry) : bool :=
  bool_decide (me_scope e = s) && (bool_decide (mg_kinds g = []) || bool_decide (me_kind e ∈ mg_kinds g))
  && (bool_decide (mg_entries g = []) || bool_decide (me_id e ∈ mg_entries g)).

(** [getMemory]: the row it found, deleted or not, and what it returns. *)
Definition memory_row (d : db) (a : memoryAuthority) (s : MemoryScope) (id action : string) : res MemoryEntry :=
  g ← authority_grant a s action;
  match find_entry id d with
  | Some e => if granted g s e then scanMemory e else Err ErrMemoryMissing
  | None => Err ErrMemoryMissing
  end.
Definition getMemory (d : db) (a : memoryAuthority) (s : MemoryScope) (id action : string) : res MemoryEntry :=
  e ← memory_row d a s id action;
  if bool_decide (me_state e = "deleted") then Err ErrMemoryDeleted else Ok e.

(** [listMemory]: metadata only, newest first. *)
Definition without_body (e : MemoryEntry) : MemoryEntry :=
  mkEntry (me_pinned e) (me_id e) (me_scope e) (me_revision e) (me_state e) (me_kind e) (me_title e) ""
    (me_author e) (me_sources e) (me_created_at e) (me_updated_at e).
Section host.
Context {H : Host}.
Definition newer (a b : MemoryEntry) : Prop :=
  text_lt (me_updated_at b) (me_updated_at a) = true
  ∨ text_lt (me_updated_at a) (me_updated_at b) = false ∧ text_lt (me_id b) (me_id a) = false.
#[export] Instance newer_dec : RelDecision newer.
Proof. intros a b. unfold newer. apply _. Defined.
Definition listMemory (d : db) (a : memoryAuthority) (s : MemoryScope) (limit : Z) : res (list MemoryEntry) :=
  g ← authority_grant a s "read";
  _ ← check ((1 <=? limit)%Z && (limit <=? 100)%Z) (EText "harness: memory list limit must be 1-100");
  mapM scanMemory (map without_body (take (Z.to_nat limit)
    (merge_sort newer (filter (λ e, granted g s e && negb (bool_decide (me_state e = "deleted")) = true) (mt_entries (memory d)))))).

(** ** Policies of runs *)

(** [MemorySelection.validate]. *)
Definition selection_check (agent project : string) (sel : MemorySelection) : res unit :=
  _ ← check ((length (sel_excluded_pins sel) <=? 64)%nat && (length (sel_pinned_grants sel) <=? 64)%nat) ErrMemoryDenied;
  _ ← check (forallb memoryID (sel_excluded_pins sel ++ sel_pinned_grants sel)) ErrMemoryDenied;
  _ ← check ((length (sel_entries sel) <=? 64)%nat && (length (sel_knowledge sel) <=? 8)%nat) ErrMemoryDenied;
  let here s := bool_decide (ms_project s = "") || bool_decide (ms_project s = project) in
  _ ← check (forallb (λ r, let s := mref_scope r in
         is_ok (scope_validate s) && bool_decide (ms_kind s = "private") && bool_decide (ms_owner s = agent)
         && bool_decide (ms_task s = "") && here s && memoryID (mref_entry r)) (sel_entries sel)
       && bool_decide (NoDup (sel_entries sel))) ErrMemoryDenied;
  check (forallb (λ s, is_ok (scope_validate s) && bool_decide (ms_kind s = "knowledge") && here s) (sel_knowledge sel)
         && bool_decide (NoDup (sel_knowledge sel))) ErrMemoryDenied.

(** [memoryRunPolicy.validate]. *)
Definition policy_validate (project : string) (p : memoryRunPolicy) : res unit :=
  _ ← check (memoryID (mp_agent p) && (bool_decide (mp_parent p = "") || memoryID (mp_parent p))
             && is_ok (selection_check (mp_agent p) project (mp_selection p))) ErrMemoryDenied;
  match mp_shared p with
  | None => Ok tt
  | Some g =>
      _ ← check (is_ok (grant_validate g) && bool_decide (ms_kind (mg_scope g) = "shared")
                 && bool_decide (ms_owner (mg_scope g) = mp_parent p) && bool_decide (ms_project (mg_scope g) = project)) ErrMemoryDenied;
      check (negb (existsb (λ k, bool_decide (k = "preference") || bool_decide (k = "background")) (mg_kinds g))) ErrMemoryDenied
  end.

(** [memoryRunPolicy.authority]: the entries selected in one scope make one
    grant. *)
Fixpoint add_reference (r : MemoryReference) (l : list MemoryGrant) : list MemoryGrant :=
  match l with
  | [] => [mkGrant (mref_scope r) true false false [] [mref_entry r]]
  | g :: l =>
      if bool_decide (mg_scope g = mref_scope r)
      then mkGrant (mg_scope g) (mg_read g) (mg_append g) (mg_modify g) (mg_kinds g) (mg_entries g ++ [mref_entry r]) :: l
      else g :: add_reference r l
  end.
Definition policy_authority (run project : string) (p : memoryRunPolicy) : memoryAuthority :=
  mkAuthority false (mp_agent p) run (mp_parent p) project
    (foldl (λ l r, add_reference r l) [] (sel_entries (mp_selection p))
     ++ (if sel_task_private (mp_selection p) && negb (bool_decide (run = ""))
         then [mkGrant (mkScope "private" (mp_agent p) project run) true true true [] []] else [])
     ++ option_list (mp_shared p)
     ++ map (λ s, mkGrant s true false false [] []) (sel_knowledge (mp_selection p))) ∅.

(** [SharedMemoryAccess.enabled], [grant] and [RoleMemory.policy]
    (collaboration_memory.go); [fresh] is the identifier [newID()] gives an agent
    without a name. *)
Definition access_enabled (a : SharedMemoryAccess) : bool := sh_read a || sh_append a || sh_modify a.
Definition access_grant (parent project : string) (a : SharedMemoryAccess) : option MemoryGrant :=
  if access_enabled a then
    Some (mkGrant (mkScope "shared" parent project "") (sh_read a) (sh_append a) (sh_modify a)
            (if bool_decide (sh_kinds a = []) then ["fact"; "hypothesis"; "finding"; "decision"; "question"; "artifact"] else sh_kinds a)
            (sh_entries a))
  else None.
Definition role_policy (parent project agent fresh : string) (m : RoleMemory) : memoryRunPolicy :=
  let agent := if bool_decide (rm_agent m = "") then agent else rm_agent m in
  let agent := if bool_decide (agent = "") then "expert-" +:+ fresh else agent in
  mkPolicy [] agent parent (rm_selection m) (access_grant parent project (rm_shared m)).

(** [SharedMemoryAccess.within]. *)
Definition access_within (authorized a : SharedMemoryAccess) : bool :=
  negb (sh_read a && negb (sh_read authorized) || sh_append a && negb (sh_append authorized) || sh_modify a && negb (sh_modify authorized))
  && if negb (access_enabled a) then bool_decide (sh_kinds a = []) && bool_decide (sh_entries a = [])
     else (bool_decide (sh_kinds authorized = []) || negb (bool_decide (sh_kinds a = [])) && forallb (λ k, bool_decide (k ∈ sh_kinds authorized)) (sh_kinds a))
          && (bool_decide (sh_entries authorized = []) || negb (bool_decide (sh_entries a = [])) && forallb (λ k, bool_decide (k ∈ sh_entries authorized)) (sh_entries a)).

(** ** What a request cites *)

(** [memoryUse]. *)
Definition memoryUse (e : MemoryEntry) : MemoryUse :=
  mkUse (me_pinned e) (me_scope e) (me_id e) (me_revision e) (me_state e)
    (if bool_decide (me_state e = "active") then sha256hex (me_body e) else "")
    (me_kind e) (me_title e) (me_author e) (me_sources e) (me_updated_at e) None.

Definition chatMemoryKey (chat : string) : string := "chat/memory/" +:+ chat.

(** [validateLivePin]; a document that does not decode is one of another kind. *)
Definition noSelection : MemorySelection := mkMemorySelection [] [] [] [] false.
Definition validateLivePin (d : db) (run : Run) (pin : MemoryUse) (project : string) : res unit :=
  c ← match find_conversation (run_conversation run) d with Some c => Ok c | None => Err ErrNoRows end;
  permission ← match meta d !! permissionKey (cv_space c) with Some (MPermission s) => Ok s | _ => Err ErrMemoryDenied end;
  selection ← match meta d !! chatMemoryKey (run_conversation run) with
              | Some (MMemory s) => Ok s | None => Ok noSelection | Some _ => Err ErrMemoryDenied end;
  _ ← check (negb (bool_decide (mu_entry pin ∈ sel_excluded_pins selection))) ErrMemoryDenied;
  match mu_pinned pin with
  | None => Err ErrMemoryDenied
  | Some p =>
      let private := bool_decide (cv_space c = LocalSpaceID) || ps_owner_private permission in
      check (bool_decide (pin_scope p = "conversation") && bool_decide (pin_target p = run_conversation run)
        || private && (bool_decide (pin_scope p = "global")
             || bool_decide (pin_scope p = "workspace") && bool_decide (pin_target p = project))
        || bool_decide (mu_entry pin ∈ sel_pinned_grants selection)) ErrMemoryDenied
  end.

(** One citation of [validateRequestMemory]'s loop. *)
Definition use_ref (u : MemoryUse) : MemoryReference := mkReference (mu_scope u) (mu_entry u).
Definition is_pin (p : memoryRunPolicy) (u : MemoryUse) : bool :=
  existsb (λ q, bool_decide (mu_entry q = mu_entry u) && bool_decide (mu_scope q = mu_scope u)) (mp_pins p).
Definition check_use (d : db) (run : Run) (p : memoryRunPolicy) (seen : list MemoryReference) (u : MemoryUse) : res unit :=
  let project := rc_workspace (run_config run) in
  _ ← check (negb (bool_decide (use_ref u ∈ seen)
        || negb (bool_decide (use_ref u ∈ sel_entries (mp_selection p))) && negb (is_pin p u))) ErrMemoryDenied;
  _ ← (if is_pin p u then validateLivePin d run u project else Ok tt);
  e ← memory_row d (if is_pin p u then userAuthority project else policy_authority (run_id run) project p) (mu_scope u) (mu_entry u) "read";
  check (bool_decide (memoryUse e = u)) ErrMemoryConflict.
Fixpoint check_uses (d : db) (run : Run) (p : memoryRunPolicy) (seen : list MemoryReference) (l : list MemoryUse) : res unit :=
  match l with
  | [] => Ok tt
  | u :: l => _ ← check_use d run p seen u; check_uses d run p (use_ref u :: seen) l
  end.

(** [validateRequestMemory]. *)
Definition validateRequestMemory (run : Run) (request : ModelRequest) : M unit :=
  d ← query id;
  lift (
    _ ← check (zlen (rq_memory request) <=? rc_memory_entries (run_config run))%Z ErrContextLimit;
    match rq_memory request, rc_memory (run_config run) with
    | [], _ => Ok tt
    | _, None => Err ErrMemoryDenied
    | l, Some p => check_uses d run p [] l
    end).
End host.

(** ** Reading an entry page by page (memory_tools.go) *)

(** What one call of memory_read answers: an excerpt of one active entry, and the
    citation of the revision it was cut from. *)
Record MemoryPage := mkPage {
  pg_entry : MemoryEntry; pg_start : Z; pg_end : Z; pg_truncated : bool; pg_source_hash : string; pg_use : MemoryUse;
}.
Definition with_body (body : string) (e : MemoryEntry) : MemoryEntry :=
  mkEntry (me_pinned e) (me_id e) (me_scope e) (me_revision e) (me_state e) (me_kind e) (me_title e) body
    (me_author e) (me_sources e) (me_created_at e) (me_updated_at e).
Definition with_excerpt (x : MemoryExcerpt) (u : MemoryUse) : MemoryUse :=
  mkUse (mu_pinned u) (mu_scope u) (mu_entry u) (mu_revision u) (mu_state u) (mu_hash u) (mu_kind u) (mu_title u) (mu_author u)
    (mu_sources u) (mu_updated_at u) (Some x).
(** The transaction memory_read prepares, before its answer is encoded. *)
Definition readMemoryPage {H : Host} (d : db) (a : memoryAuthority) (s : MemoryScope) (id : string) (offset maxBytes : Z) : res MemoryPage :=
  e ← getMemory d a s id "read";
  _ ← check (bool_decide (me_state e = "active")) ErrMemoryDisabled;
  stop ← excerptEnd (me_body e) offset maxBytes;
  let body := excerpt (me_body e) offset stop in
  let use := memoryUse e in
  Ok (mkPage (with_body body e) offset stop ((0 <? offset)%Z || (stop <? Z.of_nat (String.length (me_body e)))%Z) (mu_hash use)
        (with_excerpt (mkExcerpt offset stop (sha256hex body)) use)).
