(* ===== verification/Store.v ===== *)
(** * The store: runs, attempts and messages

    Model of the execution records of src/internal/harness/store.go, with the
    model recovery of model_recovery.go and the limit continuation of
    limit_continuation.go. One definition per method; the guard of a
    collaboration ([callGuard], callguard.go) is a record of operations that
    Budget.v implements. *)

From S2P Require Import Prelude Data Sql Memory.

(** [callGuard] (callguard.go). *)
Record callGuard := mkGuard {
  Reserve : Attempt → M unit;
  Record_ : Attempt → Z → bool → M unit;
}.

(** [isOutputLimit]: a wrapped or joined error counts when all it holds are
    output limits. *)
Fixpoint isOutputLimit (e : error) : bool :=
  match e with
  | EJoin es =>
      match es with
      | [] => false
      | _ => (fix all es := match es with [] => true | e :: es => isOutputLimit e && all es end) es
      end
  | EWrap e _ => isOutputLimit e
  | ErrChildBudget | ErrParentBudget => true
  | _ => false
  end.

(** Run a computation and keep its error as a value, with the writes it made. *)
Definition catch (m : M unit) : M (option error) := λ w,
  match m w with
  | (Ok _, w') => (Ok None, w')
  | (Err e, w') => (Ok (Some e), w')
  end.

(** [safeError]: fmt's [%.512s]. *)
Definition safeError (e : error) : string := String.substring 0 512 (Error e).

Definition attemptTime (a : string) : string := "attempt/time/" +:+ a.
Definition replacedKey (a : string) : string := "attempt/replaced/" +:+ a.
Definition verifiedKey (a : string) : string := "attempt/verified/" +:+ a.
Definition recoveryKey (root : string) : string := "recovery/model/" +:+ root.
Definition limitNextKey (parent : string) : string := "run/limit-next/" +:+ parent.
Definition collaborationKey (parent : string) : string := "collaboration/" +:+ parent.
Definition collaborationRunKey (run : string) : string := "collaboration-run/" +:+ run.

(** ** Reads *)
Definition meta_text (k : string) (d : db) : string :=
  match meta d !! k with Some (MText s) => s | _ => "" end.

(** [controlledParent]. *)
Definition controlledParent (run : string) (d : db) : string := meta_text (collaborationRunKey run) d.

(** [lockExecutionTx]: the rows it locks must exist. *)
Definition lockConversationTx (chat : string) : M unit :=
  _ ← query_row (find_conversation chat); mret tt.

Definition lockExecutionTx (run : string) : M unit :=
  d ← query id;
  _ ← (if bool_decide (controlledParent run d = "") then mret tt
       else match meta d !! collaborationKey (controlledParent run d) with
            | Some _ => mret tt | None => fail ErrNoRows end);
  r ← query_row (find_run run);
  lockConversationTx (run_conversation r).

(** [resolvedAttemptSQL]: a model attempt replaced by a model attempt of the
    same run, or a tool attempt verified to have happened. *)
Definition resolvedAttempt (d : db) (a : Attempt) : bool :=
  match att_kind a with
  | KModel =>
      match meta d !! replacedKey (att_id a) with
      | Some (MReplacement rep _ _) =>
          existsb (λ b, bool_decide (att_id b = rep) && bool_decide (att_run b = att_run a)
                        && bool_decide (att_kind b = KModel)) (attempts d)
      | _ => false
      end
  | KTool =>
      match meta d !! verifiedKey (att_id a) with
      | Some (MVerified outcome run) =>
          bool_decide (outcome = "happened") && bool_decide (run = att_run a)
      | _ => false
      end
  | KWorkflow => false
  end.

Definition open_status (s : AttemptStatus) : bool :=
  match s with AFinished => false | _ => true end.

(** The attempts counted by [settleLimited] and [successorTx]. *)
Definition unsettled (run : string) (d : db) : nat :=
  count_if (λ a, bool_decide (att_run a = run) && open_status (att_status a)
                 && negb (resolvedAttempt d a)) (attempts d).

(** [listAttempts]: ORDER BY seq; the rows of a run are inserted in that order
    (Store invariant). *)
Definition listAttempts (run : string) (d : db) : list Attempt :=
  filter (λ a, att_run a = run) (attempts d).

(** A tool call that waits to be dispatched. *)
Definition pending_tool (a : Attempt) : bool := bool_decide (att_kind a = KTool) && bool_decide (att_status a = APending).

(** [pendingSteer] and the queue reads of input_queue.go used by the store. *)
Definition meta_inputs (d : db) (prefix : string) : list PendingInput :=
  omap (λ kv, match kv.2 with
              | MInput i => if String.prefix prefix kv.1 then Some i else None
              | _ => None end) (map_to_list (meta d)).

Definition pendingSteer (run : string) (d : db) : bool :=
  existsb (λ i, bool_decide (in_target_run i = run) && bool_decide (in_status i = "pending")
                && bool_decide (in_action i = "steer")) (meta_inputs d "input/").

(** [checkConversationCommandsTx] (spaces.go). *)
Definition checkConversationCommandsTx (chat : string) : M unit :=
  d ← query id;
  guard_ (negb (existsb (λ kv, String.prefix "command/process/" kv.1 &&
            match kv.2 with
            | MCommand c st reviewed => bool_decide (c = chat) &&
                (bool_decide (st = "running") || bool_decide (st = "stopping")
                 || bool_decide (st = "unknown") && negb reviewed)
            | _ => false end) (map_to_list (meta d)))) ErrCommandBusy.

(** [withModelFacts] (model_selection.go), the part on the settled limit. *)
Record RunFacts := mkFacts { rf_run : Run; rf_settled : bool }.
Definition withModelFacts (r : Run) : RunFacts :=
  if bool_decide (run_status r = Limited) && String.prefix settledLimitPrefix (run_stop_reason r)
  then mkFacts (set_status Limited (String.substring 14 (String.length (run_stop_reason r) - 14) (run_stop_reason r))
                  (run_updated_at r) r) true
  else mkFacts r false.

Definition find_by_request (chat key : string) (d : db) : option Run :=
  List.find (λ r, bool_decide (run_conversation r = chat) && bool_decide (run_request_key r = key)) (runs d).

Section store.
Context {H : Host} {RC : ReadChecks}.

(** ** Shared statements *)

(** [insertMessage]. *)
Definition insertMessage (run : Run) (m : ModelMessage) : M unit :=
  _ ← insert_message_row (run_conversation run) (Some (run_id run)) m;
  now ← nowText;
  touch_conversation (run_conversation run) now.

(** [incrementStep]. *)
Definition incrementStep (run : string) (maxSteps : Z) : M unit :=
  n ← update_runs (λ r, bool_decide (run_id r = run) &&
         (bool_decide (maxSteps = 0%Z) || (run_steps r <? maxSteps)%Z) &&
         bool_decide (run_status r = Running)) add_step;
  if bool_decide (n = 1%nat) then mret tt
  else if bool_decide (maxSteps = 0%Z) then fail (EJoin [ErrActiveRun]) else fail ErrStepLimit.

Definition by_id (run : string) (r : Run) : bool := bool_decide (run_id r = run).
Definition att_by (id : string) (p : AttemptStatus → bool) (a : Attempt) : bool :=
  bool_decide (att_id a = id) && p (att_status a).
Definition is_status (s : AttemptStatus) (t : AttemptStatus) : bool := bool_decide (t = s).

(** [UPDATE fa.runs SET status, stop_reason, updated_at WHERE p]. *)
Definition update_status (p : Run → bool) (s : RunStatus) (reason : string) : M nat :=
  now ← nowText; update_runs p (set_status s reason now).

Definition userMessage (prompt : string) (refs : list AttachmentRef) (public : bool) : ModelMessage :=
  mkModelMessage false refs None public "user" prompt "" "" [].
Definition assistantMessage (content : string) (calls : list ToolCall) : ModelMessage :=
  mkModelMessage false [] None false "assistant" content "" "" calls.
Definition toolMessage (name call content : string) (refs : list AttachmentRef) : ModelMessage :=
  mkModelMessage false refs None false "tool" content name call [].

(** [guard.Reserve]/[guard.Record] when a guard is set. *)
Definition reserve (g : option callGuard) (a : Attempt) : M unit :=
  match g with Some g => Reserve g a | None => mret tt end.

(** [outputErr := guard.Record(...)]: an error other than an output limit is
    returned; an output limit is kept and the run becomes limited when
    [limits]. *)
Definition record (g : option callGuard) (run : string) (a : Attempt) (size : Z)
    (final limits : bool) : M (option error) :=
  match g with
  | None => mret None
  | Some g =>
      oe ← catch (Record_ g a size final);
      match oe with
      | None => mret None
      | Some e =>
          if isOutputLimit e
          then if limits
               then _ ← update_status (by_id run) Limited (safeError e); mret (Some e)
               else mret (Some e)
          else fail e
      end
  end.

(** ** Model calls *)

(** Decoding a stored request as a [ModelRequest] or a [ToolCall]: encoding/json
    leaves the fields an object does not have at their zero values. *)
Definition decodeModelRequest (q : AttemptRequest) : ModelRequest :=
  match q with QModel r => r | _ => mkModelRequest None "" "" [] 0 [] end.
Definition decodeToolCall (q : AttemptRequest) : ToolCall :=
  match q with QTool c => c | _ => mkToolCall "" "" "" end.

Definition assessments (run : string) (d : db) : nat :=
  count_if (λ a, bool_decide (att_run a = run) && bool_decide (att_kind a = KModel) &&
      bool_decide (rq_purpose (decodeModelRequest (att_request a)) = "assessment")) (attempts d).

(** [checkUncontrolled] (collaboration_budget.go). *)
Definition checkUncontrolled (chat : string) : M unit :=
  d ← query id;
  guard_ (negb (existsb (λ r, bool_decide (run_conversation r = chat) &&
             bool_decide (is_Some (meta d !! collaborationRunKey (run_id r))) &&
             match run_status r with Completed | Failed | Abandoned => false | _ => true end)
           (runs d))) ErrControlledRun.

(** [recordModelReplacement] (model_recovery.go). *)
Definition recordModelReplacement (a : Attempt) (r : ModelRecovery) : M unit :=
  d ← query id;
  _ ← match meta d !! recoveryKey (mr_root r) with
      | None => fail ErrNoRows
      | Some (MRecovery reserved) => guard_ (bool_decide (reserved = r)) ErrModelBoundary
      | Some _ => fail ErrModelBoundary
      end;
  meta_insert (replacedKey (mr_previous r)) (MReplacement (att_id a) (mr_root r) (mr_number r)).

(** [startGuardedModel]: check, count the step, reserve, insert the dispatched
    attempt. *)
Definition startGuardedModel (run : Run) (request : ModelRequest) (maxSteps : Z)
    (g : option callGuard) : M Attempt :=
  _ ← (if g then mret tt else checkUncontrolled (run_conversation run));
  transaction (
    _ ← lockExecutionTx (run_id run);
    d ← query id;
    _ ← guard_ (negb (bool_decide (rq_purpose request = "") && pendingSteer (run_id run) d)) ErrInputPending;
    _ ← incrementStep (run_id run) maxSteps;
    aid ← newID;
    let a := mkAttempt aid (run_id run) KModel "" ADispatched (QModel request) None 0 in
    d ← query id;
    _ ← validateRequestMemory run request;
    _ ← (if bool_decide (rq_purpose request = "assessment")
         then match sn_auto (rc_selection (run_config run)) with
              | None => fail (EJoin [ErrAutoDisabled])
              | Some auto =>
                  guard_ (negb ((ap_max_assessments auto <=? Z.of_nat (assessments (run_id run) d))%Z
                                || negb (bool_decide (rq_model_id request = ap_assessment_model auto))))
                         ErrAutoDisabled
              end
         else mret tt);
    _ ← reserve g a;
    _ ← insert_attempt a;
    _ ← match rq_recovery request with
        | Some r => recordModelReplacement a r
        | None => mret tt
        end;
    now ← nowText;
    _ ← meta_insert (attemptTime aid) (MText now);
    mret a).

Fixpoint insert_tool_calls (run : string) (calls : list ToolCall) : M unit :=
  match calls with
  | [] => mret tt
  | c :: calls =>
      aid ← newID;
      _ ← insert_attempt (mkAttempt aid run KTool (tc_id c) APending (QTool c) None 0);
      insert_tool_calls run calls
  end.

(** [saveGuardedModel]: store the response; a main call adds the assistant
    message and one pending attempt per tool call, and completes the run when
    there is none. [saveModelTx] is the body of its transaction. *)
Definition saveModelTx (run : Run) (a : Attempt) (response : ModelResponse)
    (g : option callGuard) (outputBytes : Z) : M (unit * option error) :=
  _ ← lockExecutionTx (run_id run);
  _ ← update_attempts (att_by (att_id a) (is_status ADispatched))
        (set_attempt AFinished (Some (RModel response)));
  let request := decodeModelRequest (att_request a) in
  _ ← (if bool_decide (rq_purpose request = "") then
         _ ← insertMessage run (assistantMessage (rs_content response) (rs_tool_calls response));
         _ ← insert_tool_calls (run_id run) (rs_tool_calls response);
         d ← query id;
         if bool_decide (rs_tool_calls response = []) && negb (pendingSteer (run_id run) d)
         then now ← nowText;
              _ ← update_runs (by_id (run_id run))
                    (λ r, set_output (rs_content response) (set_status Completed "" now r));
              mret tt
         else mret tt
       else guard_ (bool_decide (rs_tool_calls response = []) || bool_decide (rq_purpose request = "verification"))
              ErrModelCapability);
  oe ← record g (run_id run) a (Z.max outputBytes (len_response (RModel response))) true true;
  mret (tt, oe).
Definition saveGuardedModel (run : Run) (a : Attempt) (response : ModelResponse)
    (g : option callGuard) (outputBytes : Z) : M unit :=
  transaction_join (saveModelTx run a response g outputBytes).

(** [failModel]: a definitive failure, which does not refund the output
    allowance. *)
Definition failModel (run : Run) (a : Attempt) (response : ModelResponse) (failure : CallError)
    (g : option callGuard) (outputBytes : Z) : M unit :=
  transaction_join (
    _ ← lockExecutionTx (run_id run);
    let response := mkModelResponse (rs_content response) [] (Some failure) in
    _ ← update_attempts (att_by (att_id a) (is_status ADispatched))
          (set_attempt AFinished (Some (RModel response)));
    _ ← update_status (by_id (run_id run)) Failed (String.substring 0 512 (ce_message failure));
    oe ← record g (run_id run) a (Z.max outputBytes (len_response (RModel response))) false false;
    mret (tt, oe)).

(** ** Tool calls *)

(** [startTool]. *)
Definition startTool (run : Run) (call : ToolCall) : M Attempt :=
  _ ← guard_ (negb (bool_decide (tc_id call = "") || bool_decide (tc_name call = "")
                    || bool_decide (tc_arguments call = ""))) (EText "harness: invalid tool call");
  transaction (
    _ ← lockExecutionTx (run_id run);
    r ← query_row (find_run (run_id run));
    _ ← guard_ (bool_decide (run_status r = Running)) (EText "harness: tool call requires a running task");
    aid ← newID;
    let a := mkAttempt aid (run_id run) KTool (tc_id call) APending (QTool call) None 0 in
    _ ← insert_attempt a;
    mret a).

(** [dispatchGuardedTool]: the only transition of a tool attempt to
    dispatched. *)
Definition dispatchGuardedTool (a : Attempt) (maxSteps : Z) (g : option callGuard) : M unit :=
  d ← query id;
  _ ← (if g then mret tt
       else guard_ (bool_decide (controlledParent (att_run a) d = "")) (EJoin [ErrControlledRun]));
  transaction (
    _ ← lockExecutionTx (att_run a);
    d ← query id;
    _ ← guard_ (negb (pendingSteer (att_run a) d)) ErrInputPending;
    _ ← reserve g a;
    _ ← incrementStep (att_run a) maxSteps;
    n ← update_attempts (att_by (att_id a) (is_status APending)) (λ b, set_attempt ADispatched (att_response b) b);
    _ ← guard_ (bool_decide (n = 1%nat)) (EText "harness: tool attempt is not pending");
    now ← nowText;
    meta_insert (attemptTime (att_id a)) (MText now)).

(** [saveToolTxMode]. *)
Definition toolOutcome (status : AttemptStatus) (r : ToolResult) : ToolOutcome :=
  mkToolOutcome (match status with
                 | APending => "not_run"
                 | _ => if tr_is_error r then "failed" else "completed" end)
    (bool_decide (status = ADispatched)) true (tr_truncated r).

Definition saveToolTxMode (run : Run) (a : Attempt) (call : ToolCall) (result : ToolResult)
    (g : option callGuard) (outputBytes : Z) (definitive addMessage : bool) : M (option error) :=
  result ← match tr_outcome result with
    | Some _ => mret result
    | None =>
        d ← query id;
        match List.find (λ b, bool_decide (att_id b = att_id a) && bool_decide (att_run b = run_id run)) (attempts d) with
        | None => fail ErrNoRows
        | Some b => mret (mkToolResult (tr_attachments result) (Some (toolOutcome (att_status b) result))
                            (tr_truncated result) (tr_content result) (tr_is_error result) (tr_receipts result)
                            (tr_memory result))
        end
    end;
  n ← update_attempts (λ b, bool_decide (att_id b = att_id a) && bool_decide (att_run b = run_id run)
          && bool_decide (att_kind b = KTool) && bool_decide (att_call b = tc_id call)
          && (bool_decide (att_status b = APending) || bool_decide (att_status b = ADispatched)))
        (set_attempt AFinished (Some (RTool result)));
  _ ← guard_ (bool_decide (n = 1%nat)) (EJoin [ErrModelBoundary]);
  _ ← (if addMessage
       then insertMessage run (toolMessage "" (tc_id call) (tr_content result) (tr_attachments result))
       else mret tt);
  record g (run_id run) a (Z.max outputBytes (len_response (RTool result))) definitive true.

(** [saveGuardedTool] and [saveGuardedToolNoMessage]. *)
Definition saveGuardedTool (run : Run) (a : Attempt) (call : ToolCall) (result : ToolResult)
    (g : option callGuard) (outputBytes : Z) (definitive addMessage : bool) : M unit :=
  transaction_join (
    _ ← lockExecutionTx (run_id run);
    oe ← saveToolTxMode run a call result g outputBytes definitive addMessage;
    mret (tt, oe)).

(** [markUnknown]; [body] is the optional recorded result. *)
Definition markUnknown (a : Attempt) (reason : string) (body : option AttemptResponse) : M unit :=
  transaction (
    _ ← lockExecutionTx (att_run a);
    _ ← update_attempts (λ b, bool_decide (att_id b = att_id a))
          (λ b, set_attempt AUnknown
             (match body with
              | Some r => Some r
              | None => match att_response b with None => Some (RText reason) | r => r end
              end) b);
    _ ← update_status (by_id (att_run a)) Unknown reason;
    mret tt).

(** [settleControlProposal]; [terminal] is the optional terminal status. *)
Definition settleControlProposal (run : Run) (a : Attempt) (result : ToolResult) (completed : bool)
    (reason : string) (terminal : option RunStatus) : M unit :=
  transaction (
    _ ← lockExecutionTx (run_id run);
    d ← query id;
    b ← match List.find (λ b, bool_decide (att_id b = att_id a) && bool_decide (att_run b = run_id run)
                              && bool_decide (att_kind b = KTool)) (attempts d) with
        | Some b => mret b | None => fail ErrNoRows end;
    _ ← guard_ (bool_decide (att_status b = APending)) ErrControlAlreadyUsed;
    _ ← update_attempts (att_by (att_id a) (is_status APending)) (set_attempt AFinished (Some (RTool result)));
    let call := decodeToolCall (att_request a) in
    _ ← insertMessage run (toolMessage "" (tc_id call) (tr_content result) (tr_attachments result));
    let '(s, why) := match terminal with
                     | Some t => (t, reason)
                     | None => if completed then (Completed, reason) else (Running, "") end in
    _ ← update_status (λ r, by_id (run_id run) r &&
            match run_status r with WaitingConfirmation | Stopped | Running => true | _ => false end) s why;
    mret tt).

(** [executeLocalToolMode]: a data operation whose mutation and result commit
    together; an error of the callback rolls back to the savepoint and becomes
    the result. *)
Definition savepoint (m : M ToolResult) : M (ToolResult + error) := λ w,
  match m w with
  | (Ok r, w') => (Ok (inl r), w')
  | (Err e, w') => (Ok (inr e), rollback w w')
  end.

Definition executeLocalToolMode (run : Run) (a : Attempt) (call : ToolCall) (execute : M ToolResult)
    (normalize : ToolResult → ToolResult) (g : option callGuard) (maxResult : Z) (addMessage : bool)
    : M ToolResult :=
  transaction_join (
    _ ← lockExecutionTx (run_id run);
    d ← query id;
    b ← match List.find (λ b, bool_decide (att_id b = att_id a) && bool_decide (att_run b = run_id run)
              && bool_decide (att_kind b = KTool) && bool_decide (att_call b = tc_id call)) (attempts d) with
        | Some b => mret b | None => fail ErrNoRows end;
    _ ← guard_ (match att_request b with QTool c => bool_decide (c = call) | _ => false end)
               (EJoin [ErrRequestKey]);
    match att_status b with
    | AFinished =>
        match att_response b with
        | Some (RTool r) => mret (r, None)
        | _ => fail ErrStoreFormat
        end
    | ADispatched =>
        r ← savepoint execute;
        let result := normalize
          match r with
          | inl result => result
          | inr e => mkToolResult [] None false ("local data operation error: " +:+ safeError e) true [] []
          end in
        _ ← guard_ (Z.of_nat (String.length (tr_content result)) <=? maxResult)%Z ErrContextLimit;
        oe ← saveToolTxMode run a call result g (len_response (RTool result)) true addMessage;
        mret (result, oe)
    | _ => fail ErrUnknownResult
    end).

(** ** Workflows *)
Definition validWorkflowTerminalStatus (s : RunStatus) : bool :=
  match s with Completed | Failed | Stopped | Unknown | Limited => true | _ => false end.

(** [startWorkflow]. *)
Definition startWorkflow (run : Run) (extension workflow input : string) (maxSteps : Z)
    (g : option callGuard) : M Attempt :=
  transaction (
    _ ← lockExecutionTx (run_id run);
    _ ← incrementStep (run_id run) maxSteps;
    r ← query_row (find_run (run_id run));
    _ ← guard_ (bool_decide (run_status r = Running)) (EText "harness: workflow requires a running task");
    aid ← newID;
    cid ← newID;
    let a := mkAttempt aid (run_id run) KWorkflow ("workflow-" +:+ cid) ADispatched
               (QWorkflow extension workflow input) None 0 in
    _ ← reserve g a;
    _ ← insert_attempt a;
    mret a).

Definition check_running (s : RunStatus) : M unit :=
  match s with
  | Running => mret tt
  | Unknown => fail ErrUnknownResult
  | _ => fail ErrModelBoundary
  end.

Definition workflow_dispatched (a : Attempt) (run : Run) (b : Attempt) : bool :=
  bool_decide (att_id b = att_id a) && bool_decide (att_run b = run_id run)
  && bool_decide (att_kind b = KWorkflow) && bool_decide (att_status b = ADispatched).

(** UPDATE fa.runs SET status, stop_reason, output WHERE id AND status='running';
    exactly one row. *)
Definition finish_running (run : Run) (s : RunStatus) (reason output : string) : M unit :=
  now ← nowText;
  n ← update_runs (λ r, by_id (run_id run) r && bool_decide (run_status r = Running))
        (λ r, set_output output (set_status s reason now r));
  guard_ (bool_decide (n = 1%nat)) (EJoin [ErrModelBoundary]).

(** [finishWorkflow]. *)
Definition finishWorkflow (run : Run) (a : Attempt) (result : ToolResult) (status : RunStatus)
    (reason output : string) (g : option callGuard) (outputBytes : Z) : M unit :=
  _ ← guard_ (validWorkflowTerminalStatus status) (EText "harness: invalid workflow terminal status");
  transaction (
    _ ← lockExecutionTx (run_id run);
    r ← query_row (find_run (run_id run));
    _ ← check_running (run_status r);
    n ← update_attempts (workflow_dispatched a run) (set_attempt AFinished (Some (RTool result)));
    _ ← guard_ (bool_decide (n = 1%nat)) (EJoin [ErrModelBoundary]);
    oe ← record g (run_id run) a (Z.max outputBytes (len_response (RTool result)))
           (bool_decide (status = Completed)) false;
    let status := match oe with Some _ => Limited | None => status end in
    let reason := match oe with Some e => safeError e | None => reason end in
    _ ← (if bool_decide (output = "") then mret tt else insertMessage run (assistantMessage output []));
    finish_running run status reason output).

(** [finishWorkflowUnknown]; [record] is the decoded recorded result. *)
Definition finishWorkflowUnknown (run : Run) (a : Attempt) (reason : string) (record : option ToolResult)
    : M unit :=
  transaction (
    _ ← lockExecutionTx (run_id run);
    let response := match record with
                    | Some r => r | None => mkToolResult [] None false reason true [] [] end in
    n ← update_attempts (workflow_dispatched a run) (set_attempt AUnknown (Some (RTool response)));
    _ ← guard_ (bool_decide (n = 1%nat)) (EJoin [ErrModelBoundary]);
    m ← update_status (λ r, by_id (run_id run) r &&
            match run_status r with Running | Stopped | Limited | WaitingConfirmation => true | _ => false end)
          Unknown reason;
    if bool_decide (m = 0%nat) then
      r ← query_row (find_run (run_id run));
      guard_ (bool_decide (run_status r = Unknown))
        (EJoin [ErrModelBoundary; EText "harness: workflow run disappeared before UNKNOWN settlement"])
    else mret tt).

(** [FinishRun] and [FinishRunOutput]. *)
Definition FinishRun (run : string) (status : RunStatus) (reason : string) : M unit :=
  _ ← update_status (by_id run) status reason; mret tt.

Definition FinishRunOutput (run : Run) (status : RunStatus) (reason output : string) : M unit :=
  _ ← guard_ (validWorkflowTerminalStatus status) (EText "harness: invalid workflow terminal status");
  transaction (
    _ ← lockExecutionTx (run_id run);
    r ← query_row (find_run (run_id run));
    _ ← check_running (run_status r);
    d ← query id;
    let existing := count_if (λ m, bool_decide (msg_run m = Some (run_id run)) &&
        bool_decide (mm_role (msg_body m) = "assistant") && bool_decide (mm_content (msg_body m) = output))
        (messages d) in
    _ ← (if bool_decide (output = "") || negb (bool_decide (existing = 0%nat)) then mret tt
         else insertMessage run (assistantMessage output []));
    finish_running run status reason output).

(** ** Abandoning a run *)
Definition abandonText (s : AttemptStatus) : string :=
  match s with
  | AUnknown => "outcome UNKNOWN: the operation may have completed; user ended this task without resolving it. This is not a tool success. Do not repeat this operation implicitly."
  | _ => "user abandoned the run before this tool was dispatched; do not repeat it"
  end.

Fixpoint abandon_attempts (run : Run) (l : list Attempt) : M unit :=
  match l with
  | [] => mret tt
  | a :: l =>
      _ ← (if bool_decide (att_kind a = KTool) && (bool_decide (att_status a = APending)
                                                  || bool_decide (att_status a = AUnknown)) then
             let call := decodeToolCall (att_request a) in
             let text := abandonText (att_status a) in
             _ ← (if bool_decide (att_status a = APending)
                  then _ ← update_attempts (λ b, bool_decide (att_id b = att_id a))
                             (set_attempt AFinished (Some (RTool (mkToolResult [] None false text true [] []))));
                       mret tt
                  else mret tt);
             insertMessage run (toolMessage "" (tc_id call) text [])
           else mret tt);
      abandon_attempts run l
  end.

(** [abandonRun]. *)
Definition abandonRun (run : string) : M unit :=
  r ← query_row (find_run run);
  match run_status r with
  | Completed => fail (EText "harness: completed runs cannot be abandoned")
  | Abandoned => mret tt
  | _ =>
      l ← query (listAttempts run);
      _ ← guard_ (negb (existsb (λ a, bool_decide (att_status a = ADispatched)) l)) ErrUnknownResult;
      transaction (
        _ ← lockExecutionTx run;
        _ ← abandon_attempts (rf_run (withModelFacts r)) l;
        _ ← update_status (by_id run) Abandoned "abandoned by user; unknown attempt facts are retained";
        mret tt)
  end.

(** [Abandon]; the gate's exclusive lock is Gate.v's [TryLock]. *)
Definition Abandon (run : string) : M unit :=
  d ← query id;
  _ ← guard_ (bool_decide (controlledParent run d = "")) (EJoin [ErrControlledRun]);
  abandonRun run.

(** ** Model recovery (model_recovery.go) *)

(** [canRetryModel] without the run's context and binding: [cancelled] is
    [ctx.Err() != nil], [web] that the binding fails or searches the web. *)
Definition canRetryModel (cancelled web : bool) (retries : Z) (request : ModelRequest)
    (failure : option CallError) : bool :=
  let count := match rq_recovery request with Some r => mr_number r | None => 0%Z end in
  if cancelled || (retries <=? count)%Z then false
  else if web then false
  else match failure with
       | None => true
       | Some f =>
           if (86400000 <? ce_retry_after_ms f)%Z then false
           else if existsb (String.eqb (ce_category f))
                ["authentication"; "permission"; "quota"; "request"; "capability"; "cancelled";
                 "redirect"; "refusal"; "content_filter"; "usage"] then false
           else if existsb (String.eqb (ce_category f))
                ["output_limit"; "rate_limit"; "unavailable"; "transport"; "timeout"] then true
           else negb (ce_certain f)
       end.

(** The recovery record [retryModel] reserves after attempt [previous]. *)
Definition nextRecovery (previous : Attempt) (request : ModelRequest) (failure : option CallError)
    : ModelRecovery :=
  mkModelRecovery
    match rq_recovery request with Some r => mr_root r | None => att_id previous end
    (att_id previous)
    match rq_recovery request with Some r => (mr_number r + 1)%Z | None => 1%Z end
    match failure with Some f => ce_category f | None => "response_unknown" end
    (hash_request (att_request previous)).

(** [reserveModelRetry]. *)
Definition reserveModelRetry (run : Run) (r : ModelRecovery) (limit : Z) : M unit :=
  transaction (
    d ← query id;
    old ← match meta d !! recoveryKey (mr_root r) with
          | None => mret 0%Z
          | Some (MRecovery old) => mret (mr_number old)
          | Some _ => fail ErrStoreFormat
          end;
    _ ← guard_ (bool_decide (mr_number r = old + 1)%Z && (mr_number r <=? limit)%Z)
               (EText "harness: model retry budget exhausted");
    a ← match List.find (λ a, bool_decide (att_id a = mr_previous r) && bool_decide (att_run a = run_id run)) (attempts d) with
        | Some a => mret a | None => fail ErrNoRows end;
    _ ← guard_ (bool_decide (att_kind a = KModel) &&
                (bool_decide (att_status a = AFinished) || bool_decide (att_status a = AUnknown)) &&
                bool_decide (hash_request (att_request a) = mr_fingerprint r)) ErrModelBoundary;
    _ ← meta_upsert (recoveryKey (mr_root r)) (MRecovery r);
    n ← update_status (λ x, by_id (run_id run) x &&
            match run_status x with Failed | Unknown | Running => true | _ => false end) Running "";
    guard_ (bool_decide (n = 1%nat)) (EJoin [ErrActiveRun])).

(** ** Limited runs and their successors (limit_continuation.go) *)
Fixpoint contains (p s : string) : bool :=
  String.prefix p s || match s with EmptyString => false | String _ s => contains p s end.

(** [settleLimited]. *)
Definition settleLimited (f : RunFacts) : M bool :=
  let run := rf_run f in
  if negb (bool_decide (run_status run = Limited)) || rf_settled f then mret (rf_settled f)
  else if negb (contains (Error ErrStepLimit) (run_stop_reason run))
       && negb (contains (Error ErrTimeLimit) (run_stop_reason run))
       && negb (contains "output" (run_stop_reason run)) then mret false
  else
    d ← query id;
    if negb (bool_decide (controlledParent (run_id run) d = "")) then mret false
    else if negb (bool_decide (unsettled (run_id run) d = 0%nat)) then mret false
    else λ w, match checkConversationCommandsTx (run_conversation run) w with
    | (Err ErrCommandBusy, _) => (Ok false, w)
    | (Err e, _) => (Err e, w)
    | (Ok _, w) => transaction (
        now ← nowText;
        n ← update_runs (λ r, by_id (run_id run) r && bool_decide (run_status r = Limited) &&
                bool_decide (run_stop_reason r = run_stop_reason run) && bool_decide (run_active_since r = ""))
              (λ r, set_status Limited (settledLimitPrefix +:+ run_stop_reason run) now r);
        mret (bool_decide (n = 1%nat))) w
    end.

(** [successorTx]: the saved successor of a settled limited run, [""] when
    there is none yet. *)
Definition successorTx (parent chat : string) : M string :=
  r ← query_row (find_run parent);
  _ ← guard_ (bool_decide (run_conversation r = chat) && bool_decide (run_status r = Limited)
              && String.prefix settledLimitPrefix (run_stop_reason r)) ErrActiveRun;
  d ← query id;
  _ ← guard_ (bool_decide (unsettled parent d = 0%nat)) ErrUnknownResult;
  _ ← checkConversationCommandsTx chat;
  mret (meta_text (limitNextKey parent) d).

(** ** Attachments bound to a run (attachments.go) *)
Definition is_hex_lower (c : Ascii.ascii) : bool :=
  let n := Ascii.nat_of_ascii c in
  ((48 <=? n) && (n <=? 57) || (97 <=? n) && (n <=? 102))%nat.
Definition attachmentID (s : string) : bool :=
  bool_decide (String.length s = 32%nat) && forallb is_hex_lower (String.list_ascii_of_string s).

Definition attachmentKey (ref : string) : string := "attachment/" +:+ ref.

(** [loadAttachment]. *)
Definition loadAttachment (d : db) (ref : string) : option attachmentRecord :=
  if attachmentID ref then
    match meta d !! attachmentKey ref with
    | Some (MAttachment r) =>
        if bool_decide (ar_id (at_ref r) = ref) && bool_decide (String.length (ar_sha256 (at_ref r)) = 64%nat)
           && (0 <=? ar_bytes (at_ref r))%Z then Some r else None
    | _ => None
    end
  else None.

(** [sameAttachmentPayload]. *)
Definition payload (a : AttachmentRef) : AttachmentRef :=
  mkAttachmentRef false (ar_id a) (ar_sha256 a) (ar_name a) (ar_mime a) (ar_bytes a) (ar_width a)
    (ar_height a) (ar_source a) false.
Definition sameAttachmentPayload (a b : AttachmentRef) : bool := bool_decide (payload a = payload b).

(** [bindAttachments]; [identity] is the attachment identity of the context. *)
Fixpoint bind_refs (identity space chat run : string) (refs : list AttachmentRef) : M unit :=
  match refs with
  | [] => mret tt
  | ref :: refs =>
      d ← query id;
      match loadAttachment d (ar_id ref) with
      | None => fail ErrAttachment
      | Some r =>
          _ ← guard_ (negb (at_deleted r || negb (bool_decide (at_conversation r = chat))
                            || negb (bool_decide (at_space r = space))
                            || negb (sameAttachmentPayload (at_ref r) ref)
                            || negb (at_committed r) && negb (bool_decide (at_principal r = identity))))
                     ErrAttachment;
          _ ← meta_upsert (attachmentKey (ar_id ref)) (MAttachment
                (mkAttachmentRecord (at_ref r) (at_conversation r) (at_space r) (at_principal r) true
                   (at_deleted r)
                   (if bool_decide (ar_source (at_ref r) = "upload") then at_request r else run)));
          bind_refs identity space chat run refs
      end
  end.
Definition bindAttachments (identity chat run : string) (refs : list AttachmentRef) : M unit :=
  c ← query_row (find_conversation chat);
  bind_refs identity (cv_space c) chat run refs.

(** ** Deferred inputs (input_queue.go) *)
Definition inputPrefix (chat : string) : string := "input/" +:+ chat +:+ "/".
Definition inputKey (chat key : string) : string := inputPrefix chat +:+ sha256hex key.
Definition pausedKey (chat : string) : string := "input-paused/" +:+ chat.

Definition saveInput (i : PendingInput) : M unit :=
  meta_upsert (inputKey (in_conversation i) (in_key i)) (MInput i).

Definition loadInput (chat key : string) : M PendingInput :=
  d ← query id;
  match meta d !! inputKey chat key with
  | None => fail ErrNoRows
  | Some (MInput i) => mret i
  | Some _ => fail ErrStoreFormat
  end.

Definition by_message (i j : PendingInput) : Prop := (in_message i <= in_message j)%Z.
#[export] Instance by_message_dec : RelDecision by_message := λ i j, Z_le_dec (in_message i) (in_message j).

(** The pending queue of a conversation, ORDER BY message_id. *)
Definition queued (chat : string) (d : db) : list PendingInput :=
  merge_sort by_message (filter (λ i, in_action i = "queue" ∧ in_status i = "pending")
    (meta_inputs d (inputPrefix chat))).

Definition undefer (m : ModelMessage) : ModelMessage :=
  mkModelMessage false (mm_attachments m) (mm_channel m) (mm_public m) (mm_role m) (mm_content m)
    (mm_name m) (mm_tool_call_id m) (mm_tool_calls m).

(** [moveInputMessage]: the received message moves to its adoption boundary;
    the trigger allocates the new id. *)
Definition moveInputMessage (i : PendingInput) (run : string) : M PendingInput :=
  next ← move_message_row (in_conversation i) (in_message i) run undefer;
  now ← nowText;
  let i' := mkInput now (in_key i) (in_action i) "adopted" next (in_conversation i) (in_target_run i) run
              (in_principal i) (in_created_at i) (in_attachments i) (in_person i) (in_remote i)
              (in_channel i) (in_binding i) (in_config_hash i) (in_profile_hash i) (in_permission i) in
  _ ← saveInput i';
  mret i'.

(** ** Creating a run *)

(** [branchSourceReady] (conversation_branch.go); [allowed] is the run the
    context allows. *)
Definition branchSourceReady (allowed chat : string) : M unit :=
  d ← query id;
  let open a := match att_status a with AFinished => false | _ => true end in
  let blocked := existsb (λ r, bool_decide (run_conversation r = chat) &&
        (activeRunPredicate r || existsb (λ a, bool_decide (att_run a = run_id r) && open a) (attempts d)))
        (runs d) in
  if negb blocked then mret tt
  else if bool_decide (allowed = "") then fail ErrActiveRun
  else
    let plan a := bool_decide (tc_name (decodeToolCall (att_request a)) = "control_plan_change") in
    guard_ (existsb (λ r, by_id allowed r && bool_decide (run_conversation r = chat)
                          && bool_decide (run_status r = WaitingConfirmation)) (runs d) &&
            negb (existsb (λ r, bool_decide (run_conversation r = chat) && negb (by_id allowed r)
                                && activeRunPredicate r) (runs d)) &&
            negb (existsb (λ a, bool_decide (att_run a = allowed) &&
                    match att_status a with
                    | ADispatched | AUnknown => true
                    | APending => negb (plan a)
                    | AFinished => false end) (attempts d))) ErrActiveRun.

Definition set_channel (c : ChannelRunOrigin) (rc : RunConfig) : RunConfig :=
  mkRunConfig (rc_input_request rc) (rc_continuation_of rc) (rc_attachments rc) (Some c) (rc_selection rc)
    (rc_permission rc) (rc_memory rc) (rc_workspace rc) (rc_memory_entries rc).

(** The queue entry the new run consumes, when its configuration names one. *)
Definition deferredInput (chat requestKey : string) (config : RunConfig) : M (option PendingInput) :=
  if bool_decide (rc_input_request config = "") then mret None
  else
    item ← loadInput chat (rc_input_request config);
    _ ← guard_ (bool_decide (in_action item = "queue") && bool_decide (in_status item = "pending")
                && bool_decide (in_key item = requestKey)) ErrRequestKey;
    d ← query id;
    first ← match queued chat d with i :: _ => mret (in_key i) | [] => fail ErrNoRows end;
    _ ← guard_ (bool_decide (first = in_key item)) ErrInputPending;
    _ ← guard_ (negb (bool_decide (meta_text (pausedKey chat) d = "true"))) ErrQueuePaused;
    mret (Some item).

(** The received message of a channel run: its id moves with a deferred input. *)
Definition freezeChannel (chat : string) (deferred : option PendingInput) (config : RunConfig)
    : M RunConfig :=
  match deferred with
  | Some i =>
      match in_channel i with
      | None => mret config
      | Some _ =>
          c ← query_row (find_conversation chat);
          match rc_channel config with
          | None => fail ErrStoreFormat
          | Some o => let next := (cv_last_message_seq c + 1)%Z in
                      mret (set_channel (mkChannelRunOrigin (co_revision o) (co_target o) next next (co_request_key o)) config)
          end
      end
  | None => mret config
  end.

(** The message that triggers the run: a moved input, a maintenance mark, the
    already received channel message, or a new user message. *)
Definition attachTrigger (r : Run) (config : RunConfig) (deferred : option PendingInput)
    (maintenance : bool) : M unit :=
  match deferred with
  | Some i => _ ← moveInputMessage i (run_id r); mret tt
  | None =>
      if maintenance then meta_insert ("context/maintenance/" +:+ run_id r) (MText "compaction")
      else match rc_channel config with
      | Some o =>
          if (0 <? co_input_message o)%Z then
            d ← query id;
            m ← match List.find (λ m, bool_decide (msg_id m = co_input_message o) &&
                      bool_decide (msg_conversation m = run_conversation r)) (messages d) with
                | Some m => mret m | None => fail ErrNoRows end;
            _ ← guard_ (bool_decide (mm_attachments (msg_body m) = rc_attachments config)) ErrRequestKey;
            n ← update_messages (λ m, bool_decide (msg_id m = co_input_message o) &&
                    bool_decide (msg_conversation m = run_conversation r) &&
                    bool_decide (msg_request_key m = run_request_key r) && bool_decide (msg_run m = None))
                  (λ m, mkMessage (msg_id m) (msg_conversation m) (Some (run_id r)) (msg_request_key m) (msg_body m));
            guard_ (bool_decide (n = 1%nat)) ErrRequestKey
          else insertMessage r (userMessage (run_prompt r) (rc_attachments config) true)
      | None => insertMessage r (userMessage (run_prompt r) (rc_attachments config) false)
      end
  end.

(** The explicit user command of a direct command run. *)
Definition attachCall (r : Run) (call : option ToolCall) : M unit :=
  match call with
  | None => mret tt
  | Some c =>
      _ ← meta_insert ("command/direct/" +:+ run_id r) (MText "explicit_user_command");
      _ ← insertMessage r (assistantMessage "" [c]);
      aid ← newID;
      insert_attempt (mkAttempt aid (run_id r) KTool (tc_id c) APending (QTool c) None 0)
  end.

(** [createRunWithTool]: the run, and whether it was created now. [identity]
    and [allowed] are read from the context. *)
Definition createRunWithTool (identity allowed chat requestKey prompt : string) (config : RunConfig)
    (maintenance : bool) (call : option ToolCall) : M (RunFacts * bool) :=
  _ ← guard_ (negb (bool_decide (requestKey = "") || bool_decide (prompt = "")))
        (EText "harness: request key and prompt are required");
  transaction (
    _ ← lockConversationTx chat;
    d ← query id;
    match find_by_request chat requestKey d with
    | Some existing =>
        _ ← guard_ (bool_decide (run_prompt existing = prompt) &&
                    bool_decide (rc_attachments (run_config existing) = rc_attachments config)) ErrRequestKey;
        mret (withModelFacts existing, false)
    | None =>
        next ← (if bool_decide (rc_continuation_of config = "") then mret ""
                else successorTx (rc_continuation_of config) chat);
        if negb (bool_decide (next = "")) then
          r ← query_row (find_run next); mret (withModelFacts r, false)
        else
          _ ← match meta d !! ("conversation/branch/" +:+ chat) with
              | Some (MBranch source) => branchSourceReady allowed source
              | Some _ => fail ErrStoreFormat
              | None => mret tt
              end;
          _ ← guard_ (bool_decide (count_if (λ r, bool_decide (run_conversation r = chat)
                        && activeRunPredicate r) (runs d) = 0%nat)) ErrActiveRun;
          deferred ← deferredInput chat requestKey config;
          rid ← newID;
          created ← nowText;
          updated ← nowText;
          config ← freezeChannel chat deferred config;
          let r := mkRun rid chat requestKey prompt config Running "" 0 0 "" created updated "" 0 0 in
          _ ← insert_run r;
          _ ← bindAttachments identity chat rid (rc_attachments config);
          _ ← attachTrigger r config deferred maintenance;
          _ ← attachCall r call;
          _ ← (if bool_decide (rc_continuation_of config = "") then mret tt
               else meta_insert (limitNextKey (rc_continuation_of config)) (MText rid));
          mret (withModelFacts r, true)
    end).

(** ** Recovery at start *)
Fixpoint settle_elapsed (l : list Run) : M unit :=
  match l with
  | [] => mret tt
  | r :: l =>
      w ← (λ w, (Ok (w_ticks w), w) : res nat * world);
      match elapsed_since w (run_active_since r) with
      | None => fail ErrStoreFormat
      | Some ms =>
          _ ← update_runs (by_id (run_id r)) (add_elapsed (Z.max 0 ms));
          settle_elapsed l
      end
  end.

(** The delivery records whose dispatch was interrupted. *)
Definition interrupt_sends : M unit :=
  write (λ d, set_meta (map_imap (λ k v, Some match v with
      | MSend st =>
          if (String.prefix "channel/send/" k || String.prefix "channel/file-send/" k
              || String.prefix "channel/reply-file/" k)
             && (bool_decide (st = "dispatching") || bool_decide (st = "creating"))
          then MSend "unknown" else v
      | _ => v end) (meta d)) d).

(** [recover]; [leases] is [recoverCollaborationLeases] (Budget.v). *)
Definition recover (leases : M unit) : M unit :=
  transaction (
    d ← query id;
    _ ← settle_elapsed (filter (λ r, run_active_since r ≠ "") (runs d));
    _ ← interrupt_sends;
    _ ← update_attempts (λ a, bool_decide (att_status a = ADispatched))
          (λ a, set_attempt AUnknown
             (match att_response a with None => Some (RText "process interrupted after dispatch marker") | r => r end) a);
    d ← query id;
    _ ← update_runs (λ r, negb (bool_decide (run_status r = Abandoned) || bool_decide (run_status r = Unknown)) &&
            existsb (λ a, bool_decide (att_run a = run_id r) && bool_decide (att_status a = AUnknown)
                          && negb (resolvedAttempt d a)) (attempts d))
          (λ r, set_status Unknown "unresolved call after restart" (run_updated_at r) r);
    _ ← update_runs (λ r, bool_decide (run_status r = Running))
          (λ r, set_status Stopped "process interrupted; continue explicitly" (run_updated_at r) r);
    leases).

End store.
