(* ===== verification/StoreInv.v ===== *)
(** * The store: well-formedness and monotonicity

    [db_wf] is what the schema and the allocation triggers promise;
    [db_le] orders databases by the evolution the methods allow: rows are never
    removed, an attempt's status only moves forward, a run's identity is fixed
    and its step count only grows. [step_ok] packages both as a preorder. [Respects]
    is the class of the preorders that every statement moves along, and [Steps m]
    says that every outcome of [m], failing or not, moves along all of them: the
    statement lemmas are in the hint database [steps], [solve_steps] composes
    them along the structure of a method, and any other invariant of the store
    only has to give its own instance of [Respects]. *)

From S2P Require Import Prelude Data Sql Memory Store.

(** ** The order *)
Definition att_rank (s : AttemptStatus) : nat :=
  match s with APending => 0 | ADispatched => 1 | AFinished | AUnknown => 2 end.

Record att_le (a b : Attempt) : Prop := {
  al_id : att_id b = att_id a;
  al_run : att_run b = att_run a;
  al_kind : att_kind b = att_kind a;
  al_call : att_call b = att_call a;
  al_request : att_request b = att_request a;
  al_seq : att_seq b = att_seq a;
  al_rank : (att_rank (att_status a) ≤ att_rank (att_status b))%nat;
  al_final : att_status a = AFinished → att_status b = AFinished → att_response b = att_response a;
  al_unknown : att_status a = AUnknown → att_status b = AUnknown;
}.

Record run_le (r s : Run) : Prop := {
  rl_id : run_id s = run_id r;
  rl_conversation : run_conversation s = run_conversation r;
  rl_key : run_request_key s = run_request_key r;
  rl_prompt : run_prompt s = run_prompt r;
  rl_seq : run_seq s = run_seq r;
  rl_steps : (run_steps r <= run_steps s)%Z;
  rl_last : (run_last_attempt_seq r <= run_last_attempt_seq s)%Z;
  rl_attachments : rc_attachments (run_config s) = rc_attachments (run_config r);
}.

(** A conversation keeps its name, its title and its folder. *)
Record conv_le (c e : Conversation) : Prop := {
  cl_id : cv_id e = cv_id c;
  cl_title : cv_title e = cv_title c;
  cl_workspace : cv_workspace e = cv_workspace c;
  cl_messages : (cv_last_message_seq c <= cv_last_message_seq e)%Z;
}.
(** A message stays in its conversation, under its key; it only moves to the end. *)
Record message_le (m n : Message) : Prop := {
  sl_conversation : msg_conversation n = msg_conversation m;
  sl_key : msg_request_key n = msg_request_key m;
  sl_id : (msg_id m <= msg_id n)%Z;
}.

(** [l'] extends [l] by rows at the end, each old row moved along [R]. *)
Definition grows {A} (R : A → A → Prop) (l l' : list A) : Prop :=
  ∃ l1 l2, l' = l1 ++ l2 ∧ Forall2 R l l1.

(** Keys of [fa.meta] the code only ever inserts. *)
Definition write_once (k : string) : bool :=
  existsb (λ p, String.prefix p k)
    ["attempt/time/"; "attempt/replaced/"; "run/limit-next/"; "command/direct/"; "context/maintenance/"].

Record meta_le (m m' : gmap string MetaValue) : Prop := {
  ml_once : ∀ k v, write_once k = true → (∀ st, v ≠ MSend st) → m !! k = Some v → m' !! k = Some v;
  ml_retry : ∀ root r, m !! recoveryKey root = Some (MRecovery r) →
    ∃ r', m' !! recoveryKey root = Some (MRecovery r') ∧ (mr_number r <= mr_number r')%Z;
}.

Record db_le (d d' : db) : Prop := {
  dl_meta : meta_le (meta d) (meta d');
  dl_conversations : grows conv_le (conversations d) (conversations d');
  dl_attempts : grows att_le (attempts d) (attempts d');
  dl_runs : grows run_le (runs d) (runs d');
  dl_messages : grows message_le (messages d) (messages d');
}.

#[export] Instance att_le_pre : PreOrder att_le.
Proof.
  split; [intros a; by split|]. intros a b c Hab Hbc. destruct Hab as [? ? ? ? ? ? Hr Hf Hu], Hbc as [? ? ? ? ? ? Hr' Hf' Hu'].
  split; try congruence; [lia| |auto]. intros Ea Ec. rewrite Ea in Hr. simpl in Hr.
  destruct (att_status b) eqn:Eb; simpl in Hr; try lia; [by rewrite Hf', Hf|]. by rewrite Hu' in Ec.
Qed.
#[export] Instance run_le_pre : PreOrder run_le.
Proof. split; [intros r; split; (done || lia)|]. intros r s t [] []. split; try congruence; lia. Qed.

#[export] Instance conv_le_pre : PreOrder conv_le.
Proof. split; [intros c; by split|]. intros ? ? ? [] []. split; try congruence; lia. Qed.
#[export] Instance message_le_pre : PreOrder message_le.
Proof. split; [intros m; by split|]. intros ? ? ? [] []. split; try congruence; lia. Qed.

#[export] Instance grows_pre {A} (R : relation A) `{!PreOrder R} : PreOrder (grows R).
Proof.
  split.
  - intros l. exists l, []. rewrite app_nil_r. split; [done|]. reflexivity.
  - intros l ? ? (l1 & l2 & -> & H1) (l3 & l4 & -> & H2).
    apply Forall2_app_inv_l in H2 as (k1 & k2 & Hk1 & Hk2 & ->).
    exists k1, (k2 ++ l4). rewrite app_assoc. split; [done|]. etrans; eauto.
Qed.

#[export] Instance meta_le_pre : PreOrder meta_le.
Proof.
  split; [intros m; split; eauto with lia|]. intros m1 m2 m3 [A1 A2] [B1 B2]. split; [auto|].
  intros root r Hr. destruct (A2 _ _ Hr) as (r2 & Hr2 & ?). destruct (B2 _ _ Hr2) as (r3 & ? & ?).
  exists r3. split; [done|lia].
Qed.

#[export] Instance db_le_pre : PreOrder db_le.
Proof. split; [intros d; split; reflexivity|]. intros ? ? ? [] []. split; by etrans. Qed.

(** ** Well-formedness *)
Definition seqs_of (run : string) (l : list Attempt) : list Z :=
  map att_seq (filter (λ a, att_run a = run) l).

Record db_wf (d : db) : Prop := {
  wf_runs : runs_constraints (runs d) = true;
  wf_attempt_ids : NoDup (map att_id (attempts d));
  wf_conversation_ids : NoDup (map cv_id (conversations d));
  wf_attempt_run : ∀ a, a ∈ attempts d → ∃ r, r ∈ runs d ∧ run_id r = att_run a ∧
                     (att_seq a <= run_last_attempt_seq r)%Z;
  wf_attempt_seq : ∀ run, StronglySorted Z.lt (seqs_of run (attempts d));
  wf_run_conversation : ∀ r, r ∈ runs d → ∃ c, c ∈ conversations d ∧ cv_id c = run_conversation r;
  wf_message : ∀ m, m ∈ messages d → ∃ c, c ∈ conversations d ∧ cv_id c = msg_conversation m ∧
                     (msg_id m <= cv_last_message_seq c)%Z;
  wf_message_ids : NoDup (map (λ m, (msg_conversation m, msg_id m)) (messages d));
  wf_spaces : spaces_constraints (spaces d) = true;
  wf_conversation_space : space_references (conversations d) (spaces d) = true;
}.

Definition step_ok (d d' : db) : Prop := db_wf d → db_wf d' ∧ db_le d d'.
#[export] Instance step_ok_pre : PreOrder step_ok.
Proof.
  split; [by intros d Hd|]. intros d1 d2 d3 H1 H2 H. destruct (H1 H) as [H' ?].
  destruct (H2 H') as [? ?]. split; [done|]. by etrans.
Qed.

(** ** Relations the methods follow

    [Along C m]: whatever preorder of the class [C] is looked at, every outcome
    of [m], failing or not, is related to where it began. *)
Definition Along (C : relation db → Prop) {A} (m : M A) : Prop :=
  ∀ R, C R → ∀ w, R (w_db w) (w_db (m w).2).
Class Closed (C : relation db → Prop) : Prop := closed_pre : ∀ R, C R → PreOrder R.

(** ** Structure *)
Section structure.
Context {C : relation db → Prop} `{!Closed C} {A B : Type}.

Lemma along_same {X} (m : M X) : (∀ w, w_db (m w).2 = w_db w) → Along C m.
Proof. intros Hm R HR w. pose proof (closed_pre R HR). rewrite (Hm w). reflexivity. Qed.
Lemma steps_ret (a : A) : Along C (mret a).
Proof. by apply along_same. Qed.
Lemma steps_fail e : Along C (A:=A) (fail e).
Proof. by apply along_same. Qed.
Lemma steps_query (f : db → A) : Along C (query f).
Proof. by apply along_same. Qed.
Lemma steps_query_row (f : db → option A) : Along C (query_row f).
Proof. by apply along_same. Qed.
Lemma steps_lift (r : res A) : Along C (lift r).
Proof. by apply along_same. Qed.
Lemma steps_guard b e : Along C (guard_ b e).
Proof. destruct b; by apply along_same. Qed.
Lemma steps_bind (m : M A) (f : A → M B) : Along C m → (∀ a, Along C (f a)) → Along C (m ≫= f).
Proof.
  intros Hm Hf R HR w. pose proof (closed_pre R HR). specialize (Hm R HR w). unfold mbind, M_bind.
  destruct (m w) as [[a|e] w'] eqn:E; [|done]. etrans; [exact Hm|]. by apply Hf.
Qed.
Lemma steps_transaction (m : M A) : Along C m → Along C (transaction m).
Proof.
  intros Hm R HR w. pose proof (closed_pre R HR). specialize (Hm R HR w). unfold transaction.
  destruct (m w) as [[a|e] w']; [done|simpl; reflexivity].
Qed.
Lemma steps_transaction_join (m : M (A * option error)) : Along C m → Along C (transaction_join m).
Proof.
  intros Hm R HR w. pose proof (closed_pre R HR). specialize (Hm R HR w). unfold transaction_join.
  destruct (m w) as [[[a [e|]]|e] w']; [done|done|simpl; reflexivity].
Qed.
Lemma steps_catch m : Along C m → Along C (catch m).
Proof. intros Hm R HR w. specialize (Hm R HR w). unfold catch. by destruct (m w) as [[a|e] w']. Qed.
Lemma steps_write f : (∀ R, C R → ∀ d, R d (f d)) → Along C (write f).
Proof. intros Hf R HR w. exact (Hf R HR (w_db w)). Qed.

(** After [d ← query id], the rest runs in a world whose database is [d]. *)
Lemma steps_query_id (f : db → M B) :
  (∀ R, C R → PreOrder R → ∀ w, R (w_db w) (w_db (f (w_db w) w).2)) → Along C (query id ≫= f).
Proof. intros Hf R HR w. exact (Hf R HR (closed_pre R HR) w). Qed.
Lemma steps_newID {H : Host} : Along C newID.
Proof. by apply along_same. Qed.
Lemma steps_nowText {H : Host} : Along C nowText.
Proof. by apply along_same. Qed.
End structure.

Lemma along_sub {C D : relation db → Prop} {A} (m : M A) : (∀ R, D R → C R) → Along C m → Along D m.
Proof. intros Hs Hm R HR. by apply Hm, Hs. Qed.

Lemma bind_query {A B} (f : db → A) (k : A → M B) w : (query f ≫= k) w = k (f (w_db w)) w.
Proof. reflexivity. Qed.

Create HintDb steps.
#[export] Hint Resolve steps_ret steps_fail steps_query steps_query_row steps_lift steps_guard : steps.
#[export] Hint Resolve steps_newID steps_nowText : steps.

(** Decompose a method into its statements. *)
Ltac steps_step :=
  match goal with
  | |- Along _ (mbind _ _) => apply steps_bind; [|intros ?]
  | |- Along _ (transaction _) => apply steps_transaction
  | |- Along _ (transaction_join _) => apply steps_transaction_join
  | |- Along _ (catch _) => apply steps_catch
  | |- Along _ (if ?b then _ else _) => destruct b
  | |- Along _ (match ?x with _ => _ end) => destruct x
  | |- Along _ (let _ := _ in _) => cbv zeta
  | |- Along _ _ => solve [eauto with steps]
  end.
Ltac solve_steps := repeat (intros; steps_step).

(** ** Rows *)
Section rows.
Context {A B : Type}.
Implicit Types l : list A.

Lemma map_update_rows (g : A → B) p f l : (∀ x, g (f x) = g x) → map g (update_rows p f l) = map g l.
Proof.
  intros Hg. unfold update_rows. rewrite map_map. apply map_ext. intros x. by destruct (p x).
Qed.

Lemma elem_of_update_rows p (f : A → A) l y :
  y ∈ update_rows p f l ↔ ∃ x, x ∈ l ∧ y = if p x then f x else x.
Proof. unfold update_rows. rewrite list_elem_of_fmap. naive_solver. Qed.

Lemma filter_update_rows (Q : A → Prop) `{!∀ x, Decision (Q x)} p f l :
  (∀ x, Q (f x) ↔ Q x) →
  filter Q (update_rows p f l) = update_rows p f (filter Q l).
Proof.
  intros HQ. induction l as [|x l IH]; [done|]. simpl. rewrite !filter_cons, IH.
  destruct (p x) eqn:E; repeat case_decide; simpl; rewrite ?E; naive_solver.
Qed.

Lemma grows_update_rows (R : relation A) `{!PreOrder R} p f l :
  (∀ x, x ∈ l → p x = true → R x (f x)) → grows R l (update_rows p f l).
Proof.
  intros H. exists (update_rows p f l), []. rewrite app_nil_r. split; [done|].
  unfold update_rows. apply Forall2_fmap_r, Forall_Forall2_diag, Forall_forall.
  intros x Hx. simpl. destruct (p x) eqn:E; [by apply H|reflexivity].
Qed.

Lemma grows_app (R : relation A) `{!PreOrder R} l l' : grows R l (l ++ l').
Proof. exists l, l'. split; [done|]. reflexivity. Qed.

Lemma update_rows_length p f l : length (update_rows p f l) = length l.
Proof. apply length_map. Qed.

Lemma find_update_rows (p q : A → bool) f l : (∀ x, p (f x) = p x) →
  List.find p (update_rows q f l) = (λ x, if q x then f x else x) <$> List.find p l.
Proof.
  intros Hp. induction l as [|x l IH]; [done|]. simpl. destruct (q x) eqn:E; rewrite ?Hp; destruct (p x); simpl; by rewrite ?E.
Qed.

Lemma find_elem (p : A → bool) l x : List.find p l = Some x → x ∈ l ∧ p x = true.
Proof. intros H. apply List.find_some in H as [H1 H2]. by rewrite list_elem_of_In. Qed.
End rows.

(** ** Statements on runs *)

(** An UPDATE of runs may change a run along [run_le] and not its attempt
    sequence. *)
Definition run_update (f : Run → Run) : Prop :=
  ∀ r, run_le r (f r) ∧ run_last_attempt_seq (f r) = run_last_attempt_seq r.

Lemma run_update_status s reason now : run_update (set_status s reason now).
Proof. intros r. split; [split; simpl; (done || lia)|done]. Qed.
Lemma run_update_output o : run_update (set_output o).
Proof. intros r. split; [split; simpl; (done || lia)|done]. Qed.
Lemma run_update_step : run_update add_step.
Proof. intros r. split; [split; simpl; (done || lia)|done]. Qed.
Lemma run_update_elapsed ms : run_update (add_elapsed ms).
Proof. intros r. split; [split; simpl; (done || lia)|done]. Qed.
Lemma run_update_comp f g : run_update f → run_update g → run_update (λ r, f (g r)).
Proof.
  intros Hf Hg r. destruct (Hf (g r)), (Hg r). split; [by etrans|congruence].
Qed.
Lemma run_update_status_fn s reason (now : Run → string) : run_update (λ r, set_status s reason (now r) r).
Proof. intros r. apply run_update_status. Qed.
#[export] Hint Resolve run_update_status run_update_output run_update_step run_update_elapsed
  run_update_comp run_update_status_fn : steps.

Lemma wf_set_runs d p f :
  run_update f → runs_constraints (update_rows p f (runs d)) = true →
  step_ok d (set_runs (update_rows p f (runs d)) d).
Proof.
  intros Hf Hc [H1 H2 H3 H4 H5 H6 H7 H8 H9 H10]. split.
  - split; simpl; try done.
    + intros a Ha. destruct (H4 a Ha) as (r & Hr & He & Hl).
      exists (if p r then f r else r). split; [apply elem_of_update_rows; eauto|].
      destruct (p r); [|done]. destruct (Hf r) as [[] ->]. split; [congruence|done].
    + intros r (x & Hx & ->)%elem_of_update_rows. destruct (H6 x Hx) as (c & Hc' & He).
      exists c. split; [done|]. destruct (p x); [|done]. destruct (Hf x) as [[] _]. congruence.
  - split; simpl; try reflexivity. apply grows_update_rows; [apply _|]. intros x _ _. apply Hf.
Qed.


Lemma runs_constraints_map f l :
  (∀ r, run_id (f r) = run_id r ∧ run_conversation (f r) = run_conversation r ∧
        run_request_key (f r) = run_request_key r ∧ run_steps (f r) = run_steps r ∧
        run_status (f r) = run_status r ∧ run_stop_reason (f r) = run_stop_reason r) →
  ∀ p, runs_constraints (update_rows p f l) = runs_constraints l.
Proof.
  intros Hf p. unfold runs_constraints.
  rewrite (map_update_rows run_id) by naive_solver.
  rewrite (map_update_rows (λ r, (run_conversation r, run_request_key r))) by (intros r; destruct (Hf r); naive_solver congruence).
  unfold active_conversations. rewrite filter_update_rows.
  2:{ intros r. unfold activeRunPredicate. by destruct (Hf r) as (_ & _ & _ & _ & -> & ->). }
  rewrite map_update_rows by naive_solver. f_equal. induction l as [|r l IH]; [done|].
  simpl. rewrite IH. f_equal. destruct (p r); [|done]. by destruct (Hf r) as (_ & _ & _ & -> & _).
Qed.

(** ** Statements on attempts *)

(** An UPDATE of attempts moves the rows it selects along [att_le]. *)
Definition att_update (p : Attempt → bool) (f : Attempt → Attempt) : Prop :=
  ∀ a, p a = true → att_le a (f a).
Definition att_update_on (l : list Attempt) (p : Attempt → bool) (f : Attempt → Attempt) : Prop :=
  ∀ a, a ∈ l → p a = true → att_le a (f a).

(** Only rows whose outcome is open are selected. *)
Definition open_only (p : Attempt → bool) : Prop := ∀ a, p a = true → (att_rank (att_status a) < 2)%nat.
Lemma open_pending x : open_only (att_by x (is_status APending)).
Proof. intros a [_ ->%bool_decide_eq_true]%andb_true_iff. simpl. lia. Qed.
Lemma open_dispatched x : open_only (att_by x (is_status ADispatched)).
Proof. intros a [_ ->%bool_decide_eq_true]%andb_true_iff. simpl. lia. Qed.
Lemma open_workflow a run : open_only (workflow_dispatched a run).
Proof. intros b [_ ->%bool_decide_eq_true]%andb_true_iff. simpl. lia. Qed.
Lemma open_tool p : open_only (λ b, p b && (bool_decide (att_status b = APending) || bool_decide (att_status b = ADispatched))).
Proof. intros b [_ [->%bool_decide_eq_true| ->%bool_decide_eq_true]%orb_true_iff]%andb_true_iff; simpl; lia. Qed.

Lemma att_le_close a s resp : (att_rank (att_status a) < 2)%nat → (att_rank s = 2)%nat → att_le a (set_attempt s resp a).
Proof. intros Ha Hs. split; try done; simpl; [rewrite Hs; lia|intros E; rewrite E in Ha; simpl in Ha; lia..]. Qed.
Definition not_run : Attempt → Attempt :=
  set_attempt AFinished (Some (RTool (mkToolResult [] None false (abandonText APending) true [] []))).
Lemma att_update_final p resp : open_only p → att_update p (set_attempt AFinished resp).
Proof. intros Hp a Ha. apply att_le_close; [by apply Hp|done]. Qed.
Lemma att_update_unknown p resp : att_update p (λ a, set_attempt AUnknown (resp a) a).
Proof. intros a _. split; try done. simpl. destruct (att_status a); simpl; lia. Qed.
Lemma att_update_unknown_const p resp : att_update p (set_attempt AUnknown resp).
Proof. apply (att_update_unknown p (λ _, resp)). Qed.
Lemma att_update_dispatch x :
  att_update (att_by x (is_status APending)) (λ a, set_attempt ADispatched (att_response a) a).
Proof.
  intros a [_ Hs]%andb_true_iff. apply bool_decide_eq_true in Hs. split; try done; simpl; rewrite Hs; [simpl; lia|done..].
Qed.

Lemma wf_set_attempts d p f :
  (db_wf d → att_update_on (attempts d) p f) → step_ok d (set_attempts (update_rows p f (attempts d)) d).
Proof.
  intros Hf Hwf. specialize (Hf Hwf). revert Hwf.
  assert (Hg : ∀ x, x ∈ attempts d → att_le x (if p x then f x else x)) by (intros x Hx; destruct (p x) eqn:E; [by apply Hf|reflexivity]).
  intros [H1 H2 H3 H4 H5 H6 H7 H8 H9 H10]. split.
  - split; simpl; try done.
    + unfold update_rows. rewrite map_map. erewrite map_ext_in; [exact H2|]. intros x Hx%list_elem_of_In. by apply Hg.
    + intros a (x & Hx & ->)%elem_of_update_rows. destruct (Hg x Hx) as [_ -> _ _ _ -> _ _ _]. by apply H4.
    + intros run. specialize (H5 run). unfold seqs_of in *. enough (Heq : map att_seq (filter (λ a, att_run a = run)
        (update_rows p f (attempts d))) = map att_seq (filter (λ a, att_run a = run) (attempts d))) by by rewrite Heq.
      clear H2 H4 H5 Hf. induction (attempts d) as [|x l IH]; [done|]. simpl. rewrite !filter_cons.
      destruct (Hg x ltac:(by left)) as [_ Hr _ _ _ Hs _ _ _]. rewrite Hr. case_decide; simpl; [rewrite Hs|];
        rewrite IH; try done; intros y Hy; apply Hg; by right.
  - split; simpl; try reflexivity. apply grows_update_rows; [apply _|]. auto.
Qed.

#[export] Hint Resolve att_update_final att_update_unknown att_update_unknown_const att_update_dispatch
  open_pending open_dispatched open_workflow open_tool : steps.

Lemma wf_insert_attempt a w : step_ok (w_db w) (w_db (insert_attempt a w).2).
Proof.
  unfold insert_attempt. rewrite bind_query. unfold id. set (d := w_db w).
  destruct (find_run (att_run a) d) as [r|] eqn:Er; [|reflexivity].
  destruct (negb (existsb _ (attempts d))) eqn:Ee; [|reflexivity].
  apply find_elem in Er as [Hr Hrid%bool_decide_eq_true].
  apply negb_true_iff in Ee. simpl. set (seq := (run_last_attempt_seq r + 1)%Z).
  intros [H1 H2 H3 H4 H5 H6 H7 H8 H9 H10].
  set (bump := set_run_last_attempt_seq seq). set (p := λ r, bool_decide (run_id r = att_run a)).
  assert (Huniq : ∀ s, s ∈ runs d → run_id s = att_run a → s = r).
  { unfold runs_constraints in H1. bool_prop. intros s Hs Heq.
    eapply (NoDup_map_inj run_id); eauto; congruence. }
  split.
  - split; simpl; try done.
    + rewrite runs_constraints_map; [done|]. intros s. by repeat split.
    + rewrite map_app. apply NoDup_app. split; [done|]. split; [|apply NoDup_singleton].
      intros x Hx ->%list_elem_of_singleton. apply list_elem_of_fmap in Hx as (b & Hb & Hin).
      apply not_true_iff_false in Ee. apply Ee, existsb_exists. exists b.
      rewrite <- list_elem_of_In. split; [done|]. by apply bool_decide_eq_true.
    + intros b [Hb| ->%list_elem_of_singleton]%elem_of_app.
      * destruct (H4 b Hb) as (s & Hs & He & Hl). exists (if p s then bump s else s).
        split; [apply elem_of_update_rows; eauto|]. unfold p. case_bool_decide as Hp; [|done].
        split; [done|]. rewrite (Huniq s Hs Hp) in Hl. unfold bump, seq. simpl. lia.
      * exists (bump r). split; [|by split]. apply elem_of_update_rows. exists r. split; [done|].
        unfold p. by rewrite bool_decide_eq_true_2.
    + intros run. unfold seqs_of. rewrite filter_app, map_app.
      rewrite filter_cons; simpl; case_decide as Heq.
      * simpl. apply StronglySorted_snoc; [apply H5|].
        intros z Hz. apply list_elem_of_fmap in Hz as (b & -> & [Hbr Hb]%list_elem_of_filter).
        destruct (H4 b Hb) as (s & Hs & He & Hl). rewrite (Huniq s Hs) in Hl by congruence. unfold seq. lia.
      * simpl. rewrite app_nil_r. apply H5.
    + intros s (x & Hx & ->)%elem_of_update_rows. destruct (H6 x Hx) as (c & ? & ?). exists c.
      by destruct (p x).
  - split; simpl; try reflexivity; [by apply grows_app, _|]. apply grows_update_rows; [apply _|].
    intros s Hs Hp%bool_decide_eq_true. rewrite (Huniq s Hs Hp). split; try done; simpl; lia.
Qed.

(** ** Statements on conversations and messages *)

Definition conv_update (f : Conversation → Conversation) : Prop :=
  ∀ c, conv_le c (f c) ∧ cv_space (f c) = cv_space c.

Lemma conv_lookup_update p f l x :
  conv_update f →
  (∃ c, c ∈ l ∧ cv_id c = x) → ∃ c, c ∈ update_rows p f l ∧ cv_id c = x.
Proof.
  intros Hf (c & Hc & He). exists (if p c then f c else c). split; [apply elem_of_update_rows; eauto|].
  destruct (p c); [|done]. destruct (Hf c) as [[] _]. congruence.
Qed.

Lemma space_references_update p f cs ss : conv_update f →
  space_references (update_rows p f cs) ss = space_references cs ss.
Proof.
  intros Hf. unfold space_references. induction cs as [|c cs IH]; [done|]. simpl. rewrite IH. f_equal.
  destruct (p c); [|done]. by destruct (Hf c) as [_ ->].
Qed.

Lemma wf_set_conversations d p f :
  conv_update f → step_ok d (set_conversations (update_rows p f (conversations d)) d).
Proof.
  intros Hf [H1 H2 H3 H4 H5 H6 H7 H8 H9 H10].
  split; [|split; simpl; try reflexivity; apply grows_update_rows; [apply _|]; intros c _ _; apply Hf].
  split; simpl; try done.
  - rewrite map_update_rows; [done|]. intros c. by apply cl_id, Hf.
  - intros r Hr. apply conv_lookup_update; auto.
  - intros m Hm. destruct (H7 m Hm) as (c & Hc & He & Hl). exists (if p c then f c else c).
    split; [apply elem_of_update_rows; eauto|]. destruct (p c); [|done].
    destruct (Hf c) as [[] _]. split; [congruence|lia].
  - by rewrite space_references_update.
Qed.

(** A statement that begins by reading a row. *)
Lemma wf_query_row {A B} (f : db → option A) (k : A → M B) w :
  (∀ a, f (w_db w) = Some a → step_ok (w_db w) (w_db (k a w).2)) → step_ok (w_db w) (w_db ((query_row f ≫= k) w).2).
Proof. intros Hk. unfold query_row, mbind, M_bind. destruct (f (w_db w)); [auto|reflexivity]. Qed.

Lemma wf_insert_run r w : step_ok (w_db w) (w_db (insert_run r w).2).
Proof.
  unfold insert_run. apply wf_query_row. intros c Ec. rewrite bind_query. unfold id.
  apply find_elem in Ec as [Hc Hcid%bool_decide_eq_true].
  set (d := w_db w) in *. simpl. set (r' := mkRun _ _ _ _ _ _ _ _ _ _ _ _ _ _ _).
  destruct (runs_constraints (runs d ++ [r'])) eqn:E; [|reflexivity]. simpl.
  intros [H1 H2 H3 H4 H5 H6 H7 H8 H9 H10].
  assert (Hcu : conv_update (conv_run_seq (cv_last_run_seq c + 1))) by (intros ?; by split).
  split.
  - split; simpl; try done.
    + by rewrite map_update_rows.
    + intros a Ha. destruct (H4 a Ha) as (s & ? & ?). exists s. set_solver.
    + intros s [Hs| ->%list_elem_of_singleton]%elem_of_app; apply conv_lookup_update; eauto.
    + intros m Hm. destruct (H7 m Hm) as (c0 & Hc0 & He & Hl).
      eexists. split; [apply elem_of_update_rows; eauto|]. by case_bool_decide.
    + by rewrite space_references_update.
  - split; simpl; try reflexivity; [|by apply grows_app, _]. apply grows_update_rows; [apply _|]. intros e _ _. apply Hcu.
Qed.

(** The common part of a statement that allocates the next message id. *)
Lemma wf_allocate_message d conv c l' :
  c ∈ conversations d → cv_id c = conv →
  let next := (cv_last_message_seq c + 1)%Z in
  (∀ m, m ∈ l' → (∃ m0, m0 ∈ messages d ∧ msg_conversation m = msg_conversation m0 ∧ msg_id m = msg_id m0)
               ∨ msg_conversation m = conv ∧ msg_id m = next) →
  (db_wf d → NoDup (map (λ m, (msg_conversation m, msg_id m)) l')) →
  (db_wf d → grows message_le (messages d) l') →
  step_ok d (set_messages l' (set_conversations (update_rows (λ c, bool_decide (cv_id c = conv))
         (conv_message_seq next)
         (conversations d)) d)).
Proof.
  intros Hc Hcid next Hl' Hnd Hgr Hwf. specialize (Hnd Hwf). specialize (Hgr Hwf). destruct Hwf as [H1 H2 H3 H4 H5 H6 H7 H8 H9 H10].
  assert (Huniq : ∀ c', c' ∈ conversations d → cv_id c' = conv → c' = c).
  { intros c' ? ?. eapply (NoDup_map_inj cv_id); eauto; congruence. }
  split.
  2: { split; simpl; try reflexivity; [|done]. apply grows_update_rows; [apply _|]. intros e He Ee%bool_decide_eq_true.
       rewrite (Huniq e He Ee). split; try done. simpl. lia. }
  split; simpl; try done.
  - by rewrite map_update_rows.
  - intros r Hr. destruct (H6 r Hr) as (c0 & Hc0 & He). eexists.
    split; [apply elem_of_update_rows; eauto|]. by case_bool_decide.
  - intros m Hm. destruct (Hl' m Hm) as [(m0 & Hm0 & Ec & Ei)|[Ec Ei]]; rewrite Ec, Ei.
    + destruct (H7 m0 Hm0) as (c0 & Hc0 & He & Hle). eexists.
      split; [apply elem_of_update_rows; eauto|]. case_bool_decide as Hp; [|done].
      rewrite (Huniq c0 Hc0 Hp) in Hle. simpl. split; [congruence|]. unfold next. lia.
    + eexists. split; [apply elem_of_update_rows; exists c; split; [done|reflexivity]|].
      rewrite bool_decide_eq_true_2 by done. simpl. split; [done|lia].
  - unfold space_references in *. rewrite forallb_forall in *. intros c0 Hc0%list_elem_of_In.
    apply elem_of_update_rows in Hc0 as (c1 & Hc1%list_elem_of_In & ->). specialize (H10 c1 Hc1). by destruct (bool_decide _).
Qed.

Lemma message_id_bound d m c :
  db_wf d → m ∈ messages d → c ∈ conversations d → cv_id c = msg_conversation m →
  (msg_id m <= cv_last_message_seq c)%Z.
Proof.
  intros [H1 H2 H3 H4 H5 H6 H7 H8 H9 H10] Hm Hc He. destruct (H7 m Hm) as (c' & Hc' & He' & Hl).
  assert (c' = c) as ->; [|done]. eapply (NoDup_map_inj cv_id); eauto; congruence.
Qed.

Lemma wf_insert_message_row conv run body w : step_ok (w_db w) (w_db (insert_message_row conv run body w).2).
Proof.
  unfold insert_message_row. apply wf_query_row. intros c Ec. rewrite bind_query. unfold id.
  apply find_elem in Ec as [Hc Hcid%bool_decide_eq_true]. simpl. set (d := w_db w) in *.
  apply wf_allocate_message; [done|done| | |intros _; by apply grows_app, _].
  - intros m [Hm| ->%list_elem_of_singleton]%elem_of_app; [left; eauto|by right].
  - intros Hwf. rewrite map_app. apply NoDup_app. split; [apply Hwf|]. split; [|apply NoDup_singleton].
    intros x Hx ->%list_elem_of_singleton. apply list_elem_of_fmap in Hx as (m & E & Hm).
    injection E as E1 E2. pose proof (message_id_bound d m c Hwf Hm Hc ltac:(congruence)). lia.
Qed.

Definition message_update (f : Message → Message) : Prop :=
  ∀ m, msg_id (f m) = msg_id m ∧ msg_conversation (f m) = msg_conversation m ∧ msg_request_key (f m) = msg_request_key m.

Lemma wf_update_messages d p f : message_update f → step_ok d (set_messages (update_rows p f (messages d)) d).
Proof.
  intros Hf. intros [H1 H2 H3 H4 H5 H6 H7 H8 H9 H10].
  split.
  2: { split; simpl; try reflexivity. apply grows_update_rows; [apply _|]. intros m _ _. destruct (Hf m) as (E1 & E2 & E3). split; [done|done|]. by rewrite E1. }
  split; simpl; try done.
  - intros m (x & Hx & ->)%elem_of_update_rows. destruct (H7 x Hx) as (c & ? & ? & ?).
    exists c. destruct (p x); [|done]. by destruct (Hf x) as (-> & -> & _).
  - rewrite map_update_rows; [done|]. intros m. by destruct (Hf m) as (-> & -> & _).
Qed.

Lemma NoDup_update_one {A B} (g : A → B) p (f : A → A) l :
  NoDup (map g l) →
  (∀ x y, x ∈ l → y ∈ l → p x = true → p y = true → g x = g y) →
  (∀ x y, x ∈ l → y ∈ l → p x = true → p y = false → g (f x) ≠ g y) →
  NoDup (map g (update_rows p f l)).
Proof.
  induction l as [|z l IH]; simpl; [intros; constructor|].
  intros [Hz Hn]%NoDup_cons Hsame Hnew. apply NoDup_cons. split.
  - intros (y & E & (x & Hx & ->)%elem_of_update_rows)%list_elem_of_fmap.
    destruct (p z) eqn:Ez, (p x) eqn:Ex.
    + apply Hz. apply list_elem_of_fmap. exists x. split; [|done]. apply Hsame; set_solver.
    + eapply Hnew; [| | | |exact E]; set_solver.
    + eapply (Hnew x z); [| | | |by symmetry]; set_solver.
    + apply Hz. apply list_elem_of_fmap. eauto.
  - apply IH; [done| |]; intros; [apply Hsame|apply Hnew]; set_solver.
Qed.

Lemma wf_move_message_row conv old run f w : step_ok (w_db w) (w_db (move_message_row conv old run f w).2).
Proof.
  unfold move_message_row. apply wf_query_row. intros c Ec. rewrite bind_query. unfold id.
  apply find_elem in Ec as [Hc Hcid%bool_decide_eq_true]. simpl. set (d := w_db w) in *.
  match goal with |- context [existsb ?t _] => set (target := t) end.
  destruct (existsb target (messages d)); [|reflexivity]. simpl. assert (Ht : ∀ m, target m = true → msg_id m = old ∧ msg_conversation m = conv).
  { intros m Hm. unfold target in Hm. bool_prop. done. }
  apply wf_allocate_message; [done|done| | |].
  3: { intros Hwf. apply grows_update_rows; [apply _|]. intros m Hm Tm. destruct (Ht m Tm) as [_ Em]. split; [by rewrite Em|done|]. simpl.
       pose proof (message_id_bound d m c Hwf Hm Hc ltac:(congruence)). lia. }
  - intros m (x & Hx & ->)%elem_of_update_rows. destruct (target x) eqn:E; [right|left; eauto].
    simpl. by destruct (Ht x E).
  - intros Hwf. apply NoDup_update_one; [apply Hwf| |].
    + intros x y _ _ Hx Hy. destruct (Ht x Hx), (Ht y Hy). congruence.
    + intros x y Hx Hy Tx Ty [= E1 E2]. destruct (Ht x Tx) as [_ Exc].
      pose proof (message_id_bound d y c Hwf Hy Hc ltac:(congruence)). lia.
Qed.

(** ** Statements on meta *)
Lemma wf_set_meta d m : meta_le (meta d) m → step_ok d (set_meta m d).
Proof. intros Hm []. split; [by split|]. split; simpl; (done || reflexivity). Qed.

Lemma meta_le_fresh m k v : m !! k = None → meta_le m (<[k := v]> m).
Proof.
  intros Hk. split.
  - intros k' v' _ _ Hk'. rewrite lookup_insert_ne; [done|]. congruence.
  - intros root r Hr. exists r. split; [|lia]. rewrite lookup_insert_ne; [done|]. congruence.
Qed.

Lemma write_once_recovery root : write_once (recoveryKey root) = false.
Proof. reflexivity. Qed.

(** The grants of Telegram chats and the inputs of the queue, which only their
    own operations change. *)
Definition access_key (k : string) : bool := String.prefix "telegram/access/" k.
Definition input_key (k : string) : bool := String.prefix "input/" k.
Record reserved_kept (m m' : gmap string MetaValue) : Prop := {
  kept_access : ∀ k g, access_key k = true → m !! k = Some (MAccess g) → m' !! k = Some (MAccess g);
  kept_input : ∀ k, input_key k = true → m' !! k = m !! k;
}.
Lemma input_key_free k : input_key k = true → write_once k = false ∧ String.prefix "recovery/model/" k = false.
Proof. unfold input_key. destruct k as [|c k]; [done|]. cbn [String.prefix]. destruct (Ascii.ascii_dec _ c) as [<-|]; [by split|done]. Qed.
Lemma input_no_access k : input_key k = true → access_key k = false.
Proof. unfold input_key, access_key. destruct k as [|c k]; [done|]. cbn [String.prefix]. by destruct (Ascii.ascii_dec _ c) as [<-|]. Qed.
Lemma input_no_delivery k : input_key k = true →
  String.prefix "channel/send/" k || String.prefix "channel/file-send/" k || String.prefix "channel/reply-file/" k = false.
Proof. unfold input_key. destruct k as [|c k]; [done|]. cbn [String.prefix]. by destruct (Ascii.ascii_dec _ c) as [<-|]. Qed.
Lemma reserved_kept_fresh m k v : input_key k = false → m !! k = None → reserved_kept m (<[k := v]> m).
Proof.
  intros Hi Hk. split; [intros k' v' _ Hk'|intros k' Hk']; (rewrite lookup_insert_ne; [done|]; congruence).
Qed.
Lemma reserved_kept_insert m k v : access_key k = false → input_key k = false → reserved_kept m (<[k := v]> m).
Proof. intros Ha Hi. split; [intros k' v' Hk' Hl|intros k' Hk']; (rewrite lookup_insert_ne; [done|]; congruence). Qed.

(** A key that is neither written once, nor a retry record, nor a grant, nor an
    input. *)
Definition upsert_free (k : string) : Prop :=
  write_once k = false ∧ String.prefix "recovery/model/" k = false ∧ access_key k = false ∧ input_key k = false.

Lemma prefix_app p s : String.prefix p (p +:+ s) = true.
Proof. induction p as [|c p IH]; [by destruct s|]. simpl. destruct (Ascii.ascii_dec c c); congruence. Qed.

Lemma prefix_recovery root : String.prefix "recovery/model/" (recoveryKey root) = true.
Proof. apply prefix_app. Qed.
Lemma meta_le_insert m k v : upsert_free k → meta_le m (<[k := v]> m).
Proof.
  intros (Ho & Hr & _ & _). split.
  - intros k' v' Hk' _ Hl. rewrite lookup_insert_ne; [done|]. congruence.
  - intros root r Hl. exists r. split; [|lia]. rewrite lookup_insert_ne; [done|].
    intros ->. unfold recoveryKey in Hr. by rewrite prefix_app in Hr.
Qed.

(** ** What the statements respect *)

(** A preorder every statement of the store moves along. *)
Class Respects (R : relation db) : Prop := {
  respects_pre :: PreOrder R;
  respects_runs : ∀ d p f, run_update f → runs_constraints (update_rows p f (runs d)) = true →
    R d (set_runs (update_rows p f (runs d)) d);
  respects_attempts : ∀ d p f, (db_wf d → att_update_on (attempts d) p f) → R d (set_attempts (update_rows p f (attempts d)) d);
  respects_messages : ∀ d p f, message_update f → R d (set_messages (update_rows p f (messages d)) d);
  respects_conversations : ∀ d p now, R d (set_conversations (update_rows p (conv_touch now) (conversations d)) d);
  respects_meta : ∀ d m, meta_le (meta d) m → reserved_kept (meta d) m → R d (set_meta m d);
  respects_insert_run : ∀ r w, R (w_db w) (w_db (insert_run r w).2);
  respects_insert_attempt : ∀ a w, (att_rank (att_status a) < 2)%nat → R (w_db w) (w_db (insert_attempt a w).2);
  respects_insert_message : ∀ c r b w, R (w_db w) (w_db (insert_message_row c r b w).2);
  respects_move_message : ∀ c o r f w, R (w_db w) (w_db (move_message_row c o r f w).2);
}.
#[export] Instance respects_closed : Closed Respects.
Proof. intros R HR. apply HR. Qed.
#[export] Hint Resolve respects_closed : steps.

#[export] Instance step_ok_respects : Respects step_ok.
Proof.
  split.
  - apply _.
  - apply wf_set_runs.
  - apply wf_set_attempts.
  - apply wf_update_messages.
  - intros d p now. apply wf_set_conversations. intros c. by split.
  - intros d m Hm _. by apply wf_set_meta.
  - apply wf_insert_run.
  - intros a w _. apply wf_insert_attempt.
  - apply wf_insert_message_row.
  - apply wf_move_message_row.
Qed.

(** A preorder that looks at the key/value table only. *)
Lemma respects_meta_only R : PreOrder R → (∀ d d', meta d' = meta d → R d d') →
  (∀ d m, meta_le (meta d) m → reserved_kept (meta d) m → R d (set_meta m d)) → Respects R.
Proof.
  intros HP Hs Hm. split; try done; try (intros; by apply Hs).
  - intros r w. apply Hs. unfold insert_run, query_row, mbind, M_bind. destruct (find_conversation _ _); [|done]. simpl.
    by destruct (runs_constraints _).
  - intros a w _. apply Hs. unfold insert_attempt. rewrite bind_query. unfold id. destruct (find_run _ _); [|done]. simpl.
    by destruct (negb _).
  - intros c r b w. apply Hs. unfold insert_message_row, query_row, mbind, M_bind. by destruct (find_conversation _ _).
  - intros c o r f w. apply Hs. unfold move_message_row, query_row, mbind, M_bind. destruct (find_conversation _ _); [|done]. simpl.
    by destruct (existsb _ _).
Qed.

(** [Steps m]: [m] moves along whatever its statements respect; in particular
    along [step_ok]. *)
Notation Steps := (Along Respects).

Lemma steps_update_runs p f : run_update f → Steps (update_runs p f).
Proof.
  intros Hf. unfold update_runs. apply steps_query_id. intros R HR HP w.
  destruct (runs_constraints (update_rows p f (runs (w_db w)))) eqn:E; simpl; [|reflexivity].
  by apply respects_runs.
Qed.
Lemma steps_update_attempts p f : att_update p f → Steps (update_attempts p f).
Proof. intros Hf. apply steps_query_id. intros R HR HP w. apply respects_attempts. intros _ a _. apply Hf. Qed.
Lemma steps_update_messages p f : message_update f → Steps (update_messages p f).
Proof. intros Hf. apply steps_query_id. intros R HR HP w. by apply respects_messages. Qed.
Lemma steps_touch_conversation x now : Steps (touch_conversation x now).
Proof. apply steps_query_id. intros R HR HP w. by apply respects_conversations. Qed.
Lemma steps_insert_run r : Steps (insert_run r).
Proof. intros R HR w. apply respects_insert_run. Qed.
Lemma steps_insert_attempt a : (att_rank (att_status a) < 2)%nat → Steps (insert_attempt a).
Proof. intros Ha R HR w. by apply respects_insert_attempt. Qed.
Lemma steps_insert_message_row conv run body : Steps (insert_message_row conv run body).
Proof. intros R HR w. apply respects_insert_message. Qed.
Lemma steps_move_message_row conv old run f : Steps (move_message_row conv old run f).
Proof. intros R HR w. apply respects_move_message. Qed.
Lemma steps_meta_insert k v : input_key k = false → Steps (meta_insert k v).
Proof.
  intros Hi. apply steps_query_id. intros R HR HP w.
  case_bool_decide as Hk; [|reflexivity]. apply respects_meta; [by apply meta_le_fresh|by apply reserved_kept_fresh].
Qed.
Lemma steps_meta_upsert k v : upsert_free k → Steps (meta_upsert k v).
Proof. intros Hk. apply steps_query_id. intros R HR HP w. apply respects_meta; [by apply meta_le_insert|by apply reserved_kept_insert; apply Hk]. Qed.
#[export] Hint Resolve steps_update_runs steps_update_attempts steps_update_messages steps_touch_conversation
  steps_insert_run steps_insert_message_row steps_move_message_row
  steps_meta_upsert : steps.
#[export] Hint Extern 1 (Steps (meta_insert _ _)) => apply steps_meta_insert; reflexivity : steps.
#[export] Hint Extern 1 (Steps (insert_attempt _)) => apply steps_insert_attempt; simpl; lia : steps.
#[export] Hint Extern 1 (upsert_free _) => split_and!; reflexivity : steps.

(** What writing an entry of the input queue respects as well. *)
Class RespectsInputs (R : relation db) : Prop := {
  ri_respects :: Respects R;
  ri_input : ∀ d k i, input_key k = true → R d (set_meta (<[k := MInput i]> (meta d)) d);
}.
#[export] Instance respects_inputs_closed : Closed RespectsInputs.
Proof. intros R HR. apply HR. Qed.
Notation InputSteps := (Along RespectsInputs).
Lemma input_steps {A} (m : M A) : Steps m → InputSteps m.
Proof. apply along_sub. by intros R []. Qed.
#[export] Hint Resolve respects_inputs_closed : steps.
#[export] Hint Extern 5 (InputSteps _) => apply input_steps : steps.
#[export] Instance step_ok_respects_inputs : RespectsInputs step_ok.
Proof.
  split; [apply _|]. intros d k i [Hw Hr]%input_key_free. apply wf_set_meta. split.
  - intros k' v' Hk _ Hl. rewrite lookup_insert_ne; [done|]. congruence.
  - intros root r Hl. exists r. split; [|lia]. rewrite lookup_insert_ne; [done|]. intros ->. by rewrite prefix_recovery in Hr.
Qed.

(** ** The methods *)
Class GuardSteps (g : option callGuard) : Prop := {
  reserve_steps : ∀ k, g = Some k → ∀ a, Steps (Reserve k a);
  record_steps : ∀ k, g = Some k → ∀ a n b, Steps (Record_ k a n b);
}.
#[export] Instance no_guard_steps : GuardSteps None.
Proof. by split. Qed.

Section methods.
Context {H : Host} {RC : ReadChecks}.

Lemma steps_validateRequestMemory r q : Steps (validateRequestMemory r q).
Proof. unfold validateRequestMemory. solve_steps. Qed.
#[local] Hint Resolve steps_validateRequestMemory : steps.
Lemma steps_insertMessage r m : Steps (insertMessage r m).
Proof. unfold insertMessage. solve_steps. Qed.
Lemma steps_incrementStep r n : Steps (incrementStep r n).
Proof. unfold incrementStep. solve_steps. Qed.
Lemma steps_update_status p s reason : Steps (update_status p s reason).
Proof. unfold update_status. solve_steps. Qed.
Lemma steps_lockExecutionTx r : Steps (lockExecutionTx r).
Proof. unfold lockExecutionTx, lockConversationTx. solve_steps. Qed.
Hint Resolve steps_insertMessage steps_incrementStep steps_update_status steps_lockExecutionTx : steps.

Lemma steps_reserve g `{!GuardSteps g} a : Steps (reserve g a).
Proof. destruct g as [k|]; simpl; [by apply (reserve_steps k)|apply steps_ret]. Qed.
Lemma steps_record g `{!GuardSteps g} r a n b l : Steps (record g r a n b l).
Proof.
  destruct g as [k|]; simpl; [|apply steps_ret].
  pose proof (record_steps k eq_refl a n b). solve_steps.
Qed.
Hint Resolve steps_reserve steps_record : steps.

Lemma steps_insert_tool_calls r calls : Steps (insert_tool_calls r calls).
Proof. induction calls; simpl; solve_steps. Qed.
Lemma steps_checkUncontrolled c : Steps (checkUncontrolled c).
Proof. unfold checkUncontrolled. solve_steps. Qed.
Lemma steps_recordModelReplacement a r : Steps (recordModelReplacement a r).
Proof. unfold recordModelReplacement. solve_steps. Qed.
Hint Resolve steps_insert_tool_calls steps_checkUncontrolled steps_recordModelReplacement : steps.

Lemma steps_startGuardedModel r q n g `{!GuardSteps g} : Steps (startGuardedModel r q n g).
Proof. unfold startGuardedModel. solve_steps. Qed.

Lemma steps_saveGuardedModel r a resp g `{!GuardSteps g} n : Steps (saveGuardedModel r a resp g n).
Proof. unfold saveGuardedModel, saveModelTx. solve_steps. Qed.
Lemma steps_failModel r a resp e g `{!GuardSteps g} n : Steps (failModel r a resp e g n).
Proof. unfold failModel. solve_steps. Qed.
Lemma steps_startTool r c : Steps (startTool r c).
Proof. unfold startTool. solve_steps. Qed.
Lemma steps_dispatchGuardedTool a n g `{!GuardSteps g} : Steps (dispatchGuardedTool a n g).
Proof. unfold dispatchGuardedTool. solve_steps. Qed.
Lemma steps_saveToolTxMode r a c res g `{!GuardSteps g} n d m : Steps (saveToolTxMode r a c res g n d m).
Proof. unfold saveToolTxMode. solve_steps. Qed.
Hint Resolve steps_saveToolTxMode : steps.
Lemma steps_saveGuardedTool r a c res g `{!GuardSteps g} n d m : Steps (saveGuardedTool r a c res g n d m).
Proof. unfold saveGuardedTool. solve_steps. Qed.
Lemma steps_markUnknown a reason b : Steps (markUnknown a reason b).
Proof. unfold markUnknown. solve_steps. Qed.
Lemma steps_settleControlProposal r a res c reason t : Steps (settleControlProposal r a res c reason t).
Proof. unfold settleControlProposal. solve_steps. Qed.

Lemma steps_savepoint m : Steps m → Steps (savepoint m).
Proof. intros Hm R HR w. specialize (Hm R HR w). unfold savepoint. by destruct (m w) as [[a|e] w']. Qed.
Lemma steps_executeLocalToolMode r a c m norm g `{!GuardSteps g} n b :
  Steps m → Steps (executeLocalToolMode r a c m norm g n b).
Proof. intros Hm. pose proof (steps_savepoint m Hm). unfold executeLocalToolMode. solve_steps. Qed.

Lemma steps_check_running s : Steps (check_running s).
Proof. unfold check_running. solve_steps. Qed.
Lemma steps_finish_running r s reason o : Steps (finish_running r s reason o).
Proof. unfold finish_running. solve_steps. Qed.
Hint Resolve steps_check_running steps_finish_running : steps.
Lemma steps_startWorkflow r e wf i n g `{!GuardSteps g} : Steps (startWorkflow r e wf i n g).
Proof. unfold startWorkflow. solve_steps. Qed.
Lemma steps_finishWorkflow r a res s reason o g `{!GuardSteps g} n : Steps (finishWorkflow r a res s reason o g n).
Proof. unfold finishWorkflow. solve_steps. Qed.
Lemma steps_finishWorkflowUnknown r a reason rec : Steps (finishWorkflowUnknown r a reason rec).
Proof. unfold finishWorkflowUnknown. solve_steps. Qed.
Lemma steps_FinishRun r s reason : Steps (FinishRun r s reason).
Proof. unfold FinishRun. solve_steps. Qed.
Lemma steps_FinishRunOutput r s reason o : Steps (FinishRunOutput r s reason o).
Proof. unfold FinishRunOutput. solve_steps. Qed.

(** Abandoning closes the listed calls that still wait. *)
Definition abandon_listed (l : list Attempt) (d : db) : Prop :=
  ∀ a, a ∈ l → att_status a = APending → a ∈ attempts d ∨ ∀ b, b ∈ attempts d → att_id b = att_id a → not_run b = b.
Lemma abandon_listed_same l d d' : attempts d' = attempts d → abandon_listed l d → abandon_listed l d'.
Proof. unfold abandon_listed. by intros ->. Qed.
Lemma abandon_listed_tail a l d : abandon_listed (a :: l) d → abandon_listed l d.
Proof. intros Hl x Hx. apply Hl. by right. Qed.
Lemma abandon_update a l d : abandon_listed (a :: l) d → att_status a = APending → db_wf d →
  att_update_on (attempts d) (λ b, bool_decide (att_id b = att_id a)) not_run.
Proof.
  intros Hl Ha Hwf b Hb Eb%bool_decide_eq_true. destruct (Hl a ltac:(by left) Ha) as [Hin|Hin]; [|by rewrite (Hin b Hb Eb)].
  assert (b = a) as -> by (by apply (NoDup_map_inj att_id (attempts d)); [apply Hwf|..]). apply att_le_close; [rewrite Ha; simpl; lia|done].
Qed.
Lemma abandon_listed_update a l d : abandon_listed (a :: l) d →
  abandon_listed l (set_attempts (update_rows (λ b, bool_decide (att_id b = att_id a)) not_run (attempts d)) d).
Proof.
  intros Hl x Hx Ex. destruct (decide (att_id x = att_id a)) as [E|Hne].
  - right. intros b (c & Hc & ->)%elem_of_update_rows Eb. case_bool_decide as Ec; [done|]. simpl in Eb. congruence.
  - destruct (Hl x ltac:(by right) Ex) as [Hin|Hin]; [left|right].
    + apply elem_of_update_rows. exists x. split; [done|]. by rewrite bool_decide_eq_false_2.
    + intros b (c & Hc & ->)%elem_of_update_rows Eb. case_bool_decide; [done|]. by apply Hin.
Qed.
Lemma insertMessage_attempts r m w : attempts (w_db (insertMessage r m w).2) = attempts (w_db w).
Proof. unfold insertMessage, insert_message_row, query_row, mbind, M_bind. by destruct (find_conversation _ _). Qed.
Lemma insertMessage_bind r m (u : M unit) w : attempts (w_db ((u ≫= λ _, insertMessage r m) w).2) = attempts (w_db (u w).2).
Proof. unfold mbind, M_bind. destruct (u w) as [[a|e] w1]; [apply insertMessage_attempts|done]. Qed.
Lemma guard_world b e w : (guard_ b e w).2 = w.
Proof. by destruct b. Qed.
Lemma bind_along R `{!PreOrder R} {A B} (m : M A) (f : A → M B) w :
  R (w_db w) (w_db (m w).2) → (∀ a, m w = (Ok a, (m w).2) → R (w_db (m w).2) (w_db (f a (m w).2).2)) → R (w_db w) (w_db ((m ≫= f) w).2).
Proof.
  intros Hm Hf. unfold mbind, M_bind. destruct (m w) as [[a|e] w1]; [|done]. simpl in *. etrans; [exact Hm|]. by apply Hf.
Qed.
Lemma abandon_attempts_along R `{!Respects R} run l w : abandon_listed l (w_db w) → R (w_db w) (w_db (abandon_attempts run l w).2).
Proof.
  revert w. induction l as [|a l IH]; intros w Hl; simpl; [reflexivity|]. apply bind_along; [apply _| |].
  - destruct (bool_decide (att_kind a = KTool) && _); [|reflexivity]. cbv zeta. apply bind_along; [apply _| |intros [] _; by apply steps_insertMessage].
    case_bool_decide as Ea; [|reflexivity]. unfold update_attempts. simpl. rewrite Ea. apply respects_attempts. by apply abandon_update with l.
  - intros [] _. apply IH. destruct (bool_decide (att_kind a = KTool) && _); [|by apply abandon_listed_tail with a]. cbv zeta.
    eapply abandon_listed_same; [apply insertMessage_bind|]. case_bool_decide as Ea; [|by apply abandon_listed_tail with a].
    rewrite Ea. by apply abandon_listed_update.
Qed.
Lemma lockExecutionTx_world r w : (lockExecutionTx r w).2 = w.
Proof.
  unfold lockExecutionTx, lockConversationTx, query_row, mbind, M_bind. simpl. destruct (bool_decide _); simpl.
  2: destruct (meta (w_db w) !! _); [simpl|done]. all: destruct (find_run _ _); [|done]; by destruct (find_conversation _ _).
Qed.
Lemma steps_abandonRun r : Steps (abandonRun r).
Proof.
  unfold abandonRun. apply steps_bind; [apply steps_query_row|intros x].
  assert (Hm : Steps (l ← query (listAttempts r);
      _ ← guard_ (negb (existsb (λ a, bool_decide (att_status a = ADispatched)) l)) ErrUnknownResult;
      transaction (
        _ ← lockExecutionTx r;
        _ ← abandon_attempts (rf_run (withModelFacts x)) l;
        _ ← update_status (by_id r) Abandoned "abandoned by user; unknown attempt facts are retained";
        mret tt))).
  { intros R HR w. pose proof (respects_pre (R:=R)). rewrite bind_query. apply bind_along; [apply _|rewrite guard_world; reflexivity|intros [] E].
    rewrite guard_world. clear E. match goal with |- context [transaction ?t] => assert (Ht : R (w_db w) (w_db (t w).2)) end.
    { apply bind_along; [apply _|rewrite lockExecutionTx_world; reflexivity|intros [] _]. rewrite lockExecutionTx_world. apply bind_along; [apply _| |].
      - apply abandon_attempts_along; [apply _|]. intros a Ha _. left. by apply list_elem_of_filter in Ha as [_ Ha].
      - intros [] _. match goal with |- R _ (w_db (?k _).2) => cut (Steps k); [intros Hk; by apply Hk|solve_steps] end. }
    unfold transaction. match type of Ht with R _ (w_db (snd ?u)) => destruct u as [[x'|e] w'] end; [done|simpl; reflexivity]. }
  destruct (run_status x); solve [exact Hm|solve_steps].
Qed.
#[local] Hint Resolve steps_abandonRun : steps.
Lemma steps_Abandon r : Steps (Abandon r).
Proof. unfold Abandon. solve_steps. Qed.
Lemma steps_reserveModelRetry r rec n : Steps (reserveModelRetry r rec n).
Proof.
  unfold reserveModelRetry. apply steps_transaction.
  intros R HR w. rewrite bind_query. unfold id.
  set (old := match meta (w_db w) !! recoveryKey (mr_root rec) with
              | None => mret 0%Z | Some (MRecovery o) => mret (mr_number o) | Some _ => fail ErrStoreFormat end : M Z).
  set (k := λ old : Z, _ : M unit).
  assert (Hold : ∀ o w', old w = (Ok o, w') → w' = w ∧
    ∀ r', meta (w_db w) !! recoveryKey (mr_root rec) = Some (MRecovery r') → mr_number r' = o).
  { intros o w' Ho. unfold old in Ho. destruct (meta _ !! _) as [[]|]; inversion Ho; subst; naive_solver. }
  assert (Hfail : ∀ e w', old w = (Err e, w') → w' = w).
  { intros e w' Ho. unfold old in Ho. destruct (meta _ !! _) as [[]|]; by inversion Ho. }
  change (R (w_db w) (w_db ((old ≫= k) w).2)). unfold mbind, M_bind.
  destruct (old w) as [[o|e] w'] eqn:Eo; [|rewrite (Hfail _ _ eq_refl); reflexivity].
  destruct (Hold _ _ eq_refl) as [-> Hnum]. clear Hold Hfail Eo. unfold k. clear k old.
  unfold guard_. destruct (bool_decide _ && _) eqn:Eg; [|reflexivity].
  apply andb_true_iff in Eg as [Eg%bool_decide_eq_true _].
  unfold mbind at 1, M_bind at 1. simpl.
  destruct (List.find _ _) as [a|]; [|reflexivity].
  unfold mbind at 1, M_bind at 1, mret at 1, M_ret at 1.
  destruct (bool_decide (att_kind a = KModel) && _ && _); [|reflexivity].
  set (f := λ _ : unit, update_status _ _ _ ≫= _).
  assert (Hf : ∀ u, Steps (f u)) by (intros; unfold f; solve_steps).
  change (R (w_db w) (w_db ((meta_upsert (recoveryKey (mr_root rec)) (MRecovery rec) ≫= f) w).2)).
  unfold mbind at 1, M_bind at 1. unfold meta_upsert. rewrite bind_query.
  cbn [write fst snd]. etrans; [|exact (Hf tt R HR _)]. apply respects_meta; [split|by apply reserved_kept_insert].
  - intros k' v' Hk' _ Hl. rewrite lookup_insert_ne; [done|]. intros <-.
    by rewrite write_once_recovery in Hk'.
  - intros root r' Hl. destruct (decide (root = mr_root rec)) as [->|Hne].
    + exists rec. split; [apply lookup_insert_eq|]. rewrite (Hnum _ Hl) in *. lia.
    + exists r'. split; [|lia]. rewrite lookup_insert_ne; [done|]. unfold recoveryKey.
      intros Heq. apply Hne. by simplify_eq/=.
Qed.

Lemma steps_checkConversationCommandsTx c : Steps (checkConversationCommandsTx c).
Proof. unfold checkConversationCommandsTx. solve_steps. Qed.
Hint Resolve steps_checkConversationCommandsTx : steps.
Lemma steps_successorTx p c : Steps (successorTx p c).
Proof. unfold successorTx. solve_steps. Qed.
Hint Resolve steps_successorTx : steps.

Lemma checkConversationCommandsTx_world c w : (checkConversationCommandsTx c w).2 = w.
Proof. unfold checkConversationCommandsTx. rewrite bind_query. unfold guard_. by destruct (negb _). Qed.

Lemma steps_settleLimited f : Steps (settleLimited f).
Proof.
  unfold settleLimited. cbv zeta. repeat steps_step. intros R HR w.
  pose proof (checkConversationCommandsTx_world (run_conversation (rf_run f)) w) as Hw.
  destruct (checkConversationCommandsTx _ w) as [[[]|e] w']; simpl in Hw; subst w'.
  - match goal with |- R _ (w_db (?m w).2) => enough (Hm : Steps m) by by apply Hm end. solve_steps.
  - destruct e; reflexivity.
Qed.

Lemma steps_bind_refs i s c r refs : Steps (bind_refs i s c r refs).
Proof. induction refs; simpl; solve_steps. Qed.
Hint Resolve steps_bind_refs : steps.
Lemma steps_bindAttachments i c r refs : Steps (bindAttachments i c r refs).
Proof. unfold bindAttachments. solve_steps. Qed.
Lemma inputKey_input c k : input_key (inputKey c k) = true.
Proof. exact (prefix_app "input/" ((c +:+ "/") +:+ sha256hex k)). Qed.
Lemma steps_saveInput i : InputSteps (saveInput i).
Proof. apply steps_query_id. intros R HR HP w. apply ri_input, inputKey_input. Qed.
Lemma steps_loadInput c k : Steps (loadInput c k).
Proof. unfold loadInput. solve_steps. Qed.
Hint Resolve steps_bindAttachments steps_saveInput steps_loadInput : steps.
Lemma steps_moveInputMessage i r : InputSteps (moveInputMessage i r).
Proof. unfold moveInputMessage. solve_steps. Qed.
Hint Resolve steps_moveInputMessage : steps.

Lemma steps_branchSourceReady a c : Steps (branchSourceReady a c).
Proof. unfold branchSourceReady. solve_steps. Qed.
Lemma steps_deferredInput c k cfg : Steps (deferredInput c k cfg).
Proof. unfold deferredInput. solve_steps. Qed.
Lemma steps_freezeChannel c i cfg : Steps (freezeChannel c i cfg).
Proof. unfold freezeChannel. solve_steps. Qed.
Lemma steps_attachTrigger r cfg i m : InputSteps (attachTrigger r cfg i m).
Proof. unfold attachTrigger. solve_steps. apply input_steps, steps_update_messages. by intros []. Qed.
Lemma steps_attachCall r call : Steps (attachCall r call).
Proof. unfold attachCall. solve_steps. Qed.
Hint Resolve steps_branchSourceReady steps_deferredInput steps_freezeChannel steps_attachTrigger
  steps_attachCall : steps.

Lemma steps_createRunWithTool i al c k p cfg m call : InputSteps (createRunWithTool i al c k p cfg m call).
Proof. unfold createRunWithTool, lockConversationTx. solve_steps. Qed.

Lemma steps_settle_elapsed l : Steps (settle_elapsed l).
Proof.
  induction l as [|r l IH]; simpl; [apply steps_ret|]. apply steps_bind; [by apply along_same|].
  solve_steps.
Qed.
Lemma steps_interrupt_sends : Steps interrupt_sends.
Proof.
  apply steps_write. intros R HR d. apply respects_meta; [split|].
  - intros k v _ Hv Hl. rewrite map_lookup_imap, Hl. simpl. destruct v; try done. by destruct (Hv state).
  - intros root r Hl. exists r. split; [|lia]. by rewrite map_lookup_imap, Hl.
  - split; [intros k g _ Hl; by rewrite map_lookup_imap, Hl|]. intros k Hk. rewrite map_lookup_imap.
    destruct (meta d !! k) as [v|]; [|done]. simpl. by destruct v; rewrite ?(input_no_delivery _ Hk).
Qed.
Hint Resolve steps_settle_elapsed steps_interrupt_sends : steps.
Lemma steps_recover leases : Steps leases → Steps (recover leases).
Proof. intros Hl. unfold recover. solve_steps. Qed.

End methods.
