(* ===== verification/Space.v ===== *)
(** * Spaces: the boundary of conversations

    Model of src/internal/harness/spaces.go and of the creation of conversations
    (store.go) and channel bindings (channel_messages.go): spaces, the default
    and the active conversation they route to, and moving conversations between
    them, which publishes the text of a local conversation to the channel it
    moves to. *)

From Stdlib Require Import Ascii DecimalString.
From S2P Require Import Prelude Text Data Sql Store StoreInv.

Definition SpaceSourceLocal : string := "local".

(** [validateSpaceSource], [validateSpaceTitle]. *)
Definition validateSpaceSource (source kind external : string) : res unit :=
  if bool_decide (source = SpaceSourceLocal) then
    check (bool_decide (kind = "") && bool_decide (external = "")) ErrInvalidSpace
  else if bool_decide (source ∈ ["telegram"; "lark"; "qq"]) then
    _ ← check (bool_decide (kind = "private") || bool_decide (kind = "group")) ErrInvalidSpace;
    check (negb (bool_decide (TrimSpace external = "") || (512 <? String.length external)%nat
                 || ContainsAny external control_chars)) ErrInvalidSpace
  else Err ErrInvalidSpace.
Definition validateSpaceTitle (title : string) : res unit :=
  check (negb (bool_decide (TrimSpace title = "") || (80 <? RuneCount title)%nat
               || ContainsAny title [return_; newline] || hasControl title)) ErrInvalidSpace.

(** [ChannelTarget.validate], [key] and [channelTarget] (channel_messages.go). *)
Definition validChannelPart (v : string) : bool :=
  negb (bool_decide (v = "")) && (String.length v <=? 256)%nat &&
  negb (ContainsAny v (slash :: control_chars)) && negb (hasControl v).
Definition target_valid (t : ChannelTarget) : bool :=
  bool_decide (ct_source t ∈ ["telegram"; "lark"; "qq"]) && validChannelPart (ct_application t) && validChannelPart (ct_chat t).
Definition target_key (t : ChannelTarget) : string := ct_application t +:+ "/" +:+ ct_chat t.
Definition channelTarget (s : Space) : option ChannelTarget :=
  match Split (sp_external s) slash with
  | app :: (_ :: _) as rest =>
      let t := mkChannelTarget (sp_source s) app (Join rest "/") in
      if target_valid t then Some t else None
  | _ => None
  end.

Definition no_permission (space : string) : PermissionSelection :=
  mkSelection false "" space "" "" "" "" PermissionNone "space" false [] "" [] [] None "".

(** The rows of a space the statements change. *)
Definition route (default_ active now : string) (s : Space) : Space :=
  mkSpace (sp_id s) (sp_title s) (sp_source s) (sp_kind s) (sp_external s) default_ active (sp_multi s) (sp_created_at s) now.
Definition set_title (title now : string) (s : Space) : Space :=
  mkSpace (sp_id s) title (sp_source s) (sp_kind s) (sp_external s) (sp_default s) (sp_active s) (sp_multi s) (sp_created_at s) now.
Definition set_multi (enabled : bool) (now : string) (s : Space) : Space :=
  mkSpace (sp_id s) (sp_title s) (sp_source s) (sp_kind s) (sp_external s) (sp_default s)
    (if enabled then sp_active s else sp_default s) enabled (sp_created_at s) now.
Definition by_id (id : string) (s : Space) : bool := bool_decide (sp_id s = id).

Section spaces.
Context {H : Host}.

(** [scanSpace] of the row with an identifier; no row is [ErrSpaceNotFound]. *)
Definition scanSpace (f : db → option Space) : M Space :=
  d ← query f; match d with Some s => mret s | None => fail (EWrap ErrSpaceNotFound ["space not found"]) end.
Definition GetSpace (id : string) : M Space :=
  _ ← guard_ (negb (bool_decide (TrimSpace id = ""))) ErrSpaceNotFound;
  scanSpace (find_space id).

Definition find_external (source external : string) (d : db) : option Space :=
  List.find (λ s, bool_decide (sp_source s = source) && bool_decide (sp_external s = external)) (spaces d).

(** [CreateSpace]. *)
Definition CreateSpace (title source kind external : string) : M Space :=
  _ ← lift (validateSpaceTitle title);
  _ ← lift (validateSpaceSource source kind external);
  now ← nowText;
  space ← newID;
  let s := mkSpace space title source kind external "" "" false now now in
  transaction
    (_ ← insert_space s;
     _ ← meta_insert (permissionKey space) (MPermission (no_permission space));
     mret s).

(** [EnsureExternalSpace]: the space of an external chat, and whether it was
    created now. *)
Definition outcome {A} (m : M A) : M (res A) := λ w, match m w with (r, w') => (Ok r, w') end.
Definition EnsureExternalSpace (title source kind external : string) : M (Space * bool) :=
  _ ← guard_ (negb (bool_decide (source = SpaceSourceLocal))) ErrInvalidSpace;
  _ ← lift (validateSpaceTitle title);
  _ ← lift (validateSpaceSource source kind external);
  found ← query (find_external source external);
  match found with
  | Some s => mret (s, false)
  | None =>
      created ← outcome (CreateSpace title source kind external);
      match created with
      | Ok s => mret (s, true)
      | Err e =>
          found ← query (find_external source external);
          match found with Some s => mret (s, false) | None => fail e end
      end
  end.

(** [RenameSpace]. *)
Definition RenameSpace (id title : string) : M unit :=
  _ ← lift (validateSpaceTitle title);
  _ ← GetSpace id;
  now ← nowText;
  n ← update_spaces (by_id id) (set_title title now);
  guard_ (bool_decide (n = 1%nat)) (EWrap ErrSpaceNotFound [id]).

(** [setSpaceConversation]. *)
Definition setSpaceConversation (space conversation : string) (default_ : bool) : M unit :=
  transaction
    (s ← scanSpace (find_space space);
     c ← query_row (find_conversation conversation);
     _ ← guard_ (bool_decide (cv_space c = space)) ErrConversationSpace;
     _ ← guard_ (default_ || bool_decide (sp_source s = "local") || sp_multi s || bool_decide (conversation = sp_default s))
           (EText "harness: enable multiple conversations before changing channel routing");
     now ← nowText;
     _ ← update_spaces (by_id space) (λ s,
           if default_
           then route conversation (if negb (bool_decide (sp_source s = "local")) && negb (sp_multi s) then conversation else sp_active s) now s
           else route (sp_default s) conversation now s);
     mret tt).

(** [SetSpaceMultiConversation]. *)
Definition SetSpaceMultiConversation (space : string) (enabled : bool) : M unit :=
  now ← nowText;
  n ← update_spaces (by_id space) (set_multi enabled now);
  guard_ (bool_decide (n = 1%nat)) ErrSpaceNotFound.

(** [CreateConversationInSpace] (store.go). *)
Definition CreateConversationInSpace (space title workspace : string) : M Conversation :=
  _ ← guard_ (negb (bool_decide (title = "") || bool_decide (workspace = ""))) (EText "harness: title and workspace are required");
  _ ← GetSpace space;
  chat ← newID;
  created ← nowText;
  updated ← nowText;
  let c := mkConversation chat title workspace space created updated 0 0 in
  transaction
    (_ ← insert_conversation c;
     s ← query_row (find_space space);
     _ ← (if bool_decide (sp_default s = "") then _ ← update_spaces (by_id space) (route chat chat updated); mret tt else mret tt);
     mret c).

(** [bindChannelTx] (channel_messages.go): the space and the conversation of a
    paired chat; [workspace] is the configured one. *)
Definition bindChannelTx (target : ChannelTarget) (kind title workspace : string) : M Space :=
  found ← query (find_external (ct_source target) (target_key target));
  match found with
  | Some s => mret s
  | None =>
      now ← nowText;
      space ← newID;
      chat ← newID;
      _ ← insert_space (mkSpace space title (ct_source target) kind (target_key target) chat chat false now now);
      _ ← insert_conversation (mkConversation chat title workspace space now now 0 0);
      _ ← meta_insert (permissionKey space) (MPermission (no_permission space));
      scanSpace (find_space space)
  end.

(** [PairChannel]. *)
Definition PairChannel (target : ChannelTarget) (kind title workspace : string) : M Space :=
  _ ← guard_ (target_valid target && is_ok (validateSpaceTitle title)
              && (bool_decide (kind = "private") || bool_decide (kind = "group"))) ErrInvalidSpace;
  transaction (bindChannelTx target kind title workspace).

(** ** Publishing a moved conversation *)

(** The entry a run was started from: [{Permission,entry}] of its
    configuration, "local" when it has none. *)
Definition run_entry (r : Run) : string :=
  match rc_permission (run_config r) with
  | Some p => if bool_decide (ps_entry p = "") then "local" else ps_entry p
  | None => "local" end.

(** The messages [publishMovedText] reads: those of local, not directly
    commanded runs, in order of their number. *)
Definition local_message (chat : string) (d : db) (m : Message) : bool :=
  bool_decide (msg_conversation m = chat) &&
  match msg_run m with
  | None => false
  | Some run => match find_run run d with
                | None => false
                | Some r => bool_decide (run_entry r = "local") && bool_decide (meta d !! ("command/direct/" +:+ run) = None)
                end
  end.
Definition msg_le (a b : Message) : Prop := (msg_id a <= msg_id b)%Z.
#[local] Instance msg_le_dec : RelDecision msg_le := λ a b, Z_le_dec (msg_id a) (msg_id b).
Definition local_rows (chat : string) (cursor : Z) (d : db) : list Message :=
  merge_sort msg_le (filter (λ m, local_message chat d m = true ∧ (cursor < msg_id m)%Z) (messages d)).

(** What is published of them: text of the user and of the assistant that is not
    public already. *)
Definition publishable (m : Message) : bool :=
  let b := msg_body m in
  negb (mm_public b) && match mm_channel b with None => true | Some _ => false end &&
  (bool_decide (mm_role b = "user") || bool_decide (mm_role b = "assistant")) && negb (bool_decide (mm_content b = "")).

Definition decimal (z : Z) : string := NilEmpty.string_of_int (Z.to_int z).
Definition publicationKey (chat : string) (id : Z) : string := "channel/publication/" +:+ chat +:+ "/" +:+ decimal id.

(** The attachments of a published message, made public with their records. *)
Definition set_public (r : AttachmentRef) : AttachmentRef :=
  mkAttachmentRef (ar_unavailable r) (ar_id r) (ar_sha256 r) (ar_name r) (ar_mime r) (ar_bytes r) (ar_width r) (ar_height r)
    (ar_source r) true.
Fixpoint publish_refs (refs : list AttachmentRef) : M (list AttachmentRef) :=
  match refs with
  | [] => mret []
  | ref :: refs =>
      found ← query (λ d, loadAttachment d (ar_id ref));
      ref ← match found with
            | Some r =>
                if at_deleted r then mret ref
                else
                  _ ← meta_update (λ k v, if bool_decide (k = attachmentKey (ar_id ref)) then
                        MAttachment (mkAttachmentRecord (set_public (at_ref r)) (at_conversation r) (at_space r) (at_principal r)
                                       (at_committed r) (at_deleted r) (at_request r)) else v);
                  mret (set_public ref)
            | None => mret ref
            end;
      rest ← publish_refs refs;
      mret (ref :: rest)
  end.
Definition publication (target : ChannelTarget) (m : Message) (refs : list AttachmentRef) : ModelMessage :=
  mkModelMessage false refs (Some (mkChannelMessageSource [] target "" "" ("published-" +:+ decimal (msg_id m)) "published")) true
    (mm_role (msg_body m)) (mm_content (msg_body m)) "" "" [].
Definition publish_one (chat : string) (target : ChannelTarget) (m : Message) : M unit :=
  refs ← publish_refs (mm_attachments (msg_body m));
  insert_message_once chat (publicationKey chat (msg_id m)) (publication target m refs).
Fixpoint publish_all (chat : string) (target : ChannelTarget) (l : list Message) : M unit :=
  match l with [] => mret tt | m :: l => _ ← publish_one chat target m; publish_all chat target l end.

(** The loop over pages of 32 rows. *)
Fixpoint publish_pages (fuel : nat) (chat : string) (target : ChannelTarget) (cursor : Z) : M unit :=
  match fuel with
  | O => fail (EText "out of fuel")
  | S fuel =>
      page ← query (λ d, take 32 (local_rows chat cursor d));
      _ ← publish_all chat target (filter (λ m, publishable m = true) page);
      if (length page <? 32)%nat then mret tt
      else publish_pages fuel chat target (match last page with Some m => msg_id m | None => cursor end)
  end.
Definition publishMovedText (chat space : string) : M unit :=
  s ← scanSpace (find_space space);
  match channelTarget s with
  | None => mret tt
  | Some target =>
      d ← query id;
      publish_pages (S (length (messages d))) chat target 0
  end.

(** ** Moving and deleting *)

(** The first conversation of a space: latest update first, then identifier. *)
Definition conv_before (a b : Conversation) : bool :=
  text_lt (cv_updated_at b) (cv_updated_at a) ||
  negb (text_lt (cv_updated_at a) (cv_updated_at b)) && text_lt (cv_id a) (cv_id b).
Fixpoint first_conversation (l : list Conversation) : option Conversation :=
  match l with
  | [] => None
  | c :: l => match first_conversation l with
              | Some b => Some (if conv_before b c then b else c)
              | None => Some c end
  end.
Definition belongs (chat space : string) (d : db) : bool :=
  match find_conversation chat d with Some c => bool_decide (cv_space c = space) | None => false end.

(** [refreshSpacePointersTx]: a pointer to a conversation elsewhere is dropped. *)
Definition keep_pointer (space : string) (d : db) (p : string) : string :=
  if negb (bool_decide (p = "")) && negb (belongs p space d) then "" else p.
Definition first_id (space : string) (d : db) : string :=
  match first_conversation (filter (λ c, cv_space c = space) (conversations d)) with
  | Some c => cv_id c | None => "" end.
Definition refreshSpacePointersTx (space : string) : M unit :=
  s ← query_row (find_space space);
  d ← query id;
  let current := keep_pointer space d (sp_default s) in
  let active := keep_pointer space d (sp_active s) in
  let current := if bool_decide (current = "") then first_id space d else current in
  let active := if bool_decide (active = "") then current else active in
  let active := if negb (bool_decide (sp_source s = "local")) && negb (sp_multi s) then current else active in
  now ← nowText;
  _ ← update_spaces (by_id space) (route current active now);
  mret tt.

(** The attachments of a conversation, or of a space, change their space. *)
Definition rehome (p : attachmentRecord → bool) (space : string) (k : string) (v : MetaValue) : MetaValue :=
  match v with
  | MAttachment r =>
      if String.prefix "attachment/" k && p r
      then MAttachment (mkAttachmentRecord (at_ref r) (at_conversation r) space (at_principal r) (at_committed r) (at_deleted r) (at_request r))
      else v
  | _ => v
  end.

(** [MoveConversation]. *)
Definition MoveConversation (chat target : string) : M unit :=
  transaction
    (d ← query id;
     c ← match find_conversation chat d with
         | Some c => mret c | None => fail (EFmt "harness: conversation %q not found" [chat]) end;
     _ ← scanSpace (find_space target);
     if bool_decide (cv_space c = target) then mret tt
     else
       _ ← guard_ (negb (existsb (λ r, bool_decide (run_conversation r = chat) && activeRunPredicate r) (runs d))) ErrActiveRun;
       _ ← checkConversationCommandsTx chat;
       now ← nowText;
       _ ← move_conversations (λ c, bool_decide (cv_id c = chat)) target now;
       s ← query_row (find_space target);
       _ ← (if bool_decide (sp_source s = SpaceSourceLocal) then mret tt
            else
              _ ← publishMovedText chat target;
              meta_delete (λ k _, bool_decide (k ∈ ["chat/memory/" +:+ chat; "chat/capabilities/" +:+ chat; "context/summary/" +:+ chat])));
       _ ← meta_update (rehome (λ r, bool_decide (at_conversation r = chat)) target);
       _ ← refreshSpacePointersTx (cv_space c);
       refreshSpacePointersTx target).

Definition busy_command (d : db) (chat : string) : bool :=
  existsb (λ kv, String.prefix "command/process/" kv.1 &&
    match kv.2 with
    | MCommand c st reviewed => bool_decide (c = chat) &&
        (bool_decide (st = "running") || bool_decide (st = "stopping") || bool_decide (st = "unknown") && negb reviewed)
    | _ => false end) (map_to_list (meta d)).

(** [DeleteSpace]. *)
Definition DeleteSpace (id : string) : M unit :=
  _ ← guard_ (negb (bool_decide (id = LocalSpaceID))) ErrLocalSpace;
  transaction
    (d ← query Datatypes.id;
     _ ← match find_space id d with Some _ => mret tt | None => fail (EWrap ErrSpaceNotFound [id]) end;
     let mine := filter (λ c, cv_space c = id) (conversations d) in
     _ ← guard_ (negb (existsb (λ r, activeRunPredicate r && existsb (λ c, bool_decide (cv_id c = run_conversation r)) mine) (runs d)))
           ErrSpaceHasActiveRun;
     _ ← guard_ (negb (existsb (λ c, busy_command d (cv_id c)) mine)) ErrCommandBusy;
     _ ← meta_update (rehome (λ r, bool_decide (at_space r = id)) LocalSpaceID);
     now ← nowText;
     _ ← move_conversations (λ c, bool_decide (cv_space c = id)) LocalSpaceID now;
     _ ← meta_delete (λ k _, bool_decide (k = permissionKey id) || String.prefix ("space/people/" +:+ id +:+ "/") k);
     _ ← delete_space id;
     _ ← meta_delete (λ k v, String.prefix "telegram/access/" k && match v with MAccess g => bool_decide (ta_space g = id) | _ => false end);
     refreshSpacePointersTx LocalSpaceID).
End spaces.
