(* ===== verification/SpaceInv.v ===== *)
(** * Spaces: the statements and methods respect the store's invariant *)

From S2P Require Import Prelude Text Data Sql Store StoreInv Space.

(** ** Statements *)
Lemma wf_set_spaces d l : spaces_constraints l = true → space_references (conversations d) l = true → step_ok d (set_spaces l d).
Proof. intros E1 E2 []. split; [by split|split; simpl; (reflexivity || done)]. Qed.

Lemma wf_move_conversations d p space now :
  space_references (update_rows p (conv_move space now) (conversations d)) (spaces d) = true →
  step_ok d (set_conversations (update_rows p (conv_move space now) (conversations d)) d).
Proof.
  intros E [H1 H2 H3 H4 H5 H6 H7 H8 H9 H10].
  assert (Hl : ∀ c, c ∈ conversations d → ∃ c', c' ∈ update_rows p (conv_move space now) (conversations d) ∧
     cv_id c' = cv_id c ∧ cv_last_message_seq c' = cv_last_message_seq c).
  { intros c Hc. eexists. split; [apply elem_of_update_rows; eauto|]. by destruct (p c). }
  split; [|split; simpl; try reflexivity; apply grows_update_rows; [apply _|]; intros c _ _; by split].
  split; simpl; try done.
  - by rewrite map_update_rows.
  - intros r Hr. destruct (H6 r Hr) as (c & Hc & <-). destruct (Hl c Hc) as (c' & ? & ? & _). eauto.
  - intros m Hm. destruct (H7 m Hm) as (c & Hc & <- & Hle). destruct (Hl c Hc) as (c' & ? & ? & E3). exists c'. by rewrite E3.
Qed.

Lemma wf_insert_conversation d c : (0 <= cv_last_message_seq c)%Z → find_conversation (cv_id c) d = None →
  space_references [c] (spaces d) = true → step_ok d (set_conversations (conversations d ++ [c]) d).
Proof.
  intros Hc E1 E2 [H1 H2 H3 H4 H5 H6 H7 H8 H9 H10]. split; [|split; simpl; try reflexivity; by apply grows_app, _]. split; simpl; try done.
  - rewrite map_app. apply NoDup_app. split; [done|split; [|apply NoDup_singleton]].
    intros x Hx ->%list_elem_of_singleton. apply list_elem_of_fmap in Hx as (c' & E & Hin).
    pose proof (List.find_none _ _ E1 c' ltac:(by apply list_elem_of_In)) as Hn. by apply bool_decide_eq_false in Hn.
  - intros r Hr. destruct (H6 r Hr) as (c' & ? & ?). set_solver.
  - intros m Hm. destruct (H7 m Hm) as (c' & ? & ?). set_solver.
  - unfold space_references in *. rewrite forallb_app. apply andb_true_iff. split; [done|]. exact E2.
Qed.

Lemma wf_insert_message_once chat key body w : step_ok (w_db w) (w_db (insert_message_once chat key body w).2).
Proof.
  unfold insert_message_once. apply wf_query_row. intros c Ec. rewrite bind_query. unfold id.
  apply find_elem in Ec as [Hc Hcid%bool_decide_eq_true]. cbn [write w_db snd]. set (d := w_db w) in *.
  apply wf_allocate_message; try done; destruct (existsb _ _).
  - eauto.
  - intros m [Hm| ->%list_elem_of_singleton]%elem_of_app; [left; eauto|by right].
  - by intros [].
  - intros Hwf. rewrite map_app. apply NoDup_app. split; [apply Hwf|]. split; [|apply NoDup_singleton].
    intros x Hx ->%list_elem_of_singleton. apply list_elem_of_fmap in Hx as (m & E & Hm).
    injection E as E1 E2. pose proof (message_id_bound d m c Hwf Hm Hc ltac:(congruence)). lia.
  - done.
  - intros _. by apply grows_app, _.
Qed.

(** What the publication of messages, and the statements on spaces, respect as
    well. *)
Class RespectsMessages (R : relation db) : Prop := {
  rm_respects :: Respects R;
  rm_message : ∀ chat key body w, R (w_db w) (w_db (insert_message_once chat key body w).2);
}.
Class RespectsSpaces (R : relation db) : Prop := {
  rs_respects :: RespectsMessages R;
  rs_spaces : ∀ d l, spaces_constraints l = true → space_references (conversations d) l = true → R d (set_spaces l d);
  rs_move : ∀ d p space now, space_references (update_rows p (conv_move space now) (conversations d)) (spaces d) = true →
    R d (set_conversations (update_rows p (conv_move space now) (conversations d)) d);
  rs_conversation : ∀ d c, (0 <= cv_last_message_seq c)%Z → find_conversation (cv_id c) d = None →
    space_references [c] (spaces d) = true → R d (set_conversations (conversations d ++ [c]) d);
}.
(** What the deletion of a space respects: it also drops the grants of its
    Telegram chat. *)
Definition revoked (i : string) (k : string) (v : MetaValue) : bool :=
  access_key k && match v with MAccess g => bool_decide (ta_space g = i) | _ => false end.
Class RespectsRevoke (R : relation db) : Prop := {
  rr_spaces :: RespectsSpaces R;
  rr_revoke : ∀ d i, R d (set_meta (filter (λ kv, revoked i kv.1 kv.2 = false) (meta d)) d);
}.
#[export] Instance respects_messages_closed : Closed RespectsMessages.
Proof. intros R HR. apply HR. Qed.
#[export] Instance respects_spaces_closed : Closed RespectsSpaces.
Proof. intros R HR. apply HR. Qed.
#[export] Instance step_ok_respects_spaces : RespectsSpaces step_ok.
Proof.
  split; [|apply wf_set_spaces|apply wf_move_conversations|apply wf_insert_conversation].
  split; [apply _|apply wf_insert_message_once].
Qed.
#[export] Instance respects_revoke_closed : Closed RespectsRevoke.
Proof. intros R HR. apply HR. Qed.
Lemma spaces_meta_only R : PreOrder R → (∀ d d', meta d' = meta d → R d d') →
  (∀ d m, meta_le (meta d) m → reserved_kept (meta d) m → R d (set_meta m d)) → RespectsSpaces R.
Proof.
  intros HP Hs Hm. split; [|intros; by apply Hs..]. split; [by apply respects_meta_only|].
  intros chat key b w. apply Hs. unfold insert_message_once, query_row, mbind, M_bind. by destruct (find_conversation _ _).
Qed.

Lemma upsert_free_recovery root : ¬ String.prefix "recovery/model/" (recoveryKey root) = false.
Proof. intros Hr. unfold recoveryKey in Hr. by rewrite prefix_app in Hr. Qed.
Lemma meta_le_delete m (p : string → MetaValue → bool) :
  (∀ k v, p k v = true → write_once k = false ∧ String.prefix "recovery/model/" k = false) →
  meta_le m (filter (λ kv, p kv.1 kv.2 = false) m).
Proof.
  intros Hp. split.
  - intros k v Hk _ Hl. apply map_lookup_filter_Some. split; [done|]. simpl.
    destruct (p k v) eqn:E; [|done]. apply Hp in E as [E _]. congruence.
  - intros root r Hl. exists r. split; [|lia]. apply map_lookup_filter_Some. split; [done|]. simpl.
    destruct (p _ _) eqn:E; [|done]. apply Hp in E as [_ E]. by apply upsert_free_recovery in E.
Qed.
Lemma revoked_free i k v : revoked i k v = true → write_once k = false ∧ String.prefix "recovery/model/" k = false.
Proof. unfold revoked, access_key. intros [[s ->]%HasPrefix_spec _]%andb_true_iff. by split. Qed.
#[export] Instance step_ok_respects_revoke : RespectsRevoke step_ok.
Proof. split; [apply _|]. intros d i. apply wf_set_meta, meta_le_delete, revoked_free. Qed.

Notation MessageSteps := (Along RespectsMessages).
Notation SpaceSteps := (Along RespectsSpaces).
Notation RevokeSteps := (Along RespectsRevoke).

Lemma message_steps {A} (m : M A) : Steps m → MessageSteps m.
Proof. apply along_sub. by intros R []. Qed.
Lemma space_message_steps {A} (m : M A) : MessageSteps m → SpaceSteps m.
Proof. apply along_sub. by intros R []. Qed.
Lemma space_steps {A} (m : M A) : Steps m → SpaceSteps m.
Proof. intros Hm. by apply space_message_steps, message_steps. Qed.
Lemma revoke_steps {A} (m : M A) : SpaceSteps m → RevokeSteps m.
Proof. apply along_sub. by intros R []. Qed.
#[export] Hint Resolve respects_messages_closed respects_spaces_closed respects_revoke_closed : steps.
#[export] Hint Extern 5 (MessageSteps _) => apply message_steps : steps.
#[export] Hint Extern 6 (SpaceSteps _) => apply space_message_steps : steps.
#[export] Hint Extern 5 (SpaceSteps _) => apply space_steps : steps.
#[export] Hint Extern 6 (RevokeSteps _) => apply revoke_steps : steps.

Lemma steps_change_spaces f : SpaceSteps (change_spaces f).
Proof.
  apply steps_query_id. intros R HR HP w. simpl. destruct (_ && _) eqn:E; [|reflexivity].
  apply andb_true_iff in E as [E1 E2]. by apply rs_spaces.
Qed.
Lemma steps_insert_space s : SpaceSteps (insert_space s).
Proof. apply steps_change_spaces. Qed.
Lemma steps_delete_space i : SpaceSteps (delete_space i).
Proof. apply steps_change_spaces. Qed.
Lemma steps_update_spaces p f : SpaceSteps (update_spaces p f).
Proof. unfold update_spaces. solve_steps. apply steps_change_spaces. Qed.
Lemma steps_move_conversations p space now : SpaceSteps (move_conversations p space now).
Proof.
  apply steps_query_id. intros R HR HP w. simpl. destruct (space_references _ _) eqn:E; [|reflexivity]. by apply rs_move.
Qed.
Lemma steps_insert_conversation c : (0 <= cv_last_message_seq c)%Z → SpaceSteps (insert_conversation c).
Proof.
  intros Hc. apply steps_query_id. intros R HR HP w. simpl. destruct (_ && _) eqn:E; [|reflexivity].
  apply andb_true_iff in E as [E1%bool_decide_eq_true E2]. by apply rs_conversation.
Qed.
Lemma steps_insert_message_once chat key body : MessageSteps (insert_message_once chat key body).
Proof. intros R HR w. apply rm_message. Qed.
#[export] Hint Resolve steps_insert_space steps_delete_space steps_update_spaces
  steps_move_conversations steps_insert_message_once : steps.
#[export] Hint Extern 2 (SpaceSteps (insert_conversation _)) => apply steps_insert_conversation; simpl; lia : steps.

Lemma steps_meta_delete p : (∀ k v, p k v = true → upsert_free k) → Steps (meta_delete p).
Proof.
  intros Hp. apply steps_write. intros R HR d. apply respects_meta.
  - apply meta_le_delete. intros k v E. by apply Hp in E as (? & ? & _).
  - split.
    + intros k g Hk Hl. apply map_lookup_filter_Some. split; [done|]. simpl.
      destruct (p _ _) eqn:E; [|done]. apply Hp in E as (_ & _ & E & _). congruence.
    + intros k Hk. rewrite map_lookup_filter. destruct (meta d !! k) as [v|]; [|done]. simpl.
      rewrite option_guard_True; [done|]. destruct (p k v) eqn:E; [|done]. apply Hp in E as (_ & _ & _ & E). congruence.
Qed.

Lemma steps_meta_update f : (∀ k v, f k v = v ∨ upsert_free k) → Steps (meta_update f).
Proof.
  intros Hf. apply steps_write. intros R HR d. apply respects_meta; [split|].
  - intros k v Hk _ Hl. rewrite map_lookup_imap, Hl. simpl. destruct (Hf k v) as [->|[E _]]; [done|congruence].
  - intros root r Hl. exists r. split; [|lia]. rewrite map_lookup_imap, Hl. simpl.
    destruct (Hf (recoveryKey root) (MRecovery r)) as [->|E]; [done|]. destruct E as (_ & E & _). by apply upsert_free_recovery in E.
  - split.
    + intros k g Hk Hl. rewrite map_lookup_imap, Hl. simpl. destruct (Hf k (MAccess g)) as [->|(_ & _ & E & _)]; [done|congruence].
    + intros k Hk. rewrite map_lookup_imap. destruct (meta d !! k) as [v|]; [|done]. simpl.
      destruct (Hf k v) as [->|(_ & _ & _ & E)]; [done|congruence].
Qed.

(** Keys that begin with a fixed text of their own. *)
Lemma upsert_free_prefix p k : String.prefix p k = true → (∀ s, upsert_free (p +:+ s)) → upsert_free k.
Proof. intros [s ->]%HasPrefix_spec Hp. apply Hp. Qed.

Lemma rehome_free p space k v : rehome p space k v = v ∨ upsert_free k.
Proof.
  destruct v; try (by left). simpl. destruct (String.prefix "attachment/" k) eqn:E; [|by left]. right.
  apply (upsert_free_prefix _ _ E). intros s. by split.
Qed.

(** ** Methods *)
Section methods.
Context {H : Host}.

Lemma steps_scanSpace f : Steps (scanSpace f).
Proof. unfold scanSpace. solve_steps. Qed.
Lemma steps_GetSpace i : Steps (GetSpace i).
Proof. unfold GetSpace. solve_steps. apply steps_scanSpace. Qed.
#[local] Hint Resolve steps_scanSpace steps_GetSpace : steps.

Lemma steps_CreateSpace t s k e : SpaceSteps (CreateSpace t s k e).
Proof. unfold CreateSpace. solve_steps. Qed.
#[local] Hint Resolve steps_CreateSpace : steps.
Lemma steps_outcome {A} (m : M A) : SpaceSteps m → SpaceSteps (outcome m).
Proof. intros Hm R HR w. specialize (Hm R HR w). unfold outcome. by destruct (m w). Qed.
#[local] Hint Resolve steps_outcome : steps.
Lemma steps_EnsureExternalSpace t s k e : SpaceSteps (EnsureExternalSpace t s k e).
Proof. unfold EnsureExternalSpace. solve_steps. Qed.
Lemma steps_RenameSpace i t : SpaceSteps (RenameSpace i t).
Proof. unfold RenameSpace. solve_steps. Qed.
Lemma steps_setSpaceConversation s c b : SpaceSteps (setSpaceConversation s c b).
Proof. unfold setSpaceConversation. solve_steps. Qed.
Lemma steps_SetSpaceMultiConversation s b : SpaceSteps (SetSpaceMultiConversation s b).
Proof. unfold SetSpaceMultiConversation. solve_steps. Qed.
Lemma steps_CreateConversationInSpace s t wd : SpaceSteps (CreateConversationInSpace s t wd).
Proof. unfold CreateConversationInSpace. solve_steps. Qed.
Lemma steps_PairChannel t k n wd : SpaceSteps (PairChannel t k n wd).
Proof. unfold PairChannel, bindChannelTx. solve_steps. Qed.

Lemma steps_publish_refs refs : Steps (publish_refs refs).
Proof.
  induction refs as [|ref refs IH]; simpl; solve_steps. apply steps_meta_update. intros k v.
  case_bool_decide; [|by left]. right. subst. by split.
Qed.
#[local] Hint Resolve steps_publish_refs : steps.
Lemma steps_publish_all chat t l : MessageSteps (publish_all chat t l).
Proof. induction l; simpl; unfold publish_one; solve_steps. Qed.
#[local] Hint Resolve steps_publish_all : steps.
Lemma steps_publish_pages fuel chat t cursor : MessageSteps (publish_pages fuel chat t cursor).
Proof. revert cursor. induction fuel; simpl; solve_steps. Qed.
#[local] Hint Resolve steps_publish_pages : steps.
Lemma steps_publishMovedText chat s : MessageSteps (publishMovedText chat s).
Proof. unfold publishMovedText. solve_steps. Qed.
Lemma steps_refreshSpacePointersTx s : SpaceSteps (refreshSpacePointersTx s).
Proof. unfold refreshSpacePointersTx. solve_steps. Qed.
#[local] Hint Resolve steps_publishMovedText steps_refreshSpacePointersTx steps_checkConversationCommandsTx : steps.

Lemma steps_MoveConversation chat t : SpaceSteps (MoveConversation chat t).
Proof.
  unfold MoveConversation. solve_steps.
  - apply space_steps, steps_meta_delete. intros k v Hk%bool_decide_eq_true.
    repeat (apply elem_of_cons in Hk as [->|Hk]; [by split|]). by apply elem_of_nil in Hk.
  - apply space_steps, steps_meta_update. apply rehome_free.
Qed.

Lemma steps_revoke i : RevokeSteps (meta_delete (λ k v, String.prefix "telegram/access/" k && match v with MAccess g => bool_decide (ta_space g = i) | _ => false end)).
Proof. apply steps_write. intros R HR d. apply rr_revoke. Qed.
#[local] Hint Resolve steps_revoke : steps.
Lemma steps_DeleteSpace i : RevokeSteps (DeleteSpace i).
Proof.
  unfold DeleteSpace. solve_steps.
  - apply revoke_steps, space_steps, steps_meta_update. apply rehome_free.
  - apply revoke_steps, space_steps, steps_meta_delete. intros k v [->%bool_decide_eq_true|Hk]%orb_true_iff; [by split|].
    apply (upsert_free_prefix _ _ Hk). intros s. by split.
Qed.
End methods.

#[export] Hint Resolve steps_CreateSpace steps_EnsureExternalSpace steps_RenameSpace steps_setSpaceConversation
  steps_SetSpaceMultiConversation steps_CreateConversationInSpace steps_PairChannel steps_MoveConversation
  steps_DeleteSpace : steps.
