(* ===== verification/StoreProps.v ===== *)
(** * The store: what its methods guarantee

    Reachability under any interleaving of the store's transactions, and the
    functional behaviour of the methods that decide what may be dispatched. *)

From S2P Require Import Prelude Data Sql Store StoreInv Space SpaceInv.

(** ** Outcomes *)
Lemma bind_ok {A B} (m : M A) (f : A → M B) w b w' :
  (m ≫= f) w = (Ok b, w') ↔ ∃ a w1, m w = (Ok a, w1) ∧ f a w1 = (Ok b, w').
Proof. unfold mbind, M_bind. destruct (m w) as [[a|e] w1]; naive_solver. Qed.
Lemma ret_ok {A} (a b : A) w w' : (mret a : M A) w = (Ok b, w') ↔ a = b ∧ w = w'.
Proof. unfold mret, M_ret. naive_solver. Qed.
Lemma fail_ok {A} e (b : A) w w' : fail e w = (Ok b, w') ↔ False.
Proof. naive_solver. Qed.
Lemma guard_ok b e u w w' : guard_ b e w = (Ok u, w') ↔ b = true ∧ w = w'.
Proof. destruct b, u; simpl; unfold mret, M_ret, fail; naive_solver. Qed.
Lemma query_ok {A} (f : db → A) a w w' : query f w = (Ok a, w') ↔ a = f (w_db w) ∧ w = w'.
Proof. unfold query. naive_solver. Qed.
Lemma query_row_ok {A} (f : db → option A) a w w' :
  query_row f w = (Ok a, w') ↔ f (w_db w) = Some a ∧ w = w'.
Proof. unfold query_row. destruct (f (w_db w)); naive_solver. Qed.
Lemma lift_ok {A} (r : res A) a w w' : lift r w = (Ok a, w') ↔ r = Ok a ∧ w = w'.
Proof. unfold lift. naive_solver. Qed.
Lemma write_ok f u w w' :
  write f w = (Ok u, w') ↔ w' = mkWorld (f (w_db w)) (w_ids w) (w_ticks w).
Proof. unfold write. destruct u. naive_solver. Qed.
Lemma transaction_ok {A} (m : M A) a w w' : transaction m w = (Ok a, w') ↔ m w = (Ok a, w').
Proof. unfold transaction. destruct (m w) as [[]]; naive_solver. Qed.
#[export] Hint Rewrite @bind_ok @ret_ok @fail_ok guard_ok @query_ok @query_row_ok @lift_ok write_ok @transaction_ok : ok.

(** Invert a successful run of a method into its statements. *)
Ltac run_inv H :=
  repeat first
    [ progress autorewrite with ok in H
    | match type of H with
      | ∃ _, _ => destruct H as [? H]
      | _ ∧ _ => let H1 := fresh "Hs" in destruct H as [H1 H]; run_inv H1
      | False => destruct H
      end ]; subst.

(** A failing transaction leaves the database as it found it. *)
Lemma transaction_err {A} (m : M A) e w w' : transaction m w = (Err e, w') → w_db w' = w_db w.
Proof. unfold transaction. destruct (m w) as [[]]; naive_solver. Qed.

(** ** Atomicity *)
Definition ReadOnly {A} (m : M A) : Prop := ∀ w, w_db (m w).2 = w_db w.
Definition Atomic {A} (m : M A) : Prop := ∀ w e w', m w = (Err e, w') → w_db w' = w_db w.

Lemma bind_err {A B} (m : M A) (f : A → M B) w e w' :
  (m ≫= f) w = (Err e, w') ↔ m w = (Err e, w') ∨ ∃ a w1, m w = (Ok a, w1) ∧ f a w1 = (Err e, w').
Proof. unfold mbind, M_bind. destruct (m w) as [[a|x] w1]; naive_solver. Qed.

Lemma readonly_ret {A} (a : A) : ReadOnly (mret a). Proof. done. Qed.
Lemma readonly_fail {A} e : ReadOnly (A:=A) (fail e). Proof. done. Qed.
Lemma readonly_query {A} (f : db → A) : ReadOnly (query f). Proof. done. Qed.
Lemma readonly_query_row {A} (f : db → option A) : ReadOnly (query_row f). Proof. done. Qed.
Lemma readonly_guard b e : ReadOnly (guard_ b e). Proof. by destruct b. Qed.
Lemma readonly_bind {A B} (m : M A) (f : A → M B) : ReadOnly m → (∀ a, ReadOnly (f a)) → ReadOnly (m ≫= f).
Proof.
  intros Hm Hf w. specialize (Hm w). unfold mbind, M_bind. destruct (m w) as [[a|e] w1]; [|done].
  simpl in *. by rewrite Hf.
Qed.
Lemma atomic_readonly {A} (m : M A) : ReadOnly m → Atomic m.
Proof. intros Hm w e w' E. specialize (Hm w). by rewrite E in Hm. Qed.
Lemma atomic_transaction {A} (m : M A) : Atomic (transaction m).
Proof. intros w e w'. apply transaction_err. Qed.
Lemma atomic_bind {A B} (m : M A) (f : A → M B) : ReadOnly m → (∀ a, Atomic (f a)) → Atomic (m ≫= f).
Proof.
  intros Hm Hf w e w' [E|(a & w1 & E & E2)]%bind_err; pose proof (Hm w) as H1; rewrite E in H1; [done|].
  apply Hf in E2. simpl in H1. congruence.
Qed.
Create HintDb atomic.
#[export] Hint Resolve readonly_ret readonly_fail readonly_query readonly_query_row readonly_guard
  atomic_transaction atomic_readonly : atomic.

(** Decompose a method into reads followed by one transaction. *)
Ltac solve_atomic := repeat (intros; match goal with
  | |- Atomic (mbind _ _) => apply atomic_bind; [|intros ?]
  | |- ReadOnly (mbind _ _) => apply readonly_bind; [|intros ?]
  | |- _ (if ?b then _ else _) => destruct b
  | |- _ (match ?x with _ => _ end) => destruct x
  | |- _ => solve [eauto with atomic]
  end).

(** ** Any interleaving of transactions *)
Section machine.
Context {H : Host} {RC : ReadChecks}.

(** The methods on runs, attempts and messages. *)
Inductive run_op : world → world → Prop :=
  | os_createRun w i al c k p cfg m call : run_op w (createRunWithTool i al c k p cfg m call w).2
  | os_startModel w r q n g `{!GuardSteps g} : run_op w (startGuardedModel r q n g w).2
  | os_saveModel w r a x g n `{!GuardSteps g} : run_op w (saveGuardedModel r a x g n w).2
  | os_failModel w r a x e g n `{!GuardSteps g} : run_op w (failModel r a x e g n w).2
  | os_startTool w r c : run_op w (startTool r c w).2
  | os_dispatchTool w a n g `{!GuardSteps g} : run_op w (dispatchGuardedTool a n g w).2
  | os_saveTool w r a c x g n f m `{!GuardSteps g} : run_op w (saveGuardedTool r a c x g n f m w).2
  | os_localTool w r a c x norm g n b `{!GuardSteps g} :
      Steps x → run_op w (executeLocalToolMode r a c x norm g n b w).2
  | os_markUnknown w a reason b : run_op w (markUnknown a reason b w).2
  | os_settleControl w r a x c reason t : run_op w (settleControlProposal r a x c reason t w).2
  | os_startWorkflow w r e wf i n g `{!GuardSteps g} : run_op w (startWorkflow r e wf i n g w).2
  | os_finishWorkflow w r a x s reason o g n `{!GuardSteps g} :
      run_op w (finishWorkflow r a x s reason o g n w).2
  | os_workflowUnknown w r a reason x : run_op w (finishWorkflowUnknown r a reason x w).2
  | os_finishRun w r s reason : run_op w (FinishRun r s reason w).2
  | os_finishOutput w r s reason o : run_op w (FinishRunOutput r s reason o w).2
  | os_abandon w r : run_op w (Abandon r w).2
  | os_retry w r x n : run_op w (reserveModelRetry r x n w).2
  | os_settleLimited w f : run_op w (settleLimited f w).2
  | os_recover w l : Steps l → run_op w (recover l w).2.

(** The methods on spaces and conversations. *)
Inductive space_op : world → world → Prop :=
  | os_createSpace w t s k e : space_op w (CreateSpace t s k e w).2
  | os_ensureSpace w t s k e : space_op w (EnsureExternalSpace t s k e w).2
  | os_renameSpace w i t : space_op w (RenameSpace i t w).2
  | os_routeSpace w s c b : space_op w (setSpaceConversation s c b w).2
  | os_multiSpace w s b : space_op w (SetSpaceMultiConversation s b w).2
  | os_createConversation w s t wd : space_op w (CreateConversationInSpace s t wd w).2
  | os_pairChannel w t k n wd : space_op w (PairChannel t k n wd w).2
  | os_moveConversation w c t : space_op w (MoveConversation c t w).2
  | os_deleteSpace w i : space_op w (DeleteSpace i w).2.

Inductive op_step w w' : Prop :=
  | os_run (Hop : run_op w w')
  | os_space (Hop : space_op w w').

(** Every method but the creation of a run leaves the input queue alone. *)
Definition creates (w w' : world) : Prop := ∃ i al c k p cfg m call, w' = (createRunWithTool i al c k p cfg m call w).2.
Lemma run_op_cases w w' : run_op w w' → creates w w' ∨ ∀ R, Respects R → R (w_db w) (w_db w').
Proof.
  destruct 1; [left; by repeat eexists|..]; right; intros R HR.
  - by apply steps_startGuardedModel.
  - by apply steps_saveGuardedModel.
  - by apply steps_failModel.
  - by apply steps_startTool.
  - by apply steps_dispatchGuardedTool.
  - by apply steps_saveGuardedTool.
  - by apply steps_executeLocalToolMode.
  - by apply steps_markUnknown.
  - by apply steps_settleControlProposal.
  - by apply steps_startWorkflow.
  - by apply steps_finishWorkflow.
  - by apply steps_finishWorkflowUnknown.
  - by apply steps_FinishRun.
  - by apply steps_FinishRunOutput.
  - by apply steps_Abandon.
  - by apply steps_reserveModelRetry.
  - by apply steps_settleLimited.
  - by apply steps_recover.
Qed.
Lemma creates_along R `{!RespectsInputs R} w w' : creates w w' → R (w_db w) (w_db w').
Proof. intros (i & al & c & k & p & cfg & m & call & ->). by apply steps_createRunWithTool. Qed.
Lemma run_op_along R `{!RespectsInputs R} w w' : run_op w w' → R (w_db w) (w_db w').
Proof. intros [Hc|Hr]%run_op_cases; [by apply creates_along|by apply Hr, ri_respects]. Qed.

Lemma space_op_along R `{!RespectsSpaces R} w w' : space_op w w' →
  R (w_db w) (w_db w') ∨ ∃ i, w' = (DeleteSpace i w).2.
Proof.
  destruct 1; [..|by right; exists i]; left.
  - by apply steps_CreateSpace.
  - by apply steps_EnsureExternalSpace.
  - by apply steps_RenameSpace.
  - by apply steps_setSpaceConversation.
  - by apply steps_SetSpaceMultiConversation.
  - by apply steps_CreateConversationInSpace.
  - by apply steps_PairChannel.
  - by apply steps_MoveConversation.
Qed.
Lemma space_op_revoke R `{!RespectsRevoke R} w w' : space_op w w' → R (w_db w) (w_db w').
Proof. intros [Hr|[i ->]]%(space_op_along R); [done|by apply steps_DeleteSpace]. Qed.

Lemma op_step_ok w w' : op_step w w' → step_ok (w_db w) (w_db w').
Proof. intros [Hop|Hop]; [by apply (run_op_along step_ok)|by apply (space_op_revoke step_ok)]. Qed.

Lemma reach_ok w w' : rtc op_step w w' → step_ok (w_db w) (w_db w').
Proof. induction 1; [reflexivity|]. etrans; [by apply op_step_ok|done]. Qed.

(** ** Rows through an evolution *)
Lemma attempt_evolves d d' a :
  db_le d d' → a ∈ attempts d → ∃ b, b ∈ attempts d' ∧ att_le a b.
Proof.
  intros [_ _ (l1 & l2 & E & HF) _ _] Ha. apply list_elem_of_lookup in Ha as [i Hi].
  destruct (Forall2_lookup_l _ _ _ _ _ HF Hi) as (b & Hb & Hle).
  exists b. split; [|done]. rewrite E, elem_of_app. left. by eapply list_elem_of_lookup_2.
Qed.

Lemma run_evolves d d' r :
  db_le d d' → r ∈ runs d → ∃ s, s ∈ runs d' ∧ run_le r s.
Proof.
  intros [_ _ _ (l1 & l2 & E & HF) _] Ha. apply list_elem_of_lookup in Ha as [i Hi].
  destruct (Forall2_lookup_l _ _ _ _ _ HF Hi) as (b & Hb & Hle).
  exists b. split; [|done]. rewrite E, elem_of_app. left. by eapply list_elem_of_lookup_2.
Qed.

Lemma attempt_id_unique d a b :
  db_wf d → a ∈ attempts d → b ∈ attempts d → att_id a = att_id b → a = b.
Proof. intros Hwf ???. eapply (NoDup_map_inj att_id); eauto. apply Hwf. Qed.

Lemma update_attempts_ok p f n w w' :
  update_attempts p f w = (Ok n, w') ↔
  n = count_if p (attempts (w_db w)) ∧
  w' = mkWorld (set_attempts (update_rows p f (attempts (w_db w))) (w_db w)) (w_ids w) (w_ticks w).
Proof. split; [by intros [= <- <-]|by intros [-> ->]]. Qed.

Lemma find_update_by_id f id l r :
  (∀ x, run_id (f x) = run_id x) → List.find (λ r, bool_decide (run_id r = id)) l = Some r →
  List.find (λ r, bool_decide (run_id r = id)) (update_rows (Store.by_id id) f l) = Some (f r).
Proof.
  intros Hf Hr. rewrite find_update_rows, Hr by (intros x; by rewrite Hf). simpl. apply find_elem in Hr as [_ Hr]. unfold Store.by_id. by rewrite Hr.
Qed.

Lemma update_runs_ok p f n w w' :
  update_runs p f w = (Ok n, w') ↔
  n = count_if p (runs (w_db w)) ∧ runs_constraints (update_rows p f (runs (w_db w))) = true ∧
  w' = mkWorld (set_runs (update_rows p f (runs (w_db w))) (w_db w)) (w_ids w) (w_ticks w).
Proof.
  unfold update_runs. rewrite bind_query. unfold id, guard_.
  destruct (runs_constraints _); [|split; [done|by intros (_ & ? & _)]].
  split; [by intros [= <- <-]|by intros (-> & _ & ->)].
Qed.

Lemma count_if_pos {A} (p : A → bool) l n : count_if p l = S n → ∃ x, x ∈ l ∧ p x = true.
Proof.
  unfold count_if. destruct (filter _ l) as [|x k] eqn:E; [done|]. intros _. exists x.
  assert (Hx : x ∈ filter (λ x, p x = true) l) by (rewrite E; set_solver).
  by apply list_elem_of_filter in Hx as [? ?].
Qed.

Lemma along_from C R {A} (m : M A) r w w' : Along C m → C R → m w = (r, w') → R (w_db w) (w_db w').
Proof. intros Hm HR E. specialize (Hm R HR w). by rewrite E in Hm. Qed.
Lemma steps_from {A} (m : M A) r w w' : Steps m → m w = (r, w') → step_ok (w_db w) (w_db w').
Proof. intros Hm. apply (along_from _ _ _ _ _ _ Hm). apply _. Qed.
Lemma createRun_step i al c k p cfg m call r w w' : createRunWithTool i al c k p cfg m call w = (r, w') → step_ok (w_db w) (w_db w').
Proof. apply (along_from RespectsInputs _ _ _ _ _ (steps_createRunWithTool _ _ _ _ _ _ _ _)). apply _. Qed.

Lemma lockExecutionTx_ok run u w w' :
  lockExecutionTx run w = (Ok u, w') → w' = w ∧ ∃ r, find_run run (w_db w) = Some r.
Proof.
  intros Hl. unfold lockExecutionTx in Hl. rewrite bind_query in Hl. unfold id in Hl.
  apply bind_ok in Hl as ([] & w1 & H1 & Hl).
  assert (w1 = w) as ->.
  { destruct (bool_decide _); [by injection H1|]. destruct (meta _ !! _); [by injection H1|done]. }
  apply bind_ok in Hl as (r & w2 & [Hr ->]%query_row_ok & Hl). unfold lockConversationTx in Hl.
  apply bind_ok in Hl as (c & w3 & [Hc ->]%query_row_ok & [_ ->]%ret_ok). eauto.
Qed.

(** What a successful dispatch of a tool call did. *)
Lemma dispatchGuardedTool_split a n g w w' :
  dispatchGuardedTool a n g w = (Ok tt, w') →
  ∃ w1 w2, reserve g a w = (Ok tt, w1) ∧ incrementStep (att_run a) n w1 = (Ok tt, w2) ∧
    count_if (att_by (att_id a) (is_status APending)) (attempts (w_db w2)) = 1%nat ∧
    attempts (w_db w') = update_rows (att_by (att_id a) (is_status APending))
        (λ b, set_attempt ADispatched (att_response b) b) (attempts (w_db w2)) ∧
    runs (w_db w') = runs (w_db w2).
Proof.
  intros Hd. unfold dispatchGuardedTool in Hd. rewrite bind_query in Hd. unfold id in Hd.
  apply bind_ok in Hd as ([] & w0 & H0 & Hd).
  assert (w0 = w) as -> by (destruct g; [|apply guard_ok in H0 as [_ ->]]; [by injection H0|done]).
  apply transaction_ok, bind_ok in Hd as ([] & w3 & [-> _]%lockExecutionTx_ok & Hd).
  rewrite bind_query in Hd. unfold id in Hd.
  apply bind_ok in Hd as ([] & w3 & [_ <-]%guard_ok & Hd).
  apply bind_ok in Hd as ([] & w1 & Hres & Hd).
  apply bind_ok in Hd as ([] & w2 & Hinc & Hd).
  apply bind_ok in Hd as (k & w4 & [-> ->]%update_attempts_ok & Hd).
  apply bind_ok in Hd as ([] & w5 & [Hk%bool_decide_eq_true <-]%guard_ok & Hd).
  apply bind_ok in Hd as (now & w5 & E & Hd). injection E as <- <-.
  exists w1, w2. split; [done|]. split; [done|]. split; [done|].
  unfold meta_insert in Hd. rewrite bind_query in Hd.
  apply bind_ok in Hd as ([] & w5 & [_ <-]%guard_ok & Hd). by apply write_ok in Hd as ->.
Qed.

Lemma dispatchGuardedTool_ok a n g w w' `{!GuardSteps g} :
  dispatchGuardedTool a n g w = (Ok tt, w') →
  ∃ w1 w2, step_ok (w_db w) (w_db w1) ∧ incrementStep (att_run a) n w1 = (Ok tt, w2) ∧
    count_if (att_by (att_id a) (is_status APending)) (attempts (w_db w2)) = 1%nat ∧
    attempts (w_db w') = update_rows (att_by (att_id a) (is_status APending))
        (λ b, set_attempt ADispatched (att_response b) b) (attempts (w_db w2)) ∧
    runs (w_db w') = runs (w_db w2).
Proof.
  intros (w1 & w2 & Hr & Hrest)%dispatchGuardedTool_split. exists w1, w2. split; [|done].
  eapply (steps_from (reserve g a)); [by apply steps_reserve|exact Hr].
Qed.

Lemma incrementStep_steps run n r w w' :
  incrementStep run n w = (r, w') → step_ok (w_db w) (w_db w').
Proof. apply steps_from. unfold incrementStep. solve_steps. Qed.

(** C1: a tool call is dispatched at most once: after a successful dispatch, no
    later dispatch of the same attempt succeeds, whatever happened in between,
    restarts included, and with whatever step budget or guard. *)
Theorem dispatched_at_most_once a n g n' g' w w1 w2 r w3
    `{!GuardSteps g} `{!GuardSteps g'} :
  db_wf (w_db w) →
  dispatchGuardedTool a n g w = (Ok tt, w1) → rtc op_step w1 w2 →
  dispatchGuardedTool a n' g' w2 = (r, w3) → r ≠ Ok tt.
Proof.
  intros Hwf Hd Hreach Hd' ->.
  apply dispatchGuardedTool_ok in Hd as Hd1; [|done].
  destruct Hd1 as (u1 & u2 & Hs1 & Hi & Hc & Ha & _).
  assert (Hwf1 : db_wf (w_db w1)).
  { eapply (steps_from _ _ _ _ (steps_dispatchGuardedTool a n g) Hd). done. }
  destruct (count_if_pos _ _ _ Hc) as (b & Hb & [Hid%bool_decide_eq_true Hp]%andb_true_iff).
  set (b1 := set_attempt ADispatched (att_response b) b).
  assert (Hb1 : b1 ∈ attempts (w_db w1)).
  { rewrite Ha. apply elem_of_update_rows. exists b. split; [done|].
    unfold att_by. rewrite bool_decide_eq_true_2 by done. by rewrite Hp. }
  destruct (reach_ok _ _ Hreach Hwf1) as [Hwf2 Hle2].
  destruct (attempt_evolves _ _ _ Hle2 Hb1) as (b2 & Hb2 & Hle).
  apply dispatchGuardedTool_ok in Hd' as (v1 & v2 & Hs2 & Hi2 & Hc2 & _); [|done].
  destruct (Hs2 Hwf2) as [Hwfv Hlev]. apply incrementStep_steps in Hi2.
  destruct (Hi2 Hwfv) as [Hwfv2 Hlev2].
  assert (Hle22 : db_le (w_db w2) (w_db v2)) by (by etrans).
  destruct (attempt_evolves _ _ _ Hle22 Hb2) as (b3 & Hb3 & Hle3).
  destruct (count_if_pos _ _ _ Hc2) as (x & Hx & [Hxid%bool_decide_eq_true Hxp%bool_decide_eq_true]%andb_true_iff).
  assert (x = b3) as ->.
  { eapply attempt_id_unique; eauto. destruct Hle, Hle3. unfold b1 in *. simpl in *. congruence. }
  destruct Hle as [_ _ _ _ _ _ Hr1 _ _], Hle3 as [_ _ _ _ _ _ Hr2 _ _]. simpl in Hr1. rewrite Hxp in Hr2.
  simpl in Hr2. lia.
Qed.

(** ** The step budget *)

(** A computation that only writes [fa.meta]. *)
Definition MetaOnly {A} (m : M A) : Prop := ∀ w, ∃ x, w_db (m w).2 = set_meta x (w_db w).

(** A guard whose reservations, and one whose records, only write [fa.meta]. *)
Class GuardMeta (g : option callGuard) : Prop :=
  reserve_meta : ∀ k a, g = Some k → MetaOnly (Reserve k a).
Class GuardRecordMeta (g : option callGuard) : Prop :=
  record_meta : ∀ k a n b, g = Some k → MetaOnly (Record_ k a n b).
#[export] Instance no_guard_meta : GuardMeta None.
Proof. by intros ???. Qed.
#[export] Instance no_guard_record_meta : GuardRecordMeta None.
Proof. by intros ?????. Qed.

Lemma reserve_ok g a u w w' `{!GuardMeta g} :
  reserve g a w = (Ok u, w') → ∃ m, w_db w' = set_meta m (w_db w).
Proof.
  destruct g as [k|]; simpl.
  - intros E. destruct (reserve_meta k a eq_refl w) as [m Hm]. rewrite E in Hm. eauto.
  - intros [= _ <-]. exists (meta (w_db w)). by destruct (w_db w).
Qed.

Lemma find_unique {A} (p : A → bool) l x : x ∈ l → p x = true → (∀ y, y ∈ l → p y = true → y = x) →
  List.find p l = Some x.
Proof.
  intros Hx Hp Hu. destruct (List.find p l) as [y|] eqn:E.
  - apply find_elem in E as [Hy Hpy]. f_equal. by apply Hu.
  - rewrite list_elem_of_In in Hx. by rewrite (List.find_none _ _ E _ Hx) in Hp.
Qed.

Lemma find_run_in run d r : find_run run d = Some r → r ∈ runs d ∧ run_id r = run.
Proof. intros [? ?%bool_decide_eq_true]%find_elem. done. Qed.

Lemma run_id_unique d r s : db_wf d → r ∈ runs d → s ∈ runs d → run_id r = run_id s → r = s.
Proof.
  intros Hwf ???. pose proof (wf_runs _ Hwf) as Hc. unfold runs_constraints in Hc. bool_prop.
  eapply (NoDup_map_inj run_id); eauto.
Qed.

Lemma find_run_wf d r : db_wf d → r ∈ runs d → find_run (run_id r) d = Some r.
Proof.
  intros Hwf Hr. apply find_unique; [done|by apply bool_decide_eq_true|].
  intros s Hs He%bool_decide_eq_true. by eapply run_id_unique.
Qed.

Lemma incrementStep_ok run n w w' :
  incrementStep run n w = (Ok tt, w') → db_wf (w_db w) →
  ∃ r, find_run run (w_db w) = Some r ∧ run_status r = Running ∧
    (n ≠ 0 → run_steps r < n)%Z ∧
    find_run run (w_db w') = Some (add_step r) ∧ attempts (w_db w') = attempts (w_db w) ∧
    meta (w_db w') = meta (w_db w).
Proof.
  intros Hi Hwf. assert (Hwf' : db_wf (w_db w')) by (by apply (incrementStep_steps _ _ _ _ _ Hi)).
  unfold incrementStep in Hi. apply bind_ok in Hi as (k & w1 & [-> [Hc ->]]%update_runs_ok & Hi).
  set (p := λ r, bool_decide (run_id r = run) && (bool_decide (n = 0%Z) || (run_steps r <? n)%Z)
                 && bool_decide (run_status r = Running)) in *.
  case_bool_decide as Hk; [|by destruct (bool_decide _)]. injection Hi as <-.
  destruct (count_if_pos _ _ _ Hk) as (r & Hr & Hp). pose proof Hp as Hp'. unfold p in Hp'.
  apply andb_true_iff in Hp' as [[Hid%bool_decide_eq_true Hn]%andb_true_iff Hst%bool_decide_eq_true].
  exists r. subst run. split; [by apply find_run_wf|]. split; [done|]. split.
  { intros Hn0. apply orb_true_iff in Hn as [?%bool_decide_eq_true|?%Z.ltb_lt]; done. }
  split; [|done]. apply (find_run_wf _ (add_step r) Hwf'). simpl. apply elem_of_update_rows.
  exists r. by rewrite Hp.
Qed.

(** A dispatched tool call has used one step of its run: the run was
    running, its step count grew by exactly one, and with a step budget it did
    not exceed the budget. *)
Theorem dispatch_counts_step a n g w w' `{!GuardSteps g} `{!GuardMeta g} :
  db_wf (w_db w) → dispatchGuardedTool a n g w = (Ok tt, w') →
  ∃ r r', find_run (att_run a) (w_db w) = Some r ∧ find_run (att_run a) (w_db w') = Some r' ∧
    run_status r = Running ∧ run_steps r' = (run_steps r + 1)%Z ∧ (n ≠ 0 → run_steps r' <= n)%Z.
Proof.
  intros Hwf Hd. pose proof (dispatchGuardedTool_split a n g w w' Hd) as (w1 & w2 & Hr & Hi & _ & _ & Hruns).
  destruct (reserve_ok _ _ _ _ _ Hr) as [m Hm].
  assert (Hwf1 : db_wf (w_db w1)).
  { eapply (steps_from (reserve g a)); [by apply steps_reserve|exact Hr|done]. }
  destruct (incrementStep_ok _ _ _ _ Hi Hwf1) as (r & Hf & Hst & Hn & Hf' & _).
  exists r, (add_step r). rewrite Hm in Hf. split; [done|]. split; [|split; [done|]].
  - unfold find_run in *. by rewrite Hruns.
  - split; [done|]. intros Hn0. specialize (Hn Hn0). simpl. lia.
Qed.

(** ** A concrete host and database, for the witnesses *)
End machine.

Module Demo.
(** Identifiers and times are numerals in unary; encodings have length 1. *)
Fixpoint unary (n : nat) : string := match n with O => "x" | S n => String (Ascii.ascii_of_nat 105) (unary n) end.
#[export] Instance host : Host := {|
  newID_at := unary;
  now_at n := "t" +:+ unary n;
  elapsed_since _ _ := Some 5%Z;
  sha256hex s := s;
  hash_response _ := "";
  json_scope s := ms_kind s +:+ "/" +:+ ms_owner s +:+ "/" +:+ ms_project s +:+ "/" +:+ ms_task s;
  json_mutation m := mut_action m +:+ mut_entry m +:+ mut_title m +:+ mut_body m;
  json_receipt r := mc_entry r;
  hash_request q := match q with QModel r => rq_model_id r | _ => "" end;
  len_response _ := 1%Z;
  len_collaboration _ := 1%Z;
  json_revision _ := Some 1%Z;
  json_digest _ := None;
  text_lt a b := match String.compare a b with Lt => true | _ => false end;
|}.
#[export] Instance checks : ReadChecks := {|
  validateDeliveredResults _ _ _ := Ok tt;
|}.

Definition config : RunConfig := mkRunConfig "" "" [] None no_selection None None "/w" 16.
Definition empty : world :=
  mkWorld (mkDb [mkSpace "local" "Local" "local" "" "" "c" "c" false "" ""]
    [mkConversation "c" "Chat" "/w" "local" "" "" 0 0] [] [] [] ∅ (mkMemory [] [] ∅)) 0 0.
Definition request : ModelRequest := mkModelRequest None "m" "" [] 100 [].
Definition call : ToolCall := mkToolCall "call-1" "file_read" "{}".

(** A run, its model attempt, a response with one tool call. *)
Definition created := createRunWithTool "local" "" "c" "k1" "do it" config false None empty.
Definition w1 : world := created.2.
Definition run : Run := match created.1 with Ok (f, _) => rf_run f | Err _ => mkRun "" "" "" "" config Running "" 0 0 "" "" "" "" 0 0 end.
Definition started := startGuardedModel run request 5 None w1.
Definition model_attempt : Attempt :=
  match started.1 with Ok a => a | Err _ => mkAttempt "" "" KModel "" APending (QModel request) None 0 end.
Definition w2 : world := started.2.
Definition w3 : world := (saveGuardedModel run model_attempt (mkModelResponse "" [call] None) None 1 w2).2.
Definition tool_attempt : Attempt :=
  match attempts (w_db w3) with _ :: a :: _ => a | _ => model_attempt end.
Definition w4 : world := (dispatchGuardedTool tool_attempt 5 None w3).2.

Lemma w4_dispatched : dispatchGuardedTool tool_attempt 5 None w3 = (Ok tt, w4).
Proof. vm_compute. reflexivity. Qed.

Lemma wf_empty : db_wf (w_db empty).
Proof.
  split; simpl; try set_solver; try (apply NoDup_singleton || constructor); reflexivity.
Qed.

Lemma wf_w3 : db_wf (w_db w3).
Proof.
  eapply (reach_ok empty w3); [|apply wf_empty].
  eapply rtc_l; [apply os_run, (os_createRun empty "local" "" "c" "k1" "do it" config false None)|].
  eapply rtc_l; [apply os_run, (os_startModel w1 run request 5 None)|].
  apply rtc_once. apply os_run, (os_saveModel w2 run model_attempt (mkModelResponse "" [call] None) None 1).
Qed.
End Demo.

#[local] Existing Instances Demo.host Demo.checks.

Lemma dispatched_at_most_once_witness :
  (dispatchGuardedTool Demo.tool_attempt 5 None Demo.w4).1 ≠ Ok tt.
Proof.
  exact (dispatched_at_most_once Demo.tool_attempt 5 None 5 None Demo.w3 Demo.w4 Demo.w4 _ _
           Demo.wf_w3 Demo.w4_dispatched (rtc_refl _ _) (surjective_pairing _)).
Defined.

Lemma dispatch_counts_step_witness :
  ∃ r r', find_run (att_run Demo.tool_attempt) (w_db Demo.w3) = Some r ∧
    find_run (att_run Demo.tool_attempt) (w_db Demo.w4) = Some r' ∧
    run_status r = Running ∧ run_steps r' = (run_steps r + 1)%Z ∧ (5 ≠ 0 → run_steps r' <= 5)%Z.
Proof. exact (dispatch_counts_step Demo.tool_attempt 5 None Demo.w3 Demo.w4 Demo.wf_w3 Demo.w4_dispatched). Defined.
