(* ===== verification/SpaceProps.v ===== *)
(** * Spaces: routing, moving and publishing

    Every space routes only to its own conversations, in every reachable state;
    what moving a conversation changes; and that moving one to a channel
    publishes exactly the text of its local runs. *)

From Stdlib Require Import Ascii.
From S2P Require Import Prelude Text Data Sql Store StoreInv Space SpaceInv StoreProps.

(** ** Routing *)

(** What the pointers of the spaces depend on. *)
Definition routes (d : db) : list Space * list (string * string) :=
  (spaces d, map (λ c, (cv_id c, cv_space c)) (conversations d)).
Definition routes_eq (d d' : db) : Prop := routes d' = routes d.

Lemma routes_same d d' : spaces d' = spaces d → conversations d' = conversations d → routes_eq d d'.
Proof. intros E1 E2. unfold routes_eq, routes. by rewrite E1, E2. Qed.
Lemma routes_update p f l : (∀ c, cv_id (f c) = cv_id c ∧ cv_space (f c) = cv_space c) →
  map (λ c, (cv_id c, cv_space c)) (update_rows p f l) = map (λ c, (cv_id c, cv_space c)) l.
Proof. intros Hf. apply map_update_rows. intros c. by destruct (Hf c) as [-> ->]. Qed.
Ltac routes := unfold routes_eq, routes; simpl; f_equal; apply routes_update; done.

#[export] Instance routes_eq_messages : RespectsMessages routes_eq.
Proof.
  assert (Hpre : PreOrder routes_eq) by (split; [done|intros a b c H1 H2; unfold routes_eq in *; congruence]).
  split; [split; try done; try (intros; by apply routes_same)|].
  - intros d p now. routes.
  - intros r w. unfold insert_run, query_row, mbind, M_bind. destruct (find_conversation _ _); [|done]. simpl.
    destruct (runs_constraints _); [|done]. simpl. routes.
  - intros a w _. unfold insert_attempt. rewrite bind_query. unfold id. destruct (find_run _ _); [|done]. simpl.
    destruct (negb _); [|done]. simpl. by apply routes_same.
  - intros c r b w. unfold insert_message_row, query_row, mbind, M_bind. destruct (find_conversation _ _); [|done]. simpl.
    routes.
  - intros c o r f w. unfold move_message_row, query_row, mbind, M_bind. destruct (find_conversation _ _); [|done]. simpl.
    destruct (existsb _ _); [|done]. simpl. routes.
  - intros c k b w. unfold insert_message_once, query_row, mbind, M_bind. destruct (find_conversation _ _); [|done]. simpl.
    routes.
Qed.

#[export] Instance routes_eq_inputs : RespectsInputs routes_eq.
Proof. split; [apply _|]. intros. by apply routes_same. Qed.

Lemma routes_from {A} (m : M A) r w w' : MessageSteps m → m w = (r, w') → routes_eq (w_db w) (w_db w').
Proof. intros Hm E. specialize (Hm routes_eq _ w). by rewrite E in Hm. Qed.

Lemma routes_belongs d d' chat s : routes_eq d d' → belongs chat s d' = belongs chat s d.
Proof.
  unfold routes_eq, routes. intros [= _ E]. unfold belongs, find_conversation. revert E.
  generalize (conversations d') as l'. induction (conversations d) as [|c l IH]; intros [|c' l']; simpl; try done.
  intros [= E1 E2 E3]. rewrite E1. case_bool_decide; [by rewrite E2|by apply IH].
Qed.

(** A space routes to its own conversations, and a channel without several
    conversations to its default. *)
Definition space_routed (d : db) (s : Space) : Prop :=
  (∀ p, p = sp_default s ∨ p = sp_active s → p ≠ "" → belongs p (sp_id s) d = true) ∧
  (sp_source s ≠ "local" → sp_multi s = false → sp_active s = sp_default s).
Definition routes_ok (d : db) : Prop := ∀ s, s ∈ spaces d → space_routed d s.

Lemma space_routed_eq d d' s : routes_eq d d' → space_routed d s → space_routed d' s.
Proof. intros E [H1 H2]. split; [|done]. intros p Hp Hn. rewrite (routes_belongs _ _ _ _ E). by apply H1. Qed.
Lemma routes_ok_eq d d' : routes_eq d d' → routes_ok d → routes_ok d'.
Proof.
  intros E H s Hs. eapply space_routed_eq; [exact E|]. apply H. unfold routes_eq, routes in E. by injection E as <- _.
Qed.

Lemma belongs_iff d chat s : db_wf d → belongs chat s d = true ↔ ∃ c, c ∈ conversations d ∧ cv_id c = chat ∧ cv_space c = s.
Proof.
  intros Hwf. unfold belongs. split.
  - destruct (find_conversation chat d) as [c|] eqn:E; [|done]. apply find_elem in E as [Hc He%bool_decide_eq_true].
    intros Hs%bool_decide_eq_true. eauto.
  - intros (c & Hc & He & Hs). unfold find_conversation.
    rewrite (find_unique _ (conversations d) c Hc); [by apply bool_decide_eq_true|by apply bool_decide_eq_true|].
    intros y Hy Ey%bool_decide_eq_true. apply (NoDup_map_inj cv_id (conversations d)); [apply Hwf|done|done|congruence].
Qed.

(** ** Statements, when they succeed *)
Lemma change_spaces_ok f u w w' : change_spaces f w = (Ok u, w') ↔
  (spaces_constraints (f (spaces (w_db w))) && space_references (conversations (w_db w)) (f (spaces (w_db w))) = true) ∧
  w' = mkWorld (set_spaces (f (spaces (w_db w))) (w_db w)) (w_ids w) (w_ticks w).
Proof.
  unfold change_spaces. rewrite bind_query, bind_ok. unfold id. split.
  - intros ([] & w1 & [E <-]%guard_ok & ->%write_ok). done.
  - intros [E ->]. exists tt, w. split; [by apply guard_ok|by apply write_ok].
Qed.
Lemma change_spaces_err f e w w' : change_spaces f w = (Err e, w') → w' = w.
Proof.
  unfold change_spaces. rewrite bind_query. unfold id, guard_. destruct (_ && _); [done|]. by intros [= _ <-].
Qed.
Lemma update_spaces_err p f e w w' : update_spaces p f w = (Err e, w') → w' = w.
Proof.
  unfold update_spaces. rewrite bind_query, bind_err. intros [E|(? & ? & _ & ?)]; [by apply change_spaces_err in E|done].
Qed.
Lemma update_spaces_ok p f n w w' : update_spaces p f w = (Ok n, w') →
  n = count_if p (spaces (w_db w)) ∧ w' = mkWorld (set_spaces (update_rows p f (spaces (w_db w))) (w_db w)) (w_ids w) (w_ticks w).
Proof.
  unfold update_spaces. rewrite bind_query, bind_ok. intros (u & w1 & [_ ->]%change_spaces_ok & [<- <-]%ret_ok). done.
Qed.
Lemma move_conversations_ok p space now u w w' : move_conversations p space now w = (Ok u, w') →
  space_references (update_rows p (conv_move space now) (conversations (w_db w))) (spaces (w_db w)) = true ∧
  w' = mkWorld (set_conversations (update_rows p (conv_move space now) (conversations (w_db w))) (w_db w)) (w_ids w) (w_ticks w).
Proof.
  unfold move_conversations. rewrite bind_query, bind_ok. unfold id. intros ([] & w1 & [E <-]%guard_ok & ->%write_ok). done.
Qed.
Lemma insert_conversation_ok c u w w' : insert_conversation c w = (Ok u, w') →
  find_conversation (cv_id c) (w_db w) = None ∧ space_references [c] (spaces (w_db w)) = true ∧
  w' = mkWorld (set_conversations (conversations (w_db w) ++ [c]) (w_db w)) (w_ids w) (w_ticks w).
Proof.
  unfold insert_conversation. rewrite bind_query, bind_ok. unfold id. intros ([] & w1 & [E <-]%guard_ok & ->%write_ok).
  apply andb_true_iff in E as [E1%bool_decide_eq_true E2]. done.
Qed.

(** ** The routing invariant *)
Definition routed (d : db) : Prop := db_wf d ∧ routes_ok d.

(** [Keeps m]: the invariant holds after every outcome of [m]. *)
Definition keeps (d d' : db) : Prop := routed d → routed d'.
#[export] Instance keeps_closed : Closed (eq keeps).
Proof. intros R <-. split; [by intros d H|intros a b c H1 H2 H; apply H2, H1, H]. Qed.
Notation Keeps := (Along (eq keeps)).
#[local] Hint Resolve keeps_closed : steps.

Lemma keeps_messages {A} (m : M A) : MessageSteps m → Keeps m.
Proof.
  intros Hm R <- w [Hwf Hr]. split.
  - exact (proj1 (Hm step_ok _ w Hwf)).
  - eapply routes_ok_eq; [|exact Hr]. exact (Hm routes_eq _ w).
Qed.
Lemma keeps_steps {A} (m : M A) : Steps m → Keeps m.
Proof. intros Hm. by apply keeps_messages, message_steps. Qed.

Lemma keeps_transaction_ok {A} (m : M A) :
  (∀ w a w', routed (w_db w) → m w = (Ok a, w') → db_wf (w_db w') → routes_ok (w_db w')) → (∀ w, step_ok (w_db w) (w_db (m w).2)) →
  Keeps (transaction m).
Proof.
  intros Hm Hs R <- w Hr. pose proof (Hs w) as Hok. unfold transaction. destruct (m w) as [[a|e] w'] eqn:E; [|done].
  simpl in *. destruct Hr as [Hwf Hr]. apply Hok in Hwf as H1. destruct H1 as [Hwf' _].
  split; [done|]. eapply Hm; [split; [exact Hwf|exact Hr]|exact E|exact Hwf'].
Qed.
Lemma keeps_transaction {A} (m : M A) :
  (∀ w a w', routed (w_db w) → m w = (Ok a, w') → db_wf (w_db w') → routes_ok (w_db w')) → RevokeSteps m → Keeps (transaction m).
Proof. intros Hm Hs. apply keeps_transaction_ok; [done|]. by apply Hs, _. Qed.

Lemma routes_ok_update d p f : routes_ok d → (∀ s, s ∈ spaces d → p s = true → space_routed d (f s)) →
  routes_ok (set_spaces (update_rows p f (spaces d)) d).
Proof.
  intros Hr Hf s (x & Hx & ->)%elem_of_update_rows. change (space_routed d (if p x then f x else x)).
  destruct (p x) eqn:E; [by apply Hf|by apply Hr].
Qed.

Lemma keeps_update_spaces p f : (∀ d s, space_routed d s → space_routed d (f s)) → Keeps (update_spaces p f).
Proof.
  intros Hf R <- w [Hwf Hr]. pose proof (steps_update_spaces p f step_ok _ w) as Hok.
  destruct (update_spaces p f w) as [[n|e] w'] eqn:E; simpl in *.
  - split; [by apply Hok|]. apply update_spaces_ok in E as [_ ->]. apply routes_ok_update; [done|]. auto.
  - by apply update_spaces_err in E as ->.
Qed.
Lemma keeps_insert_space s : sp_default s = "" → sp_active s = "" → Keeps (insert_space s).
Proof.
  intros H1 H2 R <- w [Hwf Hr]. pose proof (steps_insert_space s step_ok _ w) as Hok.
  destruct (insert_space s w) as [[[]|e] w'] eqn:E; simpl in *.
  - split; [by apply Hok|]. apply change_spaces_ok in E as [_ ->]. simpl.
    intros x [Hx| ->%list_elem_of_singleton]%elem_of_app; [by apply Hr|]. split; [|congruence].
    intros q [-> | ->]; congruence.
  - by apply change_spaces_err in E as ->.
Qed.
#[local] Hint Resolve keeps_update_spaces keeps_insert_space : steps.
#[local] Hint Extern 5 (Keeps _) => apply keeps_steps : steps.
#[local] Hint Resolve steps_scanSpace steps_GetSpace : steps.

Section methods.
Context {H : Host} {RC : ReadChecks}.

Lemma keeps_CreateSpace t s k e : Keeps (CreateSpace t s k e).
Proof. unfold CreateSpace. solve_steps. Qed.
Lemma keeps_outcome {A} (m : M A) : Keeps m → Keeps (outcome m).
Proof. intros Hm R HR w. specialize (Hm R HR w). unfold outcome. by destruct (m w). Qed.
Lemma keeps_EnsureExternalSpace t s k e : Keeps (EnsureExternalSpace t s k e).
Proof. unfold EnsureExternalSpace. solve_steps. apply keeps_outcome, keeps_CreateSpace. Qed.
Lemma keeps_RenameSpace i t : Keeps (RenameSpace i t).
Proof. unfold RenameSpace. solve_steps. Qed.
Lemma keeps_SetSpaceMultiConversation s b : Keeps (SetSpaceMultiConversation s b).
Proof.
  unfold SetSpaceMultiConversation. solve_steps. apply keeps_update_spaces. intros d x [H1 H2]. destruct b; (split; [|done]).
  - exact H1.
  - simpl. intros p Hp. apply H1. left. tauto.
Qed.

Lemma scanSpace_ok f s w w' : scanSpace f w = (Ok s, w') ↔ f (w_db w) = Some s ∧ w' = w.
Proof.
  unfold scanSpace. rewrite bind_query. destruct (f (w_db w)); [rewrite ret_ok; naive_solver|]. split; [done|naive_solver].
Qed.
Lemma nowText_ok now w w' : nowText w = (Ok now, w') → w_db w' = w_db w.
Proof. by intros [= _ <-]. Qed.

Lemma keeps_setSpaceConversation s c b : Keeps (setSpaceConversation s c b).
Proof.
  unfold setSpaceConversation. apply keeps_transaction; [|solve_steps].
  intros w [] w' [Hwf Hr] Hm Hwf'. apply bind_ok in Hm as (x & w1 & [Hx ->]%scanSpace_ok & Hm).
  apply bind_ok in Hm as (cv & w2 & [Hc <-]%query_row_ok & Hm). apply bind_ok in Hm as ([] & w2 & [Hsp <-]%guard_ok & Hm).
  apply bind_ok in Hm as ([] & w2 & [Hg <-]%guard_ok & Hm). apply bind_ok in Hm as (now & w2 & Hn%nowText_ok & Hm).
  apply bind_ok in Hm as (n & w3 & [_ ->]%update_spaces_ok & [_ <-]%ret_ok). rewrite Hn. simpl.
  apply find_elem in Hx as [Hx Hid%bool_decide_eq_true].
  assert (Hb : belongs c s (w_db w) = true) by (unfold belongs; by rewrite Hc).
  apply routes_ok_update; [done|]. intros y Hy Hyid. unfold by_id in Hyid. apply bool_decide_eq_true in Hyid.
  assert (y = x) as ->.
  { pose proof (wf_spaces _ Hwf) as Hs. unfold spaces_constraints in Hs. bool_prop.
    apply (NoDup_map_inj sp_id (spaces (w_db w))); [done|done|done|congruence]. }
  destruct (Hr x Hx) as [Hp Ha]. rewrite Hid in Hp. destruct b; simpl.
  - split; simpl; rewrite ?Hid.
    + intros q [-> | ->] Hq; [done|]. destruct (negb _ && negb _); [done|]. apply Hp; [by right|done].
    + intros Hs Hmu. by rewrite (bool_decide_eq_false_2 _ Hs), Hmu.
  - split; simpl; rewrite ?Hid.
    + intros q [-> | ->] Hq; [apply Hp; [by left|done]|done].
    + intros Hs Hmu. simpl in Hg. rewrite (bool_decide_eq_false_2 _ Hs), Hmu in Hg. simpl in Hg. by apply bool_decide_eq_true in Hg.
Qed.

Lemma belongs_app d c chat s : belongs chat s d = true → belongs chat s (set_conversations (conversations d ++ [c]) d) = true.
Proof.
  unfold belongs, find_conversation. simpl. induction (conversations d) as [|x l IH]; simpl; [done|].
  destruct (bool_decide (cv_id x = chat)); [done|exact IH].
Qed.
Lemma belongs_new d c : find_conversation (cv_id c) d = None →
  belongs (cv_id c) (cv_space c) (set_conversations (conversations d ++ [c]) d) = true.
Proof.
  unfold belongs, find_conversation. simpl. intros Hf. induction (conversations d) as [|z l IH]; simpl in *.
  - by rewrite !bool_decide_eq_true_2.
  - destruct (bool_decide (cv_id z = cv_id c)); [done|]. by apply IH.
Qed.
Lemma routes_ok_insert_conversation d c : routes_ok d → routes_ok (set_conversations (conversations d ++ [c]) d).
Proof.
  intros Hr s Hs. destruct (Hr s Hs) as [Hp Ha]. split; [|done]. intros p Hpp Hn. by apply belongs_app, Hp.
Qed.

Lemma keeps_CreateConversationInSpace s t wd : Keeps (CreateConversationInSpace s t wd).
Proof.
  unfold CreateConversationInSpace. apply steps_bind; [solve [solve_steps]|intros _].
  apply steps_bind; [solve [solve_steps]|intros _]. apply steps_bind; [solve [solve_steps]|intros chat].
  apply steps_bind; [solve [solve_steps]|intros created]. apply steps_bind; [solve [solve_steps]|intros updated]. cbv zeta.
  apply keeps_transaction; [|solve_steps].
  intros w c w' [Hwf Hr] Hm Hwf'. apply bind_ok in Hm as ([] & w1 & (Hf & Href & ->)%insert_conversation_ok & Hm).
  apply bind_ok in Hm as (x & w2 & [Hx <-]%query_row_ok & Hm). apply bind_ok in Hm as ([] & w2 & Hu & [_ <-]%ret_ok).
  pose proof (belongs_new _ _ Hf) as Hb.
  set (c0 := mkConversation chat t wd s created updated 0 0) in *.
  assert (Hr1 := routes_ok_insert_conversation _ c0 Hr).
  case_bool_decide as Hd; [|by apply ret_ok in Hu as [_ <-]].
  apply bind_ok in Hu as (n & w3 & [_ ->]%update_spaces_ok & [_ <-]%ret_ok).
  refine (routes_ok_update _ _ _ Hr1 _). intros y Hy Hyid%bool_decide_eq_true. split; [|done].
  intros q Hq _. assert (q = chat) as -> by (simpl in Hq; tauto). change (sp_id (route chat chat updated y)) with (sp_id y).
  rewrite Hyid. exact Hb.
Qed.

(** A new space routes to its new conversation. *)
Lemma bindChannelTx_routes t k n wd x w w' : routes_ok (w_db w) → bindChannelTx t k n wd w = (Ok x, w') → routes_ok (w_db w').
Proof.
  intros Hr Hm. unfold bindChannelTx in Hm. rewrite bind_query in Hm.
  destruct (find_external _ _ _); [by apply ret_ok in Hm as [_ <-]|].
  apply bind_ok in Hm as (now & w1 & Hn%nowText_ok & Hm). apply bind_ok in Hm as (space & w2 & [= Es <-] & Hm).
  apply bind_ok in Hm as (chat & w3 & [= Ec <-] & Hm). apply bind_ok in Hm as ([] & w4 & [_ ->]%change_spaces_ok & Hm).
  apply bind_ok in Hm as ([] & w5 & (Hf & Href & ->)%insert_conversation_ok & Hm).
  apply bind_ok in Hm as ([] & w6 & Hmeta & [_ ->]%scanSpace_ok).
  apply (routes_from (meta_insert _ _)) in Hmeta; [|solve_steps]. eapply routes_ok_eq; [exact Hmeta|].
  pose proof (belongs_new _ _ Hf) as Hb. simpl in *. rewrite Hn in *. clear Hmeta.
  intros y Hy. simpl in Hy. apply elem_of_app in Hy as [Hy| ->%list_elem_of_singleton].
  - destruct (Hr y Hy) as [Hp Ha]. split; [|done]. intros q Hq Hne. by apply (belongs_app (w_db w)), Hp.
  - split; [|done]. intros q Hq _. simpl in Hq. assert (q = chat) as -> by tauto. exact Hb.
Qed.
Lemma keeps_PairChannel t k n wd : Keeps (PairChannel t k n wd).
Proof.
  unfold PairChannel. apply steps_bind; [solve_steps|intros _]. apply keeps_transaction; [|unfold bindChannelTx; solve_steps].
  intros w x w' [Hwf Hr] Hm Hwf'. by eapply bindChannelTx_routes.
Qed.

(** ** Publishing *)

(** A message [x] that publishes [m]. *)
Definition publishes (chat : string) (target : ChannelTarget) (m x : Message) : Prop :=
  msg_conversation x = chat ∧ msg_run x = None ∧ msg_request_key x = publicationKey chat (msg_id m) ∧
  ∃ refs, msg_body x = publication target m refs.

(** What publishing the messages [l] may change: new messages that publish one of
    them, the counter of the conversation, and attachments made public. *)
Record published (chat : string) (target : ChannelTarget) (l : list Message) (d d' : db) : Prop := {
  pu_spaces : spaces d' = spaces d;
  pu_runs : runs d' = runs d;
  pu_attempts : attempts d' = attempts d;
  pu_routes : routes_eq d d';
  pu_messages : ∃ new, messages d' = messages d ++ new ∧ Forall (λ x, ∃ m, m ∈ l ∧ publishes chat target m x) new;
  pu_meta : ∀ k, meta d' !! k = meta d !! k ∨ ∃ r r', meta d !! k = Some (MAttachment r) ∧ meta d' !! k = Some (MAttachment r') ∧
    at_conversation r' = at_conversation r ∧ at_space r' = at_space r ∧ at_ref r' = set_public (at_ref r);
}.

#[export] Instance published_closed chat target l : Closed (eq (published chat target l)).
Proof.
  intros R <-. split.
  - intros d. split; try done; [exists []; by rewrite app_nil_r|by left].
  - intros d1 d2 d3 [] []. split; try congruence.
    + destruct pu_messages0 as (n1 & E1 & F1), pu_messages1 as (n2 & E2 & F2). exists (n1 ++ n2).
      rewrite E2, E1, app_assoc. split; [done|]. by apply Forall_app.
    + intros k. destruct (pu_meta0 k) as [E1|(r & r' & E1 & E2 & Ec & Es & Er)], (pu_meta1 k) as [F1|(x & x' & F1 & F2 & Gc & Gs & Gr)].
      * left. congruence.
      * right. exists x, x'. split; [congruence|done].
      * right. exists r, r'. split; [done|split; [congruence|done]].
      * right. exists r, x'. rewrite E2 in F1. injection F1 as <-. split; [done|split; [done|]].
        rewrite Gr, Er. split; [congruence|split; [congruence|]]. by destruct (at_ref r).
Qed.
#[local] Hint Resolve published_closed : steps.

Lemma attachment_found d i r : loadAttachment d i = Some r → meta d !! attachmentKey i = Some (MAttachment r).
Proof.
  unfold loadAttachment. destruct (attachmentID i); [|done]. destruct (meta d !! _) as [[]|]; try done.
  destruct (_ && _); [|done]. by intros [= ->].
Qed.

Lemma published_trans chat target l d1 d2 d3 :
  published chat target l d1 d2 → published chat target l d2 d3 → published chat target l d1 d3.
Proof. apply (closed_pre (C:=eq (published chat target l)) _ eq_refl). Qed.
Lemma published_refl chat target l d : published chat target l d d.
Proof. apply (closed_pre (C:=eq (published chat target l)) _ eq_refl). Qed.

Lemma published_attachment chat target l d i r : loadAttachment d i = Some r →
  published chat target l d (set_meta (map_imap (λ k v, Some (if bool_decide (k = attachmentKey i) then
    MAttachment (mkAttachmentRecord (set_public (at_ref r)) (at_conversation r) (at_space r) (at_principal r)
      (at_committed r) (at_deleted r) (at_request r)) else v)) (meta d)) d).
Proof.
  intros Hl%attachment_found. split; try done; [by exists []; rewrite app_nil_r|]. intros k. simpl. rewrite map_lookup_imap.
  case_bool_decide as E; [subst k; right|left; by destruct (meta d !! k)].
  rewrite Hl. simpl. eexists _, _. split; [done|split; [done|done]].
Qed.

Lemma publish_refs_published chat target l refs w :
  published chat target l (w_db w) (w_db (publish_refs refs w).2) ∧ (∃ r, (publish_refs refs w).1 = Ok r).
Proof.
  revert w. induction refs as [|ref refs IH]; intros w; simpl; [split; [apply published_refl|by eexists]|].
  rewrite bind_query.
  set (step := match loadAttachment (w_db w) (ar_id ref) with Some _ => _ | None => _ end).
  assert (Hs : ∃ ref' w1, step w = (Ok ref', w1) ∧ published chat target l (w_db w) (w_db w1)).
  { unfold step. destruct (loadAttachment _ _) as [r|] eqn:E; [destruct (at_deleted r) eqn:Ed|].
    - eexists _, w. split; [done|apply published_refl].
    - eexists _, _. split; [done|]. simpl. rewrite <- Ed. by apply published_attachment.
    - eexists _, w. split; [done|apply published_refl]. }
  destruct Hs as (ref' & w1 & E & Hp). unfold mbind, M_bind. rewrite E.
  destruct (IH w1) as [Hi [rs Hr]]. destruct (publish_refs refs w1) as [res w2]. simpl in *. subst res.
  split; [by eapply published_trans|by eexists].
Qed.

Lemma publish_one_published chat target m l w : m ∈ l →
  published chat target l (w_db w) (w_db (publish_one chat target m w).2) ∧
  (∀ w', publish_one chat target m w = (Ok tt, w') →
     ∃ x, x ∈ messages (w_db w') ∧ msg_request_key x = publicationKey chat (msg_id m)).
Proof.
  intros Hm. unfold publish_one, mbind, M_bind.
  destruct (publish_refs_published chat target l (mm_attachments (msg_body m)) w) as [Hp [refs Er]].
  destruct (publish_refs _ w) as [res w1]. simpl in *. subst res.
  unfold insert_message_once, query_row, mbind, M_bind. destruct (find_conversation chat (w_db w1)) as [c|]; [|done]. simpl.
  set (dup := existsb _ (messages (w_db w1))). split.
  - eapply published_trans; [exact Hp|]. split; try done; [routes| |by left]. simpl.
    destruct dup; [by exists []; rewrite app_nil_r|]. eexists. split; [done|]. apply Forall_singleton.
    exists m. split; [done|]. split; [done|split; [done|split; [done|by eexists]]].
  - intros w' [= <-]. simpl. destruct dup eqn:Ed.
    + apply existsb_exists in Ed as (x & Hx & Ex%bool_decide_eq_true). exists x. by rewrite list_elem_of_In.
    + eexists. split; [apply elem_of_app; right; by left|done].
Qed.

Lemma publish_all_published chat target S l w : (∀ m, m ∈ l → m ∈ S) →
  published chat target S (w_db w) (w_db (publish_all chat target l w).2).
Proof.
  revert w. induction l as [|m l IH]; intros w Hl; simpl; [apply published_refl|]. unfold mbind, M_bind.
  destruct (publish_one_published chat target m S w ltac:(set_solver)) as [Hp _].
  destruct (publish_one chat target m w) as [[[]|e] w1]; [|done]. eapply published_trans; [exact Hp|]. apply IH. set_solver.
Qed.

Lemma publish_all_complete chat target l w w' : publish_all chat target l w = (Ok tt, w') →
  ∀ m, m ∈ l → ∃ x, x ∈ messages (w_db w') ∧ msg_request_key x = publicationKey chat (msg_id m).
Proof.
  revert w. induction l as [|y l IH]; intros w; simpl; [by intros _ m ?%elem_of_nil|].
  intros ([] & w1 & H1 & H2)%bind_ok m [->|Hm]%elem_of_cons; [|by eapply IH].
  destruct (publish_one_published chat target y [y] w ltac:(set_solver)) as [_ Hc].
  destruct (Hc _ H1) as (x & Hx & Ex). exists x. split; [|done].
  pose proof (publish_all_published chat target l l w1 ltac:(done)) as Hp. rewrite H2 in Hp. simpl in Hp.
  destruct (pu_messages _ _ _ _ _ Hp) as (new & -> & _). set_solver.
Qed.

Lemma publish_all_app chat target l1 l2 w :
  publish_all chat target (l1 ++ l2) w = (publish_all chat target l1 ≫= λ _, publish_all chat target l2) w.
Proof.
  revert w. induction l1 as [|m l1 IH]; intros w; [done|]. simpl. unfold mbind, M_bind in *.
  destruct (publish_one chat target m w) as [[[]|e] w1]; [apply IH|done].
Qed.

(** The rows read do not change while they are published. *)
#[local] Existing Instance msg_le_dec.
#[local] Instance msg_le_trans : Transitive msg_le.
Proof. intros a b c. unfold msg_le. lia. Qed.
#[local] Instance msg_le_total : Total msg_le.
Proof. intros a b. unfold msg_le. lia. Qed.

Lemma local_rows_elem chat cursor d m : m ∈ local_rows chat cursor d ↔
  m ∈ messages d ∧ local_message chat d m = true ∧ (cursor < msg_id m)%Z.
Proof. unfold local_rows. rewrite merge_sort_Permutation, list_elem_of_filter. naive_solver. Qed.

Lemma local_message_chat chat d m : local_message chat d m = true → msg_conversation m = chat.
Proof. unfold local_message. by intros [?%bool_decide_eq_true _]%andb_true_iff. Qed.

(** The rows after one of the rows. *)
Lemma local_rows_after chat cursor d l1 m l2 : db_wf d → local_rows chat cursor d = l1 ++ m :: l2 →
  local_rows chat (msg_id m) d = l2.
Proof.
  intros Hwf El.
  assert (Huniq : ∀ x y, x ∈ messages d → y ∈ messages d → local_message chat d x = true → local_message chat d y = true →
    msg_id x = msg_id y → x = y).
  { intros x y Hx Hy Lx%local_message_chat Ly%local_message_chat E.
    apply (NoDup_map_inj (λ m, (msg_conversation m, msg_id m)) (messages d)); [apply Hwf|done|done|congruence]. }
  assert (Hs : StronglySorted msg_le (l1 ++ m :: l2)) by (rewrite <- El; apply StronglySorted_merge_sort; apply _).
  assert (Hin : ∀ x, x ∈ l1 ++ m :: l2 → x ∈ messages d ∧ local_message chat d x = true ∧ (cursor < msg_id x)%Z).
  { intros x Hx. rewrite <- El in Hx. by apply local_rows_elem in Hx. }
  assert (Hnd : NoDup (l1 ++ m :: l2)).
  { rewrite <- El. unfold local_rows. rewrite merge_sort_Permutation. apply NoDup_filter.
    eapply (NoDup_fmap_1 (λ m, (msg_conversation m, msg_id m))). apply Hwf. }
  apply NoDup_app in Hnd as (_ & Hdis & [Hm _]%NoDup_cons).
  assert (H1 : ∀ x, x ∈ l1 → msg_le x m).
  { intros x Hx. eapply StronglySorted_app_1_elem_of; [exact Hs|exact Hx|by left]. }
  apply StronglySorted_app_1_r in Hs as Hs2. apply StronglySorted_cons in Hs2 as [Hge Hs2]. rewrite Forall_forall in Hge.
  apply (StronglySorted_unique_strong msg_le).
  - intros x y (Hx & Lx & _)%local_rows_elem Hy Hxy Hyx. destruct (Hin y ltac:(set_solver)) as (Hy' & Ly & _).
    apply Huniq; try done. unfold msg_le in *. lia.
  - apply StronglySorted_merge_sort; apply _.
  - exact Hs2.
  - unfold local_rows. rewrite merge_sort_Permutation.
    assert (Hp : filter (λ m0, local_message chat d m0 = true ∧ (cursor < msg_id m0)%Z) (messages d) ≡ₚ l1 ++ m :: l2).
    { rewrite <- El. unfold local_rows. by rewrite merge_sort_Permutation. }
    assert (Hf : filter (λ x, (msg_id m < msg_id x)%Z) (l1 ++ m :: l2) = l2).
    { rewrite filter_app, filter_cons. rewrite decide_False by lia.
      replace (filter _ l1) with (@nil Message); [simpl|].
      - clear -Hge Hin Hm Huniq. assert (Hl : ∀ x, x ∈ l2 → (msg_id m < msg_id x)%Z).
        { intros x Hx. specialize (Hge x Hx). unfold msg_le in Hge. destruct (Z.eq_dec (msg_id m) (msg_id x)) as [E|]; [|lia].
          destruct (Hin x ltac:(set_solver)) as (A1 & A2 & _), (Hin m ltac:(set_solver)) as (B1 & B2 & _).
          by rewrite (Huniq m x) in Hm. }
        clear -Hl. induction l2 as [|x l IH]; [done|]. rewrite filter_cons, decide_True by (apply Hl; by left).
        f_equal. apply IH. intros y Hy. apply Hl. by right.
      - clear -H1. induction l1 as [|x l IH]; [done|]. rewrite filter_cons, decide_False.
        + apply IH. intros y Hy. apply H1. by right.
        + specialize (H1 x ltac:(by left)). unfold msg_le in H1. lia. }
    transitivity (filter (λ x, (msg_id m < msg_id x)%Z) (l1 ++ m :: l2)); [|by rewrite Hf].
    rewrite <- Hp, list_filter_filter.
    rewrite (list_filter_iff _ (λ a, (msg_id m < msg_id a)%Z ∧ local_message chat d a = true ∧ (cursor < msg_id a)%Z)); [done|].
    destruct (Hin m ltac:(set_solver)) as (_ & _ & Hc). intros x. intuition lia.
Qed.

Lemma local_rows_published chat target S cursor d d' : published chat target S d d' →
  local_rows chat cursor d' = local_rows chat cursor d.
Proof.
  intros [_ Hr _ _ (new & Hm & Hnew) Hmeta]. unfold local_rows. f_equal. rewrite Hm, filter_app.
  assert (Hl : ∀ m, local_message chat d' m = local_message chat d m).
  { intros m. unfold local_message, find_run. rewrite Hr. f_equal. destruct (msg_run m) as [run|]; [|done].
    destruct (List.find _ _) as [r|]; [|done]. f_equal. apply bool_decide_ext.
    destruct (Hmeta ("command/direct/" +:+ run)) as [->|(r1 & r2 & -> & -> & _)]; [done|]. split; done. }
  assert (En : filter (λ m, local_message chat d' m = true ∧ (cursor < msg_id m)%Z) new = []).
  { destruct (filter _ new) as [|x k] eqn:Ef; [done|]. exfalso.
    assert (Hx : x ∈ filter (λ m, local_message chat d' m = true ∧ (cursor < msg_id m)%Z) new) by (rewrite Ef; by left).
    apply list_elem_of_filter in Hx as [[Hlx _] Hx]. rewrite Forall_forall in Hnew. destruct (Hnew x Hx) as (m & _ & _ & Hrun & _). unfold local_message in Hlx. rewrite Hrun in Hlx. by rewrite andb_false_r in Hlx. }
  rewrite En, app_nil_r. apply list_filter_iff. intros m. by rewrite Hl.
Qed.

(** The pages, together, publish every row once and in order. *)
Lemma publish_pages_ok chat target (S : list Message) fuel cursor w : db_wf (w_db w) →
  (length (local_rows chat cursor (w_db w)) < fuel)%nat → (∀ m, m ∈ local_rows chat cursor (w_db w) → publishable m = true → m ∈ S) →
  publish_pages fuel chat target cursor w =
    publish_all chat target (filter (λ m, publishable m = true) (local_rows chat cursor (w_db w))) w.
Proof.
  revert cursor w. induction fuel as [|fuel IH]; intros cursor w Hwf Hfuel HS; [lia|]. simpl. rewrite bind_query.
  set (rows := local_rows chat cursor (w_db w)) in *. set (page := take 32 rows).
  destruct (length page <? 32)%nat eqn:El.
  - apply Nat.ltb_lt in El. unfold page in *. rewrite length_take in El. rewrite take_ge by lia.
    unfold mbind, M_bind. by destruct (publish_all _ _ _ w) as [[[]|e] w1].
  - apply Nat.ltb_ge in El. unfold page in *. rewrite length_take in El.
    rewrite <- (take_drop 32 rows) at 2. rewrite filter_app, publish_all_app.
    unfold mbind, M_bind. destruct (publish_all chat target (filter _ (take 32 rows)) w) as [[[]|e] w1] eqn:E; [|done].
    assert (Hp : published chat target S (w_db w) (w_db w1)).
    { pose proof (publish_all_published chat target S (filter (λ m, publishable m = true) (take 32 rows)) w) as Hp.
      rewrite E in Hp. apply Hp. intros m [Hpm Hm]%list_elem_of_filter. apply HS; [|done]. unfold rows in *.
      apply elem_of_take in Hm as (i & Hi & _). by apply list_elem_of_lookup_2 in Hi. }
    destruct (last (take 32 rows)) as [m|] eqn:Elast; [|apply last_None in Elast; apply (f_equal length) in Elast; rewrite length_take in Elast; change (length (@nil Message)) with 0%nat in Elast; lia].
    apply last_Some in Elast as [l1 E1].
    assert (E2 : rows = l1 ++ m :: drop 32 rows) by (rewrite <- (take_drop 32 rows) at 1; rewrite E1, <- app_assoc; done).
    pose proof (local_rows_after chat cursor (w_db w) l1 m _ Hwf E2) as Eafter.
    assert (Er : local_rows chat (msg_id m) (w_db w1) = drop 32 rows) by (by rewrite (local_rows_published _ _ _ _ _ _ Hp)).
    assert (Hwf1 : db_wf (w_db w1)).
    { pose proof (steps_publish_all chat target (filter (λ m, publishable m = true) (take 32 rows)) step_ok _ w Hwf) as [Hwf1 _].
      by rewrite E in Hwf1. }
    rewrite IH; rewrite ?Er; [done|done|rewrite length_drop; lia|].
    intros x Hx. apply HS. rewrite <- (take_drop 32 rows). set_solver.
Qed.

Definition published_rows (chat : string) (d : db) : list Message :=
  filter (λ m, publishable m = true) (local_rows chat 0 d).

Lemma publishMovedText_ok chat space s target w : db_wf (w_db w) → find_space space (w_db w) = Some s →
  channelTarget s = Some target →
  publishMovedText chat space w = publish_all chat target (published_rows chat (w_db w)) w.
Proof.
  intros Hwf Hs Ht.
  assert (E : publishMovedText chat space w = publish_pages (S (length (messages (w_db w)))) chat target 0 w).
  { unfold publishMovedText, scanSpace, query, mbind, M_bind, mret, M_ret. rewrite Hs, Ht. done. }
  rewrite E.
  apply (publish_pages_ok chat target (published_rows chat (w_db w))); [done| |].
  - unfold local_rows. rewrite (Permutation_length (merge_sort_Permutation _ _)). apply Nat.lt_succ_r. apply length_filter.
  - intros m Hm Hp. by apply list_elem_of_filter.
Qed.

(** ** Refreshing the pointers *)
Lemma first_conversation_elem l c : first_conversation l = Some c → c ∈ l.
Proof.
  revert c. induction l as [|x l IH]; intros c; simpl; [done|].
  destruct (first_conversation l) as [b|]; [|intros [= ->]; by left].
  intros [= <-]. destruct (conv_before b x); [right; by apply IH|by left].
Qed.

Lemma refresh_ok space u w w' : db_wf (w_db w) → refreshSpacePointersTx space w = (Ok u, w') →
  ∃ s cur act now, find_space space (w_db w) = Some s ∧ space_routed (w_db w) (route cur act now s) ∧
    w_db w' = set_spaces (update_rows (by_id space) (route cur act now) (spaces (w_db w))) (w_db w).
Proof.
  intros Hwf Hm. unfold refreshSpacePointersTx in Hm. apply bind_ok in Hm as (s & w1 & [Hs <-]%query_row_ok & Hm).
  rewrite bind_query in Hm. unfold id in Hm. set (d := w_db w) in *.
  apply bind_ok in Hm as (now & w1 & Hn%nowText_ok & Hm). apply bind_ok in Hm as (n & w2 & [_ ->]%update_spaces_ok & [_ <-]%ret_ok).
  rewrite Hn. fold d. eexists s, _, _, now. split; [exact Hs|]. split; [|reflexivity].
  assert (Hkeep : ∀ p, keep_pointer space d p ≠ "" → belongs (keep_pointer space d p) space d = true).
  { intros p. unfold keep_pointer. destruct (belongs p space d) eqn:E; [rewrite andb_false_r; done|].
    rewrite andb_true_r. case_bool_decide; simpl; [done|done]. }
  assert (Hfirst : first_id space d ≠ "" → belongs (first_id space d) space d = true).
  { unfold first_id. destruct (first_conversation _) as [c|] eqn:E; [|done]. intros _.
    apply first_conversation_elem, list_elem_of_filter in E as [Hc Hin]. apply belongs_iff; [done|]. eauto. }
  apply find_elem in Hs as [_ Hid%bool_decide_eq_true].
  assert (Hcur : ∀ q, (if bool_decide (keep_pointer space d (sp_default s) = "") then first_id space d else keep_pointer space d (sp_default s)) = q → q ≠ "" →
     belongs q space d = true).
  { intros q <-. case_bool_decide; [apply Hfirst|apply Hkeep]. }
  split; simpl.
  - rewrite Hid. intros q [-> | ->]; [by apply Hcur|]. destruct (negb _ && negb _); [by apply Hcur|].
    destruct (bool_decide (keep_pointer space d (sp_active s) = "")); [by apply Hcur|apply Hkeep].
  - intros Hl Hmu. by rewrite (bool_decide_eq_false_2 _ Hl), Hmu.
Qed.

Lemma routes_ok_refresh space u w w' : db_wf (w_db w) → (∀ s, s ∈ spaces (w_db w) → sp_id s ≠ space → space_routed (w_db w) s) →
  refreshSpacePointersTx space w = (Ok u, w') → routes_ok (w_db w').
Proof.
  intros Hwf Hr Hm. apply refresh_ok in Hm as (s & cur & act & now & Hs & Hroute & ->); [|done].
  intros y (x & Hx & ->)%elem_of_update_rows. change (space_routed (w_db w) (if by_id space x then route cur act now x else x)).
  unfold by_id. case_bool_decide as E; [|by apply Hr].
  apply find_elem in Hs as [Hs Hid%bool_decide_eq_true]. assert (x = s) as ->; [|done].
  pose proof (wf_spaces _ Hwf) as Hsp. unfold spaces_constraints in Hsp. bool_prop.
  apply (NoDup_map_inj sp_id (spaces (w_db w))); [done|done|done|congruence].
Qed.

Lemma revoke_db {A} (m : M A) r w w' : RevokeSteps m → m w = (r, w') → db_wf (w_db w) → db_wf (w_db w').
Proof. intros Hm E Hwf. pose proof (Hm step_ok _ w Hwf) as [H1 _]. by rewrite E in H1. Qed.
Lemma steps_db {A} (m : M A) r w w' : SpaceSteps m → m w = (r, w') → db_wf (w_db w) → db_wf (w_db w').
Proof. intros Hm%revoke_steps. by apply revoke_db. Qed.

(** The statements of [MoveConversation], when the conversation moves. *)
Lemma move_ok chat target w w' : db_wf (w_db w) → MoveConversation chat target w = (Ok tt, w') →
  ∃ c s, find_conversation chat (w_db w) = Some c ∧ find_space target (w_db w) = Some s ∧
    (cv_space c = target ∧ w' = w ∨
     cv_space c ≠ target ∧ existsb (λ r, bool_decide (run_conversation r = chat) && activeRunPredicate r) (runs (w_db w)) = false ∧
     busy_command (w_db w) chat = false ∧
     ∃ now w1 w2 w3 w4,
       w_db w1 = set_conversations (update_rows (λ c, bool_decide (cv_id c = chat)) (conv_move target now) (conversations (w_db w))) (w_db w) ∧
       db_wf (w_db w1) ∧
       (if bool_decide (sp_source s = SpaceSourceLocal) then mret tt
        else _ ← publishMovedText chat target;
             meta_delete (λ k _, bool_decide (k ∈ ["chat/memory/" +:+ chat; "chat/capabilities/" +:+ chat; "context/summary/" +:+ chat])))
         w1 = (Ok tt, w2) ∧ db_wf (w_db w2) ∧ routes_eq (w_db w1) (w_db w2) ∧
       w_db w3 = set_meta (map_imap (λ k v, Some (rehome (λ r, bool_decide (at_conversation r = chat)) target k v)) (meta (w_db w2))) (w_db w2) ∧
       db_wf (w_db w3) ∧ refreshSpacePointersTx (cv_space c) w3 = (Ok tt, w4) ∧ refreshSpacePointersTx target w4 = (Ok tt, w')).
Proof.
  intros Hwf Hm. unfold MoveConversation in Hm. rewrite transaction_ok in Hm. rewrite bind_query in Hm. unfold id in Hm.
  apply bind_ok in Hm as (c & w1 & Hc & Hm). destruct (find_conversation chat (w_db w)) as [c'|] eqn:Ec; [|done].
  apply ret_ok in Hc as [-> <-]. apply bind_ok in Hm as (s & w1 & [Hs ->]%scanSpace_ok & Hm).
  exists c, s. split; [done|split; [done|]]. case_bool_decide as Et; [left; by apply ret_ok in Hm as [_ <-]|right].
  split; [done|]. apply bind_ok in Hm as ([] & w1 & [Hidle%negb_true_iff <-]%guard_ok & Hm). split; [done|].
  apply bind_ok in Hm as ([] & w1 & Hcmd & Hm). unfold checkConversationCommandsTx in Hcmd. rewrite bind_query in Hcmd.
  apply guard_ok in Hcmd as [Hcmd%negb_true_iff <-]. split; [exact Hcmd|].
  apply bind_ok in Hm as (now & w1 & Hnow & Hm). pose proof (nowText_ok _ _ _ Hnow) as Hn.
  apply bind_ok in Hm as ([] & w2 & Hmove & Hm).
  assert (Hwf2 : db_wf (w_db w2)) by (eapply (steps_db _ _ _ _ (steps_move_conversations _ _ _) Hmove); by rewrite Hn).
  apply move_conversations_ok in Hmove as [_ E2]. apply bind_ok in Hm as (s2 & w3 & [Hs2 <-]%query_row_ok & Hm).
  assert (Hd2 : w_db w2 = set_conversations (update_rows (λ c, bool_decide (cv_id c = chat)) (conv_move target now)
    (conversations (w_db w))) (w_db w)) by (by rewrite E2, Hn).
  assert (s2 = s) as ->. { unfold find_space in *. rewrite Hd2 in Hs2. simpl in Hs2. congruence. }
  apply bind_ok in Hm as ([] & w3 & Hpub & Hm). apply bind_ok in Hm as ([] & w4 & Hh & Hm). apply bind_ok in Hm as ([] & w5 & H4 & H5).
  assert (Hsteps : MessageSteps (if bool_decide (sp_source s = SpaceSourceLocal) then mret tt
        else _ ← publishMovedText chat target;
             meta_delete (λ k _, bool_decide (k ∈ ["chat/memory/" +:+ chat; "chat/capabilities/" +:+ chat; "context/summary/" +:+ chat])) : M unit)).
  { solve_steps; [apply steps_publishMovedText|]. apply message_steps, steps_meta_delete. intros k v Hk%bool_decide_eq_true.
    repeat (apply elem_of_cons in Hk as [->|Hk]; [by split|]). by apply elem_of_nil in Hk. }
  exists now, w2, w3, w4, w5. split; [exact Hd2|]. split; [exact Hwf2|]. split; [exact Hpub|].
  split. { eapply (steps_db _ _ _ _ (space_message_steps _ Hsteps) Hpub Hwf2). }
  split; [exact (routes_from _ _ _ _ Hsteps Hpub)|].
  assert (Hrh : SpaceSteps (meta_update (rehome (λ r, bool_decide (at_conversation r = chat)) target))).
  { apply space_steps, steps_meta_update, rehome_free. }
  split; [by injection Hh as <-|]. split; [|done].
  eapply (steps_db _ _ _ _ Hrh Hh). eapply (steps_db _ _ _ _ (space_message_steps _ Hsteps) Hpub Hwf2).
Qed.

Lemma find_conversation_moved p target now chat d :
  find_conversation chat (set_conversations (update_rows p (conv_move target now) (conversations d)) d) =
  option_map (λ c, if p c then conv_move target now c else c) (find_conversation chat d).
Proof.
  unfold find_conversation. simpl. induction (conversations d) as [|c l IH]; [done|]. simpl.
  replace (cv_id (if p c then conv_move target now c else c)) with (cv_id c) by (by destruct (p c)).
  destruct (bool_decide (cv_id c = chat)); [done|exact IH].
Qed.

Lemma routed_moved p target now d s :
  (∀ c, c ∈ conversations d → cv_space c = sp_id s → p c = true → target = sp_id s) → space_routed d s →
  space_routed (set_conversations (update_rows p (conv_move target now) (conversations d)) d) s.
Proof.
  intros Hp [H1 H2]. split; [|done]. intros q Hq Hne. specialize (H1 q Hq Hne). revert H1. unfold belongs.
  rewrite find_conversation_moved. destruct (find_conversation q d) as [c|] eqn:E; [|done]. simpl.
  intros Hc%bool_decide_eq_true. apply find_elem in E as [Hin _]. apply bool_decide_eq_true.
  destruct (p c) eqn:Ep; [by apply (Hp c)|done].
Qed.

Lemma find_conversation_unique d c c' : db_wf d → find_conversation (cv_id c) d = Some c' → c ∈ conversations d → c' = c.
Proof.
  intros Hwf [Hc' E%bool_decide_eq_true]%find_elem Hc.
  apply (NoDup_map_inj cv_id (conversations d)); [apply Hwf|done|done|congruence].
Qed.

Lemma keeps_MoveConversation chat target : Keeps (MoveConversation chat target).
Proof.
  intros R <- w [Hwf Hr]. pose proof (steps_MoveConversation chat target step_ok _ w Hwf) as [Hwf' _].
  split; [done|]. destruct (MoveConversation chat target w) as [[[]|e] w'] eqn:E.
  2: { unfold MoveConversation in E. apply transaction_err in E. simpl. by rewrite E. }
  apply move_ok in E as (c & s & Hc & Hs & [[_ ->]|(Ht & _ & _ & now & w1 & w2 & w3 & w4 & E1 & Hwf1 & _ & Hwf2 & E2 & E3 & Hwf3 & H4 & H5)]);
    [done| |done].
  apply find_elem in Hc as [Hc Hid%bool_decide_eq_true].
  assert (Hr3 : ∀ y, y ∈ spaces (w_db w3) → sp_id y ≠ cv_space c → space_routed (w_db w3) y).
  { intros y Hy Hne. assert (E23 : routes_eq (w_db w1) (w_db w3)) by (rewrite E3; by transitivity (w_db w2)).
    eapply space_routed_eq; [exact E23|]. rewrite E1. apply routed_moved.
    - intros z Hz Ez Hzc%bool_decide_eq_true. exfalso. apply Hne. rewrite <- Ez. f_equal.
      apply (NoDup_map_inj cv_id (conversations (w_db w))); [apply Hwf|done|done|congruence].
    - apply Hr. unfold routes_eq, routes in E23. injection E23 as Es _. by rewrite Es, E1 in Hy. }
  pose proof (routes_ok_refresh _ _ _ _ Hwf3 Hr3 H4) as Hr4. simpl.
  eapply routes_ok_refresh; [|intros y Hy _; by apply Hr4|exact H5].
  exact (steps_db _ _ _ _ (steps_refreshSpacePointersTx _) H4 Hwf3).
Qed.

(** The statements of [DeleteSpace]. *)
Lemma deleteSpace_ok i w w' : DeleteSpace i w = (Ok tt, w') →
  i ≠ LocalSpaceID ∧
  (∀ r c, r ∈ runs (w_db w) → c ∈ conversations (w_db w) → cv_space c = i → run_conversation r = cv_id c → activeRunPredicate r = false) ∧
  (∀ c, c ∈ conversations (w_db w) → cv_space c = i → busy_command (w_db w) (cv_id c) = false) ∧
  ∃ now w1,
    conversations (w_db w1) = update_rows (λ c, bool_decide (cv_space c = i)) (conv_move LocalSpaceID now) (conversations (w_db w)) ∧
    spaces (w_db w1) = filter (λ s, sp_id s ≠ i) (spaces (w_db w)) ∧
    runs (w_db w1) = runs (w_db w) ∧ attempts (w_db w1) = attempts (w_db w) ∧ messages (w_db w1) = messages (w_db w) ∧
    meta (w_db w1) = filter (λ kv, (String.prefix "telegram/access/" kv.1 && match kv.2 with MAccess g => bool_decide (ta_space g = i) | _ => false end) = false)
      (filter (λ kv, (bool_decide (kv.1 = permissionKey i) || String.prefix ("space/people/" +:+ i +:+ "/") kv.1) = false)
         (map_imap (λ k v, Some (rehome (λ r, bool_decide (at_space r = i)) LocalSpaceID k v)) (meta (w_db w)))) ∧
    (db_wf (w_db w) → db_wf (w_db w1)) ∧ refreshSpacePointersTx LocalSpaceID w1 = (Ok tt, w').
Proof.
  unfold DeleteSpace. intros Hm. apply bind_ok in Hm as ([] & w1 & [Hl%negb_true_iff <-]%guard_ok & Hm).
  split; [by apply bool_decide_eq_false in Hl|].
  rewrite transaction_ok, bind_query in Hm. unfold id in Hm. apply bind_ok in Hm as ([] & w1 & Hf & Hm).
  assert (w1 = w) as ->. { destruct (find_space i (w_db w)); [by apply ret_ok in Hf as [_ <-]|done]. }
  apply bind_ok in Hm as ([] & w1 & [Ha%negb_true_iff <-]%guard_ok & Hm).
  apply bind_ok in Hm as ([] & w1 & [Hb%negb_true_iff <-]%guard_ok & Hm).
  split. { intros r c Hr Hc Hi He. destruct (activeRunPredicate r) eqn:E; [|done]. exfalso.
    apply not_true_iff_false in Ha. apply Ha, existsb_exists. exists r. rewrite <- list_elem_of_In. split; [done|]. rewrite E. simpl.
    apply existsb_exists. exists c. rewrite <- list_elem_of_In, list_elem_of_filter. split; [done|]. by apply bool_decide_eq_true. }
  split. { intros c Hc Hi. destruct (busy_command (w_db w) (cv_id c)) eqn:E; [|done]. exfalso.
    apply not_true_iff_false in Hb. apply Hb, existsb_exists. exists c. by rewrite <- list_elem_of_In, list_elem_of_filter. }
  apply bind_ok in Hm as ([] & w1 & H1 & Hm). apply bind_ok in Hm as (now & w2 & H2 & Hm).
  apply bind_ok in Hm as ([] & w3 & H3 & Hm). apply bind_ok in Hm as ([] & w4 & H4 & Hm).
  apply bind_ok in Hm as ([] & w5 & H5 & Hm). apply bind_ok in Hm as ([] & w6 & H6 & Hm).
  exists now, w6.
  assert (S1 : SpaceSteps (meta_update (rehome (λ r, bool_decide (at_space r = i)) LocalSpaceID))).
  { apply space_steps, steps_meta_update, rehome_free. }
  assert (S4 : SpaceSteps (meta_delete (λ k _, bool_decide (k = permissionKey i) || String.prefix ("space/people/" +:+ i +:+ "/") k))).
  { apply space_steps, steps_meta_delete. intros k v [->%bool_decide_eq_true|Hk]%orb_true_iff; [by split|].
    apply (upsert_free_prefix _ _ Hk). intros s. by split. }
  assert (S6 : RevokeSteps (meta_delete (λ k v, String.prefix "telegram/access/" k && match v with MAccess g => bool_decide (ta_space g = i) | _ => false end))).
  { apply steps_revoke. }
  assert (Hwf6 : db_wf (w_db w) → db_wf (w_db w6)).
  { intros Hwf. eapply (revoke_db _ _ _ _ S6 H6), (steps_db _ _ _ _ (steps_delete_space _) H5), (steps_db _ _ _ _ S4 H4),
      (steps_db _ _ _ _ (steps_move_conversations _ _ _) H3). rewrite (nowText_ok _ _ _ H2). eapply (steps_db _ _ _ _ S1 H1 Hwf). }
  apply nowText_ok in H2. injection H1 as <-. apply move_conversations_ok in H3 as [_ ->]. injection H4 as <-.
  apply change_spaces_ok in H5 as [_ ->]. injection H6 as <-. simpl in *. rewrite H2 in *. simpl in *.
  split; [done|]. split; [done|]. split; [done|]. split; [done|]. split; [done|]. split; [done|]. split; [exact Hwf6|exact Hm].
Qed.

Lemma keeps_DeleteSpace i : Keeps (DeleteSpace i).
Proof.
  intros R <- w [Hwf Hr]. pose proof (steps_DeleteSpace i step_ok _ w Hwf) as [Hwf' _].
  split; [done|]. destruct (DeleteSpace i w) as [[[]|e] w'] eqn:E.
  2: { unfold DeleteSpace in E. apply bind_err in E as [E|([] & w1 & [_ <-]%guard_ok & E)].
       - unfold guard_ in E. destruct (negb _); [done|]. by injection E as _ <-.
       - apply transaction_err in E. simpl. by rewrite E. }
  apply deleteSpace_ok in E as (Hl & _ & _ & now & w1 & Ec & Es & _ & _ & _ & _ & Hwf1 & Href). simpl.
  eapply routes_ok_refresh; [by apply Hwf1| |exact Href]. intros s Hs Hne.
  set (d1 := set_conversations (conversations (w_db w1)) (w_db w)).
  assert (Hd : space_routed d1 s).
  { unfold d1. rewrite Ec. rewrite Es in Hs. apply list_elem_of_filter in Hs as [Hsi Hs].
    apply routed_moved; [|by apply Hr]. intros c _ Hc Hp%bool_decide_eq_true. congruence. }
  destruct Hd as [A B]. split; [|done]. intros q Hq Hqn. specialize (A q Hq Hqn). exact A.
Qed.

Lemma op_step_keeps w w' : op_step w w' → keeps (w_db w) (w_db w').
Proof.
  intros Hop Hd. destruct Hop as [Hop|Hop].
  - split; [by apply (run_op_along step_ok _ _ Hop), Hd|]. eapply routes_ok_eq; [|apply Hd]. by apply (run_op_along routes_eq).
  - destruct Hop.
    + by apply (keeps_CreateSpace t s k e keeps).
    + by apply (keeps_EnsureExternalSpace t s k e keeps).
    + by apply (keeps_RenameSpace i t keeps).
    + by apply (keeps_setSpaceConversation s c b keeps).
    + by apply (keeps_SetSpaceMultiConversation s b keeps).
    + by apply (keeps_CreateConversationInSpace s t wd keeps).
    + by apply (keeps_PairChannel t k n wd keeps).
    + by apply (keeps_MoveConversation c t keeps).
    + by apply (keeps_DeleteSpace i keeps).
Qed.

(** What it says of a space. *)
Definition routes_inside (d : db) (s : Space) : Prop :=
  (∀ p, p = sp_default s ∨ p = sp_active s → p ≠ "" → ∃ c, c ∈ conversations d ∧ cv_id c = p ∧ cv_space c = sp_id s) ∧
  (sp_source s ≠ "local" → sp_multi s = false → sp_active s = sp_default s).
Lemma routed_inside d s : routed d → s ∈ spaces d → routes_inside d s.
Proof.
  intros [Hwf Hr] Hs. destruct (Hr s Hs) as [Hp Ha]. split; [|done]. intros p Hpp Hn. apply belongs_iff; [done|]. by apply Hp.
Qed.
End methods.
