(* ===== verification/SpaceMove.v ===== *)
(** * Spaces: what moving and deleting change

    Moving a conversation changes only where it and its attachments live and
    the pointers of the two spaces; moving it to a channel publishes exactly the
    text of its local runs and drops what was derived from them. Deleting a
    space loses no conversation. *)

From S2P Require Import Prelude Text Data Sql Store StoreInv Space SpaceInv StoreProps SpaceProps.

(** Two states with the same space and conversation of every identifier
    publish the same rows. *)
Definition derived_keys (chat : string) : list string :=
  ["chat/memory/" +:+ chat; "chat/capabilities/" +:+ chat; "context/summary/" +:+ chat].

(** A record of metadata before and after: an attachment may have become public
    and have moved to the space [home]. *)
Definition carried (home : attachmentRecord → string) (v v' : MetaValue) : Prop :=
  match v with
  | MAttachment r => ∃ r', v' = MAttachment r' ∧ at_conversation r' = at_conversation r ∧ at_space r' = home r ∧
      (at_ref r' = at_ref r ∨ at_ref r' = set_public (at_ref r))
  | _ => v' = v
  end.

Lemma carried_refl v : carried at_space v v.
Proof. destruct v; try done. eexists. split_and!; [reflexivity|reflexivity|reflexivity|by left]. Qed.
Lemma carried_trans home v1 v2 v3 : (∀ r r', at_conversation r' = at_conversation r → at_space r' = at_space r → home r' = home r) →
  carried at_space v1 v2 → carried home v2 v3 → carried home v1 v3.
Proof.
  intros Hh. destruct v1 as [| | | | | | |r| | | | | | | |]; simpl; try by intros ->.
  intros (r1 & -> & Ec & Es & Er) (r2 & -> & Ec' & Es' & Er'). exists r2. rewrite Ec', Es', Ec, (Hh r r1) by done.
  split_and!; try done. destruct Er as [<-|Er], Er' as [E|E]; auto; right; rewrite E, ?Er; [done|]. by destruct (at_ref r).
Qed.

Lemma local_rows_same chat cursor d d' : messages d' = messages d → runs d' = runs d → meta d' = meta d →
  local_rows chat cursor d' = local_rows chat cursor d.
Proof.
  intros E1 E2 E3. unfold local_rows. rewrite E1. f_equal. apply list_filter_iff. intros m.
  unfold local_message, find_run. by rewrite E2, E3.
Qed.

Lemma derived_not_attachment chat i : attachmentKey i ∉ derived_keys chat.
Proof.
  unfold derived_keys, attachmentKey. intros Hk. repeat (apply elem_of_cons in Hk as [Hk|Hk]; [discriminate Hk|]).
  by apply elem_of_nil in Hk.
Qed.

Section methods.
Context {H : Host}.

(** The publishing step of a move. *)
Lemma publishing_ok chat target s w w' : db_wf (w_db w) → find_space target (w_db w) = Some s →
  (if bool_decide (sp_source s = SpaceSourceLocal) then mret tt
   else _ ← publishMovedText chat target; meta_delete (λ k _, bool_decide (k ∈ derived_keys chat))) w = (Ok tt, w') →
  spaces (w_db w') = spaces (w_db w) ∧ runs (w_db w') = runs (w_db w) ∧ attempts (w_db w') = attempts (w_db w) ∧
  (∃ new, messages (w_db w') = messages (w_db w) ++ new ∧
     Forall (λ x, ∃ t m, sp_source s ≠ "local" ∧ channelTarget s = Some t ∧ m ∈ published_rows chat (w_db w) ∧ publishes chat t m x) new) ∧
  (sp_source s ≠ "local" → channelTarget s ≠ None → ∀ m, m ∈ published_rows chat (w_db w) →
     ∃ x, x ∈ messages (w_db w') ∧ msg_request_key x = publicationKey chat (msg_id m)) ∧
  (∀ k v', meta (w_db w') !! k = Some v' → ∃ v, meta (w_db w) !! k = Some v ∧ carried at_space v v') ∧
  (∀ k v, meta (w_db w) !! k = Some v → k ∉ derived_keys chat → is_Some (meta (w_db w') !! k)) ∧
  (sp_source s ≠ "local" → ∀ k, k ∈ derived_keys chat → meta (w_db w') !! k = None) ∧
  (sp_source s = "local" → w_db w' = w_db w).
Proof.
  intros Hwf Hs Hm. case_bool_decide as El.
  { apply ret_ok in Hm as [_ <-]. split_and!; try done.
    - exists []. by rewrite app_nil_r.
    - intros k v' Hv. exists v'. split; [done|apply carried_refl]. }
  apply bind_ok in Hm as ([] & w1 & Hp & [= <-]). simpl.
  destruct (channelTarget s) as [t|] eqn:Et.
  - rewrite (publishMovedText_ok _ _ s t) in Hp by done.
    pose proof (publish_all_complete _ _ _ _ _ Hp) as Hc.
    pose proof (publish_all_published chat t (published_rows chat (w_db w)) _ w (λ m Hm, Hm)) as Hpub. rewrite Hp in Hpub.
    destruct Hpub as [E1 E2 E3 _ (new & E4 & Hnew) Hmeta]. simpl in *. split_and!; try done.
    + exists new. split; [done|]. eapply Forall_impl; [exact Hnew|]. intros x (m & Hm & Hx). by exists t, m.
    + intros k v' [Hk Hd]%map_lookup_filter_Some. destruct (Hmeta k) as [E|(r & r' & Er & Er' & Ec & Es & Eref)].
      * exists v'. rewrite <- E. split; [done|apply carried_refl].
      * rewrite Er' in Hk. injection Hk as <-. exists (MAttachment r). split; [done|]. exists r'. tauto.
    + intros k v Hk Hd. rewrite map_lookup_filter.
      assert (Hv : is_Some (meta (w_db w1) !! k)) by (destruct (Hmeta k) as [->|(? & ? & _ & -> & _)]; by eexists).
      destruct Hv as [x Hx]. rewrite Hx. simpl. rewrite option_guard_True; [by eexists|]. by apply bool_decide_eq_false.
    + intros _ k Hk. rewrite map_lookup_filter. destruct (meta (w_db w1) !! k); [|done]. simpl.
      rewrite option_guard_False; [done|]. by rewrite bool_decide_eq_true_2.
  - assert (w1 = w) as ->. { unfold publishMovedText in Hp. apply bind_ok in Hp as (s' & w2 & [Hs' ->]%scanSpace_ok & Hp).
      assert (s' = s) as -> by congruence. rewrite Et in Hp. by apply ret_ok in Hp as [_ <-]. }
    split_and!; try done; [exists []; by rewrite app_nil_r| | |].
    + intros k v' [Hk Hd]%map_lookup_filter_Some. exists v'. split; [done|apply carried_refl].
    + intros k v Hk Hd. rewrite map_lookup_filter, Hk. simpl. rewrite option_guard_True; [by eexists|].
      by apply bool_decide_eq_false.
    + intros _ k Hk. rewrite map_lookup_filter. destruct (meta (w_db w) !! k); [|done]. simpl.
      rewrite option_guard_False; [done|]. by rewrite bool_decide_eq_true_2.
Qed.

Lemma rehome_carried p target k v : carried (λ r, if String.prefix "attachment/" k && p r then target else at_space r) v (rehome p target k v).
Proof.
  destruct v as [| | | | | | |r| | | | | | | |]; try done. unfold rehome.
  destruct (String.prefix "attachment/" k && p r) eqn:E; eexists; (split; [reflexivity|]); (split; [reflexivity|]); (split; [|by left]);
    cbv beta; by rewrite E.
Qed.

Lemma routes_find d d' q : routes_eq d d' → option_map cv_space (find_conversation q d') = option_map cv_space (find_conversation q d).
Proof.
  unfold routes_eq, routes. intros [= _ E]. unfold find_conversation. revert E.
  generalize (conversations d') as l'. induction (conversations d) as [|c l IH]; intros [|c' l']; simpl; try done.
  intros [= E1 E2 E3]. rewrite E1. case_bool_decide; [simpl; by rewrite E2|by apply IH].
Qed.

Lemma refresh_frame i u w w' : db_wf (w_db w) → refreshSpacePointersTx i w = (Ok u, w') →
  conversations (w_db w') = conversations (w_db w) ∧ runs (w_db w') = runs (w_db w) ∧ attempts (w_db w') = attempts (w_db w) ∧
  messages (w_db w') = messages (w_db w) ∧ meta (w_db w') = meta (w_db w) ∧
  (∀ y, sp_id y ≠ i → y ∈ spaces (w_db w') ↔ y ∈ spaces (w_db w)).
Proof.
  intros Hwf (s & cur & act & now & Hs & _ & ->)%refresh_ok; [|done]. split_and!; try done. intros y Hy. simpl.
  unfold update_rows. rewrite list_elem_of_fmap. unfold by_id. split.
  - intros (x & -> & Hx). case_bool_decide as E; [|done]. by destruct Hy.
  - intros Hyy. exists y. by rewrite bool_decide_eq_false_2.
Qed.

(** Everything a move to another space changes. *)
Record moved (chat target : string) (c : Conversation) (s : Space) (d d' : db) : Prop := {
  mv_idle : ∀ r, r ∈ runs d → run_conversation r = chat → activeRunPredicate r = false;
  mv_command : busy_command d chat = false;
  mv_space : ∀ q, option_map cv_space (find_conversation q d') =
    if bool_decide (q = chat) then Some target else option_map cv_space (find_conversation q d);
  mv_spaces : ∀ y, sp_id y ≠ cv_space c → sp_id y ≠ target → y ∈ spaces d' ↔ y ∈ spaces d;
  mv_runs : runs d' = runs d;
  mv_attempts : attempts d' = attempts d;
  mv_messages : ∃ new, messages d' = messages d ++ new ∧ Forall (λ x, ∃ t m, sp_source s ≠ "local" ∧ channelTarget s = Some t ∧
    m ∈ published_rows chat d ∧ publishes chat t m x) new;
  mv_complete : sp_source s ≠ "local" → channelTarget s ≠ None → ∀ m, m ∈ published_rows chat d →
    ∃ x, x ∈ messages d' ∧ msg_request_key x = publicationKey chat (msg_id m);
  mv_meta : ∀ k v', meta d' !! k = Some v' → ∃ v, meta d !! k = Some v ∧
    carried (λ r, if String.prefix "attachment/" k && bool_decide (at_conversation r = chat) then target else at_space r) v v';
  mv_kept : ∀ k v, meta d !! k = Some v → k ∉ derived_keys chat → is_Some (meta d' !! k);
  mv_derived : sp_source s ≠ "local" → ∀ k, k ∈ derived_keys chat → meta d' !! k = None;
  mv_local : sp_source s = "local" → meta d' = map_imap (λ k v, Some (rehome (λ r, bool_decide (at_conversation r = chat)) target k v)) (meta d);
}.

Lemma find_conversation_space chat c target now d q : find_conversation chat d = Some c →
  option_map cv_space (find_conversation q (set_conversations (update_rows (λ c, bool_decide (cv_id c = chat)) (conv_move target now) (conversations d)) d)) =
  if bool_decide (q = chat) then Some target else option_map cv_space (find_conversation q d).
Proof.
  intros Hc. rewrite find_conversation_moved. case_bool_decide as E.
  - subst q. rewrite Hc. simpl. apply find_elem in Hc as [_ ->]. done.
  - destruct (find_conversation q d) as [x|] eqn:Ex; [|done]. simpl. apply find_elem in Ex as [_ Ex%bool_decide_eq_true].
    rewrite bool_decide_eq_false_2; [done|]. congruence.
Qed.

Lemma move_moved chat target w w' : db_wf (w_db w) → MoveConversation chat target w = (Ok tt, w') →
  ∃ c s, find_conversation chat (w_db w) = Some c ∧ find_space target (w_db w) = Some s ∧
    (cv_space c = target ∧ w' = w ∨ cv_space c ≠ target ∧ moved chat target c s (w_db w) (w_db w')).
Proof.
  intros Hwf (c & s & Hc & Hs & Hm)%move_ok; [|done]. exists c, s. split; [done|split; [done|]]. destruct Hm as [Hm|Hm]; [by left|right].
  destruct Hm as (Hne & Hidle & Hcmd & now & w1 & w2 & w3 & w4 & E1 & Hwf1 & Hpub & Hwf2 & Hroutes & E3 & Hwf3 & H4 & H5). split; [done|].
  assert (Hs1 : find_space target (w_db w1) = Some s) by (by rewrite E1).
  destruct (publishing_ok chat target s w1 w2 Hwf1 Hs1 Hpub) as (P1 & P2 & P3 & (new & P4 & P5) & P6 & P7 & P8 & P9 & P10).
  assert (Hwf4 : db_wf (w_db w4)) by exact (steps_db _ _ _ _ (steps_refreshSpacePointersTx _) H4 Hwf3).
  destruct (refresh_frame _ _ _ _ Hwf3 H4) as (A1 & A2 & A3 & A4 & A5 & A6).
  destruct (refresh_frame _ _ _ _ Hwf4 H5) as (B1 & B2 & B3 & B4 & B5 & B6).
  assert (Hrows : published_rows chat (w_db w1) = published_rows chat (w_db w)).
  { unfold published_rows. f_equal. by apply local_rows_same; rewrite E1. }
  rewrite Hrows in P5, P6. rewrite E1 in P1, P2, P3, P4, P7, P8. simpl in P1, P2, P3, P4, P7, P8.
  rewrite E3 in *. simpl in *.
  assert (Emeta : meta (w_db w') = map_imap (λ k v, Some (rehome (λ r, bool_decide (at_conversation r = chat)) target k v)) (meta (w_db w2))) by congruence.
  split.
  - intros r Hr Er. destruct (activeRunPredicate r) eqn:Ea; [|done]. exfalso. apply not_true_iff_false in Hidle. apply Hidle, existsb_exists.
    exists r. rewrite <- list_elem_of_In, Ea, bool_decide_eq_true_2; done.
  - exact Hcmd.
  - intros q. rewrite <- (find_conversation_space _ _ target now _ q Hc), <- E1.
    rewrite <- (routes_find (w_db w1) (w_db w2)) by done. unfold find_conversation. by rewrite B1, A1.
  - intros y Hy Ht. rewrite B6, A6, P1 by done. done.
  - congruence.
  - congruence.
  - exists new. split; [congruence|done].
  - intros Hl Ht m Hm. rewrite B4, A4. by apply P6.
  - intros k v'. rewrite Emeta, map_lookup_imap. destruct (meta (w_db w2) !! k) as [v2|] eqn:Ek; [|done]. simpl. intros [= <-].
    destruct (P7 k v2 Ek) as (v & Hv & Hcar). exists v. split; [done|]. eapply carried_trans; [|exact Hcar|apply rehome_carried].
    intros r r' -> ->. done.
  - intros k v Hv Hd. rewrite Emeta, map_lookup_imap. destruct (P8 k v Hv Hd) as [v2 ->]. by eexists.
  - intros Hl k Hk. by rewrite Emeta, map_lookup_imap, P9.
  - intros Hl. by rewrite Emeta, P10, E1.
Qed.

(** Moving a conversation succeeds only when it has no active run and no
    command left open; it then belongs to the target space, and no other
    conversation, run or call changes; every attachment of the conversation, and
    no other, belongs to the target space; no other space is touched; and, for a
    channel, nothing derived from the conversation's private history is left. *)
Theorem move_conversation_effect chat target w w' : db_wf (w_db w) → MoveConversation chat target w = (Ok tt, w') →
  let d := w_db w in let d' := w_db w' in
  ∃ c s, find_conversation chat d = Some c ∧ find_space target d = Some s ∧
  (cv_space c = target → w' = w) ∧
  (cv_space c ≠ target →
    (∀ r, r ∈ runs d → run_conversation r = chat → activeRunPredicate r = false) ∧ busy_command d chat = false ∧
    (∀ q, option_map cv_space (find_conversation q d') =
       if bool_decide (q = chat) then Some target else option_map cv_space (find_conversation q d)) ∧
    runs d' = runs d ∧ attempts d' = attempts d ∧
    (∀ y, sp_id y ≠ cv_space c → sp_id y ≠ target → y ∈ spaces d' ↔ y ∈ spaces d) ∧
    (∀ i r, meta d !! attachmentKey i = Some (MAttachment r) →
       ∃ r', meta d' !! attachmentKey i = Some (MAttachment r') ∧ at_conversation r' = at_conversation r ∧
         at_space r' = (if bool_decide (at_conversation r = chat) then target else at_space r) ∧
         (at_ref r' = at_ref r ∨ sp_source s ≠ "local" ∧ at_ref r' = set_public (at_ref r))) ∧
    (sp_source s ≠ "local" → ∀ k, k ∈ derived_keys chat → meta d' !! k = None)).
Proof.
  intros Hwf Hm. destruct (move_moved _ _ _ _ Hwf Hm) as (c & s & Hc & Hs & [[E ->]|[Hne Hmv]]); exists c, s; (split; [done|split; [done|]]).
  { by split. }
  split; [done|]. intros _. destruct Hmv. split_and!; try done. intros i r Hi.
  destruct (mv_kept0 _ _ Hi (derived_not_attachment chat i)) as [v' Hv']. destruct (mv_meta0 _ _ Hv') as (v & Hv & Hcar).
  rewrite Hi in Hv. injection Hv as <-. destruct Hcar as (r' & -> & Ec & Es & Er). exists r'.
  assert (Ep : String.prefix "attachment/" (attachmentKey i) = true) by (by destruct i). rewrite Ep in Es.
  split; [done|split; [done|split; [exact Es|]]]. destruct Er as [Er|Er]; [by left|]. destruct (decide (sp_source s = "local")) as [El|El]; [left|by right].
  specialize (mv_local0 El). rewrite mv_local0, map_lookup_imap, Hi in Hv'. simpl in Hv'. injection Hv' as E.
  destruct (_ && _) in E; by injection E as <-.
Qed.

(** C19: Publishing. A move appends only messages that publish, publicly and
    under a key of their own, one of the user's and the assistant's texts of the
    conversation's local runs, none of which was public; a move to a local space
    appends nothing; and a move to a channel leaves none of those texts
    unpublished. *)
Theorem move_publishes chat target w w' : db_wf (w_db w) → MoveConversation chat target w = (Ok tt, w') →
  ∃ s new, find_space target (w_db w) = Some s ∧ messages (w_db w') = messages (w_db w) ++ new ∧
  (new ≠ [] → sp_source s ≠ "local") ∧
  (∀ x, x ∈ new → msg_conversation x = chat ∧ msg_run x = None ∧ mm_public (msg_body x) = true ∧ mm_tool_calls (msg_body x) = [] ∧
     ∃ t m r, channelTarget s = Some t ∧ mm_channel (msg_body x) = Some (mkChannelMessageSource [] t "" "" ("published-" +:+ decimal (msg_id m)) "published") ∧
       m ∈ messages (w_db w) ∧ msg_conversation m = chat ∧ (r ∈ runs (w_db w) ∧ msg_run m = Some (run_id r) ∧ run_entry r = "local") ∧
       mm_public (msg_body m) = false ∧ mm_channel (msg_body m) = None ∧ mm_role (msg_body m) ∈ ["user"; "assistant"] ∧
       mm_role (msg_body x) = mm_role (msg_body m) ∧ mm_content (msg_body x) = mm_content (msg_body m)) ∧
  (belongs chat target (w_db w) = false → sp_source s ≠ "local" → channelTarget s ≠ None →
     ∀ m, m ∈ messages (w_db w) → local_message chat (w_db w) m = true → publishable m = true → (0 < msg_id m)%Z →
     ∃ x, x ∈ messages (w_db w') ∧ msg_request_key x = publicationKey chat (msg_id m)).
Proof.
  intros Hwf Hm. destruct (move_moved _ _ _ _ Hwf Hm) as (c & s & Hc & Hs & Hmv). exists s.
  destruct Hmv as [[E ->]|[Hne Hmv]].
  { exists []. rewrite app_nil_r. split_and!; try done; [set_solver|]. unfold belongs. by rewrite Hc, bool_decide_eq_true_2. }
  destruct Hmv. destruct mv_messages0 as (new & Em & Hnew). rewrite Forall_forall in Hnew. exists new. split_and!; try done.
  - intros Hn. destruct new as [|x new]; [done|]. destruct (Hnew x ltac:(by left)) as (t & m & Hl & _). done.
  - intros x Hx. destruct (Hnew x Hx) as (t & m & Hl & Ht & Hrow & Epc & Epr & _ & refs & Eb).
    apply list_elem_of_filter in Hrow as [Hpub Hrow]. apply local_rows_elem in Hrow as (Hmm & Hloc & _).
    unfold local_message in Hloc. apply andb_true_iff in Hloc as [Hcv%bool_decide_eq_true Hloc].
    destruct (msg_run m) as [run|] eqn:Erun; [|done]. destruct (find_run run (w_db w)) as [r|] eqn:Er; [|done].
    apply andb_true_iff in Hloc as [Hentry%bool_decide_eq_true _]. apply find_elem in Er as [Hr Eid%bool_decide_eq_true].
    unfold publishable in Hpub. destruct (mm_channel (msg_body m)) eqn:Ech; [by rewrite andb_false_r in Hpub|]. bool_prop.
    rewrite Eb. split_and!; try done. exists t, m, r. split_and!; try done; [by rewrite Erun, Eid|].
    match goal with Hor : _ || _ = true |- _ => apply orb_true_iff in Hor as [Hor%bool_decide_eq_true|Hor%bool_decide_eq_true]; rewrite Hor; set_solver end.
  - intros _ Hl Ht m Hmm Hloc Hpub Hid. apply mv_complete0; [done|done|]. apply list_elem_of_filter. split; [done|].
    by apply local_rows_elem.
Qed.

(** The records of a deleted space. *)
Definition access_of (i k : string) (v : MetaValue) : bool :=
  String.prefix "telegram/access/" k && match v with MAccess g => bool_decide (ta_space g = i) | _ => false end.
Definition personal (i k : string) (_ : MetaValue) : bool :=
  bool_decide (k = permissionKey i) || String.prefix ("space/people/" +:+ i +:+ "/") k.

(** What is left of the records of metadata. *)
Lemma rehomed_lookup (p q : string → MetaValue → bool) (f : string → MetaValue → MetaValue) (m : gmap string MetaValue) k v :
  filter (λ kv, p kv.1 kv.2 = false) (filter (λ kv, q kv.1 kv.2 = false) (map_imap (λ k v, Some (f k v)) m)) !! k = Some v →
  p k v = false ∧ q k v = false ∧ ∃ v0, m !! k = Some v0 ∧ v = f k v0.
Proof.
  intros [[Hv Hq]%map_lookup_filter_Some Hp]%map_lookup_filter_Some. split; [done|split; [done|]].
  rewrite map_lookup_imap in Hv. destruct (m !! k) as [v0|]; [|done]. exists v0. by injection Hv as <-.
Qed.

(** Deleting a space is refused for the local one, while one of its runs is
    active and while one of its commands is left open. Otherwise exactly that
    space disappears; every conversation of it is a conversation of the local
    space and no other conversation changes; runs, calls and messages stay; its
    permission, its people's and the Telegram access bound to it are gone, and
    its attachments belong to the local space. *)
Theorem delete_space_effect i w : db_wf (w_db w) →
  match DeleteSpace i w with
  | (Err _, w') => w_db w' = w_db w
  | (Ok _, w') =>
      let d := w_db w in let d' := w_db w' in
      i ≠ LocalSpaceID ∧
      (∀ r c, r ∈ runs d → c ∈ conversations d → cv_space c = i → run_conversation r = cv_id c → activeRunPredicate r = false) ∧
      (∀ c, c ∈ conversations d → cv_space c = i → busy_command d (cv_id c) = false) ∧
      map sp_id (spaces d') = filter (λ j, j ≠ i) (map sp_id (spaces d)) ∧
      map (λ c, (cv_id c, cv_space c)) (conversations d') =
        map (λ c, (cv_id c, if bool_decide (cv_space c = i) then LocalSpaceID else cv_space c)) (conversations d) ∧
      runs d' = runs d ∧ attempts d' = attempts d ∧ messages d' = messages d ∧
      meta d' !! permissionKey i = None ∧ (∀ p, meta d' !! ("space/people/" +:+ i +:+ "/" +:+ p) = None) ∧
      (∀ p g, meta d' !! ("telegram/access/" +:+ p) = Some (MAccess g) → ta_space g ≠ i) ∧
      (∀ k r, meta d' !! attachmentKey k = Some (MAttachment r) → at_space r ≠ i)
  end.
Proof.
  intros Hwf. destruct (DeleteSpace i w) as [[[]|e] w'] eqn:E.
  2: { unfold DeleteSpace in E. apply bind_err in E as [E|([] & w1 & [_ <-]%guard_ok & E)].
       - unfold guard_ in E. destruct (negb _); [done|]. by injection E as _ <-.
       - apply transaction_err in E. by rewrite E. }
  apply deleteSpace_ok in E as (Hl & Hidle & Hcmd & now & w1 & Ec & Es & Er & Ea & Em & Emeta & Hwf1 & Href).
  specialize (Hwf1 Hwf). pose proof (refresh_ok _ _ _ _ Hwf1 Href) as (s & cur & act & n & _ & _ & Ew').
  destruct (refresh_frame _ _ _ _ Hwf1 Href) as (A1 & A2 & A3 & A4 & A5 & _). cbv zeta.
  assert (Hmeta : ∀ k v, meta (w_db w') !! k = Some v →
    String.prefix "telegram/access/" k && match v with MAccess g => bool_decide (ta_space g = i) | _ => false end = false ∧
    bool_decide (k = permissionKey i) || String.prefix ("space/people/" +:+ i +:+ "/") k = false ∧
    ∃ v0, meta (w_db w) !! k = Some v0 ∧ v = rehome (λ r, bool_decide (at_space r = i)) LocalSpaceID k v0).
  { intros k v. rewrite A5, Emeta. exact (rehomed_lookup (access_of i) (personal i) _ _ k v). }
  clear Emeta A5. split_and!; try done; try congruence.
  - rewrite Ew'. simpl. rewrite (map_update_rows sp_id); [|done]. rewrite Es. clear.
    induction (spaces (w_db w)) as [|x l IH]; [done|]. rewrite filter_cons. simpl map at 2. rewrite filter_cons.
    destruct (decide (sp_id x ≠ i)); simpl; by rewrite IH.
  - rewrite A1, Ec. unfold update_rows. rewrite map_map. apply map_ext. intros c. by case_bool_decide.
  - apply eq_None_not_Some. intros [v Hv]. apply Hmeta in Hv as (_ & Hp & _).
    apply orb_false_iff in Hp as [Hp _]. by rewrite bool_decide_eq_true_2 in Hp.
  - intros p. apply eq_None_not_Some. intros [v Hv]. apply Hmeta in Hv as (_ & Hp & _).
    apply orb_false_iff in Hp as [_ Hp].
    replace ("space/people/" +:+ i +:+ "/" +:+ p) with (("space/people/" +:+ i +:+ "/") +:+ p) in Hp by (by rewrite !append_assoc).
    by rewrite prefix_app in Hp.
  - intros p g Hv Eg. apply Hmeta in Hv as (Hp & _).
    rewrite prefix_app, bool_decide_eq_true_2 in Hp by done. done.
  - intros k r Hv. apply Hmeta in Hv as (_ & _ & v & Hv & Ev).
    destruct v as [| | | | | | |x| | | | | | | |]; try done. unfold rehome, attachmentKey in Ev. rewrite prefix_app in Ev. cbn in Ev.
    case_bool_decide as Ei; injection Ev as ->; [|done]. intros Hi. by rewrite <- Hi in Hl.
Qed.
End methods.

(** ** A conversation moved to a paired channel *)
Module SpaceDemo.
Export Demo.
#[export] Existing Instances Demo.host Demo.checks.
Definition target : ChannelTarget := mkChannelTarget "telegram" "bot" "42".
Definition paired : world := (PairChannel target "private" "Chat" "/w" empty).2.
Definition channel : string := match spaces (w_db paired) with _ :: s :: _ => sp_id s | _ => "" end.
Definition created : world := (createRunWithTool "local" "" "c" "k1" "do it" config false None paired).2.
Definition run : Run := match runs (w_db created) with r :: _ => r | [] => Demo.run end.
Definition started : world := (startGuardedModel run request 5 None created).2.
Definition attempt : Attempt := match attempts (w_db started) with a :: _ => a | [] => model_attempt end.
Definition answered : world := (saveGuardedModel run attempt (mkModelResponse "done" [] None) None 1 started).2.
Definition moved_world : world := (MoveConversation "c" channel answered).2.

Lemma empty_routes : routes_ok (w_db empty).
Proof.
  intros s Hs. apply list_elem_of_singleton in Hs as ->. split; [|done].
  intros p [-> | ->] _; vm_compute; reflexivity.
Qed.
Lemma reach_paired : rtc op_step empty paired.
Proof. apply rtc_once, os_space, (os_pairChannel empty target "private" "Chat" "/w"). Qed.
Lemma reach_answered : rtc op_step empty answered.
Proof.
  etrans; [exact reach_paired|]. transitivity created; [|transitivity started].
  - exact (rtc_once _ _ (os_run _ _ (os_createRun paired "local" "" "c" "k1" "do it" config false None))).
  - exact (rtc_once _ _ (os_run _ _ (os_startModel created run request 5 None))).
  - exact (rtc_once _ _ (os_run _ _ (os_saveModel started run attempt (mkModelResponse "done" [] None) None 1))).
Qed.
Lemma wf_answered : db_wf (w_db answered).
Proof. apply (reach_ok empty answered reach_answered), wf_empty. Qed.
Lemma moves : MoveConversation "c" channel answered = (Ok tt, moved_world).
Proof. vm_compute. reflexivity. Qed.
End SpaceDemo.
Import SpaceDemo.

Lemma move_conversation_effect_witness :
  ∃ s, find_space channel (w_db answered) = Some s ∧ sp_source s = "telegram" ∧
    runs (w_db moved_world) = runs (w_db answered) ∧
    option_map cv_space (find_conversation "c" (w_db moved_world)) = Some channel.
Proof.
  destruct (move_conversation_effect "c" channel answered moved_world wf_answered moves) as (c & s & Hc & Hs & _ & Hm).
  exists s. split; [exact Hs|]. vm_compute in Hs. injection Hs as <-. vm_compute in Hc. injection Hc as <-.
  split; [reflexivity|]. destruct Hm as (_ & _ & Hq & Hr & _); [vm_compute; discriminate|].
  split; [exact Hr|]. rewrite Hq. reflexivity.
Defined.

Lemma move_publishes_witness :
  ∃ new, messages (w_db moved_world) = messages (w_db answered) ++ new ∧ length new = 2%nat ∧
    ∀ x, x ∈ new → mm_public (msg_body x) = true.
Proof.
  destruct (move_publishes "c" channel answered moved_world wf_answered moves) as (s & new & _ & Em & _ & Hx & _).
  exists new. split; [exact Em|]. split; [|intros x Hn; apply (Hx x Hn)].
  apply (f_equal length) in Em. rewrite length_app in Em. vm_compute in Em. injection Em as Em. symmetry. exact Em.
Defined.

Lemma delete_space_effect_witness :
  runs (w_db (DeleteSpace channel moved_world).2) = runs (w_db moved_world) ∧
  map sp_id (spaces (w_db (DeleteSpace channel moved_world).2)) = ["local"].
Proof.
  assert (Hwf : db_wf (w_db moved_world)).
  { apply (reach_ok answered moved_world); [|exact wf_answered].
    exact (rtc_once _ _ (os_space _ _ (os_moveConversation answered "c" channel))). }
  pose proof (delete_space_effect channel moved_world Hwf) as Hd.
  assert (E : DeleteSpace channel moved_world = (Ok tt, (DeleteSpace channel moved_world).2)) by (vm_compute; reflexivity).
  rewrite E in Hd. destruct Hd as (_ & _ & _ & Hsp & _ & Hr & _). split; [exact Hr|]. rewrite Hsp. vm_compute. reflexivity.
Defined.
