(* ===== verification/StoreRuns.v ===== *)
(** * The store: creating, retrying and ending runs

    What [createRunWithTool], [reserveModelRetry], [saveGuardedModel] and
    [Abandon] guarantee about the rows they write. *)

From S2P Require Import Prelude Data Sql Store StoreInv StoreProps.

Section runs.
Context {H : Host} {RC : ReadChecks}.

(** ** Retries *)
Lemma reserveModelRetry_ok run r n w w' :
  reserveModelRetry run r n w = (Ok tt, w') →
  (mr_number r <= n)%Z ∧
  mr_number r = (match meta (w_db w) !! recoveryKey (mr_root r) with
                 | Some (MRecovery o) => mr_number o | _ => 0 end + 1)%Z ∧
  meta (w_db w') !! recoveryKey (mr_root r) = Some (MRecovery r) ∧
  ∃ a, a ∈ attempts (w_db w) ∧ att_id a = mr_previous r ∧ att_kind a = KModel ∧
       (att_status a = AFinished ∨ att_status a = AUnknown).
Proof.
  intros Hr. unfold reserveModelRetry in Hr. rewrite transaction_ok in Hr.
  rewrite bind_query in Hr. unfold id in Hr. apply bind_ok in Hr as (old & w1 & Hold & Hr).
  assert (w1 = w ∧ old = match meta (w_db w) !! recoveryKey (mr_root r) with
                 | Some (MRecovery o) => mr_number o | _ => 0%Z end) as [-> ->].
  { destruct (meta _ !! _) as [[]|]; inversion Hold; done. }
  apply bind_ok in Hr as ([] & w1 & [Hg <-]%guard_ok & Hr).
  apply andb_true_iff in Hg as [Hnum%bool_decide_eq_true Hn%Z.leb_le].
  apply bind_ok in Hr as (a & w1 & Ha & Hr).
  destruct (List.find _ _) as [b|] eqn:Ef; [|done]. injection Ha as -> <-.
  apply find_elem in Ef as [Hin [Hid%bool_decide_eq_true _]%andb_true_iff].
  apply bind_ok in Hr as ([] & w1 & [Hk <-]%guard_ok & Hr).
  apply andb_true_iff in Hk as [[Hk%bool_decide_eq_true Hst]%andb_true_iff _].
  apply bind_ok in Hr as ([] & w1 & E & Hr). injection E as <-.
  apply bind_ok in Hr as (k & w2 & Hu & [_ <-]%guard_ok).
  unfold update_status in Hu. apply bind_ok in Hu as (now & w3 & E & Hu). injection E as <- <-.
  apply update_runs_ok in Hu as (_ & _ & ->). simpl.
  split; [done|]. split; [done|]. split; [apply lookup_insert_eq|].
  exists a. repeat split; try done. apply orb_true_iff in Hst as [?%bool_decide_eq_true|?%bool_decide_eq_true]; auto.
Qed.

(** Retries of one model call are reserved with strictly increasing
    numbers bounded by the configured limit, across any interleaving and
    restart; so at most [limit] retries of a call are ever reserved. *)
Theorem retry_numbers_increase run r n w w1 w2 run' r' n' w3 :
  db_wf (w_db w) → (0 <= mr_number r)%Z →
  reserveModelRetry run r n w = (Ok tt, w1) → rtc op_step w1 w2 →
  reserveModelRetry run' r' n' w2 = (Ok tt, w3) → mr_root r' = mr_root r →
  (mr_number r < mr_number r' <= n')%Z.
Proof.
  intros Hwf H0 Hr Hreach Hr' Hroot.
  assert (Hwf1 : db_wf (w_db w1)) by (by apply (steps_from _ _ _ _ (steps_reserveModelRetry run r n) Hr)).
  apply reserveModelRetry_ok in Hr as (_ & _ & Hm & _).
  apply reserveModelRetry_ok in Hr' as (Hn & Hnum & _ & _).
  destruct (reach_ok _ _ Hreach Hwf1) as [_ [Hmeta _ _ _]].
  destruct (ml_retry _ _ Hmeta _ _ Hm) as (o & Ho & Hle). rewrite Hroot, Ho in Hnum. lia.
Qed.

(** ** Creating a run *)
Lemma insert_run_ok r u w w' :
  insert_run r w = (Ok u, w') →
  ∃ s, s ∈ runs (w_db w') ∧ run_id s = run_id r ∧ run_conversation s = run_conversation r ∧
       run_request_key s = run_request_key r ∧ run_prompt s = run_prompt r ∧
       run_config s = run_config r ∧ run_status s = run_status r ∧ run_steps s = run_steps r.
Proof.
  intros Hi. unfold insert_run in Hi. apply bind_ok in Hi as (c & v1 & [_ <-]%query_row_ok & Hi).
  rewrite bind_query in Hi. unfold id in Hi.
  apply bind_ok in Hi as ([] & v1 & [_ <-]%guard_ok & Hi). apply write_ok in Hi as ->. simpl.
  eexists. split; [apply elem_of_app; right; by apply list_elem_of_singleton|done].
Qed.

Lemma checkConversationCommandsTx_ok chat u w w' :
  checkConversationCommandsTx chat w = (Ok u, w') → w' = w.
Proof. intros Hc. unfold checkConversationCommandsTx in Hc. rewrite bind_query in Hc. by apply guard_ok in Hc as [_ <-]. Qed.

Lemma successorTx_ok parent chat next w w' :
  successorTx parent chat w = (Ok next, w') →
  w' = w ∧ next = meta_text (limitNextKey parent) (w_db w) ∧
  ∃ r, find_run parent (w_db w) = Some r ∧ run_conversation r = chat ∧ run_status r = Limited ∧
       String.prefix settledLimitPrefix (run_stop_reason r) = true ∧ unsettled parent (w_db w) = 0%nat.
Proof.
  intros Hs. unfold successorTx in Hs. apply bind_ok in Hs as (r & w1 & [Hr <-]%query_row_ok & Hs).
  apply bind_ok in Hs as ([] & w1 & [Hg <-]%guard_ok & Hs). rewrite bind_query in Hs. unfold id in Hs.
  apply bind_ok in Hs as ([] & w1 & [Hu%bool_decide_eq_true <-]%guard_ok & Hs).
  apply bind_ok in Hs as ([] & w1 & ->%checkConversationCommandsTx_ok & [<- <-]%ret_ok).
  apply andb_true_iff in Hg as [[?%bool_decide_eq_true ?%bool_decide_eq_true]%andb_true_iff ?].
  repeat split. eauto 10.
Qed.

Lemma freezeChannel_ok chat dfr cfg w cfg' w' :
  freezeChannel chat dfr cfg w = (Ok cfg', w') →
  rc_attachments cfg' = rc_attachments cfg ∧ rc_continuation_of cfg' = rc_continuation_of cfg.
Proof.
  intros Hf. unfold freezeChannel in Hf. destruct dfr as [d0|]; [|by injection Hf as <- _].
  destruct (in_channel d0); [|by injection Hf as <- _].
  apply bind_ok in Hf as (? & ? & _ & Hf). destruct (rc_channel cfg); [by injection Hf as <- _|done].
Qed.

(** What a call that created a run did. *)
Lemma createRun_created i al chat key prompt cfg mnt call w f w' :
  createRunWithTool i al chat key prompt cfg mnt call w = (Ok (f, true), w') → db_wf (w_db w) →
  find_by_request chat key (w_db w) = None ∧
  count_if (λ r, bool_decide (run_conversation r = chat) && activeRunPredicate r) (runs (w_db w)) = 0%nat ∧
  run_status (rf_run f) = Running ∧
  (∃ s, s ∈ runs (w_db w') ∧ run_id s = run_id (rf_run f) ∧ run_conversation s = chat ∧
        run_request_key s = key ∧ run_prompt s = prompt ∧
        rc_attachments (run_config s) = rc_attachments cfg) ∧
  (rc_continuation_of cfg ≠ "" →
     meta (w_db w') !! limitNextKey (rc_continuation_of cfg) = Some (MText (run_id (rf_run f)))).
Proof.
  intros Hc Hwf. assert (Hwf' : db_wf (w_db w')).
  { by apply (createRun_step _ _ _ _ _ _ _ _ _ _ _ Hc). }
  unfold createRunWithTool in Hc. apply bind_ok in Hc as ([] & w0 & [_ <-]%guard_ok & Hc).
  apply transaction_ok, bind_ok in Hc as ([] & w0 & Hl & Hc).
  assert (w0 = w) as -> by (apply bind_ok in Hl as (? & ? & [_ <-]%query_row_ok & [_ <-]%ret_ok); done).
  rewrite bind_query in Hc. unfold id in Hc.
  destruct (find_by_request chat key (w_db w)) as [e|] eqn:Ee.
  { apply bind_ok in Hc as ([] & ? & _ & [E _]%ret_ok). by injection E. }
  apply bind_ok in Hc as (next & w1 & Hnext & Hc).
  destruct (negb (bool_decide (next = ""))) eqn:En.
  { apply bind_ok in Hc as (? & ? & _ & [E _]%ret_ok). by injection E. }
  assert (Hs1 : step_ok (w_db w) (w_db w1)).
  { eapply steps_from; [|exact Hnext]. solve_steps. apply steps_successorTx. }
  apply bind_ok in Hc as ([] & w2 & Hb & Hc).
  apply bind_ok in Hc as ([] & w3 & [Hact%bool_decide_eq_true <-]%guard_ok & Hc).
  apply bind_ok in Hc as (dfr & w4 & Hd & Hc). apply bind_ok in Hc as (rid & w5 & E & Hc). injection E as <- <-.
  apply bind_ok in Hc as (t1 & w6 & E & Hc). injection E as <- <-.
  apply bind_ok in Hc as (t2 & w7 & E & Hc). injection E as <- <-.
  apply bind_ok in Hc as (cfg' & w8 & Hfz & Hc).
  destruct (freezeChannel_ok _ _ _ _ _ _ Hfz) as [Hatt Hcont].
  apply bind_ok in Hc as ([] & w9 & Hins & Hc). set (r := mkRun _ _ _ _ _ _ _ _ _ _ _ _ _ _ _) in *.
  destruct (insert_run_ok _ _ _ _ Hins) as (s & Hs & Hid & Hcv & Hk & Hp & Hcf & Hst & _).
  apply bind_ok in Hc as ([] & w10 & Hba & Hc). apply bind_ok in Hc as ([] & w11 & Hat & Hc).
  apply bind_ok in Hc as ([] & w12 & Hca & Hc). apply bind_ok in Hc as ([] & w13 & Hm & Hc).
  apply ret_ok in Hc as [E <-]. injection E as <-.
  split; [done|]. split; [done|].
  assert (Hf : rf_run (withModelFacts r) = r) by done. rewrite Hf. split; [done|]. split.
  - assert (Hev : step_ok (w_db w9) (w_db w13)).
    { etrans; [exact (steps_from _ _ _ _ (steps_bindAttachments _ _ _ _) Hba)|].
      etrans; [exact (along_from _ step_ok _ _ _ _ (steps_attachTrigger _ _ _ _) _ Hat)|].
      etrans; [exact (steps_from _ _ _ _ (steps_attachCall _ _) Hca)|].
      eapply steps_from; [|exact Hm]. solve_steps. }
    assert (Hw9 : db_wf (w_db w9)).
    { eapply (steps_from _ _ _ _ (steps_insert_run r) Hins).
      eapply (steps_from _ _ _ _ (steps_freezeChannel _ _ _) Hfz). simpl.
      eapply (steps_from _ _ _ _ (steps_deferredInput _ _ _) Hd).
      eapply steps_from in Hb; [apply Hb|solve_steps; apply steps_branchSourceReady]. by apply Hs1. }
    destruct (Hev Hw9) as [_ Hle]. destruct (run_evolves _ _ _ Hle Hs) as (s' & Hs' & []).
    exists s'. repeat split; try done; simpl in *; try congruence.
  - intros Hne. rewrite Hcont, bool_decide_eq_false_2 in Hm by done. unfold meta_insert in Hm.
    rewrite bind_query in Hm. apply bind_ok in Hm as ([] & ? & [_ <-]%guard_ok & ->%write_ok).
    apply lookup_insert_eq.
Qed.

Lemma lockConversationTx_wf d r ids ticks :
  db_wf d → r ∈ runs d →
  lockConversationTx (run_conversation r) (mkWorld d ids ticks) = (Ok tt, mkWorld d ids ticks).
Proof.
  intros Hwf Hr. destruct (wf_run_conversation _ Hwf r Hr) as (c & Hc & He).
  unfold lockConversationTx, query_row, mbind, M_bind. simpl.
  unfold find_conversation. destruct (List.find _ _) as [x|] eqn:E; [done|].
  rewrite list_elem_of_In in Hc. pose proof (List.find_none _ _ E _ Hc) as Hn. simpl in Hn.
  by rewrite bool_decide_eq_true_2 in Hn.
Qed.

(** The request key identifies the run. *)
Lemma find_by_request_wf d r :
  db_wf d → r ∈ runs d → find_by_request (run_conversation r) (run_request_key r) d = Some r.
Proof.
  intros Hwf Hr. apply find_unique; [done|by rewrite !bool_decide_eq_true_2|].
  intros s Hs [He%bool_decide_eq_true Hk%bool_decide_eq_true]%andb_true_iff.
  pose proof (wf_runs _ Hwf) as Hc. unfold runs_constraints in Hc. bool_prop.
  eapply (NoDup_map_inj (λ r, (run_conversation r, run_request_key r))); eauto. simpl. congruence.
Qed.

Lemma write_once_limitNext p : write_once (limitNextKey p) = true.
Proof. unfold write_once, limitNextKey. simpl. by destruct p. Qed.

Lemma withModelFacts_id r : run_id (rf_run (withModelFacts r)) = run_id r.
Proof. unfold withModelFacts. by case_match. Qed.

(** What a call with the key of a stored run answers. *)
Lemma createRun_existing i al key prompt cfg mnt call w r :
  db_wf (w_db w) → r ∈ runs (w_db w) → run_request_key r = key → key ≠ "" → prompt ≠ "" →
  createRunWithTool i al (run_conversation r) key prompt cfg mnt call w =
    (if bool_decide (run_prompt r = prompt) && bool_decide (rc_attachments (run_config r) = rc_attachments cfg)
     then Ok (withModelFacts r, false) else Err ErrRequestKey, w).
Proof.
  intros Hwf Hr <- Hk Hp. unfold createRunWithTool.
  rewrite (bool_decide_eq_false_2 (run_request_key r = "")), (bool_decide_eq_false_2 (prompt = "")) by done. simpl.
  destruct w as [d ids ticks]. unfold mbind at 1, M_bind at 1, mret at 1, M_ret at 1.
  unfold transaction, mbind at 1, M_bind at 1. rewrite lockConversationTx_wf by done.
  rewrite bind_query. unfold id. simpl in *. rewrite find_by_request_wf by done.
  unfold mbind, M_bind. by destruct (_ && _).
Qed.

(** C8: a request key creates its run once: at any later point, whatever
    happened in between, the same key with the same prompt and attachments
    answers the same run and changes nothing, and with another prompt it is
    refused and changes nothing. *)
Theorem createRun_idempotent i al chat key prompt cfg mnt call w f w1 w2 i' al' prompt' cfg' mnt' call' :
  db_wf (w_db w) →
  createRunWithTool i al chat key prompt cfg mnt call w = (Ok (f, true), w1) → rtc op_step w1 w2 →
  (prompt' ≠ "" → prompt' ≠ prompt →
   createRunWithTool i' al' chat key prompt' cfg' mnt' call' w2 = (Err ErrRequestKey, w2)) ∧
  (rc_attachments cfg' = rc_attachments cfg →
   ∃ f', createRunWithTool i' al' chat key prompt cfg' mnt' call' w2 = (Ok (f', false), w2) ∧
         run_id (rf_run f') = run_id (rf_run f)).
Proof.
  intros Hwf Hc Hreach.
  assert (Hne : key ≠ "" ∧ prompt ≠ "").
  { unfold createRunWithTool in Hc. apply bind_ok in Hc as ([] & w0 & [Hg _]%guard_ok & _). bool_prop. done. }
  assert (Hwf1 : db_wf (w_db w1)).
  { by apply (createRun_step _ _ _ _ _ _ _ _ _ _ _ Hc). }
  apply createRun_created in Hc as (_ & _ & _ & (s & Hs & Hid & Hcv & Hk & Hp & Hat) & _); [|done].
  destruct (reach_ok _ _ Hreach Hwf1) as [Hwf2 Hle].
  destruct (run_evolves _ _ _ Hle Hs) as (s2 & Hs2 & []).
  replace chat with (run_conversation s2) by congruence. split.
  - intros Hp' Hpp. erewrite createRun_existing; [|done..|congruence|tauto|done].
    rewrite bool_decide_eq_false_2 by congruence. done.
  - intros Hatt. erewrite createRun_existing; [|done..|congruence|tauto|tauto].
    rewrite !bool_decide_eq_true_2 by congruence. eexists. split; [done|].
    rewrite withModelFacts_id. congruence.
Qed.

Lemma Atomic_createRun i al chat key prompt cfg mnt call :
  Atomic (createRunWithTool i al chat key prompt cfg mnt call).
Proof. unfold createRunWithTool. solve_atomic. Qed.

Lemma createRun_frame i al chat key prompt cfg mnt call w r w' :
  createRunWithTool i al chat key prompt cfg mnt call w = (r, w') →
  (∀ f, r ≠ Ok (f, true)) → w_db w' = w_db w.
Proof.
  intros Hc Hr. unfold createRunWithTool in Hc.
  destruct r as [[f b]|e].
  - apply bind_ok in Hc as ([] & w0 & [_ <-]%guard_ok & Hc).
    rewrite transaction_ok in Hc. apply bind_ok in Hc as ([] & w0 & Hl & Hc).
    assert (w0 = w) as -> by (apply bind_ok in Hl as (? & ? & [_ <-]%query_row_ok & [_ <-]%ret_ok); done).
    rewrite bind_query in Hc. unfold id in Hc.
    destruct (find_by_request chat key (w_db w)) as [e|] eqn:Ee.
    { by apply bind_ok in Hc as ([] & ? & [_ <-]%guard_ok & [_ <-]%ret_ok). }
    apply bind_ok in Hc as (next & w1 & Hnext & Hc).
    destruct (negb (bool_decide (next = ""))) eqn:En.
    { apply bind_ok in Hc as (? & ? & [_ <-]%query_row_ok & [_ <-]%ret_ok).
      destruct (bool_decide (rc_continuation_of cfg = "")); [by apply ret_ok in Hnext as [_ <-]|].
      by apply successorTx_ok in Hnext as (-> & _). }
    exfalso. repeat (apply bind_ok in Hc as (? & ? & _ & Hc)). apply ret_ok in Hc as [E _].
    injection E as <- <-. by eapply Hr.
  - revert Hc. apply (Atomic_createRun i al chat key prompt cfg mnt call).
Qed.

(** A conversation has one active run: while a run is active in it, no
    call creates another, and whatever the call answers the database is
    unchanged. *)
Theorem createRun_one_active i al chat key prompt cfg mnt call w res w' r :
  db_wf (w_db w) → r ∈ runs (w_db w) → run_conversation r = chat → activeRunPredicate r = true →
  createRunWithTool i al chat key prompt cfg mnt call w = (res, w') →
  (∀ f, res ≠ Ok (f, true)) ∧ w_db w' = w_db w.
Proof.
  intros Hwf Hr Hcv Hact Hc. assert (Hn : ∀ f, res ≠ Ok (f, true)).
  { intros f ->. apply createRun_created in Hc as (_ & Hz & _); [|done].
    rewrite count_if_zero in Hz. specialize (Hz r Hr). simpl in Hz.
    by rewrite Hact, bool_decide_eq_true_2 in Hz. }
  split; [done|]. by eapply createRun_frame.
Qed.

(** A settled limited run has one saved successor: once a continuation was
    created from it, no later call creates another, and a call with a new key
    that continues it answers the saved one. *)
Theorem successor_unique i al chat key prompt cfg mnt call w f w1 w2
    i' al' key' prompt' cfg' mnt' call' res w3 :
  db_wf (w_db w) →
  createRunWithTool i al chat key prompt cfg mnt call w = (Ok (f, true), w1) →
  rc_continuation_of cfg ≠ "" → run_id (rf_run f) ≠ "" → rtc op_step w1 w2 →
  rc_continuation_of cfg' = rc_continuation_of cfg →
  createRunWithTool i' al' chat key' prompt' cfg' mnt' call' w2 = (res, w3) →
  match res with
  | Ok (f', created) => created = false ∧ w_db w3 = w_db w2 ∧
      (find_by_request chat key' (w_db w2) = None → run_id (rf_run f') = run_id (rf_run f))
  | Err _ => w_db w3 = w_db w2
  end.
Proof.
  intros Hwf Hc Hne Hid Hreach Hcont Hc'.
  assert (Hwf1 : db_wf (w_db w1)).
  { by apply (createRun_step _ _ _ _ _ _ _ _ _ _ _ Hc). }
  apply createRun_created in Hc as (_ & _ & _ & _ & Hm); [|done]. specialize (Hm Hne).
  destruct (reach_ok _ _ Hreach Hwf1) as [_ [[Honce _] _ _ _]].
  apply Honce in Hm; [|apply write_once_limitNext|done].
  destruct res as [[f' b]|e]; [|by eapply Atomic_createRun].
  pose proof Hc' as Hframe. apply createRun_frame in Hframe as Hf; unfold createRunWithTool in Hc';
  apply bind_ok in Hc' as ([] & v0 & [_ <-]%guard_ok & Hc'); rewrite transaction_ok in Hc';
  apply bind_ok in Hc' as ([] & v0 & Hl & Hc');
  (assert (v0 = w2) as -> by (apply bind_ok in Hl as (? & ? & [_ <-]%query_row_ok & [_ <-]%ret_ok); done));
  rewrite bind_query in Hc'; unfold id in Hc';
  destruct (find_by_request chat key' (w_db w2)) as [e|] eqn:Ee.
  1,3: apply bind_ok in Hc' as ([] & ? & _ & [E _]%ret_ok); injection E as <- <-; done.
  all: apply bind_ok in Hc' as (next & v1 & Hnext & Hc');
    rewrite Hcont, bool_decide_eq_false_2 in Hnext by done;
    apply successorTx_ok in Hnext as (-> & -> & _); unfold meta_text in Hc'; rewrite Hm in Hc';
    rewrite (bool_decide_eq_false_2 (run_id (rf_run f) = "")) in Hc' by done; simpl in Hc';
    apply bind_ok in Hc' as (r & v2 & [Hr _]%query_row_ok & [E _]%ret_ok); injection E as <- <-.
  - split; [done|]. split; [done|]. intros _. rewrite withModelFacts_id.
    by apply find_run_in in Hr as [_ ?].
  - done.
Qed.
End runs.

(** ** Witnesses *)
#[local] Existing Instances Demo.host Demo.checks.

Module RunsDemo.
Import Demo.
Definition failed : CallError := mkCallError true "busy" "rate_limit" 0.
Definition w3f : world := (failModel run model_attempt (mkModelResponse "" [] None) failed None 1 w2).2.
Definition retry (n : Z) : ModelRecovery := mkModelRecovery (att_id model_attempt) (att_id model_attempt) n "rate_limit" "m".
Definition w4r : world := (reserveModelRetry run (retry 1) 3 w3f).2.
Definition w5r : world := (reserveModelRetry run (retry 2) 3 w4r).2.

Lemma retry1 : reserveModelRetry run (retry 1) 3 w3f = (Ok tt, w4r).
Proof. vm_compute. reflexivity. Qed.
Lemma retry2 : reserveModelRetry run (retry 2) 3 w4r = (Ok tt, w5r).
Proof. vm_compute. reflexivity. Qed.
Lemma wf_w3f : db_wf (w_db w3f).
Proof.
  eapply (reach_ok empty w3f); [|apply wf_empty].
  eapply rtc_l; [apply os_run, (os_createRun empty "local" "" "c" "k1" "do it" config false None)|].
  eapply rtc_l; [apply os_run, (os_startModel w1 run request 5 None)|].
  apply rtc_once. unfold w3f. apply os_run, (os_failModel w2 run model_attempt (mkModelResponse "" [] None) failed None 1).
Qed.

(** A limited run, settled, and its successor. *)
Definition wl : world := (FinishRun (run_id run) Limited (Error ErrStepLimit) w1).2.
Definition limited : Run := match find_run (run_id run) (w_db wl) with Some r => r | None => run end.
Definition ws : world := (settleLimited (withModelFacts limited) wl).2.
Definition config2 : RunConfig := mkRunConfig "" (run_id run) [] None no_selection None None "/w" 16.
Definition succ := createRunWithTool "local" "" "c" "k2" "go on" config2 false None ws.
Definition succ_facts : RunFacts :=
  match succ.1 with Ok (f, _) => f | Err _ => mkFacts run false end.
Lemma succ_ok : succ = (Ok (succ_facts, true), succ.2).
Proof. vm_compute. reflexivity. Qed.
Lemma wf_w1 : db_wf (w_db w1).
Proof.
  eapply (reach_ok empty w1); [|apply wf_empty]. apply rtc_once.
  apply os_run, (os_createRun empty "local" "" "c" "k1" "do it" config false None).
Qed.
Lemma wf_ws : db_wf (w_db ws).
Proof.
  eapply (reach_ok w1 ws); [|apply wf_w1].
  eapply rtc_l; [apply os_run, (os_finishRun w1 (run_id run) Limited (Error ErrStepLimit))|].
  apply rtc_once. apply os_run, (os_settleLimited wl (withModelFacts limited)).
Qed.
Lemma created_ok : createRunWithTool "local" "" "c" "k1" "do it" config false None empty
  = (Ok (withModelFacts run, true), w1).
Proof. vm_compute. reflexivity. Qed.
End RunsDemo.
Import Demo RunsDemo.

Lemma retry_numbers_increase_witness : (1 < 2 <= 3)%Z.
Proof.
  exact (retry_numbers_increase Demo.run (retry 1) 3 w3f w4r w4r Demo.run (retry 2) 3 w5r wf_w3f
           ltac:(vm_compute; discriminate) retry1 (rtc_refl _ _) retry2 eq_refl).
Defined.

Lemma createRun_idempotent_witness :
  createRunWithTool "x" "" "c" "k1" "other" Demo.config true None Demo.w1 = (Err ErrRequestKey, Demo.w1).
Proof.
  exact (proj1 (createRun_idempotent "local" "" "c" "k1" "do it" Demo.config false None Demo.empty _ Demo.w1 Demo.w1
           "x" "" "other" Demo.config true None wf_empty created_ok (rtc_refl _ _))
         ltac:(discriminate) ltac:(discriminate)).
Defined.

Lemma run_in_w1 : run_id Demo.run = "x" ∧ ∃ r, r ∈ runs (w_db Demo.w1) ∧ run_conversation r = "c" ∧ activeRunPredicate r = true.
Proof. split; [reflexivity|]. vm_compute. eexists. split; [left|split; reflexivity]. Qed.

Lemma createRun_one_active_witness :
  ∃ r, r ∈ runs (w_db Demo.w1) ∧ w_db (createRunWithTool "x" "" "c" "k9" "other" Demo.config true None Demo.w1).2 = w_db Demo.w1.
Proof.
  destruct run_in_w1 as (_ & r & Hr & Hc & Ha). exists r. split; [exact Hr|].
  exact (proj2 (createRun_one_active "x" "" "c" "k9" "other" Demo.config true None Demo.w1 _ _ r
    wf_w1 Hr Hc Ha (surjective_pairing _))).
Defined.

Lemma successor_unique_witness :
  match createRunWithTool "x" "" "c" "k3" "again" config2 false None succ.2 with
  | (Ok (f', created), w3) => created = false ∧ w_db w3 = w_db succ.2 ∧
      (find_by_request "c" "k3" (w_db succ.2) = None → run_id (rf_run f') = run_id (rf_run succ_facts))
  | (Err _, w3) => w_db w3 = w_db succ.2
  end.
Proof.
  pose proof (successor_unique "local" "" "c" "k2" "go on" config2 false None ws succ_facts succ.2 succ.2
    "x" "" "k3" "again" config2 false None _ _ wf_ws succ_ok ltac:(vm_compute; discriminate)
    ltac:(vm_compute; discriminate) (rtc_refl _ _) eq_refl (surjective_pairing _)) as Hs.
  destruct (createRunWithTool _ _ _ _ _ _ _ _ _) as [[[]|] ?]; exact Hs.
Defined.
