(* ===== verification/StoreCalls.v ===== *)
(** * The store: what saving a call's result does

    The effect of [saveGuardedModel] and [saveGuardedTool] on the rows, and
    the atomicity of the methods. *)

From S2P Require Import Prelude Data Sql Store StoreInv StoreProps.

(** ** Failures that are not output limits *)
Definition NoLimit {A} (m : M A) : Prop := ∀ w e w', m w = (Err e, w') → isOutputLimit e = false.

Lemma nolimit_bind {A B} (m : M A) (f : A → M B) : NoLimit m → (∀ a, NoLimit (f a)) → NoLimit (m ≫= f).
Proof. intros Hm Hf w e w' [?|(?&?&?&?)]%bind_err; [by eapply Hm|by eapply Hf]. Qed.
Lemma nolimit_ret {A} (a : A) : NoLimit (mret a). Proof. by intros ???. Qed.
Lemma nolimit_query {A} (f : db → A) : NoLimit (query f). Proof. by intros ???. Qed.
Lemma nolimit_write f : NoLimit (write f). Proof. by intros ???. Qed.
Lemma nolimit_newID {H : Host} : NoLimit newID. Proof. by intros ???. Qed.
Lemma nolimit_nowText {H : Host} : NoLimit nowText. Proof. by intros ???. Qed.
Lemma nolimit_fail {A} e : isOutputLimit e = false → NoLimit (A:=A) (fail e).
Proof. by intros E w x w' [= <- _]. Qed.
Lemma nolimit_guard b e : isOutputLimit e = false → NoLimit (guard_ b e).
Proof. intros E. destruct b; [apply nolimit_ret|by apply nolimit_fail]. Qed.
Lemma nolimit_query_row {A} (f : db → option A) : NoLimit (query_row f).
Proof. intros w e w'. unfold query_row. destruct (f _); [done|]. by intros [= <- _]. Qed.
Create HintDb nolimit.
#[export] Hint Resolve nolimit_ret nolimit_query nolimit_write nolimit_newID nolimit_nowText nolimit_query_row : nolimit.
#[export] Hint Extern 1 (NoLimit (guard_ _ _)) => apply nolimit_guard; reflexivity : nolimit.
#[export] Hint Extern 1 (NoLimit (fail _)) => apply nolimit_fail; reflexivity : nolimit.

Ltac solve_nolimit := repeat (intros; cbv zeta; match goal with
  | |- NoLimit (mbind _ _) => apply nolimit_bind; [|intros ?]
  | |- NoLimit (if ?b then _ else _) => destruct b
  | |- NoLimit (match ?x with _ => _ end) => destruct x
  | |- NoLimit _ => solve [eauto with nolimit]
  end).

Lemma nolimit_insert_attempt a : NoLimit (insert_attempt a).
Proof. unfold insert_attempt. solve_nolimit. Qed.
Lemma nolimit_update_runs p f : NoLimit (update_runs p f).
Proof. unfold update_runs. solve_nolimit. Qed.
#[export] Hint Resolve nolimit_insert_attempt nolimit_update_runs : nolimit.
Section calls.
Context {H : Host} {RC : ReadChecks}.

(** ** Atomicity *)
Lemma transaction_join_cases {A} (m : M (A * option error)) r w w' :
  transaction_join m w = (r, w') →
  (∃ a, r = Ok a ∧ m w = (Ok (a, None), w')) ∨
  (∃ a e, r = Err e ∧ m w = (Ok (a, Some e), w')) ∨
  (∃ e w1, r = Err e ∧ m w = (Err e, w1) ∧ w_db w' = w_db w).
Proof.
  unfold transaction_join. destruct (m w) as [[[a [e|]]|e] w1]; intros [= <- <-]; naive_solver.
Qed.

Lemma record_limit g run a n f l w oe w' e :
  record g run a n f l w = (Ok oe, w') → oe = Some e → isOutputLimit e = true.
Proof.
  intros Hr ->. unfold record in Hr. destruct g as [k|]; [|done].
  apply bind_ok in Hr as ([x|] & w1 & _ & Hr); [|done].
  destruct (isOutputLimit x) eqn:E; [|done].
  destruct l; [apply bind_ok in Hr as (? & ? & _ & Hr)|]; by injection Hr as -> <-.
Qed.

(** A store method that fails leaves the database unchanged, except that a
    reached output limit is reported after the call's result was saved. *)
Theorem failures_are_atomic run a call resp fl res g n f m c w :
  (∀ req w', startGuardedModel run req n g w = (Err c, w') → w_db w' = w_db w) ∧
  (∀ w', dispatchGuardedTool a n g w = (Err c, w') → w_db w' = w_db w) ∧
  (∀ w', saveGuardedModel run a resp g n w = (Err c, w') → isOutputLimit c = false → w_db w' = w_db w) ∧
  (∀ w', failModel run a resp fl g n w = (Err c, w') → isOutputLimit c = false → w_db w' = w_db w) ∧
  (∀ w', saveGuardedTool run a call res g n f m w = (Err c, w') → isOutputLimit c = false → w_db w' = w_db w) ∧
  (∀ s reason o w', finishWorkflow run a res s reason o g n w = (Err c, w') → w_db w' = w_db w) ∧
  (∀ id w', Abandon id w = (Err c, w') → w_db w' = w_db w).
Proof.
  repeat split.
  - intros req w'. cut (Atomic (startGuardedModel run req n g)); [intros Ha; apply Ha|]. unfold startGuardedModel, checkUncontrolled. solve_atomic.
  - intros w'. cut (Atomic (dispatchGuardedTool a n g)); [intros Ha; apply Ha|]. unfold dispatchGuardedTool. solve_atomic.
  - intros w' Hs Hl. apply transaction_join_cases in Hs as [(?&?&?)|[(?&e&E&Hs)|(?&?&?&?&?)]]; [done| |done].
    injection E as <-. exfalso.
    repeat (apply bind_ok in Hs as (? & ? & ? & Hs)). apply ret_ok in Hs as [Hs _].
    injection Hs as _ ->. assert (isOutputLimit c = true) by (by eapply record_limit). congruence.
  - intros w' Hs Hl. apply transaction_join_cases in Hs as [(?&?&?)|[(?&e&E&Hs)|(?&?&?&?&?)]]; [done| |done].
    injection E as <-. exfalso.
    repeat (apply bind_ok in Hs as (? & ? & ? & Hs)). apply ret_ok in Hs as [Hs _].
    injection Hs as _ ->. assert (isOutputLimit c = true) by (by eapply record_limit). congruence.
  - intros w' Hs Hl. apply transaction_join_cases in Hs as [(?&?&?)|[(?&e&E&Hs)|(?&?&?&?&?)]]; [done| |done].
    injection E as <-. exfalso. apply bind_ok in Hs as (? & ? & _ & Hs).
    apply bind_ok in Hs as (oe & ? & Hs & Hr). apply ret_ok in Hr as [Hr _]. injection Hr as _ ->.
    unfold saveToolTxMode in Hs. repeat (apply bind_ok in Hs as (? & ? & ? & Hs)).
    assert (isOutputLimit c = true) by (by eapply record_limit). congruence.
  - intros s reason o w'. cut (Atomic (finishWorkflow run a res s reason o g n)); [intros Ha; apply Ha|]. unfold finishWorkflow. solve_atomic.
  - intros id w'. cut (Atomic (Abandon id)); [intros Ha; apply Ha|]. unfold Abandon, abandonRun. solve_atomic.
Qed.

(** ** The rows a saved call leaves *)

(** What the statements on attempts and messages leave of a run. *)
Definition face (r : Run) : string * (RunStatus * (string * string)) :=
  (run_id r, (run_status r, (run_stop_reason r, run_output r))).
Definition faces (d : db) := map face (runs d).

Lemma faces_find d d' id r :
  faces d' = faces d → find_run id d = Some r → ∃ s, find_run id d' = Some s ∧ face s = face r.
Proof.
  unfold faces, find_run. generalize (runs d') as l', (runs d) as l.
  intros l'. induction l' as [|x l' IH]; intros [|y l]; simpl; try done. intros E.
  injection E as Ei E1 E2 E3 E. rewrite Ei. case_bool_decide; [|by apply IH].
  intros [= <-]. exists x. split; [done|]. unfold face. congruence.
Qed.

Lemma faces_last id n l : map face (update_rows (λ r, bool_decide (run_id r = id)) (set_run_last_attempt_seq n) l) = map face l.
Proof. by apply map_update_rows. Qed.

Lemma insertMessage_ok run m w w' :
  insertMessage run m w = (Ok tt, w') →
  (∃ x, messages (w_db w') = messages (w_db w) ++ [x] ∧ msg_body x = m ∧
        msg_run x = Some (run_id run) ∧ msg_conversation x = run_conversation run) ∧
  runs (w_db w') = runs (w_db w) ∧ attempts (w_db w') = attempts (w_db w) ∧ meta (w_db w') = meta (w_db w).
Proof.
  intros Hi. unfold insertMessage in Hi. apply bind_ok in Hi as (n & w1 & Hrow & Hi).
  unfold insert_message_row in Hrow. apply bind_ok in Hrow as (c & w2 & [_ <-]%query_row_ok & Hrow).
  rewrite bind_query in Hrow. apply bind_ok in Hrow as ([] & w2 & ->%write_ok & [_ <-]%ret_ok).
  apply bind_ok in Hi as (now & w2 & E & Hi). injection E as <- <-.
  unfold touch_conversation in Hi. rewrite bind_query in Hi. apply write_ok in Hi as ->. simpl.
  split; [|done]. eexists. split; [reflexivity|done].
Qed.

Definition pending_call (run : string) (c : ToolCall) (a : Attempt) : Prop :=
  att_run a = run ∧ att_kind a = KTool ∧ att_call a = tc_id c ∧ att_status a = APending ∧
  att_request a = QTool c ∧ att_response a = None.

Lemma insert_attempt_ok a w w' :
  insert_attempt a w = (Ok tt, w') →
  (∃ n, attempts (w_db w') = attempts (w_db w) ++
     [mkAttempt (att_id a) (att_run a) (att_kind a) (att_call a) (att_status a) (att_request a) (att_response a) n]) ∧
  faces (w_db w') = faces (w_db w) ∧ messages (w_db w') = messages (w_db w) ∧ meta (w_db w') = meta (w_db w).
Proof.
  intros Hi. unfold insert_attempt in Hi. rewrite bind_query in Hi. unfold id in Hi.
  apply bind_ok in Hi as (r & w1 & Hr & Hi).
  destruct (find_run _ _); [|done]. injection Hr as -> <-.
  apply bind_ok in Hi as ([] & w1 & [_ <-]%guard_ok & ->%write_ok). simpl.
  split; [eauto|]. split; [|done]. unfold faces. simpl. apply faces_last.
Qed.

Lemma insert_tool_calls_ok run calls w w' :
  insert_tool_calls run calls w = (Ok tt, w') →
  (∃ new, attempts (w_db w') = attempts (w_db w) ++ new ∧ Forall2 (pending_call run) calls new) ∧
  faces (w_db w') = faces (w_db w) ∧ messages (w_db w') = messages (w_db w) ∧ meta (w_db w') = meta (w_db w).
Proof.
  revert w. induction calls as [|c calls IH]; intros w Hi; simpl in Hi.
  { apply ret_ok in Hi as [_ <-]. split; [|done]. exists []. by rewrite app_nil_r. }
  apply bind_ok in Hi as (aid & w1 & E & Hi). injection E as <- <-.
  apply bind_ok in Hi as ([] & w2 & ([n Ha] & Hf & Hm & Hx)%insert_attempt_ok & Hi).
  apply IH in Hi as ((new & Hn & HF) & Hf' & Hm' & Hx'). simpl in *.
  split; [|repeat split; congruence].
  eexists (_ :: new). rewrite Hn, Ha, <- app_assoc. split; [reflexivity|]. by constructor.
Qed.

Lemma pendingSteer_meta run d d' : meta d' = meta d → pendingSteer run d' = pendingSteer run d.
Proof. unfold pendingSteer, meta_inputs. by intros ->. Qed.

Lemma update_status_ok p s reason n w w' :
  update_status p s reason w = (Ok n, w') →
  n = count_if p (runs (w_db w)) ∧ (∃ now, runs (w_db w') = update_rows p (set_status s reason now) (runs (w_db w))) ∧
  attempts (w_db w') = attempts (w_db w) ∧ messages (w_db w') = messages (w_db w) ∧ meta (w_db w') = meta (w_db w).
Proof.
  intros Hu. unfold update_status in Hu. apply bind_ok in Hu as (now & w1 & E & Hu). injection E as <- <-.
  apply update_runs_ok in Hu as (-> & _ & ->). simpl. eauto 10.
Qed.

(** The outcome of [record]: nothing but [fa.meta] changes, and the run is
    limited exactly when an output limit was reached. *)
Lemma record_ok g run a n f w oe w' `{!GuardRecordMeta g} :
  record g run a n f true w = (Ok oe, w') →
  attempts (w_db w') = attempts (w_db w) ∧ messages (w_db w') = messages (w_db w) ∧
  ∀ r, find_run run (w_db w) = Some r →
    ∃ s, find_run run (w_db w') = Some s ∧ run_output s = run_output r ∧
      run_status s = match oe with None => run_status r | Some _ => Limited end.
Proof.
  intros Hr. unfold record in Hr. destruct g as [k|]; [|injection Hr as <- <-; split_and!; eauto].
  apply bind_ok in Hr as (o & w1 & Hc & Hr).
  destruct (record_meta k a n f eq_refl w) as [x Hx].
  assert (Hw1 : w_db w1 = set_meta x (w_db w)).
  { unfold catch in Hc. destruct (Record_ k a n f w) as [[?|?] ?]; by injection Hc as _ <-. }
  destruct o as [e|]; [|apply ret_ok in Hr as [<- <-]; rewrite Hw1; simpl; split_and!; eauto].
  destruct (isOutputLimit e); [|done].
  apply bind_ok in Hr as (m & w2 & (_ & [now Hu] & Ha & Hm & _)%update_status_ok & [<- <-]%ret_ok).
  rewrite Ha, Hm, Hw1. split_and!; try done. intros r Hf. unfold find_run in *.
  rewrite Hu, Hw1. simpl. eexists. split; [by apply find_update_by_id|done].
Qed.

Lemma nolimit_insert_tool_calls run calls : NoLimit (insert_tool_calls run calls).
Proof. induction calls; simpl; solve_nolimit. Qed.
Lemma nolimit_insertMessage run m : NoLimit (insertMessage run m).
Proof. unfold insertMessage, insert_message_row, touch_conversation. solve_nolimit. Qed.
Lemma nolimit_record g run a n f l : NoLimit (record g run a n f l).
Proof.
  unfold record. destruct g as [k|]; [|apply nolimit_ret]. apply nolimit_bind.
  - intros w e w'. unfold catch. by destruct (Record_ k a n f w) as [[?|?] ?].
  - intros [e|]; [|apply nolimit_ret]. destruct (isOutputLimit e) eqn:E; [|by apply nolimit_fail].
    unfold update_status. solve_nolimit.
Qed.
Hint Resolve nolimit_insert_tool_calls nolimit_insertMessage nolimit_record : nolimit.

Lemma saveModelTx_nolimit run a resp g n : NoLimit (saveModelTx run a resp g n).
Proof. unfold saveModelTx, lockExecutionTx, lockConversationTx, update_attempts. solve_nolimit. Qed.

(** Saving a main model call: the attempt is finished with the response,
    one assistant message is appended, each tool call of the response becomes
    one new pending attempt, in order, and the run completes with the content
    as its output exactly when there is no tool call and no pending steering;
    when an output limit is reached all of it is kept and the run is limited. *)
Theorem save_model_effect run a resp g n w res w' r `{!GuardRecordMeta g} :
  saveGuardedModel run a resp g n w = (res, w') →
  (res = Ok tt ∨ ∃ e, res = Err e ∧ isOutputLimit e = true) →
  rq_purpose (decodeModelRequest (att_request a)) = "" → find_run (run_id run) (w_db w) = Some r →
  (∃ x, messages (w_db w') = messages (w_db w) ++ [x] ∧ msg_run x = Some (run_id run) ∧
        msg_body x = assistantMessage (rs_content resp) (rs_tool_calls resp)) ∧
  (∃ new, attempts (w_db w') =
     update_rows (att_by (att_id a) (is_status ADispatched)) (set_attempt AFinished (Some (RModel resp)))
       (attempts (w_db w)) ++ new ∧ Forall2 (pending_call (run_id run)) (rs_tool_calls resp) new) ∧
  (∃ s, find_run (run_id run) (w_db w') = Some s ∧
     let completes := bool_decide (rs_tool_calls resp = []) && negb (pendingSteer (run_id run) (w_db w)) in
     run_output s = (if completes then rs_content resp else run_output r) ∧
     run_status s = match res with
                    | Err _ => Limited
                    | Ok _ => if completes then Completed else run_status r end).
Proof.
  intros Hs Hres Hp Hr.
  assert (Hbody : ∃ oe, res = match oe with None => Ok tt | Some e => Err e end ∧
    saveModelTx run a resp g n w = (Ok (tt, oe), w')).
  { apply transaction_join_cases in Hs as [([]&->&Hs)|[([]&e&->&Hs)|(e&w1&->&Hs&_)]].
    - by exists None.
    - by exists (Some e).
    - destruct Hres as [?|(x&E&Hx)]; [done|]. injection E as ->.
      apply saveModelTx_nolimit in Hs. congruence. }
  clear Hs Hres. destruct Hbody as (oe & -> & Hs). unfold saveModelTx in Hs.
  apply bind_ok in Hs as ([] & w0 & [-> _]%lockExecutionTx_ok & Hs).
  apply bind_ok in Hs as (k & w1 & [_ ->]%update_attempts_ok & Hs).
  rewrite Hp, bool_decide_eq_true_2 in Hs by done.
  apply bind_ok in Hs as ([] & w5 & Hmain & Hs).
  apply bind_ok in Hmain as ([] & w2 & ((x & Hx & Hxb & Hxr & _) & Hr2 & Ha2 & Hm2)%insertMessage_ok & Hmain).
  apply bind_ok in Hmain as ([] & w3 & ((new & Hn & HF) & Hf3 & Hm3 & Hx3)%insert_tool_calls_ok & Hmain).
  rewrite bind_query in Hmain. unfold id in Hmain. simpl in *.
  rewrite (pendingSteer_meta _ (w_db w)) in Hmain by congruence.
  assert (Hr3 : ∃ s, find_run (run_id run) (w_db w3) = Some s ∧ face s = face r).
  { apply (faces_find (w_db w)); [|done]. rewrite Hf3. unfold faces. by rewrite Hr2. }
  destruct Hr3 as (s3 & Hs3 & [= _ Hst3 _ Hout3]).
  apply bind_ok in Hs as (oe' & w6 & (Ha6 & Hm6 & Hrec)%record_ok & [[= ->] ->]%ret_ok); [|done].
  set (completes := bool_decide (rs_tool_calls resp = []) && negb (pendingSteer (run_id run) (w_db w))) in *.
  assert (H5 : attempts (w_db w5) = attempts (w_db w3) ∧ messages (w_db w5) = messages (w_db w3) ∧
     ∃ s, find_run (run_id run) (w_db w5) = Some s ∧
       run_output s = (if completes then rs_content resp else run_output r) ∧
       run_status s = (if completes then Completed else run_status r)).
  { destruct completes; [|apply ret_ok in Hmain as [_ <-]; by split_and!; eauto].
    apply bind_ok in Hmain as (now & w4 & E & Hmain). injection E as <- <-.
    apply bind_ok in Hmain as (k4 & w4 & (_ & _ & ->)%update_runs_ok & [_ <-]%ret_ok). simpl.
    split; [done|]. split; [done|]. unfold find_run in *.
    eexists. split; [apply find_update_by_id; [done|exact Hs3]|done]. }
  destruct H5 as (Ha5 & Hm5 & s5 & Hs5 & Ho5 & Ht5).
  split; [exists x; split_and!; congruence|]. split; [exists new; split; [congruence|done]|].
  destruct (Hrec _ Hs5) as (s6 & Hs6 & Ho6 & Ht6). exists s6.
  split; [done|]. split; [congruence|]. destruct oe; [done|]. congruence.
Qed.

(** ** Tool results *)
Definition tool_open (run : Run) (a : Attempt) (call : ToolCall) (b : Attempt) : bool :=
  bool_decide (att_id b = att_id a) && bool_decide (att_run b = run_id run)
  && bool_decide (att_kind b = KTool) && bool_decide (att_call b = tc_id call)
  && (bool_decide (att_status b = APending) || bool_decide (att_status b = ADispatched)).

Lemma tool_open_rank run a call b :
  tool_open run a call b = true → att_id b = att_id a ∧ (att_rank (att_status b) < 2)%nat.
Proof.
  unfold tool_open. intros Hb. apply andb_true_iff in Hb as [Hb Hs]. bool_prop. split; [done|].
  apply orb_true_iff in Hs as [E%bool_decide_eq_true|E%bool_decide_eq_true]; rewrite E; simpl; lia.
Qed.

Lemma saveToolTxMode_ok run a call res g n f m w oe w' `{!GuardSteps g} :
  saveToolTxMode run a call res g n f m w = (Ok oe, w') → db_wf (w_db w) →
  count_if (tool_open run a call) (attempts (w_db w)) = 1%nat ∧
  ∃ b, b ∈ attempts (w_db w') ∧ att_id b = att_id a ∧ att_rank (att_status b) = 2%nat.
Proof.
  intros Hs Hwf. unfold saveToolTxMode in Hs. apply bind_ok in Hs as (r & w0 & H0 & Hs).
  assert (w0 = w) as ->.
  { destruct (tr_outcome res); [by apply ret_ok in H0 as [_ <-]|]. rewrite bind_query in H0.
    destruct (List.find _ _); [by apply ret_ok in H0 as [_ <-]|done]. }
  clear H0. apply bind_ok in Hs as (k & w1 & Hu & Hs). apply update_attempts_ok in Hu as Hu'.
  destruct Hu' as [-> Ew1]. fold (tool_open run a call) in *.
  apply bind_ok in Hs as ([] & w2 & [Hk%bool_decide_eq_true <-]%guard_ok & Hs).
  split; [exact Hk|].
  destruct (count_if_pos _ _ _ Hk) as (b & Hb & Hp).
  set (b1 := set_attempt AFinished (Some (RTool r)) b).
  assert (Hb1 : b1 ∈ attempts (w_db w1)).
  { rewrite Ew1. simpl. apply elem_of_update_rows. exists b. split; [done|]. by rewrite Hp. }
  assert (Hwf1 : db_wf (w_db w1)).
  { eapply (steps_from (update_attempts (tool_open run a call) (set_attempt AFinished (Some (RTool r)))));
      [eauto with steps|exact Hu|done]. }
  assert (Hst : step_ok (w_db w1) (w_db w')).
  { eapply steps_from; [|exact Hs]. solve_steps; [apply steps_insertMessage|by apply steps_record]. }
  destruct (Hst Hwf1) as [_ Hle]. destruct (attempt_evolves _ _ _ Hle Hb1) as (b2 & Hb2 & [Hid _ _ _ _ _ Hrk]).
  exists b2. split; [done|]. apply tool_open_rank in Hp as [Hida _]. simpl in *. split; [congruence|].
  destruct (att_status b2); simpl in *; lia.
Qed.

(** Nothing saves another result of a call that is settled. *)
Lemma settled_not_open run c call d a : db_wf d → a ∈ attempts d → att_rank (att_status a) = 2%nat → att_id c = att_id a →
  count_if (tool_open run c call) (attempts d) ≠ 1%nat.
Proof.
  intros Hwf Ha Hr Hid Hc. destruct (count_if_pos _ _ _ Hc) as (x & Hx & [Hxid Hxr]%tool_open_rank).
  assert (x = a) as -> by (eapply attempt_id_unique; eauto; congruence). lia.
Qed.
Lemma saveGuardedTool_settled run c call res g n f m r w w' a `{!GuardSteps g} : db_wf (w_db w) → a ∈ attempts (w_db w) →
  att_rank (att_status a) = 2%nat → att_id c = att_id a → saveGuardedTool run c call res g n f m w = (r, w') → r ≠ Ok tt ∧ w_db w' = w_db w.
Proof.
  intros Hwf Ha Hr Hid Hs.
  assert (Hno : ∀ oe w1, saveToolTxMode run c call res g n f m w ≠ (Ok oe, w1)).
  { intros oe w1 Hok. apply saveToolTxMode_ok in Hok as [Hc _]; [|done..]. by eapply settled_not_open. }
  apply transaction_join_cases in Hs as [([]&->&Hb)|[(?&?&?&Hb)|(e&?&->&_&?)]]; [exfalso..|done];
    apply bind_ok in Hb as ([] & v & [-> _]%lockExecutionTx_ok & Hb);
    apply bind_ok in Hb as (oe1 & v1 & Hb & _); by eapply Hno.
Qed.
Lemma executeLocalToolMode_settled run c call ex norm g n m r w w' a : db_wf (w_db w) → a ∈ attempts (w_db w) →
  att_rank (att_status a) = 2%nat → att_id c = att_id a → executeLocalToolMode run c call ex norm g n m w = (r, w') →
  w_db w' = w_db w ∧ ∀ x, r = Ok x → att_status a = AFinished ∧ att_response a = Some (RTool x).
Proof.
  intros Hwf Ha Hr Hid Hs. unfold executeLocalToolMode in Hs.
  match type of Hs with transaction_join ?t w = _ => assert (Hb : ∀ x o w1, t w = (Ok (x, o), w1) →
    o = None ∧ w1 = w ∧ att_status a = AFinished ∧ att_response a = Some (RTool x)) end.
  { intros x o w1 Hm. apply bind_ok in Hm as ([] & w2 & [-> _]%lockExecutionTx_ok & Hm). rewrite bind_query in Hm.
    apply bind_ok in Hm as (b & w2 & Hb & Hm).
    destruct (List.find _ (attempts (id (w_db w)))) as [b'|] eqn:Ef; [|by apply fail_ok in Hb]. apply ret_ok in Hb as [-> <-].
    assert (b = a) as ->.
    { apply find_elem in Ef as [Hin Hp]. repeat (apply andb_true_iff in Hp as [Hp _]). apply bool_decide_eq_true in Hp.
      eapply attempt_id_unique; eauto. congruence. }
    apply bind_ok in Hm as ([] & w2 & [_ <-]%guard_ok & Hm). destruct (att_status a); try done.
    destruct (att_response a) as [[]|]; try done. by apply ret_ok in Hm as [[= <- <-] <-]. }
  apply transaction_join_cases in Hs as [(x&->&Hm)|[(x&e&->&Hm)|(e&?&->&_&?)]]; [|by apply Hb in Hm as [? _]|by split].
  apply Hb in Hm as (_ & -> & Hx). split; [done|]. by intros y [= <-].
Qed.
Lemma settleControlProposal_settled run c x done_ reason t r w w' a : db_wf (w_db w) → a ∈ attempts (w_db w) →
  att_rank (att_status a) = 2%nat → att_id c = att_id a → settleControlProposal run c x done_ reason t w = (r, w') →
  r ≠ Ok tt ∧ w_db w' = w_db w.
Proof.
  intros Hwf Ha Hr Hid Hs. unfold settleControlProposal in Hs. destruct r as [[]|e]; [exfalso|split; [done|by apply transaction_err in Hs]].
  rewrite transaction_ok in Hs. apply bind_ok in Hs as ([] & w2 & [-> _]%lockExecutionTx_ok & Hs). rewrite bind_query in Hs.
  apply bind_ok in Hs as (b & w2 & Hb & Hs).
  destruct (List.find _ (attempts (id (w_db w)))) as [b'|] eqn:Ef; [|by apply fail_ok in Hb]. apply ret_ok in Hb as [-> <-].
  assert (b = a) as ->.
  { apply find_elem in Ef as [Hin Hp]. repeat (apply andb_true_iff in Hp as [Hp _]). apply bool_decide_eq_true in Hp.
    eapply attempt_id_unique; eauto. congruence. }
  apply bind_ok in Hs as ([] & w2 & [Hg%bool_decide_eq_true _]%guard_ok & _). by rewrite Hg in Hr.
Qed.
End calls.

(** ** Witnesses *)
#[local] Existing Instances Demo.host Demo.checks.

Module CallsDemo.
Import Demo.
Definition result : ToolResult := mkToolResult [] None false "text" false [] [].
Definition w5 : world := (saveGuardedTool run tool_attempt call result None 1 true true w4).2.
Lemma saved : saveGuardedTool run tool_attempt call result None 1 true true w4 = (Ok tt, w5).
Proof. vm_compute. reflexivity. Qed.
Lemma wf_w4 : db_wf (w_db w4).
Proof.
  pose proof (os_dispatchTool w3 tool_attempt 5 None) as Hs.
  exact (proj1 (op_step_ok _ _ (os_run _ _ Hs) wf_w3)).
Qed.
Definition response : ModelResponse := mkModelResponse "calling" [call] None.
Definition w3s : world := (saveGuardedModel run model_attempt response None 1 w2).2.
Lemma saved_model : saveGuardedModel run model_attempt response None 1 w2 = (Ok tt, w3s).
Proof. vm_compute. reflexivity. Qed.
Definition run2 : Run := match find_run (run_id run) (w_db w2) with Some r => r | None => run end.
Lemma run2_found : find_run (run_id run) (w_db w2) = Some run2.
Proof. reflexivity. Qed.
Definition again := saveGuardedTool run tool_attempt call result None 1 true true w5.
Lemma saved_again : again = (Err (EJoin [ErrModelBoundary]), again.2).
Proof. vm_compute. reflexivity. Qed.
End CallsDemo.
Import Demo CallsDemo.

Lemma save_model_effect_witness :
  ∃ s, find_run (run_id Demo.run) (w_db w3s) = Some s ∧ run_status s = Running.
Proof.
  pose proof (save_model_effect Demo.run model_attempt response None 1 Demo.w2 (Ok tt) w3s run2 saved_model
    (or_introl eq_refl) eq_refl run2_found) as (_ & _ & s & Hs & _ & Hst).
  exists s. split; [exact Hs|exact Hst].
Defined.

Lemma failures_are_atomic_witness :
  w_db again.2 = w_db w5.
Proof.
  destruct (failures_are_atomic Demo.run tool_attempt call (mkModelResponse "" [] None)
    (mkCallError true "" "" 0) result None 1 true true (EJoin [ErrModelBoundary]) w5)
    as (_ & _ & _ & _ & Ht & _).
  exact (Ht _ saved_again eq_refl).
Defined.
