(* ===== verification/StoreEnd.v ===== *)
(** * The store: ending runs

    What [Abandon] and [recover] do to the rows. *)

From S2P Require Import Prelude Data Sql Store StoreInv StoreProps StoreCalls.

Lemma update_rows_fuse {A} (p q : A → bool) f l :
  (∀ x, f (f x) = f x) → update_rows p f (update_rows q f l) = update_rows (λ x, q x || p x) f l.
Proof.
  intros Hf. unfold update_rows. rewrite map_map. apply map_ext. intros x.
  destruct (q x); simpl; [|done]. by destruct (p (f x)).
Qed.

Lemma update_rows_ext {A} (p q : A → bool) f l :
  (∀ x, x ∈ l → p x = q x) → update_rows p f l = update_rows q f l.
Proof. intros Hpq. unfold update_rows. apply map_ext_in. intros x Hx. by rewrite Hpq by (by apply list_elem_of_In). Qed.

(** An attempt is one of the pending calls listed for a run. *)
Lemma listed_pending d run a : db_wf d → a ∈ attempts d →
  existsb (λ b, pending_tool b && bool_decide (att_id a = att_id b)) (listAttempts run d) = bool_decide (att_run a = run) && pending_tool a.
Proof.
  intros Hwf Hin. apply eq_true_iff_eq. rewrite existsb_exists, andb_true_iff, bool_decide_eq_true. split.
  - intros (b & Hbl & [Hp Hid%bool_decide_eq_true]%andb_true_iff). apply list_elem_of_In in Hbl.
    apply list_elem_of_filter in Hbl as [Hrun Hbin]. assert (a = b) as -> by (by eapply attempt_id_unique). done.
  - intros [Hrun Hp]. exists a. rewrite Hp, bool_decide_eq_true_2 by done. split; [|done].
    apply list_elem_of_In. by apply list_elem_of_filter.
Qed.

Section ends.
Context {H : Host} {RC : ReadChecks}.

(** ** Abandoning *)
Definition noted_tool (a : Attempt) : bool :=
  bool_decide (att_kind a = KTool) && (bool_decide (att_status a = APending) || bool_decide (att_status a = AUnknown)).

(** The message a noted attempt leaves in the conversation. *)
Definition abandon_note (a : Attempt) : ModelMessage :=
  toolMessage "" (tc_id (decodeToolCall (att_request a))) (abandonText (att_status a)) [].

Lemma abandon_attempts_ok run l w w' :
  abandon_attempts run l w = (Ok tt, w') →
  attempts (w_db w') = update_rows (λ b, existsb (λ a, pending_tool a && bool_decide (att_id b = att_id a)) l)
                         not_run (attempts (w_db w)) ∧
  runs (w_db w') = runs (w_db w) ∧ meta (w_db w') = meta (w_db w) ∧
  ∃ new, messages (w_db w') = messages (w_db w) ++ new ∧
         map msg_body new = map abandon_note (filter (λ a, noted_tool a = true) l).
Proof.
  revert w. induction l as [|a l IH]; intros w Ha; simpl in Ha.
  { apply ret_ok in Ha as [_ <-]. simpl. split_and!; try done.
    - unfold update_rows. symmetry. apply map_id.
    - exists []. by rewrite app_nil_r. }
  apply bind_ok in Ha as ([] & w1 & H1 & Ha). apply IH in Ha as (Ha & Hr & Hm & new & Hn & Hb). clear IH.
  assert (Hstep : attempts (w_db w1) = update_rows (λ b, pending_tool a && bool_decide (att_id b = att_id a))
                     not_run (attempts (w_db w)) ∧
    runs (w_db w1) = runs (w_db w) ∧ meta (w_db w1) = meta (w_db w) ∧
    ∃ new, messages (w_db w1) = messages (w_db w) ++ new ∧
           map msg_body new = if noted_tool a then [abandon_note a] else []).
  { unfold noted_tool, pending_tool. destruct (bool_decide (att_kind a = KTool)); simpl in *.
    2:{ apply ret_ok in H1 as [_ <-]. split_and!; try done.
        - unfold update_rows. symmetry. apply map_id.
        - exists []. by rewrite app_nil_r. }
    destruct (bool_decide (att_status a = APending)) eqn:Ep; simpl in *.
    - apply bind_ok in H1 as ([] & w0 & H0 & ((x & Hx & Hxb & _) & Hr1 & Ha1 & Hm1)%insertMessage_ok).
      apply bind_ok in H0 as (k & w2 & [_ ->]%update_attempts_ok & [_ <-]%ret_ok). simpl in *.
      split_and!; try done. { by rewrite Ha1; unfold not_run; apply bool_decide_eq_true in Ep as ->. }
      exists [x]. simpl. rewrite Hxb. done.
    - destruct (bool_decide (att_status a = AUnknown)).
      + apply bind_ok in H1 as ([] & w0 & [_ <-]%ret_ok & ((x & Hx & Hxb & _) & Hr1 & Ha1 & Hm1)%insertMessage_ok).
        split_and!; try done. { unfold update_rows. by rewrite map_id. }
        exists [x]. simpl. rewrite Hxb. done.
      + apply ret_ok in H1 as [_ <-]. split_and!; try done.
        * unfold update_rows. symmetry. apply map_id.
        * exists []. by rewrite app_nil_r. }
  destruct Hstep as (Ha1 & Hr1 & Hm1 & new1 & Hn1 & Hb1).
  split_and!; try congruence.
  - rewrite Ha, Ha1. by rewrite update_rows_fuse.
  - exists (new1 ++ new). rewrite Hn, Hn1, app_assoc. split; [done|].
    rewrite map_app, Hb, Hb1, filter_cons. destruct (noted_tool a); [by rewrite decide_True|by rewrite decide_False].
Qed.

(** Abandoning a run that is neither completed nor already abandoned
    succeeds only when no call of it is in flight; it closes its pending tool
    calls as not run, leaves every unknown attempt as it is, tells the
    conversation about both, in order, and marks the run abandoned. *)
Theorem abandon_effect id w w' r :
  db_wf (w_db w) → Abandon id w = (Ok tt, w') → find_run id (w_db w) = Some r → run_status r ≠ Abandoned →
  run_status r ≠ Completed ∧ controlledParent id (w_db w) = "" ∧
  (∀ a, a ∈ attempts (w_db w) → att_run a = id → att_status a ≠ ADispatched) ∧
  attempts (w_db w') = update_rows (λ a, bool_decide (att_run a = id) && pending_tool a) not_run (attempts (w_db w)) ∧
  (∃ new, messages (w_db w') = messages (w_db w) ++ new ∧
     map msg_body new = map abandon_note (filter (λ a, noted_tool a = true) (listAttempts id (w_db w)))) ∧
  (∃ s, find_run id (w_db w') = Some s ∧ run_status s = Abandoned).
Proof.
  intros Hwf Ha Hr Hst. unfold Abandon in Ha. rewrite bind_query in Ha.
  apply bind_ok in Ha as ([] & w0 & [Hc%bool_decide_eq_true <-]%guard_ok & Ha).
  unfold abandonRun in Ha. apply bind_ok in Ha as (r' & w0 & [Hr' <-]%query_row_ok & Ha).
  rewrite Hr in Hr'. injection Hr' as <-.
  assert (Hnc : run_status r ≠ Completed) by (intros E; by rewrite E in Ha).
  assert (Ha' : (l ← query (listAttempts id);
      _ ← guard_ (negb (existsb (λ a, bool_decide (att_status a = ADispatched)) l)) ErrUnknownResult;
      transaction (
        _ ← lockExecutionTx id;
        _ ← abandon_attempts (rf_run (withModelFacts r)) l;
        _ ← update_status (by_id id) Abandoned "abandoned by user; unknown attempt facts are retained";
        mret tt)) w = (Ok tt, w')) by (by destruct (run_status r)).
  clear Ha. rewrite bind_query in Ha'. apply bind_ok in Ha' as ([] & w0 & [Hd <-]%guard_ok & Ha').
  rewrite transaction_ok in Ha'. apply bind_ok in Ha' as ([] & w0 & [-> _]%lockExecutionTx_ok & Ha').
  apply bind_ok in Ha' as ([] & w1 & (Ha1 & Hr1 & _ & new & Hn & Hb)%abandon_attempts_ok & Ha').
  apply bind_ok in Ha' as (k & w2 & (_ & [now Hu] & Ha2 & Hm2 & _)%update_status_ok & [_ <-]%ret_ok).
  split; [done|]. split; [done|]. split; [|split; [|split]].
  - intros a Hin Hid Hs. apply negb_true_iff in Hd. apply not_true_iff_false in Hd. apply Hd.
    apply existsb_exists. exists a. split; [|by apply bool_decide_eq_true_2].
    apply list_elem_of_In. apply list_elem_of_filter. done.
  - rewrite Ha2, Ha1. apply update_rows_ext. intros a Hin. by apply listed_pending.
  - exists new. rewrite Hm2. done.
  - unfold find_run in *. rewrite Hu. rewrite <- Hr1 in Hr. eexists. split; [by apply find_update_by_id|done].
Qed.

(** ** Recovery at start *)

(** The time a run was active is added to it. *)
Definition settled_run (t : nat) (r : Run) : Run :=
  if bool_decide (run_active_since r = "") then r
  else add_elapsed (Z.max 0 (default 0%Z (elapsed_since t (run_active_since r)))) r.

Lemma settle_elapsed_ok l w w' : settle_elapsed l w = (Ok tt, w') → NoDup (map run_id l) →
  w_db w' = set_runs (map (λ s, match List.find (λ r, bool_decide (run_id r = run_id s)) l with
      | Some r => add_elapsed (Z.max 0 (default 0%Z (elapsed_since (w_ticks w) (run_active_since r)))) s
      | None => s end) (runs (w_db w))) (w_db w) ∧ w_ticks w' = w_ticks w.
Proof.
  revert w. induction l as [|r l IH]; intros w Hs Hn; simpl in Hs.
  { apply ret_ok in Hs as [_ <-]. split; [|done]. simpl. rewrite map_id. by destruct (w_db w). }
  apply bind_ok in Hs as (t & w1 & E & Hs). injection E as <- <-. simpl in Hn. apply NoDup_cons in Hn as [Hr Hn].
  destruct (elapsed_since _ _) as [ms|] eqn:Ems; [|done].
  apply bind_ok in Hs as (k & w1 & (_ & _ & ->)%update_runs_ok & Hs). apply IH in Hs as [-> Ht]; [|done]. simpl in *. split; [|done].
  unfold set_runs. simpl. f_equal. unfold update_rows. rewrite map_map. apply map_ext. intros s. unfold by_id. rewrite (bool_decide_ext (run_id s = run_id r) (run_id r = run_id s)) by done.
  case_bool_decide as Es; [|done]. simpl. rewrite Ems. simpl. destruct (List.find _ l) as [x|] eqn:Ef; [|done].
  apply find_elem in Ef as [Hx Ex%bool_decide_eq_true]. destruct Hr. rewrite Es, <- Ex. by apply list_elem_of_fmap_2.
Qed.
Lemma settle_elapsed_ids l w w' : settle_elapsed l w = (Ok tt, w') → map run_id (runs (w_db w')) = map run_id (runs (w_db w)).
Proof.
  revert w. induction l as [|r l IH]; intros w Hs; simpl in Hs; [by apply ret_ok in Hs as [_ <-]|].
  apply bind_ok in Hs as (t & w1 & E & Hs). injection E as <- <-. destruct (elapsed_since _ _); [|done].
  apply bind_ok in Hs as (k & w1 & (_ & _ & ->)%update_runs_ok & Hs). rewrite (IH _ Hs). by apply map_update_rows.
Qed.
Lemma settle_elapsed_runs w w' : settle_elapsed (filter (λ r, run_active_since r ≠ "") (runs (w_db w))) w = (Ok tt, w') →
  NoDup (map run_id (runs (w_db w))) → w_db w' = set_runs (map (settled_run (w_ticks w)) (runs (w_db w))) (w_db w).
Proof.
  intros Hs Hn. apply settle_elapsed_ok in Hs as [-> _].
  2: { by apply NoDup_map_filter. }
  f_equal. apply map_ext_in. intros s Hs%list_elem_of_In. unfold settled_run. case_bool_decide as Ea.
  - destruct (List.find _ _) as [x|] eqn:Ef; [|done]. apply find_elem in Ef as [[Hx Hin]%list_elem_of_filter Ex%bool_decide_eq_true].
    assert (x = s) as ->; [|done]. by apply (NoDup_map_inj run_id (runs (w_db w))).
  - rewrite (find_unique _ _ s); [done| |by apply bool_decide_eq_true|].
    + by apply list_elem_of_filter.
    + intros y [_ Hy]%list_elem_of_filter Ey%bool_decide_eq_true. by apply (NoDup_map_inj run_id (runs (w_db w))).
Qed.

Definition interrupted (a : Attempt) : bool := bool_decide (att_status a = ADispatched).
Definition interrupt (a : Attempt) : Attempt :=
  set_attempt AUnknown
    (match att_response a with None => Some (RText "process interrupted after dispatch marker") | r => r end) a.

(** An attempt of [run] whose outcome is unknown after the restart. *)
Definition unresolved_after (d : db) (run : string) : bool :=
  existsb (λ a, bool_decide (att_run a = run) &&
                match att_status a with ADispatched | AUnknown => negb (resolvedAttempt d a) | _ => false end)
    (attempts d).

(** The same record, but for the state of a delivery. *)
Definition same_but_sends (d d' : db) : Prop := ∀ k,
  meta d' !! k = meta d !! k ∨ ∃ s s', meta d !! k = Some (MSend s) ∧ meta d' !! k = Some (MSend s').

(** Resolution of an attempt does not look at statuses nor at send records. *)
Lemma resolvedAttempt_stable d d' a a' :
  same_but_sends d d' →
  map (λ a, (att_id a, att_run a, att_kind a)) (attempts d') = map (λ a, (att_id a, att_run a, att_kind a)) (attempts d) →
  (att_id a', att_run a', att_kind a') = (att_id a, att_run a, att_kind a) →
  resolvedAttempt d' a' = resolvedAttempt d a.
Proof.
  intros Hm Ha [= E1 E2 E3]. unfold resolvedAttempt. rewrite E1, E2, E3.
  destruct (att_kind a); [|destruct (Hm (verifiedKey (att_id a))) as [->|(?&?&->&->)]; done|done].
  destruct (Hm (replacedKey (att_id a))) as [->|(?&?&->&->)]; [|done].
  destruct (meta d !! _) as [[]|]; try done.
  revert Ha. generalize (attempts d) as l, (attempts d') as l'.
  intros l l'. revert l. induction l' as [|x l' IH]; intros [|y l]; simpl; try done.
  intros [= Ex1 Ex2 Ex3 Ex]. by rewrite Ex1, Ex2, Ex3, (IH _ Ex).
Qed.

Lemma interrupt_face l : map (λ a, (att_id a, att_run a, att_kind a)) (update_rows interrupted interrupt l)
  = map (λ a, (att_id a, att_run a, att_kind a)) l.
Proof. by apply map_update_rows. Qed.

(** The delivery of a message that was being sent is unknown. *)
Definition interrupted_send (k : string) (v : MetaValue) : MetaValue :=
  match v with
  | MSend st =>
      if (String.prefix "channel/send/" k || String.prefix "channel/file-send/" k || String.prefix "channel/reply-file/" k)
         && (bool_decide (st = "dispatching") || bool_decide (st = "creating")) then MSend "unknown" else v
  | _ => v
  end.
Lemma interrupt_sends_meta w u w' : interrupt_sends w = (Ok u, w') →
  w_db w' = set_meta (map_imap (λ k v, Some (interrupted_send k v)) (meta (w_db w))) (w_db w).
Proof. by intros ->%write_ok. Qed.
Lemma interrupted_sends_only d : same_but_sends d (set_meta (map_imap (λ k v, Some (interrupted_send k v)) (meta d)) d).
Proof.
  intros k. simpl. rewrite map_lookup_imap. destruct (meta d !! k) as [[]|]; simpl; auto. right. destruct (_ && _); eauto.
Qed.

(** The attempts that are unknown and unresolved once the dispatched ones were
    interrupted. *)
Lemma unresolved_interrupted d d' run :
  same_but_sends d d' →
  attempts d' = update_rows interrupted interrupt (attempts d) →
  existsb (λ a, bool_decide (att_run a = run) && bool_decide (att_status a = AUnknown)
                && negb (resolvedAttempt d' a)) (attempts d') = unresolved_after d run.
Proof.
  intros Hm Ha. unfold unresolved_after.
  assert (Hface : map (λ a, (att_id a, att_run a, att_kind a)) (attempts d')
                = map (λ a, (att_id a, att_run a, att_kind a)) (attempts d)) by (by rewrite Ha, interrupt_face).
  rewrite Ha. unfold update_rows. generalize (attempts d) as l. intros l. induction l as [|a l IH]; [done|]. simpl. rewrite IH. f_equal.
  rewrite (resolvedAttempt_stable d d' a (if interrupted a then interrupt a else a)); [|done|done|by destruct (interrupted a)].
  unfold interrupted, interrupt. destruct (att_status a) eqn:Es; simpl; rewrite ?Es; simpl;
    destruct (bool_decide (att_run a = run)); done.
Qed.

(** A run after the restart: its active time is added; it becomes unknown when
    one of its calls is unknown and not resolved, unless it was abandoned or
    unknown already; otherwise it is stopped when it was running. *)
Definition recovered_run (d : db) (t : nat) (r : Run) : Run :=
  let s := settled_run t r in
  if negb (bool_decide (run_status r = Abandoned) || bool_decide (run_status r = Unknown)) && unresolved_after d (run_id r)
  then set_status Unknown "unresolved call after restart" (run_updated_at s) s
  else if bool_decide (run_status r = Running) then set_status Stopped "process interrupted; continue explicitly" (run_updated_at s) s
  else s.

Lemma settled_run_id t r : run_id (settled_run t r) = run_id r.
Proof. unfold settled_run. by case_bool_decide. Qed.
Lemma settled_run_status t r : run_status (settled_run t r) = run_status r.
Proof. unfold settled_run. by case_bool_decide. Qed.

End ends.

(** ** Witnesses *)
#[local] Existing Instances Demo.host Demo.checks.
Import Demo.

Lemma abandoned_w3 : Abandon (run_id Demo.run) Demo.w3 = (Ok tt, (Abandon (run_id Demo.run) Demo.w3).2).
Proof. vm_compute. reflexivity. Qed.

Lemma abandon_effect_witness :
  ∃ s, find_run "x" (w_db (Abandon (run_id Demo.run) Demo.w3).2) = Some s ∧ run_status s = Abandoned.
Proof.
  destruct (find_run (run_id Demo.run) (w_db Demo.w3)) as [r|] eqn:Er; [|vm_compute in Er; discriminate Er].
  assert (Hst : run_status r ≠ Abandoned) by (intros E; vm_compute in Er; injection Er as <-; discriminate E).
  exact (proj2 (proj2 (proj2 (proj2 (proj2 (abandon_effect (run_id Demo.run) Demo.w3 _ r wf_w3 abandoned_w3 Er Hst)))))).
Defined.

Lemma no_leases : MetaOnly (mret tt : M unit).
Proof. intros w. exists (meta (w_db w)). by destruct w as [[]]. Qed.
Lemma recovered_w4 : recover (mret tt) Demo.w4 = (Ok tt, (recover (mret tt) Demo.w4).2).
Proof. vm_compute. reflexivity. Qed.

