(* ===== verification/Budget.v ===== *)
(** * The collaboration budget

    Model of src/internal/harness/collaboration_budget.go: the collaboration
    record kept in [fa.meta], the guard that reserves and settles the output
    allowance of each call ([collaborationGuard]), and the recovery of the
    leases at start. The guard implements the interface [callGuard] of the
    store: its instances of [GuardSteps], [GuardMeta] and [GuardRecordMeta] let
    the store's theorems apply to controlled runs. *)

From S2P Require Import Prelude Data Sql Store StoreInv StoreProps.

Section budget.
Context {H : Host} {RC : ReadChecks}.

Definition invalidRecord : error := EText "harness: invalid collaboration record".

(** [loadCollaboration] and [loadCollaborationForUpdate]. *)
Definition loadCollaboration (parent : string) : M collaborationRecord :=
  d ← query id;
  match meta d !! collaborationKey parent with
  | None => fail ErrNoRows
  | Some (MCollaboration r) =>
      _ ← guard_ (negb ((2097152 <? len_collaboration r)%Z || negb (bool_decide (cr_parent r = parent))
                        || (cr_revision r <? 1)%Z)) invalidRecord;
      mret r
  | Some _ => fail invalidRecord
  end.

(** [saveCollaboration]. *)
Definition saveCollaboration (r : collaborationRecord) : M unit :=
  _ ← guard_ (len_collaboration r <=? 2097152)%Z (EText "harness: collaboration record exceeds limit");
  meta_upsert (collaborationKey (cr_parent r)) (MCollaboration r).

(** [activeElapsed]. *)
Definition activeElapsed (now : nat) (r : Run) : Z :=
  (run_elapsed_ms r +
   (if bool_decide (run_active_since r = "") then 0
    else match elapsed_since now (run_active_since r) with Some ms => Z.max 0 ms | None => 0 end))%Z.

(** ** Setters of the record *)
Definition set_usage (f : CollaborationUsage → CollaborationUsage) (r : collaborationRecord) :=
  mkRecord (cr_parent r) (cr_plan r) (cr_control r) (f (cr_usage r)) (cr_children r) (cr_active r)
    (cr_reservations r) (cr_accepted_digest r) (cr_decision r) (cr_settings r) (cr_planning r) (cr_single r) (cr_revision r)
    (cr_replan_attempt r) (cr_replanned r) (cr_synthesis_attempt r) (cr_synthesis_digest r) (cr_initial_plan r).
Definition set_children (l : list childRecord) (r : collaborationRecord) :=
  mkRecord (cr_parent r) (cr_plan r) (cr_control r) (cr_usage r) l (cr_active r)
    (cr_reservations r) (cr_accepted_digest r) (cr_decision r) (cr_settings r) (cr_planning r) (cr_single r) (cr_revision r)
    (cr_replan_attempt r) (cr_replanned r) (cr_synthesis_attempt r) (cr_synthesis_digest r) (cr_initial_plan r).
Definition set_reservation (id : string) (x : outputReservation) (r : collaborationRecord) :=
  mkRecord (cr_parent r) (cr_plan r) (cr_control r) (cr_usage r) (cr_children r) (cr_active r)
    (<[id := x]> (cr_reservations r)) (cr_accepted_digest r) (cr_decision r) (cr_settings r) (cr_planning r) (cr_single r) (cr_revision r)
    (cr_replan_attempt r) (cr_replanned r) (cr_synthesis_attempt r) (cr_synthesis_digest r) (cr_initial_plan r).
Definition set_replan (id : string) (r : collaborationRecord) :=
  mkRecord (cr_parent r) (cr_plan r) (cr_control r) (cr_usage r) (cr_children r) (cr_active r)
    (cr_reservations r) (cr_accepted_digest r) (cr_decision r) (cr_settings r) (cr_planning r) (cr_single r) (cr_revision r)
    id (cr_replanned r) (cr_synthesis_attempt r) (cr_synthesis_digest r) (cr_initial_plan r).
Definition set_synthesis (id digest : string) (r : collaborationRecord) :=
  mkRecord (cr_parent r) (cr_plan r) (cr_control r) (cr_usage r) (cr_children r) (cr_active r)
    (cr_reservations r) (cr_accepted_digest r) (cr_decision r) (cr_settings r) (cr_planning r) (cr_single r) (cr_revision r)
    (cr_replan_attempt r) (cr_replanned r) id digest (cr_initial_plan r).
(** [record.Active, record.Usage.ActiveChildren = nil, 0]. *)
Definition clear_leases (r : collaborationRecord) :=
  mkRecord (cr_parent r) (cr_plan r) (cr_control r)
    (mkUsage (us_children (cr_usage r)) (us_model_calls (cr_usage r)) (us_tool_calls (cr_usage r)) (us_output_bytes (cr_usage r)) 0
       (us_replans (cr_usage r)))
    (cr_children r) []
    (cr_reservations r) (cr_accepted_digest r) (cr_decision r) (cr_settings r) (cr_planning r) (cr_single r) (cr_revision r)
    (cr_replan_attempt r) (cr_replanned r) (cr_synthesis_attempt r) (cr_synthesis_digest r) (cr_initial_plan r).

Definition add_output (n : Z) (u : CollaborationUsage) : CollaborationUsage :=
  mkUsage (us_children u) (us_model_calls u) (us_tool_calls u) (us_output_bytes u + n) (us_active_children u) (us_replans u).
Definition count_call (k : AttemptKind) (u : CollaborationUsage) : CollaborationUsage :=
  match k with
  | KModel => mkUsage (us_children u) (us_model_calls u + 1) (us_tool_calls u) (us_output_bytes u) (us_active_children u) (us_replans u)
  | KTool => mkUsage (us_children u) (us_model_calls u) (us_tool_calls u + 1) (us_output_bytes u) (us_active_children u) (us_replans u)
  | KWorkflow => u
  end.
Definition add_replan (u : CollaborationUsage) : CollaborationUsage :=
  mkUsage (us_children u) (us_model_calls u) (us_tool_calls u) (us_output_bytes u) (us_active_children u) (us_replans u + 1).

Definition child_add (n : Z) (c : childRecord) : childRecord :=
  mkChild (ch_spec c) (ch_run c) (ch_control c) (ch_output_bytes c + n) (ch_retired c) (ch_delivered c) (ch_results_ready c).
Definition is_child (name : string) (c : childRecord) : bool := bool_decide (sp_name (ch_spec c) = name).
(** The first child of that name, in place. *)
Fixpoint child_add_first (name : string) (n : Z) (l : list childRecord) : list childRecord :=
  match l with
  | [] => []
  | c :: l => if is_child name c then child_add n c :: l else c :: child_add_first name n l
  end.

Definition find_child (name : string) (r : collaborationRecord) : option childRecord :=
  List.find (is_child name) (cr_children r).

(** [recordChild], with Go's zero value when there is no such child, and the
    zero value a lookup in [Plan.Roles] gives. *)
Definition zeroChild : childRecord := mkChild (mkChildSpec "" "" "" "" [] []) "" "" 0 false [] false.
Definition recordChild (r : collaborationRecord) (name : string) : childRecord :=
  match find_child name r with Some c => c | None => zeroChild end.
Definition role_budget (r : collaborationRecord) (role : string) : ChildBudget :=
  match pl_roles (cr_plan r) !! role with Some p => rp_budget p | None => mkChildBudget 0 0 0 0 end.

(** ** Reserving *)

(** [reserveCollaborationCall]. *)
Definition reserveCollaborationCall (r : collaborationRecord) (child : option childRecord) (a : Attempt)
    (limit : ChildBudget) : M unit :=
  let budget := pl_budget (cr_plan r) in
  let reservation := cb_call_output_bytes limit in
  _ ← match child with
      | Some c => guard_ (reservation <=? cb_output_bytes limit - ch_output_bytes c)%Z ErrChildBudget
      | None => mret tt
      end;
  _ ← guard_ (reservation <=? pb_output_bytes budget - us_output_bytes (cr_usage r))%Z ErrParentBudget;
  _ ← match att_kind a with
      | KModel => guard_ (us_model_calls (cr_usage r) <? pb_model_calls budget)%Z ErrParentBudget
      | KTool => guard_ (us_tool_calls (cr_usage r) <? pb_tool_calls budget)%Z ErrParentBudget
      | KWorkflow => fail (EText "harness: unsupported budgeted call kind")
      end;
  let name := match child with Some c => sp_name (ch_spec c) | None => "" end in
  let r := set_usage (count_call (att_kind a)) r in
  let r := match child with
           | Some _ => set_children (child_add_first name reservation (cr_children r)) r
           | None => r
           end in
  let r := set_usage (add_output reservation) r in
  saveCollaboration (set_reservation (att_id a) (mkReservation name reservation 0 false) r).

Definition planningCalls (run : string) (d : db) : nat :=
  count_if (λ a, bool_decide (att_run a = run) && bool_decide (att_kind a = KModel) &&
      bool_decide (rq_purpose (decodeModelRequest (att_request a)) = "planning")) (attempts d).

(** The second message of the request, which states what it was computed from. *)
Definition stated (q : ModelRequest) : option string :=
  match rq_messages q with _ :: m :: _ => Some (mm_content m) | _ => None end.

(** The checks of a parent's own model call, by its purpose. *)
Definition reservePurpose (a : Attempt) (r : collaborationRecord) : M collaborationRecord :=
  let q := decodeModelRequest (att_request a) in
  d ← query id;
  _ ← (if bool_decide (rq_purpose q = "planning") then
         _ ← guard_ (cr_planning r) ErrControlledRun;
         guard_ (bool_decide (planningCalls (cr_parent r) d = 0%nat))
           (EText "harness: planning has already been dispatched; use the saved result")
       else mret tt);
  r ← (if bool_decide (rq_purpose q = "replanning") then
         _ ← guard_ (negb (cr_planning r || cr_single r
                           || (pl_max_replans (cr_plan r) <=? us_replans (cr_usage r))%Z)) ErrParentBudget;
         _ ← guard_ (bool_decide (cr_replan_attempt r = ""))
               (EText "harness: use the saved replanning attempt before another dispatch");
         rev ← lift match stated q with
                    | Some s => match json_revision s with Some n => Ok n | None => Err ErrStoreFormat end
                    | None => Err ErrStoreFormat end;
         _ ← guard_ (bool_decide (rev = cr_revision r)) ErrPlanRevision;
         mret (set_replan (att_id a) (set_usage add_replan r))
       else mret r);
  if bool_decide (rq_purpose q = "synthesis") then
    _ ← guard_ (negb (cr_planning r || cr_single r || negb (pl_synthesis (cr_plan r))
                      || negb (bool_decide (cr_synthesis_attempt r = ""))
                      || negb (bool_decide (cr_active r = [])))) ErrControlledRun;
    digest ← lift match stated q with
                  | Some s => match json_revision s, json_digest s with
                              | Some n, Some g => if bool_decide (n = cr_revision r) && bool_decide (String.length g = 64%nat)
                                                  then Ok g else Err ErrPlanRevision
                              | _, _ => Err ErrPlanRevision end
                  | None => Err ErrPlanRevision end;
    _ ← guard_ (forallb (λ c, ch_retired c ||
                  bool_decide (ch_control c = "running") &&
                  match find_run (ch_run c) d with
                  | Some run => bool_decide (run_status run = Completed)
                  | None => false end) (cr_children r)) ErrControlledRun;
    mret (set_synthesis (att_id a) digest r)
  else mret r.

(** The limit of a parent's own call. *)
Definition parentLimit (r : collaborationRecord) : ChildBudget :=
  mkChildBudget 0 0 (pb_output_bytes (pl_budget (cr_plan r)))
    match cr_settings_child r with
    | Some c => cb_call_output_bytes c
    | None => Z.min (pb_output_bytes (pl_budget (cr_plan r))) 16384
    end.

(** [Reserve]. *)
Definition guard_reserve (parentID childName : string) (a : Attempt) : M unit :=
  r ← loadCollaboration parentID;
  _ ← guard_ (bool_decide (cr_control r = "running")) ErrChildPaused;
  parent ← query_row (find_run parentID);
  now ← (λ w, (Ok (w_ticks w), w) : res nat * world);
  _ ← guard_ (activeElapsed now parent <? pb_active_seconds (pl_budget (cr_plan r)) * 1000)%Z ErrTimeLimit;
  if bool_decide (childName = "") then
    _ ← guard_ (bool_decide (att_run a = cr_parent r)) ErrControlledRun;
    r ← match att_kind a with KModel => reservePurpose a r | _ => mret r end;
    reserveCollaborationCall r None a (parentLimit r)
  else
    match find_child childName r with
    | None => fail ErrChildPaused
    | Some c =>
        _ ← guard_ (negb (negb (bool_decide (ch_run c = att_run a)) || negb (bool_decide (ch_control c = "running"))
                          || ch_retired c)) ErrChildPaused;
        _ ← guard_ (negb (negb (bool_decide (sp_results (ch_spec c) = [])) && negb (ch_results_ready c)))
              ErrResultReference;
        d ← query id;
        _ ← lift (validateDeliveredResults d r c);
        _ ← guard_ (bool_decide (childName ∈ cr_active r) &&
                    (zlen (cr_active r) <=? pb_concurrent (pl_budget (cr_plan r)))%Z) ErrParentBudget;
        reserveCollaborationCall r (Some c) a (role_budget r (sp_role (ch_spec c)))
    end.

(** ** Settling *)
Definition settle_reservation (name id : string) (x : outputReservation) (size : Z) (final : bool)
    (r : collaborationRecord) : collaborationRecord :=
  let observed := Z.max (re_observed x) size in
  let billed := if final then observed else Z.max (re_bytes x) observed in
  let delta := (billed - re_bytes x)%Z in
  set_reservation id (mkReservation (re_child x) billed observed final)
    (set_children (update_rows (is_child name) (child_add delta) (cr_children r))
       (set_usage (add_output delta) r)).

(** The limits [Record] compares with. *)
Definition recordLimit (name : string) (r : collaborationRecord) : ChildBudget :=
  if negb (bool_decide (name = "")) then role_budget r (sp_role (ch_spec (recordChild r name)))
  else match cr_settings_child r with
       | Some c => c
       | None => mkChildBudget 0 0 0 (Z.min (pb_output_bytes (pl_budget (cr_plan r))) 16384)
       end.

(** [Record]. *)
Definition guard_record (parentID childName : string) (a : Attempt) (size : Z) (final : bool) : M unit :=
  r ← loadCollaboration parentID;
  let missing := EText "harness: missing or settled output reservation" in
  match cr_reservations r !! att_id a with
  | None => if bool_decide (att_kind a = KTool) && bool_decide (att_status a = APending)
            then mret tt else fail missing
  | Some x =>
      _ ← guard_ (negb (negb (bool_decide (re_child x = childName)) || re_final x)) missing;
      let r := settle_reservation childName (att_id a) x size final r in
      _ ← saveCollaboration r;
      _ ← (if final && bool_decide (childName = "") && bool_decide (cr_control r = "cancelled")
           then _ ← update_status (by_id (cr_parent r)) Abandoned
                      "collaboration cancelled; saved results and UNKNOWN retained";
                mret tt
           else mret tt);
      let limit := recordLimit childName r in
      _ ← guard_ (negb ((cb_call_output_bytes limit <? Z.max (re_observed x) size)%Z
                        || negb (bool_decide (childName = ""))
                           && (cb_output_bytes limit <? ch_output_bytes (recordChild r childName))%Z)) ErrChildBudget;
      guard_ (us_output_bytes (cr_usage r) <=? pb_output_bytes (pl_budget (cr_plan r)))%Z ErrParentBudget
  end.

(** [collaborationGuard]. *)
Definition collaborationGuard (parentID childName : string) : callGuard :=
  mkGuard (guard_reserve parentID childName) (guard_record parentID childName).

(** ** Leases after a restart *)

(** The records under [collaboration/], each checked against its key. *)
Definition lease_records (m : gmap string MetaValue) : res (list collaborationRecord) :=
  foldr (λ kv acc,
    l ← acc;
    match kv.2 with
    | MCollaboration r =>
        _ ← check (negb ((2097152 <? len_collaboration r)%Z || negb (bool_decide (kv.1 = collaborationKey (cr_parent r)))))
              ErrStoreFormat;
        mret (clear_leases r :: l)
    | _ => Err ErrStoreFormat
    end) (mret [])
    (filter (λ kv, String.prefix "collaboration/" kv.1 = true) (map_to_list m)).

Fixpoint save_all (l : list collaborationRecord) : M unit :=
  match l with
  | [] => mret tt
  | r :: l => _ ← saveCollaboration r; save_all l
  end.

(** [recoverCollaborationLeases]. *)
Definition recoverCollaborationLeases : M unit :=
  d ← query id;
  l ← lift (lease_records (meta d));
  save_all l.

End budget.
