(* ===== verification/MemoryStore.v ===== *)
(** * Memory: mutations

    Model of the writing half of src/internal/harness/memory.go: the one
    transaction through which memory changes ([mutateMemoryTx]), with the receipt
    that makes a retry safe, the optimistic check of the revision, the sources an
    entry must cite and the history it leaves; and of the memory_write tool of
    memory_tools.go and [SaveMemory], which call it for an agent and for the
    user. *)

From S2P Require Import Prelude Text Data Sql Memory Store StoreInv StoreProps Budget.
From Stdlib Require Import Ascii.

Definition NUL : string := str (chr 0).

(** ** Validation *)

(** [MemoryMutation.validate]. *)
Definition memory_actions : list string := ["create"; "update"; "disable"; "enable"; "delete"; "pin"; "unpin"].
Definition writes_content (m : MemoryMutation) : bool :=
  bool_decide (mut_action m = "create") || bool_decide (mut_action m = "update").
Definition mutation_validate (m : MemoryMutation) : res unit :=
  _ ← (if bool_decide (mut_action m = "pin")
       then match mut_pinned m with Some p => check (is_ok (pin_validate p)) ErrMemoryDenied | None => Err ErrMemoryDenied end
       else check (bool_decide (mut_pinned m = None)) ErrMemoryDenied);
  let text := mut_title m +:+ mut_body m +:+ mut_reason m +:+ mut_request_key m in
  _ ← check (negb (negb (is_ok (scope_validate (mut_scope m))) || bool_decide (mut_request_key m = "")
       || (256 <? String.length (mut_request_key m))%nat || negb (bool_decide (mut_action m ∈ memory_actions))
       || (256 <? String.length (mut_title m))%nat || (65536 <? Z.of_nat (String.length (mut_body m)))%Z
       || (512 <? String.length (mut_reason m))%nat || negb (ValidString text) || has_nul text
       || (16 <? length (mut_sources m))%nat)) (EText "harness: invalid bounded memory mutation");
  let create := bool_decide (mut_action m = "create") in
  _ ← check (negb (create && (negb (bool_decide (mut_entry m = "")) || negb (mut_expected m =? 0)%Z)
       || negb create && (negb (memoryID (mut_entry m)) || (mut_expected m <? 1)%Z))) ErrMemoryConflict;
  if writes_content m then
    check (memoryKind (mut_kind m) && negb (bool_decide (TrimSpace (mut_title m) = "")) && negb (bool_decide (TrimSpace (mut_body m) = ""))
           && negb (bool_decide (mut_sources m = []))) (EText "harness: memory needs a type, title, content and explicit source")
  else check (bool_decide (mut_title m = "") && bool_decide (mut_body m = "") && bool_decide (mut_kind m = "") && bool_decide (mut_sources m = []))
         (EText "harness: status changes cannot replace memory content").

(** [validatePinTarget]. *)
Definition validatePinTarget (d : db) (pin : option MemoryPin) (project : string) : res unit :=
  match pin with
  | None => Ok tt
  | Some p =>
      _ ← check (is_ok (pin_validate p)) ErrMemoryDenied;
      _ ← check (negb (bool_decide (pin_scope p = "workspace") && negb (bool_decide (pin_target p = project)))) ErrMemoryDenied;
      if bool_decide (pin_scope p = "conversation")
      then match find_conversation (pin_target p) d with
           | Some c => check (bool_decide (cv_workspace c = project)) ErrMemoryDenied
           | None => Err ErrMemoryDenied end
      else Ok tt
  end.

(** The workspace of a run's conversation (the join of the queries below). *)
Definition run_workspace (run : string) (d : db) : option (Run * string) :=
  r ← find_run run d; c ← find_conversation (run_conversation r) d; Some (r, cv_workspace c).

Section mutate.
Context {H : Host}.

(** [validateMemorySources], one source. *)
Definition check_source (d : db) (a : memoryAuthority) (m : MemoryMutation) (s : MemorySource) : res unit :=
  _ ← source_validate s;
  let mine run := au_user a || bool_decide (run = au_run a) in
  let here project := bool_decide (project = au_project a) in
  if bool_decide (so_kind s = "user") then check (au_user a) ErrMemoryDenied
  else if bool_decide (so_kind s = "request") then
    match run_workspace (so_run s) d with
    | Some (r, project) => check (here project && bool_decide (so_hash s = sha256hex (run_prompt r)) && mine (so_run s)) ErrMemoryDenied
    | None => Err ErrMemoryDenied end
  else if bool_decide (so_kind s = "run") then
    match run_workspace (so_run s) d with
    | Some (r, project) => check (here project && bool_decide (run_status r = Completed)
                                  && bool_decide (so_hash s = sha256hex (run_output r)) && mine (so_run s)) ErrMemoryDenied
    | None => Err ErrMemoryDenied end
  else if bool_decide (so_kind s = "attempt") then
    match find_attempt (so_attempt s) d with
    | Some t =>
        match run_workspace (att_run t) d with
        | Some (_, project) =>
            check (here project && bool_decide (att_status t = AFinished)
                   && match att_response t with Some b => bool_decide (so_hash s = hash_response b) | None => false end
                   && bool_decide (so_run s = att_run t) && mine (att_run t)) ErrMemoryDenied
        | None => Err ErrMemoryDenied end
    | None => Err ErrMemoryDenied end
  else if bool_decide (so_kind s = "memory") then
    scope ← (if au_user a then
               match find_entry (so_entry s) d with
               | Some e => if bool_decide (ms_project (me_scope e) = "") || here (ms_project (me_scope e))
                           then Ok (me_scope e) else Err ErrMemoryMissing
               | None => Err ErrMemoryMissing end
             else Ok (mut_scope m));
    match getMemory d a scope (so_entry s) "read" with
    | Ok e => check (bool_decide (me_state e = "active") && (me_revision e =? so_revision s)%Z
                     && bool_decide (so_hash s = sha256hex (me_body e))) ErrMemoryConflict
    | Err _ => Err ErrMemoryConflict end
  else if bool_decide (so_kind s = "file") then
    check (au_user a && bool_decide (so_hash s = sha256hex (mut_body m))
           && bool_decide (default "" (au_files a !! so_path s) = so_hash s)) ErrMemoryDenied
  else Err (EText "harness: unsupported memory source").
Fixpoint check_sources (d : db) (a : memoryAuthority) (m : MemoryMutation) (l : list MemorySource) : res unit :=
  match l with [] => Ok tt | s :: l => _ ← check_source d a m s; check_sources d a m l end.

(** [validateMemoryScopeOwner]. *)
Definition validateMemoryScopeOwner (s : MemoryScope) : M unit :=
  if bool_decide (ms_kind s = "shared") || negb (bool_decide (ms_task s = "")) then
    let owner := if negb (bool_decide (ms_task s = "")) then ms_task s else ms_owner s in
    d ← query id;
    _ ← guard_ (match run_workspace owner d with Some (_, project) => bool_decide (project = ms_project s) | None => false end) ErrMemoryDenied;
    if bool_decide (ms_kind s = "shared") then
      r ← or_else (loadCollaboration owner) ErrMemoryDenied;
      guard_ (bool_decide (cr_parent r = ms_owner s)) ErrMemoryDenied
    else mret tt
  else mret tt.

(** [duplicateKnowledgeSource]: the rows in the order of the table. *)
Definition file_source (l : list MemorySource) : option MemorySource := List.find (λ s, bool_decide (so_kind s = "file")) l.
Fixpoint same_document (wanted : MemorySource) (e : MemoryEntry) (l : list MemorySource) : option (res MemoryReceipt) :=
  match l with
  | [] => None
  | s :: l =>
      if bool_decide (so_kind s = "file") then
        if bool_decide (so_hash s = so_hash wanted) then Some (Ok (mkReceipt (me_id e) (me_revision e) (me_state e) "create" true))
        else if bool_decide (so_path s = so_path wanted) then Some (Err ErrMemoryConflict) else same_document wanted e l
      else same_document wanted e l
  end.
Fixpoint same_documents (wanted : MemorySource) (l : list MemoryEntry) : option (res MemoryReceipt) :=
  match l with
  | [] => None
  | e :: l => match same_document wanted e (me_sources e) with Some r => Some r | None => same_documents wanted l end
  end.
Definition duplicateKnowledgeSource (d : db) (m : MemoryMutation) : res (option MemoryReceipt) :=
  if negb (bool_decide (mut_action m = "create") && bool_decide (ms_kind (mut_scope m) = "knowledge")) then Ok None
  else match file_source (mut_sources m) with
  | None => Ok None
  | Some wanted =>
      match same_documents wanted (filter (λ e, bool_decide (me_scope e = mkScope "knowledge" (ms_owner (mut_scope m)) (ms_project (mut_scope m)) "")
               && negb (bool_decide (me_state e = "deleted")) = true) (mt_entries (memory d))) with
      | Some (Ok r) => Ok (Some r)
      | Some (Err e) => Err e
      | None => Ok None
      end
  end.

(** ** Receipts *)
Definition author_of (a : memoryAuthority) : string := if au_user a then "user" else au_agent a.
(** [memoryOperation]. *)
Definition memoryOperation (a : memoryAuthority) (m : MemoryMutation) : string * string :=
  (sha256hex (author_of a +:+ NUL +:+ au_run a +:+ NUL +:+ json_scope (mut_scope m) +:+ NUL +:+ mut_request_key m),
   sha256hex (json_mutation m)).
(** [savedMemoryReceipt]. *)
Definition duplicate_receipt (r : MemoryReceipt) : MemoryReceipt :=
  mkReceipt (mc_entry r) (mc_revision r) (mc_state r) (mc_action r) true.
Definition savedMemoryReceipt (d : db) (key hash : string) : res (option MemoryReceipt) :=
  match mt_operations (memory d) !! key with
  | None => Ok None
  | Some (previous, r) => if bool_decide (previous = hash) then Ok (Some (duplicate_receipt r)) else Err ErrRequestKey
  end.

Definition change_memory (f : memoryTables → memoryTables) : M unit := write (λ d, set_memory (f (memory d)) d).
(** [saveMemoryReceipt]: INSERT INTO fa.memory_operations. *)
Definition saveMemoryReceipt (key hash : string) (r : MemoryReceipt) : M unit :=
  _ ← nowText;
  d ← query id;
  _ ← guard_ (bool_decide (mt_operations (memory d) !! key = None)) ErrConstraint;
  change_memory (λ t, mkMemory (mt_entries t) (mt_revisions t) (<[key := (hash, r)]> (mt_operations t))).

(** ** The rows *)

(** INSERT INTO fa.memories ... ON CONFLICT(id) DO UPDATE: not the scope and the
    time of creation. *)
Definition overwrite (e old : MemoryEntry) : MemoryEntry :=
  mkEntry (me_pinned e) (me_id old) (me_scope old) (me_revision e) (me_state e) (me_kind e) (me_title e) (me_body e)
    (me_author e) (me_sources e) (me_created_at old) (me_updated_at e).
Definition upsert_entry (e : MemoryEntry) (l : list MemoryEntry) : list MemoryEntry :=
  if existsb (λ x, bool_decide (me_id x = me_id e)) l
  then update_rows (λ x, bool_decide (me_id x = me_id e)) (overwrite e) l
  else l ++ [e].
Definition write_entry (e : MemoryEntry) : M unit :=
  change_memory (λ t, mkMemory (upsert_entry e (mt_entries t)) (mt_revisions t) (mt_operations t)).
(** INSERT INTO fa.memory_revisions, whose primary key is the entry and the
    revision; DELETE FROM fa.memory_revisions. *)
Definition insert_revision (v : MemoryRevision) : M unit :=
  d ← query id;
  _ ← guard_ (negb (existsb (λ x, bool_decide (mv_entry x = mv_entry v) && (mv_revision x =? mv_revision v)%Z) (mt_revisions (memory d)))) ErrConstraint;
  change_memory (λ t, mkMemory (mt_entries t) (mt_revisions t ++ [v]) (mt_operations t)).
Definition delete_revisions (id : string) : M unit :=
  change_memory (λ t, mkMemory (mt_entries t) (filter (λ v, mv_entry v ≠ id) (mt_revisions t)) (mt_operations t)).
Definition revision_of (e : MemoryEntry) (reason : string) : MemoryRevision :=
  mkRevision (me_id e) (me_revision e) (me_state e) (me_kind e) (me_title e) (me_body e) (me_author e) (me_sources e) reason
    (me_updated_at e) (me_pinned e).

(** ** [mutateMemoryTx] *)

(** The entry the mutation starts from, with its next revision. *)
Definition next_entry (a : memoryAuthority) (m : MemoryMutation) : M MemoryEntry :=
  i ← newID; created ← nowText; updated ← nowText;
  if bool_decide (mut_action m = "create") then
    mret (mkEntry None i (mut_scope m) 1 "active" "" "" "" (author_of a) [] created updated)
  else
    d ← query id;
    _ ← guard_ (existsb (λ e, bool_decide (me_id e = mut_entry m) && bool_decide (me_scope e = mut_scope m)) (mt_entries (memory d)))
          (EJoin [ErrMemoryMissing; ErrNoRows]);
    e ← lift (getMemory d a (mut_scope m) (mut_entry m) (mut_action m));
    _ ← guard_ (me_revision e =? mut_expected m)%Z ErrMemoryConflict;
    now ← nowText;
    mret (mkEntry (me_pinned e) (me_id e) (me_scope e) (me_revision e + 1) (me_state e) (me_kind e) (me_title e) (me_body e)
            (author_of a) (me_sources e) (me_created_at e) now).

Definition set_content (m : MemoryMutation) (e : MemoryEntry) : MemoryEntry :=
  mkEntry (me_pinned e) (me_id e) (me_scope e) (me_revision e) (me_state e) (mut_kind m) (mut_title m) (mut_body m)
    (me_author e) (mut_sources m) (me_created_at e) (me_updated_at e).
Definition set_state (state : string) (pin : option MemoryPin) (e : MemoryEntry) : MemoryEntry :=
  mkEntry pin (me_id e) (me_scope e) (me_revision e) state (me_kind e) (me_title e) (me_body e)
    (me_author e) (me_sources e) (me_created_at e) (me_updated_at e).
Definition erase (e : MemoryEntry) : MemoryEntry :=
  mkEntry None (me_id e) (me_scope e) (me_revision e) "deleted" (me_kind e) "" ""
    (me_author e) [] (me_created_at e) (me_updated_at e).

(** The change the action makes, with its own guards. *)
Definition apply_action (a : memoryAuthority) (m : MemoryMutation) (e : MemoryEntry) : res MemoryEntry :=
  let act x := bool_decide (mut_action m = x) in
  let e := if writes_content m then set_content m e else e in
  _ ← check (negb (act "disable" && negb (bool_decide (me_state e = "active"))
                   || act "enable" && negb (bool_decide (me_state e = "disabled")))) ErrMemoryConflict;
  if act "disable" then Ok (set_state "disabled" (me_pinned e) e)
  else if act "enable" then Ok (set_state "active" (me_pinned e) e)
  else if act "pin" then
    _ ← check (au_user a && bool_decide (me_state e = "active") && bool_decide (ms_task (me_scope e) = "")
               && (String.length (me_body e) <=? 2048)%nat) ErrMemoryDenied;
    Ok (set_state (me_state e) (mut_pinned m) e)
  else if act "unpin" then _ ← check (au_user a) ErrMemoryDenied; Ok (set_state (me_state e) None e)
  else if act "delete" then _ ← check (au_user a) ErrMemoryDenied; Ok (erase e)
  else Ok e.

Definition mutateMemoryTx (a : memoryAuthority) (m : MemoryMutation) : M MemoryReceipt :=
  _ ← lift (mutation_validate m);
  d ← query id;
  _ ← lift (validatePinTarget d (mut_pinned m) (au_project a));
  g ← lift (authority_grant a (mut_scope m) (mut_action m));
  _ ← validateMemoryScopeOwner (mut_scope m);
  let key := (memoryOperation a m).1 in let hash := (memoryOperation a m).2 in
  saved ← lift (savedMemoryReceipt d key hash);
  match saved with
  | Some receipt => mret receipt
  | None =>
      e ← next_entry a m;
      _ ← guard_ (me_revision e <=? 256)%Z (EText "harness: memory revision limit reached");
      duplicate ←
        (if writes_content m then
           _ ← guard_ (bool_decide (mg_kinds g = []) || bool_decide (mut_kind m ∈ mg_kinds g)) ErrMemoryDenied;
           _ ← guard_ (au_user a || negb (bool_decide (mut_kind m = "preference") || bool_decide (ms_kind (mut_scope m) = "knowledge")
                 || bool_decide (ms_kind (mut_scope m) = "private") && bool_decide (ms_task (mut_scope m) = ""))) ErrMemoryDenied;
           _ ← lift (check_sources d a m (mut_sources m));
           lift (duplicateKnowledgeSource d m)
         else mret None);
      match duplicate with
      | Some receipt => _ ← saveMemoryReceipt key hash receipt; mret receipt
      | None =>
          e ← lift (apply_action a m e);
          _ ← write_entry e;
          _ ← (if bool_decide (mut_action m = "delete") then delete_revisions (me_id e) else insert_revision (revision_of e (mut_reason m)));
          let receipt := mkReceipt (me_id e) (me_revision e) (me_state e) (mut_action m) false in
          _ ← saveMemoryReceipt key hash receipt;
          mret receipt
      end
  end.

(** ** The user: [SaveMemory] *)
Record MemoryConfig := mkMemoryConfig { mf_knowledge : bool; mf_entries : Z; mf_context_bytes : Z; mf_document_bytes : Z }.
(** [MemoryConfig.validate]. *)
Definition config_validate (c : MemoryConfig) : res unit :=
  check (negb ((mf_entries c <? 1) || (64 <? mf_entries c) || (mf_context_bytes c <? 1024) || (65536 <? mf_context_bytes c)
    || (mf_document_bytes c <? 1024) || (65536 <? mf_document_bytes c))%Z) (EText "harness: memory limits must be finite").

Definition chatAgentKey (chat : string) : string := "chat/agent/" +:+ chat.
(** [AgentIdentity], for a service whose workspace is [project]. *)
Definition AgentIdentity (project chat : string) : M string :=
  c ← query_row (find_conversation chat);
  _ ← guard_ (bool_decide (cv_workspace c = project)) (EJoin [ErrMemoryDenied]);
  d ← query id;
  match meta d !! chatAgentKey chat with
  | None => mret ("chat-" +:+ chat)
  | Some (MText agent) => _ ← guard_ (memoryID agent) ErrStoreFormat; mret agent
  | Some _ => fail ErrStoreFormat
  end.

(** The documents a mutation imports: [document p] is what the file tools read
    at [p]. *)
Fixpoint read_files (document : string → option string) (m : MemoryMutation) (l : list MemorySource) (files : gmap string string)
    : res (gmap string string) :=
  match l with
  | [] => Ok files
  | s :: l =>
      if bool_decide (so_kind s = "file") then
        _ ← check (is_ok (source_validate s)) ErrMemoryDenied;
        _ ← check (match document (so_path s) with
                   | Some raw => bool_decide (raw = mut_body m) && bool_decide (sha256hex raw = so_hash s)
                   | None => false end) ErrMemoryConflict;
        read_files document m l (<[so_path s := so_hash s]> files)
      else read_files document m l files
  end.

Definition default_pin (chat : string) (m : MemoryMutation) : MemoryMutation :=
  if bool_decide (mut_action m = "pin") && bool_decide (mut_pinned m = None)
  then mkMutation (Some (mkPin "conversation" chat)) (mut_request_key m) (mut_action m) (mut_scope m) (mut_entry m) (mut_expected m)
         (mut_kind m) (mut_title m) (mut_body m) (mut_sources m) (mut_reason m)
  else m.

Definition SaveMemory (c : MemoryConfig) (project chat : string) (document : string → option string) (m : MemoryMutation) : M MemoryReceipt :=
  let m := default_pin chat m in
  agent ← AgentIdentity project chat;
  let a := mkAuthority true agent "" "" project [] ∅ in
  _ ← lift (mutation_validate m);
  _ ← lift (authority_grant a (mut_scope m) (mut_action m));
  d ← query id;
  saved ← lift (savedMemoryReceipt d (memoryOperation a m).1 (memoryOperation a m).2);
  match saved with
  | Some receipt => mret receipt
  | None =>
      _ ← guard_ (Z.of_nat (String.length (mut_body m)) <=? mf_document_bytes c)%Z
            (EText "harness: memory content exceeds the configured document limit");
      _ ← guard_ (negb (bool_decide (ms_kind (mut_scope m) = "knowledge") && negb (mf_knowledge c)
                        && bool_decide (mut_action m ∈ ["create"; "update"; "enable"])))
            (EText "harness: knowledge is disabled");
      files ← lift (read_files document m (mut_sources m) ∅);
      transaction (mutateMemoryTx (mkAuthority true agent "" "" project [] files) m)
  end.

(** ** An agent: the tool memory_write (memory_tools.go) *)

(** The last response the run's model gave. *)
Definition last_model_attempt (run : string) (d : db) : option Attempt :=
  foldl (λ best a, if bool_decide (att_run a = run) && bool_decide (att_kind a = KModel) && bool_decide (att_status a = AFinished)
                   then match best with Some b => if (att_seq b <? att_seq a)%Z then Some a else best | None => Some a end
                   else best) None (attempts d).

(** Whether [Definitions] offers the tool. *)
Definition write_offered (p : memoryRunPolicy) : bool :=
  sel_task_private (mp_selection p) || match mp_shared p with Some g => mg_append g || mg_modify g | None => false end.

(** [Prepare], for decoded arguments (a mutation whose request key is not yet
    set), and the transaction it prepares. *)
Definition with_origin (key : string) (sources : list MemorySource) (m : MemoryMutation) : MemoryMutation :=
  mkMutation None key (mut_action m) (mut_scope m) (mut_entry m) (mut_expected m) (mut_kind m) (mut_title m) (mut_body m) sources (mut_reason m).
Definition prepareMemoryWrite (c : MemoryConfig) (p : memoryRunPolicy) (project run attempt : string) (m : MemoryMutation) : res unit :=
  _ ← check (write_offered p && memoryID run && memoryID attempt) ErrMemoryDenied;
  _ ← check (writes_content m && (Z.of_nat (String.length (mut_body m)) <=? mf_document_bytes c)%Z)
        (EText "harness: invalid authorized task-memory write");
  _ ← authority_grant (policy_authority run project p) (mut_scope m) (mut_action m);
  Ok tt.
Definition executeMemoryWrite (p : memoryRunPolicy) (project run attempt : string) (limit : Z) (m : MemoryMutation) : M ToolResult :=
  d ← query id;
  sources ← lift (match mut_sources m with
    | [] => match last_model_attempt run d with
            | Some t => match att_response t with
                        | Some b => Ok [mkSource "attempt" run (att_id t) "" 0 (hash_response b) ""]
                        | None => Err ErrMemoryDenied end
            | None => Err ErrMemoryDenied end
    | l => Ok l end);
  receipt ← mutateMemoryTx (policy_authority run project p) (with_origin attempt sources m);
  d ← query id;
  let uses := match getMemory d (policy_authority run project p) (mut_scope m) (mc_entry receipt) "read" with
              | Ok e => [memoryUse e] | Err _ => [] end in
  _ ← guard_ (Z.of_nat (String.length (json_receipt receipt)) <=? limit)%Z ErrContextLimit;
  mret (mkToolResult [] None false (json_receipt receipt) false [] uses).
End mutate.
