(* ===== verification/BudgetProps.v ===== *)
(** * The collaboration budget: conservation and limits

    The usage of a collaboration is at every moment the sum of what its calls
    hold reserved or were billed; a reservation never takes it past a limit,
    and what a call produced beyond its reservation is reported. *)

From S2P Require Import Prelude Data Sql Store StoreInv StoreProps StoreCalls Budget.

(** ** Sums over the reservations *)
Definition bytes_of (p : outputReservation → bool) (m : gmap string outputReservation) : Z :=
  sum_by (λ kv, if p kv.2 then re_bytes kv.2 else 0%Z) (map_to_list m).

Lemma bytes_of_fresh p m id x :
  m !! id = None → bytes_of p (<[id := x]> m) = ((if p x then re_bytes x else 0) + bytes_of p m)%Z.
Proof. intros Hm. unfold bytes_of. by rewrite (sum_by_perm _ _ _ (map_to_list_insert m id x Hm)). Qed.

Lemma bytes_of_replace p m id x y :
  m !! id = Some y →
  bytes_of p (<[id := x]> m) =
  (bytes_of p m + (if p x then re_bytes x else 0) - (if p y then re_bytes y else 0))%Z.
Proof.
  intros Hm. rewrite <- (insert_delete_id m id y Hm) at 2.
  rewrite <- (insert_delete_eq m id x), !bytes_of_fresh by apply lookup_delete_eq. lia.
Qed.

(** ** The invariant *)
Definition of_child (name : string) (x : outputReservation) : bool := bool_decide (re_child x = name).

Record record_inv (r : collaborationRecord) : Prop := {
  ri_total : us_output_bytes (cr_usage r) = bytes_of (λ _, true) (cr_reservations r);
  ri_child : ∀ c, c ∈ cr_children r →
    ch_output_bytes c = bytes_of (of_child (sp_name (ch_spec c))) (cr_reservations r);
  ri_names : NoDup (map (λ c, sp_name (ch_spec c)) (cr_children r));
  ri_parent : ∀ c, c ∈ cr_children r → sp_name (ch_spec c) ≠ "";
  ri_billed : ∀ id x, cr_reservations r !! id = Some x →
    (0 <= re_observed x <= re_bytes x)%Z ∧ (re_final x = true → re_bytes x = re_observed x);
}.

Section props.
Context {H : Host} {RC : ReadChecks}.

Lemma saveCollaboration_ok r w w' :
  saveCollaboration r w = (Ok tt, w') →
  w_db w' = set_meta (<[collaborationKey (cr_parent r) := MCollaboration r]> (meta (w_db w))) (w_db w).
Proof.
  intros Hs. unfold saveCollaboration in Hs. apply bind_ok in Hs as ([] & w1 & [_ <-]%guard_ok & Hs).
  unfold meta_upsert in Hs. rewrite bind_query in Hs. by apply write_ok in Hs as ->.
Qed.

Lemma loadCollaboration_ok p r w w' :
  loadCollaboration p w = (Ok r, w') →
  w' = w ∧ meta (w_db w) !! collaborationKey p = Some (MCollaboration r) ∧ cr_parent r = p.
Proof.
  intros Hl. unfold loadCollaboration in Hl. rewrite bind_query in Hl. unfold id in Hl.
  destruct (meta _ !! _) as [[]|]; try done.
  apply bind_ok in Hl as ([] & w1 & [Hg <-]%guard_ok & [<- <-]%ret_ok).
  apply negb_true_iff in Hg. bool_prop. done.
Qed.

(** ** The guard as the store sees it *)
Lemma collaborationKey_free p : upsert_free (collaborationKey p).
Proof. split_and!; reflexivity. Qed.

Lemma steps_saveCollaboration r : Steps (saveCollaboration r).
Proof. unfold saveCollaboration. solve_steps. Qed.
Lemma steps_loadCollaboration p : Steps (loadCollaboration p).
Proof. unfold loadCollaboration. solve_steps. Qed.
Hint Resolve steps_saveCollaboration steps_loadCollaboration : steps.
Lemma steps_reservePurpose a r : Steps (reservePurpose a r).
Proof. unfold reservePurpose. solve_steps. Qed.
Lemma steps_reserveCollaborationCall r c a l : Steps (reserveCollaborationCall r c a l).
Proof. unfold reserveCollaborationCall. solve_steps. Qed.
Hint Resolve steps_reservePurpose steps_reserveCollaborationCall : steps.

Lemma steps_guard_reserve p c a : Steps (guard_reserve p c a).
Proof. unfold guard_reserve. solve_steps. intros w. reflexivity. Qed.
Lemma steps_guard_record p c a n f : Steps (guard_record p c a n f).
Proof. unfold guard_record, update_status. solve_steps. Qed.

#[export] Instance collaborationGuard_steps p c : GuardSteps (Some (collaborationGuard p c)).
Proof.
  split; intros k [= <-] *; [apply steps_guard_reserve|apply steps_guard_record].
Qed.

(** Computations that only write [fa.meta]. *)
Lemma meta_readonly {A} (m : M A) : ReadOnly m → MetaOnly m.
Proof. intros Hm w. exists (meta (w_db w)). rewrite Hm. by destruct (w_db w). Qed.
Lemma meta_bind {A B} (m : M A) (f : A → M B) : MetaOnly m → (∀ a, MetaOnly (f a)) → MetaOnly (m ≫= f).
Proof.
  intros Hm Hf w. destruct (Hm w) as [x Hx]. unfold mbind, M_bind. destruct (m w) as [[a|e] w1]; [|eauto].
  destruct (Hf a w1) as [y Hy]. exists y. simpl in *. by rewrite Hy, Hx.
Qed.
Lemma meta_upsert_only k v : MetaOnly (meta_upsert k v).
Proof. intros w. eexists. reflexivity. Qed.
Lemma readonly_lift {A} (r : res A) : ReadOnly (lift r). Proof. done. Qed.
Hint Resolve meta_readonly meta_upsert_only readonly_lift : atomic.

Ltac solve_meta := repeat (intros; cbv zeta; match goal with
  | |- MetaOnly (mbind _ _) => apply meta_bind; [|intros ?]
  | |- MetaOnly (if ?b then _ else _) => destruct b
  | |- MetaOnly (match ?x with _ => _ end) => destruct x
  | |- MetaOnly _ => solve [eauto with atomic]
  end).

Lemma meta_saveCollaboration r : MetaOnly (saveCollaboration r).
Proof. unfold saveCollaboration. solve_meta. Qed.
Lemma meta_loadCollaboration p : MetaOnly (loadCollaboration p).
Proof. unfold loadCollaboration. solve_meta. Qed.
Hint Resolve meta_saveCollaboration meta_loadCollaboration : atomic.
Lemma meta_reserveCall r c a l : MetaOnly (reserveCollaborationCall r c a l).
Proof. unfold reserveCollaborationCall. solve_meta. Qed.
Lemma meta_reservePurpose a r : MetaOnly (reservePurpose a r).
Proof. unfold reservePurpose. solve_meta. Qed.
Hint Resolve meta_reserveCall meta_reservePurpose : atomic.

#[export] Instance collaborationGuard_meta p c : GuardMeta (Some (collaborationGuard p c)).
Proof.
  intros k a [= <-]. simpl. unfold guard_reserve. solve_meta. by apply meta_readonly; intros w.
Qed.

(** Only the parent's guard can end its run (a cancelled collaboration). *)
#[export] Instance collaborationGuard_record_meta p c :
  TCEq (bool_decide (c = "")) false → GuardRecordMeta (Some (collaborationGuard p c)).
Proof.
  intros Hc k a n f [= <-]. simpl. unfold guard_record. apply TCEq_eq in Hc. rewrite Hc, andb_false_r. simpl. solve_meta.
Qed.

(** ** Leases *)
Lemma steps_save_all l : Steps (save_all l).
Proof. induction l; simpl; solve_steps. Qed.
Lemma meta_save_all l : MetaOnly (save_all l).
Proof. induction l; simpl; solve_meta. Qed.
Lemma steps_recoverCollaborationLeases : Steps recoverCollaborationLeases.
Proof. unfold recoverCollaborationLeases. solve_steps. apply steps_save_all. Qed.
Lemma meta_recoverCollaborationLeases : MetaOnly recoverCollaborationLeases.
Proof. unfold recoverCollaborationLeases. solve_meta. apply meta_save_all. Qed.

(** ** Charging a call *)

(** [n] bytes added to the child of that name. *)
Definition shifted (name : string) (n : Z) (c c' : childRecord) : Prop :=
  ch_spec c' = ch_spec c ∧ ch_output_bytes c' = (ch_output_bytes c + if is_child name c then n else 0)%Z.

Lemma shifted_refl name n l : (∀ c, c ∈ l → is_child name c = false) → Forall2 (shifted name n) l l.
Proof.
  intros Hl. apply Forall_Forall2_diag, Forall_forall. intros c Hc. split; [done|]. rewrite (Hl c Hc). simpl. lia.
Qed.

Lemma shifted_all name n l : Forall2 (shifted name n) l (update_rows (is_child name) (child_add n) l).
Proof.
  apply Forall2_fmap_r, Forall_Forall2_diag, Forall_forall. intros c _. unfold shifted. simpl.
  destruct (is_child name c); simpl; split; (done || lia).
Qed.

Lemma shifted_first name n l :
  NoDup (map (λ c, sp_name (ch_spec c)) l) → Forall2 (shifted name n) l (child_add_first name n l).
Proof.
  induction l as [|c l IH]; simpl; [constructor|]. intros [Hc Hl]%NoDup_cons.
  destruct (is_child name c) eqn:E.
  - constructor; [unfold shifted; rewrite E; simpl; done|]. apply shifted_refl. intros x Hx.
    apply bool_decide_eq_false. intros Ex. apply bool_decide_eq_true in E.
    apply Hc. rewrite E, <- Ex. by apply (list_elem_of_fmap_2 (λ c, sp_name (ch_spec c))).
  - constructor; [unfold shifted; rewrite E; simpl; split; [done|lia]|by apply IH].
Qed.

Lemma shifted_names name n l l' :
  Forall2 (shifted name n) l l' → map (λ c, sp_name (ch_spec c)) l' = map (λ c, sp_name (ch_spec c)) l.
Proof. induction 1 as [|c c' l l' [E _] _ IH]; simpl; [done|]. by rewrite E, IH. Qed.

(** A change of one reservation, billed to the total and to its child, keeps
    the books balanced. *)
Lemma charge_inv r r' name n id x :
  record_inv r → us_output_bytes (cr_usage r') = (us_output_bytes (cr_usage r) + n)%Z →
  Forall2 (shifted name n) (cr_children r) (cr_children r') →
  cr_reservations r' = <[id := x]> (cr_reservations r) → re_child x = name →
  (∀ q : string → bool, bytes_of (λ y, q (re_child y)) (<[id := x]> (cr_reservations r)) =
     bytes_of (λ y, q (re_child y)) (cr_reservations r) + if q name then n else 0)%Z →
  (0 <= re_observed x <= re_bytes x)%Z → (re_final x = true → re_bytes x = re_observed x) →
  record_inv r'.
Proof.
  intros [Ht Hc Hn Hp Hb] Hu Hs Hr Hx Hq H1 H2. split.
  - rewrite Hu, Ht, Hr. by rewrite (Hq (λ _, true)).
  - intros c' Hc'. apply list_elem_of_lookup in Hc' as [i Hi].
    destruct (Forall2_lookup_r _ _ _ _ _ Hs Hi) as (c & Hci & Es & Eo).
    apply list_elem_of_lookup_2 in Hci. rewrite Eo, Es, (Hc c Hci), Hr.
    etrans; [|symmetry; exact (Hq (λ s, bool_decide (s = sp_name (ch_spec c))))].
    unfold of_child, is_child. f_equal. repeat case_bool_decide; congruence.
  - by rewrite (shifted_names _ _ _ _ Hs).
  - intros c' Hc'. apply list_elem_of_lookup in Hc' as [i Hi].
    destruct (Forall2_lookup_r _ _ _ _ _ Hs Hi) as (c & Hci & -> & _).
    apply list_elem_of_lookup_2 in Hci. by apply Hp.
  - intros i y. rewrite Hr. intros [[-> <-]|[Hne Hy]]%lookup_insert_Some; [done|by apply Hb in Hy].
Qed.

(** What a successful reservation wrote. *)
Lemma reserveCollaborationCall_ok r child a limit w w' :
  reserveCollaborationCall r child a limit w = (Ok tt, w') →
  record_inv r → cr_reservations r !! att_id a = None → (0 <= cb_call_output_bytes limit)%Z →
  (∀ c, child = Some c → c ∈ cr_children r) →
  ∃ r', meta (w_db w') !! collaborationKey (cr_parent r) = Some (MCollaboration r') ∧
    record_inv r' ∧ cr_plan r' = cr_plan r ∧
    (us_output_bytes (cr_usage r') <= pb_output_bytes (pl_budget (cr_plan r)))%Z ∧
    (us_model_calls (cr_usage r') <= Z.max (us_model_calls (cr_usage r)) (pb_model_calls (pl_budget (cr_plan r))))%Z ∧
    (us_tool_calls (cr_usage r') <= Z.max (us_tool_calls (cr_usage r)) (pb_tool_calls (pl_budget (cr_plan r))))%Z ∧
    (us_model_calls (cr_usage r') + us_tool_calls (cr_usage r')
      = us_model_calls (cr_usage r) + us_tool_calls (cr_usage r) + 1)%Z ∧
    cr_reservations r' = <[att_id a := mkReservation (match child with Some c => sp_name (ch_spec c) | None => "" end)
                                         (cb_call_output_bytes limit) 0 false]> (cr_reservations r) ∧
    (∀ c, child = Some c → ∀ c', c' ∈ cr_children r' → ch_spec c' = ch_spec c →
       ch_output_bytes c' <= cb_output_bytes limit)%Z ∧
    us_replans (cr_usage r') = us_replans (cr_usage r).
Proof.
  intros Hs Hinv Hfresh Hlim Hchild. unfold reserveCollaborationCall in Hs.
  apply bind_ok in Hs as ([] & w1 & H1 & Hs).
  assert (w1 = w ∧ ∀ c, child = Some c → (cb_call_output_bytes limit <= cb_output_bytes limit - ch_output_bytes c)%Z) as [-> Hc].
  { destruct child as [c|]; [|by apply ret_ok in H1 as [_ <-]]. apply guard_ok in H1 as [Hg%Z.leb_le <-].
    split; [done|]. by intros ? [= <-]. }
  apply bind_ok in Hs as ([] & w1 & [Hp%Z.leb_le <-]%guard_ok & Hs).
  apply bind_ok in Hs as ([] & w1 & Hk & Hs). apply saveCollaboration_ok in Hs.
  set (name := match child with Some c => sp_name (ch_spec c) | None => "" end) in *.
  rewrite Hs. simpl.
  assert (Hkind : w1 = w ∧ (us_model_calls (count_call (att_kind a) (cr_usage r)) <=
        Z.max (us_model_calls (cr_usage r)) (pb_model_calls (pl_budget (cr_plan r))))%Z ∧
     (us_tool_calls (count_call (att_kind a) (cr_usage r)) <=
        Z.max (us_tool_calls (cr_usage r)) (pb_tool_calls (pl_budget (cr_plan r))))%Z ∧
     (us_model_calls (count_call (att_kind a) (cr_usage r)) + us_tool_calls (count_call (att_kind a) (cr_usage r))
      = us_model_calls (cr_usage r) + us_tool_calls (cr_usage r) + 1)%Z ∧
     us_output_bytes (count_call (att_kind a) (cr_usage r)) = us_output_bytes (cr_usage r)).
  { destruct (att_kind a); [apply guard_ok in Hk as [?%Z.ltb_lt <-]..|done]; simpl; split_and!; (done || lia). }
  destruct Hkind as (-> & Hm & Ht & Hsum & Ho).
  assert (Hsh : Forall2 (shifted name (cb_call_output_bytes limit)) (cr_children r)
     (match child with Some _ => child_add_first name (cb_call_output_bytes limit) (cr_children r) | None => cr_children r end)).
  { destruct child as [c|]; [apply shifted_first, Hinv|]. apply shifted_refl. intros c Hin.
    apply bool_decide_eq_false. by apply Hinv. }
  assert (Hrp : us_replans (count_call (att_kind a) (cr_usage r)) = us_replans (cr_usage r)) by (by destruct (att_kind a)).
  destruct child as [c|]; (eexists; split; [apply lookup_insert_eq|]); simpl; split_and!; try done; try lia.
  1,3: eapply (charge_inv r _ name (cb_call_output_bytes limit) (att_id a)); simpl;
    [done|by rewrite Ho|exact Hsh|reflexivity|done| |simpl; lia|done];
    intros q; rewrite bytes_of_fresh by done; simpl; destruct (q name); lia.
  intros c0 [= <-] c' Hc' He. apply list_elem_of_lookup in Hc' as [i Hi].
  destruct (Forall2_lookup_r _ _ _ _ _ Hsh Hi) as (c1 & Hci & Es & Eo). apply list_elem_of_lookup_2 in Hci.
  assert (c1 = c) as ->.
  { eapply (NoDup_map_inj (λ c, sp_name (ch_spec c))); [apply Hinv|done|by apply Hchild|]. simpl. congruence. }
  specialize (Hc c eq_refl). rewrite Eo. destruct (is_child name c); lia.
Qed.

(** Limits of a plan the code admits ([ParentBudget.validate], [childConfig]). *)
Record limits_ok (r : collaborationRecord) : Prop := {
  lo_parent : (0 <= pb_output_bytes (pl_budget (cr_plan r)))%Z;
  lo_roles : ∀ name p, pl_roles (cr_plan r) !! name = Some p → (0 <= cb_call_output_bytes (rp_budget p))%Z;
  lo_settings : ∀ c, cr_settings_child r = Some c → (0 <= cb_call_output_bytes c)%Z;
}.

(** A record that differs in what the purposes of a parent's call note. *)
Definition same_books (r r' : collaborationRecord) : Prop :=
  cr_parent r' = cr_parent r ∧ cr_plan r' = cr_plan r ∧ cr_children r' = cr_children r ∧
  cr_reservations r' = cr_reservations r ∧ cr_settings_child r' = cr_settings_child r ∧
  us_output_bytes (cr_usage r') = us_output_bytes (cr_usage r) ∧
  us_model_calls (cr_usage r') = us_model_calls (cr_usage r) ∧
  us_tool_calls (cr_usage r') = us_tool_calls (cr_usage r).

Lemma same_books_inv r r' : same_books r r' → record_inv r → record_inv r'.
Proof. intros (_ & _ & E1 & E2 & _ & E3 & _) []. split; rewrite ?E1, ?E2, ?E3; done. Qed.

Lemma reservePurpose_ok a r r' w w' :
  reservePurpose a r w = (Ok r', w') → w' = w ∧ same_books r r' ∧
  (rq_purpose (decodeModelRequest (att_request a)) = "planning" → planningCalls (cr_parent r) (w_db w) = 0%nat) ∧
  (rq_purpose (decodeModelRequest (att_request a)) = "replanning" →
     us_replans (cr_usage r') = (us_replans (cr_usage r) + 1)%Z ∧
     (us_replans (cr_usage r') <= pl_max_replans (cr_plan r))%Z) ∧
  (rq_purpose (decodeModelRequest (att_request a)) ≠ "replanning" → us_replans (cr_usage r') = us_replans (cr_usage r)).
Proof.
  intros Hs. unfold reservePurpose in Hs. rewrite bind_query in Hs. unfold id in Hs.
  set (q := decodeModelRequest (att_request a)) in *.
  apply bind_ok in Hs as ([] & w1 & H1 & Hs).
  assert (w1 = w ∧ (rq_purpose q = "planning" → planningCalls (cr_parent r) (w_db w) = 0%nat)) as [-> Hpl].
  { destruct (bool_decide (rq_purpose q = "planning")) eqn:E.
    2:{ apply bool_decide_eq_false in E. by apply ret_ok in H1 as [_ <-]. }
    by apply bind_ok in H1 as ([] & w2 & [_ <-]%guard_ok & [?%bool_decide_eq_true <-]%guard_ok). }
  apply bind_ok in Hs as (r1 & w1 & H2 & Hs).
  assert (w1 = w ∧ same_books r r1 ∧ (rq_purpose q = "replanning" →
     us_replans (cr_usage r1) = (us_replans (cr_usage r) + 1)%Z ∧
     (us_replans (cr_usage r1) <= pl_max_replans (cr_plan r))%Z) ∧
     (rq_purpose q ≠ "replanning" → us_replans (cr_usage r1) = us_replans (cr_usage r))) as (-> & Hb & Hre & Hsame).
  { destruct (bool_decide (rq_purpose q = "replanning")) eqn:E.
    2:{ apply bool_decide_eq_false in E. by apply ret_ok in H2 as [<- <-]. }
    apply bind_ok in H2 as ([] & w2 & [Hg <-]%guard_ok & H2). apply bind_ok in H2 as ([] & w2 & [_ <-]%guard_ok & H2).
    apply bind_ok in H2 as (rev & w2 & [_ <-]%lift_ok & H2). apply bind_ok in H2 as ([] & w2 & [_ <-]%guard_ok & H2).
    apply ret_ok in H2 as [<- <-]. apply negb_true_iff, orb_false_iff in Hg as [_ Hg%Z.leb_gt].
    apply bool_decide_eq_true in E. split; [done|]. split; [done|]. split; [intros _; simpl; lia|done]. }
  destruct (bool_decide (rq_purpose q = "synthesis")) eqn:Es; [|by apply ret_ok in Hs as [<- <-]].
  apply bind_ok in Hs as ([] & w2 & [_ <-]%guard_ok & Hs). apply bind_ok in Hs as (g & w2 & [_ <-]%lift_ok & Hs).
  apply bind_ok in Hs as ([] & w2 & [_ <-]%guard_ok & [<- <-]%ret_ok). done.
Qed.

(** A call of the parent that asks for a new plan. *)
Definition replanning_call (name : string) (a : Attempt) : Prop :=
  name = "" ∧ att_kind a = KModel ∧ rq_purpose (decodeModelRequest (att_request a)) = "replanning".

(** C13: A call the guard admits is paid for before it is dispatched, and within
    every limit of the plan. Its reservation is entered and the books stay
    balanced, the usage being the sum of the reservations, in total and for each
    child; the output in total, the model calls and the tool calls stay within
    the plan's limits, the output of a child within its role's; the time the
    parent was active is less than the plan allows; a child that calls is the
    live, running child of that run, holds a lease, and no more leases are given
    than the plan allows; and a call that plans again is counted, within the
    number of times the plan may be made again, any other is not. *)
Theorem reserve_within_budget p name a w w' r :
  meta (w_db w) !! collaborationKey p = Some (MCollaboration r) →
  record_inv r → limits_ok r → cr_reservations r !! att_id a = None →
  (us_model_calls (cr_usage r) <= pb_model_calls (pl_budget (cr_plan r)))%Z →
  (us_tool_calls (cr_usage r) <= pb_tool_calls (pl_budget (cr_plan r)))%Z →
  Reserve (collaborationGuard p name) a w = (Ok tt, w') →
  cr_control r = "running" ∧
  (∃ parent, find_run p (w_db w) = Some parent ∧ (activeElapsed (w_ticks w) parent < pb_active_seconds (pl_budget (cr_plan r)) * 1000)%Z) ∧
  (name = "" → att_run a = p) ∧
  (name ≠ "" → ∃ c, find_child name r = Some c ∧ ch_run c = att_run a ∧ ch_control c = "running" ∧ ch_retired c = false ∧
     name ∈ cr_active r ∧ (zlen (cr_active r) <= pb_concurrent (pl_budget (cr_plan r)))%Z) ∧
  ∃ r' bytes, meta (w_db w') !! collaborationKey p = Some (MCollaboration r') ∧
    record_inv r' ∧ cr_plan r' = cr_plan r ∧
    cr_reservations r' = <[att_id a := mkReservation name bytes 0 false]> (cr_reservations r) ∧
    (us_output_bytes (cr_usage r') <= pb_output_bytes (pl_budget (cr_plan r)))%Z ∧
    (us_model_calls (cr_usage r') <= pb_model_calls (pl_budget (cr_plan r)))%Z ∧
    (us_tool_calls (cr_usage r') <= pb_tool_calls (pl_budget (cr_plan r)))%Z ∧
    (∀ c, find_child name r = Some c → name ≠ "" → ∀ c', c' ∈ cr_children r' → ch_spec c' = ch_spec c →
       ch_output_bytes c' <= cb_output_bytes (role_budget r (sp_role (ch_spec c))))%Z ∧
    (replanning_call name a → us_replans (cr_usage r') = us_replans (cr_usage r) + 1 ∧ us_replans (cr_usage r') <= pl_max_replans (cr_plan r))%Z ∧
    (¬ replanning_call name a → us_replans (cr_usage r') = us_replans (cr_usage r)).
Proof.
  intros Hm Hinv Hlim Hfresh Hmc Htc Hr. simpl in Hr. unfold guard_reserve in Hr.
  apply bind_ok in Hr as (r0 & w0 & (-> & Hm0 & Hp)%loadCollaboration_ok & Hr).
  rewrite Hm in Hm0. injection Hm0 as <-.
  apply bind_ok in Hr as ([] & w0 & [Hc%bool_decide_eq_true <-]%guard_ok & Hr). split; [done|].
  apply bind_ok in Hr as (pa & w0 & [Hpa <-]%query_row_ok & Hr).
  apply bind_ok in Hr as (now & w0 & [= <- <-] & Hr).
  apply bind_ok in Hr as ([] & w0 & [Htime%Z.ltb_lt <-]%guard_ok & Hr). split; [by exists pa|].
  case_bool_decide as Hn.
  - subst name. apply bind_ok in Hr as ([] & w0 & [Hrun%bool_decide_eq_true <-]%guard_ok & Hr).
    split; [intros _; congruence|]. split; [done|].
    apply bind_ok in Hr as (r1 & w0 & H1 & Hr).
    assert (w0 = w ∧ same_books r r1 ∧
      (replanning_call "" a → us_replans (cr_usage r1) = us_replans (cr_usage r) + 1 ∧ us_replans (cr_usage r1) <= pl_max_replans (cr_plan r))%Z ∧
      (¬ replanning_call "" a → us_replans (cr_usage r1) = us_replans (cr_usage r))) as (-> & Hb & Hr1 & Hr2).
    { unfold replanning_call. destruct (att_kind a); [|by apply ret_ok in H1 as [<- <-]; split_and!; try done; intros (_ & ? & _)..].
      apply reservePurpose_ok in H1 as (-> & ? & _ & Hyes & Hno). split_and!; [done|done|intros (_ & _ & ?); by apply Hyes|].
      intros Hx. apply Hno. intros E. by apply Hx. }
    pose proof Hb as (Ep & Epl & _ & Er & Es & _ & Em & Et).
    apply reserveCollaborationCall_ok in Hr as (r2 & Hm2 & Hi2 & Hpl & Ho & H1m & H1t & _ & Hres & _ & Hrp);
      [|by eapply same_books_inv|by rewrite Er| |done].
    + rewrite Ep, Hp in Hm2. rewrite ?Epl, ?Em, ?Et, ?Er in *. exists r2. eexists. rewrite Hrp. split_and!; try done; lia.
    + unfold parentLimit. simpl. rewrite Epl, Es. destruct Hlim. destruct (cr_settings_child r) eqn:E; [by auto|lia].
  - destruct (find_child name r) as [c|] eqn:Ec; [|done]. split; [done|].
    apply find_elem in Ec as [Hcin Hcn%bool_decide_eq_true].
    apply bind_ok in Hr as ([] & w0 & [Hg <-]%guard_ok & Hr). apply bind_ok in Hr as ([] & w0 & [_ <-]%guard_ok & Hr).
    rewrite bind_query in Hr. apply bind_ok in Hr as ([] & w0 & [_ <-]%lift_ok & Hr).
    apply bind_ok in Hr as ([] & w0 & [Hact <-]%guard_ok & Hr).
    apply negb_true_iff, orb_false_iff in Hg as [[Hg1%negb_false_iff%bool_decide_eq_true Hg2%negb_false_iff%bool_decide_eq_true]%orb_false_iff Hg3].
    apply andb_true_iff in Hact as [Hact%bool_decide_eq_true Hlen%Z.leb_le]. split; [by exists c|].
    apply reserveCollaborationCall_ok in Hr as (r2 & Hm2 & Hi2 & Hpl & Ho & H1m & H1t & _ & Hres & Hch & Hrp);
      [|done..| |by intros ? [= <-]].
    + rewrite Hp in Hm2. rewrite Hcn in Hres. exists r2. eexists. split_and!; try done; try lia.
      * intros c0 [= <-] _. by apply Hch.
      * by intros [? _].
    + unfold role_budget. destruct (pl_roles (cr_plan r) !! _) eqn:E; [by eapply lo_roles|simpl; lia].
Qed.

(** The books after a settlement. *)
Lemma settle_inv r name id x size final :
  record_inv r → cr_reservations r !! id = Some x → re_child x = name →
  record_inv (settle_reservation name id x size final r).
Proof.
  intros Hinv Hx Hch. destruct (ri_billed _ Hinv _ _ Hx) as [Hb _].
  set (obs := Z.max (re_observed x) size). set (billed := if final then obs else Z.max (re_bytes x) obs).
  eapply (charge_inv r _ name (billed - re_bytes x) id (mkReservation (re_child x) billed obs final)); try done.
  - apply shifted_all.
  - intros q. rewrite (bytes_of_replace _ _ _ _ x Hx). simpl. rewrite Hch. destruct (q name); lia.
  - simpl. unfold billed, obs. destruct final; lia.
  - simpl. unfold billed, obs. by intros ->.
Qed.

(** The part of [Record] that ends a cancelled parent. *)
Definition cancel_parent (r : collaborationRecord) (b : bool) : M unit :=
  if b then _ ← update_status (by_id (cr_parent r)) Abandoned
                  "collaboration cancelled; saved results and UNKNOWN retained";
            mret tt
  else mret tt.

Lemma cancel_parent_cases r b w :
  (∃ w', cancel_parent r b w = (Ok tt, w') ∧ meta (w_db w') = meta (w_db w)) ∨
  (∃ e w', cancel_parent r b w = (Err e, w') ∧ isOutputLimit e = false).
Proof.
  destruct (cancel_parent r b w) as [[[]|e] w2] eqn:E; [left; exists w2|right; exists e, w2]; (split; [done|]).
  - unfold cancel_parent in E. destruct b; [|by apply ret_ok in E as [_ <-]].
    by apply bind_ok in E as (k & w3 & (_ & _ & _ & _ & ?)%update_status_ok & [_ <-]%ret_ok).
  - revert E. cut (NoLimit (cancel_parent r b)); [intros Hn; apply Hn|].
    unfold cancel_parent, update_status. destruct b; solve_nolimit.
Qed.

(** A settlement that went through, or reported an output limit, saved the new
    books; success means the final checks passed. *)
Lemma guard_record_split p name a size final w w' res r x :
  meta (w_db w) !! collaborationKey p = Some (MCollaboration r) →
  cr_reservations r !! att_id a = Some x →
  guard_record p name a size final w = (res, w') →
  (res = Ok tt ∨ ∃ e, res = Err e ∧ isOutputLimit e = true) →
  let r' := settle_reservation name (att_id a) x size final r in
  re_final x = false ∧ re_child x = name ∧
  meta (w_db w') !! collaborationKey p = Some (MCollaboration r') ∧
  (res = Ok tt →
    (Z.max (re_observed x) size <= cb_call_output_bytes (recordLimit name r'))%Z ∧
    (name ≠ "" → ch_output_bytes (recordChild r' name) <= cb_output_bytes (recordLimit name r'))%Z ∧
    (us_output_bytes (cr_usage r') <= pb_output_bytes (pl_budget (cr_plan r')))%Z).
Proof.
  intros Hm Hx Hr Hres. cbv zeta. unfold guard_record in Hr. unfold mbind at 1, M_bind at 1 in Hr.
  destruct (loadCollaboration p w) as [[r0|e] w0] eqn:E; [|exfalso].
  2:{ injection Hr as <- <-. unfold loadCollaboration in E. rewrite bind_query in E. unfold id in E.
      rewrite Hm in E. destruct (negb _) in E; [done|]. injection E as <- <-. naive_solver. }
  apply loadCollaboration_ok in E as (-> & E & Hp). rewrite Hm in E. injection E as <-. rewrite Hx in Hr.
  unfold mbind at 1, M_bind at 1, guard_ at 1 in Hr.
  destruct (negb (bool_decide (re_child x = name)) || re_final x) eqn:Hg; simpl in Hr.
  { injection Hr as <- <-. naive_solver. }
  apply orb_false_iff in Hg as [Hch%negb_false_iff%bool_decide_eq_true Hfin].
  split; [done|]. split; [done|].
  set (r' := settle_reservation name (att_id a) x size final r) in *.
  unfold mbind at 1, M_bind at 1 in Hr. destruct (saveCollaboration r' w) as [[[]|e] w1] eqn:Hsave.
  2:{ exfalso. injection Hr as <- <-. unfold saveCollaboration, guard_, mbind, M_bind in Hsave.
      destruct (_ <=? _)%Z; [done|]. injection Hsave as <- <-. naive_solver. }
  apply saveCollaboration_ok in Hsave.
  set (cancel := if final && _ && _ then _ else _) in Hr.
  change cancel with (cancel_parent r' (final && bool_decide (name = "") && bool_decide (cr_control r' = "cancelled"))) in Hr.
  unfold mbind at 1, M_bind at 1 in Hr.
  destruct (cancel_parent_cases r' (final && bool_decide (name = "") && bool_decide (cr_control r' = "cancelled")) w1)
    as [(w2 & Hc & Hm2)|(e & w2 & Hc & Hne)]; rewrite Hc in Hr; clear cancel.
  2:{ injection Hr as <- <-. destruct Hres as [|(?&[= <-]&?)]; congruence. }
  set (g1 := negb _) in Hr. set (g2 := (_ <=? _)%Z) in Hr.
  assert (w' = w2 ∧ (res = Ok tt → g1 = true ∧ g2 = true)) as [-> Hok].
  { unfold guard_, mbind, M_bind in Hr. destruct g1, g2; by injection Hr as <- <-. }
  split; [rewrite Hm2, Hsave; simpl; rewrite Hp; apply lookup_insert_eq|].
  intros [[H1%Z.ltb_ge H1']%negb_true_iff%orb_false_iff H2%Z.leb_le]%Hok. split; [done|]. split; [|done].
  intros Hne. rewrite bool_decide_eq_false_2 in H1' by done. by apply Z.ltb_ge in H1'.
Qed.

(** C14: settling a call replaces its reservation by what is billed, never less
    than what the call was seen to produce: the books stay balanced also when
    an output limit is reported; a final settlement bills exactly the observed
    output, happens once, and success means that the call and the totals are
    within the limits. *)
Theorem settle_conserves p name a size final w w' res r x :
  meta (w_db w) !! collaborationKey p = Some (MCollaboration r) →
  record_inv r → cr_reservations r !! att_id a = Some x →
  Record_ (collaborationGuard p name) a size final w = (res, w') →
  (res = Ok tt ∨ ∃ e, res = Err e ∧ isOutputLimit e = true) →
  re_final x = false ∧ re_child x = name ∧
  ∃ r' y, meta (w_db w') !! collaborationKey p = Some (MCollaboration r') ∧ record_inv r' ∧
    cr_reservations r' = <[att_id a := y]> (cr_reservations r) ∧
    re_child y = name ∧ re_final y = final ∧ re_observed y = Z.max (re_observed x) size ∧
    re_bytes y = (if final then re_observed y else Z.max (re_bytes x) (re_observed y)) ∧
    us_output_bytes (cr_usage r') = (us_output_bytes (cr_usage r) + re_bytes y - re_bytes x)%Z ∧
    (res = Ok tt → (us_output_bytes (cr_usage r') <= pb_output_bytes (pl_budget (cr_plan r)))%Z ∧
       (re_observed y <= cb_call_output_bytes (recordLimit name r'))%Z ∧
       (name ≠ "" → ch_output_bytes (recordChild r' name) <= cb_output_bytes (recordLimit name r'))%Z).
Proof.
  intros Hm Hinv Hx Hr Hres.
  destruct (guard_record_split _ _ _ _ _ _ _ _ _ _ Hm Hx Hr Hres) as (Hfin & Hch & Hm' & Hok).
  split; [done|]. split; [done|]. eexists _, _. split; [exact Hm'|]. split; [by apply settle_inv|].
  split; [reflexivity|]. simpl. split_and!; try done; [lia|].
  intros Ht. destruct (Hok Ht) as (H1 & H2 & H3). simpl in *. auto.
Qed.

(** A settled reservation stays settled: recording a call again after its
    final settlement fails and changes nothing. *)
Theorem settled_once p name a size final w r x :
  meta (w_db w) !! collaborationKey p = Some (MCollaboration r) →
  cr_reservations r !! att_id a = Some x → re_final x = true →
  ∃ e, Record_ (collaborationGuard p name) a size final w = (Err e, w) ∧ isOutputLimit e = false.
Proof.
  intros Hm Hx Hfin. simpl. unfold guard_record. unfold mbind at 1, M_bind at 1.
  destruct (loadCollaboration p w) as [[r0|e] w0] eqn:E.
  - apply loadCollaboration_ok in E as (-> & E & Hp). rewrite Hm in E. injection E as <-. rewrite Hx.
    rewrite Hfin, orb_true_r. by eexists.
  - unfold loadCollaboration in E. rewrite bind_query in E. unfold id in E.
    rewrite Hm in E. destruct (negb _) in E; [done|]. injection E as <- <-. by eexists.
Qed.
End props.

(** ** Witnesses *)
#[local] Existing Instances Demo.host Demo.checks.

Module BudgetDemo.
Import Demo.
Definition budget : ParentBudget := mkParentBudget 4 10 10 4096 2 60.
Definition role : RoleProfile := mkRoleProfile "Look around" "" ["file_read"] ["."] "text" "" [] (mkChildBudget 5 60 2048 256)
  (mkRoleMemory "" (mkMemorySelection [] [] [] [] false) (mkShared false false false [] [])).
Definition child : childRecord := mkChild (mkChildSpec "scout" "reader" "look" "" [] []) "x" "running" 0 false [] false.
Definition record : collaborationRecord :=
  mkRecord "x" (mkPlan "do it" budget {["reader" := role]} [ch_spec child] false 1 false) "running"
    (mkUsage 1 0 0 0 1 0) [child] ["scout"] ∅ "" "" None false false 1 "" [] "" "" "".
Definition wb : world := (saveCollaboration record w3).2.
Definition key := collaborationKey "x".
Definition reserved := guard_reserve "x" "scout" tool_attempt wb.
Definition r1 : collaborationRecord :=
  match meta (w_db reserved.2) !! key with Some (MCollaboration r) => r | _ => record end.

Lemma wb_record : meta (w_db wb) !! key = Some (MCollaboration record).
Proof. vm_compute. reflexivity. Qed.
Lemma record_balanced : record_inv record.
Proof.
  split; simpl; [reflexivity| | | |].
  - by intros c ->%list_elem_of_singleton.
  - apply NoDup_singleton.
  - by intros c ->%list_elem_of_singleton.
  - by intros id x ?%lookup_empty_Some.
Qed.
Lemma limits : limits_ok record.
Proof.
  split; simpl; [lia| |done]. intros n p [<- <-]%lookup_singleton_Some. simpl. lia.
Qed.
Lemma reserved_ok : Reserve (collaborationGuard "x" "scout") tool_attempt wb = (Ok tt, reserved.2).
Proof. vm_compute. reflexivity. Qed.
Lemma r1_saved : meta (w_db reserved.2) !! key = Some (MCollaboration r1).
Proof. vm_compute. reflexivity. Qed.
Definition x1 : outputReservation := mkReservation "scout" 256 0 false.
Lemma r1_reserved : cr_reservations r1 !! att_id tool_attempt = Some x1.
Proof. vm_compute. reflexivity. Qed.
Definition settled := guard_record "x" "scout" tool_attempt 100 true reserved.2.
Lemma settled_ok : Record_ (collaborationGuard "x" "scout") tool_attempt 100 true reserved.2 = (Ok tt, settled.2).
Proof. vm_compute. reflexivity. Qed.
Definition r2 : collaborationRecord :=
  match meta (w_db settled.2) !! key with Some (MCollaboration r) => r | _ => record end.
Definition x2 : outputReservation := mkReservation "scout" 100 100 true.
Lemma r2_saved : meta (w_db settled.2) !! key = Some (MCollaboration r2).
Proof. vm_compute. reflexivity. Qed.
Lemma r2_settled : cr_reservations r2 !! att_id tool_attempt = Some x2.
Proof. vm_compute. reflexivity. Qed.
End BudgetDemo.
Import Demo BudgetDemo.

Lemma reserve_within_budget_witness :
  "scout" ∈ cr_active record ∧
  ∃ r', meta (w_db reserved.2) !! collaborationKey "x" = Some (MCollaboration r') ∧ record_inv r' ∧ us_replans (cr_usage r') = us_replans (cr_usage record).
Proof.
  destruct (reserve_within_budget "x" "scout" Demo.tool_attempt wb reserved.2 record wb_record record_balanced limits
    (lookup_empty _) ltac:(simpl; lia) ltac:(simpl; lia) reserved_ok) as (_ & _ & _ & Hc & r' & b & H1 & H2 & _ & _ & _ & _ & _ & _ & _ & Hr).
  destruct (Hc ltac:(discriminate)) as (c & _ & _ & _ & _ & Hact & _). split; [exact Hact|].
  exists r'. split; [exact H1|split; [exact H2|]]. apply Hr. intros (E & _). discriminate E.
Defined.

Lemma r1_inv : record_inv r1.
Proof.
  destruct (reserveCollaborationCall_ok record (Some child) Demo.tool_attempt (rp_budget role) wb reserved.2)
    as (r' & Hr & Hi & _).
  - vm_compute. reflexivity.
  - exact record_balanced.
  - apply lookup_empty.
  - simpl. lia.
  - intros c [= <-]. apply list_elem_of_singleton. reflexivity.
  - pose proof r1_saved as Hs. unfold key in Hs. change (cr_parent record) with "x" in Hr. rewrite Hr in Hs.
    injection Hs as <-. exact Hi.
Qed.

Lemma settle_conserves_witness :
  ∃ r', meta (w_db settled.2) !! collaborationKey "x" = Some (MCollaboration r') ∧ record_inv r'.
Proof.
  destruct (settle_conserves "x" "scout" Demo.tool_attempt 100 true reserved.2 settled.2 (Ok tt) r1 x1
    r1_saved r1_inv r1_reserved settled_ok (or_introl eq_refl)) as (_ & _ & r' & y & H1 & H2 & _).
  exists r'. split; [exact H1|exact H2].
Defined.

Lemma settled_once_witness :
  ∃ e, Record_ (collaborationGuard "x" "scout") Demo.tool_attempt 7 false settled.2 = (Err e, settled.2)
       ∧ isOutputLimit e = false.
Proof.
  exact (settled_once "x" "scout" Demo.tool_attempt 7 false settled.2 r2 x2 r2_saved r2_settled eq_refl).
Defined.
