(* ===== verification/Lark.v ===== *)
(** * The Lark websocket frame

    Model of src/internal/channels/lark_frame.go: the bounded protobuf codec
    of a frame ([Marshal], [wireRead], [DecodeLarkFrame]) and the reassembly of
    fragmented messages ([LarkAssembler]). A byte is a [Z] in [0, 256), a
    uint64 a [Z] in [0, 2^64), a Go string or byte slice a list of bytes; the
    standard library's varint functions (encoding/binary) and [strconv.Atoi]
    are translated with the rest. *)

From S2P Require Import Prelude.
#[local] Open Scope Z_scope.

Notation bytes := (list Z).
Definition is_byte (b : Z) : Prop := 0 <= b < 256.
Definition u64 (x : Z) : Z := x mod 2 ^ 64.

(** ** encoding/binary *)

(** [binary.AppendUvarint]: ten bytes suffice for a uint64. *)
Fixpoint uvarint_bytes (fuel : nat) (v : Z) : bytes :=
  match fuel with
  | O => []
  | S fuel => if v <? 128 then [Z.land v 255]
              else Z.lor (Z.land v 255) 128 :: uvarint_bytes fuel (Z.shiftr v 7)
  end.
Definition AppendUvarint (out : bytes) (v : Z) : bytes := out ++ uvarint_bytes 10 v.

(** [binary.Uvarint]: the value and the number of bytes read, not positive on
    failure. *)
Fixpoint uvarint_loop (i : Z) (x s : Z) (buf : bytes) : Z * Z :=
  match buf with
  | [] => (0, 0)
  | b :: buf =>
      if i =? 10 then (0, - (i + 1))
      else if b <? 128 then
        if (i =? 9) && (1 <? b) then (0, - (i + 1)) else (Z.lor x (u64 (Z.shiftl b s)), i + 1)
      else uvarint_loop (i + 1) (Z.lor x (u64 (Z.shiftl (Z.land b 127) s))) (s + 7) buf
  end.
Definition Uvarint (buf : bytes) : Z * Z := uvarint_loop 0 0 0 buf.

(** ** Marshalling *)
Definition wireVar (out : bytes) (field value : Z) : bytes :=
  AppendUvarint (AppendUvarint out (u64 (Z.shiftl field 3))) value.
Definition wireBytes (out : bytes) (field : Z) (value : bytes) : bytes :=
  AppendUvarint (AppendUvarint out (Z.lor (u64 (Z.shiftl field 3)) 2)) (zlen value) ++ value.

Record LarkFrame := mkFrame {
  lf_seq : Z; lf_log : Z; lf_service : Z; lf_method : Z;
  lf_headers : gmap bytes bytes;
  lf_encoding : bytes; lf_type : bytes;
  lf_payload : bytes; lf_log_new : bytes;
}.

(** The order of Go strings. *)
Fixpoint bytes_leb (a b : bytes) : bool :=
  match a, b with
  | [], _ => true
  | _ :: _, [] => false
  | x :: a, y :: b => (x <? y) || (x =? y) && bytes_leb a b
  end.
Definition bytes_le (a b : bytes) : Prop := bytes_leb a b = true.
#[export] Instance bytes_le_dec : RelDecision bytes_le := λ a b, bool_eq_dec (bytes_leb a b) true.

Definition sorted_keys (m : gmap bytes bytes) : list bytes := merge_sort bytes_le (map_to_list m).*1.

Definition header_entry (m : gmap bytes bytes) (key : bytes) : bytes :=
  wireBytes (wireBytes [] 1 key) 2 (default [] (m !! key)).

Definition Marshal (f : LarkFrame) : bytes :=
  let out := wireVar [] 1 (lf_seq f) in
  let out := wireVar out 2 (lf_log f) in
  let out := wireVar out 3 (lf_service f) in
  let out := wireVar out 4 (lf_method f) in
  let out := foldl (λ out key, wireBytes out 5 (header_entry (lf_headers f) key)) out
               (sorted_keys (lf_headers f)) in
  let out := wireBytes out 6 (lf_encoding f) in
  let out := wireBytes out 7 (lf_type f) in
  let out := wireBytes out 8 (lf_payload f) in
  wireBytes out 9 (lf_log_new f).

(** ** Reading *)

(** One field: its number, its value or its bytes, and what follows. *)
Definition wireField (raw : bytes) : res (Z * Z * bytes * bytes) :=
  let '(tag, n) := Uvarint raw in
  if (n <=? 0) || (Z.shiftr tag 3 =? 0) then Err (EText "lark: invalid protobuf tag")
  else
    let raw := drop (Z.to_nat n) raw in
    match Z.land tag 7 with
    | 0 => let '(v, n) := Uvarint raw in
           if n <=? 0 then Err (EText "lark: invalid varint")
           else Ok (Z.shiftr tag 3, v, [], drop (Z.to_nat n) raw)
    | 2 => let '(size, n) := Uvarint raw in
           if (n <=? 0) || (zlen raw - n <? size) then Err (EText "lark: invalid field length")
           else let raw := drop (Z.to_nat n) raw in
                Ok (Z.shiftr tag 3, 0, take (Z.to_nat size) raw, drop (Z.to_nat size) raw)
    | 1 => if zlen raw <? 8 then Err (EText "lark: truncated field")
           else Ok (Z.shiftr tag 3, 0, [], drop 8 raw)
    | 5 => if zlen raw <? 4 then Err (EText "lark: truncated field")
           else Ok (Z.shiftr tag 3, 0, [], drop 4 raw)
    | _ => Err (EText "lark: unsupported protobuf wire type")
    end.

(** [wireRead]; [call] threads the state its closure updates. *)
Fixpoint wireReadFuel {S} (fuel : nat) (call : Z → Z → bytes → S → S * option error)
    (raw : bytes) (s : S) : S * option error :=
  match raw with
  | [] => (s, None)
  | _ =>
      match fuel with
      | O => (s, Some (EText "out of fuel"))
      | Datatypes.S fuel =>
          match wireField raw with
          | Err e => (s, Some e)
          | Ok (field, v, b, rest) =>
              match call field v b s with
              | (s, Some e) => (s, Some e)
              | (s, None) => wireReadFuel fuel call rest s
              end
          end
      end
  end.
Definition wireRead {S} (call : Z → Z → bytes → S → S * option error) (raw : bytes) (s : S) :=
  wireReadFuel (length raw) call raw s.

(** ** Decoding *)
Definition header_field (field v : Z) (b : bytes) (s : bytes * bytes) : (bytes * bytes) * option error :=
  let s := if field =? 1 then (b, s.2) else s in
  let s := if field =? 2 then (s.1, b) else s in
  (s, None).

Definition set_headers (m : gmap bytes bytes) (f : LarkFrame) : LarkFrame :=
  mkFrame (lf_seq f) (lf_log f) (lf_service f) (lf_method f) m (lf_encoding f) (lf_type f) (lf_payload f) (lf_log_new f).

Definition frame_field (field v : Z) (b : bytes) (f : LarkFrame) : LarkFrame * option error :=
  match field with
  | 1 => (mkFrame v (lf_log f) (lf_service f) (lf_method f) (lf_headers f) (lf_encoding f) (lf_type f) (lf_payload f) (lf_log_new f), None)
  | 2 => (mkFrame (lf_seq f) v (lf_service f) (lf_method f) (lf_headers f) (lf_encoding f) (lf_type f) (lf_payload f) (lf_log_new f), None)
  | 3 => (mkFrame (lf_seq f) (lf_log f) v (lf_method f) (lf_headers f) (lf_encoding f) (lf_type f) (lf_payload f) (lf_log_new f), None)
  | 4 => (mkFrame (lf_seq f) (lf_log f) (lf_service f) v (lf_headers f) (lf_encoding f) (lf_type f) (lf_payload f) (lf_log_new f), None)
  | 5 =>
      if (64 <=? Z.of_nat (size (lf_headers f))) || (4096 <? zlen b) then (f, Some (EText "lark: headers exceed limit"))
      else match wireRead header_field b ([], []) with
           | (_, Some e) => (f, Some e)
           | ((k, value), None) =>
               match lf_headers f !! k with
               | Some _ => (f, Some (EText "lark: repeated header"))
               | None => (set_headers (<[k := value]> (lf_headers f)) f, None)
               end
           end
  | 6 => (mkFrame (lf_seq f) (lf_log f) (lf_service f) (lf_method f) (lf_headers f) b (lf_type f) (lf_payload f) (lf_log_new f), None)
  | 7 => (mkFrame (lf_seq f) (lf_log f) (lf_service f) (lf_method f) (lf_headers f) (lf_encoding f) b (lf_payload f) (lf_log_new f), None)
  | 8 => (mkFrame (lf_seq f) (lf_log f) (lf_service f) (lf_method f) (lf_headers f) (lf_encoding f) (lf_type f) b (lf_log_new f), None)
  | 9 => (mkFrame (lf_seq f) (lf_log f) (lf_service f) (lf_method f) (lf_headers f) (lf_encoding f) (lf_type f) (lf_payload f) b, None)
  | _ => (f, None)
  end.

Definition zeroFrame : LarkFrame := mkFrame 0 0 0 0 ∅ [] [] [] [].
Definition json_ : bytes := [106; 115; 111; 110].

Definition DecodeLarkFrame (raw : bytes) : res LarkFrame :=
  if 1048576 <? zlen raw then Err (EText "lark: frame exceeds limit")
  else
    let '(f, err) := wireRead frame_field raw zeroFrame in
    if negb (bool_decide (lf_encoding f = [])) && negb (bool_decide (lf_encoding f = json_))
    then Err (EText "lark: unsupported payload encoding")
    else match err with Some e => Err e | None => Ok f end.

(** ** Reassembly *)
Record larkParts := mkParts {
  lp_at : Z;                       (** the clock, in nanoseconds *)
  lp_parts : list (option bytes);
  lp_size : Z;
  lp_service : Z;
}.

Notation assembler := (gmap bytes larkParts).
Definition NewLarkAssembler : assembler := ∅.

(** [strconv.Atoi]. *)
Definition is_digit (c : Z) : bool := (48 <=? c) && (c <=? 57).
Definition decimal (s : bytes) : Z := foldl (λ n c, 10 * n + (c - 48)) 0 s.
Definition Atoi (s : bytes) : option Z :=
  let '(neg, digits) := match s with
                        | 45 :: s => (true, s)
                        | 43 :: s => (false, s)
                        | _ => (false, s) end in
  if negb (bool_decide (digits = [])) && forallb is_digit digits then
    let n := if neg then - decimal digits else decimal digits in
    if (- 2 ^ 63 <=? n) && (n <? 2 ^ 63) then Some n else None
  else None.

(** [validID] (app_api.go). *)
Definition id_char (c : Z) : bool :=
  (97 <=? c) && (c <=? 122) || (65 <=? c) && (c <=? 90) || is_digit c
  || (c =? 95) || (c =? 45) || (c =? 58) || (c =? 46).
Definition validID (id : bytes) : bool := (1 <=? zlen id) && (zlen id <=? 256) && forallb id_char id.

Definition h_sum : bytes := [115; 117; 109].
Definition h_seq : bytes := [115; 101; 113].
Definition h_message_id : bytes := [109; 101; 115; 115; 97; 103; 101; 95; 105; 100].
Definition header (f : LarkFrame) (k : bytes) : bytes := default [] (lf_headers f !! k).

(** Fragments of messages that stalled for more than five seconds are dropped. *)
Definition purge (now : Z) (a : assembler) : assembler := filter (λ kv, (now - lp_at kv.2 <= 5000000000)%Z) a.

Definition joined (parts : list (option bytes)) : bytes := concat (omap id parts).

(** [Add] at time [now]: the assembler it leaves, and the payload when the
    message is complete. *)
Definition Add (a : assembler) (now : Z) (f : LarkFrame) : assembler * res (bytes * bool) :=
  let sum := if bool_decide (header f h_sum = []) then Some 1 else Atoi (header f h_sum) in
  match sum with
  | None => (a, Err (EText "lark: invalid fragment count"))
  | Some sum =>
      if (sum <? 1) || (64 <? sum) then (a, Err (EText "lark: invalid fragment count"))
      else if sum =? 1 then (a, Ok (lf_payload f, true))
      else
        let id := header f h_message_id in
        match Atoi (header f h_seq) with
        | None => (a, Err (EText "lark: invalid fragment"))
        | Some seq =>
            if (seq <? 0) || (sum <=? seq) || negb (validID id) then (a, Err (EText "lark: invalid fragment"))
            else
              let a := purge now a in
              let entry := match a !! id with
                           | Some e => Some e
                           | None => if (16 <=? Z.of_nat (size a)) then None
                                     else Some (mkParts now (replicate (Z.to_nat sum) None) 0 (lf_service f))
                           end in
              match entry with
              | None => (a, Err (EText "lark: fragment capacity reached"))
              | Some e =>
                  let a := <[id := e]> a in
                  if negb (zlen (lp_parts e) =? sum) || negb (lp_service e =? lf_service f)
                  then (a, Err (EText "lark: inconsistent fragments"))
                  else
                    let stored := match lp_parts e !! Z.to_nat seq with Some (Some p) => Some p | _ => None end in
                    match stored with
                    | Some p =>
                        if negb (bool_decide (p = lf_payload f)) then (a, Err (EText "lark: conflicting fragment"))
                        else if forallb (λ p, bool_decide (is_Some p)) (lp_parts e)
                        then (delete id a, Ok (joined (lp_parts e), true))
                        else (a, Ok ([], false))
                    | None =>
                        let size := lp_size e + zlen (lf_payload f) in
                        if 1048576 <? size
                        then (delete id a, Err (EText "lark: combined payload exceeds limit"))
                        else
                          let e := mkParts (lp_at e) (<[Z.to_nat seq := Some (lf_payload f)]> (lp_parts e)) size (lp_service e) in
                          let a := <[id := e]> a in
                          if forallb (λ p, bool_decide (is_Some p)) (lp_parts e)
                          then (delete id a, Ok (joined (lp_parts e), true))
                          else (a, Ok ([], false))
                    end
              end
        end
  end.
