(* ===== verification/LarkProps.v ===== *)
(** * The Lark frame codec: round trip, termination and bounded reassembly *)

From S2P Require Import Prelude Lark.
#[local] Open Scope Z_scope.

(** ** Varints *)
Lemma lor_disjoint x y s : 0 <= s → 0 <= x < 2 ^ s → Z.lor x (Z.shiftl y s) = x + Z.shiftl y s.
Proof.
  intros Hs Hx. assert (Hl : Z.land x (Z.shiftl y s) = 0).
  { apply Z.bits_inj'. intros n Hn. rewrite Z.land_spec, Z.bits_0.
    destruct (Z.ltb_spec n s); [by rewrite Z.shiftl_spec_low, andb_false_r|].
    rewrite <- (Z.mod_small x (2 ^ s)) by done. by rewrite Z.mod_pow2_bits_high by lia. }
  rewrite <- Z.lxor_lor by done. by rewrite <- Z.add_nocarry_lxor.
Qed.

Lemma low_group v : Z.land (Z.lor (Z.land v 255) 128) 127 = v mod 128.
Proof.
  rewrite (Z.land_comm _ 127), Z.land_lor_distr_r. change (Z.land 127 128) with 0.
  rewrite Z.lor_0_r, Z.land_assoc, (Z.land_comm 127 v), <- Z.land_assoc. change (Z.land 127 255) with (Z.ones 7).
  by rewrite Z.land_ones.
Qed.

Lemma high_group v : 128 <= Z.lor (Z.land v 255) 128.
Proof.
  assert (H : Z.testbit (Z.lor (Z.land v 255) 128) 7 = true) by (rewrite Z.lor_spec; apply orb_true_r).
  assert (H0 : 0 <= Z.lor (Z.land v 255) 128).
  { apply Z.lor_nonneg. split; [|done]. apply Z.land_nonneg. by right. }
  destruct (Z.lt_ge_cases (Z.lor (Z.land v 255) 128) (2 ^ 7)) as [Hlt|]; [|done].
  rewrite <- (Z.mod_small _ (2 ^ 7)) in H by done. by rewrite Z.mod_pow2_bits_high in H.
Qed.

Lemma uvarint_round fuel v i x rest :
  0 <= i → 0 <= v → 0 <= x < 2 ^ (7 * i) → v * 2 ^ (7 * i) < 2 ^ 64 → v < 2 ^ (7 * Z.of_nat fuel) →
  0 < Z.of_nat fuel → i + Z.of_nat fuel = 10 →
  uvarint_loop i x (7 * i) (uvarint_bytes fuel v ++ rest) =
    (x + v * 2 ^ (7 * i), i + zlen (uvarint_bytes fuel v)).
Proof.
  revert v i x. induction fuel as [|fuel IH]; intros v i x Hi Hv Hx Hb Hf H0 Hs; [lia|].
  assert (Hi10 : (i =? 10) = false) by (apply Z.eqb_neq; lia).
  assert (Hpos : 0 < 2 ^ (7 * i)) by (apply Z.pow_pos_nonneg; lia).
  simpl. destruct (Z.ltb_spec v 128) as [Hlt|Hge]; simpl; rewrite Hi10.
  - change 255 with (Z.ones 8). rewrite Z.land_ones, Z.mod_small by lia.
    rewrite (proj2 (Z.ltb_lt v 128)) by done.
    destruct ((i =? 9) && (1 <? v)) eqn:E.
    { apply andb_true_iff in E as [->%Z.eqb_eq E%Z.ltb_lt]. lia. }
    unfold u64. rewrite Z.mod_small by (rewrite Z.shiftl_mul_pow2; nia).
    rewrite lor_disjoint, Z.shiftl_mul_pow2 by lia. done.
  - pose proof (high_group v). rewrite (proj2 (Z.ltb_ge _ 128)) by done. rewrite low_group.
    assert (Hi9 : i < 9).
    { destruct (Z.lt_ge_cases i 9); [done|]. assert (i = 9) as -> by lia. change (2 ^ (7 * 9)) with (2 ^ 63) in Hb. lia. }
    assert (Hm : 0 <= v mod 128 < 128) by (by apply Z.mod_pos_bound).
    assert (Hd : v = 128 * (v / 128) + v mod 128) by (by apply Z.div_mod).
    assert (Hp7 : 2 ^ (7 * (i + 1)) = 128 * 2 ^ (7 * i)).
    { replace (7 * (i + 1)) with (7 + 7 * i) by lia. rewrite Z.pow_add_r by lia. done. }
    assert (Hd0 : 0 <= v / 128) by (apply Z.div_pos; lia).
    unfold u64. rewrite Z.mod_small by (rewrite Z.shiftl_mul_pow2; nia).
    rewrite lor_disjoint, Z.shiftl_mul_pow2 by lia. rewrite Z.shiftr_div_pow2 by lia. change (2 ^ 7) with 128.
    replace (7 * i + 7) with (7 * (i + 1)) by lia. rewrite IH; try lia.
    + rewrite Hp7. f_equal; [|unfold zlen; simpl; lia]. rewrite Hd at 3. ring.
    + rewrite Hp7. nia.
    + replace (7 * Z.of_nat (S fuel)) with (7 + 7 * Z.of_nat fuel) in Hf by lia. rewrite Z.pow_add_r in Hf by lia.
      change (2 ^ 7) with 128 in Hf. apply Z.div_lt_upper_bound; lia.
Qed.

Lemma Uvarint_round v rest : 0 <= v < 2 ^ 64 →
  Uvarint (uvarint_bytes 10 v ++ rest) = (v, zlen (uvarint_bytes 10 v)).
Proof.
  intros Hv. etrans; [apply (uvarint_round 10 v 0 0 rest); lia|].
  rewrite Z.mul_0_r, Z.pow_0_r, Z.mul_1_r, !Z.add_0_l. done.
Qed.

Lemma uvarint_bytes_len fuel v : 0 <= zlen (uvarint_bytes fuel v) <= Z.of_nat fuel ∧
  (fuel ≠ 0%nat → 0 < zlen (uvarint_bytes fuel v)).
Proof.
  unfold zlen. revert v. induction fuel as [|fuel IH]; intros v; simpl; [lia|].
  destruct (_ <? _); simpl; [lia|]. destruct (IH (Z.shiftr v 7)). lia.
Qed.

Lemma uvarint_bytes_byte fuel v : Forall is_byte (uvarint_bytes fuel v).
Proof.
  revert v. induction fuel as [|fuel IH]; intros v; simpl; [constructor|].
  assert (Hb : 0 <= Z.land v 255 < 256).
  { change 255 with (Z.ones 8). rewrite Z.land_ones by lia. by apply Z.mod_pos_bound. }
  destruct (_ <? _); constructor; [done|constructor| |apply IH]. split.
  - pose proof (high_group v). lia.
  - apply Z.log2_lt_cancel. rewrite Z.log2_lor by lia. change (Z.log2 256) with 8. change (Z.log2 128) with 7.
    apply Z.max_lub_lt; [|lia]. destruct (Z.eq_dec (Z.land v 255) 0) as [->|]; [done|].
    apply Z.log2_lt_pow2; [lia|]. change (2 ^ 8) with 256. lia.
Qed.

#[local] Opaque uvarint_bytes Uvarint.

(** ** Fields *)
Lemma u64_field f : 0 <= f < 2 ^ 60 → u64 (Z.shiftl f 3) = 8 * f.
Proof. intros Hf. unfold u64. rewrite Z.shiftl_mul_pow2 by lia. rewrite Z.mod_small; lia. Qed.

Lemma tag_var f : 0 <= f → Z.shiftr (8 * f) 3 = f ∧ Z.land (8 * f) 7 = 0.
Proof.
  intros Hf. split.
  - rewrite Z.shiftr_div_pow2 by lia. change (2 ^ 3) with 8. rewrite Z.mul_comm. by rewrite Z.div_mul.
  - change 7 with (Z.ones 3). rewrite Z.land_ones by lia. change (2 ^ 3) with 8. rewrite Z.mul_comm. by rewrite Z.mod_mul.
Qed.

Lemma tag_bytes f : 0 <= f → Z.lor (8 * f) 2 = 8 * f + 2 ∧ Z.shiftr (8 * f + 2) 3 = f ∧ Z.land (8 * f + 2) 7 = 2.
Proof.
  intros Hf. split_and!.
  - rewrite Z.lor_comm, <- (Z.mul_comm f 8). change (f * 8) with (f * 2 ^ 3).
    rewrite <- Z.shiftl_mul_pow2 by lia. rewrite lor_disjoint by lia. lia.
  - rewrite Z.shiftr_div_pow2 by lia. change (2 ^ 3) with 8.
    rewrite Z.mul_comm, Z.div_add_l by lia. change (2 / 8) with 0. lia.
  - change 7 with (Z.ones 3). rewrite Z.land_ones by lia. change (2 ^ 3) with 8.
    rewrite Z.mul_comm, Z.add_comm, Z.mod_add by lia. done.
Qed.

Lemma drop_zlen {A} (l k : list A) : drop (Z.to_nat (zlen l)) (l ++ k) = k.
Proof. unfold zlen. rewrite Nat2Z.id. apply drop_app_length. Qed.

Lemma varint_nonpos v : (zlen (uvarint_bytes 10 v) <=? 0) = false.
Proof. apply Z.leb_gt. by apply (uvarint_bytes_len 10 v). Qed.

Lemma wireField_var f v rest : 1 <= f < 2 ^ 60 → 0 <= v < 2 ^ 64 →
  wireField (wireVar [] f v ++ rest) = Ok (f, v, [], rest).
Proof.
  intros Hf Hv. unfold wireField, wireVar, AppendUvarint. rewrite app_nil_l, <- app_assoc, u64_field by lia.
  destruct (tag_var f) as [E1 E2]; [lia|].
  rewrite Uvarint_round by lia. rewrite varint_nonpos, E1, E2, drop_zlen.
  rewrite (proj2 (Z.eqb_neq f 0)) by lia. cbn [orb].
  rewrite Uvarint_round by lia. by rewrite varint_nonpos, drop_zlen.
Qed.

Lemma wireField_bytes f b rest : 1 <= f < 2 ^ 60 → zlen b < 2 ^ 64 →
  wireField (wireBytes [] f b ++ rest) = Ok (f, 0, b, rest).
Proof.
  intros Hf Hb. unfold wireField, wireBytes, AppendUvarint. rewrite app_nil_l, <- !app_assoc, u64_field by lia.
  destruct (tag_bytes f) as (E0 & E1 & E2); [lia|].
  assert (Hz : 0 <= zlen b) by (unfold zlen; lia).
  rewrite E0, Uvarint_round by lia. rewrite varint_nonpos, E1, E2, drop_zlen.
  rewrite (proj2 (Z.eqb_neq f 0)) by lia. cbn [orb].
  rewrite Uvarint_round by lia. rewrite varint_nonpos, drop_zlen. cbn [orb].
  rewrite (proj2 (Z.ltb_ge _ _)).
  - unfold zlen. rewrite Nat2Z.id, take_app_length, drop_app_length. done.
  - unfold zlen. rewrite !length_app. lia.
Qed.

(** ** Reading ends, whatever the input *)
Lemma Uvarint_nil : Uvarint [] = (0, 0).
Proof. Transparent Uvarint. reflexivity. Qed.
#[local] Opaque Uvarint.

Lemma wireField_shorter raw f v b rest : wireField raw = Ok (f, v, b, rest) → (length rest < length raw)%nat.
Proof.
  intros Hw. unfold wireField in Hw. destruct (Uvarint raw) as [tag n] eqn:Eu.
  destruct ((n <=? 0) || (Z.shiftr tag 3 =? 0)) eqn:Eg; [done|].
  apply orb_false_iff in Eg as [Hn%Z.leb_gt _].
  assert (Hlen : (length (drop (Z.to_nat n) raw) < length raw)%nat).
  { destruct raw as [|x raw]; [rewrite Uvarint_nil in Eu; injection Eu as <- <-; lia|].
    rewrite length_drop. simpl. lia. }
  destruct (Z.land tag 7) as [|[[|[]|]|[]|]|]; try done.
  - destruct (Uvarint (drop (Z.to_nat n) raw)) as [v' m]. destruct (m <=? 0); [done|].
    injection Hw as <- <- <- <-. rewrite length_drop. lia.
  - destruct (zlen _ <? 4); [done|]. injection Hw as <- <- <- <-. rewrite !length_drop in *. lia.
  - destruct (Uvarint (drop (Z.to_nat n) raw)) as [v' m]. destruct (_ || _); [done|].
    injection Hw as <- <- <- <-. rewrite !length_drop in *. lia.
  - destruct (zlen _ <? 8); [done|]. injection Hw as <- <- <- <-. rewrite !length_drop in *. lia.
Qed.

Section read.
Context {S : Type} (call : Z → Z → bytes → S → S * option error).

Lemma wireReadFuel_enough fuel fuel' raw s :
  (length raw ≤ fuel)%nat → (length raw ≤ fuel')%nat →
  wireReadFuel fuel call raw s = wireReadFuel fuel' call raw s.
Proof.
  revert fuel' raw s. induction fuel as [|fuel IH]; intros [|fuel'] [|x raw] s H1 H2; simpl in *; try done; try lia.
  destruct (wireField (x :: raw)) as [[[[f v] b] rest]|e] eqn:Ew; [|done].
  apply wireField_shorter in Ew. simpl in Ew.
  destruct (call f v b s) as [s1 [e|]]; [done|]. apply IH; lia.
Qed.

Lemma wireRead_nil s : wireRead call [] s = (s, None).
Proof. reflexivity. Qed.

(** Reading a frame ends on every input: each field consumes at least one
    byte, so that the reader is the loop of the source (read a field, hand it
    to the callback, go on with the rest) with no bound on its iterations, and
    it never stops for want of fuel. *)
Theorem wireRead_unfold raw s :
  wireRead call raw s =
    if bool_decide (raw = []) then (s, None)
    else match wireField raw with
         | Err e => (s, Some e)
         | Ok (f, v, b, rest) =>
             match call f v b s with
             | (s, Some e) => (s, Some e)
             | (s, None) => wireRead call rest s
             end
         end.
Proof.
  destruct raw as [|x raw]; [done|]. rewrite bool_decide_eq_false_2 by done. unfold wireRead at 1. simpl.
  destruct (wireField (x :: raw)) as [[[[f v] b] rest]|e] eqn:Ew; [|done].
  apply wireField_shorter in Ew. simpl in Ew.
  destruct (call f v b s) as [s1 [e|]]; [done|]. apply wireReadFuel_enough; lia.
Qed.

Lemma wireRead_field raw s f v b rest :
  wireField raw = Ok (f, v, b, rest) →
  wireRead call raw s = match call f v b s with (s, Some e) => (s, Some e) | (s, None) => wireRead call rest s end.
Proof.
  intros Hw. pose proof (wireField_shorter _ _ _ _ _ Hw). destruct raw as [|x raw]; [simpl in *; lia|].
  unfold wireRead at 1. simpl. rewrite Hw. destruct (call f v b s) as [s1 [e|]]; [done|].
  apply wireReadFuel_enough; simpl in *; lia.
Qed.

Lemma wireRead_var f v rest s : 1 <= f < 2 ^ 60 → 0 <= v < 2 ^ 64 →
  wireRead call (wireVar [] f v ++ rest) s =
    match call f v [] s with (s, Some e) => (s, Some e) | (s, None) => wireRead call rest s end.
Proof. intros. by apply wireRead_field, wireField_var. Qed.

Lemma wireRead_bytes f b rest s : 1 <= f < 2 ^ 60 → zlen b < 2 ^ 64 →
  wireRead call (wireBytes [] f b ++ rest) s =
    match call f 0 b s with (s, Some e) => (s, Some e) | (s, None) => wireRead call rest s end.
Proof. intros. by apply wireRead_field, wireField_bytes. Qed.
End read.

(** ** The round trip *)
Lemma wireVar_app out f v : wireVar out f v = out ++ wireVar [] f v.
Proof. unfold wireVar, AppendUvarint. by rewrite <- app_assoc. Qed.
Lemma wireBytes_app out f b : wireBytes out f b = out ++ wireBytes [] f b.
Proof. unfold wireBytes, AppendUvarint. by rewrite <- !app_assoc. Qed.

Definition header_bytes (h : gmap bytes bytes) (keys : list bytes) : bytes :=
  concat (map (λ k, wireBytes [] 5 (header_entry h k)) keys).

Lemma Marshal_app f : Marshal f =
  wireVar [] 1 (lf_seq f) ++ wireVar [] 2 (lf_log f) ++ wireVar [] 3 (lf_service f) ++ wireVar [] 4 (lf_method f) ++
  header_bytes (lf_headers f) (sorted_keys (lf_headers f)) ++
  wireBytes [] 6 (lf_encoding f) ++ wireBytes [] 7 (lf_type f) ++ wireBytes [] 8 (lf_payload f) ++
  wireBytes [] 9 (lf_log_new f) ++ [].
Proof.
  assert (Hh : ∀ keys out, foldl (λ out key, wireBytes out 5 (header_entry (lf_headers f) key)) out keys
                 = out ++ header_bytes (lf_headers f) keys).
  { induction keys as [|k keys IH]; intros out; simpl; [by rewrite app_nil_r|].
    rewrite IH, wireBytes_app. unfold header_bytes. simpl. by rewrite <- app_assoc. }
  unfold Marshal. rewrite (wireBytes_app _ 9), (wireBytes_app _ 8), (wireBytes_app _ 7), (wireBytes_app _ 6), Hh,
    (wireVar_app _ 4), (wireVar_app _ 3), (wireVar_app _ 2). by rewrite app_nil_r, <- !app_assoc.
Qed.

Lemma wireBytes_len f b : zlen b <= zlen (wireBytes [] f b).
Proof.
  unfold wireBytes. rewrite zlen_app. pose proof (zlen_nonneg (AppendUvarint (AppendUvarint [] (Z.lor (u64 (Z.shiftl f 3)) 2)) (zlen b))). lia.
Qed.

Lemma header_entry_app h k : header_entry h k = wireBytes [] 1 k ++ wireBytes [] 2 (default [] (h !! k)) ++ [].
Proof. unfold header_entry. by rewrite wireBytes_app, app_nil_r. Qed.

Lemma header_decoded h k : zlen (header_entry h k) <= 4096 →
  wireRead header_field (header_entry h k) ([], []) = ((k, default [] (h !! k)), None).
Proof.
  rewrite header_entry_app, !zlen_app. intros Hl.
  pose proof (wireBytes_len 1 k). pose proof (wireBytes_len 2 (default [] (h !! k))).
  pose proof (zlen_nonneg (wireBytes [] 1 k)). pose proof (zlen_nonneg (wireBytes [] 2 (default [] (h !! k)))).
  unfold zlen in Hl at 3. simpl in Hl.
  rewrite wireRead_bytes by lia. cbn [header_field Z.eqb Pos.eqb fst snd].
  rewrite wireRead_bytes by lia. reflexivity.
Qed.

(** The frames the codec carries: within the limits [DecodeLarkFrame] checks. *)
Record frame_ok (f : LarkFrame) : Prop := {
  fo_words : Forall (λ x, 0 <= x < 2 ^ 64) [lf_seq f; lf_log f; lf_service f; lf_method f];
  fo_headers : (size (lf_headers f) ≤ 64)%nat;
  fo_header : ∀ k v, lf_headers f !! k = Some v → zlen (header_entry (lf_headers f) k) <= 4096;
  fo_encoding : lf_encoding f = [] ∨ lf_encoding f = json_;
  fo_length : zlen (Marshal f) <= 1048576;
}.

Definition insert_all (h : gmap bytes bytes) (keys : list bytes) (m : gmap bytes bytes) : gmap bytes bytes :=
  foldl (λ m k, <[k := default [] (h !! k)]> m) m keys.

Lemma insert_all_lookup h keys m k :
  insert_all h keys m !! k = if bool_decide (k ∈ keys) then Some (default [] (h !! k)) else m !! k.
Proof.
  unfold insert_all. revert m. induction keys as [|k' keys IH]; intros m; simpl; [done|].
  rewrite IH. destruct (decide (k = k')) as [->|Hne].
  - rewrite lookup_insert_eq. rewrite (bool_decide_eq_true_2 (k' ∈ k' :: keys)) by set_solver. by case_bool_decide.
  - rewrite lookup_insert_ne by done. repeat case_bool_decide; set_solver.
Qed.

Lemma headers_decoded h keys rest fr :
  NoDup keys → (∀ k, k ∈ keys → lf_headers fr !! k = None) →
  (size (lf_headers fr) + length keys ≤ 64)%nat → (∀ k, k ∈ keys → zlen (header_entry h k) <= 4096) →
  wireRead frame_field (header_bytes h keys ++ rest) fr =
  wireRead frame_field rest (set_headers (insert_all h keys (lf_headers fr)) fr).
Proof.
  revert fr. induction keys as [|k keys IH]; intros fr Hnd Hno Hsize Hlen.
  { unfold header_bytes. simpl. by destruct fr. }
  apply NoDup_cons in Hnd as [Hk Hnd]. simpl in Hsize.
  assert (Hl : zlen (header_entry h k) <= 4096) by (apply Hlen; set_solver).
  unfold header_bytes. simpl. rewrite <- app_assoc, wireRead_bytes by lia.
  unfold frame_field at 1.
  rewrite (proj2 (Z.leb_gt 64 _)) by lia. rewrite (proj2 (Z.ltb_ge 4096 _)) by lia. simpl.
  rewrite header_decoded by done. rewrite Hno by set_solver.
  fold (header_bytes h keys). rewrite IH; [done|done| |simpl; rewrite map_size_insert_None by (apply Hno; set_solver); lia|set_solver].
  intros k' Hk'. simpl. rewrite lookup_insert_ne by (intros ->; done). apply Hno. set_solver.
Qed.

Lemma sorted_keys_perm h : sorted_keys h ≡ₚ (map_to_list h).*1.
Proof. apply merge_sort_Permutation. Qed.

(** Every part of a frame fits its length prefix. *)
Lemma Marshal_parts f : zlen (Marshal f) <= 1048576 →
  zlen (lf_encoding f) < 2 ^ 60 ∧ zlen (lf_type f) < 2 ^ 60 ∧
  zlen (lf_payload f) < 2 ^ 60 ∧ zlen (lf_log_new f) < 2 ^ 60.
Proof.
  rewrite Marshal_app, !zlen_app.
  pose proof (wireBytes_len 6 (lf_encoding f)). pose proof (wireBytes_len 7 (lf_type f)).
  pose proof (wireBytes_len 8 (lf_payload f)). pose proof (wireBytes_len 9 (lf_log_new f)).
  pose proof (zlen_nonneg (lf_encoding f)). pose proof (zlen_nonneg (lf_type f)).
  pose proof (zlen_nonneg (lf_payload f)). pose proof (zlen_nonneg (lf_log_new f)).
  pose proof (zlen_nonneg (wireVar [] 1 (lf_seq f))). pose proof (zlen_nonneg (wireVar [] 2 (lf_log f))).
  pose proof (zlen_nonneg (wireVar [] 3 (lf_service f))). pose proof (zlen_nonneg (wireVar [] 4 (lf_method f))).
  pose proof (zlen_nonneg (header_bytes (lf_headers f) (sorted_keys (lf_headers f)))).
  change (zlen (@nil Z)) with 0. change (2 ^ 60) with 1152921504606846976. lia.
Qed.

Lemma small_var f v rest fr : (f =? 1) || (f =? 2) || (f =? 3) || (f =? 4) = true → 0 <= v < 2 ^ 64 →
  wireRead frame_field (wireVar [] f v ++ rest) fr = wireRead frame_field rest (frame_field f v [] fr).1.
Proof.
  intros Hf Hv. rewrite wireRead_var; [|split|done].
  - assert (f = 1 ∨ f = 2 ∨ f = 3 ∨ f = 4) as [->|[->|[->| ->]]] by lia; reflexivity.
  - lia.
  - apply Z.lt_trans with 5; [lia|reflexivity].
Qed.
Lemma small_bytes f b rest fr : (f =? 6) || (f =? 7) || (f =? 8) || (f =? 9) = true → zlen b < 2 ^ 60 →
  wireRead frame_field (wireBytes [] f b ++ rest) fr = wireRead frame_field rest (frame_field f 0 b fr).1.
Proof.
  intros Hf Hv. rewrite wireRead_bytes; [|split|].
  - assert (f = 6 ∨ f = 7 ∨ f = 8 ∨ f = 9) as [->|[->|[->| ->]]] by lia; reflexivity.
  - lia.
  - apply Z.lt_trans with 10; [lia|reflexivity].
  - apply Z.lt_trans with (2 ^ 60); [done|reflexivity].
Qed.

Lemma insert_all_keys h : insert_all h (sorted_keys h) ∅ = h.
Proof.
  apply map_eq. intros k. rewrite insert_all_lookup, lookup_empty.
  assert (Hk : k ∈ sorted_keys h ↔ is_Some (h !! k)).
  { rewrite sorted_keys_perm, list_elem_of_fmap. split.
    - intros ([k' v] & -> & Hin). apply elem_of_map_to_list in Hin. by eexists.
    - intros [v Hv]. exists (k, v). split; [done|]. by apply elem_of_map_to_list. }
  case_bool_decide as Hd.
  - apply Hk in Hd as [v Hv]. by rewrite Hv.
  - destruct (h !! k) eqn:E; [|done]. exfalso. apply Hd, Hk. eauto.
Qed.

(** C17: a frame within the limits is decoded to itself: its four words, its
    headers, its encoding and type, its payload and its log are what
    [DecodeLarkFrame] reads back from [Marshal]. *)
Theorem frame_round_trip f : frame_ok f → DecodeLarkFrame (Marshal f) = Ok f.
Proof.
  intros [Hw Hn Hh Henc Hlen]. unfold DecodeLarkFrame. rewrite (proj2 (Z.ltb_ge _ _)) by done.
  destruct (Marshal_parts f Hlen) as (H6 & H7 & H8 & H9).
  rewrite !Forall_cons in Hw. destruct Hw as (H1 & H2 & H3 & H4 & _).
  rewrite Marshal_app, !small_var by done.
  rewrite headers_decoded, !small_bytes, wireRead_nil; try done.
  - cbn [fst frame_field zeroFrame set_headers lf_seq lf_log lf_service lf_method lf_headers lf_encoding lf_type lf_payload lf_log_new].
    rewrite insert_all_keys.
    assert (Hb : negb (bool_decide (lf_encoding f = [])) && negb (bool_decide (lf_encoding f = json_)) = false).
    { destruct Henc as [-> | ->]; reflexivity. }
    rewrite Hb. by destruct f.
  - rewrite sorted_keys_perm. apply NoDup_fst_map_to_list.
  - simpl. rewrite sorted_keys_perm, length_fmap, length_map_to_list. rewrite map_size_empty. lia.
  - intros k. rewrite sorted_keys_perm, list_elem_of_fmap. intros ([k' v] & -> & Hin%elem_of_map_to_list). by eapply Hh.
Qed.

(** ** Reassembly *)
Definition parts_size (parts : list (option bytes)) : Z := sum_by (λ p, match p with Some p => zlen p | None => 0 end) parts.
Definition missing (parts : list (option bytes)) : bool := negb (forallb (λ p, bool_decide (is_Some p)) parts).

(** At most sixteen unfinished messages, each of at most 64 parts and one
    mebibyte, counted right. *)
Record assembler_ok (a : assembler) : Prop := {
  ao_entries : (size a ≤ 16)%nat;
  ao_entry : ∀ id e, a !! id = Some e → validID id = true ∧
    2 <= zlen (lp_parts e) <= 64 ∧ missing (lp_parts e) = true ∧
    lp_size e = parts_size (lp_parts e) ∧ lp_size e <= 1048576;
}.

Lemma sum_by_insert {A} (f : A → Z) l i x y : l !! i = Some y → sum_by f (<[i := x]> l) = sum_by f l + f x - f y.
Proof.
  revert i. induction l as [|z l IH]; intros [|i] Hl; simplify_eq/=; [lia|]. rewrite (IH i Hl). lia.
Qed.

Lemma joined_size parts : zlen (joined parts) = parts_size parts.
Proof.
  unfold joined, parts_size. induction parts as [|[p|] parts IH]; simpl; [done| |exact IH].
  rewrite zlen_app. exact (f_equal (Z.add (zlen p)) IH).
Qed.

Lemma purge_ok now a : assembler_ok a → assembler_ok (purge now a).
Proof.
  intros [H1 H2]. split; [|intros id e [He _]%map_lookup_filter_Some; by eapply H2].
  etrans; [|exact H1]. apply map_subseteq_size, map_filter_subseteq.
Qed.

Lemma delete_ok id a : assembler_ok a → assembler_ok (delete id a).
Proof.
  intros [H1 H2]. split; [|intros i e [_ He]%lookup_delete_Some; by eapply H2].
  etrans; [|exact H1]. apply map_subseteq_size, delete_subseteq.
Qed.

Lemma insert_ok id e a :
  assembler_ok a → (is_Some (a !! id) ∨ (size a < 16)%nat) → validID id = true →
  2 <= zlen (lp_parts e) <= 64 → missing (lp_parts e) = true →
  lp_size e = parts_size (lp_parts e) → lp_size e <= 1048576 → assembler_ok (<[id := e]> a).
Proof.
  intros [H1 H2] Hs Hv Hl Hm Hsz Hb. split.
  - destruct (a !! id) eqn:E; [by rewrite map_size_insert_Some by (by eexists)|].
    rewrite map_size_insert_None by done. destruct Hs as [[? ?]|]; [done|lia].
  - intros i e' [[<- <-]|[_ He]]%lookup_insert_Some; [done|by eapply H2].
Qed.

Lemma fresh_parts n : (0 < n)%nat → missing (replicate n None) = true ∧ parts_size (replicate n None) = 0.
Proof.
  intros Hn. split; [by destruct n; [lia|]|]. clear Hn. by induction n.
Qed.

(** The entry [Add] works on keeps the bounds. *)
Lemma entry_ok a now id e sum service :
  assembler_ok a → 2 <= sum <= 64 → validID id = true →
  match a !! id with
  | Some e => Some e
  | None => if 16 <=? Z.of_nat (size a) then None
            else Some (mkParts now (replicate (Z.to_nat sum) None) 0 service)
  end = Some e → assembler_ok (<[id := e]> a).
Proof.
  intros Ha Hs Hv He. destruct (a !! id) as [e'|] eqn:E.
  - injection He as ->. by rewrite insert_id.
  - destruct (Z.leb_spec 16 (Z.of_nat (size a))); [done|]. injection He as <-.
    destruct (fresh_parts (Z.to_nat sum)) as [Hm Hz]; [lia|].
    apply insert_ok; simpl; try done; [right; lia|]. unfold zlen. rewrite length_replicate. lia.
Qed.

(** Reassembly is bounded: whatever frames arrive in whatever order, at
    most sixteen messages are in progress, none of them complete, each holds at
    most 64 parts and one mebibyte with its size counted right, and a
    reassembled message is at most one mebibyte. *)
Theorem assembler_bounded a now f a' r :
  assembler_ok a → Add a now f = (a', r) →
  assembler_ok a' ∧
  (∀ out, r = Ok (out, true) → zlen out <= Z.max 1048576 (zlen (lf_payload f))).
Proof.
  intros Ha Hadd. unfold Add in Hadd.
  set (sum := if bool_decide (header f h_sum = []) then _ else _) in Hadd.
  destruct sum as [sum|]; [|by injection Hadd as <- <-].
  destruct ((sum <? 1) || (64 <? sum)) eqn:Es; [by injection Hadd as <- <-|].
  apply orb_false_iff in Es as [Es1%Z.ltb_ge Es2%Z.ltb_ge].
  destruct (Z.eqb_spec sum 1) as [|Hne].
  { injection Hadd as <- <-. split; [done|]. intros out [= <-]. lia. }
  destruct (Atoi (header f h_seq)) as [seq|]; [|by injection Hadd as <- <-].
  destruct ((seq <? 0) || (sum <=? seq) || negb (validID (header f h_message_id))) eqn:Ev; [by injection Hadd as <- <-|].
  apply orb_false_iff in Ev as [[Ev1%Z.ltb_ge Ev2%Z.leb_gt]%orb_false_iff Ev%negb_false_iff].
  set (id := header f h_message_id) in *. set (b := purge now a) in *.
  assert (Hb : assembler_ok b) by (by apply purge_ok).
  set (entry := match b !! id with Some e => Some e | None => _ end) in Hadd.
  destruct entry as [e|] eqn:Ee; [|by injection Hadd as <- <-].
  assert (Hbe : assembler_ok (<[id := e]> b)) by (eapply (entry_ok b now id e sum (lf_service f)); [done|lia|done|exact Ee]).
  destruct (negb _ || negb _) eqn:Ec; [by injection Hadd as <- <-|].
  apply orb_false_iff in Ec as [Ec%negb_false_iff%Z.eqb_eq _].
  destruct (ao_entry _ Hbe id e) as (_ & Hl & Hmiss & Hsz & Hbd); [apply lookup_insert_eq|].
  destruct (lp_parts e !! Z.to_nat seq) as [p|] eqn:Ep.
  2:{ apply lookup_ge_None in Ep. unfold zlen in *. lia. }
  destruct p as [p|].
  { destruct (negb (bool_decide (p = lf_payload f))); [by injection Hadd as <- <-|].
    unfold missing in Hmiss. apply negb_true_iff in Hmiss. rewrite Hmiss in Hadd. by injection Hadd as <- <-. }
  destruct (Z.ltb_spec 1048576 (lp_size e + zlen (lf_payload f))).
  { injection Hadd as <- <-. split; [by apply delete_ok|done]. }
  assert (Hsz' : parts_size (<[Z.to_nat seq := Some (lf_payload f)]> (lp_parts e)) = lp_size e + zlen (lf_payload f)).
  { unfold parts_size. rewrite (sum_by_insert _ _ _ _ None Ep), Hsz. unfold parts_size. lia. }
  cbn [lp_parts] in Hadd. destruct (forallb _ _) eqn:Ef.
  - injection Hadd as <- <-. split; [by rewrite insert_insert_eq, delete_insert_eq; apply delete_ok|].
    intros out [= <-]. rewrite joined_size, Hsz'. lia.
  - injection Hadd as <- <-. split; [|done]. apply insert_ok; simpl; try done.
    + left. rewrite lookup_insert_eq. eauto.
    + unfold zlen in *. by rewrite length_insert.
    + unfold missing. by rewrite Ef.
Qed.

(** ** Any order of the fragments *)
Section reassembly.
Variables (mid : bytes) (service : Z) (parts : list bytes) (t0 : Z).
Hypothesis mid_ok : validID mid = true.
Hypothesis parts_count : 2 <= zlen parts <= 64.
Hypothesis parts_fit : sum_by zlen parts <= 1048576.

(** Fragment [i] of the message, received at time [now]. *)
Record fragment (i : nat) (tf : Z * LarkFrame) : Prop := {
  fr_time : t0 <= tf.1 <= t0 + 5000000000;
  fr_sum : header tf.2 h_sum ≠ [] ∧ Atoi (header tf.2 h_sum) = Some (zlen parts);
  fr_seq : Atoi (header tf.2 h_seq) = Some (Z.of_nat i);
  fr_id : header tf.2 h_message_id = mid;
  fr_service : lf_service tf.2 = service;
  fr_payload : parts !! i = Some (lf_payload tf.2);
}.

(** The parts once the fragments [got] have arrived. *)
Definition received (got : list nat) : list (option bytes) :=
  imap (λ i p, if bool_decide (i ∈ got) then Some p else None) parts.

Lemma received_lookup got i p : parts !! i = Some p →
  received got !! i = Some (if bool_decide (i ∈ got) then Some p else None).
Proof. intros Hp. unfold received. by rewrite list_lookup_imap, Hp. Qed.

Lemma received_insert got i p : parts !! i = Some p →
  <[i := Some p]> (received got) = received (i :: got).
Proof.
  intros Hp. apply list_eq. intros j. destruct (decide (j = i)) as [->|Hne].
  - rewrite list_lookup_insert_eq; [|apply lookup_lt_is_Some; rewrite (received_lookup _ _ p) by done; eauto].
    rewrite (received_lookup _ _ p) by done. by rewrite bool_decide_eq_true_2 by set_solver.
  - rewrite list_lookup_insert_ne by done. unfold received. rewrite !list_lookup_imap.
    destruct (parts !! j); [|done]. simpl. do 2 f_equal. repeat case_bool_decide; set_solver.
Qed.

Lemma received_none : received [] = replicate (length parts) None.
Proof.
  unfold received. clear. induction parts as [|p l IH]; [done|]. simpl. f_equal. exact IH.
Qed.

Lemma received_complete got :
  (∀ i, (i < length parts)%nat → i ∈ got) →
  forallb (λ p, bool_decide (is_Some p)) (received got) = true ∧ joined (received got) = concat parts.
Proof.
  intros Hall. assert (E : received got = Some <$> parts).
  { apply list_eq. intros i. rewrite list_lookup_fmap. destruct (parts !! i) as [p|] eqn:Ep; simpl.
    - rewrite (received_lookup _ _ p) by done. rewrite bool_decide_eq_true_2; [done|].
      apply Hall. by eapply lookup_lt_Some.
    - unfold received. by rewrite list_lookup_imap, Ep. }
  rewrite E. clear. unfold joined. induction parts as [|p l [IH1 IH2]]; [done|]. simpl. split; [done|].
  exact (f_equal (app p) IH2).
Qed.

Lemma received_incomplete got i : (i < length parts)%nat → i ∉ got →
  forallb (λ p, bool_decide (is_Some p)) (received got) = false.
Proof.
  intros Hi Hn. apply not_true_iff_false. intros Hf. rewrite forallb_forall in Hf.
  destruct (lookup_lt_is_Some_2 _ _ Hi) as [p Hp].
  pose proof (received_lookup got i p Hp) as Hr. rewrite bool_decide_eq_false_2 in Hr by done.
  apply list_elem_of_lookup_2, list_elem_of_In, Hf in Hr. by apply bool_decide_eq_true in Hr as [? ?].
Qed.

(** The assembler while the fragments [got] of the message have arrived. *)
Definition in_progress (got : list nat) (a : assembler) : Prop :=
  match got with
  | [] => a !! mid = None ∧ (size a < 16)%nat
  | _ => ∃ at_, t0 <= at_ ∧ a !! mid = Some (mkParts at_ (received got)
           (sum_by (λ i, match parts !! i with Some p => zlen p | None => 0 end) got) service)
  end.

Lemma Add_fragment got i tf a :
  in_progress got a → fragment i tf → i ∉ got →
  sum_by (λ i, match parts !! i with Some p => zlen p | None => 0 end) (i :: got) <= 1048576 →
  ∃ a', Add a tf.1 tf.2 =
    (a', if forallb (λ p, bool_decide (is_Some p)) (received (i :: got))
         then Ok (joined (received (i :: got)), true) else Ok ([], false)) ∧
  (forallb (λ p, bool_decide (is_Some p)) (received (i :: got)) = false → in_progress (i :: got) a') ∧
  (forallb (λ p, bool_decide (is_Some p)) (received (i :: got)) = true → a' !! mid = None).
Proof.
  intros Hin [Ht [Hs0 Hs] Hq Hid Hsv Hp] Hnew Hfit. unfold Add.
  rewrite bool_decide_eq_false_2 by done. rewrite Hs, Hq, Hid.
  assert (Hlt : (i < length parts)%nat) by (by eapply lookup_lt_Some).
  rewrite (proj2 (Z.ltb_ge (zlen parts) 1)) by lia. rewrite (proj2 (Z.ltb_ge 64 _)) by lia.
  rewrite (proj2 (Z.eqb_neq _ 1)) by lia. cbn [orb].
  rewrite (proj2 (Z.ltb_ge (Z.of_nat i) 0)) by lia. rewrite (proj2 (Z.leb_gt (zlen parts) _)) by (unfold zlen; lia).
  rewrite mid_ok. cbn [orb negb].
  assert (He : ∃ at_, t0 <= at_ ∧
    match purge tf.1 a !! mid with
    | Some e => Some e
    | None => if 16 <=? Z.of_nat (size (purge tf.1 a)) then None
              else Some (mkParts tf.1 (replicate (Z.to_nat (zlen parts)) None) 0 (lf_service tf.2))
    end = Some (mkParts at_ (received got)
           (sum_by (λ i, match parts !! i with Some p => zlen p | None => 0 end) got) service)).
  { destruct got as [|g got].
    - destruct Hin as [Hno Hsz]. exists tf.1. split; [lia|].
      assert (Hle : (size (purge tf.1 a) ≤ size a)%nat) by (apply map_subseteq_size, map_filter_subseteq).
      assert (Hp0 : purge tf.1 a !! mid = None) by (apply map_lookup_filter_None; by left).
      rewrite Hp0.
      rewrite (proj2 (Z.leb_gt 16 _)) by lia. unfold zlen. rewrite Nat2Z.id, <- received_none, Hsv. done.
    - destruct Hin as (at_ & Hat & Ha). exists at_. split; [done|]. unfold purge.
      erewrite map_lookup_filter_Some_2; [reflexivity|exact Ha|]. simpl. lia. }
  destruct He as (at_ & Hat & He). rewrite He.
  assert (Hlen : zlen (received got) = zlen parts) by (unfold received, zlen; by rewrite length_imap).
  cbn [lp_parts lp_service lp_size lp_at]. rewrite Hlen, Hsv, !Z.eqb_refl. cbn [negb orb].
  rewrite Nat2Z.id, (received_lookup got i _ Hp), bool_decide_eq_false_2 by done.
  assert (Hsum : sum_by (λ i, match parts !! i with Some p => zlen p | None => 0 end) got + zlen (lf_payload tf.2)
     = sum_by (λ i, match parts !! i with Some p => zlen p | None => 0 end) (i :: got)).
  { simpl. rewrite Hp. lia. }
  rewrite Hsum, (proj2 (Z.ltb_ge 1048576 _)) by done. rewrite received_insert by done.
  destruct (forallb _ _); eexists; (split; [reflexivity|]); split; try done.
  - intros _. apply lookup_delete_eq.
  - intros _. exists at_. split; [done|]. apply lookup_insert_eq.
Qed.

(** [Add] over a sequence of received frames. *)
Fixpoint add_all (a : assembler) (l : list (Z * LarkFrame)) : assembler * list (res (bytes * bool)) :=
  match l with
  | [] => (a, [])
  | tf :: l => let '(a, r) := Add a tf.1 tf.2 in let '(a, rs) := add_all a l in (a, r :: rs)
  end.

Lemma add_all_from got order l a :
  in_progress got a → NoDup (got ++ order) → order ≠ [] →
  (∀ i, (i < length parts)%nat → i ∈ got ++ order) → Forall2 fragment order l →
  sum_by (λ i, match parts !! i with Some p => zlen p | None => 0 end) (got ++ order) <= 1048576 →
  ∃ a', add_all a l = (a', replicate (length order - 1) (Ok ([], false)) ++ [Ok (concat parts, true)]) ∧
        a' !! mid = None.
Proof.
  intros Hin Hnd Hne Hall HF Hsum. revert got a Hin Hnd Hne Hall Hsum.
  induction HF as [|i tf order l Hfr HF IH]; intros got a Hin Hnd Hne Hall Hsum; [done|].
  assert (Hperm : got ++ i :: order ≡ₚ (i :: got) ++ order) by (simpl; by rewrite Permutation_middle).
  assert (Hnew : i ∉ got) by (rewrite Hperm in Hnd; apply NoDup_cons in Hnd as [Hn _]; set_solver).
  assert (Hpos : 0 <= sum_by (λ i, match parts !! i with Some p => zlen p | None => 0 end) order).
  { apply sum_by_nonneg. intros x _. destruct (parts !! x); [apply zlen_nonneg|done]. }
  rewrite (sum_by_perm _ _ _ Hperm), sum_by_app in Hsum.
  destruct (Add_fragment got i tf a Hin Hfr Hnew) as (a1 & Hadd & Hinc & Hcomp); [lia|].
  simpl. rewrite Hadd. destruct order as [|j order].
  - inversion HF; subst. simpl. assert (Hg : ∀ j, (j < length parts)%nat → j ∈ i :: got).
    { intros j Hj. specialize (Hall j Hj). rewrite Hperm, app_nil_r in Hall. done. }
    destruct (received_complete _ Hg) as [Hc Hj]. rewrite Hc, Hj. exists a1. split; [done|by apply Hcomp].
  - assert (Hj : (j < length parts)%nat ∧ j ∉ i :: got).
    { inversion HF as [|? ? ? ? Hfj]; subst. split; [by eapply lookup_lt_Some, fr_payload|].
      rewrite Hperm in Hnd. apply NoDup_app in Hnd as (_ & Hd & _). intros Hx. apply (Hd j Hx). set_solver. }
    assert (Hf : forallb (λ p, bool_decide (is_Some p)) (received (i :: got)) = false)
      by (by eapply received_incomplete; apply Hj).
    destruct (IH (i :: got) a1) as (a' & Hrest & Hend); [by apply Hinc|by rewrite <- Hperm|done| | |].
    + intros k Hk. rewrite <- Hperm. by apply Hall.
    + rewrite sum_by_app. exact Hsum.
    + rewrite Hf, Hrest. exists a'. split; [|done]. simpl. by rewrite Nat.sub_0_r.
Qed.

(** A message sent in fragments is reassembled whatever the order in which
    its fragments arrive within five seconds: each fragment but the last is
    kept, the last one delivers the payloads joined in the order of their
    numbers, and nothing of the message is left behind. *)
Theorem fragments_any_order a order l :
  a !! mid = None → (size a < 16)%nat → order ≡ₚ seq 0 (length parts) → Forall2 fragment order l →
  ∃ a', add_all a l = (a', replicate (length parts - 1) (Ok ([], false)) ++ [Ok (concat parts, true)]) ∧
        a' !! mid = None.
Proof.
  intros Hno Hsz Hperm HF.
  assert (Hlen : length order = length parts) by (rewrite Hperm; apply length_seq).
  rewrite <- Hlen. apply (add_all_from []); try done.
  - simpl. rewrite Hperm. apply NoDup_seq.
  - intros ->. unfold zlen in parts_count. simpl in Hlen. lia.
  - intros i Hi. simpl. rewrite Hperm. apply elem_of_seq. lia.
  - simpl. rewrite (sum_by_perm _ _ _ Hperm). etrans; [|exact parts_fit]. clear.
    assert (E : ∀ k (l1 l2 : list bytes), length l1 = k →
      sum_by (λ i, match (l1 ++ l2) !! i with Some p => zlen p | None => 0 end) (seq k (length l2)) = sum_by zlen l2).
    { intros k l1 l2. revert k l1. induction l2 as [|p l2 IH]; intros k l1 Hk; simpl; [done|].
      rewrite list_lookup_middle by done. f_equal. rewrite <- (IH (S k) (l1 ++ [p])).
      - by rewrite <- app_assoc.
      - rewrite length_app. simpl. lia. }
    specialize (E 0%nat [] parts eq_refl). simpl in E. lia.
Qed.
End reassembly.

(** ** Witnesses *)
Module LarkDemo.
Definition frame : LarkFrame :=
  mkFrame 1 300 7 0 {[ [115] := [1; 2] ]} json_ [99] [1; 2; 3] [].
Lemma frame_fits : frame_ok frame.
Proof.
  split.
  - repeat constructor; vm_compute; (discriminate || reflexivity).
  - vm_compute. lia.
  - intros k v Hk. change (({[ [115] := [1; 2] ]} : gmap bytes bytes) !! k = Some v) in Hk. apply lookup_singleton_Some in Hk as [<- <-]. vm_compute. discriminate.
  - by right.
  - vm_compute. discriminate.
Qed.
Lemma empty_ok : assembler_ok NewLarkAssembler.
Proof. split; [vm_compute; lia|]. intros id e He. unfold NewLarkAssembler in He. by rewrite lookup_empty in He. Qed.

Definition mid : bytes := [109; 49].
Definition part (i : Z) (p : bytes) : Z * LarkFrame :=
  (5, mkFrame 0 0 7 0 (<[h_sum := [50]]> (<[h_seq := [48 + i]]> {[h_message_id := mid]})) [] [] p []).
Definition parts : list bytes := [[1]; [2; 3]].
Lemma part_ok i p : parts !! i = Some p → (i < 2)%nat → fragment mid 7 parts 0 i (part (Z.of_nat i) p).
Proof.
  intros Hp Hi. destruct i as [|[|i]]; [| |lia]; injection Hp as <-;
    (split; [split; vm_compute; discriminate| | | | |]); try (vm_compute; reflexivity);
    (split; [vm_compute; discriminate|vm_compute; reflexivity]).
Qed.
End LarkDemo.
Import LarkDemo.

Lemma frame_round_trip_witness : DecodeLarkFrame (Marshal frame) = Ok frame.
Proof. exact (frame_round_trip frame frame_fits). Defined.

Lemma assembler_bounded_witness : assembler_ok (Add NewLarkAssembler 0 frame).1.
Proof. exact (proj1 (assembler_bounded NewLarkAssembler 0 frame _ _ empty_ok (surjective_pairing _))). Defined.

Lemma fragments_any_order_witness :
  ∃ a', add_all NewLarkAssembler [part 1 [2; 3]; part 0 [1]] = (a', [Ok ([], false); Ok ([1; 2; 3], true)]) ∧
        a' !! mid = None.
Proof.
  exact (fragments_any_order mid 7 parts 0 ltac:(reflexivity) ltac:(vm_compute; split; discriminate)
    ltac:(vm_compute; discriminate) NewLarkAssembler [1%nat; 0%nat] _ (lookup_empty _) ltac:(vm_compute; lia)
    ltac:(apply (Permutation_swap 0%nat 1%nat []))
    ltac:(constructor; [apply (part_ok 1 [2; 3]); [reflexivity|lia]|constructor; [apply (part_ok 0 [1]); [reflexivity|lia]|constructor]])).
Defined.
