(* ===== verification/Workspace.v ===== *)
(** * Paths of the workspace

    Model of the path checks every file operation goes through
    (src/internal/harness/filetools.go, filechanges.go) and of the subtrees a
    child is confined to (collaboration_plan.go, [assignedTools]). What the
    operating system answers is a parameter ([FileSystem]); [filepath.IsLocal]
    is that of Unix. *)

From Stdlib Require Import Ascii.
From S2P Require Import Prelude Text.

(** The workspace as the operating system shows it. [Lstat name] is [None] when
    there is no such entry, else whether it is a symbolic link; [same_file] is
    [os.SameFile] of two entries that exist; [private] and [blocked] say
    whether the absolute path of a name lies in the program's own data or below
    a blocked root. *)
Class FileSystem := {
  fs_unicode :: Unicode;
  Lstat : string → option bool;
  same_file : string → string → bool;
  rejectReparsePoint : string → bool;
  private : string → bool;
  blocked : string → res unit;
  read_file : string → res string;
  contentHash : string → string;
}.


Section workspace.
Context {F : FileSystem}.

(** [filepath.IsLocal] on Unix. *)
Definition IsLocal (p : string) : bool :=
  if bool_decide (p = "") || HasPrefix p "/" then false
  else
    let p := if existsb (λ e, bool_decide (e = ".") || bool_decide (e = "..")) (Split p slash) then Clean p else p in
    negb (bool_decide (p = "..") || HasPrefix p "../").

(** [strings.TrimRight(first, ". ")]. *)
Fixpoint TrimDots (s : string) : string :=
  match s with
  | "" => ""
  | String c s =>
      match TrimDots s with
      | "" => if bool_decide (c = "."%char) || bool_decide (c = " "%char) then "" else str c
      | t => String c t
      end
  end.

Definition first_element (name : string) : string := match Split name slash with x :: _ => x | [] => "" end.

(** [protectedConfig]. *)
Definition protectedConfig (name : string) : bool :=
  let first := first_element name in
  EqualFold (TrimDots first) ".freeagent" || same_file ".freeagent" first.

(** [path.Join(current, part)] for a cleaned [current]. *)
Definition path_join (current part : string) : string :=
  if bool_decide (current = "") then (if bool_decide (part = "") then "" else Clean part)
  else if bool_decide (part = "") then Clean current
  else Clean (current +:+ "/" +:+ part).

(** The walk of [validatePath] along the elements of the name. *)
Fixpoint walk (current : string) (parts : list string) : res unit :=
  match parts with
  | [] => Ok tt
  | part :: parts =>
      _ ← check (negb (EqualFold part ".git" || bool_decide (part = ".."))) (EText "protected path");
      let current := path_join current part in
      match Lstat current with
      | None => Err (EText "file path does not exist")
      | Some link =>
          _ ← check (negb link) (EText "links are not allowed");
          _ ← check (negb (rejectReparsePoint current)) (EText "reparse points are not allowed");
          walk current parts
      end
  end.

(** [validatePath]. *)
Definition validatePath (input : string) : res string :=
  let input := ReplaceByte input "\"%char slash in
  _ ← check (negb (bool_decide (input = "") || negb (IsLocal input) || ContainsByte input ":"%char))
        (EText "file path must be relative to the workspace");
  let name := Clean input in
  _ ← check (negb (private name)) ErrProtectedPath;
  _ ← blocked name;
  _ ← walk "" (Split name slash);
  Ok name.

(** [path.Dir] and [path.Base] of a clean name. *)
Definition path_dir (name : string) : string :=
  Clean (match rev (Split name slash) with
         | _ :: (_ :: _) as l => Join (rev (tail l)) "/" +:+ "/"
         | _ => "" end).
Definition path_base (name : string) : string :=
  match rev (filter (λ e, e ≠ "") (Split name slash)) with x :: _ => x | [] => if HasPrefix name "/" then "/" else "." end.

(** [validateCreatePath]. *)
Definition validateCreatePath (input : string) : res string :=
  let input := ReplaceByte input "\"%char slash in
  _ ← check (negb (bool_decide (input = "") || negb (IsLocal input)
                   || ContainsByte input ":"%char || ContainsByte input (chr 0)))
        (EText "creation requires a relative workspace path");
  let name := Clean input in
  _ ← check (negb (private name)) ErrProtectedPath;
  _ ← check (negb (bool_decide (name = ".") || EqualFold (path_base name) ".git")) (EText "protected creation path");
  _ ← validatePath (path_dir name);
  _ ← check (bool_decide (Lstat name = None)) (EText "creation target already exists or cannot be inspected");
  Ok name.

(** ** Subtrees of a child *)

(** [scopePath] (collaboration_plan.go). *)
Definition scopePath (value : string) : res string :=
  let value := ReplaceByte value "\"%char slash in
  let clean := Clean value in
  _ ← check (negb (bool_decide (value = "") || ContainsByte value ":"%char || HasPrefix value "/"
                   || bool_decide (clean = "..") || HasPrefix clean "../" || ContainsByte value (chr 0)))
        (EText "harness: authorized paths must be workspace-relative subtrees");
  Ok clean.

(** [allows]: [paths] are the cleaned subtrees of the role. *)
Definition allows (paths : list string) (value : string) : bool :=
  match scopePath value with
  | Err _ => false
  | Ok value => existsb (λ prefix, bool_decide (prefix = ".") || bool_decide (value = prefix)
                                   || HasPrefix value (prefix +:+ "/")) paths
  end.
End workspace.

(** ** What the checks mean *)
Section facts.
Context {F : FileSystem}.

(** Where a checked name points: the workspace itself, or a list of elements
    none of which leads upwards. *)
Definition inside (name : string) : Prop := name = "." ∨ Forall normal (Split name slash).

Lemma path_join_normal current part : (current = "" ∨ inside current ∧ current ≠ "." ∧ HasPrefix current "/" = false ∧ Clean current = current) →
  normal part → ContainsByte part slash = false →
  path_join current part = if bool_decide (current = "") then part else current +:+ "/" +:+ part.
Proof.
  intros Hc Hp Hs. unfold path_join. rewrite (bool_decide_eq_false_2 (part = "")) by apply Hp.
  assert (Hcl : ∀ l, l ≠ [] → Forall normal l → Forall (λ e, ContainsByte e slash = false) l → Clean (Join l "/") = Join l "/").
  { intros l Hl Hn Hsl. apply Clean_join; [|done..]. by exists 0%nat, l. }
  case_bool_decide as E.
  - apply (Hcl [part]); [done|by constructor|by constructor].
  - destruct Hc as [|([->|Hin] & Hd & _)]; [done..|].
    pose proof (Hcl (Split current slash ++ [part])) as Hj.
    rewrite Join_snoc, Split_Join in Hj by apply Split_nonempty. apply Hj.
    + intros El. by apply app_eq_nil in El as [_ ?].
    + apply Forall_app. split; [done|by constructor].
    + apply Forall_app. split; [apply Split_no_sep|by constructor].
Qed.

Lemma foldl_path_join l : Forall normal l → Forall (λ e, ContainsByte e slash = false) l →
  foldl path_join "" l = Join l "/".
Proof.
  intros Hn Hs. induction l as [|x l IH] using rev_ind; [done|].
  apply Forall_app in Hn as [Hn Hx], Hs as [Hs Hxs]. inversion Hx; subst. inversion Hxs; subst.
  rewrite foldl_app. simpl. rewrite IH by done. destruct (decide (l = [])) as [->|Hne].
  { simpl. rewrite path_join_normal; auto. }
  assert (Hc : clean_list false l) by (by exists 0%nat, l).
  pose proof (Clean_join l Hc Hne Hs) as Hcl.
  assert (Hsp : Split (Join l "/") slash = l) by (by apply (Join_Split l slash)).
  rewrite path_join_normal; [|right; split_and!|done|done].
  - rewrite bool_decide_eq_false_2; [by rewrite Join_snoc|].
    intros E. by apply Hne, Join_empty.
  - right. by rewrite Hsp.
  - intros E. rewrite E in Hsp. subst l. inversion Hn as [|? ? [_ [? _]]]. done.
  - by apply Join_no_root.
  - done.
Qed.

Lemma walk_ok current parts : walk current parts = Ok tt → ∀ l part, (l ++ [part]) `prefix_of` parts →
  Lstat (foldl path_join current (l ++ [part])) = Some false ∧ EqualFold part ".git" = false ∧ part ≠ "..".
Proof.
  revert current. induction parts as [|p parts IH]; intros current Hw l part [t Ht].
  - by destruct l.
  - simpl in Hw. apply res_bind_ok in Hw as ([] & [Hg Hd]%check_ok%negb_true_iff%orb_false_iff & Hw).
    destruct (Lstat (path_join current p)) as [link|] eqn:El; [|done].
    apply res_bind_ok in Hw as ([] & Hl%check_ok%negb_true_iff & Hw). subst link.
    apply res_bind_ok in Hw as ([] & _ & Hw).
    destruct l as [|x l]; simpl in Ht; injection Ht as <- Ht.
    + simpl. split; [done|]. split; [done|by apply bool_decide_eq_false in Hd].
    + simpl. apply (IH _ Hw). by exists t.
Qed.

(** A path the checks accept stays in the workspace: it is clean and
    relative, no element leads upwards, and every directory on the way and the
    entry itself exist, are not links and are not named ".git". *)
Theorem validatePath_inside input name :
  validatePath input = Ok name →
  HasPrefix name "/" = false ∧ Clean name = name ∧ inside name ∧
  (name ≠ "." → ∀ k, (k < length (Split name slash))%nat →
     Lstat (Join (take (S k) (Split name slash)) "/") = Some false) ∧
  Forall (λ e, EqualFold e ".git" = false) (Split name slash).
Proof.
  intros Hv. unfold validatePath in Hv.
  set (inp := ReplaceByte input _ _) in *.
  apply res_bind_ok in Hv as ([] & Hg%check_ok%negb_true_iff & Hv).
  apply orb_false_iff in Hg as [[Hne%bool_decide_eq_false Hloc%negb_false_iff]%orb_false_iff _].
  apply res_bind_ok in Hv as ([] & _ & Hv). apply res_bind_ok in Hv as ([] & _ & Hv).
  apply res_bind_ok in Hv as ([] & Hw & [= <-]).
  assert (Hroot : HasPrefix inp "/" = false).
  { unfold IsLocal in Hloc. destruct (bool_decide (inp = "")), (HasPrefix inp "/"); done. }
  destruct (Clean_idem inp Hroot) as [Hidem Hrel].
  assert (Hup : Clean inp ≠ "..").
  { intros E. rewrite E in Hw. change (Split ".." slash) with [".."] in Hw.
    destruct (walk_ok "" [".."] Hw [] "..") as (_ & _ & Hx); [by exists []|done]. }
  assert (Hpre : HasPrefix (Clean inp) "../" = false).
  { apply not_true_iff_false. intros E. apply HasPrefix_spec in E as [t Et].
    change ("../" +:+ t) with (".." +:+ String slash t) in Et.
    assert (Hs : Split (Clean inp) slash = [".."] ++ Split t slash) by (by rewrite Et).
    rewrite Hs in Hw. destruct (walk_ok "" _ Hw [] "..") as (_ & _ & Hx); [by eexists|done]. }
  assert (Hin : inside (Clean inp)).
  { destruct (decide (Clean inp = ".")) as [|Hd]; [by left|right]. by apply Clean_inside. }
  split; [done|]. split; [done|]. split; [done|]. split.
  - intros Hd k Hk. destruct Hin as [|Hn]; [done|].
    destruct (lookup_lt_is_Some_2 _ _ Hk) as [x Hx].
    destruct (walk_ok "" _ Hw (take k (Split (Clean inp) slash)) x) as (Hl & _ & _).
    { rewrite <- take_S_r by done. by exists (drop (S k) (Split (Clean inp) slash)); rewrite take_drop. }
    rewrite <- take_S_r in Hl by done. rewrite foldl_path_join in Hl; [done|by apply Forall_take|].
    apply Forall_take, Split_no_sep.
  - apply Forall_forall. intros x Hx. apply list_elem_of_split in Hx as (l1 & l2 & El).
    destruct (walk_ok "" _ Hw l1 x) as (_ & Hgit & _); [|done].
    exists l2. by rewrite El, <- app_assoc.
Qed.

(** A role confined to subtrees names nothing outside them: a path it may
    use, once cleaned, is relative, has no element that leads upwards, and its
    elements extend those of one of the subtrees. *)
Theorem allows_inside paths value :
  allows paths value = true →
  ∃ clean prefix, scopePath value = Ok clean ∧ prefix ∈ paths ∧ inside clean ∧ HasPrefix clean "/" = false ∧
    (prefix = "." ∨ Split prefix slash `prefix_of` Split clean slash).
Proof.
  unfold allows. destruct (scopePath value) as [clean|e] eqn:Es; [|done].
  intros Hex. apply existsb_exists in Hex as (prefix & Hin & Hp). apply list_elem_of_In in Hin.
  exists clean, prefix. unfold scopePath in Es. set (v := ReplaceByte value _ _) in *.
  apply res_bind_ok in Es as ([] & Hg%check_ok%negb_true_iff & [= <-]).
  apply orb_false_iff in Hg as [Hg _]. apply orb_false_iff in Hg as [Hg Hpre].
  apply orb_false_iff in Hg as [Hg Hup%bool_decide_eq_false]. apply orb_false_iff in Hg as [_ Hroot].
  destruct (Clean_idem v Hroot) as [Hid Hrel].
  split; [done|]. split; [done|]. split; [|split; [done|]].
  - destruct (decide (Clean v = ".")) as [|Hd]; [by left|right]. by apply Clean_inside.
  - apply orb_true_iff in Hp as [Hp|Hp].
    + apply orb_true_iff in Hp as [->%bool_decide_eq_true|<-%bool_decide_eq_true]; [by left|by right].
    + right. apply HasPrefix_spec in Hp as [t Ht]. rewrite Ht, append_assoc.
      change ("/" +:+ t) with (String slash t). rewrite Split_sep. by eexists.
Qed.
End facts.

(** ** Witnesses *)
Module WorkspaceDemo.
#[export] Instance fs : FileSystem := {|
  fs_unicode := ascii_case;
  Lstat name := if bool_decide (name ∈ ["src"; "src/a.txt"]) then Some false else None;
  same_file _ _ := false;
  rejectReparsePoint _ := false;
  private _ := false;
  blocked _ := Ok tt;
  read_file name := if bool_decide (name = "src/a.txt") then Ok ("one" +:+ nl +:+ "two" +:+ nl) else Err (EText "no file");
  contentHash s := "0123456789abcdef0123456789abcdef0123456789abcdef0123456789abcdef";
|}.
End WorkspaceDemo.
Import WorkspaceDemo.

Lemma validatePath_inside_witness :
  inside "src/a.txt" ∧ Lstat (Join (take 1 (Split "src/a.txt" slash)) "/") = Some false.
Proof.
  destruct (validatePath_inside (F:=fs) "src/./b/../a.txt" "src/a.txt" ltac:(vm_compute; reflexivity)) as (_ & _ & Hi & Hl & _).
  split; [exact Hi|]. apply Hl; [discriminate|vm_compute; lia].
Defined.

Lemma allows_inside_witness :
  ∃ clean prefix, scopePath "src/x/../a.txt" = Ok clean ∧ prefix ∈ ["docs"; "src"] ∧ inside clean.
Proof.
  destruct (allows_inside ["docs"; "src"] "src/x/../a.txt" ltac:(vm_compute; reflexivity))
    as (c & p & H1 & H2 & H3 & _).
  exists c, p. split; [exact H1|split; [exact H2|exact H3]].
Defined.
