(* ===== verification/Patch.v ===== *)
(** * Applying unified diffs

    Model of src/internal/harness/patch.go: the strict parser of a unified
    diff ([parsePatch]), the application of hunks to a file ([applyHunks]) and
    the checks on each target ([preparePatch]). A file's text is a byte string. *)

From Stdlib Require Import Ascii.
From S2P Require Import Prelude Text Workspace.

Definition maxFileBytes : Z := 262144.

(** A line of a hunk and whether it is followed by the marker for a missing
    newline ([lines] and [noNewline]). *)
Record patchHunk := mkHunk {
  hk_oldStart : Z; hk_oldCount : Z; hk_newStart : Z; hk_newCount : Z;
  hk_lines : list (string * bool);
}.
Record patchFile := mkPatchFile { pf_before : string; pf_after : string; pf_hunks : list patchHunk }.

(** ** Parsing *)

(** [strconv.Atoi] of ASCII digits; the only use compares with a small bound,
    so that a number out of range fails the same way. *)
Definition is_digit (c : Ascii.ascii) : bool := between 48 57 (code c).
Fixpoint digits (s : string) : string * string :=
  match s with
  | String c s' => if is_digit c then let '(d, r) := digits s' in (String c d, r) else ("", s)
  | "" => ("", "")
  end.
Definition number (d : string) : Z :=
  foldl (λ n c, 10 * n + (Z.of_nat (code c) - 48))%Z 0%Z (String.list_ascii_of_string d).

(** The expression [patchHeader]. *)
Definition header_range (s : string) : option (Z * Z * string) :=
  let '(d, r) := digits s in
  if bool_decide (d = "") then None
  else
    match r with
    | String c r' =>
        if bool_decide (c = ","%char) then
          let '(d2, r2) := digits r' in
          if bool_decide (d2 = "") then Some (number d, 1%Z, r) else Some (number d, number d2, r2)
        else Some (number d, 1%Z, r)
    | "" => Some (number d, 1%Z, r)
    end.

Definition patchHeader (line : string) : option (Z * Z * Z * Z) :=
  if HasPrefix line "@@ -" then
    match header_range (TrimPrefix line "@@ -") with
    | Some (a, b, rest) =>
        if HasPrefix rest " +" then
          match header_range (TrimPrefix rest " +") with
          | Some (c, d, rest) =>
              if bool_decide (rest = " @@") || HasPrefix rest " @@ " then Some (a, b, c, d) else None
          | None => None
          end
        else None
    | None => None
    end
  else None.

Definition noNewlineMark : string := "\ No newline at end of file".

(** The lines of one hunk: until both counts are reached or the input ends. *)
Fixpoint hunk_lines (oldCount newCount old new : Z) (rest : list string) (acc : list (string * bool))
    : res (Z * Z * list (string * bool) * list string) :=
  if (old <? oldCount)%Z || (new <? newCount)%Z then
    match rest with
    | [] => Ok (old, new, acc, [])
    | line :: rest =>
        match line with
        | "" => Err (EText "invalid patch hunk line")
        | String c _ =>
            if negb (bool_decide (c = " "%char) || bool_decide (c = "+"%char) || bool_decide (c = "-"%char))
            then Err (EText "invalid patch hunk line")
            else
              let old := if bool_decide (c = "+"%char) then old else (old + 1)%Z in
              let new := if bool_decide (c = "-"%char) then new else (new + 1)%Z in
              if (oldCount <? old)%Z || (newCount <? new)%Z then Err (EText "patch hunk line counts differ")
              else match rest with
                   | mark :: rest' =>
                       if bool_decide (mark = noNewlineMark)
                       then hunk_lines oldCount newCount old new rest' (acc ++ [(line, true)])
                       else hunk_lines oldCount newCount old new rest (acc ++ [(line, false)])
                   | [] => hunk_lines oldCount newCount old new rest (acc ++ [(line, false)])
                   end
        end
    end
  else Ok (old, new, acc, rest).

(** The hunks of one file. *)
Fixpoint file_hunks (fuel : nat) (rest : list string) (acc : list patchHunk) : res (list patchHunk * list string) :=
  match rest with
  | line :: rest' =>
      if HasPrefix line "@@ " then
        match fuel with
        | O => Err (EText "out of fuel")
        | S fuel =>
            match patchHeader line with
            | None => Err (EText "invalid or excessive patch hunks")
            | Some (a, b, c, d) =>
                _ ← check (negb (1024 <=? zlen acc)%Z) (EText "invalid or excessive patch hunks");
                _ ← check (forallb (λ n, n <=? maxFileBytes)%Z [a; b; c; d]) (EText "patch range exceeds limit");
                '(old, new, lines, rest) ← hunk_lines b d 0 0 rest' [];
                _ ← check (bool_decide (old = b) && bool_decide (new = d)) (EText "incomplete patch hunk");
                file_hunks fuel rest (acc ++ [mkHunk a b c d lines])
            end
        end
      else Ok (acc, rest)
  | [] => Ok (acc, [])
  end.

Definition badHeaders : error :=
  EText "expected unified diff file headers; metadata, renames and binary patches are unsupported".

Fixpoint patch_files (fuel : nat) (rest : list string) (acc : list patchFile) : res (list patchFile) :=
  match rest with
  | [] => Ok acc
  | before :: rest =>
      match fuel with
      | O => Err (EText "out of fuel")
      | S fuel =>
          _ ← check (negb (32 <=? zlen acc)%Z && HasPrefix before "--- ") badHeaders;
          match rest with
          | [] => Err badHeaders
          | after :: rest =>
              _ ← check (HasPrefix after "+++ ") badHeaders;
              '(hunks, rest) ← file_hunks (length rest) rest [];
              _ ← check (negb (bool_decide (hunks = []))) (EText "patch file needs at least one numbered hunk");
              patch_files fuel rest (acc ++ [mkPatchFile (TrimPrefix before "--- ") (TrimPrefix after "+++ ") hunks])
          end
      end
  end.

(** [parsePatch]. *)
Definition parsePatch (text : string) : res (list patchFile) :=
  _ ← check (negb (bool_decide (text = "") || (2 * maxFileBytes <? Z.of_nat (String.length text))%Z
                   || negb (ValidString text) || ContainsByte text (chr 0) || negb (HasSuffix text nl)))
        (EText "patch must be bounded NUL-free UTF-8 ending with a newline");
  let lines := Split (TrimNewline (ReplaceCRLF text)) newline in
  patch_files (length lines) lines [].

(** ** Applying *)
Definition eol_of (before : string) : string := if Contains before crlf then crlf else nl.

(** [strings.SplitAfter] without an empty last element. *)
Definition source_lines (before : string) : list string :=
  let l := SplitAfter before newline in
  match last l with Some "" => removelast l | _ => l end.

(** The state of [applyHunks]: the next source line, the lines written, and
    what was written. *)
Record cursor := mkCursor { cu_at : Z; cu_new : Z; cu_out : string }.

Definition contextDiffers : error := EText "patch context differs from current file; no fuzzy matching".

(** The lines of a hunk. *)
Fixpoint apply_lines (source : list string) (eol : string) (l : list (string * bool)) (s : cursor) : res cursor :=
  match l with
  | [] => Ok s
  | (line, bare) :: l =>
      match line with
      | "" => Err (EText "panic: index out of range")
      | String c text =>
          let ending := if bare : bool then "" else eol in
          s ← (if bool_decide (c = "+"%char) then Ok s
               else match source !! Z.to_nat (cu_at s) with
                    | Some x => if bool_decide (x = text +:+ ending)
                                then Ok (mkCursor (cu_at s + 1) (cu_new s) (cu_out s)) else Err contextDiffers
                    | None => Err contextDiffers
                    end);
          let s := if bool_decide (c = "-"%char) then s
                   else mkCursor (cu_at s) (cu_new s + 1) (cu_out s +:+ text +:+ ending) in
          apply_lines source eol l s
      end
  end.

(** Copy the source lines up to [start]. *)
Definition copy_to (source : list string) (start : Z) (s : cursor) : cursor :=
  mkCursor start (cu_new s + (start - cu_at s))
    (cu_out s +:+ concat_s (take (Z.to_nat (start - cu_at s)) (drop (Z.to_nat (cu_at s)) source))).

Definition apply_hunk (source : list string) (eol : string) (s : cursor) (h : patchHunk) : res cursor :=
  let start := if (0 <? hk_oldCount h)%Z then (hk_oldStart h - 1)%Z else hk_oldStart h in
  let next := if (0 <? hk_newCount h)%Z then (hk_newStart h - 1)%Z else hk_newStart h in
  _ ← check (negb ((start <? cu_at s)%Z || (zlen source <? start)%Z
                   || negb (bool_decide (next = cu_new s + start - cu_at s)%Z)))
        (EText "patch hunks overlap or new ranges differ");
  apply_lines source eol (hk_lines h) (copy_to source start s).

Fixpoint apply_all (source : list string) (eol : string) (hunks : list patchHunk) (s : cursor) : res cursor :=
  match hunks with
  | [] => Ok s
  | h :: hunks => s ← apply_hunk source eol s h; apply_all source eol hunks s
  end.

(** [applyHunks]. *)
Definition applyHunks (before : string) (hunks : list patchHunk) : res string :=
  let source := source_lines before in
  s ← apply_all source (eol_of before) hunks (mkCursor 0 0 "");
  let out := cu_out (copy_to source (zlen source) s) in
  _ ← check (Z.of_nat (String.length out) <=? maxFileBytes)%Z (EText "patched file exceeds 256 KiB");
  Ok out.

(** ** The targets of a patch *)
Inductive operation := Edit | Create | Delete.
#[export] Instance operation_eq_dec : EqDecision operation.
Proof. solve_decision. Defined.

Record preparedChange := mkChange {
  pc_operation : operation; pc_path : string; pc_expected : string; pc_before : string; pc_updated : string;
}.

Section prepare.
Context {F : FileSystem}.

(** The operation and the path a file of the patch stands for. *)
Definition patch_target (f : patchFile) : res (operation * string) :=
  let old := TrimPrefix (pf_before f) "a/" in
  let new := TrimPrefix (pf_after f) "b/" in
  if bool_decide (pf_before f = "/dev/null") then Ok (Create, new)
  else if bool_decide (pf_after f = "/dev/null") then Ok (Delete, old)
  else if negb (bool_decide (old = new)) then Err (EText "patch renames are unsupported")
  else Ok (Edit, old).

Definition bad_target (name : string) : bool :=
  bool_decide (name = "/dev/null") || ContainsByte name "\"%char || negb (bool_decide (Clean name = name))
  || bool_decide (name = ".") || HasPrefix name "../" || HasPrefix name "/" || protectedConfig name.

(** [tools.read]: the file below the workspace, checked again. *)
Definition read (name : string) : res string := _ ← validatePath name; read_file name.

(** One target, after [seen]. *)
Definition prepare_file (expected : gmap string string) (seen : list string) (f : patchFile)
    : res (list string * preparedChange) :=
  '(op, name) ← patch_target f;
  _ ← check (negb (bad_target name)) (EText "patch requires unprotected workspace-relative paths");
  let key := ToLower name in
  _ ← check (negb (bool_decide (key ∈ seen))) (EText "duplicate patch target");
  match expected !! name with
  | None => Err (EText "missing expected target hash")
  | Some hash =>
      raw ← (if bool_decide (op = Create) then
               _ ← check (bool_decide (hash = "absent")) (EText "patch creation requires expected absence");
               _ ← validateCreatePath name; Ok ""
             else
               _ ← validatePath name;
               raw ← read name;
               _ ← check (bool_decide (String.length hash = 64%nat) && bool_decide (contentHash raw = hash))
                     (EText "patch target hash changed; read again");
               Ok raw);
      updated ← applyHunks raw (pf_hunks f);
      _ ← check (negb (bool_decide (op = Delete) && negb (bool_decide (updated = ""))))
            (EText "delete patch must remove the entire file");
      Ok (key :: seen, mkChange op name (if bool_decide (op = Create) then "" else hash) raw updated)
  end.

Fixpoint prepare_files (expected : gmap string string) (seen : list string) (l : list patchFile)
    : res (list preparedChange) :=
  match l with
  | [] => Ok []
  | f :: l =>
      '(seen, c) ← prepare_file expected seen f;
      cs ← prepare_files expected seen l;
      Ok (c :: cs)
  end.

(** [preparePatch] without the preview text and the approval items, on decoded
    arguments. *)
Definition preparePatch (patch : string) (expected : gmap string string) : res (list preparedChange) :=
  files ← parsePatch patch;
  _ ← check (bool_decide (size expected = length files)) (EText "expected_sha256 must cover exactly every patch target");
  prepare_files expected [] files.
End prepare.
