(* ===== verification/PatchProps.v ===== *)
(** * Unified diffs: exact application, bounds of the parser, safe targets *)

From Stdlib Require Import Ascii.
From S2P Require Import Prelude Text Workspace Patch.

(** ** What applying hunks means *)

(** The lines a hunk requires in the file, and those it leaves. *)
Definition side (skip : ascii) (eol : string) (l : list (string * bool)) : list string :=
  omap (λ '(line, bare), match line with
                         | String c text => if bool_decide (c = skip) then None
                                            else Some (text +:+ if bare : bool then "" else eol)
                         | "" => None end) l.
Definition old_side := side "+"%char.
Definition new_side := side "-"%char.

(** The first line of a range, counted from 0. *)
Definition range_start (start count : Z) : Z := if (0 <? count)%Z then (start - 1)%Z else start.

(** [patched eol at new source hunks result]: from line [at] of the file and
    line [new] of the result on, the hunks replace exactly the lines they show,
    at the positions they give, and nothing else. *)
Inductive patched (eol : string) : Z → Z → list string → list patchHunk → list string → Prop :=
  | patched_end at_ new rest : patched eol at_ new rest [] rest
  | patched_hunk at_ new gap rest h hunks out :
      range_start (hk_oldStart h) (hk_oldCount h) = (at_ + zlen gap)%Z →
      range_start (hk_newStart h) (hk_newCount h) = (new + zlen gap)%Z →
      patched eol (at_ + zlen gap + zlen (old_side eol (hk_lines h)))
                  (new + zlen gap + zlen (new_side eol (hk_lines h))) rest hunks out →
      patched eol at_ new (gap ++ old_side eol (hk_lines h) ++ rest) (h :: hunks)
                          (gap ++ new_side eol (hk_lines h) ++ out).

Lemma patched_hunk_inv eol at_ new source h hunks lines :
  patched eol at_ new source (h :: hunks) lines →
  ∃ gap rest out, source = gap ++ old_side eol (hk_lines h) ++ rest ∧
    lines = gap ++ new_side eol (hk_lines h) ++ out ∧
    range_start (hk_oldStart h) (hk_oldCount h) = (at_ + zlen gap)%Z ∧
    range_start (hk_newStart h) (hk_newCount h) = (new + zlen gap)%Z ∧
    patched eol (at_ + zlen gap + zlen (old_side eol (hk_lines h)))
                (new + zlen gap + zlen (new_side eol (hk_lines h))) rest hunks out.
Proof. inversion 1; subst. eauto 10. Qed.

Definition lines_ok (l : list (string * bool)) : Prop :=
  Forall (λ p, match p.1 with String c _ => c = " "%char ∨ c = "+"%char ∨ c = "-"%char | "" => False end) l.

Lemma drop_cons {A} (l : list A) i x k : drop i l = x :: k ↔ l !! i = Some x ∧ drop (S i) l = k.
Proof.
  split.
  - intros E. assert (Hx : l !! i = Some x).
    { rewrite <- (Nat.add_0_r i), <- lookup_drop, E. done. }
    split; [done|]. rewrite (drop_S _ _ _ Hx) in E. by injection E.
  - intros [Hx <-]. by apply drop_S.
Qed.

Lemma side_cons skip eol c text (bare : bool) l :
  side skip eol ((String c text, bare) :: l) =
    if bool_decide (c = skip) then side skip eol l
    else (text +:+ if bare then "" else eol) :: side skip eol l.
Proof. unfold side. simpl. by destruct (bool_decide (c = skip)). Qed.

(** A line that is in the file: it is matched, and copied unless removed. *)
Lemma matched_line source (t : string) at_ (P : Prop) :
  (0 <= at_)%Z →
  (∀ x, source !! Z.to_nat at_ = Some x → x = t → (at_ + 1 <= zlen source)%Z) ∧
  (∀ rest at', drop (Z.to_nat at_) source = t :: rest ++ drop at' source ↔
     source !! Z.to_nat at_ = Some t ∧ drop (Z.to_nat (at_ + 1)) source = rest ++ drop at' source).
Proof.
  intros Ha. split.
  - intros x Hx _. apply lookup_lt_Some in Hx. unfold zlen. lia.
  - intros rest at'. rewrite drop_cons. by replace (Z.to_nat (at_ + 1)) with (S (Z.to_nat at_)) by lia.
Qed.

Lemma apply_lines_spec source eol l s s' :
  lines_ok l → (0 <= cu_at s)%Z →
  apply_lines source eol l s = Ok s' ↔
  drop (Z.to_nat (cu_at s)) source = old_side eol l ++ drop (Z.to_nat (cu_at s')) source ∧
  s' = mkCursor (cu_at s + zlen (old_side eol l)) (cu_new s + zlen (new_side eol l))
         (cu_out s +:+ concat_s (new_side eol l)).
Proof.
  unfold old_side, new_side.
  intros Hl. revert s. induction Hl as [|[[|c text] bare] l Hc Hl IH]; intros s Hs; [|done|simpl in Hc].
  - simpl. unfold zlen. simpl. rewrite !Z.add_0_r, append_nil_r. destruct s as [a n o]. simpl. split.
    + by intros [= <-].
    + by intros (_ & ->).
  - cbn [apply_lines]. rewrite !side_cons. set (t := text +:+ (if bare then "" else eol)) in *.
    destruct (decide (c = "+"%char)) as [->|Hplus].
    + rewrite !(bool_decide_eq_true_2 ("+"%char = "+"%char)), !(bool_decide_eq_false_2 ("+"%char = "-"%char)) by done.
      cbn [mbind res_mbind]. rewrite IH by done. simpl. rewrite zlen_cons, append_assoc.
      split; intros [H1 ->]; (split; [exact H1|f_equal; lia]).
    + rewrite (bool_decide_eq_false_2 (c = "+"%char)) by done.
      destruct (matched_line source t (cu_at s) True Hs) as [_ Hm].
      assert (Hgen : ∀ s1, cu_at s1 = (cu_at s + 1)%Z →
         (match source !! Z.to_nat (cu_at s) with
          | Some x => if bool_decide (x = t) then Ok (mkCursor (cu_at s + 1) (cu_new s) (cu_out s)) else Err contextDiffers
          | None => Err contextDiffers end ≫= λ _, apply_lines source eol l s1) = Ok s' ↔
         drop (Z.to_nat (cu_at s)) source = t :: side "+"%char eol l ++ drop (Z.to_nat (cu_at s')) source ∧
         s' = mkCursor (cu_at s1 + zlen (side "+"%char eol l)) (cu_new s1 + zlen (side "-"%char eol l))
                (cu_out s1 +:+ concat_s (side "-"%char eol l))).
      { intros s1 Hs1. rewrite Hm. destruct (source !! Z.to_nat (cu_at s)) as [x|]; [|split; [done|by intros [[? _] _]]].
        case_bool_decide as Ex.
        - subst x. cbn [mbind res_mbind]. rewrite IH by lia. rewrite Hs1. naive_solver.
        - split; [done|]. intros [[[= ?] _] _]. done. }
      destruct (decide (c = "-"%char)) as [->|Hminus].
      * rewrite !(bool_decide_eq_true_2 ("-"%char = "-"%char)) by done.
        specialize (Hgen (mkCursor (cu_at s + 1) (cu_new s) (cu_out s)) eq_refl). simpl in Hgen.
        rewrite zlen_cons. replace (cu_at s + (zlen (side "+"%char eol l) + 1))%Z
          with (cu_at s + 1 + zlen (side "+"%char eol l))%Z by lia.
        rewrite <- Hgen. clear. destruct (source !! _); [|done]. by case_bool_decide.
      * rewrite !(bool_decide_eq_false_2 (c = "-"%char)) by done.
        specialize (Hgen (mkCursor (cu_at s + 1) (cu_new s + 1) (cu_out s +:+ t)) eq_refl). simpl in Hgen.
        rewrite !zlen_cons. replace (cu_at s + (zlen (side "+"%char eol l) + 1))%Z
          with (cu_at s + 1 + zlen (side "+"%char eol l))%Z by lia.
        replace (cu_new s + (zlen (side "-"%char eol l) + 1))%Z
          with (cu_new s + 1 + zlen (side "-"%char eol l))%Z by lia.
        simpl. rewrite <- append_assoc, <- Hgen. clear. destruct (source !! _); [|done]. by case_bool_decide.
Qed.

Definition hunks_ok (l : list patchHunk) : Prop := Forall (λ h, lines_ok (hk_lines h)) l.

Lemma drop_app_exact {A} (l k m : list A) i : drop i l = k ++ m → (i ≤ length l)%nat →
  drop (i + length k) l = m ∧ (i + length k ≤ length l)%nat ∧ k = take (length k) (drop i l).
Proof.
  intros E Hi. split_and!.
  - by rewrite <- drop_drop, E, drop_app_length.
  - assert (length (drop i l) = length (k ++ m)) as Hl by (by rewrite E). rewrite length_drop, length_app in Hl. lia.
  - by rewrite E, take_app_length.
Qed.

(** One hunk, from a position in the file. *)
Lemma apply_hunk_spec source eol h s s' :
  lines_ok (hk_lines h) → (0 <= cu_at s <= zlen source)%Z →
  apply_hunk source eol s h = Ok s' ↔
  ∃ gap rest, drop (Z.to_nat (cu_at s)) source = gap ++ old_side eol (hk_lines h) ++ rest ∧
    range_start (hk_oldStart h) (hk_oldCount h) = (cu_at s + zlen gap)%Z ∧
    range_start (hk_newStart h) (hk_newCount h) = (cu_new s + zlen gap)%Z ∧
    s' = mkCursor (cu_at s + zlen gap + zlen (old_side eol (hk_lines h)))
           (cu_new s + zlen gap + zlen (new_side eol (hk_lines h)))
           (cu_out s +:+ concat_s (gap ++ new_side eol (hk_lines h))).
Proof.
  intros Hl Hs. unfold apply_hunk. fold (range_start (hk_oldStart h) (hk_oldCount h)).
  fold (range_start (hk_newStart h) (hk_newCount h)).
  set (start := range_start (hk_oldStart h) (hk_oldCount h)). set (next := range_start _ _).
  set (old := old_side eol (hk_lines h)). set (new := new_side eol (hk_lines h)).
  rewrite res_bind_ok. split.
  - intros ([] & Hg%check_ok%negb_true_iff & Ha).
    apply orb_false_iff in Hg as [[H1%Z.ltb_ge H2%Z.ltb_ge]%orb_false_iff H3%negb_false_iff%bool_decide_eq_true].
    apply apply_lines_spec in Ha as [Hd ->]; [|done|simpl; lia]. simpl in *. fold old in Hd |- *. fold new.
    set (gap := take (Z.to_nat (start - cu_at s)) (drop (Z.to_nat (cu_at s)) source)).
    assert (Hgap : zlen gap = (start - cu_at s)%Z).
    { unfold gap, zlen in *. rewrite length_take, length_drop. lia. }
    exists gap, (drop (Z.to_nat (start + zlen old)) source). split_and!; [|lia|lia|].
    + rewrite <- Hd. unfold gap. rewrite <- (take_drop (Z.to_nat (start - cu_at s)) (drop (Z.to_nat (cu_at s)) source)) at 1.
      f_equal. rewrite drop_drop. f_equal. lia.
    + fold gap. rewrite Hgap, concat_s_app, append_assoc. f_equal; lia.
  - intros (gap & rest & Hd & E1 & E2 & ->).
    assert (Hat : (Z.to_nat (cu_at s) ≤ length source)%nat) by (unfold zlen in Hs; lia).
    destruct (drop_app_exact _ _ _ _ Hd Hat) as (Hd1 & Hb1 & Hg).
    destruct (drop_app_exact _ _ _ _ Hd1 Hb1) as (Hd2 & Hb2 & _).
    assert (Hst : Z.to_nat start = (Z.to_nat (cu_at s) + length gap)%nat) by (unfold zlen in E1; lia).
    exists tt. split.
    + apply check_ok, negb_true_iff, orb_false_iff. split; [apply orb_false_iff; split|apply negb_false_iff, bool_decide_eq_true].
      * apply Z.ltb_ge. unfold zlen in E1. lia.
      * apply Z.ltb_ge. unfold zlen in *. lia.
      * lia.
    + apply apply_lines_spec; [done|simpl; unfold zlen in *; lia|]. simpl. fold old new.
      assert (Hgt : take (Z.to_nat (start - cu_at s)) (drop (Z.to_nat (cu_at s)) source) = gap).
      { etrans; [|symmetry; exact Hg]. f_equal. unfold zlen in *. lia. }
      split.
      * rewrite Hst, Hd1. f_equal. rewrite <- Hd2. f_equal. unfold zlen in *. lia.
      * rewrite Hgt, concat_s_app, append_assoc. f_equal; lia.
Qed.

Lemma apply_all_spec source eol hunks s out :
  hunks_ok hunks → (0 <= cu_at s <= zlen source)%Z →
  (∃ s', apply_all source eol hunks s = Ok s' ∧ out = cu_out (copy_to source (zlen source) s')) ↔
  ∃ lines, patched eol (cu_at s) (cu_new s) (drop (Z.to_nat (cu_at s)) source) hunks lines ∧
           out = cu_out s +:+ concat_s lines.
Proof.
  intros Hok. revert out s. induction Hok as [|h hunks Hl Hok IH]; intros out s Hs.
  - assert (E : take (Z.to_nat (zlen source - cu_at s)) (drop (Z.to_nat (cu_at s)) source) = drop (Z.to_nat (cu_at s)) source).
    { apply take_ge. rewrite length_drop. unfold zlen. lia. }
    simpl. split.
    + intros (s' & [= <-] & ->). eexists. split; [constructor|]. simpl. by rewrite E.
    + intros (lines & Hp & ->). inversion Hp; subst. exists s. split; [done|]. simpl. by rewrite E.
  - cbn [apply_all]. split.
    + intros (s' & Ha & ->). apply res_bind_ok in Ha as (s1 & H1 & Ha).
      apply apply_hunk_spec in H1 as (gap & rest & Hd & E1 & E2 & ->); [|done..].
      assert (Hat : (Z.to_nat (cu_at s) ≤ length source)%nat) by (unfold zlen in Hs; lia).
      destruct (drop_app_exact _ _ _ _ Hd Hat) as (Hd1 & Hb1 & _).
      destruct (drop_app_exact _ _ _ _ Hd1 Hb1) as (Hd2 & Hb2 & _).
      set (s1 := mkCursor _ _ _) in *.
      assert (Hs1 : (0 <= cu_at s1 <= zlen source)%Z) by (unfold s1, zlen in *; simpl; lia).
      destruct (proj1 (IH (cu_out (copy_to source (zlen source) s')) s1 Hs1)) as (lines & Hp & Ho); [by exists s'|].
      assert (Hr : drop (Z.to_nat (cu_at s1)) source = rest).
      { rewrite <- Hd2. f_equal. unfold s1, zlen. simpl. lia. }
      exists (gap ++ new_side eol (hk_lines h) ++ lines). split.
      * rewrite Hd. apply patched_hunk; [done|done|]. by rewrite <- Hr.
      * rewrite Ho. unfold s1. simpl. by rewrite !concat_s_app, !append_assoc.
    + intros (lines & Hp & ->).
      apply patched_hunk_inv in Hp as (gap & rest & lines' & Ed & -> & E1 & E2 & Hrest).
      assert (Hat : (Z.to_nat (cu_at s) ≤ length source)%nat) by (unfold zlen in Hs; lia).
      destruct (drop_app_exact _ _ _ _ Ed Hat) as (Hd1 & Hb1 & _).
      destruct (drop_app_exact _ _ _ _ Hd1 Hb1) as (Hd2 & Hb2 & _).
      set (s1 := mkCursor (cu_at s + zlen gap + zlen (old_side eol (hk_lines h)))
           (cu_new s + zlen gap + zlen (new_side eol (hk_lines h)))
           (cu_out s +:+ concat_s (gap ++ new_side eol (hk_lines h)))).
      assert (Hs1 : (0 <= cu_at s1 <= zlen source)%Z) by (unfold s1, zlen in *; simpl; lia).
      destruct (proj2 (IH (cu_out s1 +:+ concat_s lines') s1 Hs1)) as (s' & Ha & Ho).
      { exists lines'. split; [|reflexivity]. unfold s1. simpl.
        replace (Z.to_nat (cu_at s + zlen gap + zlen (old_side eol (hk_lines h))))
          with (Z.to_nat (cu_at s) + length gap + length (old_side eol (hk_lines h)))%nat by (unfold zlen; lia).
        by rewrite Hd2. }
      exists s'. split.
      * apply res_bind_ok. exists s1. split; [|done]. apply apply_hunk_spec; [done..|]. by exists gap, rest.
      * rewrite <- Ho. unfold s1. simpl. by rewrite !concat_s_app, !append_assoc.
Qed.

(** C15: applying the hunks of a patch to a file succeeds with a result exactly
    when the result is the file with each hunk's old lines, found literally at
    the positions the hunk gives, replaced by its new lines, and with every
    other line as it was: no fuzzy matching, no overlap, nothing else changed. *)
Theorem applyHunks_exact before hunks out :
  hunks_ok hunks →
  applyHunks before hunks = Ok out ↔
  ∃ lines, patched (eol_of before) 0 0 (source_lines before) hunks lines ∧ out = concat_s lines ∧
           (Z.of_nat (String.length out) <= maxFileBytes)%Z.
Proof.
  intros Hok. unfold applyHunks. set (s0 := mkCursor 0 0 "").
  assert (Hs0 : (0 <= cu_at s0 <= zlen (source_lines before))%Z) by (unfold zlen; simpl; lia).
  pose proof (λ o, apply_all_spec (source_lines before) (eol_of before) hunks s0 o Hok Hs0) as Hspec.
  simpl in Hspec. split.
  - intros Ha. apply res_bind_ok in Ha as (s & Ha & Hc). apply res_bind_ok in Hc as ([] & Hc%check_ok%Z.leb_le & [= <-]).
    destruct (proj1 (Hspec (cu_out (copy_to (source_lines before) (zlen (source_lines before)) s)))) as (lines & Hp & Ho);
      [by exists s|].
    exists lines. split_and!; done.
  - intros (lines & Hp & -> & Hc). destruct (proj2 (Hspec (concat_s lines))) as (s & Ha & Ho); [by exists lines|].
    assert (Ho' : cu_out (copy_to (source_lines before) (zlen (source_lines before)) s) = concat_s lines) by (symmetry; exact Ho).
    rewrite Ha. cbn [mbind res_mbind]. rewrite Ho'. apply Z.leb_le in Hc. by rewrite Hc.
Qed.

(** ** The parser *)
Definition counts (l : list (string * bool)) : Z * Z := (zlen (old_side "" l), zlen (new_side "" l)).

Lemma side_length skip eol eol' l : zlen (side skip eol l) = zlen (side skip eol' l).
Proof.
  induction l as [|[[|c text] bare] l IH]; [done|exact IH|]. rewrite !side_cons.
  destruct (bool_decide _); [exact IH|]. by rewrite !zlen_cons, IH.
Qed.

Lemma side_app skip eol l k : side skip eol (l ++ k) = side skip eol l ++ side skip eol k.
Proof. apply omap_app. Qed.

Lemma hunk_lines_ok b d old new rest acc o n lines rest' :
  hunk_lines b d old new rest acc = Ok (o, n, lines, rest') → lines_ok acc → counts acc = (old, new) →
  lines_ok lines ∧ counts lines = (o, n) ∧ (length rest' ≤ length rest)%nat.
Proof.
  revert old new acc. assert (Hg : ∀ k rest, (length rest ≤ k)%nat → ∀ old new acc,
    hunk_lines b d old new rest acc = Ok (o, n, lines, rest') → lines_ok acc → counts acc = (old, new) →
    lines_ok lines ∧ counts lines = (o, n) ∧ (length rest' ≤ length rest)%nat); [|by eapply Hg].
  clear rest. induction k as [|k IH]; intros [|line rest] Hk old new acc Hr Ha Hc; simpl in Hk; try lia.
  1,2: simpl in Hr; destruct (_ || _); by injection Hr as <- <- <- <-.
  cbn [hunk_lines] in Hr. destruct ((old <? b)%Z || (new <? d)%Z); [|by injection Hr as <- <- <- <-].
  destruct line as [|c text]; [done|].
  destruct (negb _) eqn:Ec; [done|]. apply negb_false_iff in Ec.
  set (old' := if bool_decide (c = "+"%char) then old else (old + 1)%Z) in *.
  set (new' := if bool_decide (c = "-"%char) then new else (new + 1)%Z) in *.
  destruct ((b <? old')%Z || (d <? new')%Z); [done|].
  assert (Hstep : ∀ bare, lines_ok (acc ++ [(String c text, bare)]) ∧ counts (acc ++ [(String c text, bare)]) = (old', new')).
  { intros bare. split.
    - apply Forall_app. split; [done|]. constructor; [|done]. simpl.
      apply orb_true_iff in Ec as [[->%bool_decide_eq_true| ->%bool_decide_eq_true]%orb_true_iff| ->%bool_decide_eq_true]; auto.
    - unfold counts, old_side, new_side in *. rewrite !side_app, !side_cons, !zlen_app. injection Hc as <- <-.
      unfold old', new'. f_equal; repeat case_bool_decide; try done; unfold zlen; simpl; lia. }
  assert (Hrec : ∀ r bare, (length r ≤ length rest)%nat →
     hunk_lines b d old' new' r (acc ++ [(String c text, bare)]) = Ok (o, n, lines, rest') →
     lines_ok lines ∧ counts lines = (o, n) ∧ (length rest' ≤ S (length rest))%nat).
  { intros r bare Hl Hh. destruct (Hstep bare) as [H1 H2]. eapply IH in Hh; [|lia|done..]. destruct Hh as (?&?&?). split_and!; try done. lia. }
  destruct rest as [|mark rest2]; [by eapply Hrec|].
  destruct (bool_decide (mark = noNewlineMark)); eapply Hrec; [|exact Hr|done|exact Hr]. simpl. lia.
Qed.

(** A hunk the parser lets through. *)
Definition hunk_wf (h : patchHunk) : Prop :=
  lines_ok (hk_lines h) ∧ (hk_oldStart h <= maxFileBytes ∧ hk_newStart h <= maxFileBytes)%Z ∧
  zlen (old_side "" (hk_lines h)) = hk_oldCount h ∧ zlen (new_side "" (hk_lines h)) = hk_newCount h ∧
  (hk_oldCount h <= maxFileBytes ∧ hk_newCount h <= maxFileBytes)%Z.

Definition not_fuel {A} (r : res A) : Prop := r ≠ Err (EText "out of fuel").

Lemma hunk_lines_no_fuel b d old new rest acc : not_fuel (hunk_lines b d old new rest acc).
Proof.
  unfold not_fuel. revert old new acc. assert (Hg : ∀ k rest, (length rest ≤ k)%nat → ∀ old new acc,
    hunk_lines b d old new rest acc ≠ Err (EText "out of fuel")); [|by eapply Hg].
  clear rest. induction k as [|k IH]; intros [|line rest] Hk old new acc; simpl in Hk; try lia.
  1,2: simpl; by destruct (_ || _).
  cbn [hunk_lines]. destruct (_ || _); [|done]. destruct line as [|c text]; [done|].
  destruct (negb _); [done|]. destruct (_ || _); [done|].
  destruct rest as [|mark rest2]; [apply IH; simpl; lia|].
  destruct (bool_decide _); apply IH; simpl in *; lia.
Qed.

Lemma file_hunks_ok fuel rest acc :
  (length rest ≤ fuel)%nat → Forall hunk_wf acc → (zlen acc <= 1024)%Z →
  match file_hunks fuel rest acc with
  | Ok (hunks, rest') => Forall hunk_wf hunks ∧ (zlen hunks <= 1024)%Z ∧ (length rest' ≤ length rest)%nat
  | Err e => e ≠ EText "out of fuel"
  end.
Proof.
  revert rest acc. induction fuel as [|fuel IH]; intros [|line rest] acc Hf Hacc Hz; simpl in Hf; try lia; try done.
  cbn [file_hunks]. destruct (HasPrefix line "@@ "); [|done].
  destruct (patchHeader line) as [[[[a b] c] d]|]; [|done].
  destruct (1024 <=? zlen acc)%Z eqn:E1; [done|]. apply Z.leb_gt in E1. cbn [negb check mbind res_mbind].
  destruct (forallb (λ n, (n <=? maxFileBytes)%Z) [a; b; c; d]) eqn:E2; [|done]. cbn [check mbind res_mbind].
  destruct (hunk_lines b d 0 0 rest []) as [[[[o n] lines] rest2]|e] eqn:Eh.
  2:{ cbn [mbind res_mbind]. intros ->. by apply (hunk_lines_no_fuel b d 0 0 rest []). }
  cbn [mbind res_mbind]. destruct (bool_decide (o = b) && bool_decide (n = d)) eqn:E3; [|done].
  apply andb_true_iff in E3 as [->%bool_decide_eq_true ->%bool_decide_eq_true]. cbn [check mbind res_mbind].
  apply hunk_lines_ok in Eh as (Hl & Hc & Hle); [|constructor|done]. injection Hc as Hc1 Hc2.
  simpl in E2. rewrite !andb_true_iff, !Z.leb_le in E2.
  specialize (IH rest2 (acc ++ [mkHunk a b c d lines])).
  destruct (file_hunks fuel rest2 _) as [[hunks rest3]|e].
  - destruct IH as (H1 & H2 & H3).
    + lia.
    + apply Forall_app. split; [done|]. constructor; [|done]. unfold hunk_wf. simpl. naive_solver.
    + rewrite zlen_app. unfold zlen in *. simpl. lia.
    + split_and!; [done|done|]. simpl. lia.
  - apply IH; [lia| |].
    + apply Forall_app. split; [done|]. constructor; [|done]. unfold hunk_wf. simpl. naive_solver.
    + rewrite zlen_app. unfold zlen in *. simpl. lia.
Qed.

Definition file_wf (f : patchFile) : Prop :=
  Forall hunk_wf (pf_hunks f) ∧ pf_hunks f ≠ [] ∧ (zlen (pf_hunks f) <= 1024)%Z.

Lemma patch_files_ok fuel rest acc :
  (length rest ≤ fuel)%nat → Forall file_wf acc → (zlen acc <= 32)%Z →
  match patch_files fuel rest acc with
  | Ok files => Forall file_wf files ∧ (zlen files <= 32)%Z
  | Err e => e ≠ EText "out of fuel"
  end.
Proof.
  revert rest acc. induction fuel as [|fuel IH]; intros [|before rest] acc Hf Hacc Hz; simpl in Hf; try lia; try done.
  cbn [patch_files]. destruct (negb (32 <=? zlen acc)%Z && HasPrefix before "--- ") eqn:E1; [|done].
  apply andb_true_iff in E1 as [E1%negb_true_iff%Z.leb_gt _]. cbn [check mbind res_mbind].
  destruct rest as [|after rest]; [done|]. destruct (HasPrefix after "+++ "); [|done]. cbn [check mbind res_mbind].
  pose proof (file_hunks_ok (length rest) rest []) as Hh.
  destruct (file_hunks _ rest []) as [[hunks rest2]|e]; cbn [mbind res_mbind].
  2:{ apply Hh; [done|constructor|done]. }
  destruct Hh as (H1 & H2 & H3); [done|constructor|done|].
  destruct (bool_decide (hunks = [])) eqn:Eh; [done|]. apply bool_decide_eq_false in Eh. cbn [negb check mbind res_mbind].
  apply IH; [simpl in Hf; lia| |rewrite zlen_app; unfold zlen in *; simpl; lia].
  apply Forall_app. split; [done|]. by constructor.
Qed.

(** The parser ends on every text, and what it accepts is bounded and
    consistent: at most 32 files of 1 to 1024 hunks, the ranges within the file
    limit, and in each hunk exactly as many old and new lines as its header
    announces. *)
Theorem parsePatch_bounded text :
  match parsePatch text with
  | Ok files => Forall file_wf files ∧ (zlen files <= 32)%Z ∧ (Z.of_nat (String.length text) <= 2 * maxFileBytes)%Z
  | Err e => e ≠ EText "out of fuel"
  end.
Proof.
  unfold parsePatch. destruct (negb _) eqn:E; [|done]. cbn [check mbind res_mbind].
  apply negb_true_iff in E. rewrite !orb_false_iff in E. destruct E as [[[[_ E%Z.ltb_ge] _] _] _].
  set (lines := Split _ _). pose proof (patch_files_ok (length lines) lines []) as Hp.
  destruct (patch_files _ _ _); [|apply Hp; [done|constructor|done]].
  destruct Hp as [? ?]; [done|constructor|done|]. done.
Qed.

(** ** The targets *)
Section targets.
Context {F : FileSystem}.

Lemma no_parent name n : validatePath name = Ok n ∨ validateCreatePath name = Ok n → name ≠ "..".
Proof. intros Hv ->. by destruct Hv. Qed.

Lemma bad_target_inside name : bad_target name = false → name ≠ ".." →
  HasPrefix name "/" = false ∧ Clean name = name ∧ Forall normal (Split name slash) ∧ protectedConfig name = false.
Proof.
  unfold bad_target. intros Hb Hup. rewrite !orb_false_iff in Hb.
  destruct Hb as [[[[[_ Hc%negb_false_iff%bool_decide_eq_true] Hd%bool_decide_eq_false] Hp] Hr] Hpr].
  split_and!; try done. by apply Clean_inside.
Qed.

(** What one prepared target promises, against the hashes the caller gave. *)
Definition target_ok (expected : gmap string string) (f : patchFile) (c : preparedChange) : Prop :=
  HasPrefix (pc_path c) "/" = false ∧ Forall normal (Split (pc_path c) slash) ∧ protectedConfig (pc_path c) = false ∧
  match pc_operation c with
  | Create => expected !! pc_path c = Some "absent" ∧ pc_before c = "" ∧ is_ok (validateCreatePath (pc_path c)) = true
  | _ => expected !! pc_path c = Some (contentHash (pc_before c)) ∧ pc_expected c = contentHash (pc_before c) ∧
         read (pc_path c) = Ok (pc_before c)
  end ∧
  applyHunks (pc_before c) (pf_hunks f) = Ok (pc_updated c) ∧
  (pc_operation c = Delete → pc_updated c = "").

Lemma prepare_file_ok expected seen f seen' c :
  prepare_file expected seen f = Ok (seen', c) →
  target_ok expected f c ∧ seen' = ToLower (pc_path c) :: seen ∧ ToLower (pc_path c) ∉ seen.
Proof.
  intros Hp. unfold prepare_file in Hp. apply res_bind_ok in Hp as ([op name] & _ & Hp).
  apply res_bind_ok in Hp as ([] & Hb%check_ok%negb_true_iff & Hp).
  apply res_bind_ok in Hp as ([] & Hs%check_ok%negb_true_iff%bool_decide_eq_false & Hp).
  destruct (expected !! name) as [hash|] eqn:Eh; [|done].
  apply res_bind_ok in Hp as (raw & Hraw & Hp). apply res_bind_ok in Hp as (updated & Hup & Hp).
  apply res_bind_ok in Hp as ([] & Hdel%check_ok%negb_true_iff & [= <- <-]). simpl.
  split; [|done]. unfold target_ok. simpl.
  assert (Hdel' : op = Delete → updated = "").
  { intros ->. rewrite bool_decide_eq_true_2 in Hdel by done. simpl in Hdel.
    by apply negb_false_iff, bool_decide_eq_true in Hdel. }
  destruct (bool_decide (op = Create)) eqn:Eo.
  - apply bool_decide_eq_true in Eo as ->.
    apply res_bind_ok in Hraw as ([] & ->%check_ok%bool_decide_eq_true & Hraw).
    apply res_bind_ok in Hraw as (n & Hv & [= <-]).
    destruct (bad_target_inside name Hb) as (?&?&?&?); [by eapply no_parent; right|].
    rewrite Hv. done.
  - apply bool_decide_eq_false in Eo.
    apply res_bind_ok in Hraw as (n & Hv & Hraw). apply res_bind_ok in Hraw as (raw' & Hr & Hraw).
    apply res_bind_ok in Hraw as ([] & Hh%check_ok%andb_true_iff & [= <-]).
    destruct Hh as [_ <-%bool_decide_eq_true].
    destruct (bad_target_inside name Hb) as (?&?&?&?); [by eapply no_parent; left|].
    destruct op; done.
Qed.

Lemma prepare_files_ok expected seen l cs :
  prepare_files expected seen l = Ok cs →
  Forall2 (target_ok expected) l cs ∧ NoDup (map (λ c, ToLower (pc_path c)) cs) ∧
  (∀ c, c ∈ cs → ToLower (pc_path c) ∉ seen).
Proof.
  revert seen cs. induction l as [|f l IH]; intros seen cs Hp; simpl in Hp.
  { injection Hp as <-. split_and!; [constructor|constructor|set_solver]. }
  apply res_bind_ok in Hp as ([seen' c] & (Ht & -> & Hns)%prepare_file_ok & Hp).
  apply res_bind_ok in Hp as (cs' & (HF & Hnd & Hseen)%IH & [= <-]).
  split_and!; [by constructor| |].
  - simpl. constructor; [|done]. intros (c' & E & Hc')%list_elem_of_fmap. apply (Hseen c' Hc'). rewrite E. set_solver.
  - intros c' [->|Hc']%elem_of_cons; [done|]. specialize (Hseen c' Hc'). set_solver.
Qed.

(** C16: a patch is prepared only for the files the caller has seen: each target
    is a clean path below the workspace and outside the program's
    configuration, its current content has the hash the caller gave (or it is
    absent and is created), its new content is the exact application of the
    patch's hunks, a deleted file is emptied, no two targets are the same file
    up to case, and the given hashes name exactly the targets. *)
Theorem preparePatch_safe patch expected cs :
  preparePatch patch expected = Ok cs →
  ∃ files, parsePatch patch = Ok files ∧ Forall2 (target_ok expected) files cs ∧
    NoDup (map (λ c, ToLower (pc_path c)) cs) ∧ (∀ name, is_Some (expected !! name) ↔ name ∈ map pc_path cs).
Proof.
  intros Hp. unfold preparePatch in Hp. apply res_bind_ok in Hp as (files & Hf & Hp).
  apply res_bind_ok in Hp as ([] & Hsz%check_ok%bool_decide_eq_true & Hp).
  apply prepare_files_ok in Hp as (HF & Hnd & _). exists files. split; [done|]. split; [done|]. split; [done|].
  assert (Hnd' : NoDup (map pc_path cs)).
  { apply (NoDup_fmap_1 ToLower). rewrite <- list_fmap_compose. exact Hnd. }
  assert (Hin : list_to_set (map pc_path cs) ⊆ dom expected).
  { intros name (c & -> & Hc)%elem_of_list_to_set%list_elem_of_fmap. apply elem_of_dom.
    apply list_elem_of_lookup in Hc as [i Hi]. destruct (Forall2_lookup_r _ _ _ _ _ HF Hi) as (f & _ & Ht).
    destruct Ht as (_ & _ & _ & Ht & _). destruct (pc_operation c); destruct Ht as [-> _]; eauto. }
  assert (Heq : list_to_set (C:=gset string) (map pc_path cs) = dom expected).
  { apply set_subseteq_size_eq; [done|].
    rewrite size_dom, Hsz, size_list_to_set by done. rewrite (Forall2_length _ _ _ HF). unfold pc_path. by rewrite length_map. }
  intros name. rewrite <- elem_of_dom, <- Heq. apply elem_of_list_to_set.
Qed.
End targets.

(** ** Witnesses *)
Module PatchDemo.
Import WorkspaceDemo.
Definition before : string := "one" +:+ nl +:+ "two" +:+ nl.
Definition hunk : patchHunk := mkHunk 1 2 1 2 [(" one", false); ("-two", false); ("+2", false)].
Definition text : string :=
  Join ["--- a/src/a.txt"; "+++ b/src/a.txt"; "@@ -1,2 +1,2 @@"; " one"; "-two"; "+2"; ""] nl.
Definition expected : gmap string string := {["src/a.txt" := contentHash before]}.
Definition prepared := preparePatch text expected.
Definition changes : list preparedChange := match prepared with Ok cs => cs | Err _ => [] end.
Lemma prepared_ok : preparePatch text expected = Ok changes.
Proof. vm_compute. reflexivity. Qed.
Lemma hunk_lines_valid : hunks_ok [hunk].
Proof. constructor; [|done]. repeat (apply Forall_cons; split; [simpl; auto|]). done. Qed.
End PatchDemo.
Import WorkspaceDemo PatchDemo.

Lemma applyHunks_exact_witness :
  ∃ lines, patched nl 0 0 ["one" +:+ nl; "two" +:+ nl] [PatchDemo.hunk] lines ∧
           concat_s lines = "one" +:+ nl +:+ "2" +:+ nl.
Proof.
  destruct (proj1 (applyHunks_exact PatchDemo.before [PatchDemo.hunk] ("one" +:+ nl +:+ "2" +:+ nl) hunk_lines_valid)
    ltac:(vm_compute; reflexivity)) as (lines & Hp & Ho & _).
  exists lines. split; [exact Hp|symmetry; exact Ho].
Defined.

Lemma preparePatch_safe_witness :
  length changes = 1%nat ∧ NoDup (map (λ c, ToLower (pc_path c)) changes).
Proof.
  destruct (preparePatch_safe text expected changes prepared_ok) as (files & _ & _ & Hnd & _).
  split; [vm_compute; reflexivity|exact Hnd].
Defined.
