(* ===== verification/Profile.v ===== *)
(** * The execution profile of a run

    Model of src/internal/harness/execution_profile.go: the vocabulary of
    permissions, sandboxes, file scopes and networks (strings, because the
    configuration may hold any text), their validation, and the profile a run
    freezes when it starts; and of the command rules of commands.go, the
    approval decision of permissions.go and the tool view of runtime_policy.go
    that are built on it. [filepath] is that of Unix. *)

From Stdlib Require Import Ascii.
From S2P Require Import Prelude Text Data.
Local Open Scope Z_scope.

(** What the process answers: its working directory, the resolution of links,
    and the text of a list of strings in JSON. *)
Class Process := {
  pr_unicode :: Unicode;
  Getwd : res string;
  EvalSymlinks : string → res string;
  json_strings : list string → string;
}.

(** ** The vocabulary *)
Definition one_of (s : string) (l : list string) : bool := bool_decide (s ∈ l).
Definition invalid (what s : string) : error := EFmt ("harness: invalid " +:+ what +:+ " %q") [s].

(** [PermissionMode.Validate] (permissions.go). *)
Definition permission_Validate (m : string) : res unit :=
  check (one_of m [PermissionNone; PermissionAsk; PermissionWorkspace; PermissionFull])
    (EText "harness: permission must be none, ask, workspace or full").

(** [permissionRank], [lowerPermission] (space_permissions.go). *)
Definition permissionRank (m : string) : Z :=
  if bool_decide (m = PermissionNone) then 0
  else if bool_decide (m = PermissionAsk) then 1
  else if bool_decide (m = PermissionWorkspace) then 2
  else if bool_decide (m = PermissionFull) then 3 else -1.
Definition lowerPermission (a b : string) : string :=
  if (permissionRank a <? 0) || (permissionRank b <? 0) then PermissionNone
  else if permissionRank a <? permissionRank b then a else b.

Definition SandboxReadOnly := "read_only".
Definition SandboxWorkspaceWrite := "workspace_write".
Definition SandboxSelectedRoots := "selected_roots".
Definition SandboxHostFull := "host_full".
Definition sandbox_Validate (m : string) : res unit :=
  check (one_of m [SandboxReadOnly; SandboxWorkspaceWrite; SandboxSelectedRoots; SandboxHostFull])
    (invalid "sandbox mode" m).

Definition ApprovalAsk := "ask".
Definition ApprovalAutoInSandbox := "auto_in_sandbox".
Definition ApprovalNeverHost := "never_host".
Definition approval_Validate (p : string) : res unit :=
  check (one_of p [ApprovalAsk; ApprovalAutoInSandbox; ApprovalNeverHost]) (invalid "approval policy" p).

Definition FileScopeWorkspace := "workspace".
Definition FileScopeWorkspacePlusAllowedRoots := "workspace_plus_allowed_roots".
Definition FileScopeAllNonProtected := "all_non_protected".
Definition FileScopeSelectedRoots := FileScopeWorkspacePlusAllowedRoots.
Definition scope_Validate (s : string) : res unit :=
  check (one_of s [FileScopeWorkspace; FileScopeWorkspacePlusAllowedRoots; FileScopeAllNonProtected;
                   "selected_roots"; "broker_all"; "host_all"]) (invalid "file scope" s).
Definition canonicalFileScope (s : string) : string :=
  if bool_decide (s = "selected_roots") then FileScopeWorkspacePlusAllowedRoots
  else if one_of s ["broker_all"; "host_all"] then FileScopeAllNonProtected else s.

Definition NetworkOff := "off".
Definition NetworkInternet := "internet".
Definition NetworkAllowlist := "allowlist".
Definition NetworkHostInherited := "host_inherited".
Definition network_Validate (m : string) : res unit :=
  check (one_of m [NetworkOff; NetworkInternet; NetworkAllowlist; NetworkHostInherited]) (invalid "network policy" m).

Definition CommandExecutionSandboxed := "sandboxed".
Definition CommandExecutionHostExplicit := "host_explicit".
Definition execution_Validate (m : string) : res unit :=
  check (one_of m [CommandExecutionSandboxed; CommandExecutionHostExplicit]) (invalid "command execution mode" m).

Definition CommandRuleAllow := "allow".
Definition CommandRuleAsk := "ask".
Definition CommandRuleDeny := "deny".
Definition decision_Validate (d : string) : res unit :=
  check (one_of d [CommandRuleAllow; CommandRuleAsk; CommandRuleDeny]) (invalid "command rule decision" d).

(** ** Policies *)
Record NetworkPolicy := mkNetwork { np_mode : string; np_domains : list string }.
Record CommandRule := mkRule { ru_program : string; ru_args : list string; ru_cwd : string; ru_decision : string }.
Record CommandExecutionPolicy := mkCommandPolicy {
  cp_enabled : bool; cp_execution : string; cp_rules : list CommandRule }.
Record BuiltinToolSettings := mkTools { bt_file : bool; bt_command : bool; bt_network : bool; bt_memory : bool }.
#[export] Instance BuiltinToolSettings_eq_dec : EqDecision BuiltinToolSettings.
Proof. solve_decision. Defined.
Record ServicePolicy := mkService {
  sv_enabled : bool; sv_default : Z; sv_max_total : Z; sv_listen : bool }.
Record CommandConfig := mkCommandConfig {
  cc_services : ServicePolicy; cc_enabled : bool; cc_timeout : Z; cc_max_output : Z; cc_inherit : bool;
  cc_allowed : list string; cc_execution : string; cc_rules : list CommandRule }.
Record HTTPConfig := mkHTTP { hc_enabled : bool; hc_origins : list string; hc_timeout : Z; hc_max_output : Z }.
Record ExecutionSettings := mkSettings {
  es_mode : string; es_sandbox : string; es_scope : string;
  es_roots : list string; es_blocked : list string; es_network : NetworkPolicy }.
Record ExecutionProfile := mkProfile {
  ep_mode : string; ep_approval : string; ep_sandbox : string; ep_workspace : string;
  ep_roots : list string; ep_blocked : list string; ep_scope : string;
  ep_network : NetworkPolicy; ep_command : CommandExecutionPolicy; ep_generation : string }.
Record FileAccessPolicy := mkFileAccess {
  fp_computer : bool; fp_roots : list string; fp_blocked : list string; fp_scope : string }.
Record ToolPolicy := mkPolicy {
  tp_tools : BuiltinToolSettings; tp_commands : CommandConfig; tp_http : HTTPConfig;
  tp_file : FileAccessPolicy; tp_generation : string; tp_profile : ExecutionProfile }.

(** The fields of [Config] (config.go) a profile is built from. *)
Record Config := mkConfig {
  cf_workspace : string; cf_tools : BuiltinToolSettings; cf_commands : CommandConfig;
  cf_execution : ExecutionSettings; cf_generation : string; cf_computer_files : bool;
  cf_computer_roots : list string; cf_http : HTTPConfig }.

Section profile.
Context {P : Process}.

(** [NetworkPolicy.Validate]. *)
Definition domain_bad : list ascii := ["/"%char; "\"%char; chr 0; return_; newline; " "%char; ":"%char].
Fixpoint domains_Validate (seen : list string) (l : list string) : res unit :=
  match l with
  | [] => Ok tt
  | raw :: l =>
      let domain := TrimSpace (ToLower raw) in
      _ ← check (negb (bool_decide (domain = "") || (253 <? Z.of_nat (String.length domain))
                       || ContainsAny domain domain_bad || bool_decide (domain ∈ seen)))
            (EText "harness: network allowlist contains an invalid or duplicate domain");
      domains_Validate (domain :: seen) l
  end.
Definition NetworkPolicy_Validate (p : NetworkPolicy) : res unit :=
  _ ← network_Validate (np_mode p);
  _ ← check (bool_decide (np_mode p = NetworkAllowlist) || bool_decide (np_domains p = []))
        (EText "harness: allowed domains require allowlist network policy");
  _ ← check (zlen (np_domains p) <=? 64) (EText "harness: at most 64 allowed network domains");
  domains_Validate [] (np_domains p).

(** [CommandRule.Validate]. *)
Definition CommandRule_Validate (r : CommandRule) : res unit :=
  let program := TrimSpace (ru_program r) in
  _ ← check (negb (bool_decide (program = "") || (256 <? Z.of_nat (String.length program)) || ContainsAny program control_chars))
        (EText "harness: command rule program is invalid");
  _ ← check (zlen (ru_args r) <=? 128) (EText "harness: command rule has too many arguments");
  _ ← check (forallb (λ a, negb ((32768 <? Z.of_nat (String.length a)) || ContainsByte a (chr 0))) (ru_args r))
        (EText "harness: command rule argument is invalid");
  _ ← check (one_of (ru_cwd r) [""; "workspace"; "selected_roots"])
        (EText "harness: command rule cwd must be workspace or selected_roots");
  decision_Validate (ru_decision r).

(** [CommandExecutionPolicy.Validate]: the first invalid rule decides. *)
Fixpoint rules_Validate (l : list CommandRule) : res unit :=
  match l with [] => Ok tt | r :: l => _ ← CommandRule_Validate r; rules_Validate l end.
Definition CommandExecutionPolicy_Validate (p : CommandExecutionPolicy) : res unit :=
  _ ← execution_Validate (cp_execution p);
  _ ← check (zlen (cp_rules p) <=? 128) (EText "harness: at most 128 command rules are allowed");
  rules_Validate (cp_rules p).

(** [filepath.IsAbs] and [filepath.Abs] of Unix. *)
Definition IsAbs (p : string) : bool := HasPrefix p "/".
Definition Abs (p : string) : res string :=
  if IsAbs p then Ok (Clean p)
  else wd ← Getwd; Ok (Clean (if bool_decide (p = "") then wd else wd +:+ "/" +:+ p)).

Definition absolute_path (p : string) : bool := IsAbs p && negb (ContainsAny p control_chars).
Definition path_key (p : string) : string := ToLower (Clean p).

(** The loop over roots of both [validate] methods: absolute and no two equal
    up to case. *)
Fixpoint roots_Validate (what : string) (seen : list string) (l : list string) : res unit :=
  match l with
  | [] => Ok tt
  | root :: l =>
      _ ← check (absolute_path root) (EText ("harness: " +:+ what +:+ " roots must be absolute"));
      _ ← check (negb (bool_decide (path_key root ∈ seen))) (EText ("harness: duplicate " +:+ what +:+ " root"));
      roots_Validate what (path_key root :: seen) l
  end.

(** [ExecutionSettings.validate]. *)
Definition ExecutionSettings_validate (s : ExecutionSettings) : res unit :=
  _ ← (if bool_decide (es_mode s = "") then Ok tt else permission_Validate (es_mode s));
  _ ← (if bool_decide (es_sandbox s = "") then Ok tt else sandbox_Validate (es_sandbox s));
  _ ← (if bool_decide (es_scope s = "") then Ok tt else scope_Validate (es_scope s));
  _ ← (if bool_decide (np_mode (es_network s) = "") then Ok tt else NetworkPolicy_Validate (es_network s));
  _ ← check (zlen (es_roots s) <=? 8) (EText "harness: at most 8 execution settings roots are allowed");
  _ ← check (zlen (es_blocked s) <=? 64) (EText "harness: at most 64 execution settings blocked paths are allowed");
  _ ← check (forallb absolute_path (es_blocked s)) (EText "harness: execution settings blocked paths must be absolute");
  roots_Validate "execution settings" [] (es_roots s).

(** [ExecutionProfile.Validate]. *)
Definition ExecutionProfile_Validate (p : ExecutionProfile) : res unit :=
  _ ← permission_Validate (ep_mode p);
  _ ← approval_Validate (ep_approval p);
  _ ← sandbox_Validate (ep_sandbox p);
  _ ← scope_Validate (ep_scope p);
  _ ← NetworkPolicy_Validate (ep_network p);
  _ ← CommandExecutionPolicy_Validate (ep_command p);
  _ ← check (absolute_path (ep_workspace p)) (EText "harness: execution profile workspace root must be absolute");
  _ ← check (negb (bool_decide (TrimSpace (ep_generation p) = ""))) (EText "harness: execution profile generation is required");
  _ ← check (zlen (ep_roots p) <=? 8) (EText "harness: at most 8 execution profile roots are allowed");
  _ ← check (zlen (ep_blocked p) <=? 64) (EText "harness: at most 64 execution profile blocked paths are allowed");
  _ ← roots_Validate "execution profile" [] (ep_roots p);
  check (forallb absolute_path (ep_blocked p)) (EText "harness: execution profile blocked paths must be absolute").

(** ** What the configuration means *)

(** [effectiveBuiltinToolSettings]. *)
Definition defaultBuiltinToolSettings : BuiltinToolSettings := mkTools true false false true.
Definition effectiveBuiltinToolSettings (c : Config) : BuiltinToolSettings :=
  let t := cf_tools c in
  if bool_decide (t = mkTools false false false false)
  then mkTools (bt_file defaultBuiltinToolSettings) (cc_enabled (cf_commands c)) (hc_enabled (cf_http c))
         (bt_memory defaultBuiltinToolSettings)
  else mkTools (bt_file t) (bt_command t || cc_enabled (cf_commands c)) (bt_network t || hc_enabled (cf_http c)) (bt_memory t).

Definition or_default (s d : string) : string := if bool_decide (s = "") then d else s.

(** [effectiveExecutionSettings]. *)
Definition effectiveExecutionSettings (c : Config) : ExecutionSettings :=
  let s := cf_execution c in
  mkSettings (or_default (es_mode s) PermissionAsk) (or_default (es_sandbox s) SandboxReadOnly)
    (or_default (es_scope s) FileScopeWorkspace) (es_roots s) (es_blocked s)
    (if bool_decide (np_mode (es_network s) = "") then mkNetwork NetworkOff [] else es_network s).

(** [effectiveToolGeneration] (runtime_policy.go). *)
Definition effectiveToolGeneration (c : Config) : string := or_default (cf_generation c) "1".

(** [commandExecutionPolicy]. *)
Definition commandExecutionPolicy (c : Config) : CommandExecutionPolicy :=
  mkCommandPolicy (cc_enabled (cf_commands c)) (or_default (cc_execution (cf_commands c)) CommandExecutionSandboxed)
    (cc_rules (cf_commands c)).

(** [uniqueAbsoluteRoots]. *)
Fixpoint unique_roots (seen : list string) (l : list string) : list string :=
  match l with
  | [] => []
  | raw :: l =>
      match Abs (Clean (TrimSpace raw)) with
      | Err _ => unique_roots seen l
      | Ok p =>
          if bool_decide (p = ".") || bool_decide (TrimSpace raw = "") || bool_decide (path_key p ∈ seen)
          then unique_roots seen l
          else Clean p :: unique_roots (path_key p :: seen) l
      end
  end.
Definition uniqueAbsoluteRoots (l : list string) : list string := unique_roots [] l.

(** The scope a selection asks for. *)
Definition selected_scope (s : PermissionSelection) (settings : ExecutionSettings) : string :=
  let scope := canonicalFileScope (ps_scope s) in
  let scope := if bool_decide (scope = "") then canonicalFileScope (es_scope settings) else scope in
  if ps_computer_files s && bool_decide (scope = FileScopeWorkspace) then FileScopeSelectedRoots else scope.

(** The roots of the configuration, or those the selection puts in their place. *)
Definition selected_roots (c : Config) (s : PermissionSelection) (settings : ExecutionSettings) : list string :=
  let roots := if bool_decide (ps_computer_roots s = []) then cf_computer_roots c ++ es_roots settings
               else ps_computer_roots s in
  uniqueAbsoluteRoots (roots ++ ps_additional_roots s).

(** The switch over the permission mode of [buildExecutionProfile]: the profile
    before and after it. *)
Definition profile_of_mode (scope : string) (p : ExecutionProfile) : res ExecutionProfile :=
  let mode := ep_mode p in
  if bool_decide (mode = PermissionNone) then
    Ok (mkProfile mode ApprovalAsk SandboxReadOnly (ep_workspace p) [] (ep_blocked p) FileScopeWorkspace
          (mkNetwork NetworkOff []) (mkCommandPolicy false CommandExecutionSandboxed (cp_rules (ep_command p))) (ep_generation p))
  else if bool_decide (mode = PermissionAsk) then
    Ok (mkProfile mode ApprovalAsk SandboxReadOnly (ep_workspace p) (ep_roots p) (ep_blocked p) scope
          (ep_network p) (ep_command p) (ep_generation p))
  else if bool_decide (mode = PermissionWorkspace) then
    let done sandbox := mkProfile mode ApprovalAutoInSandbox sandbox (ep_workspace p) (ep_roots p) (ep_blocked p) scope
                          (mkNetwork NetworkOff []) (ep_command p) (ep_generation p) in
    if bool_decide (scope = FileScopeWorkspacePlusAllowedRoots) && negb (bool_decide (ep_roots p = []))
    then Ok (done SandboxSelectedRoots)
    else if bool_decide (scope = FileScopeAllNonProtected) then Ok (done SandboxWorkspaceWrite)
    else if bool_decide (scope = FileScopeWorkspace) then Ok (done SandboxWorkspaceWrite)
    else Err ErrComputerRootsRequired
  else if bool_decide (mode = PermissionFull) then
    Ok (mkProfile mode ApprovalNeverHost SandboxHostFull (ep_workspace p) (ep_roots p) (ep_blocked p) FileScopeAllNonProtected
          (mkNetwork NetworkHostInherited [])
          (mkCommandPolicy (cp_enabled (ep_command p)) CommandExecutionHostExplicit (cp_rules (ep_command p))) (ep_generation p))
  else Ok p.

(** [buildExecutionProfile]. *)
Definition buildExecutionProfile (c : Config) (s : PermissionSelection) : res ExecutionProfile :=
  let settings := effectiveExecutionSettings c in
  let mode := or_default (or_default (ps_mode s) (es_mode settings)) PermissionAsk in
  _ ← permission_Validate mode;
  workspace ← Abs (cf_workspace c);
  let command := commandExecutionPolicy c in
  let command := match ps_command_enabled s with
                 | Some b => mkCommandPolicy b (cp_execution command) (cp_rules command)
                 | None => command end in
  p ← profile_of_mode (selected_scope s settings)
        (mkProfile mode "" "" (Clean workspace) (selected_roots c s settings)
           (uniqueAbsoluteRoots (es_blocked settings ++ ps_blocked s)) "" (es_network settings) command
           (effectiveToolGeneration c));
  p ← (if bool_decide (mode = PermissionFull) then Ok p
       else
         _ ← check (one_of (np_mode (ep_network p)) [NetworkOff; NetworkInternet])
               (EText "harness: sandbox network supports only off or internet");
         Ok (mkProfile (ep_mode p) (ep_approval p) (ep_sandbox p) (ep_workspace p) (ep_roots p) (ep_blocked p) (ep_scope p)
               (mkNetwork (np_mode (ep_network p)) []) (ep_command p) (ep_generation p)));
  _ ← ExecutionProfile_Validate p;
  Ok p.

(** [executionProfileForConfig]. *)
Definition executionProfileForConfig (c : Config) : res ExecutionProfile :=
  let settings := effectiveExecutionSettings c in
  buildExecutionProfile c
    (mkSelection false "" "" "" "" "" "" (es_mode settings) "default" (cf_computer_files c) (cf_computer_roots c)
       (es_scope settings) (es_roots settings) [] None "").

(** [commandConfigForProfile], [toolPolicyForProfile]. *)
Definition commandConfigForProfile (base : CommandConfig) (p : ExecutionProfile) : CommandConfig :=
  mkCommandConfig (cc_services base) (cp_enabled (ep_command p)) (cc_timeout base) (cc_max_output base) (cc_inherit base)
    (cc_allowed base) (cp_execution (ep_command p)) (cp_rules (ep_command p)).
Definition toolPolicyForProfile (c : Config) (p : ExecutionProfile) : ToolPolicy :=
  let tools := if bool_decide (ep_mode p = PermissionNone) then mkTools false false false false
               else effectiveBuiltinToolSettings c in
  let command := commandConfigForProfile (cf_commands c) p in
  let command := mkCommandConfig (cc_services command) (cc_enabled command && bt_command tools) (cc_timeout command)
                   (cc_max_output command) (cc_inherit command) (cc_allowed command) (cc_execution command) (cc_rules command) in
  mkPolicy tools command (cf_http c)
    (mkFileAccess (negb (bool_decide (ep_scope p = FileScopeWorkspace))) (ep_roots p) (ep_blocked p) (ep_scope p))
    (ep_generation p) p.

(** [effectiveCommandExecution] and [sameRootList]. *)
Definition effectiveCommandExecution (c : CommandConfig) : string := or_default (cc_execution c) CommandExecutionSandboxed.
Definition sameRootList (left right : list string) : bool :=
  bool_decide (length left = length right) && forallb (λ r, bool_decide (path_key r ∈ map path_key left)) right.

(** ** The tool view of a run (runtime_policy.go) *)

(** [isFileToolName] (file_scope.go). *)
Definition isFileToolName (n : string) : bool :=
  one_of n ["file_list"; "file_read"; "file_search"; "file_edit"; "file_create"; "file_delete"; "file_batch_edit";
            "apply_patch"; "file_export"].

(** [ToolEffect] and [ToolDefinition] (model.go), without the input schema. *)
Inductive ToolEffect := EffectRead | EffectModify.
#[export] Instance ToolEffect_eq_dec : EqDecision ToolEffect.
Proof. solve_decision. Defined.
Record ToolDefinition := mkDefinition { td_name : string; td_description : string; td_effect : ToolEffect }.

(** [HTTPTools.Definitions] (http.go) and [CommandTools.Definitions]
    (commands.go), without the input schemas. *)
Definition http_definitions (c : HTTPConfig) : list ToolDefinition :=
  if hc_enabled c then
    [mkDefinition "http_get" ("Fetch bounded UTF-8 text with an explicitly approved GET. No credentials, redirects, proxy or automatic retry. GET may have external effects. Allowed origins: " +:+ json_strings (hc_origins c)) EffectModify]
  else [].
Definition command_definitions (c : CommandConfig) : list ToolDefinition :=
  if cc_enabled c then
    [mkDefinition "command_run" ("Run one local executable with exact arguments and working directory under the Run's frozen permission profile. Unmatched rules use that permission mode; explicit deny, ask and executable allowlists still apply, including Full. Host execution requires Full. Set check=true for an actual project check. Stopping cannot undo effects."
       +:+ (if bool_decide (cc_allowed c = []) then "" else " Allowed exact executable paths: " +:+ json_strings (cc_allowed c))) EffectModify]
  else [].

(** [RuntimeToolView.Definitions]; [base] is what the extensions, skills and
    built-in tools of the process define. *)
Definition view_definitions (base : list ToolDefinition) (policy : ToolPolicy) : list ToolDefinition :=
  if bool_decide (ep_mode (tp_profile policy) = PermissionNone) then [] else
  let d := if bt_file (tp_tools policy) then base else filter (λ t, isFileToolName (td_name t) = false) base in
  let d := filter (λ t, td_name t ≠ "http_get") d in
  let d := if bt_network (tp_tools policy) && hc_enabled (tp_http policy) then d ++ http_definitions (tp_http policy) else d in
  let d := map (λ t, if isFileToolName (td_name t) && (fp_computer (tp_file policy)
                          || negb (bool_decide (fp_scope (tp_file policy) = FileScopeWorkspace)))
                     then mkDefinition (td_name t) (ReplaceFirst (td_description t) "workspace"
                            "workspace or an explicitly authorized computer directory") (td_effect t)
                     else t) d in
  if bt_command (tp_tools policy) && cc_enabled (tp_commands policy) then d ++ command_definitions (tp_commands policy) else d.

(** [RuntimeToolView.Prepare]: which component prepares a call of that name. *)
Inductive Preparer := ByCommandTools (c : CommandConfig) (p : ExecutionProfile) | ByFileBroker (f : FileAccessPolicy)
  | ByHTTPTools (c : HTTPConfig) | ByBase.
Definition view_Prepare (policy : ToolPolicy) (name : string) : res Preparer :=
  if bool_decide (ep_mode (tp_profile policy) = PermissionNone) then Err ErrPermissionDenied
  else if bool_decide (name = "command_run") then
    if negb (bt_command (tp_tools policy)) || negb (cc_enabled (tp_commands policy)) then Err ErrToolDisabled
    else Ok (ByCommandTools (tp_commands policy) (tp_profile policy))
  else if isFileToolName name then
    if bt_file (tp_tools policy) then Ok (ByFileBroker (tp_file policy)) else Err ErrToolDisabled
  else if bool_decide (name = "http_get") && negb (bt_network (tp_tools policy)) then Err ErrToolDisabled
  else if bool_decide (name = "http_get") then
    if hc_enabled (tp_http policy) then Ok (ByHTTPTools (tp_http policy)) else Err ErrToolDisabled
  else Ok ByBase.

(** ** Command rules and approval *)

(** [samePath] (file_scope.go) on Unix, where no path has a volume name. *)
Definition samePath (a b : string) : bool := bool_decide (Clean a = Clean b).

(** [filepath.Base]. *)
Fixpoint TrimSlashes (s : string) : string :=
  match s with
  | "" => ""
  | String c s => match TrimSlashes s with
                  | "" => if bool_decide (c = slash) then "" else str c
                  | t => String c t end
  end.
Definition Base (p : string) : string :=
  if bool_decide (p = "") then "."
  else match last (Split (TrimSlashes p) slash) with
       | Some "" | None => "/"
       | Some e => e end.

Definition path_is (path target : string) : bool :=
  samePath target path || match EvalSymlinks path with Ok c => samePath target c | Err _ => false end.

(** [commandRuleMatches], [commandRuleDecision], [commandAllowed] (commands.go). *)
Definition commandRuleMatches (r : CommandRule) (requested resolved cwd : string) (args : list string) : bool :=
  let program := TrimSpace (ru_program r) in
  (if IsAbs program then path_is program resolved
   else EqualFold program (Base requested) || EqualFold program (Base resolved)) &&
  negb (bool_decide (ru_cwd r = "workspace") && negb (bool_decide (cwd = "")) && negb (bool_decide (cwd = "."))) &&
  negb (bool_decide (ru_cwd r = "selected_roots")) &&
  (bool_decide (ru_args r = []) || bool_decide (ru_args r = args)).

Fixpoint rule_decision (matches : CommandRule → bool) (decision : string) (rules : list CommandRule) : string :=
  match rules with
  | [] => decision
  | r :: rules =>
      if negb (matches r) then rule_decision matches decision rules
      else if bool_decide (ru_decision r = CommandRuleDeny) then CommandRuleDeny
      else if bool_decide (ru_decision r = CommandRuleAsk) then rule_decision matches CommandRuleAsk rules
      else if bool_decide (ru_decision r = CommandRuleAllow) && bool_decide (decision = "")
           then rule_decision matches CommandRuleAllow rules
      else rule_decision matches decision rules
  end.
Definition commandRuleDecision (rules : list CommandRule) (requested resolved cwd : string) (args : list string) : string :=
  rule_decision (λ r, commandRuleMatches r requested resolved cwd args) "" rules.

Definition commandAllowed (command : string) (allowed : list string) : bool :=
  bool_decide (allowed = []) || existsb (λ p, path_is p command) allowed.

(** [executionMode], [validateExecutionBackend] of the command tools. *)
Definition executionMode (c : CommandConfig) (p : ExecutionProfile) : string :=
  if bool_decide (cc_execution c = "") && bool_decide (ep_generation p = "") then CommandExecutionHostExplicit
  else effectiveCommandExecution c.
Definition validateExecutionBackend (c : CommandConfig) (p : ExecutionProfile) : res unit :=
  if bool_decide (executionMode c p = CommandExecutionHostExplicit) then
    check (bool_decide (ep_generation p = "") || bool_decide (ep_sandbox p = SandboxHostFull)) ErrHostExecutionRequiresFull
  else check (bool_decide (executionMode c p = CommandExecutionSandboxed)) (EText "harness: invalid command execution backend").

(** The markers of [PreparedTool] (model.go) the approval decision reads. *)
Record PreparedFlags := mkFlags {
  pf_modify : bool;              (** [Effect == EffectModify] *)
  pf_user_confirmation : bool; pf_control_proposal : bool; pf_preauthorized : bool; pf_approval_required : bool;
  pf_rule_allowed : bool; pf_command_decision : string; pf_workspace_file : bool }.

(** [needsApproval] (permissions.go); [mode] is the mode of the service's
    permission, [None] without one. *)
Definition needsApproval (mode : option string) (p : PreparedFlags) : bool :=
  if pf_user_confirmation p then true
  else if pf_control_proposal p || pf_preauthorized p || negb (pf_modify p) && negb (pf_approval_required p) then false
  else if pf_rule_allowed p then false
  else if bool_decide (pf_command_decision p = CommandRuleAsk) then true
  else match mode with
       | None => true
       | Some m => if bool_decide (m = PermissionFull) then false
                   else if bool_decide (m = PermissionWorkspace) then pf_modify p && negb (pf_workspace_file p)
                   else true
       end.

(** The part of [CommandTools.Prepare] (commands.go) that holds the rules, the
    arguments and the allowlist against the resolved command. *)
Definition command_checks (c : CommandConfig) (requested resolved cwd : string) (args : list string) : res string :=
  let decision := commandRuleDecision (cc_rules c) requested resolved cwd args in
  _ ← check (negb (bool_decide (decision = CommandRuleDeny)))
        (EText "command denied by an explicit deny rule; Full access does not override it");
  _ ← check (forallb (λ a, negb (ContainsByte a (chr 0) || (32768 <? Z.of_nat (String.length a)))) args)
        (EText "invalid command argument");
  _ ← check (commandAllowed resolved (cc_allowed c)) (EText "command is not in the configured executable allowlist");
  Ok decision.

(** The markers it returns for a command; [unknown] says whether earlier
    commands of unknown outcome are left to review. *)
Definition command_flags (c : CommandConfig) (p : ExecutionProfile) (decision : string) (unknown : bool) : PreparedFlags :=
  mkFlags true unknown false false false (bool_decide (decision = CommandRuleAllow)) decision
    (negb (bool_decide (ep_generation p = "")) && bool_decide (ep_mode p = PermissionWorkspace)
       && bool_decide (executionMode c p = CommandExecutionSandboxed)).
End profile.
