(* ===== verification/ProfileProps.v ===== *)
(** * What an execution profile grants

    The profile a run freezes stays within its permission mode, blocked paths
    are never lost on the way, the tools offered are the tools prepared, deny
    and ask rules prevail, and what runs without an approval. *)

From Stdlib Require Import Ascii.
From S2P Require Import Prelude Text Data Profile.
Local Open Scope Z_scope.

Section profile.
Context {P : Process}.

Lemma Abs_clean p q : Abs p = Ok q → Clean q = q.
Proof.
  unfold Abs. destruct (IsAbs p); intros H; res_steps; [apply Clean_Clean|]. apply Clean_Clean.
Qed.

(** Every root that names a path is kept, up to case. *)
Lemma unique_roots_keeps seen l raw q : raw ∈ l → TrimSpace raw ≠ "" → Abs (Clean (TrimSpace raw)) = Ok q → q ≠ "." →
  path_key q ∈ seen ∨ ∃ r, r ∈ unique_roots seen l ∧ path_key r = path_key q.
Proof.
  intros Hin Ht Hq Hd. revert seen. induction l as [|x l IH]; intros seen; [by apply elem_of_nil in Hin|].
  apply elem_of_cons in Hin as [<-|Hin]; simpl.
  - rewrite Hq. rewrite (bool_decide_eq_false_2 (q = ".")), (bool_decide_eq_false_2 (TrimSpace raw = "")) by done. simpl.
    case_bool_decide; [by left|]. right. exists (Clean q). split; [by left|]. unfold path_key. by rewrite Clean_Clean.
  - specialize (IH Hin). destruct (Abs (Clean (TrimSpace x))) as [p|]; [|apply IH].
    destruct (_ || _); [apply IH|]. destruct (IH (path_key p :: seen)) as [[E|Hs]%elem_of_cons|(r & Hr & Er)].
    + right. exists (Clean p). split; [by left|]. unfold path_key in *. by rewrite Clean_Clean.
    + by left.
    + right. exists r. split; [by right|done].
Qed.

Lemma profile_of_mode_same scope p q : profile_of_mode scope p = Ok q →
  ep_mode q = ep_mode p ∧ ep_blocked q = ep_blocked p ∧ ep_generation q = ep_generation p ∧ ep_workspace q = ep_workspace p ∧
  cp_rules (ep_command q) = cp_rules (ep_command p).
Proof.
  unfold profile_of_mode. simpl. intros H. repeat case_match; try discriminate; by injection H as <-.
Qed.

(** What a profile of each mode may hold. *)
Definition within_mode (p : ExecutionProfile) : Prop :=
  (ep_mode p = PermissionNone → ep_sandbox p = SandboxReadOnly ∧ ep_roots p = [] ∧ ep_scope p = FileScopeWorkspace ∧
     np_mode (ep_network p) = NetworkOff ∧ cp_enabled (ep_command p) = false) ∧
  (ep_mode p = PermissionAsk → ep_sandbox p = SandboxReadOnly ∧ ep_approval p = ApprovalAsk) ∧
  (ep_mode p = PermissionWorkspace → np_mode (ep_network p) = NetworkOff ∧
     (ep_sandbox p = SandboxWorkspaceWrite ∨ ep_sandbox p = SandboxSelectedRoots ∧ ep_roots p ≠ [])) ∧
  (ep_mode p ≠ PermissionFull → ep_sandbox p ≠ SandboxHostFull ∧ ep_approval p ≠ ApprovalNeverHost ∧
     np_domains (ep_network p) = [] ∧ np_mode (ep_network p) ∈ [NetworkOff; NetworkInternet]).

(** The last step of [buildExecutionProfile], below Full: a network without
    domains. *)
Definition plain_network (p : ExecutionProfile) : ExecutionProfile :=
  mkProfile (ep_mode p) (ep_approval p) (ep_sandbox p) (ep_workspace p) (ep_roots p) (ep_blocked p) (ep_scope p)
    (mkNetwork (np_mode (ep_network p)) []) (ep_command p) (ep_generation p).

Lemma profile_of_mode_within scope p q :
  ep_mode p = PermissionNone ∨ ep_mode p = PermissionAsk ∨ ep_mode p = PermissionWorkspace → profile_of_mode scope p = Ok q →
  np_mode (ep_network q) ∈ [NetworkOff; NetworkInternet] → within_mode (plain_network q).
Proof.
  unfold profile_of_mode, within_mode. intros [-> | [-> | ->]]; simpl.
  - intros [= <-]; simpl. naive_solver.
  - intros [= <-]; simpl. naive_solver.
  - intros H Hn. repeat case_match; try discriminate; injection H as <-; simpl in *; bool_prop; naive_solver.
Qed.

Lemma buildExecutionProfile_ok c s p : buildExecutionProfile c s = Ok p →
  within_mode p ∧ ExecutionProfile_Validate p = Ok tt ∧
  ep_blocked p = uniqueAbsoluteRoots (es_blocked (effectiveExecutionSettings c) ++ ps_blocked s) ∧
  ep_generation p = effectiveToolGeneration c ∧ cp_rules (ep_command p) = cc_rules (cf_commands c).
Proof.
  unfold buildExecutionProfile. intros H.
  apply res_bind_ok in H as ([] & Hmode & H). apply res_bind_ok in H as (ws & Hws & H).
  apply res_bind_ok in H as (q & Hq & H). apply res_bind_ok in H as (p' & Hp & H).
  apply res_bind_ok in H as ([] & Hv & H). injection H as ->.
  pose proof (profile_of_mode_same _ _ _ Hq) as (Em & Eb & Eg & _ & Er). simpl in *.
  assert (Erules : cp_rules (ep_command q) = cc_rules (cf_commands c)) by (rewrite Er; by destruct (ps_command_enabled s)).
  apply check_ok, bool_decide_eq_true in Hmode. case_bool_decide as Hf.
  - injection Hp as <-. split; [|done]. unfold within_mode. rewrite Em, Hf. done.
  - apply res_bind_ok in Hp as ([] & Hn & Hp). injection Hp as <-. apply check_ok, bool_decide_eq_true in Hn.
    split; [|done]. refine (profile_of_mode_within _ _ _ _ Hq Hn). simpl. set_solver.
Qed.

(** A profile that [buildExecutionProfile] returns is valid and stays within
    its permission mode: no operations, no roots and no network under "none", a
    read-only sandbox with approvals under "ask", a write sandbox without
    network under "workspace", and never the host sandbox, the host network or
    unattended host approval below "full". No path blocked by the configuration
    or by the selection is lost. *)
Theorem buildExecutionProfile_within c s p : buildExecutionProfile c s = Ok p →
  within_mode p ∧ ExecutionProfile_Validate p = Ok tt ∧
  (∀ raw b, raw ∈ es_blocked (cf_execution c) ++ ps_blocked s → TrimSpace raw ≠ "" →
     Abs (Clean (TrimSpace raw)) = Ok b → b ≠ "." → ∃ r, r ∈ ep_blocked p ∧ path_key r = path_key b).
Proof.
  intros H. apply buildExecutionProfile_ok in H as (Hw & Hv & Hb & _ & _).
  split; [done|split; [done|]]. intros raw b Hin Ht Hab Hd. rewrite Hb.
  change (es_blocked (effectiveExecutionSettings c)) with (es_blocked (cf_execution c)).
  destruct (unique_roots_keeps [] _ raw b Hin Ht Hab Hd) as [Hn|Hr]; [by apply elem_of_nil in Hn|exact Hr].
Qed.

Lemma view_names base policy : ep_mode (tp_profile policy) ≠ PermissionNone →
  map td_name (view_definitions base policy) =
    filter (λ n, n ≠ "http_get") (map td_name (if bt_file (tp_tools policy) then base else filter (λ t, isFileToolName (td_name t) = false) base))
    ++ (if bt_network (tp_tools policy) && hc_enabled (tp_http policy) then ["http_get"] else [])
    ++ (if bt_command (tp_tools policy) && cc_enabled (tp_commands policy) then ["command_run"] else []).
Proof.
  intros Hm. unfold view_definitions. rewrite bool_decide_eq_false_2 by done.
  set (l := if bt_file _ then _ else _). set (f := λ t : ToolDefinition, if (isFileToolName _ && _ : bool) then _ else t).
  assert (Ef : ∀ k, map td_name (map f k) = map td_name k).
  { intros k. rewrite map_map. apply map_ext. intros t. unfold f. by destruct (_ && _). }
  assert (Eh : map td_name (filter (λ t, td_name t ≠ "http_get") l) = filter (λ n, n ≠ "http_get") (map td_name l)).
  { clear. induction l as [|t l IH]; [done|]. rewrite filter_cons. simpl. rewrite filter_cons.
    destruct (decide (td_name t ≠ "http_get")); simpl; [by f_equal|done]. }
  assert (Ec : ∀ k, map td_name (if bt_command (tp_tools policy) && cc_enabled (tp_commands policy)
                                 then k ++ command_definitions (tp_commands policy) else k) =
      map td_name k ++ (if bt_command (tp_tools policy) && cc_enabled (tp_commands policy) then ["command_run"] else [])).
  { intros k. unfold command_definitions. destruct (bt_command _), (cc_enabled _); simpl; rewrite ?map_app, ?app_nil_r; done. }
  rewrite Ec, Ef, app_assoc. f_equal. rewrite <- Eh. unfold http_definitions.
  destruct (bt_network _), (hc_enabled _); simpl; rewrite ?map_app, ?app_nil_r; done.
Qed.

(** The tools a run offers and the tools it prepares agree, for a base
    without "command_run" (which [NewRuntimeTools] never gives it): a tool the
    view lists is never refused as disabled or denied, and the commands and the
    network tool are listed whenever they would be prepared. Without
    permission nothing is listed and nothing is prepared. *)
Theorem view_definitions_prepared base policy :
  (∀ t, t ∈ base → td_name t ≠ "command_run") →
  (∀ t, t ∈ view_definitions base policy → ∃ who, view_Prepare policy (td_name t) = Ok who) ∧
  (∀ name c p, view_Prepare policy name = Ok (ByCommandTools c p) → name ∈ map td_name (view_definitions base policy)) ∧
  (∀ name c, view_Prepare policy name = Ok (ByHTTPTools c) → name ∈ map td_name (view_definitions base policy)) ∧
  (ep_mode (tp_profile policy) = PermissionNone → view_definitions base policy = [] ∧
     ∀ name, view_Prepare policy name = Err ErrPermissionDenied).
Proof.
  intros Hbase. unfold view_definitions, view_Prepare. case_bool_decide as Hm.
  { split; [intros t []%elem_of_nil|]. split; [done|]. by split. }
  pose proof (view_names base policy Hm) as En. unfold view_definitions in En. rewrite bool_decide_eq_false_2 in En by done.
  split; [|split; [|split; [|done]]].
  - intros t Ht. apply (list_elem_of_fmap_2 td_name) in Ht. change (td_name <$> ?l) with (map td_name l) in Ht. rewrite En in Ht.
    apply elem_of_app in Ht as [[Hh Ht]%list_elem_of_filter|Ht].
    + assert (Hc : td_name t ≠ "command_run" ∧ (isFileToolName (td_name t) = true → bt_file (tp_tools policy) = true)).
      { apply list_elem_of_fmap in Ht as (t' & -> & Ht'). destruct (bt_file _); [by split; [apply Hbase|]|].
        apply list_elem_of_filter in Ht' as [Hf Ht']. split; [by apply Hbase|]. rewrite Hf. done. }
      destruct Hc as [Hc Hf]. rewrite (bool_decide_eq_false_2 (td_name t = "command_run")),
        (bool_decide_eq_false_2 (td_name t = "http_get")) by done. simpl.
      destruct (isFileToolName _); [|by eexists]. rewrite Hf by done. by eexists.
    + apply elem_of_app in Ht as [Ht|Ht].
      * destruct (bt_network _), (hc_enabled _); try (by apply elem_of_nil in Ht).
        apply list_elem_of_singleton in Ht as ->. by eexists.
      * destruct (bt_command _), (cc_enabled _); try (by apply elem_of_nil in Ht).
        apply list_elem_of_singleton in Ht as ->. by eexists.
  - intros name c p H. rewrite En. rewrite !elem_of_app. right. right. 
    case_bool_decide as E; [|repeat case_match; discriminate H]. revert H. destruct (bt_command _), (cc_enabled _); try done. subst. intros _. by left.
  - intros name c H. rewrite En. rewrite !elem_of_app. right. left. 
    case_bool_decide as E; [repeat case_match; discriminate H|]. destruct (isFileToolName _); [case_match; discriminate H|].
    case_bool_decide as E2; [|discriminate H]. revert H. destruct (bt_network _), (hc_enabled _); try done. subst. intros _. by left.
Qed.

Lemma rule_decision_spec m decision rules : decision ∈ [""; CommandRuleAsk; CommandRuleAllow] →
  let has d := Exists (λ r, m r = true ∧ ru_decision r = d) rules in
  let out := rule_decision m decision rules in
  (out = CommandRuleDeny ↔ has CommandRuleDeny) ∧
  (out = CommandRuleAsk ↔ ¬ has CommandRuleDeny ∧ (decision = CommandRuleAsk ∨ has CommandRuleAsk)) ∧
  (out = CommandRuleAllow ↔ ¬ has CommandRuleDeny ∧ ¬ has CommandRuleAsk ∧ decision ≠ CommandRuleAsk ∧
     (decision = CommandRuleAllow ∨ has CommandRuleAllow)).
Proof.
  assert (Hne : CommandRuleDeny ≠ CommandRuleAsk ∧ CommandRuleDeny ≠ CommandRuleAllow ∧ CommandRuleAsk ≠ CommandRuleAllow ∧
    "" ≠ CommandRuleDeny ∧ "" ≠ CommandRuleAsk ∧ "" ≠ CommandRuleAllow) by done.
  destruct Hne as (N1 & N2 & N3 & N4 & N5 & N6).
  revert decision. induction rules as [|r rules IH]; intros decision Hd; simpl.
  { rewrite !Exists_nil. rewrite !elem_of_cons, elem_of_nil in Hd. intuition congruence. }
  rewrite !Exists_cons. destruct (m r); simpl.
  2: { destruct (IH decision Hd) as (-> & -> & ->). intuition congruence. }
  assert (Ha : CommandRuleAsk ∈ [""; CommandRuleAsk; CommandRuleAllow]) by set_solver.
  assert (Hw : CommandRuleAllow ∈ [""; CommandRuleAsk; CommandRuleAllow]) by set_solver.
  case_bool_decide as E1; [intuition congruence|].
  case_bool_decide as E2; [destruct (IH _ Ha) as (-> & -> & ->); intuition congruence|].
  case_bool_decide as E3; [case_bool_decide as E4; simpl|simpl].
  - destruct (IH _ Hw) as (-> & -> & ->). intuition congruence.
  - destruct (IH _ Hd) as (-> & -> & ->).
    assert (decision = CommandRuleAsk ∨ decision = CommandRuleAllow) by set_solver. intuition congruence.
  - destruct (IH _ Hd) as (-> & -> & ->). intuition congruence.
Qed.

(** The decision of the command rules depends only on which decisions the
    matching rules carry, not on their order: any matching deny rule denies,
    otherwise any matching ask rule asks, otherwise a matching allow rule
    allows, and without one there is no decision. *)
Theorem commandRuleDecision_spec rules requested resolved cwd args :
  let has d := Exists (λ r, commandRuleMatches r requested resolved cwd args = true ∧ ru_decision r = d) rules in
  let decision := commandRuleDecision rules requested resolved cwd args in
  (decision = CommandRuleDeny ↔ has CommandRuleDeny) ∧
  (decision = CommandRuleAsk ↔ ¬ has CommandRuleDeny ∧ has CommandRuleAsk) ∧
  (decision = CommandRuleAllow ↔ ¬ has CommandRuleDeny ∧ ¬ has CommandRuleAsk ∧ has CommandRuleAllow).
Proof.
  pose proof (rule_decision_spec (λ r, commandRuleMatches r requested resolved cwd args) "" rules ltac:(set_solver)) as H.
  simpl in *. unfold commandRuleDecision. naive_solver.
Qed.

(** C26: What runs without an approval. A command the rules accept is dispatched
    without one only when nothing is left to review and an allow rule matches,
    or the run has Full access, or it has Workspace access and the command runs
    in the sandbox; a matching ask rule always asks. *)
Theorem command_approval c p requested resolved cwd args unknown decision mode :
  command_checks c requested resolved cwd args = Ok decision →
  needsApproval mode (command_flags c p decision unknown) = false →
  unknown = false ∧ commandAllowed resolved (cc_allowed c) = true ∧
  ¬ Exists (λ r, commandRuleMatches r requested resolved cwd args = true ∧ ru_decision r = CommandRuleDeny) (cc_rules c) ∧
  (Exists (λ r, commandRuleMatches r requested resolved cwd args = true ∧ ru_decision r = CommandRuleAllow) (cc_rules c) ∨
   mode = Some PermissionFull ∨
   mode = Some PermissionWorkspace ∧ ep_mode p = PermissionWorkspace ∧ executionMode c p = CommandExecutionSandboxed) ∧
  (Exists (λ r, commandRuleMatches r requested resolved cwd args = true ∧ ru_decision r = CommandRuleAsk) (cc_rules c) → False).
Proof.
  unfold command_checks. intros H Hn. res_steps. bool_prop.
  pose proof (rule_decision_spec (λ r, commandRuleMatches r requested resolved cwd args) "" (cc_rules c) ltac:(set_solver)) as Hs.
  simpl in Hs. fold (commandRuleDecision (cc_rules c) requested resolved cwd args) in Hs.
  set (d := commandRuleDecision _ _ _ _ _) in *. destruct Hs as (Hd & Ha & Hw).
  unfold needsApproval, command_flags in Hn. simpl in Hn. destruct unknown; [done|].
  case_bool_decide as E1; simpl in Hn.
  { apply Hw in E1 as (Nd & Na & _ & [|He]); [done|].
    split; [done|split; [done|split; [exact Nd|split; [left; exact He|exact Na]]]]. }
  case_bool_decide as E2; [done|].
  split; [done|split; [done|split; [tauto|split; [right|tauto]]]]. destruct mode as [m|]; [|done].
  case_bool_decide as E3; [left; by subst|]. case_bool_decide as E4; [|done]. right.
  apply negb_false_iff in Hn. bool_prop. by subst.
Qed.

Lemma permissionRank_full m : permissionRank m = 3 ↔ m = PermissionFull.
Proof. unfold permissionRank. repeat case_bool_decide; subst; naive_solver. Qed.
Lemma permissionRank_workspace m : permissionRank m = 2 ↔ m = PermissionWorkspace.
Proof. unfold permissionRank. repeat case_bool_decide; subst; naive_solver. Qed.
Lemma permissionRank_max m : -1 <= permissionRank m <= 3.
Proof. unfold permissionRank. repeat case_bool_decide; lia. Qed.

(** A higher permission never asks for more: whatever needs an approval
    under a mode needs it under every lower mode and without a permission. *)
Theorem approval_monotone m1 m2 flags : permissionRank m1 <= permissionRank m2 →
  needsApproval (Some m2) flags = true → needsApproval (Some m1) flags = true ∧ needsApproval None flags = true.
Proof.
  intros Hr. unfold needsApproval. destruct (pf_user_confirmation flags); [done|].
  destruct (_ || _); [done|]. destruct (pf_rule_allowed flags); [done|]. case_bool_decide; [done|].
  pose proof (permissionRank_max m1). pose proof (permissionRank_max m2).
  intros Hn. split; [|done].
  destruct (decide (m1 = PermissionFull)) as [->|N1].
  { rewrite (proj2 (permissionRank_full _) eq_refl) in Hr. assert (m2 = PermissionFull) as -> by (apply permissionRank_full; lia).
    by rewrite bool_decide_eq_true_2 in Hn. }
  rewrite bool_decide_eq_false_2 by done. destruct (decide (m1 = PermissionWorkspace)) as [->|N2]; [|by rewrite bool_decide_eq_false_2].
  rewrite bool_decide_eq_true_2 by done. rewrite (proj2 (permissionRank_workspace _) eq_refl) in Hr.
  assert (m2 = PermissionFull ∨ m2 = PermissionWorkspace) as [-> | ->].
  { rewrite <- permissionRank_full, <- permissionRank_workspace. lia. }
  - by rewrite bool_decide_eq_true_2 in Hn.
  - by rewrite bool_decide_eq_false_2, bool_decide_eq_true_2 in Hn.
Qed.

(** Host execution needs Full: a command tool configured from a run's own
    profile passes the check of its backend only in the sandbox, or on the host
    with Full access and the host sandbox mode. *)
Theorem host_execution_needs_full c s p base : buildExecutionProfile c s = Ok p →
  validateExecutionBackend (commandConfigForProfile base p) p = Ok tt →
  executionMode (commandConfigForProfile base p) p = CommandExecutionSandboxed ∨
  executionMode (commandConfigForProfile base p) p = CommandExecutionHostExplicit ∧
    ep_mode p = PermissionFull ∧ ep_sandbox p = SandboxHostFull.
Proof.
  intros H Hv. apply buildExecutionProfile_ok in H as ((_ & _ & _ & Hw) & _ & _ & Hg & _).
  assert (Hgen : ep_generation p ≠ "").
  { rewrite Hg. unfold effectiveToolGeneration, or_default. by case_bool_decide. }
  unfold validateExecutionBackend in Hv. case_bool_decide as E.
  - right. rewrite (bool_decide_eq_false_2 (ep_generation p = "")) in Hv by done. simpl in Hv. res_steps. bool_prop.
    split; [done|]. split; [|done]. destruct (decide (ep_mode p = PermissionFull)) as [|Hf]; [done|]. exfalso. by destruct (Hw Hf).
  - left. res_steps. by bool_prop.
Qed.
End profile.

(** ** Witnesses *)
Module ProfileDemo.
#[export] Instance process : Process := {|
  pr_unicode := ascii_case; Getwd := Ok "/home/u"; EvalSymlinks p := Ok p; json_strings l := Join l "," |}.
Definition config : Config :=
  mkConfig "work" (mkTools true true false true)
    (mkCommandConfig (mkService true 60 600 false) true 30 4096 false [] "" [mkRule "rm" [] "" "deny"; mkRule "go" ["test"] "" "allow"])
    (mkSettings "" "" "" [] ["/home/u/secret"; " relative/.. "] (mkNetwork "" [])) "7" false [] (mkHTTP false [] 5 1024).
Definition selection (mode : string) : PermissionSelection :=
  mkSelection false "" "local" "" "local" "" "" mode "space" false [] "" [] ["/etc/"] None "7".
Definition profile (mode : string) : ExecutionProfile :=
  match buildExecutionProfile config (selection mode) with
  | Ok p => p | Err _ => mkProfile "" "" "" "" [] [] "" (mkNetwork "" []) (mkCommandPolicy false "" []) "" end.
Lemma built_workspace : buildExecutionProfile config (selection PermissionWorkspace) = Ok (profile PermissionWorkspace).
Proof. vm_compute. reflexivity. Qed.
Lemma built_full : buildExecutionProfile config (selection PermissionFull) = Ok (profile PermissionFull).
Proof. vm_compute. reflexivity. Qed.
Definition commands : CommandConfig := commandConfigForProfile (cf_commands config) (profile PermissionWorkspace).
Definition base : list ToolDefinition := [mkDefinition "file_read" "Read a workspace file" EffectRead; mkDefinition "memory_search" "Search" EffectRead].
End ProfileDemo.
Import ProfileDemo.

Lemma buildExecutionProfile_within_witness :
  within_mode (profile PermissionWorkspace) ∧ ep_blocked (profile PermissionWorkspace) = ["/home/u/secret"; "/home/u"; "/etc"] ∧
  ∃ r, r ∈ ep_blocked (profile PermissionWorkspace) ∧ path_key r = path_key "/etc".
Proof.
  destruct (buildExecutionProfile_within (P:=process) config (selection PermissionWorkspace) (profile PermissionWorkspace)
    built_workspace) as (Hw & _ & Hb).
  split; [exact Hw|]. split; [vm_compute; reflexivity|].
  apply (Hb "/etc/"); [vm_compute; right; right; left|discriminate|reflexivity|discriminate].
Defined.

Lemma view_definitions_prepared_witness :
  "command_run" ∈ map td_name (view_definitions base (toolPolicyForProfile config (profile PermissionAsk))) ∧
  view_Prepare (toolPolicyForProfile config (profile PermissionNone)) "command_run" = Err ErrPermissionDenied.
Proof.
  assert (Hb : ∀ t, t ∈ base → td_name t ≠ "command_run") by (intros t Ht; unfold base in Ht; set_solver).
  destruct (view_definitions_prepared base (toolPolicyForProfile config (profile PermissionAsk)) Hb) as (_ & Hc & _).
  destruct (view_definitions_prepared base (toolPolicyForProfile config (profile PermissionNone)) Hb) as (_ & _ & _ & Hn).
  split; [eapply Hc; vm_compute; reflexivity|]. apply Hn. vm_compute. reflexivity.
Defined.

Lemma command_approval_witness :
  Exists (λ r, commandRuleMatches r "go" "/usr/bin/go" "." ["test"] = true ∧ ru_decision r = CommandRuleAllow) (cc_rules commands) ∨
  PermissionAsk = PermissionFull.
Proof.
  destruct (command_approval (P:=process) commands (profile PermissionWorkspace) "go" "/usr/bin/go" "." ["test"] false CommandRuleAllow
    (Some PermissionAsk) ltac:(vm_compute; reflexivity) ltac:(vm_compute; reflexivity)) as (_ & _ & _ & H & _).
  destruct H as [H|[H|[H _]]]; [left; exact H|discriminate H|discriminate H].
Defined.

Lemma approval_monotone_witness :
  needsApproval (Some PermissionAsk) (command_flags commands (profile PermissionNone) "" false) = true.
Proof.
  apply (approval_monotone PermissionAsk PermissionWorkspace);
    [apply Z.leb_le; vm_compute; reflexivity|vm_compute; reflexivity].
Defined.

Lemma host_execution_needs_full_witness :
  executionMode (commandConfigForProfile (cf_commands config) (profile PermissionFull)) (profile PermissionFull) = CommandExecutionSandboxed ∨
  ep_mode (profile PermissionFull) = PermissionFull.
Proof.
  destruct (host_execution_needs_full (P:=process) config (selection PermissionFull) (profile PermissionFull) (cf_commands config)
    built_full ltac:(vm_compute; reflexivity)) as [H|(_ & H & _)]; [left|right]; exact H.
Defined.
