(* ===== verification/FilePolicy.v ===== *)
(** * Authorized paths outside the workspace

    Model of src/internal/harness/filepolicy.go, private_paths.go, of [within]
    (filetools.go), [canonicalDir] (store.go) and [CanonicalPath]
    (internal/fileops), and of the part of file_scope.go that decides where a
    file call goes: to the workspace, or to one authorized root of the computer.
    [filepath] is that of Unix, where no path has a volume name and no entry is a
    reparse point. *)

From Stdlib Require Import Ascii.
From S2P Require Import Prelude Text Data Workspace Profile.

(** What the disk and the environment of the process answer: [dk_link] is
    [os.Lstat] (whether the entry is a symbolic link), [dk_stat] is [os.Stat]
    (whether the entry is a directory or a regular file), [dk_regular] whether it
    is a regular file; the rest are the locations internal/apppaths reads from
    the environment. A missing entry is [Err ErrNotExist]. *)
Class Disk := {
  dk_process :: Process;
  dk_link : string → res bool;
  dk_stat : string → res bool;
  dk_regular : string → bool;
  PrivateStateDirs : res (list string);
  KeysFile : res string;
  ServiceFile : string;
}.

(** ** [filepath.Rel] and [filepath.Dir] *)

(** The elements of a cleaned path. *)
Definition words (p : string) : list string := filter (λ e, e ≠ "") (Split p slash).
Fixpoint strip_common (b t : list string) : list string * list string :=
  match b, t with
  | x :: b', y :: t' => if bool_decide (x = y) then strip_common b' t' else (b, t)
  | _, _ => (b, t)
  end.
Definition Rel (base target : string) : res string :=
  let base := Clean base in
  let target := Clean target in
  if bool_decide (base = target) then Ok "."
  else
    let base := if bool_decide (base = ".") then "" else base in
    _ ← check (bool_decide (HasPrefix base "/" = HasPrefix target "/")) (EText "Rel: can't make relative");
    let '(b, t) := strip_common (words base) (words target) in
    match b with
    | [] => Ok (Join t "/")
    | x :: _ =>
        if bool_decide (x = "..") && negb (bool_decide (t = [])) then Err (EText "Rel: can't make relative")
        else Ok (Join (replicate (length b) ".." ++ t) "/")
    end.
Definition Dir (p : string) : string :=
  Clean (match rev (Split p slash) with
         | _ :: (_ :: _) as l => Join (rev l) "/" +:+ "/"
         | _ => "" end).

(** [within] (filetools.go). *)
Definition within (parent child : string) : bool :=
  match Rel parent child with
  | Ok r => bool_decide (r = ".") || IsLocal r
  | Err _ => false end.

(** [insidePrivatePath] (private_paths.go). *)
Definition insidePrivatePath (paths : list string) (target : string) : bool :=
  existsb (λ path, negb (bool_decide (path = "")) && within path target) paths.

Section disk.
Context {D : Disk}.

(** [CanonicalPath] (internal/fileops/path.go): the nearest existing ancestor
    resolved, and the rest appended. The loop goes up one directory at a time. *)
Fixpoint canonical_from (fuel : nat) (absolute current : string) : res string :=
  match fuel with
  | O => Err (EText "out of fuel")
  | S fuel =>
      match EvalSymlinks current with
      | Ok resolved => suffix ← Rel current absolute; Ok (Clean (resolved +:+ "/" +:+ suffix))
      | Err e =>
          if negb (match e with ErrNotExist => true | _ => false end) || bool_decide (Dir current = current) then Err e
          else canonical_from fuel absolute (Dir current)
      end
  end.
Definition CanonicalPath (path : string) : res string :=
  _ ← check (negb (bool_decide (path = ""))) (EText "empty filesystem path");
  absolute ← Abs path;
  canonical_from (S (String.length absolute)) absolute absolute.

(** [canonicalDir] (store.go): no link on the way up. *)
Fixpoint no_links (fuel : nat) (current : string) : res unit :=
  match fuel with
  | O => Err (EText "out of fuel")
  | S fuel =>
      _ ← match dk_link current with
          | Ok true => Err (EText "harness: linked data directories are not supported")
          | Ok false | Err ErrNotExist => Ok tt
          | Err e => Err e end;
      if bool_decide (Dir current = current) then Ok tt else no_links fuel (Dir current)
  end.
Definition canonicalDir (path : string) : res string :=
  _ ← check (negb (bool_decide (path = ""))) (EText "harness: explicit data directory is required");
  absolute ← Abs path;
  _ ← no_links (S (String.length absolute)) absolute;
  Ok absolute.

(** [appendPrivatePaths], [privateApplicationPaths]. *)
Fixpoint appendPrivatePaths (paths more : list string) : list string :=
  match more with
  | [] => paths
  | path :: more =>
      let path := match CanonicalPath path with Ok resolved => resolved | Err _ => path end in
      if bool_decide (path = "") || insidePrivatePath paths path then appendPrivatePaths paths more
      else appendPrivatePaths (filter (λ previous, previous ≠ "" ∧ within path previous = false) paths ++ [Clean path]) more
  end.
Definition privateApplicationPaths (dataDir : string) : res (list string) :=
  paths ← PrivateStateDirs;
  keys ← KeysFile;
  Ok (appendPrivatePaths [] (paths ++ [dataDir; keys; ServiceFile])).

(** [protectedPath]. *)
Definition private_names : list string :=
  ["keys.json"; "config.json"; "owner.lock"; "desktop.json"; "postgres.json"; "postgres-maintenance.json"; "channel-keys.json"].
Definition protectedPath (dataDir target : string) : bool :=
  match Abs dataDir, Abs target with
  | Ok data, Ok resolved =>
      match privateApplicationPaths data with
      | Err _ => true
      | Ok priv =>
          insidePrivatePath priv resolved ||
          match CanonicalPath resolved with Ok c => insidePrivatePath priv c | Err _ => false end ||
          one_of (ToLower (Base resolved)) private_names
      end
  | _, _ => true
  end.

(** [validateExternalPathWithBlocked]. *)
Definition validateExternalPathWithBlocked (dataDir : string) (roots blocked : list string) (raw : string) : res string :=
  _ ← check (IsAbs raw) (EText "harness: external file path must be absolute");
  match Abs (Clean raw) with
  | Err _ => Err ErrProtectedPath
  | Ok resolved =>
      _ ← check (negb (protectedPath dataDir resolved)) ErrProtectedPath;
      _ ← check (negb (existsb (λ denied, within denied resolved) blocked)) ErrPathBlocked;
      _ ← check (existsb (λ root, within root resolved) roots) ErrPathNotAllowed;
      Ok resolved
  end.

(** [validateComputerRoots]. *)
Fixpoint computer_roots (data : string) (seen : list string) (roots : list string) : res unit :=
  match roots with
  | [] => Ok tt
  | raw :: roots =>
      let path := TrimSpace raw in
      _ ← check (negb (bool_decide (path = "") || negb (absolute_path path)))
            (EText "harness: computer file roots must be absolute directories");
      resolved ← match canonicalDir path with Ok p => Ok p | Err _ => Err (EText "harness: computer file root does not exist") end;
      _ ← check (match dk_stat resolved with Ok ok => ok | Err _ => false end)
            (EText "harness: computer file root must be a directory or regular file");
      _ ← check (negb (within data resolved)) ErrProtectedPath;
      _ ← check (negb (bool_decide (path_key resolved ∈ seen))) (EText "harness: duplicate computer file root");
      computer_roots data (path_key resolved :: seen) roots
  end.
Definition validateComputerRoots (dataDir : string) (roots : list string) : res unit :=
  _ ← check (zlen roots <=? 8)%Z (EText "harness: at most 8 computer file roots are allowed");
  data ← canonicalDir dataDir;
  computer_roots data [] roots.

(** [sort.Slice] by the lower-case text. *)
Definition lower_le (a b : string) : Prop := String.leb (ToLower a) (ToLower b) = true.
#[local] Instance lower_le_dec : RelDecision lower_le := λ a b, decide (String.leb (ToLower a) (ToLower b) = true).

(** [normalizeComputerRoots]. *)
Fixpoint resolve_roots (roots : list string) : res (list string) :=
  match roots with
  | [] => Ok []
  | raw :: roots =>
      resolved ← Abs (Clean (TrimSpace raw));
      _ ← check (match dk_stat resolved with Ok ok => ok | Err _ => false end) (EText "harness: computer file root does not exist");
      let resolved := match EvalSymlinks resolved with Ok e => e | Err _ => resolved end in
      rest ← resolve_roots roots;
      Ok (Clean resolved :: rest)
  end.
Fixpoint keep_outer (kept : list string) (l : list string) : list string :=
  match l with
  | [] => kept
  | x :: l => keep_outer (match last kept with
                          | Some k => if within k x then kept else kept ++ [x]
                          | None => kept ++ [x] end) l
  end.
Definition normalizeComputerRoots (dataDir : string) (roots : list string) : res (list string) :=
  _ ← validateComputerRoots dataDir roots;
  result ← resolve_roots roots;
  Ok (keep_outer [] (merge_sort lower_le result)).

(** [normalizeBlockedPaths]. *)
Fixpoint blocked_paths (seen : list string) (l : list string) : res (list string) :=
  match l with
  | [] => Ok []
  | raw :: l =>
      let path := TrimSpace raw in
      _ ← check (negb (bool_decide (path = "") || negb (absolute_path path))) (EText "harness: blocked paths must be absolute");
      resolved ← match Abs (Clean path) with Ok p => Ok p | Err _ => Err (EText "harness: invalid blocked path") end;
      _ ← check (negb (bool_decide (path_key resolved ∈ seen))) (EText "harness: duplicate blocked path");
      rest ← blocked_paths (path_key resolved :: seen) l;
      Ok (Clean resolved :: rest)
  end.
Definition normalizeBlockedPaths (paths : list string) : res (list string) :=
  _ ← check (zlen paths <=? 64)%Z (EText "harness: at most 64 blocked paths are allowed");
  l ← blocked_paths [] paths;
  Ok (merge_sort lower_le l).

(** [sameRootSet], [containsPath] (permissions.go). *)
Definition containsPath (paths : list string) (target : string) : bool := existsb (λ p, samePath p target) paths.
Definition sameRootSet (selected configured : list string) : bool :=
  negb (bool_decide (selected = [])) && forallb (containsPath configured) selected.

(** ** Where a file call goes (file_scope.go) *)

(** [isAbsoluteFilePath]. *)
Definition isAbsoluteFilePath (value : string) : bool :=
  let value := TrimSpace value in
  IsAbs value ||
  match value with
  | String _ (String c (String s _)) => bool_decide (c = ":"%char) && (bool_decide (s = "\"%char) || bool_decide (s = slash))
  | _ => false end ||
  HasPrefix value "\\".

(** [filesystemRoot] on Unix, and [externalRootFor]: the longest root that
    contains the target. *)
Definition filesystemRoot (_ : string) : string := "/".
Definition longer (a b : string) : Prop := (String.length b <= String.length a)%nat.
#[export] Instance longer_dec : RelDecision longer := λ a b, Nat.le_dec (String.length b) (String.length a).
Definition root_candidate (target root : string) : list string :=
  if samePath root target && dk_regular root then [Dir root]
  else if within root target then [root] else [].
Definition externalRootFor (target : string) (roots : list string) : string :=
  match merge_sort longer (concat (map (root_candidate target) roots)) with
  | [] => ""
  | c :: _ => Clean c end.

(** The loop of [rewriteExternalCall] over the paths of a call: the root they
    share, and each path relative to it with the absolute path it stands for. *)
Fixpoint rewrite_paths (dataDir : string) (scope : string) (roots blocked : list string) (rootPath : string)
    (paths : list string) : res (string * list (string * string)) :=
  match paths with
  | [] => Ok (rootPath, [])
  | raw :: paths =>
      let validationRoots := if bool_decide (scope = FileScopeAllNonProtected) then [filesystemRoot raw] else roots in
      value ← validateExternalPathWithBlocked dataDir validationRoots blocked raw;
      let root := externalRootFor value validationRoots in
      let root := if bool_decide (root = "") && bool_decide (scope = FileScopeAllNonProtected) then filesystemRoot value else root in
      _ ← check (negb (bool_decide (root = ""))) ErrPathNotAllowed;
      _ ← check (bool_decide (rootPath = "") || samePath rootPath root)
            (EText "harness: batch file paths must use one authorized root");
      relative ← match Rel root value with Ok r => Ok r | Err _ => Err ErrPathNotAllowed end;
      _ ← check (IsLocal relative) ErrPathNotAllowed;
      r ← rewrite_paths dataDir scope roots blocked (if bool_decide (rootPath = "") then root else rootPath) paths;
      Ok (r.1, (Clean relative, Clean value) :: r.2)
  end.
Definition rewriteExternalCall (dataDir scope : string) (roots blocked paths : list string)
    : res (string * list (string * string)) :=
  _ ← check (negb (bool_decide (paths = []))) (EText "harness: file path is required");
  rewrite_paths dataDir scope roots blocked "" paths.

(** [prepareWithPolicy]: the file tools that prepare the call, those of the
    workspace with more blocked paths, or those of an external root. [paths] is
    what [fileCallPaths] reads from the call; [rt_local] is [workspaceFile] and
    [rt_ask] is [approvalRequired] for a reading call. *)
Inductive FileRoute :=
  | RouteWorkspace (blocked : list string)
  | RouteExternal (root : string) (names : list (string * string)) (blocked : list string) (rt_local rt_ask : bool).
Definition prepareWithPolicy (workspace dataDir : string) (policy : FileAccessPolicy) (paths : res (list string)) : res FileRoute :=
  match paths with
  | Err _ | Ok [] => Ok (RouteWorkspace (fp_blocked policy))
  | Ok paths =>
      if negb (existsb isAbsoluteFilePath paths) then Ok (RouteWorkspace (fp_blocked policy))
      else
        _ ← check (forallb isAbsoluteFilePath paths) (EText "harness: one file operation cannot mix workspace and computer paths");
        _ ← check (fp_computer policy) ErrComputerFilesDisabled;
        let legacy := bool_decide (fp_scope policy = "") in
        let scope := canonicalFileScope (if legacy then FileScopeWorkspacePlusAllowedRoots else fp_scope policy) in
        _ ← check (negb (bool_decide (scope = FileScopeWorkspace))) ErrPathNotAllowed;
        _ ← scope_Validate scope;
        let roots := if bool_decide (scope = FileScopeSelectedRoots) && negb (containsPath (fp_roots policy) workspace)
                     then fp_roots policy ++ [workspace] else fp_roots policy in
        r ← rewriteExternalCall dataDir scope roots (fp_blocked policy) paths;
        Ok (RouteExternal r.1 r.2 (appendPrivatePaths [] (fp_blocked policy))
              (negb legacy && one_of scope [FileScopeWorkspacePlusAllowedRoots; FileScopeAllNonProtected]) legacy)
  end.
End disk.
