(* ===== verification/FilePolicyProps.v ===== *)
(** * What the file policy guarantees

    On absolute paths [within] is the prefix order on elements; the private
    paths kept by [appendPrivatePaths] cover exactly what they were given; and a
    file call that leaves the workspace names only entries of authorized roots,
    none of them private or blocked. *)

From Stdlib Require Import Ascii.
From S2P Require Import Prelude Text Data Workspace Profile FilePolicy.

(** ** Absolute paths as lists of elements *)
Definition elements (p : string) : list string := clean_elements true (Split p slash).

Lemma elements_normal p : Forall normal (elements p).
Proof.
  destruct (clean_elements_clean true (Split p slash)) as (k & ns & E & Hns & Hk). unfold elements. by rewrite E, (Hk eq_refl).
Qed.
Lemma elements_plain p : Forall (λ e, ContainsByte e slash = false) (elements p).
Proof. apply clean_elements_no_slash. Qed.
Lemma Clean_abs p : HasPrefix p "/" = true → Clean p = "/" +:+ Join (elements p) "/".
Proof. intros Hp. unfold Clean. rewrite Hp. by rewrite bool_decide_eq_false_2. Qed.
Lemma elements_clean p : HasPrefix p "/" = true → elements (Clean p) = elements p.
Proof.
  intros Hp. rewrite Clean_abs by done. apply clean_elements_root; [apply elements_plain|].
  exists 0%nat, (elements p). split; [done|]. split; [apply elements_normal|done].
Qed.

Lemma filter_normal l : Forall normal l → filter (λ e, e ≠ "") l = l.
Proof.
  induction 1 as [|e l He _ IH]; [done|]. rewrite filter_cons, decide_True, IH; [done|apply He].
Qed.
Lemma words_abs p : HasPrefix p "/" = true → words (Clean p) = elements p.
Proof.
  intros Hp. rewrite Clean_abs by done. unfold words. change ("/" +:+ ?x) with ("" +:+ String slash x). rewrite Split_sep.
  change (Split "" slash) with [""]. simpl. rewrite filter_cons, decide_False by auto.
  destruct (elements p) as [|e l] eqn:E; [done|]. change "/" with (str slash).
  pose proof (elements_plain p) as Hs. pose proof (elements_normal p) as Hn. rewrite E in Hs, Hn.
  rewrite Join_Split by done. by apply filter_normal.
Qed.
Lemma Clean_abs_inj p q : HasPrefix p "/" = true → HasPrefix q "/" = true → Clean p = Clean q ↔ elements p = elements q.
Proof.
  intros Hp Hq. split; [|by rewrite !Clean_abs by done; intros ->]. intros E. by rewrite <- !words_abs, E.
Qed.

Lemma strip_common_spec b t b' t' : strip_common b t = (b', t') →
  ∃ c, b = c ++ b' ∧ t = c ++ t' ∧ ∀ x y l k, b' = x :: l → t' = y :: k → x ≠ y.
Proof.
  revert t. induction b as [|x b IH]; intros [|y t]; simpl; try (intros [= <- <-]; exists []; naive_solver).
  case_bool_decide as E.
  - intros (c & -> & -> & Hd)%IH. subst y. by exists (x :: c).
  - intros [= <- <-]. exists []. split; [done|split; [done|]]. naive_solver.
Qed.

(** [IsLocal] of joined elements. *)
Lemma Join_elements l : l ≠ [] → Forall (λ e, ContainsByte e slash = false) l → Split (Join l "/") slash = l.
Proof. intros. by apply (Join_Split l slash). Qed.
Lemma IsLocal_normal l : l ≠ [] → Forall normal l → Forall (λ e, ContainsByte e slash = false) l → IsLocal (Join l "/") = true.
Proof.
  intros Hl Hn Hs. assert (Hc : clean_list false l) by (by exists 0%nat, l). unfold IsLocal.
  rewrite Join_no_root by done. rewrite orb_false_r.
  case_bool_decide as E; [by apply Join_empty in E|]. rewrite Join_elements by done.
  replace (existsb _ l) with false.
  - apply negb_true_iff, orb_false_iff. inversion Hn as [|e k He Hk]; subst; [done|]. split.
    + apply bool_decide_eq_false. intros E2. assert (Hsp : Split ".." slash = e :: k) by (by rewrite <- E2, Join_elements).
      injection Hsp as <- _. by apply He.
    + apply not_true_iff_false. intros [t Ht]%HasPrefix_spec.
      assert (Hsp : Split (".." +:+ String slash t) slash = e :: k) by (by rewrite <- Join_elements, Ht).
      rewrite Split_sep in Hsp. injection Hsp as <- _. by apply He.
  - symmetry. apply not_true_iff_false. intros (e & He & Hor)%existsb_exists. rewrite <- list_elem_of_In in He.
    rewrite Forall_forall in Hn. destruct (Hn e He) as (_ & H1 & H2). apply orb_true_iff in Hor as [Hor%bool_decide_eq_true|Hor%bool_decide_eq_true]; done.
Qed.
Lemma IsLocal_up n l : Forall normal l → Forall (λ e, ContainsByte e slash = false) l →
  IsLocal (Join (replicate (S n) ".." ++ l) "/") = false ∧ Join (replicate (S n) ".." ++ l) "/" ≠ ".".
Proof.
  intros Hn Hs. set (k := replicate (S n) ".." ++ l).
  assert (Hc : clean_list false k) by (by exists (S n), l).
  assert (Hk : k ≠ []) by done.
  assert (Hsk : Forall (λ e, ContainsByte e slash = false) k) by (apply Forall_app; split; [by apply Forall_replicate|done]).
  pose proof (Join_elements k Hk Hsk) as Hsp. split.
  - unfold IsLocal. destruct (bool_decide (Join k "/" = "") || HasPrefix (Join k "/") "/"); [done|].
    rewrite Hsp. replace (existsb _ k) with true by (symmetry; apply existsb_exists; exists ".."; split; [by left|done]).
    rewrite (Clean_join k) by done. apply negb_false_iff, orb_true_iff. unfold k. simpl.
    destruct (replicate n ".." ++ l) as [|e r] eqn:E; [by left|right]. apply HasPrefix_spec. by eexists.
  - intros E. rewrite E in Hsp. discriminate Hsp.
Qed.

(** [within] of absolute paths is the prefix order on their elements. *)
Lemma within_abs p q : HasPrefix p "/" = true → HasPrefix q "/" = true →
  within p q = true ↔ elements p `prefix_of` elements q.
Proof.
  intros Hp Hq. unfold within, Rel. case_bool_decide as E.
  { apply Clean_abs_inj in E as ->; done. }
  rewrite (bool_decide_eq_false_2 (Clean p = ".")) by (rewrite Clean_abs by done; done).
  destruct (Clean_rooted p Hp) as [_ Hcp], (Clean_rooted q Hq) as [_ Hcq].
  rewrite Hcp, Hcq, bool_decide_eq_true_2 by done. simpl. rewrite !words_abs by done.
  destruct (strip_common _ _) as [b t] eqn:Es. apply strip_common_spec in Es as (c & Eb & Et & Hd).
  pose proof (elements_normal p) as Hnp. pose proof (elements_normal q) as Hnq. pose proof (elements_plain q) as Hsq.
  rewrite Eb in Hnp. rewrite Et in Hnq, Hsq. apply Forall_app in Hnp as [_ Hnb], Hnq as [_ Hnt], Hsq as [_ Hst].
  assert (Hneq : elements p ≠ elements q) by (by rewrite <- Clean_abs_inj).
  destruct b as [|x b].
  - split; [intros _; rewrite Eb, Et, app_nil_r; by eexists|intros _]. apply orb_true_iff. right.
    apply IsLocal_normal; [|done|done]. intros ->. by rewrite Eb, Et in Hneq.
  - inversion Hnb as [|? ? Hx _]; subst. rewrite (bool_decide_eq_false_2 (x = "..")) by apply Hx. simpl negb. cbv iota. simpl length.
    destruct (IsLocal_up (length b) t Hnt Hst) as [Hl Hdot]. simpl. simpl in Hl, Hdot. rewrite Hl, bool_decide_eq_false_2 by done.
    split; [done|]. intros [k Hk]. exfalso. rewrite Eb, Et, <- app_assoc in Hk. apply app_inv_head in Hk.
    by eapply Hd.
Qed.
Lemma within_refl p : HasPrefix p "/" = true → within p p = true.
Proof. intros. by apply within_abs. Qed.
Lemma within_trans p q r : HasPrefix p "/" = true → HasPrefix q "/" = true → HasPrefix r "/" = true →
  within p q = true → within q r = true → within p r = true.
Proof. intros Hp Hq Hr. rewrite !within_abs by done. apply PreOrder_Transitive. Qed.

(** ** The loops over ancestors end *)
Definition abs_path (l : list string) : string := "/" +:+ Join l "/".

Lemma Clean_is_abs p : HasPrefix p "/" = true → Clean p = abs_path (elements p).
Proof. apply Clean_abs. Qed.
Lemma Split_abs l : Forall (λ e, ContainsByte e slash = false) l →
  Split (abs_path l) slash = "" :: (if bool_decide (l = []) then [""] else l).
Proof.
  intros Hs. unfold abs_path. change ("/" +:+ Join l "/") with ("" +:+ String slash (Join l "/")). rewrite Split_sep. simpl.
  case_bool_decide as E; [by subst|]. by rewrite Join_elements.
Qed.
Lemma Dir_abs l x : Forall normal (l ++ [x]) → Forall (λ e, ContainsByte e slash = false) (l ++ [x]) →
  Dir (abs_path (l ++ [x])) = abs_path l.
Proof.
  intros Hn Hs. unfold Dir. rewrite Split_abs by done. rewrite bool_decide_eq_false_2 by (by destruct l).
  change ("" :: l ++ [x]) with (("" :: l) ++ [x]). rewrite rev_app_distr. simpl rev at 1. cbn [app].
  apply Forall_app in Hn as [Hn _], Hs as [Hs _].
  assert (E : rev ("" :: l) = rev l ++ [""]) by done. destruct (rev ("" :: l)) as [|y k] eqn:Ek; [by destruct (rev l)|].
  rewrite <- Ek, rev_involutive. clear y k E Ek.
  assert (Hc : clean_elements true (Split (Join ("" :: l) "/" +:+ "/") slash) = l).
  { change (Join ("" :: l) "/" +:+ "/") with (Join ("" :: l) "/" +:+ String slash ""). rewrite Split_sep.
    rewrite (Join_elements ("" :: l)) by (try done; by constructor). unfold clean_elements. rewrite foldl_app. simpl.
    unfold clean_push at 1. simpl. apply (clean_elements_fixed true l). by exists 0%nat, l. }
  assert (Hr : HasPrefix (Join ("" :: l) "/" +:+ "/") "/" = true) by (apply HasPrefix_spec; destruct l; by eexists).
  rewrite Clean_abs by done. unfold elements. by rewrite Hc.
Qed.

Section disk.
Context {D : Disk}.

(** More fuel than elements changes nothing: the loop of [CanonicalPath] stops
    at the root at the latest. *)
Lemma canonical_from_enough absolute l f g : Forall normal l → Forall (λ e, ContainsByte e slash = false) l →
  (length l < f)%nat → (length l < g)%nat → canonical_from f absolute (abs_path l) = canonical_from g absolute (abs_path l).
Proof.
  revert f g. induction l as [|x l IH] using rev_ind; intros [|f] [|g] Hn Hs Hf Hg; try lia; simpl;
    (destruct (EvalSymlinks _) as [r|e]; [done|]); destruct (negb _); try done; simpl.
  rewrite Dir_abs by done. case_bool_decide; [done|]. rewrite length_app in Hf, Hg. simpl in Hf, Hg.
  apply Forall_app in Hn as [Hn _], Hs as [Hs _]. apply IH; [done|done|lia|lia].
Qed.
Lemma no_links_spec l f : Forall normal l → Forall (λ e, ContainsByte e slash = false) l → (length l < f)%nat →
  no_links f (abs_path l) = Ok tt ↔ ∀ k, (k <= length l)%nat → dk_link (abs_path (take k l)) = Ok false ∨ dk_link (abs_path (take k l)) = Err ErrNotExist.
Proof.
  revert f. induction l as [|x l IH] using rev_ind; intros [|f] Hn Hs Hf; try lia; simpl.
  - split.
    + intros (u & Hl & _)%res_bind_ok k Hk. rewrite take_nil. destruct (dk_link (abs_path [])) as [[]|[]]; try done; auto.
    + intros Hk. specialize (Hk 0%nat ltac:(simpl; lia)). rewrite take_nil in Hk. by destruct Hk as [-> | ->].
  - rewrite Dir_abs by done. rewrite length_app in Hf. simpl in Hf. pose proof (proj1 (Forall_app _ _ _) Hn) as [Hn' Hnx].
    pose proof (proj1 (Forall_app _ _ _) Hs) as [Hs' _].
    assert (Hlen : ∀ k, (k <= length l)%nat → take k (l ++ [x]) = take k l) by (intros; by rewrite take_app_le).
    rewrite bool_decide_eq_false_2.
    2: { intros E. apply (f_equal (λ p, Split p slash)) in E. rewrite !Split_abs in E by done. destruct l as [|y l]; simpl in E.
         - injection E as <-. inversion Hnx as [|? ? Hx _]. by destruct Hx.
         - injection E as E. apply (f_equal length) in E. rewrite length_app in E. simpl in E. lia. }
    rewrite res_bind_ok. split.
    + intros (u & Hl & Hr) k Hk. rewrite length_app in Hk. simpl in Hk. destruct (decide (k = S (length l))) as [->|Hne].
      * rewrite take_ge by (rewrite length_app; simpl; lia). destruct (dk_link (abs_path (l ++ [x]))) as [[]|[]]; try done; auto.
      * rewrite Hlen by lia. apply (proj1 (IH f Hn' Hs' ltac:(lia)) Hr). lia.
    + intros Hk. exists tt. split.
      * specialize (Hk (S (length l)) ltac:(rewrite length_app; simpl; lia)). rewrite take_ge in Hk by (rewrite length_app; simpl; lia).
        by destruct Hk as [-> | ->].
      * apply IH; [done|done|lia|]. intros k Hkl. rewrite <- Hlen by lia. apply Hk. rewrite length_app. lia.
Qed.

Lemma Join_length l : Forall normal l → (length l <= String.length (Join l "/"))%nat.
Proof.
  induction 1 as [|x l Hx _ IH]; [done|]. assert (1 <= String.length x)%nat by (destruct x; [by destruct Hx|simpl; lia]).
  destruct l as [|y l]; [simpl in *; lia|]. change (Join (x :: y :: l) "/") with (x +:+ "/" +:+ Join (y :: l) "/").
  rewrite !append_length. simpl in *. lia.
Qed.

(** ** The private paths *)
Definition canon (p : string) : string := match CanonicalPath p with Ok resolved => resolved | Err _ => p end.
Definition rooted (p : string) : Prop := HasPrefix p "/" = true.
Definition apart (p q : string) : Prop := within p q = false ∧ within q p = false.

Lemma within_clean p q : rooted p → rooted q → within (Clean p) q = within p q.
Proof.
  intros Hp Hq. apply eq_true_iff_eq. destruct (Clean_rooted p Hp) as [_ Hc]. by rewrite !within_abs, elements_clean.
Qed.
Lemma apart_clean p q : rooted p → rooted q → apart p q → apart p (Clean q).
Proof.
  intros Hp Hq [H1 H2]. destruct (Clean_rooted q Hq) as [_ Hc]. split; [|by rewrite within_clean].
  apply not_true_iff_false. rewrite within_abs, elements_clean by done. rewrite <- within_abs by done. by rewrite H1.
Qed.

Lemma pairs_filter {A} (R : A → A → Prop) (P : A → Prop) `{!∀ x, Decision (P x)} l : ForallOrdPairs R l → ForallOrdPairs R (filter P l).
Proof.
  induction 1 as [|x l Hx _ IH]; [constructor|]. rewrite filter_cons. destruct (decide (P x)); [|done]. constructor; [|done].
  rewrite Forall_forall in *. intros y [_ Hy]%list_elem_of_filter. by apply Hx.
Qed.
Lemma pairs_snoc {A} (R : A → A → Prop) l x : ForallOrdPairs R l → Forall (λ y, R y x) l → ForallOrdPairs R (l ++ [x]).
Proof.
  induction 1 as [|y l Hy _ IH]; simpl; intros Hx; [repeat constructor|]. inversion Hx; subst. constructor; [|by apply IH].
  apply Forall_app. split; [done|by constructor].
Qed.

Lemma inside_spec paths t : insidePrivatePath paths t = true ↔ ∃ p, p ∈ paths ∧ p ≠ "" ∧ within p t = true.
Proof.
  unfold insidePrivatePath. rewrite existsb_exists. setoid_rewrite <- list_elem_of_In. setoid_rewrite andb_true_iff.
  setoid_rewrite negb_true_iff. setoid_rewrite bool_decide_eq_false. done.
Qed.

Lemma appendPrivatePaths_from paths more :
  Forall rooted paths → ForallOrdPairs apart paths → Forall (λ p, canon p = "" ∨ rooted (canon p)) more →
  let l := appendPrivatePaths paths more in
  Forall rooted l ∧ ForallOrdPairs apart l ∧
  ∀ t, rooted t → insidePrivatePath l t = true ↔
    insidePrivatePath paths t = true ∨ ∃ p, p ∈ more ∧ canon p ≠ "" ∧ within (canon p) t = true.
Proof.
  revert paths. induction more as [|p more IH]; intros paths Hr Ha Hm; simpl.
  { split; [done|split; [done|]]. intros t _. split; [auto|]. intros [|(p & ?%elem_of_nil & _)]; done. }
  inversion Hm as [|? ? Hp Hm']; subst. fold (canon p). destruct (bool_decide (canon p = "") || insidePrivatePath paths (canon p)) eqn:Ec.
  - destruct (IH paths Hr Ha Hm') as (H1 & H2 & H3). split; [done|split; [done|]]. intros t Ht. rewrite (H3 t Ht). split.
    + intros [|(q & Hq & ?)]; [by left|right]. exists q. split; [by right|done].
    + intros [|(q & [->|Hq]%elem_of_cons & Hne & Hw)]; [by left| |right; by eauto]. left.
      apply orb_true_iff in Ec as [Ec%bool_decide_eq_true|(z & Hz & Hzn & Hzw)%inside_spec]; [done|].
      destruct Hp as [?|Hp]; [done|]. rewrite Forall_forall in Hr. apply inside_spec. exists z. split; [done|split; [done|]].
      eapply (within_trans z (canon p)); [by apply Hr|done..].
  - apply orb_false_iff in Ec as [Ec%bool_decide_eq_false Hi]. destruct Hp as [?|Hp]; [done|].
    destruct (Clean_rooted (canon p) Hp) as [_ Hcp].
    set (kept := filter _ paths).
    assert (Hk : ∀ q, q ∈ kept → q ∈ paths ∧ within (canon p) q = false) by (intros q [[_ Hw] Hq]%list_elem_of_filter; done).
    rewrite Forall_forall in Hr.
    assert (Hout : ∀ q, q ∈ paths → within q (canon p) = false).
    { intros q Hq. apply not_true_iff_false. intros Hw. apply not_true_iff_false in Hi. apply Hi, inside_spec. exists q.
      split; [done|split; [|done]]. intros ->. by specialize (Hr "" Hq). }
    destruct (IH (kept ++ [Clean (canon p)])) as (H1 & H2 & H3); [|  |done|].
    + apply Forall_app. split; [|by constructor]. apply Forall_forall. intros q Hq. by apply Hr, Hk.
    + apply pairs_snoc; [by apply pairs_filter|]. apply Forall_forall. intros q [Hq Hw]%Hk. apply apart_clean; [by apply Hr|done|].
      split; [by apply Hout|done].
    + split; [done|split; [done|]]. intros t Ht. rewrite (H3 t Ht). setoid_rewrite elem_of_cons. rewrite !inside_spec.
      setoid_rewrite elem_of_app. setoid_rewrite list_elem_of_singleton. split.
      * intros [(q & [Hq| ->] & Hne & Hw)|(q & ? & ?)]; [left; exists q; split; [by apply Hk|done]| |right; by eauto].
        right. exists p. rewrite within_clean in Hw by done. eauto.
      * intros [(q & Hq & Hne & Hw)|(q & [->|Hq] & Hne & Hw)]; [|left; exists (Clean (canon p))|right; by eauto].
        -- destruct (within (canon p) q) eqn:Ew.
           ++ left. exists (Clean (canon p)). split; [by right|]. split; [intros E; by rewrite E in Hcp|]. rewrite within_clean by done.
              eapply (within_trans _ q); [done|by apply Hr|done..].
           ++ left. exists q. split; [left; unfold kept; apply list_elem_of_filter; done|done].
        -- split; [by right|]. split; [intros E; by rewrite E in Hcp|]. by rewrite within_clean.
Qed.

(** The private paths of the program are kept without loss and without
    overlap: a path lies below one that [appendPrivatePaths] keeps exactly when
    it lies below one of those given, resolved, and no kept path lies below
    another. *)
Theorem appendPrivatePaths_covers ps target :
  Forall (λ p, canon p = "" ∨ rooted (canon p)) ps → rooted target →
  insidePrivatePath (appendPrivatePaths [] ps) target =
    existsb (λ p, negb (bool_decide (canon p = "")) && within (canon p) target) ps ∧
  ForallOrdPairs apart (appendPrivatePaths [] ps).
Proof.
  intros Hp Ht. destruct (appendPrivatePaths_from [] ps) as (_ & Ha & H); [constructor|constructor|done|].
  split; [|done]. apply eq_true_iff_eq. rewrite (H target Ht), existsb_exists. setoid_rewrite <- list_elem_of_In.
  setoid_rewrite andb_true_iff. setoid_rewrite negb_true_iff. setoid_rewrite bool_decide_eq_false. naive_solver.
Qed.

(** ** External paths *)
Lemma HasPrefix_Clean p : HasPrefix (Clean p) "/" = HasPrefix p "/".
Proof. destruct (HasPrefix p "/") eqn:E; [apply Clean_rooted, E|apply Clean_idem, E]. Qed.

Lemma within_rooted p q : rooted q → within p q = true → rooted p.
Proof.
  unfold rooted, within, Rel. intros Hq. rewrite <- HasPrefix_Clean in Hq. case_bool_decide as E.
  { intros _. by rewrite <- HasPrefix_Clean, E. }
  rewrite Hq. case_bool_decide as Ed; [done|]. rewrite HasPrefix_Clean. by destruct (HasPrefix p "/").
Qed.

(** Joining a local relative path to its base gives back the path. *)
Lemma foldl_push_normal l stack : Forall normal l → foldl (clean_push true) stack l = rev l ++ stack.
Proof.
  revert stack. induction l as [|x l IH]; intros stack Hn; [done|]. inversion Hn as [|? ? Hx Hl]; subst. simpl.
  destruct Hx as (H1 & H2 & H3). unfold clean_push at 2. rewrite !bool_decide_eq_false_2 by done. simpl.
  rewrite IH by done. by rewrite <- app_assoc.
Qed.
Lemma elements_join p l : l ≠ [] → Forall normal l → Forall (λ e, ContainsByte e slash = false) l →
  elements (p +:+ "/" +:+ Join l "/") = elements p ++ l.
Proof.
  intros Hl Hn Hs. unfold elements. change (p +:+ "/" +:+ Join l "/") with (p +:+ String slash (Join l "/")).
  rewrite Split_sep, Join_elements by done.
  unfold clean_elements. by rewrite foldl_app, foldl_push_normal, rev_app_distr, rev_involutive.
Qed.
Lemma elements_dot p : elements (p +:+ "/" +:+ ".") = elements p.
Proof.
  unfold elements. change (p +:+ "/" +:+ ".") with (p +:+ String slash "."). rewrite Split_sep. unfold clean_elements. by rewrite foldl_app.
Qed.

Lemma Rel_local root v r : rooted v → Rel root v = Ok r → IsLocal r = true →
  rooted root ∧ elements v = elements (root +:+ "/" +:+ Clean r) ∧ IsLocal (Clean r) = true.
Proof.
  intros Hv HR Hl.
  assert (Hw : within root v = true) by (unfold within; rewrite HR; by rewrite Hl, orb_true_r).
  pose proof (within_rooted _ _ Hv Hw) as Hr. split; [done|]. apply within_abs in Hw as [k Hk]; [|done|done].
  pose proof HR as HR'. unfold Rel in HR. case_bool_decide as E.
  { injection HR as <-. apply Clean_abs_inj in E; [|done|done]. rewrite <- E. split; [symmetry; apply elements_dot|done]. }
  rewrite (bool_decide_eq_false_2 (Clean root = ".")) in HR by (rewrite Clean_abs by done; done).
  destruct (Clean_rooted root Hr) as [_ Hcp], (Clean_rooted v Hv) as [_ Hcq].
  rewrite Hcp, Hcq, bool_decide_eq_true_2 in HR by done. simpl in HR. rewrite !words_abs in HR by done.
  rewrite Hk in HR. assert (Es : strip_common (elements root) (elements root ++ k) = ([], k)).
  { clear. induction (elements root) as [|x l IH]; simpl; [by destruct k|]. by rewrite bool_decide_eq_true_2. }
  rewrite Es in HR. injection HR as <-.
  pose proof (elements_normal v) as Hn. pose proof (elements_plain v) as Hs. rewrite Hk in Hn, Hs.
  apply Forall_app in Hn as [_ Hn], Hs as [_ Hs].
  assert (Hne : k ≠ []). { intros ->. apply E. apply Clean_abs_inj; [done..|]. by rewrite Hk, app_nil_r. }
  rewrite (Clean_join k) by (try done; by exists 0%nat, k). by rewrite elements_join.
Qed.

(** The root a path is given: an authorized root that contains it, or the
    directory of the authorized file that it is. *)
Definition root_of (roots : list string) (v root : string) : Prop :=
  ∃ r, r ∈ roots ∧ (root = Clean r ∧ within r v = true ∨ root = Clean (Dir r) ∧ samePath r v = true ∧ dk_regular r = true).
Lemma externalRootFor_of v roots : externalRootFor v roots ≠ "" → root_of roots v (externalRootFor v roots).
Proof.
  unfold externalRootFor. destruct (merge_sort longer _) as [|c l] eqn:E; [done|]. intros _.
  assert (Hc : c ∈ concat (map (root_candidate v) roots)) by (rewrite <- (merge_sort_Permutation longer), E; by left).
  apply list_elem_of_In, in_concat in Hc as (k & (r & <- & Hr)%in_map_iff & Hc). apply list_elem_of_In in Hr, Hc. exists r. split; [done|].
  unfold root_candidate in Hc. destruct (samePath r v && dk_regular r) eqn:Es.
  - apply list_elem_of_singleton in Hc as ->. apply andb_true_iff in Es as [-> ->]. by right.
  - destruct (within r v) eqn:Ew; [|by apply not_elem_of_nil in Hc]. apply list_elem_of_singleton in Hc as ->. by left.
Qed.
Lemma samePath_clean a b : samePath a b = true → Clean a = Clean b.
Proof. unfold samePath. apply bool_decide_eq_true. Qed.
Lemma within_base a b v : Clean a = Clean b → within a v = within b v.
Proof. intros E. unfold within, Rel. by rewrite E. Qed.

(** What [validateExternalPathWithBlocked] accepts. *)
Definition external_ok (dataDir : string) (roots blocked : list string) (raw v : string) : Prop :=
  rooted raw ∧ v = Clean raw ∧ protectedPath dataDir v = false ∧ (∀ d, d ∈ blocked → within d v = false) ∧
  ∃ root, root ∈ roots ∧ within root v = true.
Lemma validateExternalPath_ok dataDir roots blocked raw v :
  validateExternalPathWithBlocked dataDir roots blocked raw = Ok v → external_ok dataDir roots blocked raw v.
Proof.
  unfold validateExternalPathWithBlocked. intros H. apply res_bind_ok in H as ([] & Habs%check_ok & H).
  assert (Ha : Abs (Clean raw) = Ok (Clean raw)).
  { unfold Abs, IsAbs. rewrite HasPrefix_Clean. unfold IsAbs in Habs. rewrite Habs. by rewrite Clean_Clean. }
  rewrite Ha in H. apply res_bind_ok in H as ([] & Hp%check_ok%negb_true_iff & H).
  apply res_bind_ok in H as ([] & Hb%check_ok%negb_true_iff & H). apply res_bind_ok in H as ([] & Hr%check_ok & H).
  injection H as <-. split; [done|split; [done|split; [done|]]]. split.
  - intros d Hd. apply not_true_iff_false. intros Hw. apply not_true_iff_false in Hb. apply Hb, existsb_exists.
    exists d. by rewrite <- list_elem_of_In.
  - apply existsb_exists in Hr as (root & Hin & Hw). exists root. by rewrite list_elem_of_In.
Qed.

(** The loop of [rewriteExternalCall]. *)
Lemma rewrite_paths_ok dataDir scope roots blocked paths : ∀ rp root names,
  rewrite_paths dataDir scope roots blocked rp paths = Ok (root, names) →
  (rp ≠ "" → root = rp) ∧
  Forall2 (λ raw n, external_ok dataDir (if bool_decide (scope = FileScopeAllNonProtected) then ["/"] else roots) blocked raw n.2 ∧
             rooted root ∧ Clean (root +:+ "/" +:+ n.1) = n.2 ∧ IsLocal n.1 = true ∧ within root n.2 = true ∧
             root_of (if bool_decide (scope = FileScopeAllNonProtected) then ["/"] else roots) n.2 (Clean root)) paths names.
Proof.
  induction paths as [|raw paths IH]; intros rp root names; simpl; [intros [= <- <-]; split; [done|constructor]|].
  intros H. apply res_bind_ok in H as (v & Hv%validateExternalPath_ok & H).
  set (er := externalRootFor _ _) in H. set (r0 := if bool_decide (er = "") && _ then _ else er) in H.
  apply res_bind_ok in H as ([] & Hne%check_ok%negb_true_iff%bool_decide_eq_false & H).
  apply res_bind_ok in H as ([] & Hsame%check_ok & H).
  apply res_bind_ok in H as (rel & Hrel & H). assert (HR : Rel r0 v = Ok rel) by (destruct (Rel r0 v); [by injection Hrel as ->|done]).
  apply res_bind_ok in H as ([] & Hloc%check_ok & H). apply res_bind_ok in H as ([root' names'] & Hrec & [= <- <-]).
  destruct (IH _ _ _ Hrec) as [Hroot Hall].
  assert (Hrv : rooted v) by (destruct Hv as (Hraw & -> & _); unfold rooted; by rewrite HasPrefix_Clean).
  destruct (Rel_local r0 v rel Hrv HR Hloc) as (Hr0 & Hel & Hlc).
  assert (Hof : root_of (if bool_decide (scope = FileScopeAllNonProtected) then ["/"] else roots) v (Clean r0)).
  { assert (Hin : within r0 v = true) by (unfold within; rewrite HR; by rewrite Hloc, orb_true_r).
    destruct (decide (er = "")) as [Eer|Eer].
    - unfold r0 in *. rewrite (bool_decide_eq_true_2 (er = "")) in * by done. simpl in *. destruct (bool_decide (scope = _)); [|done].
      exists "/". split; [by left|]. by left.
    - unfold r0. rewrite (bool_decide_eq_false_2 (er = "")) by done. simpl. pose proof (externalRootFor_of v _ Eer) as (r & Hr & Hx).
      exists r. split; [done|]. fold er in Hx. destruct Hx as [[-> ?]|[-> ?]]; [left|right]; by rewrite Clean_Clean. }
  assert (Hroot' : root' = if bool_decide (rp = "") then r0 else rp). { apply Hroot. destruct (decide (rp = "")) as [Er|Er]; [by rewrite (bool_decide_eq_true_2 _ Er)|by rewrite (bool_decide_eq_false_2 _ Er)]. }
  split; [intros Hrp; by rewrite Hroot', bool_decide_eq_false_2|].
  assert (Hsame' : rooted root' ∧ elements root' = elements r0).
  { rewrite Hroot'. case_bool_decide as Erp; [done|]. simpl in Hsame. unfold samePath in Hsame. apply bool_decide_eq_true in Hsame.
    assert (Hrp : rooted rp) by (unfold rooted; rewrite <- HasPrefix_Clean, Hsame, HasPrefix_Clean; done).
    split; [done|]. by apply Clean_abs_inj. }
  destruct Hsame' as [Hrr Hre].
  assert (Ecv : Clean v = v) by (destruct Hv as (_ & -> & _); apply Clean_Clean).
  assert (Hcc : Clean root' = Clean r0).
  { rewrite Hroot'. case_bool_decide as Erp; [done|]. by apply samePath_clean. }
  constructor; [|done]. simpl. rewrite Ecv. split; [exact Hv|split; [done|]]. split.
  2: { split; [done|]. rewrite Hcc, (within_base _ _ _ Hcc). split; [|done]. unfold within. rewrite HR. by rewrite Hloc, orb_true_r. }
  - assert (Hj : rooted (root' +:+ "/" +:+ Clean rel)).
    { unfold rooted in *. apply HasPrefix_spec in Hrr as [t ->]. apply HasPrefix_spec. rewrite append_assoc. by eexists. }
    transitivity (Clean v); [|exact Ecv]. apply Clean_abs_inj; [done..|]. rewrite Hel.
    unfold elements in *. change (?a +:+ "/" +:+ ?b) with (a +:+ String slash b). rewrite !Split_sep. unfold clean_elements in *.
    rewrite !foldl_app. f_equal. f_equal.
    assert (Hre' := f_equal (@rev string) Hre). rewrite !rev_involutive in Hre'. exact Hre'.
Qed.

(** C25: A file call that leaves the workspace needs the computer's files and a
    scope wider than the workspace; every path of it is absolute, and the name it
    is rewritten to is local to the one root the call is given, and leads from it
    to exactly the cleaned path, which lies below that root; the root is an
    authorized one, or the directory of the authorized file that the path is; the
    path lies in an authorized root (or anywhere, when the
    scope is the whole disk), below no blocked path, below no private path of the
    program, neither as written nor resolved, and is none of its files. *)
Theorem external_route_safe workspace dataDir policy paths root names b local ask :
  prepareWithPolicy workspace dataDir policy (Ok paths) = Ok (RouteExternal root names b local ask) →
  fp_computer policy = true ∧ fp_scope policy ≠ FileScopeWorkspace ∧ length names = length paths ∧
  ∀ i raw rel v, paths !! i = Some raw → names !! i = Some (rel, v) →
    rooted raw ∧ v = Clean raw ∧ within root v = true ∧ IsLocal rel = true ∧ Clean (root +:+ "/" +:+ rel) = v ∧
    (∃ r, (r ∈ fp_roots policy ∨ r = workspace ∨ canonicalFileScope (fp_scope policy) = FileScopeAllNonProtected ∧ r = "/") ∧
       (Clean root = Clean r ∨ Clean root = Clean (Dir r) ∧ samePath r v = true ∧ dk_regular r = true)) ∧
    (canonicalFileScope (fp_scope policy) = FileScopeAllNonProtected ∨
       ∃ r, (r ∈ fp_roots policy ∨ r = workspace) ∧ within r v = true) ∧
    (∀ d, d ∈ fp_blocked policy → within d v = false) ∧
    (∃ data priv, Abs dataDir = Ok data ∧ privateApplicationPaths data = Ok priv ∧ insidePrivatePath priv v = false ∧
       (∀ c, CanonicalPath v = Ok c → insidePrivatePath priv c = false) ∧ ToLower (Base v) ∉ private_names).
Proof.
  intros H. unfold prepareWithPolicy in H. destruct paths as [|p ps]; [done|]. set (paths := p :: ps) in *.
  destruct (negb (existsb isAbsoluteFilePath paths)); [done|]. set (scope := canonicalFileScope _) in H.
  apply res_bind_ok in H as ([] & _ & H). apply res_bind_ok in H as ([] & Hc%check_ok & H).
  apply res_bind_ok in H as ([] & Hs%check_ok%negb_true_iff%bool_decide_eq_false & H). apply res_bind_ok in H as ([] & _ & H).
  set (roots := if _ && _ then _ else fp_roots policy) in H.
  assert (in_scope : ∀ r, r ∈ (if bool_decide (scope = FileScopeAllNonProtected) then ["/"] else roots) →
    r ∈ fp_roots policy ∨ r = workspace ∨ canonicalFileScope (fp_scope policy) = FileScopeAllNonProtected ∧ r = "/").
  { intros r Hr. assert (Hroots : r ∈ roots → r ∈ fp_roots policy ∨ r = workspace).
    { unfold roots. destruct (_ && _); [|by left]. intros [?|?%list_elem_of_singleton]%elem_of_app; auto. }
    unfold scope in Hr. destruct (decide (fp_scope policy = "")) as [E|E].
    - rewrite E in Hr. destruct (Hroots Hr); auto.
    - rewrite (bool_decide_eq_false_2 _ E) in Hr. case_bool_decide; [apply list_elem_of_singleton in Hr; auto|destruct (Hroots Hr); auto]. }
  apply res_bind_ok in H as ([root' names'] & Hrw & H). simpl in H. injection H as -> -> <- <- <-.
  unfold rewriteExternalCall in Hrw. apply res_bind_ok in Hrw as ([] & _ & Hrw).
  apply rewrite_paths_ok in Hrw as [_ Hall]. split; [done|]. split.
  { intros E. apply Hs. unfold scope. rewrite E. done. }
  split; [symmetry; by eapply Forall2_length|]. intros i raw rel v Hi Hn.
  destruct (Forall2_lookup_lr _ _ _ _ _ _ Hall Hi Hn) as ((Hraw & Ev & Hprot & Hbl & r & Hr & Hw) & _ & Hj & Hlc & Hin & q & Hq & Hqr). simpl in *.
  do 5 (split; [done|]). split; [|split; [|split; [done|]]].
  - exists q. split; [|destruct Hqr as [[? _]|?]; [by left|by right]]. apply in_scope in Hq. destruct Hq; auto.
  - apply in_scope in Hr as [?|[->|[? _]]]; [right|right|by left]; exists r || exists workspace; auto.
  - unfold protectedPath in Hprot. destruct (Abs dataDir) as [data|]; [|done].
    assert (Hav : Abs v = Ok v) by (unfold Abs, IsAbs; rewrite Ev, HasPrefix_Clean, Clean_Clean; by rewrite Hraw).
    rewrite Hav in Hprot. destruct (privateApplicationPaths data) as [priv|] eqn:Ep; [|done].
    apply orb_false_iff in Hprot as [[Hp1 Hp2]%orb_false_iff Hp3]. exists data, priv.
    split; [done|split; [done|split; [done|]]]. split; [intros c Hcan; by rewrite Hcan in Hp2|].
    by apply bool_decide_eq_false in Hp3.
Qed.

(** ** The roots of the computer *)
Lemma canonicalDir_ok p r : rooted p → canonicalDir p = Ok r →
  r = Clean p ∧ ∀ k, (k <= length (elements p))%nat → dk_link (abs_path (take k (elements p))) ≠ Ok true.
Proof.
  intros Hp H. unfold canonicalDir in H. apply res_bind_ok in H as ([] & _ & H).
  assert (Ha : Abs p = Ok (Clean p)) by (unfold Abs, IsAbs; by rewrite Hp).
  rewrite Ha in H. apply res_bind_ok in H as (a & [= <-] & H). apply res_bind_ok in H as ([] & Hl & [= <-]). split; [done|].
  rewrite Clean_is_abs in Hl by done. intros k Hk E.
  assert (Hf : (length (elements p) < S (String.length (abs_path (elements p))))%nat).
  { pose proof (Join_length _ (elements_normal p)). unfold abs_path. rewrite append_length. lia. }
  destruct (proj1 (no_links_spec _ _ (elements_normal p) (elements_plain p) Hf) Hl k Hk) as [?|?]; congruence.
Qed.

Lemma computer_roots_ok data seen roots : computer_roots data seen roots = Ok tt →
  NoDup (map (λ raw, path_key (TrimSpace raw)) roots) ∧ Forall (λ raw,
    let p := TrimSpace raw in
    rooted p ∧ path_key p ∉ seen ∧ dk_stat (Clean p) = Ok true ∧ within data (Clean p) = false ∧
    ∀ k, (k <= length (elements p))%nat → dk_link (abs_path (take k (elements p))) ≠ Ok true) roots.
Proof.
  revert seen. induction roots as [|raw roots IH]; intros seen H; simpl in *; [split; constructor|].
  apply res_bind_ok in H as ([] & Hg%check_ok%negb_true_iff & H). apply orb_false_iff in Hg as [_ Hg%negb_false_iff].
  unfold absolute_path in Hg. apply andb_true_iff in Hg as [Hr _].
  apply res_bind_ok in H as (r & Hd & H). destruct (canonicalDir (TrimSpace raw)) as [r'|] eqn:Ec; [|done]. injection Hd as ->.
  apply canonicalDir_ok in Ec as [-> Hl]; [|done].
  apply res_bind_ok in H as ([] & Hst%check_ok & H). apply res_bind_ok in H as ([] & Hw%check_ok%negb_true_iff & H).
  apply res_bind_ok in H as ([] & Hk%check_ok%negb_true_iff%bool_decide_eq_false & H).
  assert (Ek : path_key (Clean (TrimSpace raw)) = path_key (TrimSpace raw)) by (unfold path_key; by rewrite Clean_Clean).
  rewrite Ek in *. destruct (IH _ H) as [Hnd Hall]. rewrite Forall_forall in Hall. split.
  - constructor; [|done]. intros (x & Ex & Hx)%list_elem_of_fmap. destruct (Hall x Hx) as (_ & Hnin & _). rewrite Ex in Hnin. set_solver.
  - constructor; [|apply Forall_forall; intros x Hx; destruct (Hall x Hx) as (H1 & H2 & H3); split; [done|split; [set_solver|done]]].
    split; [done|split; [done|split; [|done]]]. by destruct (dk_stat _) as [[]|].
Qed.

(** Roots of the computer that [validateComputerRoots] accepts are at most
    eight absolute entries that exist, distinct up to case, outside the data
    directory, and neither they nor a directory above them is a link. *)
Theorem validateComputerRoots_ok dataDir roots : validateComputerRoots dataDir roots = Ok tt →
  (length roots <= 8)%nat ∧ NoDup (map (λ raw, path_key (TrimSpace raw)) roots) ∧
  ∃ data, Abs dataDir = Ok data ∧
  ∀ raw, raw ∈ roots → let p := TrimSpace raw in
    rooted p ∧ dk_stat (Clean p) = Ok true ∧ within data (Clean p) = false ∧
    ∀ k, (k <= length (elements p))%nat → dk_link (abs_path (take k (elements p))) ≠ Ok true.
Proof.
  intros H. unfold validateComputerRoots in H. apply res_bind_ok in H as ([] & Hl%check_ok & H).
  apply res_bind_ok in H as (data & Hd & H). apply computer_roots_ok in H as [Hnd Hall].
  split; [unfold zlen in Hl; lia|split; [done|]]. unfold canonicalDir in Hd. apply res_bind_ok in Hd as ([] & _ & Hd).
  apply res_bind_ok in Hd as (a & Ha & Hd). apply res_bind_ok in Hd as ([] & _ & [= ->]). exists data. split; [done|].
  rewrite Forall_forall in Hall. intros raw Hr. destruct (Hall raw Hr) as (H1 & _ & H2 & H3 & H4). done.
Qed.
End disk.

(** ** Witnesses *)
Module FilePolicyDemo.
Definition known : list string :=
  ["/"; "/home"; "/home/u"; "/home/u/.state"; "/home/u/w"; "/srv"; "/srv/docs"; "/srv/docs/a.txt"; "/srv/docs/b.txt"].
Definition exists_ {A} (p : string) (a : A) : res A := if bool_decide (p ∈ known) then Ok a else Err ErrNotExist.
#[export] Instance process : Process := {|
  pr_unicode := ascii_case; Getwd := Ok "/home/u"; EvalSymlinks p := exists_ p p; json_strings l := Join l "," |}.
#[export] Instance disk : Disk := {|
  dk_process := process; dk_link p := exists_ p false; dk_stat p := exists_ p true;
  dk_regular p := bool_decide (p ∈ ["/srv/docs/a.txt"; "/srv/docs/b.txt"]);
  PrivateStateDirs := Ok ["/home/u/.state/new"; "/home/u/.state"]; KeysFile := Ok "/home/u/.state/keys.json"; ServiceFile := "" |}.
Definition policy : FileAccessPolicy := mkFileAccess true ["/srv/docs"] ["/srv/docs/secret"] FileScopeSelectedRoots.
Definition paths : list string := ["/srv/docs/a.txt"; "/srv/docs/sub/../b.txt"].
Lemma routed_ok : prepareWithPolicy "/home/u/w" "/home/u/data" policy (Ok paths) =
  Ok (RouteExternal "/srv/docs" [("a.txt", "/srv/docs/a.txt"); ("b.txt", "/srv/docs/b.txt")] ["/srv/docs/secret"] true false).
Proof. vm_compute. reflexivity. Qed.
Definition private_dirs : list string := ["/home/u/.state/new"; "/home/u/.state"; ""].
Lemma private_rooted : Forall (λ p, canon p = "" ∨ rooted (canon p)) private_dirs.
Proof.
  unfold private_dirs. apply Forall_cons_2; [right; vm_compute; reflexivity|].
  apply Forall_cons_2; [right; vm_compute; reflexivity|]. apply Forall_cons_2; [left; vm_compute; reflexivity|apply Forall_nil_2].
Qed.
End FilePolicyDemo.
Import FilePolicyDemo.

Lemma external_route_safe_witness :
  within "/srv/docs" "/srv/docs/b.txt" = true ∧ Clean ("/srv/docs" +:+ "/" +:+ "b.txt") = "/srv/docs/b.txt" ∧
  within "/srv/docs/secret" "/srv/docs/b.txt" = false ∧
  prepareWithPolicy "/home/u/w" "/home/u/data" policy (Ok ["/srv/docs/secret/x"]) = Err ErrPathBlocked ∧
  prepareWithPolicy "/home/u/w" "/home/u/data" policy (Ok ["/home/u/.state/x"]) = Err ErrProtectedPath.
Proof.
  destruct (external_route_safe (D:=disk) _ _ _ _ _ _ _ _ _ routed_ok) as (_ & _ & _ & H).
  destruct (H 1%nat "/srv/docs/sub/../b.txt" "b.txt" "/srv/docs/b.txt" eq_refl eq_refl) as (_ & _ & Hin & _ & Hj & _ & _ & Hb & _).
  split; [exact Hin|]. split; [exact Hj|]. split; [apply Hb; by left|]. split; vm_compute; reflexivity.
Defined.

Lemma appendPrivatePaths_covers_witness :
  appendPrivatePaths [] private_dirs = ["/home/u/.state"] ∧
  insidePrivatePath (appendPrivatePaths [] private_dirs) "/home/u/.state/new/x" = true.
Proof.
  split; [vm_compute; reflexivity|].
  rewrite (proj1 (appendPrivatePaths_covers private_dirs "/home/u/.state/new/x" private_rooted eq_refl)).
  vm_compute. reflexivity.
Defined.

Lemma validateComputerRoots_ok_witness :
  within "/home/u/data" "/srv/docs" = false ∧ validateComputerRoots "/home/u/data" ["/home/u/data"] ≠ Ok tt.
Proof.
  destruct (validateComputerRoots_ok (D:=disk) "/home/u/data" ["/srv/docs"; " /home/u/w "] ltac:(vm_compute; reflexivity))
    as (_ & _ & data & Hd & H).
  vm_compute in Hd. injection Hd as <-. destruct (H "/srv/docs" ltac:(by left)) as (_ & _ & Hw & _).
  split; [exact Hw|vm_compute; discriminate].
Defined.
