(* ===== verification/Permission.v ===== *)
(** * Permissions of spaces, people and runs

    Model of src/internal/harness/permissions.go and space_permissions.go, and of
    the checks of telegram_access.go they call: the permission of a space and of
    a person, who may raise it, the permission a run freezes when it starts, and
    the check before each of its calls that nothing it was granted has been
    reduced since. *)

From Stdlib Require Import Ascii DecimalString.
From S2P Require Import Prelude Text Data Sql Store Space Workspace Profile FilePolicy.

(** What the service holds besides the store: its configuration and data
    directory, the policy of the remote entrance ([PublicWebConfig], its switch
    and its ceiling), whether the call came through that entrance
    ([PublicEntryFrom]), and the bots that are connected ([telegramBots]). *)
Record Env := mkEnv {
  ev_config : Config;
  ev_data_dir : string;
  ev_public_enabled : bool;
  ev_public_max : string;
  ev_remote : bool;
  ev_bots : gset string;
}.

(** The commands the supervisor of command_sessions.go lists, and its answer to
    a request to stop one; [sup_list] is [None] when there is no supervisor. *)
Record CommandRecord := mkCommandRecord { cmd_id : string; cmd_run : string; cmd_state : string }.
Record Supervisor := mkSupervisor { sup_list : option (res (list CommandRecord)); sup_stop : string → option error }.

Definition personKey (id : string) : string := "person/" +:+ id.
Definition bounded_text (n : Z) (s : string) : bool := (Z.of_nat (String.length s) <=? n)%Z && negb (ContainsAny s control_chars).

(** [validPersonID]. *)
Definition validPersonID (id : string) : bool :=
  negb (bool_decide (id = "")) && bounded_text 512 id &&
  (HasPrefix id "telegram:user:" || HasPrefix id "lark:" || HasPrefix id "qq:").

(** [PermissionSelection.validate]. *)
Definition optional_mode (m : string) : bool := bool_decide (m = "") || is_ok (permission_Validate m).
Definition selection_validate (s : PermissionSelection) : res unit :=
  _ ← check (optional_mode (ps_remote_limit s)) ErrPermissionDenied;
  _ ← check (bounded_text 128 (ps_space s)) ErrInvalidSpace;
  _ ← check (bool_decide (ps_person s = "") || validPersonID (ps_person s)) ErrPermissionDenied;
  _ ← check (optional_mode (ps_space_limit s)) ErrPermissionDenied;
  _ ← check (optional_mode (ps_person_limit s)) ErrPermissionDenied;
  _ ← check (one_of (ps_source s) ["turn"; "space"; "default"]) (EText "harness: invalid permission source");
  _ ← permission_Validate (ps_mode s);
  _ ← (if bool_decide (ps_scope s = "") then Ok tt else scope_Validate (ps_scope s));
  _ ← check (negb ((8 <? zlen (ps_computer_roots s))%Z || (8 <? zlen (ps_additional_roots s))%Z || (64 <? zlen (ps_blocked s))%Z))
        (EText "harness: too many permission roots");
  _ ← check (forallb absolute_path (ps_computer_roots s ++ ps_additional_roots s ++ ps_blocked s))
        (EText "harness: permission roots must be absolute");
  check (bounded_text 128 (ps_generation s)) (EText "harness: invalid permission profile generation").

(** The fields of a selection the code assigns. *)
Definition sel_mode (mode source : string) (s : PermissionSelection) : PermissionSelection :=
  mkSelection (ps_owner_private s) (ps_remote_limit s) (ps_space s) (ps_person s) (ps_entry s) (ps_space_limit s) (ps_person_limit s)
    mode source (ps_computer_files s) (ps_computer_roots s) (ps_scope s) (ps_additional_roots s) (ps_blocked s) (ps_command_enabled s) (ps_generation s).
Definition sel_space (space : string) (s : PermissionSelection) : PermissionSelection :=
  mkSelection (ps_owner_private s) (ps_remote_limit s) space (ps_person s) (ps_entry s) (ps_space_limit s) (ps_person_limit s)
    (ps_mode s) (ps_source s) (ps_computer_files s) (ps_computer_roots s) (ps_scope s) (ps_additional_roots s) (ps_blocked s) (ps_command_enabled s) (ps_generation s).
Definition sel_generation (g : string) (s : PermissionSelection) : PermissionSelection :=
  mkSelection (ps_owner_private s) (ps_remote_limit s) (ps_space s) (ps_person s) (ps_entry s) (ps_space_limit s) (ps_person_limit s)
    (ps_mode s) (ps_source s) (ps_computer_files s) (ps_computer_roots s) (ps_scope s) (ps_additional_roots s) (ps_blocked s) (ps_command_enabled s) g.
Definition sel_space_limit (limit entry : string) (s : PermissionSelection) : PermissionSelection :=
  mkSelection (ps_owner_private s) (ps_remote_limit s) (ps_space s) (ps_person s) entry limit (ps_person_limit s)
    (ps_mode s) (ps_source s) (ps_computer_files s) (ps_computer_roots s) (ps_scope s) (ps_additional_roots s) (ps_blocked s) (ps_command_enabled s) (ps_generation s).
Definition sel_person (person entry limit mode : string) (s : PermissionSelection) : PermissionSelection :=
  mkSelection (ps_owner_private s) (ps_remote_limit s) (ps_space s) person entry (ps_space_limit s) limit
    mode (ps_source s) (ps_computer_files s) (ps_computer_roots s) (ps_scope s) (ps_additional_roots s) (ps_blocked s) (ps_command_enabled s) (ps_generation s).
Definition sel_remote (limit mode : string) (s : PermissionSelection) : PermissionSelection :=
  mkSelection (ps_owner_private s) limit (ps_space s) (ps_person s) (ps_entry s) (ps_space_limit s) (ps_person_limit s)
    mode (ps_source s) (ps_computer_files s) (ps_computer_roots s) (ps_scope s) (ps_additional_roots s) (ps_blocked s) (ps_command_enabled s) (ps_generation s).
Definition sel_files (computer : bool) (scope : string) (blocked : list string) (s : PermissionSelection) : PermissionSelection :=
  mkSelection (ps_owner_private s) (ps_remote_limit s) (ps_space s) (ps_person s) (ps_entry s) (ps_space_limit s) (ps_person_limit s)
    (ps_mode s) (ps_source s) computer (ps_computer_roots s) scope (ps_additional_roots s) blocked (ps_command_enabled s) (ps_generation s).

Section permission.
Context {H : Host} {D : Disk}.

(** ** Reading permissions *)

(** [GetConversation] (store.go), without the pin and the model. *)
Definition GetConversation (id : string) : M Conversation :=
  d ← query Datatypes.id;
  match find_conversation id d with
  | Some c => mret c
  | None => fail (EFmt "harness: session %q not found; use sessions to choose one, or omit --session to create one" [id])
  end.

(** [spacePermission]: decoding starts from the default, so that a missing
    space is the one asked for. *)
Definition spacePermission (space : string) : M PermissionSelection :=
  _ ← GetSpace space;
  found ← query (λ d, meta d !! permissionKey space);
  match found with
  | None => mret (no_permission space)
  | Some (MPermission s) =>
      let s := if bool_decide (ps_space s = "") then sel_space space s else s in
      _ ← guard_ (is_ok (selection_validate s) && bool_decide (ps_source s = "space") && bool_decide (ps_space s = space)) ErrStoreFormat;
      mret s
  | Some _ => fail ErrStoreFormat
  end.

(** [selectedPermission], [SelectedPermission]. *)
Definition selectedPermission (chat : string) : M PermissionSelection :=
  c ← GetConversation chat;
  spacePermission (cv_space c).
Definition SelectedPermission (e : Env) (chat : string) : M PermissionSelection :=
  s ← selectedPermission chat;
  mret (sel_generation (effectiveToolGeneration (ev_config e)) s).

(** [EffectiveExecutionProfile]. *)
Definition EffectiveExecutionProfile (e : Env) (chat : string) : M (ExecutionProfile * PermissionSelection) :=
  selection ← spacePermission LocalSpaceID;
  selection ← (if bool_decide (TrimSpace chat = "") then mret selection else SelectedPermission e chat);
  let selection := sel_generation (effectiveToolGeneration (ev_config e)) selection in
  profile ← lift (buildExecutionProfile (ev_config e) selection);
  mret (profile, selection).

(** [PersonPermission]. *)
Definition PersonPermission (id : string) : M PersonPermission :=
  _ ← guard_ (validPersonID id) ErrPermissionDenied;
  found ← query (λ d, meta d !! personKey id);
  match found with
  | None => mret (mkPerson id "" PermissionNone "")
  | Some (MPerson p) =>
      _ ← guard_ (bool_decide (pp_id p = id) && is_ok (permission_Validate (pp_mode p))) ErrStoreFormat;
      mret p
  | Some _ => fail ErrStoreFormat
  end.

(** ** Reducing a permission stops the commands that rely on it *)

(** The loop of [stopPermissionCommands]: the commands asked to stop, and the
    errors met. *)
Fixpoint stop_commands (sup : Supervisor) (space person : string) (l : list CommandRecord) : M (list string * list error) :=
  match l with
  | [] => mret ([], [])
  | c :: l =>
      if negb (bool_decide (cmd_state c = "running")) && negb (bool_decide (cmd_state c = "stopping"))
      then stop_commands sup space person l
      else
        run ← query (find_run (cmd_run c));
        rest ← stop_commands sup space person l;
        match run with
        | None => mret (rest.1, ErrNoRows :: rest.2)
        | Some r =>
            match rc_permission (run_config r) with
            | None => mret rest
            | Some p =>
                if negb (bool_decide (space = "")) && bool_decide (ps_space p = space)
                   || negb (bool_decide (person = "")) && bool_decide (ps_person p = person)
                then mret (cmd_id c :: rest.1,
                           match sup_stop sup (cmd_id c) with Some e => EWrap e ["command"; cmd_id c] :: rest.2 | None => rest.2 end)
                else mret rest
            end
        end
  end.
(** [stopPermissionCommands]: the commands asked to stop, and the error. *)
Definition stopPermissionCommands (sup : Supervisor) (space person : string) : M (list string * option error) :=
  match sup_list sup with
  | None => mret ([], None)
  | Some (Err e) => mret ([], Some e)
  | Some (Ok l) =>
      r ← stop_commands sup space person l;
      mret (r.1, match r.2 with [] => None | errs => Some (EJoin errs) end)
  end.

(** ** Changing permissions *)

(** [persistSpacePermission]. *)
Definition persistSpacePermission (sup : Supervisor) (space : string) (next : PermissionSelection) : M (list string * option error) :=
  before ← spacePermission space;
  _ ← guard_ (is_ok (selection_validate next) && bool_decide (ps_space next = space) && bool_decide (ps_source next = "space")) ErrInvalidSpace;
  _ ← (if ps_owner_private next then
         s ← query (find_space space);
         guard_ (match s with Some s => negb (bool_decide (TrimSpace space = "")) && bool_decide (sp_kind s = "private") | None => false end)
           ErrPermissionDenied
       else mret tt);
  _ ← meta_upsert (permissionKey space) (MPermission next);
  if (permissionRank (ps_mode next) <? permissionRank (ps_mode before))%Z
  then stopPermissionCommands sup space "" else mret ([], None).

(** Full access has to be confirmed when it is new. *)
Definition full_confirmed (mode previous : string) (confirmed : bool) : M unit :=
  guard_ (negb (bool_decide (mode = PermissionFull) && negb (bool_decide (previous = PermissionFull)) && negb confirmed))
    ErrFullAccessConfirmation.

(** [SetSpacePermission]. *)
Definition SetSpacePermission (sup : Supervisor) (space mode : string) (confirmed : bool) : M (list string * option error) :=
  _ ← lift (permission_Validate mode);
  previous ← spacePermission space;
  _ ← full_confirmed mode (ps_mode previous) confirmed;
  persistSpacePermission sup space (sel_mode mode (ps_source previous) previous).

(** [SetPersonPermission]. *)
Definition SetPersonPermission (sup : Supervisor) (id name mode : string) (confirmed : bool) : M (list string * option error) :=
  _ ← guard_ (negb (negb (validPersonID id) || (128 <? RuneCount name)%nat || hasControl name)) ErrPermissionDenied;
  _ ← lift (permission_Validate mode);
  previous ← PersonPermission id;
  _ ← full_confirmed mode (pp_mode previous) confirmed;
  now ← nowText;
  _ ← meta_upsert (personKey id) (MPerson (mkPerson id name mode now));
  if (permissionRank mode <? permissionRank (pp_mode previous))%Z
  then stopPermissionCommands sup "" id else mret ([], None).

(** [SelectPermission]. *)
Definition SelectPermission (e : Env) (sup : Supervisor) (chat mode : string) (confirmed : bool) : M (list string * option error) :=
  _ ← lift (permission_Validate mode);
  selected ← SelectedPermission e chat;
  _ ← full_confirmed mode (ps_mode selected) confirmed;
  persistSpacePermission sup (ps_space selected) (sel_generation (effectiveToolGeneration (ev_config e)) (sel_mode mode "space" selected)).

(** [SelectPermissionWithFiles]. *)
Definition SelectPermissionWithFiles (e : Env) (sup : Supervisor) (chat mode : string) (confirmed computerFiles : bool) (roots : list string)
    : M (list string * option error) :=
  _ ← lift (permission_Validate mode);
  selected ← SelectedPermission e chat;
  _ ← full_confirmed mode (ps_mode selected) confirmed;
  let config := ev_config e in
  roots ← (if computerFiles then
             _ ← guard_ (cf_computer_files config) ErrComputerFilesDisabled;
             let roots := if bool_decide (roots = []) then cf_computer_roots config else roots in
             _ ← guard_ (negb (bool_decide (roots = []))) ErrComputerRootsRequired;
             _ ← lift (validateComputerRoots (ev_data_dir e) roots);
             _ ← guard_ (forallb (λ root, existsb (λ c, EqualFold (Clean root) (Clean c)) (cf_computer_roots config)) roots) ErrPathNotAllowed;
             mret roots
           else mret roots);
  persistSpacePermission sup (ps_space selected)
    (mkSelection false "" (ps_space selected) "" "" "" "" mode "space" computerFiles roots
       (if computerFiles then FileScopeSelectedRoots else FileScopeWorkspace) [] [] None (effectiveToolGeneration config)).

(** [prepareExecutionProfileSelection]. *)
Definition prepareExecutionProfileSelection (e : Env) (s : PermissionSelection) : res PermissionSelection :=
  let s := sel_mode (ps_mode s) "space" s in
  let config := ev_config e in
  _ ← selection_validate s;
  let allowed := cf_computer_roots config ++ es_roots (effectiveExecutionSettings config) in
  let requested := ps_computer_roots s ++ ps_additional_roots s in
  _ ← (if bool_decide (requested = []) then Ok tt
       else _ ← validateComputerRoots (ev_data_dir e) requested;
            check (forallb (containsPath allowed) requested) ErrPathNotAllowed);
  blocked ← normalizeBlockedPaths (ps_blocked s);
  let scope := if bool_decide (ps_scope s = "")
               then (if bool_decide (requested = []) then FileScopeWorkspace else FileScopeSelectedRoots) else ps_scope s in
  let s := sel_generation (effectiveToolGeneration config)
             (sel_files (negb (bool_decide (scope = FileScopeWorkspace)) || ps_computer_files s) scope blocked s) in
  _ ← buildExecutionProfile config s;
  Ok s.

(** [SelectExecutionProfile]. *)
Definition SelectExecutionProfile (e : Env) (sup : Supervisor) (chat : string) (s : PermissionSelection) (confirmed : bool)
    : M (list string * option error) :=
  previous ← SelectedPermission e chat;
  _ ← full_confirmed (ps_mode s) (ps_mode previous) confirmed;
  s ← lift (prepareExecutionProfileSelection e s);
  persistSpacePermission sup (ps_space previous) (sel_space (ps_space previous) s).

(** ** The permission a run freezes *)

(** [resolvePermission]: the selection the service keeps for the run. *)
Definition resolvePermission (e : Env) (chat mode : string) (confirmed : bool) : M PermissionSelection :=
  selected ← selectedPermission chat;
  space ← GetSpace (ps_space selected);
  let selected := sel_space_limit (ps_mode selected) (sp_source space) selected in
  selected ← (if bool_decide (mode = "") then mret selected
              else
                _ ← lift (permission_Validate mode);
                _ ← full_confirmed mode (ps_mode selected) confirmed;
                mret (sel_mode (lowerPermission (ps_mode selected) mode) "turn" selected));
  _ ← (if ps_computer_files selected then
         _ ← lift (validateComputerRoots (ev_data_dir e) (ps_computer_roots selected));
         guard_ (cf_computer_files (ev_config e) && sameRootSet (ps_computer_roots selected) (cf_computer_roots (ev_config e))) ErrPathNotAllowed
       else mret tt);
  let selected := sel_files (ps_computer_files selected || negb (bool_decide (ps_scope selected = "")) && negb (bool_decide (ps_scope selected = FileScopeWorkspace)))
                    (ps_scope selected) (ps_blocked selected) selected in
  selected ← (if ev_remote e then
                _ ← guard_ (ev_public_enabled e) ErrPermissionDenied;
                mret (sel_remote (ev_public_max e) (lowerPermission (ps_mode selected) (ev_public_max e)) selected)
              else mret selected);
  _ ← lift (buildExecutionProfile (ev_config e) selected);
  mret (sel_generation (effectiveToolGeneration (ev_config e)) selected).

(** [resolveRequestPermission]. *)
Definition resolveRequestPermission (e : Env) (chat person entry : string) : M PermissionSelection :=
  selected ← resolvePermission e chat "" false;
  p ← (if bool_decide (person = "") then mret (mkPerson "" "" PermissionNone "") else PersonPermission person);
  mret (sel_person person entry (pp_mode p) (lowerPermission (ps_mode selected) (pp_mode p)) selected).

(** ** Access to Telegram (telegram_access.go) *)

(** [telegramNumeric]: the decimal text of a nonzero int64. *)
Definition telegramNumeric (value : string) (positive : bool) : bool :=
  match NilEmpty.int_of_string value with
  | Some i =>
      let n := Z.of_int i in
      (- 2 ^ 63 <=? n)%Z && (n <? 2 ^ 63)%Z && negb (n =? 0)%Z && (negb positive || (0 <? n)%Z) && bool_decide (decimal n = value)
  | None => false
  end.
Definition validTelegramPerson (person : string) : bool :=
  HasPrefix person "telegram:user:" && telegramNumeric (TrimPrefix person "telegram:user:") true.
Definition validTelegramTarget (t : ChannelTarget) : bool :=
  bool_decide (ct_source t = "telegram") && telegramNumeric (ct_application t) true && telegramNumeric (ct_chat t) false.
Definition telegramAccessKey (t : ChannelTarget) : string := "telegram/access/" +:+ target_key t.

(** [telegramAccessRaw]: the grant, and the stored row. *)
Definition telegramAccessRaw (target : ChannelTarget) : M (TelegramAccess * option MetaValue) :=
  found ← query (λ d, meta d !! telegramAccessKey target);
  match found with
  | None => mret (mkAccess target "" "" false false [] 0 "", None)
  | Some (MAccess g) =>
      _ ← guard_ (bool_decide (ta_target g = target) && negb (ta_revision g =? 0)%Z) ErrStoreFormat;
      mret (g, found)
  | Some _ => fail ErrStoreFormat
  end.

(** [ChannelSpace] (channel_messages.go). *)
Definition ChannelSpace (target : ChannelTarget) : M Space :=
  _ ← guard_ (target_valid target) ErrInvalidSpace;
  scanSpace (find_external (ct_source target) (target_key target)).

(** [CheckTelegramAccess]. *)
Definition no_access : TelegramAccess := mkAccess (mkChannelTarget "" "" "") "" "" false false [] 0 "".
Definition CheckTelegramAccess (target : ChannelTarget) (person : string) : M TelegramAccess :=
  if negb (bool_decide (ct_source target = "telegram")) then mret no_access
  else
    _ ← guard_ (validTelegramTarget target && validTelegramPerson person) ErrPermissionDenied;
    g ← telegramAccessRaw target;
    let grant := g.1 in
    _ ← guard_ (ta_enabled grant && (ta_whole_group grant || bool_decide (person ∈ ta_members grant))) ErrPermissionDenied;
    d ← query id;
    _ ← guard_ (target_valid target && match find_external (ct_source target) (target_key target) d with
                | Some s => bool_decide (sp_id s = ta_space grant) && bool_decide (sp_kind s = ta_kind grant)
                | None => false end) ErrPermissionDenied;
    mret grant.

(** [checkTelegramRun]. *)
Definition checkTelegramRun (e : Env) (run : Run) : M unit :=
  match rc_channel (run_config run) with
  | None => mret tt
  | Some origin =>
      if negb (bool_decide (ct_source (co_target origin) = "telegram")) then mret tt
      else match rc_permission (run_config run) with
      | None => fail ErrPermissionDenied
      | Some p =>
          if bool_decide (ps_person p = "") then mret tt
          else
            _ ← guard_ (negb ((0 <? size (ev_bots e))%nat && bool_decide (ct_application (co_target origin) ∉ ev_bots e))) ErrPermissionRevoked;
            grant ← or_else (CheckTelegramAccess (co_target origin) (ps_person p)) ErrPermissionRevoked;
            guard_ (negb (co_revision origin =? 0)%Z && (ta_revision grant =? co_revision origin)%Z) ErrPermissionRevoked
      end
  end.

(** [telegramDeliveryGrant]. *)
Definition telegramDeliveryGrant (target : ChannelTarget) (person : string) (local : bool) : M TelegramAccess :=
  if negb local then CheckTelegramAccess target person
  else
    _ ← guard_ (bool_decide (person = "")) ErrPermissionDenied;
    g ← telegramAccessRaw target;
    _ ← guard_ (ta_enabled g.1 && negb (ta_revision g.1 =? 0)%Z) ErrPermissionDenied;
    mret g.1.

(** [checkCurrentPermission]: [selected] is the service's permission,
    [remoteEntry] whether the service serves a remote request. *)
Definition checkCurrentPermission (e : Env) (remoteEntry : bool) (selected : option PermissionSelection) (run : Run) : M unit :=
  _ ← checkTelegramRun e run;
  match selected with
  | None => mret tt
  | Some s =>
      if bool_decide (ps_space s = "") then mret tt
      else
        _ ← (if bool_decide (run_conversation run = "") then mret tt
             else c ← GetConversation (run_conversation run);
                  guard_ (bool_decide (cv_space c = ps_space s)) ErrPermissionRevoked);
        space ← spacePermission (ps_space s);
        _ ← guard_ (negb (ps_owner_private s) || ps_owner_private space) ErrPermissionRevoked;
        let current := ps_mode space in
        let current := if bool_decide (ps_remote_limit s = "") then current
                       else lowerPermission current (lowerPermission (ps_remote_limit s) (ev_public_max e)) in
        let current := if ev_remote e || remoteEntry then lowerPermission current (ev_public_max e) else current in
        current ← (if bool_decide (ps_person s = "") then mret current
                   else p ← PersonPermission (ps_person s); mret (lowerPermission current (pp_mode p)));
        guard_ (negb (permissionRank current <? permissionRank (ps_mode s))%Z) ErrPermissionRevoked
  end.
End permission.

(** [operationsDenied], [spaceContext], [scopedHistory], [publicMessages] and
    [projectPublicMessages] (channel_messages.go): what of a history a run may
    see. *)
Definition operationsDenied (p : option PermissionSelection) : bool :=
  match p with Some p => bool_decide (ps_mode p = PermissionNone) | None => false end.
Definition spaceContext (p : option PermissionSelection) : bool :=
  match p with Some p => negb (bool_decide (ps_space p = "")) && negb (bool_decide (ps_space p = LocalSpaceID)) | None => false end.
Definition scopedHistory (p : option PermissionSelection) : bool :=
  operationsDenied p || spaceContext p && match p with Some p => negb (ps_owner_private p) | None => false end.
Definition public_text (m : Message) : option Message :=
  let b := msg_body m in
  if negb (bool_decide (mm_role b = "user")) && negb (bool_decide (mm_role b = "assistant")) then None
  else if bool_decide (mm_content b = "") then None
  else Some (mkMessage (msg_id m) (msg_conversation m) (msg_run m) (msg_request_key m)
               (mkModelMessage false (mm_attachments b) (mm_channel b) (mm_public b) (mm_role b) (mm_content b) "" "" [])).
Definition publicMessages (l : list Message) : list Message := omap public_text l.
Definition projectPublicMessages (p : option PermissionSelection) (l : list Message) : list Message :=
  if negb (spaceContext p) then publicMessages l
  else concat (map (λ m, publicMessages [m])
         (filter (λ m, mm_public (msg_body m) && negb (match mm_channel (msg_body m) with
                        | Some s => bool_decide (cs_purpose s = "command") | None => false end) = true) l)).
