(* ===== verification/PermissionProps.v ===== *)
(** * What permissions guarantee

    A run never starts above the permission of its space, its requester or the
    remote entrance; Full access is never gained without a confirmation; and a
    reduced permission stops every later call of the runs that relied on it. *)

From S2P Require Import Prelude Text Data Sql Store StoreInv Space SpaceInv StoreProps SpaceProps Workspace Profile ProfileProps FilePolicy FilePolicyProps Permission.
Local Open Scope Z_scope.

(** ** The order of permissions *)
Lemma permissionRank_valid m : permission_Validate m = Ok tt → 0 <= permissionRank m.
Proof.
  unfold permission_Validate, one_of. intros Hm%check_ok%bool_decide_eq_true. unfold permissionRank.
  repeat case_bool_decide; try lia. set_solver.
Qed.
Lemma rank_lower a b : permissionRank (lowerPermission a b) =
  if (permissionRank a <? 0) || (permissionRank b <? 0) then 0 else Z.min (permissionRank a) (permissionRank b).
Proof.
  unfold lowerPermission. destruct (_ || _) eqn:E; [done|]. destruct (Z.ltb_spec (permissionRank a) (permissionRank b)); lia.
Qed.
Lemma rank_lower_pos a b : 0 <= permissionRank a → permissionRank (lowerPermission a b) = Z.min (permissionRank a) (Z.max 0 (permissionRank b)).
Proof. intros Ha. rewrite rank_lower. destruct (Z.ltb_spec (permissionRank a) 0), (Z.ltb_spec (permissionRank b) 0); simpl; lia. Qed.
Lemma is_ok_tt (r : res unit) : is_ok r = true ↔ r = Ok tt.
Proof. destruct r as [[]|]; naive_solver. Qed.

(** The permission a database holds for a space and for a person. *)
Definition space_mode (d : db) (space : string) : string :=
  match meta d !! permissionKey space with Some (MPermission s) => ps_mode s | _ => PermissionNone end.
Definition person_mode (d : db) (person : string) : string :=
  match meta d !! personKey person with Some (MPerson p) => pp_mode p | _ => PermissionNone end.

(** ** Reading *)
Definition Reads {A} (m : M A) : Prop := ∀ w, (m w).2 = w.
Lemma reads_ret {A} (a : A) : Reads (mret a). Proof. done. Qed.
Lemma reads_fail {A} e : Reads (A:=A) (fail e). Proof. done. Qed.
Lemma reads_query {A} (f : db → A) : Reads (query f). Proof. done. Qed.
Lemma reads_lift {A} (r : res A) : Reads (lift r). Proof. done. Qed.
Lemma reads_guard b e : Reads (guard_ b e). Proof. by destruct b. Qed.
Lemma reads_bind {A B} (m : M A) (f : A → M B) : Reads m → (∀ a, Reads (f a)) → Reads (m ≫= f).
Proof.
  intros Hm Hf w. unfold mbind, M_bind. specialize (Hm w). destruct (m w) as [[a|e] w1]; simpl in *; subst; [apply Hf|done].
Qed.
Lemma reads_query_row {A} (f : db → option A) : Reads (query_row f). Proof. done. Qed.
Lemma reads_outcome {A} (m : M A) : Reads m → Reads (outcome m).
Proof. intros Hm w. specialize (Hm w). unfold outcome. by destruct (m w). Qed.
Lemma reads_steps {C : relation db → Prop} `{!Closed C} {A} (m : M A) : Reads m → Along C m.
Proof. intros Hm. apply along_same. intros w. by rewrite Hm. Qed.
Lemma steps_or_else {C : relation db → Prop} `{!Closed C} {A} (m : M A) e : Along C m → Along C (or_else m e).
Proof. intros Hm R HR w. specialize (Hm R HR w). unfold or_else. by destruct (m w) as [[]]. Qed.
Lemma steps_outcome_any {C : relation db → Prop} `{!Closed C} {A} (m : M A) : Along C m → Along C (outcome m).
Proof. intros Hm R HR w. specialize (Hm R HR w). unfold outcome. by destruct (m w). Qed.
Lemma reads_or_else {A} (m : M A) e : Reads m → Reads (or_else m e).
Proof. intros Hm w. unfold or_else. specialize (Hm w). by destruct (m w) as [[a|?] w1]. Qed.
Create HintDb reads.
#[export] Hint Resolve reads_ret reads_fail reads_query reads_lift reads_guard reads_or_else reads_query_row reads_outcome : reads.
Ltac solve_reads := repeat (intros; match goal with
  | |- Reads (mbind _ _) => apply reads_bind; [|intros ?]
  | |- Reads (if ?b then _ else _) => destruct b
  | |- Reads (match ?x with _ => _ end) => destruct x
  | |- _ => solve [eauto with reads]
  end).
Lemma reads_ok {A} (m : M A) r w w' : Reads m → m w = (r, w') → w' = w.
Proof. intros Hm E. specialize (Hm w). by rewrite E in Hm. Qed.

Section methods.
Context {H : Host} {D : Disk}.

Lemma reads_scanSpace f : Reads (scanSpace f).
Proof. unfold scanSpace. solve_reads. Qed.
Lemma reads_GetSpace i : Reads (GetSpace i).
Proof. unfold GetSpace. solve_reads. apply reads_scanSpace. Qed.
#[local] Hint Resolve reads_scanSpace reads_GetSpace : reads.
Lemma reads_GetConversation i : Reads (GetConversation i).
Proof. unfold GetConversation. solve_reads. Qed.
Lemma reads_spacePermission i : Reads (spacePermission i).
Proof. unfold spacePermission. solve_reads. Qed.
#[local] Hint Resolve reads_GetConversation reads_spacePermission : reads.
Lemma reads_selectedPermission c : Reads (selectedPermission c).
Proof. unfold selectedPermission. solve_reads. Qed.
#[local] Hint Resolve reads_selectedPermission : reads.
Lemma reads_SelectedPermission e c : Reads (SelectedPermission e c).
Proof. unfold SelectedPermission. solve_reads. Qed.
Lemma reads_PersonPermission i : Reads (Permission.PersonPermission i).
Proof. unfold Permission.PersonPermission. solve_reads. Qed.
#[local] Hint Resolve reads_SelectedPermission reads_PersonPermission : reads.
Lemma reads_full_confirmed m p c : Reads (full_confirmed m p c).
Proof. apply reads_guard. Qed.
#[local] Hint Resolve reads_full_confirmed : reads.
Lemma reads_resolvePermission e c m k : Reads (resolvePermission e c m k).
Proof. unfold resolvePermission. solve_reads. Qed.
Lemma reads_telegramAccessRaw t : Reads (telegramAccessRaw t).
Proof. unfold telegramAccessRaw. solve_reads. Qed.
#[local] Hint Resolve reads_telegramAccessRaw : reads.
Lemma reads_CheckTelegramAccess t p : Reads (CheckTelegramAccess t p).
Proof. unfold CheckTelegramAccess. solve_reads. Qed.
#[local] Hint Resolve reads_CheckTelegramAccess : reads.
Lemma reads_checkTelegramRun e r : Reads (checkTelegramRun e r).
Proof. unfold checkTelegramRun. solve_reads. Qed.
#[local] Hint Resolve reads_checkTelegramRun : reads.
Lemma reads_checkCurrentPermission e b s r : Reads (checkCurrentPermission e b s r).
Proof. unfold checkCurrentPermission. solve_reads. Qed.
Lemma reads_stop_commands sup s p l : Reads (stop_commands sup s p l).
Proof. induction l; simpl; solve_reads; done. Qed.
#[local] Hint Resolve reads_stop_commands : reads.
Lemma reads_stopPermissionCommands sup s p : Reads (stopPermissionCommands sup s p).
Proof. unfold stopPermissionCommands. solve_reads. Qed.

Lemma selection_validate_mode s : selection_validate s = Ok tt → permission_Validate (ps_mode s) = Ok tt.
Proof. unfold selection_validate. intros Hv. repeat (apply res_bind_ok in Hv as ([] & ? & Hv)). done. Qed.

Lemma spacePermission_ok i s w w' : spacePermission i w = (Ok s, w') →
  w' = w ∧ ps_space s = i ∧ ps_source s = "space" ∧ ps_mode s = space_mode (w_db w) i ∧ 0 <= permissionRank (ps_mode s).
Proof.
  intros Hm. pose proof (reads_ok _ _ _ _ (reads_spacePermission i) Hm) as ->. split; [done|].
  unfold spacePermission in Hm. apply bind_ok in Hm as (sp & w1 & Hg & Hm).
  apply (reads_ok _ _ _ _ (reads_GetSpace i)) in Hg as ->. rewrite bind_query in Hm. unfold space_mode.
  destruct (meta (w_db w) !! permissionKey i) as [v|]; [|apply ret_ok in Hm as [<- _]; done].
  destruct v; try done. set (q := if bool_decide _ then _ else _) in Hm.
  apply bind_ok in Hm as ([] & w1 & [Hg <-]%guard_ok & [<- _]%ret_ok). bool_prop.
  match goal with Hv : is_ok _ = true |- _ => apply is_ok_tt, selection_validate_mode, permissionRank_valid in Hv end.
  split; [done|split; [done|split; [|done]]]. unfold q. by destruct (bool_decide _).
Qed.
Lemma PersonPermission_ok i p w w' : Permission.PersonPermission i w = (Ok p, w') →
  w' = w ∧ pp_mode p = person_mode (w_db w) i ∧ 0 <= permissionRank (pp_mode p).
Proof.
  intros Hm. pose proof (reads_ok _ _ _ _ (reads_PersonPermission i) Hm) as ->. split; [done|].
  unfold Permission.PersonPermission in Hm. apply bind_ok in Hm as ([] & w1 & [_ <-]%guard_ok & Hm). rewrite bind_query in Hm.
  unfold person_mode. destruct (meta (w_db w) !! personKey i) as [v|]; [|apply ret_ok in Hm as [<- _]; done].
  destruct v; try done. apply bind_ok in Hm as ([] & w1 & [Hg <-]%guard_ok & [<- _]%ret_ok). bool_prop.
  match goal with Hv : is_ok _ = true |- _ => apply is_ok_tt, permissionRank_valid in Hv end. done.
Qed.
Lemma selectedPermission_ok chat s w w' : selectedPermission chat w = (Ok s, w') →
  w' = w ∧ ∃ c, find_conversation chat (w_db w) = Some c ∧ ps_space s = cv_space c ∧ ps_source s = "space" ∧
    ps_mode s = space_mode (w_db w) (cv_space c) ∧ 0 <= permissionRank (ps_mode s).
Proof.
  unfold selectedPermission. intros Hm. apply bind_ok in Hm as (c & w1 & Hc & Hm). unfold GetConversation in Hc. rewrite bind_query in Hc.
  unfold id in Hc. destruct (find_conversation chat (w_db w)) as [c'|] eqn:Ec; [|done]. apply ret_ok in Hc as [-> <-].
  apply spacePermission_ok in Hm as (-> & Hs & Hsrc & Hmode & Hr). split; [done|]. exists c. done.
Qed.

(** ** The permission of a run *)

(** The rank a remote request may have at most. *)
Definition remote_rank (e : Env) : Z := if ev_remote e then Z.max 0 (permissionRank (ev_public_max e)) else 3.

Lemma resolvePermission_ok e chat mode confirmed s w w' : resolvePermission e chat mode confirmed w = (Ok s, w') →
  w' = w ∧ ∃ c, find_conversation chat (w_db w) = Some c ∧ ps_space s = cv_space c ∧
    ps_space_limit s = space_mode (w_db w) (cv_space c) ∧ (ev_remote e = true → ev_public_enabled e = true ∧ ps_remote_limit s = ev_public_max e) ∧
    0 <= permissionRank (space_mode (w_db w) (cv_space c)) ∧ (mode ≠ "" → 0 <= permissionRank mode) ∧
    permissionRank (ps_mode s) = Z.min (permissionRank (space_mode (w_db w) (cv_space c)))
      (Z.min (if bool_decide (mode = "") then 3 else permissionRank mode) (remote_rank e)).
Proof.
  intros Hm. pose proof (reads_ok _ _ _ _ (reads_resolvePermission e chat mode confirmed) Hm) as ->. split; [done|].
  unfold resolvePermission in Hm. apply bind_ok in Hm as (s0 & w1 & H0 & Hm).
  apply selectedPermission_ok in H0 as (-> & c & Hc & Hsp & Hsrc & Hmode & Hrank). exists c. split; [done|].
  apply bind_ok in Hm as (sp & w1 & Hg & Hm). apply (reads_ok _ _ _ _ (reads_GetSpace _)) in Hg as ->.
  apply bind_ok in Hm as (s1 & w1 & H1 & Hm).
  assert (Hs1 : w1 = w ∧ ps_space s1 = cv_space c ∧ ps_space_limit s1 = ps_mode s0 ∧ (mode ≠ "" → 0 <= permissionRank mode) ∧
    permissionRank (ps_mode s1) = Z.min (permissionRank (ps_mode s0)) (if bool_decide (mode = "") then 3 else permissionRank mode)).
  { pose proof (permissionRank_max (ps_mode s0)). destruct (decide (mode = "")) as [Em|Em].
    1: rewrite (bool_decide_eq_true_2 _ Em) in *. 2: rewrite (bool_decide_eq_false_2 _ Em) in *.
    - apply ret_ok in H1 as [<- <-]. split_and!; try done. simpl. lia.
    - apply bind_ok in H1 as ([] & w2 & [Hv%permissionRank_valid <-]%lift_ok & H1).
      apply bind_ok in H1 as ([] & w2 & [_ <-]%guard_ok & [<- <-]%ret_ok). split_and!; try done. simpl. rewrite rank_lower_pos by done. lia. }
  clear H1. destruct Hs1 as (-> & Es & El & Hmv & Er).
  apply bind_ok in Hm as ([] & w1 & Hf & Hm).
  assert (w1 = w) as ->. { eapply reads_ok; [|exact Hf]. solve_reads. } clear Hf.
  apply bind_ok in Hm as (s2 & w1 & H2 & Hm).
  apply bind_ok in Hm as (prof & w2 & [_ ->]%lift_ok & [<- _]%ret_ok).
  unfold remote_rank. destruct (ev_remote e).
  - apply bind_ok in H2 as ([] & w3 & [Hen <-]%guard_ok & [<- _]%ret_ok). simpl.
    assert (Hr1 : 0 <= permissionRank (ps_mode s1)). { rewrite Er. case_bool_decide as Em; [lia|]. specialize (Hmv Em). lia. }
    rewrite rank_lower_pos, Er, Hmode by done. rewrite <- Hmode. split_and!; try done; try congruence. lia.
  - apply ret_ok in H2 as [<- _]. simpl. rewrite Er, <- Hmode. pose proof (permissionRank_max mode). split_and!; try done; try congruence.
    case_bool_decide; lia.
Qed.

(** C22: A run never starts above what it was granted. For a local turn the
    frozen permission is the lowest of the space's, the turn's own choice
    (confirmed or not) and, through the remote entrance, its ceiling; for a
    request from a channel it is the lowest of the space's, that ceiling and the
    permission of the verified person, and none at all for an unknown one.
    Resolving changes nothing. *)
Theorem resolved_permission_lowest e chat s w w' :
  (∀ mode confirmed, resolvePermission e chat mode confirmed w = (Ok s, w') →
     w' = w ∧ ∃ c, find_conversation chat (w_db w) = Some c ∧ ps_space s = cv_space c ∧
       permissionRank (ps_mode s) = Z.min (permissionRank (space_mode (w_db w) (cv_space c)))
         (Z.min (if bool_decide (mode = "") then 3 else permissionRank mode) (remote_rank e))) ∧
  (∀ person entry, resolveRequestPermission e chat person entry w = (Ok s, w') →
     w' = w ∧ ∃ c, find_conversation chat (w_db w) = Some c ∧ ps_space s = cv_space c ∧ ps_person s = person ∧
       permissionRank (ps_mode s) = Z.min (permissionRank (space_mode (w_db w) (cv_space c)))
         (Z.min (remote_rank e) (if bool_decide (person = "") then 0 else permissionRank (person_mode (w_db w) person)))).
Proof.
  split; intros a b Hm.
  { apply resolvePermission_ok in Hm as (-> & c & Hc & Hs & _ & _ & _ & _ & Hr). split; [done|]. by exists c. }
  unfold resolveRequestPermission in Hm. apply bind_ok in Hm as (s1 & w1 & H1 & Hm).
  apply resolvePermission_ok in H1 as (-> & c & Hc & Hs & _ & _ & Hpos & _ & Hr).
  rewrite bool_decide_eq_true_2 in Hr by done. apply bind_ok in Hm as (p & w1 & Hp & [<- <-]%ret_ok). simpl.
  assert (0 <= remote_rank e) by (unfold remote_rank; destruct (ev_remote e); lia).
  assert (Hp' : w1 = w ∧ permissionRank (pp_mode p) = if bool_decide (a = "") then 0 else permissionRank (person_mode (w_db w) a)).
  { destruct (decide (a = "")) as [Ea|Ea].
    - rewrite (bool_decide_eq_true_2 _ Ea) in *. by apply ret_ok in Hp as [<- <-].
    - rewrite (bool_decide_eq_false_2 _ Ea) in *. by apply PersonPermission_ok in Hp as (-> & -> & _). }
  assert (Hp0 : 0 <= permissionRank (pp_mode p)).
  { destruct (decide (a = "")) as [Ea|Ea].
    - rewrite (bool_decide_eq_true_2 _ Ea) in Hp. by apply ret_ok in Hp as [<- _].
    - rewrite (bool_decide_eq_false_2 _ Ea) in Hp. by apply PersonPermission_ok in Hp as (_ & _ & ?). }
  destruct Hp' as [-> Ep]. split; [done|]. exists c. split_and!; try done.
  pose proof (permissionRank_max (space_mode (w_db w) (cv_space c))). rewrite rank_lower_pos by (rewrite ?Hr; lia). rewrite Hr, <- Ep. lia.
Qed.

(** ** A permission that is reduced *)

(** The check before a call bounds the frozen permission by what the space and
    the person have now. *)
Lemma checkCurrentPermission_ok e entry s run w w' :
  checkCurrentPermission e entry (Some s) run w = (Ok tt, w') → ps_space s ≠ "" →
  w' = w ∧ permissionRank (ps_mode s) <= permissionRank (space_mode (w_db w) (ps_space s)) ∧
  (ps_person s ≠ "" → permissionRank (ps_mode s) <= permissionRank (person_mode (w_db w) (ps_person s))) ∧
  (ev_remote e || entry = true → permissionRank (ps_mode s) <= Z.max 0 (permissionRank (ev_public_max e))) ∧
  (run_conversation run ≠ "" → ∃ c, find_conversation (run_conversation run) (w_db w) = Some c ∧ cv_space c = ps_space s).
Proof.
  intros Hm Hn. pose proof (reads_ok _ _ _ _ (reads_checkCurrentPermission e entry (Some s) run) Hm) as ->. split; [done|].
  unfold checkCurrentPermission in Hm. apply bind_ok in Hm as ([] & w1 & Ht & Hm).
  apply (reads_ok _ _ _ _ (reads_checkTelegramRun e run)) in Ht as ->.
  rewrite (bool_decide_eq_false_2 _ Hn) in Hm. apply bind_ok in Hm as ([] & w1 & Hc & Hm).
  assert (w1 = w ∧ (run_conversation run ≠ "" → ∃ c, find_conversation (run_conversation run) (w_db w) = Some c ∧ cv_space c = ps_space s)) as [-> Hconv].
  { destruct (decide (run_conversation run = "")) as [E|E].
    - rewrite (bool_decide_eq_true_2 _ E) in Hc. by apply ret_ok in Hc as [_ <-].
    - rewrite (bool_decide_eq_false_2 _ E) in Hc. apply bind_ok in Hc as (c & w2 & Hg & [Hs%bool_decide_eq_true <-]%guard_ok).
      unfold GetConversation in Hg. rewrite bind_query in Hg. destruct (find_conversation _ _) eqn:Ef; [|done].
      apply ret_ok in Hg as [-> <-]. split; [done|]. by exists c. }
  apply bind_ok in Hm as (sp & w1 & Hs & Hm). apply spacePermission_ok in Hs as (-> & _ & _ & Emode & Hpos).
  apply bind_ok in Hm as ([] & w1 & [_ <-]%guard_ok & Hm). rewrite <- Emode.
  set (c1 := if bool_decide (ps_remote_limit s = "") then _ else _) in Hm.
  assert (Hc1 : 0 <= permissionRank c1 <= permissionRank (ps_mode sp)).
  { unfold c1. destruct (bool_decide _); [lia|]. rewrite rank_lower_pos by done. lia. }
  set (c2 := if ev_remote e || entry then _ else _) in Hm.
  assert (Hc2 : 0 <= permissionRank c2 <= permissionRank c1 ∧ (ev_remote e || entry = true → permissionRank c2 <= Z.max 0 (permissionRank (ev_public_max e)))).
  { unfold c2. destruct (_ || _); [|lia]. rewrite rank_lower_pos by lia. lia. }
  apply bind_ok in Hm as (c3 & w1 & H3 & [Hle _]%guard_ok). bool_prop.
  assert (Hc3 : permissionRank c3 <= permissionRank c2 ∧ (ps_person s ≠ "" → permissionRank c3 <= permissionRank (person_mode (w_db w) (ps_person s)))).
  { destruct (decide (ps_person s = "")) as [E|E].
    - rewrite (bool_decide_eq_true_2 _ E) in H3. by apply ret_ok in H3 as [<- _].
    - rewrite (bool_decide_eq_false_2 _ E) in H3. apply bind_ok in H3 as (p & w2 & Hp & [<- _]%ret_ok).
      apply PersonPermission_ok in Hp as (_ & <- & Hp). rewrite rank_lower_pos by lia. lia. }
  split_and!; [lia| | |done]; intros Hx; [apply Hc3 in Hx|apply Hc2 in Hx]; lia.
Qed.

(** Every command of a run the permission governs is asked to stop. *)
Definition governs (space person : string) (d : db) (c : CommandRecord) : Prop :=
  cmd_state c ∈ ["running"; "stopping"] ∧ ∃ r p, find_run (cmd_run c) d = Some r ∧ rc_permission (run_config r) = Some p ∧
    (space ≠ "" ∧ ps_space p = space ∨ person ≠ "" ∧ ps_person p = person).
Lemma stop_commands_ok sup space person l r w w' : stop_commands sup space person l w = (Ok r, w') →
  ∀ c, c ∈ l → governs space person (w_db w) c → cmd_id c ∈ r.1.
Proof.
  revert r w w'. induction l as [|a l IH]; intros r w w' Hm c Hin Hg; [by apply elem_of_nil in Hin|]. simpl in Hm.
  apply elem_of_cons in Hin as [->|Hin].
  - destruct Hg as [Hst (rn & p & Hr & Hp & Hor)].
    assert (negb (bool_decide (cmd_state a = "running")) && negb (bool_decide (cmd_state a = "stopping")) = false) as Hb.
    { apply not_true_is_false. intros ?. bool_prop. set_solver. }
    rewrite Hb in Hm. rewrite bind_query in Hm. apply bind_ok in Hm as (rest & w1 & _ & Hm). rewrite Hr, Hp in Hm.
    assert (negb (bool_decide (space = "")) && bool_decide (ps_space p = space) || negb (bool_decide (person = "")) && bool_decide (ps_person p = person) = true) as Hb2.
    { destruct Hor as [[? ?]|[? ?]]; [rewrite (bool_decide_eq_false_2 (space = "")), (bool_decide_eq_true_2 (ps_space p = space)) by done; done|].
      rewrite (bool_decide_eq_false_2 (person = "")), (bool_decide_eq_true_2 (ps_person p = person)) by done. apply orb_true_r. }
    rewrite Hb2 in Hm. apply ret_ok in Hm as [<- _]. simpl. left.
  - destruct (_ && _); [by eapply IH|]. rewrite bind_query in Hm. apply bind_ok in Hm as (rest & w1 & Hrest & Hm).
    pose proof (IH _ _ _ Hrest c Hin Hg) as Hi.
    destruct (find_run _ _) as [rn|]; [|by apply ret_ok in Hm as [<- _]]. destruct (rc_permission _) as [p|]; [|by apply ret_ok in Hm as [<- _]].
    destruct (_ || _); apply ret_ok in Hm as [<- _]; [by right|done].
Qed.
Lemma stopPermissionCommands_ok sup space person r w w' : stopPermissionCommands sup space person w = (Ok r, w') →
  ∀ l c, sup_list sup = Some (Ok l) → c ∈ l → governs space person (w_db w) c → cmd_id c ∈ r.1.
Proof.
  unfold stopPermissionCommands. intros Hm l c El. rewrite El in Hm. apply bind_ok in Hm as (r' & w1 & Hs & [<- _]%ret_ok).
  by apply (stop_commands_ok _ _ _ _ _ _ _ Hs).
Qed.

(** ** Changing a permission *)
Lemma keys_apart i p : permissionKey i ≠ personKey p.
Proof. unfold permissionKey, personKey. simpl. done. Qed.
Lemma space_mode_insert d i j s : space_mode (set_meta (<[permissionKey i := MPermission s]> (meta d)) d) j =
  if decide (i = j) then ps_mode s else space_mode d j.
Proof.
  unfold space_mode. simpl. destruct (decide (i = j)) as [->|Hn]; [by rewrite lookup_insert_eq|].
  rewrite lookup_insert_ne; [done|]. unfold permissionKey. intros E. by simplify_eq.
Qed.
Lemma person_mode_insert d i j p : person_mode (set_meta (<[personKey i := MPerson p]> (meta d)) d) j =
  if decide (i = j) then pp_mode p else person_mode d j.
Proof.
  unfold person_mode. simpl. destruct (decide (i = j)) as [->|Hn]; [by rewrite lookup_insert_eq|].
  rewrite lookup_insert_ne; [done|]. unfold personKey. intros E. by simplify_eq.
Qed.
Lemma space_mode_person d i j p : space_mode (set_meta (<[personKey i := MPerson p]> (meta d)) d) j = space_mode d j.
Proof. unfold space_mode. simpl. rewrite lookup_insert_ne; [done|]. apply not_eq_sym, keys_apart. Qed.
Lemma person_mode_space d i j s : person_mode (set_meta (<[permissionKey i := MPermission s]> (meta d)) d) j = person_mode d j.
Proof. unfold person_mode. simpl. rewrite lookup_insert_ne; [done|]. apply keys_apart. Qed.

Lemma persistSpacePermission_ok sup i next r w w' : persistSpacePermission sup i next w = (Ok r, w') →
  w_db w' = set_meta (<[permissionKey i := MPermission next]> (meta (w_db w))) (w_db w) ∧ ps_space next = i ∧
  (permissionRank (ps_mode next) < permissionRank (space_mode (w_db w) i) →
     ∀ l c, sup_list sup = Some (Ok l) → c ∈ l → governs i "" (w_db w) c → cmd_id c ∈ r.1).
Proof.
  unfold persistSpacePermission. intros Hm. apply bind_ok in Hm as (before & w1 & Hb & Hm).
  apply spacePermission_ok in Hb as (-> & _ & _ & <- & _). apply bind_ok in Hm as ([] & w1 & [Hg <-]%guard_ok & Hm).
  apply bind_ok in Hm as ([] & w1 & Ho & Hm).
  assert (w1 = w) as ->. { eapply reads_ok; [|exact Ho]. solve_reads. }
  apply bind_ok in Hm as ([] & w1 & Hw & Hm). unfold meta_upsert in Hw. rewrite bind_query in Hw. apply write_ok in Hw as ->.
  assert (Hs : ps_space next = i) by (by bool_prop).
  destruct (Z.ltb_spec (permissionRank (ps_mode next)) (permissionRank (ps_mode before))) as [Hlt|Hge].
  - pose proof (reads_ok _ _ _ _ (reads_stopPermissionCommands _ _ _) Hm) as ->. split; [done|]. split; [done|].
    intros _. by apply (stopPermissionCommands_ok _ _ _ _ _ _ Hm).
  - apply ret_ok in Hm as [<- <-]. split; [done|]. split; [done|]. lia.
Qed.
Lemma SetSpacePermission_ok sup i mode confirmed r w w' : SetSpacePermission sup i mode confirmed w = (Ok r, w') →
  ∃ s, w_db w' = set_meta (<[permissionKey i := MPermission s]> (meta (w_db w))) (w_db w) ∧ ps_mode s = mode ∧ ps_space s = i ∧
  (mode = PermissionFull → confirmed = true ∨ space_mode (w_db w) i = PermissionFull) ∧
  (permissionRank mode < permissionRank (space_mode (w_db w) i) →
     ∀ l c, sup_list sup = Some (Ok l) → c ∈ l → governs i "" (w_db w) c → cmd_id c ∈ r.1).
Proof.
  unfold SetSpacePermission. intros Hm. apply bind_ok in Hm as ([] & w1 & [Hv <-]%lift_ok & Hm).
  apply bind_ok in Hm as (before & w1 & Hb & Hm). apply spacePermission_ok in Hb as (-> & _ & _ & Emode & _).
  apply bind_ok in Hm as ([] & w1 & [Hf <-]%guard_ok & Hm). apply persistSpacePermission_ok in Hm as (E & Hs & Hstop).
  eexists. split; [exact E|]. split; [done|]. split; [done|]. rewrite <- Emode. split; [|by rewrite <- Emode in Hstop].
  intros ->. destruct confirmed; [by left|right]. destruct (decide (ps_mode before = PermissionFull)) as [|Hn]; [done|].
  rewrite (bool_decide_eq_false_2 _ Hn) in Hf. done.
Qed.
Lemma SetPersonPermission_ok sup p name mode confirmed r w w' : SetPersonPermission sup p name mode confirmed w = (Ok r, w') →
  ∃ v, w_db w' = set_meta (<[personKey p := MPerson v]> (meta (w_db w))) (w_db w) ∧ pp_mode v = mode ∧
  (mode = PermissionFull → confirmed = true ∨ person_mode (w_db w) p = PermissionFull) ∧ p ≠ "" ∧
  (permissionRank mode < permissionRank (person_mode (w_db w) p) →
     ∀ l c, sup_list sup = Some (Ok l) → c ∈ l → governs "" p (w_db w) c → cmd_id c ∈ r.1).
Proof.
  unfold SetPersonPermission. intros Hm. apply bind_ok in Hm as ([] & w1 & [Hid <-]%guard_ok & Hm).
  apply bind_ok in Hm as ([] & w1 & [Hv <-]%lift_ok & Hm).
  apply bind_ok in Hm as (before & w1 & Hb & Hm). apply PersonPermission_ok in Hb as (-> & Emode & _).
  apply bind_ok in Hm as ([] & w1 & [Hf <-]%guard_ok & Hm). apply bind_ok in Hm as (now & w1 & Hn & Hm). apply nowText_ok in Hn.
  apply bind_ok in Hm as ([] & w2 & Hw & Hm). unfold meta_upsert in Hw. rewrite bind_query in Hw. apply write_ok in Hw as ->.
  unfold id in Hm. rewrite Hn in Hm. eexists (mkPerson p name mode now). rewrite <- Emode.
  assert (Hne : p ≠ ""). { intros ->. done. }
  assert (Hfull : mode = PermissionFull → confirmed = true ∨ pp_mode before = PermissionFull).
  { intros ->. destruct confirmed; [by left|right]. destruct (decide (pp_mode before = PermissionFull)) as [|Hx]; [done|].
    rewrite (bool_decide_eq_false_2 _ Hx) in Hf. done. }
  destruct (Z.ltb_spec (permissionRank mode) (permissionRank (pp_mode before))) as [Hlt|Hge].
  - pose proof (reads_ok _ _ _ _ (reads_stopPermissionCommands _ _ _) Hm) as ->. split_and!; try done.
    intros _. by apply (stopPermissionCommands_ok _ _ _ _ _ _ Hm).
  - apply ret_ok in Hm as [<- <-]. split_and!; try done. lia.
Qed.

(** C23: Reducing a permission reaches the runs that already rely on it. After the
    permission of a space (or a person) is set to a lower mode, the database
    holds that mode; every running command of a run that froze a permission of
    this space (or person) is among the commands asked to stop; and as long as
    it is not raised again, the check before each call fails for every run that
    froze more, whatever else has happened in between. *)
Theorem reduced_permission_stops sup id mode confirmed r w w' :
  id ≠ "" →
  (SetSpacePermission sup id mode confirmed w = (Ok r, w') →
     permissionRank mode < permissionRank (space_mode (w_db w) id) →
     space_mode (w_db w') id = mode ∧
     (∀ l c, sup_list sup = Some (Ok l) → c ∈ l → governs id "" (w_db w) c → cmd_id c ∈ r.1) ∧
     ∀ e entry s run w2 w3, permissionRank (space_mode (w_db w2) id) <= permissionRank mode →
       ps_space s = id → permissionRank mode < permissionRank (ps_mode s) →
       checkCurrentPermission e entry (Some s) run w2 ≠ (Ok tt, w3)) ∧
  (∀ name, SetPersonPermission sup id name mode confirmed w = (Ok r, w') →
     permissionRank mode < permissionRank (person_mode (w_db w) id) →
     person_mode (w_db w') id = mode ∧
     (∀ l c, sup_list sup = Some (Ok l) → c ∈ l → governs "" id (w_db w) c → cmd_id c ∈ r.1) ∧
     ∀ e entry s run w2 w3, permissionRank (person_mode (w_db w2) id) <= permissionRank mode →
       ps_space s ≠ "" → ps_person s = id → permissionRank mode < permissionRank (ps_mode s) →
       checkCurrentPermission e entry (Some s) run w2 ≠ (Ok tt, w3)).
Proof.
  intros Hid. split.
  - intros Hm Hlt. apply SetSpacePermission_ok in Hm as (v & -> & Ev & _ & _ & Hstop).
    split; [rewrite space_mode_insert; by destruct (decide (id = id))|]. split; [by apply Hstop|].
    intros e entry s run w2 w3 Hle <- Hs Hc. apply checkCurrentPermission_ok in Hc as (_ & Hc & _); [lia|done].
  - intros name Hm Hlt. apply SetPersonPermission_ok in Hm as (v & -> & Ev & _ & _ & Hstop).
    split; [rewrite person_mode_insert; by destruct (decide (id = id))|]. split; [by apply Hstop|].
    intros e entry s run w2 w3 Hle Hsp <- Hs Hc. apply checkCurrentPermission_ok in Hc as (_ & _ & Hc & _); [|done]. specialize (Hc Hid). lia.
Qed.

(** ** Full access *)

(** The operations that change a permission, with the caller's confirmation. *)
Inductive permission_step (e : Env) (sup : Supervisor) (confirmed : bool) (w : world) : world → Prop :=
| ps_set_space i mode : permission_step e sup confirmed w (SetSpacePermission sup i mode confirmed w).2
| ps_set_person p name mode : permission_step e sup confirmed w (SetPersonPermission sup p name mode confirmed w).2
| ps_select chat mode : permission_step e sup confirmed w (SelectPermission e sup chat mode confirmed w).2
| ps_select_files chat mode computer roots :
    permission_step e sup confirmed w (SelectPermissionWithFiles e sup chat mode confirmed computer roots w).2
| ps_select_profile chat s : permission_step e sup confirmed w (SelectExecutionProfile e sup chat s confirmed w).2.

(** Nothing gains Full access. *)
Definition no_new_full (d d' : db) : Prop :=
  (∀ i, space_mode d' i = PermissionFull → space_mode d i = PermissionFull) ∧
  (∀ p, person_mode d' p = PermissionFull → person_mode d p = PermissionFull).
#[export] Instance no_new_full_preorder : PreOrder no_new_full.
Proof. split; [done|]. intros d1 d2 d3 [??] [??]. split; auto. Qed.

(** What is left when the earlier calls only read. *)
Lemma reads_then {A B} (R : db → db → Prop) (m : M A) (f : A → M B) w : Reflexive R → Reads m →
  (∀ a, m w = (Ok a, w) → R (w_db w) (w_db (f a w).2)) → R (w_db w) (w_db ((m ≫= f) w).2).
Proof.
  intros Hr Hm Hf. unfold mbind, M_bind. specialize (Hm w). destruct (m w) as [[a|e] w1]; simpl in *; subst; [by apply Hf|done].
Qed.
Lemma full_confirmed_no mode previous w : full_confirmed mode previous false w = (Ok tt, w) → mode = PermissionFull → previous = PermissionFull.
Proof.
  intros [Hf _]%guard_ok ->. destruct (decide (previous = PermissionFull)) as [|Hx]; [done|].
  rewrite (bool_decide_eq_false_2 _ Hx) in Hf. done.
Qed.
Lemma persist_no_new_full sup i next w : (ps_mode next = PermissionFull → space_mode (w_db w) i = PermissionFull) →
  no_new_full (w_db w) (w_db (persistSpacePermission sup i next w).2).
Proof.
  intros Hn. unfold persistSpacePermission.
  apply reads_then; [apply _|apply reads_spacePermission|intros before _].
  apply reads_then; [apply _|apply reads_guard|intros [] _].
  apply reads_then; [apply _|solve_reads|intros [] _]. unfold mbind, M_bind. simpl.
  match goal with |- no_new_full _ (w_db (?m ?w0).2) => assert (w_db (m w0).2 = w_db w0) as -> end.
  { destruct (_ <? _); [|done]. f_equal. apply reads_stopPermissionCommands. }
  simpl. split; intros j; [rewrite space_mode_insert; destruct (decide (i = j)) as [<-|]; auto|by rewrite person_mode_space].
Qed.
Lemma SelectedPermission_ok e chat s w w' : SelectedPermission e chat w = (Ok s, w') → ps_mode s = space_mode (w_db w) (ps_space s).
Proof.
  unfold SelectedPermission. intros Hm. apply bind_ok in Hm as (s0 & w1 & Hs & [<- _]%ret_ok).
  apply selectedPermission_ok in Hs as (_ & c & _ & Hsp & _ & Hm & _). simpl. by rewrite Hsp.
Qed.
Lemma prepared_mode e s s' : prepareExecutionProfileSelection e s = Ok s' → ps_mode s' = ps_mode s.
Proof.
  unfold prepareExecutionProfileSelection. intros Hm. repeat (apply res_bind_ok in Hm as (? & ? & Hm)). by injection Hm as <-.
Qed.

(** C24: Full access is never gained without a confirmation. Whatever sequence of
    unconfirmed permission changes is made, on spaces, people, conversations or
    whole profiles and whether they succeed or fail, every space and person that
    has Full access afterwards had it before. *)
Theorem full_needs_confirmation e sup w w' :
  rtc (permission_step e sup false) w w' → no_new_full (w_db w) (w_db w').
Proof.
  induction 1 as [w|w w1 w' Hs _ IH]; [done|]. etrans; [|exact IH]. clear IH w'. destruct Hs as [i mode|p name mode|chat mode|chat mode computer roots|chat s].
  - unfold SetSpacePermission. apply reads_then; [apply _|apply reads_lift|intros [] _].
    apply reads_then; [apply _|apply reads_spacePermission|intros s Hs]. apply spacePermission_ok in Hs as (_ & _ & _ & Emode & _).
    apply reads_then; [apply _|apply reads_full_confirmed|intros [] Hf]. apply persist_no_new_full. simpl. rewrite <- Emode.
    by apply (full_confirmed_no _ _ _ Hf).
  - unfold SetPersonPermission. apply reads_then; [apply _|apply reads_guard|intros [] _].
    apply reads_then; [apply _|apply reads_lift|intros [] _].
    apply reads_then; [apply _|apply reads_PersonPermission|intros s Hs]. apply PersonPermission_ok in Hs as (_ & Emode & _).
    apply reads_then; [apply _|apply reads_full_confirmed|intros [] Hf]. unfold mbind, M_bind. simpl.
    match goal with |- no_new_full _ (w_db (?m ?w0).2) => assert (w_db (m w0).2 = w_db w0) as -> end.
    { destruct (_ <? _); [|done]. f_equal. apply reads_stopPermissionCommands. }
    simpl. split; intros j; [by rewrite space_mode_person|]. rewrite person_mode_insert. destruct (decide (p = j)) as [<-|]; [|done].
    rewrite <- Emode. by apply (full_confirmed_no _ _ _ Hf).
  - unfold SelectPermission. apply reads_then; [apply _|apply reads_lift|intros [] _].
    apply reads_then; [apply _|apply reads_SelectedPermission|intros s Hs]. apply SelectedPermission_ok in Hs.
    apply reads_then; [apply _|apply reads_full_confirmed|intros [] Hf]. apply persist_no_new_full. simpl. rewrite <- Hs.
    by apply (full_confirmed_no _ _ _ Hf).
  - unfold SelectPermissionWithFiles. apply reads_then; [apply _|apply reads_lift|intros [] _].
    apply reads_then; [apply _|apply reads_SelectedPermission|intros s Hs]. apply SelectedPermission_ok in Hs.
    apply reads_then; [apply _|apply reads_full_confirmed|intros [] Hf].
    apply reads_then; [apply _|solve_reads|intros roots' _]. apply persist_no_new_full. simpl. rewrite <- Hs.
    by apply (full_confirmed_no _ _ _ Hf).
  - unfold SelectExecutionProfile. apply reads_then; [apply _|apply reads_SelectedPermission|intros s0 Hs]. apply SelectedPermission_ok in Hs.
    apply reads_then; [apply _|apply reads_full_confirmed|intros [] Hf].
    apply reads_then; [apply _|apply reads_lift|intros s' [Hp _]%lift_ok]. apply persist_no_new_full. simpl. rewrite <- Hs, (prepared_mode _ _ _ Hp).
    by apply (full_confirmed_no _ _ _ Hf).
Qed.
End methods.

(** ** Witnesses *)
Module PermissionDemo.
Export Demo FilePolicyDemo.
#[export] Existing Instances Demo.host Demo.checks FilePolicyDemo.disk.
Definition env : Env := mkEnv ProfileDemo.config "/home/u/data" true PermissionWorkspace false ∅.
Definition remote : Env := mkEnv ProfileDemo.config "/home/u/data" true PermissionWorkspace true ∅.
Definition idle : Supervisor := mkSupervisor None (λ _, None).
Definition raised : world := (SetSpacePermission idle "local" PermissionFull true empty).2.
Definition person : string := "telegram:user:42".
Definition known_person : world := (SetPersonPermission idle person "Ann" PermissionAsk false raised).2.
Definition frozen : PermissionSelection :=
  match (resolvePermission env "c" "" false known_person).1 with Ok s => s | Err _ => no_permission "" end.
Definition asked : PermissionSelection :=
  match (resolveRequestPermission remote "c" person "telegram" known_person).1 with Ok s => s | Err _ => no_permission "" end.
Definition run_of (s : PermissionSelection) (w : world) : world :=
  (createRunWithTool "local" "" "c" "k1" "do it" (mkRunConfig "" "" [] None no_selection (Some s) None "/w" 16) false None w).2.
Definition running : world := run_of frozen known_person.
Definition the_run (w : world) : Run := match runs (w_db w) with r :: _ => r | [] => Demo.run end.
Definition command : CommandRecord := mkCommandRecord "cmd-1" (run_id (the_run running)) "running".
Definition busy : Supervisor := mkSupervisor (Some (Ok [mkCommandRecord "cmd-0" "other" "exited"; command])) (λ _, None).
Definition reduced : world := (SetSpacePermission busy "local" PermissionAsk false running).2.
Lemma resolved : resolvePermission env "c" "" false known_person = (Ok frozen, known_person).
Proof. vm_compute. reflexivity. Qed.
Lemma request_resolved : resolveRequestPermission remote "c" person "telegram" known_person = (Ok asked, known_person).
Proof. vm_compute. reflexivity. Qed.
Lemma reducing : SetSpacePermission busy "local" PermissionAsk false running = (Ok (["cmd-1"], None), reduced).
Proof. vm_compute. reflexivity. Qed.
End PermissionDemo.
Import PermissionDemo.

Lemma resolved_permission_lowest_witness :
  ps_mode frozen = PermissionFull ∧ permissionRank (ps_mode asked) = permissionRank PermissionAsk ∧ ps_mode asked = PermissionAsk.
Proof.
  split; [vm_compute; reflexivity|]. split; [|vm_compute; reflexivity].
  destruct (resolved_permission_lowest remote "c" asked known_person known_person) as [_ Hr].
  destruct (Hr person "telegram" request_resolved) as (_ & c & Hc & _ & _ & Hm). rewrite Hm. vm_compute in Hc. injection Hc as <-.
  vm_compute. reflexivity.
Defined.

Lemma reduced_permission_stops_witness :
  (checkCurrentPermission env false (Some frozen) (the_run running) running).1 = Ok tt ∧
  (checkCurrentPermission env false (Some frozen) (the_run running) reduced).1 ≠ Ok tt.
Proof.
  split; [vm_compute; reflexivity|].
  destruct (reduced_permission_stops busy "local" PermissionAsk false (["cmd-1"], None) running reduced ltac:(discriminate)) as [Hs _].
  destruct (Hs reducing ltac:(apply Z.ltb_lt; vm_compute; reflexivity)) as (_ & _ & Hc).
  intros E. apply (Hc env false frozen (the_run running) reduced (checkCurrentPermission env false (Some frozen) (the_run running) reduced).2).
  - apply Z.leb_le. vm_compute. reflexivity.
  - vm_compute. reflexivity.
  - apply Z.ltb_lt. vm_compute. reflexivity.
  - rewrite <- E. by destruct (checkCurrentPermission _ _ _ _ _).
Defined.

Lemma full_needs_confirmation_witness :
  space_mode (w_db raised) "local" = PermissionFull ∧
  space_mode (w_db (SetSpacePermission idle "local" PermissionFull false empty).2) "local" ≠ PermissionFull.
Proof.
  split; [vm_compute; reflexivity|]. intros E.
  destruct (full_needs_confirmation env idle empty _ (rtc_once _ _ (ps_set_space env idle false empty "local" PermissionFull))) as [Hn _].
  specialize (Hn "local" E). vm_compute in Hn. discriminate Hn.
Defined.
