(* ===== verification/Model.v ===== *)
(** * Models: what may be declared, and the binding of a run to one

    Model of the models of src/internal/harness/config.go ([ModelConfig],
    [ModelCapabilities], [AutoConfig] and their validation),
    attachment_context.go ([VisionCapabilities]), providers.go and of the bindings
    of model_selection.go: what is accepted as a model, what a binding freezes of
    it, and the limits a bound request runs under. *)

From Stdlib Require Import Ascii.
From S2P Require Import Prelude Text Data Sql Store Profile.

(** The JSON text of a model, which a binding's revision is the hash of, and
    [NormalizeBaseURL] (keys.go), which parses a URL. *)
Class ModelHost := { json_model : ModelConfig → string; NormalizeBaseURL : string → res string }.

(** ** What may be declared *)

(** An omitted declaration, or one of the accepted ones. *)
Definition optional (s : string) (l : list string) : bool := bool_decide (s = "") || one_of s l.
Definition in_range (lo hi n : Z) : bool := (lo <=? n)%Z && (n <=? hi)%Z.

(** [VisionCapabilities.validate]. *)
Definition no_vision : VisionCapabilities := mkVision false false false 0 0 0 0.
Definition vision_validate (v : VisionCapabilities) : res unit :=
  if negb (vi_enabled v) then
    check (bool_decide (v = no_vision)) (EText "harness: disabled vision must not declare image limits")
  else
    check ((vi_png v || vi_jpeg v) && in_range 1 (32 * 2 ^ 20) (vi_max_image v) && in_range 1 16384 (vi_max_side v) &&
           in_range 1 32 (vi_max_images v) && in_range (vi_max_image v) (64 * 2 ^ 20) (vi_max_request v))
      (EText "harness: vision requires explicit formats and finite image/request limits").

(** [ModelCapabilities.validate]. *)
Definition capabilities_validate (c : ModelCapabilities) : res unit :=
  _ ← vision_validate (mc_vision c);
  check (optional (mc_protocol c) ["chat"; "responses"; "local"] &&
         optional (mc_streaming c) ["supported"; "none"] &&
         optional (mc_tools c) ["supported"; "none"] &&
         optional (mc_web_search c) ["supported"; "none"] &&
         optional (mc_embeddings c) ["supported"; "none"] &&
         optional (mc_parallel_tools c) ["supported"; "none"] &&
         ((mc_context_bytes c =? 0)%Z || in_range 4096 (16 * 2 ^ 20) (mc_context_bytes c)) &&
         ((mc_context_tokens c =? 0)%Z || in_range 1024 (16 * 2 ^ 20) (mc_context_tokens c)) &&
         optional (mc_context_source c) ["manual"; "preset"] &&
         in_range 0 32768 (mc_output_tokens c) &&
         optional (mc_strength c) ["light"; "standard"; "strong"] &&
         optional (mc_finish_reason c) ["standard"] &&
         optional (mc_usage c) ["optional"; "required"; "none"] &&
         optional (mc_error_policy c) ["manual"] &&
         optional (mc_token_limit c) ["max_tokens"; "max_completion_tokens"])
    (EText "invalid model capabilities").

Definition validModelName (n : string) : bool := (String.length n <=? 256)%nat && negb (ContainsAny n control_chars).

(** [validKeyID] (keys.go): a rune above 127 is none of the digits, so that the
    bytes can be looked at one by one. *)
Definition validKeyID (id : string) : bool :=
  bool_decide (String.length id = 10%nat) && HasPrefix id "k-" && forallb is_hex_lower (String.list_ascii_of_string (drop_s 2 id)).

(** [ModelConfig.Validate]. *)
Definition model_Validate (m : ModelConfig) : res unit :=
  let c := mo_capabilities m in
  let keyed what := check (validKeyID (mo_key m) && negb (bool_decide (TrimSpace (mo_model m) = ""))) (EText what) in
  _ ← capabilities_validate c;
  _ ← check (validModelName (mo_model m)) (EText "invalid model name");
  if bool_decide (mo_provider m = "echo") then
    _ ← check (bool_decide (mo_key m = "") && bool_decide (mo_model m = "")) (EText "harness: echo does not use key or model settings");
    check (optional (mc_protocol c) ["local"]) (EText "harness: echo uses the local protocol")
  else if bool_decide (mo_provider m = "openai-compatible") then
    _ ← check (negb (bool_decide (mc_protocol c = "local"))) (EText "harness: openai-compatible requires chat or responses protocol");
    keyed "harness: openai-compatible requires a key id and model name"
  else if bool_decide (mo_provider m = "anthropic") then
    _ ← check (negb (one_of (mc_protocol c) ["local"; "responses"])) (EText "harness: anthropic requires the chat protocol");
    _ ← check (negb (bool_decide (mc_embeddings c = "supported"))) (EText "harness: anthropic does not support embeddings in this adapter");
    keyed "harness: anthropic requires a key id and model name"
  else Err (EFmt "harness: unsupported model provider %q" [mo_provider m]).

(** [ModelConfig.EffectiveCapabilities]. *)
Definition EffectiveCapabilities (m : ModelConfig) : ModelCapabilities :=
  let c := mo_capabilities m in
  mkCapabilities (mc_vision c)
    (or_default (mc_protocol c) (if bool_decide (mo_provider m = "echo") then "local" else "chat"))
    (or_default (mc_streaming c) "supported") (or_default (mc_tools c) "supported") (or_default (mc_web_search c) "none")
    (or_default (mc_embeddings c) "none") (or_default (mc_parallel_tools c) "supported") (mc_context_bytes c)
    (mc_context_tokens c) (mc_context_source c) (mc_output_tokens c) (mc_strength c) (or_default (mc_finish_reason c) "standard")
    (or_default (mc_usage c) "optional") (or_default (mc_error_policy c) "manual") (or_default (mc_token_limit c) "max_tokens").

(** [validModelID]: as with [validKeyID], byte by byte. *)
Definition model_char (c : ascii) : bool :=
  let n := code c in
  between 97 122 n || between 65 90 n || between 48 57 n || bool_decide (c = "_"%char) || bool_decide (c = "-"%char) || bool_decide (c = "."%char).
Definition validModelID (id : string) : bool :=
  (1 <=? String.length id)%nat && (String.length id <=? 64)%nat && forallb model_char (String.list_ascii_of_string id)
  && negb (bool_decide (id = "auto")).

(** ** The pool of models *)
Record AutoConfig := mkAuto {
  au_enabled : bool; au_models : list string; au_assessment : string;
  au_max_candidates : Z; au_max_assessments : Z; au_max_upgrades : Z;
}.

(** What [Config] says of models: [Models], [DefaultModel], [DefaultSelection],
    [Providers] and [Auto]. *)
Record ModelsConfig := mkModels {
  ms_models : gmap string ModelConfig;
  ms_default : string;
  ms_selection : string;
  ms_providers : gmap string bool;
  ms_auto : AutoConfig;
}.

(** The part of [Config.Validate] on models. *)
Fixpoint auto_models_valid (models : gmap string ModelConfig) (seen l : list string) : bool :=
  match l with
  | [] => true
  | id :: l => bool_decide (is_Some (models !! id)) && negb (bool_decide (id ∈ seen)) && auto_models_valid models (id :: seen) l
  end.
Definition model_entry_valid (kv : string * ModelConfig) : bool := validModelID kv.1 && is_ok (model_Validate kv.2).
Definition models_validate (c : ModelsConfig) : res unit :=
  let named id := bool_decide (is_Some (ms_models c !! id)) in
  let a := ms_auto c in
  _ ← check (size (ms_models c) <=? 32)%nat (EText "harness: configure at most 32 models");
  _ ← check (negb (bool_decide (ms_models c = ∅)) ||
             bool_decide (ms_default c = "") && bool_decide (ms_selection c = "") && negb (au_enabled a))
        (EText "harness: without models, default_model and default_selection must be empty and Auto disabled");
  _ ← check (bool_decide (ms_models c = ∅) || named (ms_default c)) (EText "harness: default_model must name a configured model");
  _ ← check (one_of (ms_selection c) [""; "auto"] || named (ms_selection c))
        (EText "harness: default_selection must name a configured model or auto");
  _ ← check (negb (bool_decide (ms_selection c = "auto")) || au_enabled a) (EText "harness: auto default selection requires auto to be enabled");
  _ ← check (in_range 0 32 (au_max_candidates a) && in_range 0 1 (au_max_assessments a) && in_range 0 2 (au_max_upgrades a))
        (EText "harness: auto routing bounds are out of range");
  _ ← check (negb (au_enabled a) || (1 <=? au_max_candidates a)%Z) (EText "harness: enabled Auto requires a finite candidate bound");
  _ ← check (zlen (au_models a) <=? 32)%Z (EText "harness: too many authorized Auto models");
  _ ← check (auto_models_valid (ms_models c) [] (au_models a)) (EText "harness: Auto models must be unique configured profiles");
  _ ← check (bool_decide (au_assessment a = "") ||
             named (au_assessment a) && (bool_decide (au_models a = []) || bool_decide (au_assessment a ∈ au_models a)))
        (EText "harness: assessment model must be in the authorized Auto pool");
  check (forallb model_entry_valid (map_to_list (ms_models c))) (EText "harness: invalid model identifier").

(** [ProviderEnabled], [requireProvider]. *)
Definition ProviderEnabled (c : ModelsConfig) (m : ModelConfig) : bool :=
  bool_decide (mo_provider m = "echo") || bool_decide (mo_key m = "") || default false (ms_providers c !! mo_key m).
Definition requireProvider (c : ModelsConfig) (m : ModelConfig) : res unit :=
  check (ProviderEnabled c m) (EWrap ErrProviderDisabled [mo_key m]).
Definition is_disabled (e : error) : bool := errors_Is (λ e, match e with ErrProviderDisabled => true | _ => false end) e.

(** ** Bindings *)

(** What [Keys.Find] answers of a key's profile; [Keys] is [None] when the
    service has no key store. *)
Record KeyView := mkKeyView { kv_protocol : string; kv_base_url : string }.
Definition KeyStore : Type := option (string → res KeyView).
Definition is_missing_key (e : error) : bool := errors_Is (λ e, match e with ErrKeyNotFound => true | _ => false end) e.

Section bindings.
Context {H : Host} {MH : ModelHost}.

Definition model_revision (m : ModelConfig) : string := sha256hex (json_model m).

(** [modelBinding]. *)
Definition modelBinding (c : ModelsConfig) (id : string) : res ModelBinding :=
  let id := or_default id (ms_default c) in
  match ms_models c !! id with
  | Some m =>
      if validModelID id then
        _ ← model_Validate m;
        Ok (mkBinding id (model_revision m) m "")
      else Err (EFmt "harness: model %q is not configured" [id])
  | None => Err (EFmt "harness: model %q is not configured" [id])
  end.

(** [newBinding]. *)
Definition newBinding (keys : KeyStore) (c : ModelsConfig) (id : string) : res ModelBinding :=
  b ← modelBinding c id;
  _ ← requireProvider c (bd_config b);
  let key := mo_key (bd_config b) in
  if bool_decide (key = "") then Ok b
  else match keys with
  | None => Err (EWrap ErrKeyNotFound [bd_id b; key])
  | Some find =>
      match find key with
      | Err e => if is_missing_key e then Err (EWrap ErrKeyNotFound [bd_id b; key]) else Err e
      | Ok view =>
          if one_of (kv_protocol view) ["openai-compatible"; "anthropic"]
          then Ok (mkBinding (bd_id b) (bd_revision b) (bd_config b) (kv_base_url view))
          else Err (EText "harness: channel credentials cannot be used as model keys")
      end
  end.

(** [configuredSelection], [SelectedModel]; [chosen] is the model the
    conversation keeps, or empty. *)
Definition configuredSelection (c : ModelsConfig) (id : string) : res string :=
  let id := if bool_decide (id = "") then or_default (ms_selection c) (ms_default c) else id in
  if bool_decide (id = "auto") then
    _ ← check (au_enabled (ms_auto c)) ErrAutoDisabled; Ok id
  else _ ← modelBinding c id; Ok id.
Definition SelectedModel (c : ModelsConfig) (chosen : string) : string :=
  if bool_decide (chosen = "") then or_default (ms_selection c) (ms_default c) else chosen.

(** [validateBinding]. *)
Definition validateBinding (b : ModelBinding) : res unit :=
  let m := bd_config b in
  _ ← check (validModelID (bd_id b) && bool_decide (bd_revision b = model_revision m)) ErrStoreFormat;
  _ ← (if bool_decide (mo_key m = "") then check (bool_decide (bd_base_url b = "")) ErrStoreFormat
       else match NormalizeBaseURL (bd_base_url b) with
            | Ok base => check (bool_decide (base = bd_base_url b)) ErrStoreFormat
            | Err _ => Err ErrStoreFormat
            end);
  model_Validate m.

(** ** Limits *)
(** [ExecutionLimits.validate]. *)
Definition limits_validate (l : ExecutionLimits) : res unit :=
  check (in_range 1 1000 (xl_history l) && in_range 4096 (16 * 2 ^ 20) (xl_context l) &&
         in_range 1 32768 (xl_output l) && in_range 1 (16 * 2 ^ 20) (xl_result l))
    (EText "harness: context and output limits are out of range").

(** [requestLimits] of a bound service, and the growth [IncreaseLimits] allows. *)
Definition requestLimits (l : ExecutionLimits) (b : ModelBinding) : ExecutionLimits :=
  let c := mo_capabilities (bd_config b) in
  mkLimits (xl_history l)
    (if (0 <? mc_context_bytes c)%Z then Z.min (xl_context l) (mc_context_bytes c) else xl_context l)
    (if (0 <? mc_output_tokens c)%Z then Z.min (xl_output l) (mc_output_tokens c) else xl_output l)
    (xl_result l).
Definition IncreaseLimits (old limits : ExecutionLimits) : res ExecutionLimits :=
  _ ← limits_validate limits;
  _ ← check ((xl_history old <=? xl_history limits)%Z && (xl_context old <=? xl_context limits)%Z &&
             (xl_output old <=? xl_output limits)%Z && (xl_result old <=? xl_result limits)%Z)
        (EText "harness: limits can only increase without resetting consumption");
  Ok limits.

(** ** Lemmas *)

Lemma modelBinding_valid c id b : modelBinding c id = Ok b →
  bd_id b = or_default id (ms_default c) ∧ ms_models c !! bd_id b = Some (bd_config b) ∧ validModelID (bd_id b) = true ∧
  model_Validate (bd_config b) = Ok tt ∧ bd_revision b = model_revision (bd_config b) ∧ bd_base_url b = "".
Proof.
  unfold modelBinding. cbv zeta. destruct (ms_models c !! _) as [m|] eqn:Em; [|done].
  destruct (validModelID _) eqn:Ev; [|done]. destruct (model_Validate m) as [[]|] eqn:Eo; [|done]. by intros [= <-].
Qed.
Lemma newBinding_model keys c id b : newBinding keys c id = Ok b →
  bd_id b = or_default id (ms_default c) ∧ ms_models c !! bd_id b = Some (bd_config b) ∧ validModelID (bd_id b) = true ∧
  model_Validate (bd_config b) = Ok tt ∧ bd_revision b = model_revision (bd_config b) ∧ ProviderEnabled c (bd_config b) = true ∧
  (mo_key (bd_config b) = "" → bd_base_url b = "") ∧
  (mo_key (bd_config b) ≠ "" → ∃ find view, keys = Some find ∧ find (mo_key (bd_config b)) = Ok view ∧ bd_base_url b = kv_base_url view).
Proof.
  unfold newBinding. intros Hb. apply res_bind_ok in Hb as (b0 & (H1 & H2 & H3 & H4 & H5 & H6)%modelBinding_valid & Hb).
  apply res_bind_ok in Hb as ([] & Hp%check_ok & Hb). cbv zeta in Hb. case_bool_decide as Hk.
  { injection Hb as <-. split_and!; [done..|]. congruence. }
  destruct keys as [find|]; [|done]. destruct (find _) as [view|e] eqn:Ef; [|by destruct (is_missing_key e)].
  destruct (one_of _ _); [|done]. injection Hb as <-. simpl. split_and!; [done..|]. intros _. by exists find, view.
Qed.

(** Every address a key store gives is a normalised one. *)
Definition normalised_keys (keys : KeyStore) : Prop :=
  ∀ find k view, keys = Some find → find k = Ok view → NormalizeBaseURL (kv_base_url view) = Ok (kv_base_url view).
Lemma newBinding_valid keys c id b : normalised_keys keys → newBinding keys c id = Ok b → validateBinding b = Ok tt.
Proof.
  intros Hn Hb. apply newBinding_model in Hb as (_ & _ & Hv & Hm & Hr & _ & H1 & H2).
  unfold validateBinding. cbv zeta. rewrite Hv, (bool_decide_eq_true_2 (bd_revision b = _)) by done. cbn [andb check]. cbv beta iota delta [mbind res_mbind]. case_bool_decide as Hk.
  - by rewrite bool_decide_eq_true_2 by auto.
  - destruct (H2 Hk) as (find & view & -> & Hf & ->). rewrite (Hn find _ view) by done. by rewrite bool_decide_eq_true_2.
Qed.
End bindings.
