(* ===== verification/Routing.v ===== *)
(** * Choosing the model of a run

    Model of src/internal/harness/routing.go, and of what model_selection.go keeps
    of it in a run: the words that say how much a task asks for, the automatic
    choice among the authorised models, the decisions recorded in the run's
    snapshot with the checks [decodeRunSnapshot] makes of them, and the three
    ways the choice changes: [prepareAuto], [SwitchModel], [IncreaseLimits]. *)

From Stdlib Require Import Ascii.
From S2P Require Import Prelude Text Data Sql Store Profile Model.

(** [unicode.IsLetter] of an encoded character, and the reading of the JSON
    object an assessment answers ([model_id], [reason]; [strictDecode]). *)
Class RoutingHost := { IsLetter : string → bool; assessment_json : string → option (string * string) }.

(** ** What a task asks for *)

(** [strings.Cut]. *)
Fixpoint Cut (s sep : string) : option (string * string) :=
  if HasPrefix s sep then Some ("", TrimPrefix s sep)
  else match s with
       | "" => None
       | String c s => match Cut s sep with Some p => Some (String c p.1, p.2) | None => None end
       end.

(** [[]rune(s)]: the encodings of the characters, one byte where there is none. *)
Fixpoint Runes (fuel : nat) (s : string) : list string :=
  match fuel, s with
  | O, _ | _, "" => []
  | S fuel, _ => let n := rune_width s in String.substring 0 n s :: Runes fuel (drop_s n s)
  end.
Definition isASCII (s : string) : bool := forallb (λ c, (code c <? 128)%nat) (String.list_ascii_of_string s).

Section words.
Context {U : Unicode} {RH : RoutingHost}.

Definition bounded_word (before after : string) : bool :=
  match last (Runes (String.length before) before) with Some r => negb (IsLetter r) | None => true end &&
  match head (Runes (String.length after) after) with Some r => negb (IsLetter r) | None => true end.

(** The loop over the occurrences of a term; [before] is what precedes [rest]. *)
Fixpoint whole_word (fuel : nat) (term before rest : string) : bool :=
  match fuel with
  | O => false
  | S fuel =>
      match Cut rest term with
      | None => false
      | Some p => bounded_word (before +:+ p.1) p.2 || whole_word fuel term (before +:+ p.1 +:+ term) p.2
      end
  end.

(** [hasTaskTerm]. *)
Definition hasTaskTerm (prompt : string) (terms : list string) : bool :=
  let text := ToLower prompt in
  existsb (λ t, Contains text t && (negb (isASCII t) || whole_word (S (String.length text)) t "" text)) terms.

Definition taskNeedsTools (prompt : string) : bool :=
  hasTaskTerm prompt ["file"; "workspace"; "edit"; "modify"; "delete"; "command"; "execute"; "test"; "http"; "mcp"; "run tests";
    "read file"; "create file"; "文件"; "工作区"; "运行命令"; "执行命令"; "修改代码"; "测试"; "检索资料"].

(** [taskStrength]: the strength, and whether it is uncertain. *)
Definition taskStrength (prompt : string) : Z * bool :=
  if hasTaskTerm prompt ["prove"; "debug"; "architecture"; "root cause"; "high risk"; "strong model"; "complex reasoning";
       "security review"; "trade-offs"; "严谨证明"; "根因"; "架构"; "复杂推理"; "强模型"; "安全审计"; "高风险"] then (3%Z, false)
  else if hasTaskTerm prompt ["hello"; "hi"; "greeting"; "translate"; "format"; "summarize"; "simple"; "你好"; "翻译"; "排版";
       "格式化"; "概括"; "简单"] then (1%Z, false)
  else (3%Z, true).
Definition taskRoutingReason (prompt : string) : string :=
  if (taskStrength prompt).2 then "uncertain task requirements; conservative authorized capability match"
  else if ((taskStrength prompt).1 =? 1)%Z then "explicit low-intensity task; smallest suitable authorized profile"
  else "reasoning, risk or explicit strength requirement; stronger suitable authorized profile".
End words.

(** ** Decisions and policies *)
Definition modelStrength (m : ModelConfig) : Z :=
  let s := mc_strength (mo_capabilities m) in
  if bool_decide (s = "light") then 1 else if bool_decide (s = "strong") then 3 else 2.
Definition strengthDistance (actual desired : Z) : Z :=
  if (desired <=? actual)%Z then actual - desired else (desired - actual) * 4.

(** [RoutingDecision.validate]. *)
Fixpoint candidates_valid (seen l : list string) : bool :=
  match l with
  | [] => true
  | id :: l => validModelID id && negb (bool_decide (id ∈ seen)) && candidates_valid (id :: seen) l
  end.
Definition routing_validate (d : RoutingDecision) : bool :=
  one_of (rd_mode d) ["manual"; "auto"] && validModelID (rd_selected d) && bool_decide (String.length (rd_revision d) = 64%nat) &&
  negb (bool_decide (rd_reason d = "")) && (String.length (rd_reason d) <=? 1024)%nat && (zlen (rd_candidates d) <=? 32)%Z &&
  in_range 0 1 (rd_assessments d) && in_range 0 2 (rd_upgrades d) &&
  negb (bool_decide (rd_mode d = "auto") && negb (bool_decide (rd_requested d = "auto"))) &&
  negb (bool_decide (rd_mode d = "manual") && negb (bool_decide (rd_requested d = rd_selected d))) &&
  candidates_valid [] (rd_candidates d) &&
  negb (bool_decide (rd_mode d = "auto") && negb (bool_decide (rd_selected d ∈ rd_candidates d))).

(** [routingDecision], with the fields the callers set. *)
Definition routingDecision (b : ModelBinding) (mode reason : string) (candidates : list string) (assessments upgrades : Z) : RoutingDecision :=
  mkRouting mode (if bool_decide (mode = "auto") then "auto" else bd_id b) (bd_id b) (bd_revision b) candidates reason assessments upgrades.

(** A decision selects a binding. *)
Definition selects (d : RoutingDecision) (b : ModelBinding) : bool :=
  bool_decide (rd_selected d = bd_id b) && bool_decide (rd_revision d = bd_revision b).

Section policies.
Context {H : Host} {MH : ModelHost}.

(** [autoRunPolicy.validate], [authorized]. *)
Fixpoint pool_valid (seen : list string) (l : list ModelBinding) : bool :=
  match l with
  | [] => true
  | b :: l => is_ok (validateBinding b) && negb (bool_decide (bd_id b ∈ seen)) && pool_valid (bd_id b :: seen) l
  end.
Definition policy_validate (p : autoRunPolicy) : bool :=
  in_range 1 32 (zlen (ap_models p)) && in_range 0 1 (ap_max_assessments p) && in_range 0 2 (ap_max_upgrades p) &&
  pool_valid [] (ap_models p) && (bool_decide (ap_assessment_model p = "") || bool_decide (ap_assessment_model p ∈ map bd_id (ap_models p))).
Definition authorized (p : autoRunPolicy) (c : ModelsConfig) : bool :=
  let a := ms_auto c in
  au_enabled a && (zlen (ap_models p) <=? au_max_candidates a)%Z && (ap_max_assessments p <=? au_max_assessments a)%Z &&
  (ap_max_upgrades p <=? au_max_upgrades a)%Z &&
  (bool_decide (ap_assessment_model p = "") || bool_decide (ap_assessment_model p = au_assessment a)) &&
  forallb (λ b, bool_decide (ms_models c !! bd_id b = Some (bd_config b)) &&
                (bool_decide (au_models a = []) || bool_decide (bd_id b ∈ au_models a))) (ap_models p).

(** ** The checks of a snapshot *)

(** Along the decisions, the bindings advance one at a time, and each decision
    selects the binding it has reached: what is left of the bindings. *)
Fixpoint follows (index : nat) (previous : option RoutingDecision) (binding : ModelBinding) (bindings : list ModelBinding)
    (l : list RoutingDecision) : option (list ModelBinding) :=
  match l with
  | [] => Some bindings
  | d :: l =>
      let counted := match previous with
        | Some p => (rd_assessments p <=? rd_assessments d)%Z && (rd_upgrades p <=? rd_upgrades d)%Z && (rd_upgrades d <=? rd_upgrades p + 1)%Z
        | None => true end in
      if negb counted then None
      else if selects d binding then follows (S index) (Some d) binding bindings l
      else match bindings with
           | b :: bindings => if negb (bool_decide (index = 0%nat)) && selects d b then follows (S index) (Some d) b bindings l else None
           | [] => None
           end
  end.

(** The checks of [decodeRunSnapshot] on the bindings, the limits, the policy
    and the decisions. *)
Definition selection_valid (s : RunSelection) : bool :=
  in_range 1 64 (zlen (sn_bindings s)) && forallb (λ b, is_ok (validateBinding b)) (sn_bindings s) &&
  match sn_limits s with Some l => is_ok (limits_validate l) | None => true end &&
  match sn_auto s with Some p => policy_validate p | None => true end &&
  (zlen (sn_routing s) <=? 64)%Z && forallb routing_validate (sn_routing s) &&
  match sn_bindings s, sn_routing s with
  | b :: bindings, _ :: _ => bool_decide (follows 0 None b bindings (sn_routing s) = Some [])
  | _, _ => true
  end &&
  match sn_auto s with
  | None => true
  | Some p =>
      match last (sn_routing s) with
      | None => false
      | Some d => bool_decide (rd_mode d = "auto") && existsb (selects d) (ap_models p) &&
                  (rd_assessments d <=? ap_max_assessments p)%Z && (rd_upgrades d <=? ap_max_upgrades p)%Z
      end
  end.
End policies.

(** ** The automatic choice *)

(** What the service brings to a choice: its configuration and keys, the request
    of the user, whether it has tools, and [selectionContext], which builds the
    request for a binding from the store and says why it cannot be sent. *)
Record Router := mkRouter {
  ro_config : ModelsConfig;
  ro_keys : KeyStore;
  ro_prompt : string;
  ro_tools : bool;
  ro_context : ModelBinding → db → option error;
}.
Definition is_context_limit (e : error) : bool := errors_Is (λ e, match e with ErrContextLimit => true | _ => false end) e.
Definition is_capability (e : error) : bool := errors_Is (λ e, match e with ErrModelCapability => true | _ => false end) e.
Definition is_boundary (e : error) : bool := errors_Is (λ e, match e with ErrModelBoundary => true | _ => false end) e.

(** The order of [slices.SortFunc] and of [slices.Sort]. *)
Definition str_compare (a b : string) : Z := match String.compare a b with Lt => -1 | Eq => 0 | Gt => 1 end.
Definition candidate_cmp (default_model : string) (desired : Z) (a b : ModelBinding) : Z :=
  let sa := modelStrength (bd_config a) in
  let sb := modelStrength (bd_config b) in
  let da := strengthDistance sa desired in
  let db := strengthDistance sb desired in
  if negb (da =? db)%Z then da - db
  else if negb (sa =? sb)%Z then sb - sa
  else if bool_decide (bd_id a = bd_id b) then 0
  else if bool_decide (bd_id a = default_model) then -1
  else if bool_decide (bd_id b = default_model) then 1
  else str_compare (bd_id a) (bd_id b).
Definition candidate_le (default_model : string) (desired : Z) (a b : ModelBinding) : Prop :=
  (candidate_cmp default_model desired a b <= 0)%Z.
#[export] Instance candidate_le_dec m s : RelDecision (candidate_le m s) := λ a b, Z_le_dec (candidate_cmp m s a b) 0.
Definition str_le (a b : string) : Prop := (str_compare a b <= 0)%Z.
#[export] Instance str_le_dec : RelDecision str_le := λ a b, Z_le_dec (str_compare a b) 0.

Section choice.
Context {H : Host} {MH : ModelHost} {U : Unicode} {RH : RoutingHost}.

(** The loop of [chooseAuto]: the candidates, and whether a context was too large. *)
Definition suitable (r : Router) (minimum : Z) (b : ModelBinding) : bool :=
  ProviderEnabled (ro_config r) (bd_config b) && (minimum <=? modelStrength (bd_config b))%Z &&
  negb (taskNeedsTools (ro_prompt r) && (bool_decide (mc_tools (mo_capabilities (bd_config b)) = "none") || negb (ro_tools r))) &&
  bool_decide (ms_models (ro_config r) !! bd_id b = Some (bd_config b)).
Fixpoint candidates (r : Router) (d : db) (minimum : Z) (l : list ModelBinding) : res (list ModelBinding * bool) :=
  match l with
  | [] => Ok ([], false)
  | b :: l =>
      if negb (suitable r minimum b) then candidates r d minimum l
      else match ro_context r b d with
           | None => rest ← candidates r d minimum l; Ok (b :: rest.1, rest.2)
           | Some e =>
               if is_context_limit e then rest ← candidates r d minimum l; Ok (rest.1, true)
               else if is_capability e || is_boundary e then candidates r d minimum l
               else Err e
           end
  end.
Definition sorted_candidates (r : Router) (l : list ModelBinding) : list ModelBinding :=
  merge_sort (candidate_le (ms_default (ro_config r)) (taskStrength (ro_prompt r)).1) l.

(** [chooseAuto]. *)
Definition chooseAuto (r : Router) (d : db) (pool : list ModelBinding) (minimum : Z) : res (ModelBinding * list string) :=
  candidates r d minimum pool ≫= λ found : list ModelBinding * bool,
  match sorted_candidates r found.1 with
  | [] => Err (if found.2 then ErrContextLimit else ErrModelCapability)
  | b :: rest => Ok (b, map bd_id (b :: rest))
  end.

(** The pool [forTask] authorises: the identifiers in order, the default and the
    assessment model first, bound until there are enough. *)
Fixpoint remove_first (id : string) (l : list string) : list string :=
  match l with [] => [] | x :: l => if bool_decide (x = id) then l else x :: remove_first id l end.
Definition prefer (id : string) (l : list string) : list string :=
  if bool_decide (id ∈ l) then id :: remove_first id l else l.
Definition pool_ids (c : ModelsConfig) : list string :=
  let a := ms_auto c in
  let ids := if bool_decide (au_models a = []) then map fst (map_to_list (ms_models c)) else au_models a in
  prefer (au_assessment a) (prefer (ms_default c) (merge_sort str_le ids)).
Fixpoint bind_pool (keys : KeyStore) (c : ModelsConfig) (room : nat) (ids : list string) : res (list ModelBinding) :=
  match room, ids with
  | O, _ | _, [] => Ok []
  | S room', id :: ids =>
      match newBinding keys c id with
      | Ok b => rest ← bind_pool keys c room' ids; Ok (b :: rest)
      | Err e => if is_disabled e then bind_pool keys c room ids else Err e
      end
  end.

(** [forTask]: the selection a new run begins with. *)
Definition forTask (r : Router) (d : db) (selection : string) : res RunSelection :=
  let c := ro_config r in
  let a := ms_auto c in
  requested ← configuredSelection c selection;
  if negb (bool_decide (requested = "auto")) then
    b ← newBinding (ro_keys r) c requested;
    Ok (mkRunSelection [b] None None
          [routingDecision b "manual" "explicit or configured manual selection; Auto was skipped" [] 0 0])
  else
    models ← bind_pool (ro_keys r) c (Z.to_nat (au_max_candidates a)) (pool_ids c);
    _ ← check (negb (bool_decide (models = []))) ErrProviderDisabled;
    let policy := mkAutoPolicy models (if bool_decide (au_assessment a ∈ map bd_id models) then au_assessment a else "")
                    (au_max_assessments a) (au_max_upgrades a) in
    _ ← check (policy_validate policy) ErrStoreFormat;
    chosen ← chooseAuto r d models 0;
    Ok (mkRunSelection [chosen.1] None (Some policy)
          [routingDecision chosen.1 "auto" (taskRoutingReason (ro_prompt r)) chosen.2 0 0]).

(** ** The choice of a run that exists *)

(** [binding]: the last binding; a decoded snapshot has one. *)
Definition no_binding : ModelBinding := mkBinding "" "" (mkModel "" "" "" (mkCapabilities no_vision "" "" "" "" "" "" 0 0 "" 0 "" "" "" "" "")) "".
Definition current_binding (s : RunSelection) : ModelBinding := default no_binding (last (sn_bindings s)).

Definition set_selection (s : RunSelection) (rc : RunConfig) : RunConfig :=
  mkRunConfig (rc_input_request rc) (rc_continuation_of rc) (rc_attachments rc) (rc_channel rc) s
    (rc_permission rc) (rc_memory rc) (rc_workspace rc) (rc_memory_entries rc).
Definition set_run_selection (s : RunSelection) (now : string) (r : Run) : Run :=
  mkRun (run_id r) (run_conversation r) (run_request_key r) (run_prompt r) (set_selection s (run_config r)) (run_status r)
    (run_stop_reason r) (run_steps r) (run_elapsed_ms r) (run_output r) (run_created_at r) now (run_active_since r)
    (run_seq r) (run_last_attempt_seq r).

(** The bindings after a decision: [slices.Clone] and [append]. *)
Definition bind_next (s : RunSelection) (b : ModelBinding) : list ModelBinding :=
  if bool_decide (current_binding s = b) then sn_bindings s else sn_bindings s ++ [b].
Definition decide_next (s : RunSelection) (b : ModelBinding) (d : RoutingDecision) : RunSelection :=
  mkRunSelection (bind_next s b) (sn_limits s) (sn_auto s) (sn_routing s ++ [d]).

(** [saveRouting]: the snapshot of the running run is replaced if it is still
    the one the service knows. *)
Definition saveRouting (s : RunSelection) (run : Run) (b : ModelBinding) (decision : RoutingDecision) : M (RunSelection * Run) :=
  let s' := decide_next s b decision in
  _ ← guard_ ((zlen (sn_bindings s') <=? 64)%Z && (zlen (sn_routing s') <=? 64)%Z) (EText "harness: model decision limit reached");
  now ← nowText;
  n ← update_runs (λ x, by_id (run_id run) x && bool_decide (run_config x = run_config run) && bool_decide (run_status x = Running))
        (set_run_selection s' now);
  _ ← guard_ (bool_decide (n = 1%nat)) ErrConfigChanged;
  mret (s', mkRun (run_id run) (run_conversation run) (run_request_key run) (run_prompt run) (set_selection s' (run_config run))
              (run_status run) (run_stop_reason run) (run_steps run) (run_elapsed_ms run) (run_output run) (run_created_at run)
              (run_updated_at run) (run_active_since run) (run_seq run) (run_last_attempt_seq run)).

(** The attempts [prepareAuto] looks at. *)
Definition is_model (a : Attempt) : bool := bool_decide (att_kind a = KModel).
Definition is_assessment (a : Attempt) : bool := is_model a && bool_decide (rq_purpose (decodeModelRequest (att_request a)) = "assessment").
Definition saved_assessment (l : list Attempt) : option Attempt :=
  last (filter (λ a, is_assessment a = true ∧ att_status a = AFinished) l).

(** What the answer of an assessment proposes, and what is made of it. *)
Definition assessment_of (a : Attempt) : option (string * string) :=
  match att_response a with
  | Some (RModel response) =>
      match assessment_json (rs_content response) with
      | Some p => if negb (bool_decide (p.2 = "")) && (String.length p.2 <=? 512)%nat then Some p else None
      | None => None
      end
  | _ => None
  end.
Fixpoint proposed (r : Router) (d : db) (candidates : list string) (answer : string * string) (l : list ModelBinding)
    (kept : ModelBinding * string) : ModelBinding * string :=
  match l with
  | [] => kept
  | b :: l =>
      proposed r d candidates answer l
        (if bool_decide (bd_id b = answer.1) && bool_decide (bd_id b ∈ candidates) && bool_decide (ro_context r b d = None)
         then (b, "bounded structured assessment: " +:+ answer.2) else kept)
  end.
Definition assessed (r : Router) (d : db) (p : autoRunPolicy) (last : RoutingDecision) (b : ModelBinding) (a : Attempt) : ModelBinding * string :=
  let kept := (b, rd_reason last +:+ "; structured assessment was invalid; retained conservative choice") in
  match assessment_of a with
  | Some answer => proposed r d (rd_candidates last) answer (ap_models p) kept
  | None => kept
  end.

(** [prepareAuto]. [refresh] is the answer of [Refresh], when the service has
    one, and [assess] the model call that makes the assessment. *)
Definition prepareAuto (r : Router) (refresh : option (res ModelsConfig)) (assess : ModelBinding → M Attempt)
    (s : RunSelection) (run : Run) (attempts : list Attempt) : M (RunSelection * Run) :=
  match sn_auto s with
  | None => mret (s, run)
  | Some p =>
  match last (sn_routing s) with
  | None => fail ErrStoreFormat
  | Some last =>
      let count := Z.of_nat (count_if is_assessment attempts) in
      let hasMain := existsb (λ a, is_model a && negb (is_assessment a)) attempts in
      _ ← guard_ (count <=? ap_max_assessments p)%Z ErrStoreFormat;
      current ← match refresh with None => mret (ro_config r) | Some (Ok c) => mret c | Some (Err _) => fail ErrConfigChanged end;
      if negb (authorized p current) then
        let b := current_binding s in
        saveRouting (mkRunSelection (sn_bindings s) (sn_limits s) None (sn_routing s)) run b
          (routingDecision b "manual"
             "Auto authorization was disabled or restricted; retained the saved model without further assessment or upgrade"
             [] (Z.max (rd_assessments last) count) (rd_upgrades last))
      else
        next ← (if negb hasMain && (taskStrength (ro_prompt r)).2 && (rd_assessments last =? 0)%Z
                   && negb (bool_decide (ap_assessment_model p = "")) && (0 <? ap_max_assessments p)%Z then
                  found ← (match saved_assessment attempts with
                           | Some a => mret (Some a, count)
                           | None =>
                               if (count =? 0)%Z then
                                 a ← assess (default (current_binding s) (List.find (λ b, bool_decide (bd_id b = ap_assessment_model p)) (ap_models p)));
                                 mret (Some a, 1%Z)
                               else mret (None, count)
                           end);
                  match found.1 with
                  | None => fail ErrStoreFormat
                  | Some a =>
                      _ ← guard_ (found.2 <=? ap_max_assessments p)%Z ErrStoreFormat;
                      d ← query id;
                      let chosen := assessed r d p last (current_binding s) a in
                      let decision := routingDecision chosen.1 "auto" chosen.2 (rd_candidates last) found.2 (rd_upgrades last) in
                      saved ← saveRouting s run chosen.1 decision;
                      mret (saved, decision)
                  end
                else mret ((s, run), last));
        let s := next.1.1 in
        d ← query id;
        match ro_context r (current_binding s) d with
        | None => mret next.1
        | Some e =>
            _ ← guard_ (is_context_limit e || is_capability e) e;
            _ ← guard_ (rd_upgrades next.2 <? ap_max_upgrades p)%Z e;
            chosen ← lift (chooseAuto r d (ap_models p) (modelStrength (bd_config (current_binding s))));
            _ ← guard_ (negb (existsb (λ b, bool_decide (bd_id b = bd_id chosen.1)) (sn_bindings s))) e;
            saveRouting s next.1.2 chosen.1
              (routingDecision chosen.1 "auto" "safe-boundary capability upgrade; saved results and consumption retained"
                 chosen.2 (rd_assessments next.2) (rd_upgrades next.2 + 1))
        end
  end
  end.

(** ** Editing an inactive run *)

(** [editRun]: the guards, and the statement. [unchanged] stands for what
    [forRun] and [Refresh] compare of the rest of the snapshot. *)
Definition editRun (unchanged : Run → bool) (id : string) (edit : Run → M RunSelection) : M unit :=
  run ← query_row (find_run id);
  d ← query Datatypes.id;
  _ ← guard_ (bool_decide (controlledParent id d = "")) (EJoin [ErrControlledRun]);
  _ ← guard_ (negb (match run_status run with Completed | Failed | Abandoned => true | _ => false end) && bool_decide (run_active_since run = ""))
        (EText "harness: only an inactive unfinished run can be adjusted");
  _ ← guard_ (negb (rf_settled (withModelFacts run) && negb (bool_decide (meta_text (limitNextKey id) d = ""))))
        (EText "harness: this limited Run already has a successor; adjust the successor instead");
  _ ← guard_ (selection_valid (rc_selection (run_config run))) ErrStoreFormat;
  _ ← guard_ (unchanged run) ErrConfigChanged;
  s ← edit run;
  now ← nowText;
  _ ← update_runs (by_id id) (set_run_selection s now);
  mret tt.

(** The loop of [SwitchModel] over the attempts. *)
Fixpoint switch_ready (d : db) (l : list Attempt) : res unit :=
  match l with
  | [] => Ok tt
  | a :: l =>
      match att_status a with
      | AUnknown => if resolvedAttempt d a then switch_ready d l else Err ErrUnknownResult
      | ADispatched => Err ErrUnknownResult
      | APending => Err ErrModelBoundary
      | AFinished => switch_ready d l
      end
  end.

(** The new selection of [SwitchModel]. *)
Definition switched (s : RunSelection) (b : ModelBinding) (attempts : list Attempt) : RunSelection :=
  mkRunSelection (bind_next s b) (sn_limits s) None
    (sn_routing s ++
       [routingDecision b "manual" "user explicitly switched at a complete saved call boundary; Auto was disabled for this Run" []
          (if existsb is_assessment attempts then 1
           else match last (sn_routing s) with Some d => rd_assessments d | None => 0 end)
          (match last (sn_routing s) with Some d => rd_upgrades d | None => 0 end)]).

(** The edit of [SwitchModel]; [ro_context] stands for [buildContext] with the
    new binding. *)
Definition switch_edit (r : Router) (id model : string) (run : Run) : M RunSelection :=
  let s := rc_selection (run_config run) in
  _ ← guard_ (negb (bool_decide (run_status run = Unknown))) ErrUnknownResult;
  d ← query Datatypes.id;
  let attempts := listAttempts id d in
  _ ← lift (switch_ready d attempts);
  b ← lift (newBinding (ro_keys r) (ro_config r) model);
  let last := current_binding s in
  _ ← guard_ (negb (bool_decide (bd_id b = bd_id last) && bool_decide (bd_revision b = bd_revision last)
                    && negb (bool_decide (bd_base_url b = bd_base_url last)))) (EWrap ErrConfigChanged [bd_id b]);
  if bool_decide (b = last) && bool_decide (sn_auto s = None) then mret s
  else
    _ ← guard_ ((zlen (sn_bindings s) <? 64)%Z && (zlen (sn_routing s) <? 64)%Z) (EText "harness: model binding change limit reached");
    _ ← match ro_context r b d with None => mret tt | Some e => fail e end;
    mret (switched s b attempts).
Definition SwitchModel (r : Router) (unchanged : Run → bool) (id model : string) : M unit :=
  editRun unchanged id (switch_edit r id model).

(** [TaskService.IncreaseLimits]; [config] are the limits of the configuration. *)
Definition IncreaseRunLimits (config : ExecutionLimits) (unchanged : Run → bool) (id : string) (limits : ExecutionLimits) : M unit :=
  _ ← lift (limits_validate limits);
  editRun unchanged id (λ run,
    let s := rc_selection (run_config run) in
    limits ← lift (IncreaseLimits (default config (sn_limits s)) limits);
    mret (mkRunSelection (sn_bindings s) (Some limits) (sn_auto s) (sn_routing s))).
End choice.
