(* ===== verification/RoutingProps.v ===== *)
(** * Choosing the model of a run: what is guaranteed

    The automatic choice is the least candidate of a total order, so that it does
    not depend on the order of the pool; and the snapshot of a run stays one that
    [decodeRunSnapshot] accepts through every decision, which is false of a run
    that was created without a decision. *)

From S2P Require Import Prelude Text Utf8 Data Sql Store StoreInv Space StoreProps Profile Model Routing.

(** ** The order of candidates *)
Lemma str_compare_le a b : str_le a b ↔ String.compare a b ≠ Gt.
Proof. unfold str_le, str_compare. destruct (String.compare a b); split; try done; lia. Qed.
Lemma compare_cons c s c' s' : String.compare (String c s) (String c' s') =
  match (Ascii.N_of_ascii c ?= Ascii.N_of_ascii c')%N with Eq => String.compare s s' | r => r end.
Proof. reflexivity. Qed.
#[export] Instance str_le_trans : Transitive str_le.
Proof.
  intros a. induction a as [|c a IH]; intros [|c2 b] [|c3 d]; rewrite !str_compare_le; try done.
  rewrite !compare_cons.
  destruct (N.compare_spec (Ascii.N_of_ascii c) (Ascii.N_of_ascii c2)) as [E1|E1|E1]; [| |done];
    destruct (N.compare_spec (Ascii.N_of_ascii c2) (Ascii.N_of_ascii c3)) as [E2|E2|E2]; try done;
    destruct (N.compare_spec (Ascii.N_of_ascii c) (Ascii.N_of_ascii c3)) as [E3|E3|E3]; try done; try lia.
  intros H1 H2. apply str_compare_le, (IH b d); by apply str_compare_le.
Qed.
#[export] Instance str_le_total : Total str_le.
Proof.
  intros a b. rewrite !str_compare_le, (String.compare_antisym a b). by destruct (String.compare b a); [left|right|left].
Qed.
Lemma str_le_antisym a b : str_le a b → str_le b a → a = b.
Proof.
  rewrite !str_compare_le, (String.compare_antisym a b). destruct (String.compare b a) eqn:E; try done.
  intros _ _. by apply String.compare_eq_iff in E.
Qed.

(** The default model comes first, the others in the order of their names. *)
Definition id_le (m a b : string) : Prop := a = b ∨ a = m ∨ b ≠ m ∧ str_le a b.
Lemma id_le_trans m a b c : id_le m a b → id_le m b c → id_le m a c.
Proof.
  unfold id_le. pose proof (transitivity (R:=str_le) (x:=a) (y:=b) (z:=c)).
  intros [?|[?|[? ?]]] [?|[?|[? ?]]]; subst; auto; try tauto.
Qed.
Lemma id_le_total m a b : id_le m a b ∨ id_le m b a.
Proof.
  unfold id_le. destruct (decide (a = m)); [tauto|]. destruct (decide (b = m)); [tauto|]. destruct (total str_le a b); tauto.
Qed.
Lemma id_le_antisym m a b : id_le m a b → id_le m b a → a = b.
Proof. unfold id_le. pose proof (str_le_antisym a b). intros [?|[?|[? ?]]] [?|[?|[? ?]]]; try congruence; auto. Qed.

Section order.
Context (m : string) (desired : Z).
Let strength (b : ModelBinding) : Z := modelStrength (bd_config b).
Let distance (b : ModelBinding) : Z := strengthDistance (strength b) desired.

Lemma candidate_le_spec a b : candidate_le m desired a b ↔
  (distance a < distance b)%Z ∨ distance a = distance b ∧
    ((strength b < strength a)%Z ∨ strength a = strength b ∧ id_le m (bd_id a) (bd_id b)).
Proof.
  unfold candidate_le, candidate_cmp, id_le, distance, strength. cbv zeta.
  destruct (Z.eqb_spec (strengthDistance (modelStrength (bd_config a)) desired) (strengthDistance (modelStrength (bd_config b)) desired)); simpl; [|lia].
  destruct (Z.eqb_spec (modelStrength (bd_config a)) (modelStrength (bd_config b))); simpl; [|lia].
  case_bool_decide as E1; [split; [by auto 10|lia]|]. case_bool_decide as E2; [split; [by auto 10|lia]|].
  case_bool_decide as E3.
  - split; [lia|]. intros [?|[_ [?|[_ [?|[?|[? _]]]]]]]; by try lia.
  - unfold str_le. split; [by auto 10|]. intros [?|[_ [?|[_ [?|[?|[_ ?]]]]]]]; by try lia.
Qed.
#[export] Instance candidate_le_trans : Transitive (candidate_le m desired).
Proof.
  intros a b c. rewrite !candidate_le_spec. pose proof (id_le_trans m (bd_id a) (bd_id b) (bd_id c)) as Ht.
  intros [?|[? [?|[? ?]]]] [?|[? [?|[? ?]]]]; try (left; lia); right; (split; [lia|]); try (left; lia).
  right. split; [lia|auto].
Qed.
#[export] Instance candidate_le_total : Total (candidate_le m desired).
Proof.
  intros a b. rewrite !candidate_le_spec. pose proof (id_le_total m (bd_id a) (bd_id b)).
  destruct (Z.lt_trichotomy (distance a) (distance b)) as [?|[?|?]]; [tauto| |tauto].
  destruct (Z.lt_trichotomy (strength a) (strength b)) as [?|[?|?]]; [right; right; split; [lia|tauto]| |left; right; tauto].
  destruct H; [left|right]; right; (split; [lia|]); right; (split; [lia|done]).
Qed.
Lemma candidate_le_antisym a b : candidate_le m desired a b → candidate_le m desired b a → bd_id a = bd_id b.
Proof.
  rewrite !candidate_le_spec. intros H1 H2. apply (id_le_antisym m).
  - destruct H1 as [?|[? [?|[? ?]]]]; [lia|lia|done].
  - destruct H2 as [?|[? [?|[? ?]]]]; [lia|lia|done].
Qed.
End order.

(** ** The choice *)
Section choice.
Context {H : Host} {MH : ModelHost} {U : Unicode} {RH : RoutingHost}.

(** What a binding needs to be a candidate, and what stops the choice. *)
Definition eligible (r : Router) (d : db) (minimum : Z) (b : ModelBinding) : bool :=
  suitable r minimum b && bool_decide (ro_context r b d = None).
Definition refused (r : Router) (d : db) (minimum : Z) (b : ModelBinding) : bool :=
  suitable r minimum b && match ro_context r b d with
                          | Some e => negb (is_context_limit e) && negb (is_capability e) && negb (is_boundary e)
                          | None => false end.

Lemma filter_bool_cons {A} (p : A → bool) x l :
  filter (λ x, p x = true) (x :: l) = if p x then x :: filter (λ x, p x = true) l else filter (λ x, p x = true) l.
Proof. rewrite filter_cons. by destruct (p x). Qed.
Lemma candidates_spec r d m l :
  if existsb (refused r d m) l then ∃ e, candidates r d m l = Err e
  else ∃ large, candidates r d m l = Ok (filter (λ b, eligible r d m b = true) l, large).
Proof.
  induction l as [|b l IH]; [by exists false|]. simpl existsb. cbn [candidates]. rewrite filter_bool_cons.
  unfold refused at 1, eligible at 1. destruct (suitable r m b); simpl; [|done].
  destruct (ro_context r b d) as [e|]; simpl.
  - destruct (is_context_limit e); simpl.
    + destruct (existsb _ l); [destruct IH as [e' ->]; by exists e'|destruct IH as [g ->]; by exists true].
    + destruct (is_capability e), (is_boundary e); simpl; try done. by exists e.
  - destruct (existsb _ l); [destruct IH as [e' ->]; by exists e'|destruct IH as [g ->]; by exists g].
Qed.
Lemma candidates_ok r d m l f : candidates r d m l = Ok f → f.1 = filter (λ b, eligible r d m b = true) l.
Proof.
  intros Hf. pose proof (candidates_spec r d m l) as Hs. rewrite Hf in Hs.
  destruct (existsb _ l); [by destruct Hs|]. destruct Hs as [g [= ->]]. done.
Qed.
Lemma existsb_perm {A} (p : A → bool) l l' : l ≡ₚ l' → existsb p l = existsb p l'.
Proof. induction 1; simpl; try congruence. by destruct (p x), (p y). Qed.

(** Whatever sorts the candidates, the result is the same: their identifiers
    differ and the order is total. *)
Lemma sorted_candidates_unique r l k : NoDup (map bd_id l) → k ≡ₚ l →
  StronglySorted (candidate_le (ms_default (ro_config r)) (taskStrength (ro_prompt r)).1) k → k = sorted_candidates r l.
Proof.
  intros Hn Hp Hs. unfold sorted_candidates. apply (StronglySorted_unique_strong (candidate_le (ms_default (ro_config r)) (taskStrength (ro_prompt r)).1));
    [|done|apply StronglySorted_merge_sort; apply _|by rewrite merge_sort_Permutation].
  intros x y Hx Hy H1 H2. apply (NoDup_map_inj bd_id l); [done|by rewrite <- Hp| |by eapply candidate_le_antisym].
  by rewrite merge_sort_Permutation in Hy.
Qed.

(** ** What the choice is specified by *)

(** What makes a model of the pool acceptable, apart from its context: its
    provider needs no key, or has one that is enabled; it is as strong as asked; it
    has tools when the task needs them; it is configured as when it was bound. *)
Record acceptable (r : Router) (minimum : Z) (b : ModelBinding) : Prop := {
  ac_provider : mo_provider (bd_config b) = "echo" ∨ mo_key (bd_config b) = "" ∨
    ms_providers (ro_config r) !! mo_key (bd_config b) = Some true;
  ac_strength : (minimum <= modelStrength (bd_config b))%Z;
  ac_tools : taskNeedsTools (ro_prompt r) = true → mc_tools (mo_capabilities (bd_config b)) ≠ "none" ∧ ro_tools r = true;
  ac_unchanged : ms_models (ro_config r) !! bd_id b = Some (bd_config b);
}.
Record usable (r : Router) (d : db) (minimum : Z) (b : ModelBinding) : Prop := {
  ub_acceptable : acceptable r minimum b;
  ub_context : ro_context r b d = None;
}.
(** What a model costs: the strength it has too much, four times what it lacks. *)
Definition misfit (desired : Z) (b : ModelBinding) : Z :=
  Z.max (modelStrength (bd_config b) - desired) (4 * (desired - modelStrength (bd_config b))).
(** The order in which models are tried: the least misfit first; of those the
    stronger; then the default model; then by name. *)
Definition tried_before (default_model : string) (desired : Z) (a b : ModelBinding) : Prop :=
  (misfit desired a < misfit desired b)%Z ∨
  misfit desired a = misfit desired b ∧
    ((modelStrength (bd_config b) < modelStrength (bd_config a))%Z ∨
     modelStrength (bd_config a) = modelStrength (bd_config b) ∧
       (bd_id a = default_model ∨ bd_id b ≠ default_model ∧ String.compare (bd_id a) (bd_id b) ≠ Gt)).

Lemma suitable_acceptable r m b : suitable r m b = true ↔ acceptable r m b.
Proof.
  unfold suitable, ProviderEnabled. rewrite !andb_true_iff, !orb_true_iff, negb_true_iff, andb_false_iff, orb_false_iff, Z.leb_le,
    !bool_decide_eq_true, bool_decide_eq_false, negb_false_iff. split.
  - intros [[[[[Hp|Hp]|Hp] Hs] Ht] Hu]; (split; [|done| |done]); auto; try (intros Hn; destruct Ht as [Ht|Ht]; [congruence|done]).
    right; right. by destruct (ms_providers (ro_config r) !! mo_key (bd_config b)) as [[]|].
  - intros [Hp Hs Ht Hu]. split_and!; try done.
    + destruct Hp as [Hp|[Hp|Hp]]; [auto..|right; by rewrite Hp].
    + destruct (taskNeedsTools (ro_prompt r)); [right; by apply Ht|by left].
Qed.
Lemma eligible_usable r d m b : eligible r d m b = true ↔ usable r d m b.
Proof.
  unfold eligible. rewrite andb_true_iff, suitable_acceptable, bool_decide_eq_true. split; [by intros []|by intros []].
Qed.
#[export] Instance usable_dec r d m b : Decision (usable r d m b).
Proof. refine (cast_if (decide (eligible r d m b = true))); by rewrite <- eligible_usable. Defined.
Lemma misfit_distance desired b : strengthDistance (modelStrength (bd_config b)) desired = misfit desired b.
Proof. unfold strengthDistance, misfit. destruct (Z.leb_spec desired (modelStrength (bd_config b))); lia. Qed.
Lemma candidate_tried m desired a b : candidate_le m desired a b → bd_id a = bd_id b ∨ tried_before m desired a b.
Proof.
  rewrite candidate_le_spec, !misfit_distance. unfold tried_before, id_le. rewrite str_compare_le. tauto.
Qed.
Lemma sorted_tried m desired l : NoDup (map bd_id l) → StronglySorted (candidate_le m desired) l → StronglySorted (tried_before m desired) l.
Proof.
  induction l as [|a l IH]; [constructor|]. simpl. intros [Ha Hn]%NoDup_cons [Hs Hf]%StronglySorted_inv. constructor; [by apply IH|].
  rewrite Forall_forall in *. intros b Hb. destruct (candidate_tried _ _ _ _ (Hf b Hb)) as [E|?]; [|done].
  destruct Ha. rewrite E. by apply list_elem_of_fmap_2.
Qed.
Lemma candidates_error r d m l e : candidates r d m l = Err e → ∃ x, x ∈ l ∧ acceptable r m x ∧ ro_context r x d = Some e ∧
  is_context_limit e = false ∧ is_capability e = false ∧ is_boundary e = false.
Proof.
  induction l as [|b l IH]; [done|]. simpl. destruct (negb (suitable r m b)) eqn:Es.
  { intros (x & Hx & ?)%IH. exists x. split; [by right|done]. }
  apply negb_false_iff, suitable_acceptable in Es. destruct (ro_context r b d) as [e'|] eqn:Ec.
  - destruct (is_context_limit e') eqn:E1.
    + destruct (candidates r d m l); [done|]. intros [= <-]. destruct IH as (x & Hx & ?); [done|]. exists x. split; [by right|done].
    + destruct (is_capability e' || is_boundary e') eqn:E2; [intros (x & Hx & ?)%IH; exists x; split; [by right|done]|].
      intros [= <-]. apply orb_false_iff in E2 as [E2 E3]. exists b. split; [by left|done].
  - destruct (candidates r d m l); [done|]. intros [= <-]. destruct IH as (x & Hx & ?); [done|]. exists x. split; [by right|done].
Qed.

(** C27: The automatic choice, whatever the pool of models (each once) and the
    task. It names all usable models of the pool, and no other, in the order in
    which they are to be tried, and chooses the first of them: usable are those
    whose provider is enabled, which are strong enough, have the tools the task
    needs, are configured as they were bound, and can take the request; the order
    is the misfit to the strength the task asks for, then the stronger, then the
    default model, then the name. It fails only when no model of the pool is
    usable, or when the request to an acceptable model could not be built for a
    reason other than the limits and capabilities of that model. *)
Theorem choice_is_best r d pool minimum : NoDup (map bd_id pool) →
  match chooseAuto r d pool minimum with
  | Ok (b, ids) => ∃ rest, ids = map bd_id (b :: rest) ∧
      b :: rest ≡ₚ filter (usable r d minimum) pool ∧
      StronglySorted (tried_before (ms_default (ro_config r)) (taskStrength (ro_prompt r)).1) (b :: rest)
  | Err e => (e = ErrContextLimit ∨ e = ErrModelCapability) ∧ (∀ x, x ∈ pool → ¬ usable r d minimum x) ∨
      ∃ x, x ∈ pool ∧ acceptable r minimum x ∧ ro_context r x d = Some e ∧
        is_context_limit e = false ∧ is_capability e = false ∧ is_boundary e = false
  end.
Proof.
  intros Hn. unfold chooseAuto. destruct (candidates r d minimum pool) as [f|e] eqn:Ec; simpl; [|right; by eapply candidates_error].
  apply candidates_ok in Ec. unfold sorted_candidates.
  set (R := candidate_le (ms_default (ro_config r)) (taskStrength (ro_prompt r)).1).
  assert (Hf : f.1 = filter (usable r d minimum) pool) by (rewrite Ec; apply list_filter_iff; intros x; apply eligible_usable).
  pose proof (merge_sort_Permutation R f.1) as Hp. pose proof (StronglySorted_merge_sort R f.1) as Hs.
  destruct (merge_sort R f.1) as [|b rest].
  - left. split; [by destruct f.2; auto|]. intros x Hx Hu. apply Permutation_nil in Hp.
    assert (Hin : x ∈ f.1) by (rewrite Hf; by apply list_elem_of_filter). rewrite Hp in Hin. by apply not_elem_of_nil in Hin.
  - exists rest. split; [done|]. split; [by rewrite Hp, Hf|]. apply sorted_tried; [|exact Hs].
    rewrite Hp, Hf. by apply NoDup_map_filter.
Qed.

(** The automatic choice does not depend on the order in which the pool of
    models is stored or enumerated. *)
Theorem choice_order_free r d pool pool' minimum x : NoDup (map bd_id pool) → pool ≡ₚ pool' →
  chooseAuto r d pool minimum = Ok x → chooseAuto r d pool' minimum = Ok x.
Proof.
  unfold chooseAuto. intros Hn Hp Hc. pose proof (candidates_spec r d minimum pool') as Hs.
  rewrite <- (existsb_perm _ _ _ Hp) in Hs. pose proof (candidates_spec r d minimum pool) as Hs0.
  destruct (existsb _ pool); [by destruct Hs0 as [e E]; rewrite E in Hc|].
  destruct Hs0 as [g0 E0], Hs as [g E]. rewrite E0 in Hc. rewrite E. cbn [mbind res_mbind fst snd] in *.
  set (l := filter _ pool) in *. set (l' := filter _ pool').
  assert (Hl : l ≡ₚ l') by (unfold l, l'; by rewrite Hp).
  assert (Hnl : NoDup (map bd_id l)) by (by apply NoDup_map_filter).
  rewrite <- (sorted_candidates_unique r l' (sorted_candidates r l)).
  - destruct (sorted_candidates r l); [by destruct g0|done].
  - by rewrite <- Hl.
  - unfold sorted_candidates. by rewrite merge_sort_Permutation.
  - apply StronglySorted_merge_sort; apply _.
Qed.
End choice.

(** ** The snapshot stays readable *)
Section snapshot.
Context {H : Host} {MH : ModelHost}.

(** [selection_valid], as propositions. *)
Record selection_ok (s : RunSelection) : Prop := {
  so_bindings : (1 <= zlen (sn_bindings s) <= 64)%Z;
  so_each : ∀ b, b ∈ sn_bindings s → validateBinding b = Ok tt;
  so_limits : ∀ l, sn_limits s = Some l → limits_validate l = Ok tt;
  so_routing : (zlen (sn_routing s) <= 64)%Z;
  so_decisions : ∀ d, d ∈ sn_routing s → routing_validate d = true;
  so_follows : ∀ b l, sn_bindings s = b :: l → sn_routing s ≠ [] → follows 0 None b l (sn_routing s) = Some [];
  so_policy : ∀ p, sn_auto s = Some p → policy_validate p = true ∧ ∃ d, last (sn_routing s) = Some d ∧ rd_mode d = "auto" ∧
    (∃ m, m ∈ ap_models p ∧ selects d m = true) ∧ (rd_assessments d <= ap_max_assessments p)%Z ∧ (rd_upgrades d <= ap_max_upgrades p)%Z;
}.
Lemma is_ok_unit (r : res unit) : is_ok r = true ↔ r = Ok tt.
Proof. by destruct r as [[]|]. Qed.
Lemma forallb_elem {A} (p : A → bool) l : forallb p l = true ↔ ∀ x, x ∈ l → p x = true.
Proof. rewrite forallb_forall. by setoid_rewrite <- list_elem_of_In. Qed.
Lemma existsb_elem {A} (p : A → bool) l : existsb p l = true ↔ ∃ x, x ∈ l ∧ p x = true.
Proof. rewrite existsb_exists. by setoid_rewrite <- list_elem_of_In. Qed.

Lemma selection_valid_ok s : selection_valid s = true ↔ selection_ok s.
Proof.
  unfold selection_valid, in_range. rewrite !andb_true_iff, !forallb_elem, !Z.leb_le. split.
  - intros [[[[[[[[A1 A2] H1] H2] H3] H4] H5] H6] H7]. split; [done| | |done|done| |].
    + intros b Hb. by apply is_ok_unit, H1.
    + intros l E. rewrite E in H2. by apply is_ok_unit.
    + intros b l Eb Er. rewrite Eb in H6. destruct (sn_routing s); [done|]. by apply bool_decide_eq_true in H6.
    + intros p E. rewrite E in H3, H7. split; [done|]. destruct (last (sn_routing s)) as [d|]; [|done].
      exists d. bool_prop. by rewrite existsb_elem in *.
  - intros [[A1 A2] H1 H2 H3 H4 H5 H6]. split_and!; try done.
    + intros b Hb. by apply is_ok_unit, H1.
    + destruct (sn_limits s); [|done]. by apply is_ok_unit, H2.
    + destruct (sn_auto s) as [p|]; [|done]. by apply (H6 p).
    + destruct (sn_bindings s) as [|b l] eqn:Eb; [done|]. destruct (sn_routing s) eqn:Er; [done|].
      apply bool_decide_eq_true. by apply H5.
    + destruct (sn_auto s) as [p|]; [|done]. destruct (H6 p eq_refl) as (_ & d & -> & Hm & Hs & Ha & Hu).
      rewrite !andb_true_iff, existsb_elem, bool_decide_eq_true, !Z.leb_le. done.
Qed.

(** A decision appended where the decisions have reached a binding. *)
Lemma follows_snoc d l : ∀ i p b bs rest, follows i p b bs l = Some rest →
  ∃ k, bs = k ++ rest ∧ (∀ dl, last l = Some dl → selects dl (default b (last k)) = true) ∧
    ∀ x, follows i p b (bs ++ x) (l ++ [d]) =
         follows (i + length l) (match last l with Some dl => Some dl | None => p end) (default b (last k)) (rest ++ x) [d].
Proof.
  induction l as [|d0 l IH]; intros i p b bs rest Hf.
  { injection Hf as ->. exists []. split_and!; [done|done|]. intros x. by rewrite Nat.add_0_r. }
  cbn [follows] in Hf. cbv zeta in Hf. match type of Hf with context [negb ?c] => destruct c eqn:Ec end; [|done]. simpl negb in Hf.
  assert (Hlast : ∀ dl, last (d0 :: l) = Some dl → last l = Some dl ∨ l = [] ∧ dl = d0).
  { intros dl E. destruct l; [right; by injection E as ->|by left]. }
  assert (Hprev : match last (d0 :: l) with Some dl => Some dl | None => p end = match last l with Some dl => Some dl | None => Some d0 end).
  { destruct l as [|d1 l]; [done|]. change (last (d0 :: d1 :: l)) with (last (d1 :: l)).
    destruct (last (d1 :: l)) eqn:E; [done|]. by apply last_None in E. }
  destruct (selects d0 b) eqn:Es.
  - destruct (IH _ _ _ _ _ Hf) as (k & -> & H1 & H2). exists k. split_and!; [done| |].
    + intros dl [E|[-> ->]]%Hlast; [by apply H1|]. injection Hf as Hk.
      destruct k; [done|]. by apply (f_equal length) in Hk; rewrite length_app in Hk; simpl in Hk; lia.
    + intros x. rewrite Hprev. replace (i + length (d0 :: l))%nat with (S i + length l)%nat by (simpl; lia).
      rewrite <- H2. simpl app. cbn [follows]. cbv zeta. rewrite Ec, Es. done.
  - destruct bs as [|b' bs]; [done|]. destruct (negb (bool_decide (i = 0%nat)) && selects d0 b') eqn:En; [|done].
    destruct (IH _ _ _ _ _ Hf) as (k & -> & H1 & H2). exists (b' :: k).
    assert (Hd : default b (last (b' :: k)) = default b' (last k)).
    { destruct k as [|b2 k]; [done|]. change (last (b' :: b2 :: k)) with (last (b2 :: k)). destruct (last (b2 :: k)) eqn:E; [done|]. by apply last_None in E. }
    rewrite Hd. split_and!; [done| |].
    + intros dl [E|[-> ->]]%Hlast; [by apply H1|]. injection Hf as Hk. destruct k; [by apply andb_true_iff in En as [_ ?]|].
      by apply (f_equal length) in Hk; rewrite length_app in Hk; simpl in Hk; lia.
    + intros x. rewrite Hprev. replace (i + length (d0 :: l))%nat with (S i + length l)%nat by (simpl; lia).
      rewrite <- H2. simpl app. cbn [follows]. cbv zeta. rewrite Ec, Es, En. done.
Qed.

(** Where the decisions of a readable snapshot have reached. *)
Lemma current_cons s b l : sn_bindings s = b :: l → current_binding s = default b (last l).
Proof.
  unfold current_binding. intros ->. destruct l as [|b' l]; [done|]. change (last (b :: b' :: l)) with (last (b' :: l)).
  destruct (last (b' :: l)) eqn:E; [done|]. by apply last_None in E.
Qed.
Lemma current_in s : sn_bindings s ≠ [] → current_binding s ∈ sn_bindings s.
Proof.
  unfold current_binding. intros Hn. destruct (last (sn_bindings s)) as [b|] eqn:E; [|by apply last_None in E].
  by apply last_Some_elem_of.
Qed.
Lemma last_selects s d : selection_ok s → last (sn_routing s) = Some d → selects d (current_binding s) = true.
Proof.
  intros [[A1 A2] H1 H2 H3 H4 H5 H6] Hd. destruct (sn_bindings s) as [|b l] eqn:Eb; [done|].
  rewrite (current_cons s b l Eb). assert (Hn : sn_routing s ≠ []) by (intros E; by rewrite E in Hd).
  destruct (follows_snoc d _ _ _ _ _ _ (H5 b l eq_refl Hn)) as (k & Ek & Hk & _). rewrite app_nil_r in Ek. subst k. by apply Hk.
Qed.

(** One more decision keeps the snapshot readable. *)
Definition counts_grow (p d : RoutingDecision) : bool :=
  (rd_assessments p <=? rd_assessments d)%Z && (rd_upgrades p <=? rd_upgrades d)%Z && (rd_upgrades d <=? rd_upgrades p + 1)%Z.
Lemma selection_step s b d p auto : selection_ok s → last (sn_routing s) = Some p → counts_grow p d = true →
  routing_validate d = true → selects d b = true → validateBinding b = Ok tt →
  (b = current_binding s ∨ selects d (current_binding s) = false) →
  (zlen (bind_next s b) <= 64)%Z → (zlen (sn_routing s ++ [d]) <= 64)%Z →
  (∀ q, auto = Some q → policy_validate q = true ∧ rd_mode d = "auto" ∧ (∃ m, m ∈ ap_models q ∧ selects d m = true) ∧
     (rd_assessments d <= ap_max_assessments q)%Z ∧ (rd_upgrades d <= ap_max_upgrades q)%Z) →
  selection_ok (mkRunSelection (bind_next s b) (sn_limits s) auto (sn_routing s ++ [d])).
Proof.
  intros Hok Hp Hc Hd Hs Hv Hb Hl1 Hl2 Ha. pose proof Hok as [[A1 A2] H1 H2 H3 H4 H5 H6].
  assert (Hbn : ∀ x, x ∈ bind_next s b → x = b ∨ x ∈ sn_bindings s).
  { unfold bind_next. intros x. case_bool_decide; [by right|]. rewrite elem_of_app, list_elem_of_singleton. tauto. }
  split; simpl; try done.
  - split; [|done]. unfold bind_next. case_bool_decide; [done|]. rewrite zlen_app. unfold zlen in *. simpl. lia.
  - intros x [->|Hx]%Hbn; [done|by apply H1].
  - intros x [Hx| ->%list_elem_of_singleton]%elem_of_app; [by apply H4|done].
  - intros b0 l0 Eb0 _. destruct (sn_bindings s) as [|b1 l1] eqn:Eb; [done|].
    pose proof (current_cons s b1 l1 Eb) as Hcur.
    assert (Hn : sn_routing s ≠ []) by (intros E; by rewrite E in Hp).
    destruct (follows_snoc d _ _ _ _ _ _ (H5 b1 l1 eq_refl Hn)) as (k & Ek & _ & Hk). rewrite app_nil_r in Ek. subst k.
    unfold bind_next in Eb0. rewrite Eb in Eb0. case_bool_decide as Ec.
    + injection Eb0 as <- <-. specialize (Hk []). rewrite app_nil_r in Hk. rewrite Hk, Hp, <- Hcur, Ec. cbn [follows app]. cbv zeta.
      unfold counts_grow in Hc. by rewrite Hc, Hs.
    + injection Eb0 as <- <-. specialize (Hk [b]). rewrite Hk, Hp, <- Hcur. cbn [follows app]. cbv zeta.
      unfold counts_grow in Hc. rewrite Hc. destruct Hb as [Hb|Hb]; [by rewrite Hb in Ec|]. rewrite Hb, Hs.
      rewrite bool_decide_eq_false_2; [done|]. destruct (sn_routing s); [done|]. simpl. lia.
  - intros q Eq. destruct (Ha q Eq) as (? & ? & ? & ? & ?). split; [done|]. exists d. by rewrite last_snoc.
Qed.

(** The bindings of a pool. *)
Lemma pool_valid_each seen l : pool_valid seen l = true → (∀ b, b ∈ l → validateBinding b = Ok tt ∧ bd_id b ∉ seen) ∧ NoDup (map bd_id l).
Proof.
  revert seen. induction l as [|b l IH]; intros seen; simpl; [split; [set_solver|constructor]|].
  rewrite !andb_true_iff, negb_true_iff, bool_decide_eq_false, is_ok_unit. intros [[Hb Hn] [Hl Hd]%IH]. split.
  - intros x [->|Hx]%elem_of_cons; [done|]. destruct (Hl x Hx). set_solver.
  - apply NoDup_cons. split; [|done]. intros (x & E & Hx)%list_elem_of_fmap. destruct (Hl x Hx) as [_ Hx']. rewrite <- E in Hx'. set_solver.
Qed.
Lemma policy_pool p : policy_validate p = true → (∀ b, b ∈ ap_models p → validateBinding b = Ok tt) ∧ NoDup (map bd_id (ap_models p)) ∧
  (zlen (ap_models p) <= 32)%Z ∧ (ap_max_assessments p <= 1)%Z ∧ (ap_max_upgrades p <= 2)%Z.
Proof.
  unfold policy_validate, in_range. intros Hp. bool_prop. destruct (pool_valid_each [] (ap_models p)) as [Hb Hn]; [done|].
  split_and!; try done. intros b Hb'. by apply Hb.
Qed.
Lemma selects_same d b m : selects d b = true → selects d m = true → bd_id b = bd_id m.
Proof. unfold selects. intros. bool_prop. congruence. Qed.

(** The decisions the code makes are valid. *)
Lemma candidates_valid_spec seen l : candidates_valid seen l = true ↔ (∀ i, i ∈ l → validModelID i = true ∧ i ∉ seen) ∧ NoDup l.
Proof.
  revert seen. induction l as [|i l IH]; intros seen; simpl; [split; [split; [set_solver|constructor]|done]|].
  rewrite !andb_true_iff, negb_true_iff, bool_decide_eq_false, IH, NoDup_cons. set_solver.
Qed.
Lemma binding_parts b : validateBinding b = Ok tt → validModelID (bd_id b) = true ∧ bd_revision b = model_revision (bd_config b).
Proof. unfold validateBinding. intros Hv. cbv zeta in Hv. apply res_bind_ok in Hv as ([] & Hv%check_ok & _). by bool_prop. Qed.

Hypothesis sha_length : ∀ s, String.length (sha256hex s) = 64%nat.
Lemma routingDecision_valid b mode reason ids a u : validateBinding b = Ok tt → one_of mode ["manual"; "auto"] = true →
  reason ≠ "" → (String.length reason <= 1024)%nat → (zlen ids <= 32)%Z → (0 <= a <= 1)%Z → (0 <= u <= 2)%Z →
  candidates_valid [] ids = true → (mode = "auto" → bd_id b ∈ ids) → routing_validate (routingDecision b mode reason ids a u) = true.
Proof.
  intros [Hv Hr]%binding_parts Hm H1 H2 H3 [A1 A2] [U1 U2] Hc Ha. unfold routing_validate, routingDecision, in_range. simpl.
  rewrite Hm, Hv, Hr, Hc. unfold model_revision. rewrite sha_length.
  rewrite !andb_true_iff, !negb_true_iff, !bool_decide_eq_true, bool_decide_eq_false, !Z.leb_le, Nat.leb_le.
  unfold one_of in Hm. apply bool_decide_eq_true in Hm. split_and!; try done.
  - case_bool_decide as E; [|done]. by rewrite bool_decide_eq_true_2.
  - apply elem_of_cons in Hm as [->|Hm]; [by rewrite !bool_decide_eq_true_2|].
    apply list_elem_of_singleton in Hm as ->. done.
  - case_bool_decide as E; [|done]. rewrite bool_decide_eq_true_2; [done|]. by apply Ha.
Qed.
Lemma routing_counts d : routing_validate d = true → (0 <= rd_assessments d <= 1)%Z ∧ (0 <= rd_upgrades d <= 2)%Z ∧ (zlen (rd_candidates d) <= 32)%Z ∧
  candidates_valid [] (rd_candidates d) = true ∧ (rd_mode d = "auto" → rd_selected d ∈ rd_candidates d).
Proof.
  unfold routing_validate, in_range. intros Hd. bool_prop. split_and!; try done.
  intros Hm. match goal with E : bool_decide (rd_mode d = "auto") && negb (bool_decide (rd_selected d ∈ _)) = false |- _ =>
    rewrite (bool_decide_eq_true_2 _ Hm) in E; simpl in E; apply negb_false_iff, bool_decide_eq_true in E; done end.
Qed.
End snapshot.

(** ** Every operation keeps it *)
Section operations.
Context {H : Host} {MH : ModelHost} {U : Unicode} {RH : RoutingHost}.
Hypothesis sha_length : ∀ s, String.length (sha256hex s) = 64%nat.

(** A readable snapshot with a decision; while the choice is automatic the
    binding is one of the pool, and a reason that an assessment may extend is
    short. *)
Definition well_routed (s : RunSelection) : Prop :=
  selection_ok s ∧ sn_routing s ≠ [] ∧
  ∀ p, sn_auto s = Some p → current_binding s ∈ ap_models p ∧
    ∀ d, last (sn_routing s) = Some d → rd_assessments d = 0%Z → (String.length (rd_reason d) <= 128)%nat.

Lemma routed_last s : well_routed s → ∃ d, last (sn_routing s) = Some d ∧ routing_validate d = true ∧ selects d (current_binding s) = true.
Proof.
  intros (Hok & Hn & _). destruct (last (sn_routing s)) as [d|] eqn:E; [|by apply last_None in E]. exists d.
  split_and!; [done| |by apply last_selects]. apply (so_decisions s Hok). by apply last_Some_elem_of.
Qed.
Lemma routed_current s : well_routed s → validateBinding (current_binding s) = Ok tt.
Proof.
  intros ([[A1 A2] H1 _ _ _ _ _] & _). apply H1, current_in. intros E. by rewrite E in A1.
Qed.
Lemma selects_decision b mode reason ids a u : selects (routingDecision b mode reason ids a u) b = true.
Proof. unfold selects. simpl. by rewrite !bool_decide_eq_true_2. Qed.
Lemma taskRoutingReason_short prompt : taskRoutingReason prompt ≠ "" ∧ (String.length (taskRoutingReason prompt) <= 128)%nat.
Proof. unfold taskRoutingReason. destruct (taskStrength prompt).2; [|destruct (_ =? 1)%Z]; (split; [done|simpl; lia]). Qed.
Lemma chosen_candidates r d p minimum b ids : policy_validate p = true → chooseAuto r d (ap_models p) minimum = Ok (b, ids) →
  b ∈ ap_models p ∧ validateBinding b = Ok tt ∧ candidates_valid [] ids = true ∧ (zlen ids <= 32)%Z ∧ bd_id b ∈ ids.
Proof.
  intros (Hv & Hn & Hl & _)%policy_pool. unfold chooseAuto. intros Hc. apply res_bind_ok in Hc as (f & Hf%candidates_ok & Hc).
  pose proof (merge_sort_Permutation (candidate_le (ms_default (ro_config r)) (taskStrength (ro_prompt r)).1) f.1) as Hp.
  fold (sorted_candidates r f.1) in Hp. destruct (sorted_candidates r f.1) as [|b' rest]; [by destruct f.2|].
  injection Hc as -> <-. rewrite Hf in Hp. change (bd_id b :: map bd_id rest) with (map bd_id (b :: rest)).
  assert (Hin : ∀ x, x ∈ b :: rest → x ∈ ap_models p) by (intros x; rewrite Hp; by intros [_ ?]%list_elem_of_filter).
  assert (Hb : b ∈ ap_models p) by (apply Hin; by left). split_and!; [done|by apply Hv| | |].
  - apply candidates_valid_spec. split.
    + intros i (x & -> & Hx)%list_elem_of_fmap. split; [|set_solver]. by apply binding_parts, Hv, Hin.
    + rewrite Hp. by apply NoDup_map_filter.
  - unfold zlen in *. rewrite length_map, Hp. pose proof (length_filter (λ x, eligible r d minimum x = true) (ap_models p)). lia.
  - apply list_elem_of_fmap. exists b. split; [done|by left].
Qed.

(** One binding and one decision. *)
Lemma routed_first b d auto : validateBinding b = Ok tt → routing_validate d = true → selects d b = true →
  (∀ p, auto = Some p → policy_validate p = true ∧ rd_mode d = "auto" ∧ b ∈ ap_models p ∧ rd_assessments d = 0%Z ∧ rd_upgrades d = 0%Z ∧
     (0 <= ap_max_assessments p)%Z ∧ (0 <= ap_max_upgrades p)%Z ∧ (String.length (rd_reason d) <= 128)%nat) →
  well_routed (mkRunSelection [b] None auto [d]).
Proof.
  intros Hb Hd Hs Ha. split; [|split; [done|]].
  - split; simpl; try done.
    + by intros x ->%list_elem_of_singleton.
    + by intros x ->%list_elem_of_singleton.
    + intros b0 l [= <- <-] _. by rewrite Hs.
    + intros p E. destruct (Ha p E) as (? & ? & ? & E1 & E2 & ? & ? & ?). split; [done|]. exists d. rewrite E1, E2. split_and!; try done. by exists b.
  - intros p E. destruct (Ha p E) as (? & ? & ? & ? & ? & ? & ? & ?). split; [done|]. by intros x [= ->].
Qed.

Lemma forTask_routed r d sel s : normalised_keys (ro_keys r) → forTask r d sel = Ok s → well_routed s.
Proof.
  intros Hk Hf. unfold forTask in Hf. apply res_bind_ok in Hf as (requested & _ & Hf). destruct (negb _).
  - apply res_bind_ok in Hf as (b & Hb%newBinding_valid & [= <-]); [|done].
    apply routed_first; [done| |apply selects_decision|done].
    apply routingDecision_valid; (done || (simpl; lia) || idtac).
  - apply res_bind_ok in Hf as (models & _ & Hf). apply res_bind_ok in Hf as ([] & _ & Hf). cbv zeta in Hf.
    set (p := mkAutoPolicy _ _ _ _) in Hf. apply res_bind_ok in Hf as ([] & Hp%check_ok & Hf).
    apply res_bind_ok in Hf as ([b ids] & Hc & [= <-]). simpl fst in *. simpl snd in *.
    destruct (chosen_candidates r d p 0 b ids Hp Hc) as (Hb & Hv & Hcv & Hl & Hin).
    destruct (taskRoutingReason_short (ro_prompt r)).
    apply routed_first; [done| |apply selects_decision|].
    + apply routingDecision_valid; (done || lia || idtac).
    + intros q [= <-]. split_and!; (done || idtac); unfold policy_validate, in_range in Hp; by bool_prop.
Qed.

(** One more decision. *)
Lemma current_next s b : last (bind_next s b) = Some b ∨ sn_bindings s = [].
Proof.
  unfold bind_next, current_binding. case_bool_decide as E; [|left; by rewrite last_snoc].
  destruct (last (sn_bindings s)) as [x|] eqn:El; [left; by rewrite <- E|right; by apply last_None].
Qed.
Lemma routed_next s b d p auto : well_routed s → last (sn_routing s) = Some p → counts_grow p d = true →
  routing_validate d = true → selects d b = true → validateBinding b = Ok tt →
  (b = current_binding s ∨ selects d (current_binding s) = false) →
  (zlen (bind_next s b) <= 64)%Z → (zlen (sn_routing s ++ [d]) <= 64)%Z →
  (∀ q, auto = Some q → policy_validate q = true ∧ rd_mode d = "auto" ∧ b ∈ ap_models q ∧ (rd_assessments d <= ap_max_assessments q)%Z ∧
     (rd_upgrades d <= ap_max_upgrades q)%Z ∧ (rd_assessments d = 0%Z → (String.length (rd_reason d) <= 128)%nat)) →
  well_routed (mkRunSelection (bind_next s b) (sn_limits s) auto (sn_routing s ++ [d])).
Proof.
  intros (Hok & Hn & Hauto) Hp Hc Hd Hs Hv Hb H1 H2 Ha. split; [|split].
  - apply (selection_step s b d p); try done. intros q E. destruct (Ha q E) as (? & ? & ? & ? & ? & _). split_and!; try done. by exists b.
  - by destruct (sn_routing s).
  - intros q E. destruct (Ha q E) as (_ & _ & Hin & _ & _ & Hr). split.
    + unfold current_binding. simpl. destruct (current_next s b) as [->|E']; [done|]. destruct Hok as [[A1 _] _ _ _ _ _ _]. by rewrite E' in A1.
    + intros x. simpl. rewrite last_snoc. by intros [= <-].
Qed.

(** Every run of the store is readable, and what an operation answers of it. *)
Definition all_routed (d : db) : Prop := ∀ r, r ∈ runs d → well_routed (rc_selection (run_config r)).
Definition keeps_routed {A} (Q : A → Prop) (m : M A) : Prop :=
  ∀ w, all_routed (w_db w) → all_routed (w_db (m w).2) ∧ ∀ a, (m w).1 = Ok a → Q a.
Lemma keeps_bind {A B} (P : A → Prop) (Q : B → Prop) m f : keeps_routed P m → (∀ a, P a → keeps_routed Q (f a)) → keeps_routed Q (m ≫= f).
Proof.
  intros Hm Hf w Hw. destruct (Hm w Hw) as [H1 H2]. unfold mbind, M_bind. destruct (m w) as [[a|e] w1]; [|by split].
  apply Hf; [by apply H2|done].
Qed.
Lemma keeps_weaken {A} (P Q : A → Prop) m : keeps_routed P m → (∀ a, P a → Q a) → keeps_routed Q m.
Proof. intros Hm HPQ w Hw. destruct (Hm w Hw). split; auto. Qed.
Lemma keeps_ret {A} (Q : A → Prop) a : Q a → keeps_routed Q (mret a).
Proof. intros Ha w Hw. split; [done|]. by intros x [= <-]. Qed.
Lemma keeps_fail {A} (Q : A → Prop) e : keeps_routed Q (fail e).
Proof. intros w Hw. by split. Qed.
Lemma keeps_guard b e : keeps_routed (λ _, b = true) (guard_ b e).
Proof. destruct b; [by apply keeps_ret|apply keeps_fail]. Qed.
Lemma keeps_query {A} (f : db → A) : keeps_routed (λ _, True) (query f).
Proof. intros w Hw. by split. Qed.
Lemma keeps_query_row {A} (f : db → option A) : keeps_routed (λ a, ∃ d, all_routed d ∧ f d = Some a) (query_row f).
Proof. intros w Hw. split; [done|]. unfold query_row. simpl. destruct (f (w_db w)) eqn:E; [|done]. intros x [= <-]. by exists (w_db w). Qed.
Lemma keeps_lift {A} (r : res A) : keeps_routed (λ a, r = Ok a) (lift r).
Proof. intros w Hw. by split. Qed.
Lemma keeps_now : keeps_routed (λ _, True) nowText.
Proof. intros w Hw. by split. Qed.
Lemma keeps_update p s now : well_routed s → keeps_routed (λ _, True) (update_runs p (set_run_selection s now)).
Proof.
  intros Hs w Hw. split; [|done]. unfold update_runs. rewrite bind_query. unfold id.
  destruct (runs_constraints _); [|done]. simpl. intros r (x & Hx & ->)%elem_of_update_rows. destruct (p x); [done|by apply Hw].
Qed.
Lemma keeps_saveRouting s run b d :
  ((zlen (bind_next s b) <= 64)%Z → (zlen (sn_routing s ++ [d]) <= 64)%Z → well_routed (decide_next s b d)) →
  keeps_routed (λ x, x.1 = decide_next s b d ∧ well_routed x.1) (saveRouting s run b d).
Proof.
  intros Hs. unfold saveRouting. cbv zeta. apply (keeps_bind _ _ _ _ (keeps_guard _ _)). intros [] Hl. simpl in Hl. bool_prop.
  apply (keeps_bind _ _ _ _ keeps_now). intros now _. apply (keeps_bind (λ _, True)); [by apply keeps_update, Hs|intros n _].
  apply (keeps_bind _ _ _ _ (keeps_guard _ _)). intros [] _. apply keeps_ret. split; [done|]. by apply Hs.
Qed.

Lemma proposed_spec r d cs answer l : ∀ kept, let c := proposed r d cs answer l kept in
  c = kept ∨ c.1 ∈ l ∧ bd_id c.1 ∈ cs ∧ c.2 = "bounded structured assessment: " +:+ answer.2.
Proof.
  induction l as [|b l IH]; intros kept; [by left|]. cbn [proposed]. cbv zeta in *.
  match goal with |- context [proposed r d cs answer l ?k] => destruct (IH k) as [->|(H1 & H2 & H3)] end.
  - destruct (bool_decide (bd_id b = answer.1) && _ && _) eqn:E; [|by left]. bool_prop. right. simpl. set_solver.
  - right. split_and!; [by right|done|done].
Qed.
Lemma assessed_spec r d p l b a : let c := assessed r d p l b a in
  (c.1 = b ∧ c.2 = rd_reason l +:+ "; structured assessment was invalid; retained conservative choice") ∨
  (c.1 ∈ ap_models p ∧ bd_id c.1 ∈ rd_candidates l ∧ ∃ t, c.2 = "bounded structured assessment: " +:+ t ∧ (String.length t <= 512)%nat).
Proof.
  unfold assessed. cbv zeta. destruct (assessment_of a) as [answer|] eqn:Ea; [|by left].
  assert (Hl : (String.length answer.2 <= 512)%nat).
  { unfold assessment_of in Ea. destruct (att_response a) as [[resp|t|t]|]; try done. destruct (assessment_json _) as [q|]; [|done].
    destruct (negb _ && _) eqn:E; [|done]. injection Ea as <-. apply andb_true_iff in E as [_ E]. by apply Nat.leb_le. }
  match goal with |- context [proposed r d ?cs answer ?l0 ?k] => destruct (proposed_spec r d cs answer l0 k) as [->|(H1 & H2 & H3)] end; [by left|].
  right. split_and!; [done|done|]. by exists answer.2.
Qed.

Lemma pool_unique p b c : policy_validate p = true → b ∈ ap_models p → c ∈ ap_models p → bd_id b = bd_id c → b = c.
Proof. intros (_ & Hn & _)%policy_pool. by apply NoDup_map_inj. Qed.

(** The decision of an assessment. *)
Lemma assessment_routed s p l r d a n : well_routed s → sn_auto s = Some p → last (sn_routing s) = Some l → rd_assessments l = 0%Z →
  (0 <= n <= ap_max_assessments p)%Z →
  let c := assessed r d p l (current_binding s) a in
  let dec := routingDecision c.1 "auto" c.2 (rd_candidates l) n (rd_upgrades l) in
  (n ≠ 0)%Z → (zlen (bind_next s c.1) <= 64)%Z → (zlen (sn_routing s ++ [dec]) <= 64)%Z → well_routed (decide_next s c.1 dec).
Proof.
  intros Hw Ep El El0 [N0 N1] c dec Hn0 L1 L2. pose proof Hw as (Hok & Hn & Hauto). destruct (Hauto p Ep) as [Hcur Hshort].
  destruct (so_policy s Hok p Ep) as (Hp & l' & El' & Hmode & Hsel & Ha & Hu). rewrite El in El'. injection El' as <-.
  destruct (routed_last s Hw) as (l' & El' & Hval & Hcs). rewrite El in El'. injection El' as <-.
  destruct (policy_pool p Hp) as (Hv & Hnd & _ & Hma & _). destruct (routing_counts l Hval) as (_ & HU & Hcl & Hcv & Hsc).
  destruct (assessed_spec r d p l (current_binding s) a) as [[E1 E2]|(E1 & E2 & t & E3 & Ht)]; fold c in E1, E2.
  - assert (Hdv : routing_validate dec = true).
    { apply routingDecision_valid; rewrite ?E1; (done || lia || idtac).
      - by apply routed_current.
      - fold c. rewrite E2. by destruct (rd_reason l).
      - fold c. rewrite E2, append_length. specialize (Hshort l El El0). simpl String.length. lia.
      - intros _. unfold selects in Hcs. bool_prop. match goal with E : rd_selected l = _ |- _ => rewrite <- E end. by apply Hsc. }
    apply (routed_next s c.1 dec l (sn_auto s)); try done.
    + unfold counts_grow, dec. simpl. rewrite El0, !andb_true_iff, !Z.leb_le. lia.
    + apply selects_decision.
    + rewrite E1. by apply routed_current.
    + by left.
    + rewrite Ep. intros q [= <-]. split_and!; (done || idtac). by rewrite E1.
  - fold c in E3. assert (Hdv : routing_validate dec = true).
    { apply routingDecision_valid; (done || lia || idtac).
      - by apply Hv.
      - fold c. by rewrite E3.
      - fold c. rewrite E3, append_length. simpl String.length. lia. }
    apply (routed_next s c.1 dec l (sn_auto s)); try done.
    + unfold counts_grow, dec. simpl. rewrite El0, !andb_true_iff, !Z.leb_le. lia.
    + apply selects_decision.
    + by apply Hv.
    + destruct (selects dec (current_binding s)) eqn:Es; [left|by right]. apply (pool_unique p); try done.
      apply (selects_same dec); [apply selects_decision|done].
    + rewrite Ep. intros q [= <-]. by split_and!.
Qed.

(** The decision of an upgrade, and the one that leaves the automatic choice. *)
Lemma upgrade_routed s p l r d minimum b ids : well_routed s → sn_auto s = Some p → last (sn_routing s) = Some l →
  (rd_upgrades l < ap_max_upgrades p)%Z → chooseAuto r d (ap_models p) minimum = Ok (b, ids) →
  existsb (λ x, bool_decide (bd_id x = bd_id b)) (sn_bindings s) = false →
  let dec := routingDecision b "auto" "safe-boundary capability upgrade; saved results and consumption retained" ids
               (rd_assessments l) (rd_upgrades l + 1) in
  (zlen (bind_next s b) <= 64)%Z → (zlen (sn_routing s ++ [dec]) <= 64)%Z → well_routed (decide_next s b dec).
Proof.
  intros Hw Ep El Hu Hc Hne dec L1 L2. pose proof Hw as (Hok & Hn & Hauto).
  destruct (so_policy s Hok p Ep) as (Hp & l' & El' & Hmode & Hsel & Ha & _). rewrite El in El'. injection El' as <-.
  destruct (routed_last s Hw) as (l' & El' & Hval & Hcs). rewrite El in El'. injection El' as <-.
  destruct (policy_pool p Hp) as (Hv & Hnd & _ & Hma & Hmu). destruct (routing_counts l Hval) as (HA & HU & _).
  destruct (chosen_candidates r d p minimum b ids Hp Hc) as (Hb & Hvb & Hcv & Hl & Hin).
  apply (routed_next s b dec l (sn_auto s)); try done.
  - unfold counts_grow, dec. simpl. rewrite !andb_true_iff, !Z.leb_le. lia.
  - apply routingDecision_valid; (done || lia || (simpl; lia) || idtac).
  - apply selects_decision.
  - right. destruct (selects dec (current_binding s)) eqn:Es; [|done]. exfalso. apply not_true_iff_false in Hne. apply Hne, existsb_elem.
    exists (current_binding s). split.
    + apply current_in. intros E. destruct Hok as [[A1 _] _ _ _ _ _ _]. by rewrite E in A1.
    + apply bool_decide_eq_true. symmetry. apply (selects_same dec); [apply selects_decision|done].
  - rewrite Ep. intros q [= <-]. split_and!; (done || simpl; lia).
Qed.
Lemma manual_routed s l n p reason : well_routed s → sn_auto s = Some p → last (sn_routing s) = Some l →
  (0 <= n <= ap_max_assessments p)%Z → reason ≠ "" → (String.length reason <= 1024)%nat →
  let b := current_binding s in
  let dec := routingDecision b "manual" reason [] (Z.max (rd_assessments l) n) (rd_upgrades l) in
  (zlen (bind_next s b) <= 64)%Z → (zlen (sn_routing s ++ [dec]) <= 64)%Z →
  well_routed (mkRunSelection (bind_next s b) (sn_limits s) None (sn_routing s ++ [dec])).
Proof.
  intros Hw Ep El Hn Hr1 Hr2 b dec L1 L2. pose proof Hw as (Hok & _ & _). destruct (so_policy s Hok p Ep) as (Hp & _).
  destruct (policy_pool p Hp) as (_ & _ & _ & Hma & _).
  destruct (routed_last s Hw) as (l' & El' & Hval & _). rewrite El in El'. injection El' as <-. destruct (routing_counts l Hval) as (HA & HU & _).
  apply (routed_next s b dec l None); try done.
  - unfold counts_grow, dec. simpl. rewrite !andb_true_iff, !Z.leb_le. lia.
  - apply routingDecision_valid; (done || lia || idtac). by apply routed_current.
  - apply selects_decision.
  - by apply routed_current.
  - by left.
Qed.

(** Preparing the model of a run keeps every run's snapshot one that the
    decoder accepts, with a decision for each binding, whatever happens in
    between (a failed assessment, a refused write, an exhausted upgrade), and
    what it answers is such a snapshot too. *)
Theorem prepareAuto_routed r refresh assess s run attempts w : well_routed s → all_routed (w_db w) →
  (∀ b v, all_routed (w_db v) → all_routed (w_db (assess b v).2)) →
  all_routed (w_db (prepareAuto r refresh assess s run attempts w).2) ∧
  ∀ x, (prepareAuto r refresh assess s run attempts w).1 = Ok x → well_routed x.1.
Proof.
  intros Hw Hall Hassess. revert w Hall. change (keeps_routed (λ x, well_routed x.1) (prepareAuto r refresh assess s run attempts)).
  unfold prepareAuto. destruct (sn_auto s) as [p|] eqn:Ep; [|by apply keeps_ret]. destruct (last (sn_routing s)) as [l|] eqn:El; [|apply keeps_fail].
  cbv zeta. pose proof Hw as (Hok & _ & _). destruct (so_policy s Hok p Ep) as (Hp & _).
  apply (keeps_bind _ _ _ _ (keeps_guard _ _)). intros [] Hcount%Z.leb_le.
  apply (keeps_bind (λ _, True)); [by destruct refresh as [[c|e]|]; (apply keeps_ret || apply keeps_fail)|intros current _].
  destruct (negb (authorized p current)).
  { eapply keeps_weaken; [apply keeps_saveRouting|by intros x []]. intros L1 L2.
    apply (manual_routed s l (Z.of_nat (count_if is_assessment attempts)) p); (done || lia || (simpl; lia)). }
  apply (keeps_bind (λ x, well_routed x.1.1 ∧ sn_auto x.1.1 = Some p ∧ last (sn_routing x.1.1) = Some x.2)).
  - destruct (negb _ && _ && (rd_assessments l =? 0)%Z && _ && _) eqn:Ec; [|by apply keeps_ret]. bool_prop.
    apply (keeps_bind (λ f : option Attempt * Z, f.1 = None ∨ f.2 = 1%Z ∨ f.2 = Z.of_nat (count_if is_assessment attempts) ∧ f.2 ≠ 0%Z)).
    + unfold saved_assessment. destruct (last (filter _ attempts)) as [a|] eqn:Ea.
      * apply keeps_ret. right; right. split; [done|]. apply last_Some_elem_of, list_elem_of_filter in Ea as [[Ea _] Hin]. simpl.
        intros E0. assert (E0' : count_if is_assessment attempts = 0%nat) by lia. rewrite count_if_zero in E0'. by rewrite E0' in Ea.
      * destruct (_ =? 0)%Z; [|apply keeps_ret; by left]. apply (keeps_bind (λ _, True)).
        -- intros w Hw'. split; [by apply Hassess|done].
        -- intros a _. apply keeps_ret. right; by left.
    + intros [[a|] n] Hf; [|apply keeps_fail]. simpl fst in *. simpl snd in *. apply (keeps_bind _ _ _ _ (keeps_guard _ _)). intros [] Hn%Z.leb_le.
      apply (keeps_bind _ _ _ _ (keeps_query _)). intros d _. cbv zeta.
      assert (Hn0 : (0 <= n <= ap_max_assessments p)%Z ∧ n ≠ 0%Z) by (destruct Hf as [?|[?|[? ?]]]; [done|lia|lia]). destruct Hn0 as [Hn1 Hn0].
      apply (keeps_bind _ _ _ _ (keeps_saveRouting _ _ _ _ (assessment_routed s p l r d a n Hw Ep El ltac:(done) Hn1 Hn0))).
      intros [s' run'] [Es' Hs']. apply keeps_ret. simpl in *. subst s'. split_and!; [done|done|]. simpl. by rewrite last_snoc.
  - intros [[s1 run1] l1] (Hw1 & Ep1 & El1). simpl fst in *. simpl snd in *. apply (keeps_bind _ _ _ _ (keeps_query _)). intros d _.
    destruct (ro_context r (current_binding s1) d) as [e|]; [|by apply keeps_ret].
    apply (keeps_bind _ _ _ _ (keeps_guard _ _)). intros [] _. apply (keeps_bind _ _ _ _ (keeps_guard _ _)). intros [] Hu%Z.ltb_lt.
    apply (keeps_bind _ _ _ _ (keeps_lift _)). intros [b ids] Hc. simpl fst in *. simpl snd in *.
    apply (keeps_bind _ _ _ _ (keeps_guard _ _)). intros [] Hne%negb_true_iff.
    eapply keeps_weaken; [apply keeps_saveRouting|by intros x []]. intros L1 L2. by eapply (upgrade_routed s1 p l1).
Qed.

(** ** Editing an inactive run *)
(** A step that only looks, and what comes after it. *)
Definition looks {A} (m : M A) : Prop := ∀ w, (m w).2 = w.
Lemma looks_bind {A B} (m : M A) (f : A → M B) : looks m → (∀ a, looks (f a)) → looks (m ≫= f).
Proof. intros Hm Hf w. unfold mbind, M_bind. specialize (Hm w). destruct (m w) as [[a|e] w1]; simpl in *; subst; [apply Hf|done]. Qed.
Lemma looks_guard b e : looks (guard_ b e).
Proof. by destruct b. Qed.
Lemma looks_lift {A} (r : res A) : looks (lift r).
Proof. by destruct r. Qed.
Lemma after_look {A B} (m : M A) (f : A → M B) w x w' : looks m → (m ≫= f) w = (x, w') →
  (∃ a, m w = (Ok a, w) ∧ f a w = (x, w')) ∨ (∃ e, x = Err e ∧ w' = w).
Proof.
  intros Hm. unfold mbind, M_bind. specialize (Hm w). destruct (m w) as [[a|e] w1]; simpl in *; subst.
  - intros E. left. by exists a.
  - intros [= <- <-]. right. by exists e.
Qed.

(** What [editRun] writes: the selection it computed, to the run it was given;
    or nothing, when it fails. *)
Lemma editRun_effect unchanged id edit w x w' run : (∀ r, looks (edit r)) → find_run id (w_db w) = Some run →
  editRun unchanged id edit w = (x, w') →
  (w_db w' = w_db w ∧ x ≠ Ok tt) ∨
  ∃ s now, (edit run w).1 = Ok s ∧ selection_valid (rc_selection (run_config run)) = true ∧ x = Ok tt ∧
    w_db w' = set_runs (update_rows (Store.by_id id) (set_run_selection s now) (runs (w_db w))) (w_db w).
Proof.
  intros Hl Hr. unfold editRun.
  intros [(r0 & E & Hs)|(e & -> & ->)]%after_look; [|by left|done]. apply query_row_ok in E as [E _]. rewrite Hr in E. injection E as <-.
  rewrite bind_query in Hs. do 3 (apply after_look in Hs as [([] & _ & Hs)|(e & -> & ->)]; [|by left|apply looks_guard]).
  apply after_look in Hs as [([] & [Hv _]%guard_ok & Hs)|(e & -> & ->)]; [|by left|apply looks_guard].
  apply after_look in Hs as [([] & _ & Hs)|(e & -> & ->)]; [|by left|apply looks_guard].
  apply after_look in Hs as [(s & E & Hs)|(e & -> & ->)]; [|by left|apply Hl].
  unfold mbind at 1, M_bind at 1, nowText in Hs. simpl in Hs. unfold update_runs in Hs. unfold mbind at 1, M_bind at 1 in Hs. rewrite bind_query in Hs.
  match type of Hs with context[guard_ ?b ?e] => destruct b end; simpl in Hs; injection Hs as <- <-; [right|by left].
  exists s. eexists. by rewrite E.
Qed.
Lemma find_update_other f id j l : (∀ x, run_id (f x) = run_id x) → j ≠ id →
  find (λ x, bool_decide (run_id x = j)) (update_rows (Store.by_id id) f l) = find (λ x, bool_decide (run_id x = j)) l.
Proof.
  intros Hf Hj. unfold update_rows. induction l as [|a l IH]; [done|]. cbn [map List.find].
  rewrite IH. unfold Store.by_id. destruct (bool_decide (run_id a = id)) eqn:E; [|done]. apply bool_decide_eq_true in E.
  by rewrite Hf, bool_decide_eq_false_2 by congruence.
Qed.

Lemma switched_routed s b attempts : well_routed s → validateBinding b = Ok tt →
  (b = current_binding s ∨ bd_id b ≠ bd_id (current_binding s) ∨ bd_revision b ≠ bd_revision (current_binding s)) →
  (zlen (sn_bindings s) < 64)%Z → (zlen (sn_routing s) < 64)%Z → well_routed (switched s b attempts).
Proof.
  intros Hw Hv Hb L1 L2. destruct (routed_last s Hw) as (l & El & Hval & _). destruct (routing_counts l Hval) as (HA & HU & _).
  unfold switched. rewrite El. set (n := if existsb is_assessment attempts then 1%Z else rd_assessments l).
  assert (Hn : (rd_assessments l <= n <= 1)%Z) by (unfold n; destruct (existsb _ _); lia).
  apply (routed_next s b _ l None); try done.
  - unfold counts_grow. simpl. rewrite !andb_true_iff, !Z.leb_le. lia.
  - apply routingDecision_valid; (done || lia || (simpl; lia) || idtac).
  - apply selects_decision.
  - destruct Hb as [Hb|Hb]; [by left|right]. unfold selects. simpl. apply andb_false_iff.
    destruct Hb as [Hb|Hb]; [left|right]; by apply bool_decide_eq_false_2.
  - unfold bind_next. case_bool_decide; [lia|]. rewrite zlen_app. unfold zlen in *. simpl. lia.
  - rewrite zlen_app. unfold zlen in *. simpl. lia.
Qed.

(** The new model and the model the run is bound to have different hashes when
    they differ. *)
Definition told_apart (r : Router) (model : string) (s : RunSelection) : Prop :=
  ∀ b, newBinding (ro_keys r) (ro_config r) model = Ok b → bd_revision b = bd_revision (current_binding s) → bd_config b = bd_config (current_binding s).

Lemma switch_edit_looks r id model run : looks (switch_edit r id model run).
Proof.
  unfold switch_edit. cbv zeta. apply looks_bind; [apply looks_guard|intros []]. apply looks_bind; [done|intros d].
  apply looks_bind; [apply looks_lift|intros []]. apply looks_bind; [apply looks_lift|intros b]. apply looks_bind; [apply looks_guard|intros []].
  destruct (bool_decide (b = _) && _); [done|]. apply looks_bind; [apply looks_guard|intros []]. apply looks_bind; [by destruct (ro_context r b d)|done].
Qed.
Lemma current_bind_next s b : current_binding (mkRunSelection (bind_next s b) (sn_limits s) None []) = b.
Proof.
  unfold bind_next, current_binding at 1. simpl. case_bool_decide as E; [exact E|]. by rewrite last_snoc.
Qed.
(** The selection a switch computes. *)
Lemma switch_edit_ok r id model w run s : normalised_keys (ro_keys r) → well_routed (rc_selection (run_config run)) →
  told_apart r model (rc_selection (run_config run)) → (switch_edit r id model run w).1 = Ok s →
  well_routed s ∧ bd_id (current_binding s) = or_default model (ms_default (ro_config r)) ∧ sn_auto s = None.
Proof.
  intros Hk Hw Ht He. destruct (switch_edit r id model run w) as [x w'] eqn:Es. simpl in He. subst x. unfold switch_edit in Es. cbv zeta in Es.
  set (s0 := rc_selection (run_config run)) in *. apply bind_ok in Es as ([] & w2 & [_ <-]%guard_ok & Es). rewrite bind_query in Es.
  apply bind_ok in Es as ([] & w2 & [_ <-]%lift_ok & Es). apply bind_ok in Es as (b & w2 & [Hb <-]%lift_ok & Es).
  apply bind_ok in Es as ([] & w2 & [Hg <-]%guard_ok & Es). pose proof (newBinding_model _ _ _ _ Hb) as (Hid & _).
  destruct (bool_decide (b = current_binding s0) && bool_decide (sn_auto s0 = None)) eqn:Esame.
  { apply andb_true_iff in Esame as [->%bool_decide_eq_true Ea%bool_decide_eq_true]. apply ret_ok in Es as [<- _]. done. }
  apply bind_ok in Es as ([] & w2 & [[L1%Z.ltb_lt L2%Z.ltb_lt]%andb_true_iff <-]%guard_ok & Es).
  destruct (ro_context r b _); [by apply bind_ok in Es as (? & ? & ? & _)|].
  apply bind_ok in Es as ([] & w2 & [_ <-]%ret_ok & [<- _]%ret_ok). split.
  - apply switched_routed; try done; [by eapply newBinding_valid|].
    destruct (decide (bd_id b = bd_id (current_binding s0))) as [Ei|]; [|by right; left].
    destruct (decide (bd_revision b = bd_revision (current_binding s0))) as [Ev|]; [|by right; right]. left.
    pose proof (Ht b Hb Ev) as Ec. rewrite Ei, Ev in Hg. rewrite !bool_decide_eq_true_2 in Hg by done. simpl in Hg.
    rewrite negb_involutive in Hg. apply bool_decide_eq_true in Hg. destruct b, (current_binding s0); simpl in *; congruence.
  - split; [|done]. rewrite <- Hid. exact (f_equal bd_id (current_bind_next s0 b)).
Qed.

(** C28: An explicit switch of the model of a run, when the run's snapshot was
    readable and records at least one routing decision (finding 2 has the other
    case), the addresses in the key store are normalised, and the hash tells the
    new model from the one the run is bound to. Whatever the switch answers, the
    snapshot stays one that the decoder accepts, and no other run changes; a
    switch that succeeds binds the run to the model that was named, and ends its
    automatic choice. *)
Theorem switch_routed r unchanged id model w run x w' :
  normalised_keys (ro_keys r) → find_run id (w_db w) = Some run →
  well_routed (rc_selection (run_config run)) → told_apart r model (rc_selection (run_config run)) →
  SwitchModel r unchanged id model w = (x, w') →
  (∃ run', find_run id (w_db w') = Some run' ∧ well_routed (rc_selection (run_config run')) ∧ selection_valid (rc_selection (run_config run')) = true ∧
     (x = Ok tt → bd_id (current_binding (rc_selection (run_config run'))) = or_default model (ms_default (ro_config r)) ∧
        sn_auto (rc_selection (run_config run')) = None)) ∧
  (∀ j, j ≠ id → find_run j (w_db w') = find_run j (w_db w)).
Proof.
  intros Hk Hr Hw Ht Hs. unfold SwitchModel in Hs. eapply editRun_effect in Hs; [|apply switch_edit_looks|exact Hr].
  pose proof Hw as (Hok & _ & _). destruct Hs as [[E Hx]|(s & now & He & _ & -> & E)].
  { rewrite E. split; [|done]. exists run. split_and!; [done..|by apply selection_valid_ok|done]. }
  destruct (switch_edit_ok r id model w run s) as (Hs & Hm & Ha); [done..|].
  rewrite E. unfold find_run. simpl. split; [|intros j Hj; by apply find_update_other].
  exists (set_run_selection s now run). split; [by apply find_update_by_id|]. simpl. split_and!; [done| |done]. apply selection_valid_ok, Hs.
Qed.

(** A switch to another model of a run whose snapshot records no decision
    stores a snapshot that the decoder refuses. *)
Theorem switch_without_decision r unchanged id model w u w' run : SwitchModel r unchanged id model w = (Ok u, w') →
  find_run id (w_db w) = Some run → sn_routing (rc_selection (run_config run)) = [] →
  or_default model (ms_default (ro_config r)) ≠ bd_id (current_binding (rc_selection (run_config run))) →
  ∃ run', find_run id (w_db w') = Some run' ∧ selection_valid (rc_selection (run_config run')) = false.
Proof.
  intros Hs Hr Hn Hm. unfold SwitchModel, editRun, switch_edit in Hs. apply bind_ok in Hs as (run0 & w0 & [Hr0 <-]%query_row_ok & Hs).
  rewrite Hr in Hr0. injection Hr0 as <-. rewrite bind_query in Hs. do 3 (apply bind_ok in Hs as ([] & w1 & [_ <-]%guard_ok & Hs)).
  apply bind_ok in Hs as ([] & w1 & [Hsel%selection_valid_ok <-]%guard_ok & Hs). apply bind_ok in Hs as ([] & w1 & [_ <-]%guard_ok & Hs).
  apply bind_ok in Hs as (s & w1 & He & Hs). set (s0 := rc_selection (run_config run)) in *. cbv zeta in He.
  apply bind_ok in He as ([] & w2 & [_ <-]%guard_ok & He). rewrite bind_query in He.
  apply bind_ok in He as ([] & w2 & [_ <-]%lift_ok & He). apply bind_ok in He as (b & w2 & [Hb <-]%lift_ok & He).
  apply bind_ok in He as ([] & w2 & [_ <-]%guard_ok & He). apply newBinding_model in Hb as (Hid & _).
  assert (Hne : bd_id b ≠ bd_id (current_binding s0)) by congruence.
  rewrite (bool_decide_eq_false_2 (b = _)) in He by (intros ->; done). simpl in He.
  apply bind_ok in He as ([] & w2 & [_ <-]%guard_ok & He). destruct (ro_context r b _); [by apply bind_ok in He as (? & ? & ? & _)|].
  apply bind_ok in He as ([] & w2 & [_ <-]%ret_ok & [<- <-]%ret_ok).
  apply bind_ok in Hs as (now & w2 & [= _ <-] & Hs). apply bind_ok in Hs as (n & w3 & Hu & [_ <-]%ret_ok).
  apply update_runs_ok in Hu as (_ & _ & ->). simpl. exists (set_run_selection (switched s0 b (listAttempts id (w_db w))) now run). split.
  { unfold find_run in *. simpl. by apply find_update_by_id. }
  apply not_true_iff_false. intros Hv%selection_valid_ok. simpl in Hv. destruct Hv as [[A1 A2] _ _ _ _ Hf _]. unfold switched, bind_next in *.
  simpl in *. rewrite (bool_decide_eq_false_2 (current_binding s0 = b)) in * by (intros E; by rewrite E in Hne).
  destruct Hsel as [[B1 _] _ _ _ _ _ _]. fold s0 in B1. destruct (sn_bindings s0) as [|b0 l0]; [done|].
  rewrite Hn in Hf. specialize (Hf b0 (l0 ++ [b]) eq_refl ltac:(done)). simpl in Hf.
  destruct (selects _ b0); [by destruct l0|]. by destruct l0.
Qed.
End operations.

(** ** Limits *)
Section limits.
Context {H : Host} {MH : ModelHost} {U : Unicode} {RH : RoutingHost}.

Definition limits_le (a b : ExecutionLimits) : Prop :=
  (xl_history a <= xl_history b)%Z ∧ (xl_context a <= xl_context b)%Z ∧ (xl_output a <= xl_output b)%Z ∧ (xl_result a <= xl_result b)%Z.

(** The limits a bound request runs under are within the limits of the run
    and within what the model declares, and they are limits the program accepts. *)
Theorem request_limits_valid l b : limits_validate l = Ok tt → validateBinding b = Ok tt →
  let q := requestLimits l b in
  let c := mo_capabilities (bd_config b) in
  limits_validate q = Ok tt ∧ limits_le q l ∧ (mc_context_bytes c ≠ 0 → xl_context q <= mc_context_bytes c)%Z ∧
  (mc_output_tokens c ≠ 0 → xl_output q <= mc_output_tokens c)%Z.
Proof.
  intros Hl Hv. unfold validateBinding in Hv. cbv zeta in Hv. apply res_bind_ok in Hv as (? & _ & Hv). apply res_bind_ok in Hv as (? & _ & Hv).
  unfold model_Validate in Hv. cbv zeta in Hv. apply res_bind_ok in Hv as ([] & Hv & _). unfold capabilities_validate in Hv.
  apply res_bind_ok in Hv as (? & _ & Hv%check_ok). unfold limits_validate in *. apply check_ok in Hl. cbv zeta. rewrite check_ok.
  set (c := mo_capabilities (bd_config b)) in *. unfold in_range in *. rewrite !andb_true_iff, !orb_true_iff, !andb_true_iff, ?Z.leb_le, ?Z.eqb_eq in *.
  unfold requestLimits, limits_le. fold c. simpl.
  destruct (Z.ltb_spec 0 (mc_context_bytes c)), (Z.ltb_spec 0 (mc_output_tokens c)); lia.
Qed.

(** Raising the limits of a run only raises them, to limits the program
    accepts, and resets nothing: the steps, the time and the output of the run
    and the models and decisions of its snapshot stay. *)
Theorem limits_only_grow config unchanged id limits w u w' run : IncreaseRunLimits config unchanged id limits w = (Ok u, w') →
  find_run id (w_db w) = Some run →
  let s := rc_selection (run_config run) in
  ∃ run', find_run id (w_db w') = Some run' ∧
    rc_selection (run_config run') = mkRunSelection (sn_bindings s) (Some limits) (sn_auto s) (sn_routing s) ∧
    limits_validate limits = Ok tt ∧ limits_le (default config (sn_limits s)) limits ∧
    run_steps run' = run_steps run ∧ run_elapsed_ms run' = run_elapsed_ms run ∧ run_output run' = run_output run ∧
    run_status run' = run_status run.
Proof.
  intros Hs Hr s. unfold IncreaseRunLimits, editRun in Hs. apply bind_ok in Hs as ([] & w0 & [Hv <-]%lift_ok & Hs).
  apply bind_ok in Hs as (run0 & w0 & [Hr0 <-]%query_row_ok & Hs). rewrite Hr in Hr0. injection Hr0 as <-.
  rewrite bind_query in Hs. do 5 (apply bind_ok in Hs as ([] & w1 & [_ <-]%guard_ok & Hs)).
  apply bind_ok in Hs as (s' & w1 & He & Hs). cbv zeta in He. apply bind_ok in He as (l' & w2 & [Hl <-]%lift_ok & [<- <-]%ret_ok).
  fold s in Hl. unfold IncreaseLimits in Hl. apply res_bind_ok in Hl as (? & _ & Hl). apply res_bind_ok in Hl as ([] & Hg%check_ok & [= <-]).
  apply bind_ok in Hs as (now & w2 & [= _ <-] & Hs). apply bind_ok in Hs as (n & w3 & Hu & [_ <-]%ret_ok).
  apply update_runs_ok in Hu as (_ & _ & ->). eexists. split; [unfold find_run in *; simpl; by apply find_update_by_id|].
  fold s in Hg. bool_prop. unfold limits_le. simpl. by split_and!.
Qed.
End limits.

(** ** Examples *)
Module RoutingDemo.
Definition hash (s : string) : string := take_s 64 (s +:+ "----------------------------------------------------------------").
#[export] Instance host : Host := {|
  newID_at := Demo.unary; now_at n := "t" +:+ Demo.unary n; elapsed_since _ _ := Some 5%Z; sha256hex := hash;
  hash_request _ := ""; hash_response _ := ""; json_scope _ := ""; json_mutation _ := ""; json_receipt _ := "";
  len_response _ := 1%Z; len_collaboration _ := 1%Z; json_revision _ := Some 1%Z; json_digest _ := None;
  text_lt a b := match String.compare a b with Lt => true | _ => false end;
|}.
#[export] Instance models : ModelHost := {| json_model m := mo_model m +:+ "/" +:+ mo_provider m; NormalizeBaseURL s := Ok s |}.
#[export] Instance words : RoutingHost := {|
  IsLetter s := match s with String c "" => between 97 122 (code c) || between 65 90 (code c) | _ => false end;
  assessment_json s := Some ("light", s);
|}.
#[export] Instance case : Unicode := ascii_case.
Lemma hash_length s : String.length (sha256hex s) = 64%nat.
Proof. cbn [sha256hex host]. unfold hash. rewrite take_length, append_length. cbn [String.length]. lia. Qed.

Definition caps (strength : string) : ModelCapabilities := mkCapabilities no_vision "" "" "" "" "" "" 8192 0 "" 0 strength "" "" "" "".
Definition light : ModelConfig := mkModel "openai-compatible" "k-00000001" "small" (caps "light").
Definition strong : ModelConfig := mkModel "openai-compatible" "k-00000001" "large" (caps "strong").
Definition config : ModelsConfig :=
  mkModels (<["light" := light]> (<["strong" := strong]> ∅)) "light" "" (<["k-00000001" := true]> ∅) (mkAuto true [] "light" 4 1 1).
Definition keys : KeyStore := Some (λ _, Ok (mkKeyView "openai-compatible" "https://host")).
Definition router : Router := mkRouter config keys "please help" true (λ _ _, None).
Lemma keys_normalised : normalised_keys keys.
Proof. intros find k view [= <-] [= <-]. reflexivity. Qed.

(** A run that begins with the automatic choice, and an answer to its
    assessment. *)
Definition first : RunSelection := match forTask router (w_db Demo.empty) "auto" with Ok s => s | Err _ => no_selection end.
Lemma first_ok : forTask router (w_db Demo.empty) "auto" = Ok first.
Proof. vm_compute. reflexivity. Qed.
Definition start (s : RunSelection) : world :=
  (createRunWithTool "local" "" "c" "k1" "please help" (mkRunConfig "" "" [] None s None None "/w" 16) false None Demo.empty).2.
Definition run_of (w : world) : Run := match runs (w_db w) with r :: _ => r | [] => Demo.run end.
Definition answer (b : ModelBinding) : M Attempt :=
  mret (mkAttempt "a" "r" KModel "" AFinished (QModel Demo.request) (Some (RModel (mkModelResponse "it is small" [] None))) 1).
Lemma start_routed s : well_routed s → runs (w_db (start s)) = [run_of (start s)] → rc_selection (run_config (run_of (start s))) = s →
  all_routed (w_db (start s)).
Proof. intros Hs E Es r. rewrite E, list_elem_of_singleton. intros ->. by rewrite Es. Qed.
Lemma first_routed : well_routed first.
Proof. exact (forTask_routed hash_length router _ "auto" first keys_normalised first_ok). Qed.
Lemma start_first : all_routed (w_db (start first)).
Proof. apply start_routed; [apply first_routed|vm_compute; reflexivity|vm_compute; reflexivity]. Qed.
End RoutingDemo.
#[local] Existing Instances RoutingDemo.host RoutingDemo.models RoutingDemo.words RoutingDemo.case.

Lemma choice_is_best_witness :
  let pool := ap_models (default (mkAutoPolicy [] "" 0 0) (sn_auto RoutingDemo.first)) in
  ∃ b rest, chooseAuto RoutingDemo.router (w_db Demo.empty) pool 0 = Ok (b, ["strong"; "light"]) ∧
    ["strong"; "light"] = map bd_id (b :: rest) ∧ b :: rest ≡ₚ filter (usable RoutingDemo.router (w_db Demo.empty) 0) pool.
Proof.
  intros pool.
  pose proof (choice_is_best RoutingDemo.router (w_db Demo.empty) pool 0 ltac:(apply (bool_decide_unpack _); vm_compute; exact I)) as Hc.
  assert (E : chooseAuto RoutingDemo.router (w_db Demo.empty) pool 0 = Ok (current_binding RoutingDemo.first, ["strong"; "light"])) by (vm_compute; reflexivity).
  rewrite E in Hc. destruct Hc as (rest & H1 & H2 & _). exists (current_binding RoutingDemo.first), rest. split; [exact E|]. split; [exact H1|exact H2].
Defined.

Lemma choice_order_free_witness :
  chooseAuto RoutingDemo.router (w_db Demo.empty) (rev (ap_models (default (mkAutoPolicy [] "" 0 0) (sn_auto RoutingDemo.first)))) 0
    = Ok (current_binding RoutingDemo.first, ["strong"; "light"]).
Proof.
  apply (choice_order_free RoutingDemo.router (w_db Demo.empty) (ap_models (default (mkAutoPolicy [] "" 0 0) (sn_auto RoutingDemo.first))) _ 0).
  - apply (bool_decide_unpack _). vm_compute. exact I.
  - apply Permutation_rev.
  - vm_compute. reflexivity.
Defined.

(** The assessment answers "light": the run is bound to it from then on. *)
Lemma prepareAuto_routed_witness :
  let x := prepareAuto RoutingDemo.router None RoutingDemo.answer RoutingDemo.first
             (RoutingDemo.run_of (RoutingDemo.start RoutingDemo.first)) [] (RoutingDemo.start RoutingDemo.first) in
  match x.1 with
  | Ok (s, _) => map bd_id (sn_bindings s) = ["strong"; "light"] ∧ map rd_selected (sn_routing s) = ["strong"; "light"]
  | Err _ => False
  end ∧ all_routed (w_db x.2) ∧ map run_config (runs (w_db x.2)) ≠ map run_config (runs (w_db (RoutingDemo.start RoutingDemo.first))).
Proof.
  split; [vm_compute; by split|]. split; [|vm_compute; done].
  apply (prepareAuto_routed RoutingDemo.hash_length RoutingDemo.router None RoutingDemo.answer RoutingDemo.first
    (RoutingDemo.run_of (RoutingDemo.start RoutingDemo.first)) [] (RoutingDemo.start RoutingDemo.first) RoutingDemo.first_routed RoutingDemo.start_first).
  by intros.
Defined.

(** The run is switched from the strong model, automatically chosen, to the
    light one. *)
Lemma switch_routed_witness :
  let w := RoutingDemo.start RoutingDemo.first in
  let run := RoutingDemo.run_of w in
  let x := SwitchModel RoutingDemo.router (λ _, true) (run_id run) "light" w in
  sn_auto (rc_selection (run_config run)) ≠ None ∧ bd_id (current_binding (rc_selection (run_config run))) = "strong" ∧
  ∃ run', find_run (run_id run) (w_db x.2) = Some run' ∧ well_routed (rc_selection (run_config run')) ∧
    bd_id (current_binding (rc_selection (run_config run'))) = "light" ∧ sn_auto (rc_selection (run_config run')) = None.
Proof.
  intros w run x. split; [vm_compute; discriminate|]. split; [vm_compute; reflexivity|].
  destruct (switch_routed RoutingDemo.hash_length RoutingDemo.router (λ _, true) (run_id run) "light" w run x.1 x.2
    RoutingDemo.keys_normalised ltac:(vm_compute; reflexivity)) as [(run' & Hf & Hw & _ & Hx) _].
  - apply RoutingDemo.start_first. vm_compute. by left.
  - intros b Hb. assert (Hb' : newBinding (ro_keys RoutingDemo.router) (ro_config RoutingDemo.router) "light" = Ok b) by done.
    vm_compute in Hb'. injection Hb' as <-. intros E. vm_compute in E. discriminate E.
  - apply surjective_pairing.
  - exists run'. split; [exact Hf|]. split; [exact Hw|]. apply Hx. vm_compute. reflexivity.
Defined.

Lemma switch_without_decision_witness :
  let b := match newBinding RoutingDemo.keys RoutingDemo.config "strong" with Ok b => b | Err _ => no_binding end in
  let w := RoutingDemo.start (mkRunSelection [b] None None []) in
  let id := run_id (RoutingDemo.run_of w) in
  (SwitchModel RoutingDemo.router (λ _, true) id "light" w).1 = Ok tt ∧
  ∃ run', find_run id (w_db (SwitchModel RoutingDemo.router (λ _, true) id "light" w).2) = Some run' ∧
    selection_valid (rc_selection (run_config run')) = false.
Proof.
  intros b w id. assert (E : SwitchModel RoutingDemo.router (λ _, true) id "light" w
    = (Ok tt, (SwitchModel RoutingDemo.router (λ _, true) id "light" w).2)) by (vm_compute; reflexivity).
  split; [by rewrite E|].
  apply (switch_without_decision RoutingDemo.router (λ _, true) id "light" w tt _ (RoutingDemo.run_of w) E);
    [vm_compute; reflexivity|vm_compute; reflexivity|vm_compute; discriminate].
Defined.

Lemma request_limits_valid_witness :
  let l := mkLimits 40 131072 4096 65536 in
  requestLimits l (current_binding RoutingDemo.first) = mkLimits 40 8192 4096 65536 ∧
  limits_validate (requestLimits l (current_binding RoutingDemo.first)) = Ok tt.
Proof.
  split; [vm_compute; reflexivity|].
  apply (request_limits_valid (mkLimits 40 131072 4096 65536) (current_binding RoutingDemo.first)); vm_compute; reflexivity.
Defined.

Lemma limits_only_grow_witness :
  let w := RoutingDemo.start RoutingDemo.first in
  let x := IncreaseRunLimits (mkLimits 40 131072 4096 65536) (λ _, true) (run_id (RoutingDemo.run_of w)) (mkLimits 40 131072 8192 65536) w in
  ∃ run', find_run (run_id (RoutingDemo.run_of w)) (w_db x.2) = Some run' ∧
    sn_limits (rc_selection (run_config run')) = Some (mkLimits 40 131072 8192 65536).
Proof.
  intros w x. assert (E : IncreaseRunLimits (mkLimits 40 131072 4096 65536) (λ _, true) (run_id (RoutingDemo.run_of w)) (mkLimits 40 131072 8192 65536) w
    = (Ok tt, x.2)) by (vm_compute; reflexivity).
  destruct (limits_only_grow _ _ _ _ w tt x.2 (RoutingDemo.run_of w) E ltac:(vm_compute; reflexivity)) as (run' & Hf & Es & _).
  exists run'. split; [exact Hf|]. rewrite Es. reflexivity.
Defined.
