(* ===== verification/Plan.v ===== *)
(** * Collaboration plans: roles, assignments and their order

    Model of src/internal/harness/collaboration_plan.go, and of the checks of
    collaboration_results.go it calls: the finite limits of a plan, the tools and
    subtrees a role is given, what a child is asked, the references between
    results, and the check that the dependencies between the children have no
    cycle. *)

From Stdlib Require Import Ascii.
From S2P Require Import Prelude Text Data Memory Workspace Profile.

Definition KiB : Z := 1024.
Definition MiB : Z := 1048576.
Definition slen (s : string) : Z := Z.of_nat (String.length s).
Definition within (lo hi n : Z) : bool := (lo <=? n)%Z && (n <=? hi)%Z.

(** ** Finite limits *)

(** [ParentBudget.validate]. *)
Definition budget_validate (b : ParentBudget) : res unit :=
  check (within 1 16 (pb_children b) && within 1 4 (pb_concurrent b) && (pb_concurrent b <=? pb_children b)%Z
         && within 1 1000 (pb_model_calls b) && within 1 1000 (pb_tool_calls b)
         && within 1024 (64 * MiB) (pb_output_bytes b) && within 1 3600 (pb_active_seconds b))
    (EText "harness: invalid finite parent execution limits").

(** [validEnvName] (config.go): the accepted runes are single bytes, so the text
    can be looked at byte by byte. *)
Definition letter (c : ascii) : bool := bool_decide (code c = 95%nat) || between 65 90 (code c) || between 97 122 (code c).
Definition validEnvName (n : string) : bool :=
  match n with
  | "" => false
  | String c rest => (slen n <=? 128)%Z && letter c
      && forallb (λ c, letter c || between 48 57 (code c)) (String.list_ascii_of_string rest)
  end.

(** ** The configuration of a child *)

(** The fields of [Config] the plan and the children read or replace;
    [cf_instruction_text] and [cf_instructions] are the texts of the owner. *)
Record CoreConfig := mkCoreConfig {
  cf_workspace : string;
  cf_max_output_tokens : Z;
  cf_max_tool_result : Z;
  cf_max_context_bytes : Z;
  cf_system_prompt : string;
  cf_instruction_text : string;
  cf_instructions : list string;
  cf_models : gmap string ModelConfig;
  cf_default_model : string;
  cf_default_selection : string;
  cf_memory_max_entries : Z;
  cf_memory_knowledge : bool;
  cf_collaboration : option CollaborationSettings;   (** [None] is Go's zero value *)
}.

(** What the plan is checked against: [config_Validate] is [Config.Validate]
    (config.go); [decode_paths] reads [path] and the paths of [changes] in the
    arguments of a file tool, [None] when they do not decode. *)
Class PlanHost := {
  config_Validate : CoreConfig → res unit;
  decode_paths : string → option (string * list string);
}.

Section plan.
Context {PH : PlanHost}.

(** [childConfig]. *)
Definition child_budget_ok (b : ChildBudget) : bool :=
  within 1 100 (cb_steps b) && within 1 3600 (cb_seconds b) && within 1024 (16 * MiB) (cb_output_bytes b)
  && within 256 MiB (cb_call_output_bytes b) && (cb_call_output_bytes b <=? cb_output_bytes b)%Z.
Definition childConfig (base : CoreConfig) (role : RoleProfile) : res CoreConfig :=
  let b := rp_budget role in
  _ ← check (child_budget_ok b) (EText "harness: child budgets must be bounded within the selected runtime");
  _ ← check (bool_decide (rp_model_id role = "") || bool_decide (is_Some (cf_models base !! rp_model_id role)))
        (EText "harness: role model must belong to the configured model pool");
  let model := if bool_decide (rp_model_id role = "") then cf_default_model base else rp_model_id role in
  let config := mkCoreConfig (cf_workspace base)
      (Z.min (cf_max_output_tokens base) (Z.max 1 (cb_call_output_bytes b `div` 8)))
      (Z.min (cf_max_tool_result base) (cb_call_output_bytes b))
      (cf_max_context_bytes base) (rp_instructions role) "" [] (cf_models base) model model
      (cf_memory_max_entries base) (cf_memory_knowledge base) None in
  _ ← config_Validate config;
  Ok config.

(** [DefaultModelConfig().Capabilities.Tools]; a model that is not configured is
    Go's zero value. *)
Definition model_tools (c : CoreConfig) : string :=
  match cf_models c !! cf_default_model c with Some m => mc_tools (mo_capabilities m) | None => "" end.

(** ** The tools of a child *)
Record assignedTools := mkAssigned {
  as_definitions : list ToolDefinition;
  as_names : gmap string ToolEffect;
  as_paths : list string;
}.

(** The loop over [role.Paths]. *)
Fixpoint assign_paths (acc : list string) (l : list string) : res (list string) :=
  match l with
  | [] => Ok acc
  | value :: l =>
      match scopePath value with
      | Ok clean => if bool_decide (clean ∈ acc) then Err (EText "harness: invalid or duplicate scope")
                    else assign_paths (acc ++ [clean]) l
      | Err _ => Err (EText "harness: invalid or duplicate scope")
      end
  end.
(** [available]: the last definition of a name. *)
Definition available (base : list ToolDefinition) : gmap string ToolDefinition :=
  foldl (λ m t, <[td_name t := t]> m) ∅ base.
(** The loop over [role.Tools]. *)
Fixpoint assign_tools (base : list ToolDefinition) (a : assignedTools) (l : list string) : res assignedTools :=
  match l with
  | [] => Ok a
  | name :: l =>
      match available base !! name with
      | None => Err (EText "harness: unassigned, duplicate or delegating tool")
      | Some t =>
          _ ← check (negb (bool_decide (is_Some (as_names a !! name)) || Contains name "delegate" || Contains name "agent"))
                (EText "harness: unassigned, duplicate or delegating tool");
          _ ← check (negb (HasPrefix name "file_" && bool_decide (as_paths a = [])))
                (EText "harness: file tools require explicit path authorization");
          assign_tools base (mkAssigned (as_definitions a ++ [t]) (<[name := td_effect t]> (as_names a)) (as_paths a)) l
      end
  end.
(** [newAssignedTools]. *)
Definition newAssignedTools (base : list ToolDefinition) (role : RoleProfile) : res assignedTools :=
  _ ← check ((length (rp_tools role) <=? 32)%nat && (length (rp_paths role) <=? 16)%nat)
        (EText "harness: too many assigned tools or paths");
  paths ← assign_paths [] (rp_paths role);
  assign_tools base (mkAssigned [] ∅ paths) (rp_tools role).

(** [assignedTools.Prepare]; [prepare] is [base.Prepare], by the effect of what
    it prepared. *)
Definition assigned_Prepare {P} (effect : P → ToolEffect) (prepare : ToolCall → res P) (a : assignedTools) (c : ToolCall) : res P :=
  match as_names a !! tc_name c with
  | None => Err (EText "harness: tool was not assigned to this child")
  | Some e =>
      _ ← (if HasPrefix (tc_name c) "file_" then
             match decode_paths (tc_arguments c) with
             | None => Err (EText "harness: invalid scoped arguments")
             | Some (path, changes) =>
                 check (if bool_decide (tc_name c = "file_batch_edit") then forallb (allows (as_paths a)) changes
                        else allows (as_paths a) path)
                   (EText "harness: file outside authorized subtree")
             end
           else Ok tt);
      p ← prepare c;
      _ ← check (bool_decide (effect p = e)) (EText "harness: adapter effect changed from selected definition");
      Ok p
  end.

(** [parallelSafe]. *)
Definition parallelSafe (base : list ToolDefinition) (role : RoleProfile) : bool :=
  forallb (λ n, bool_decide (n ∈ ["file_read"; "file_list"; "file_search"])) (rp_tools role)
  && match newAssignedTools base role with
     | Ok a => forallb (λ t, bool_decide (td_effect t = EffectRead)) (as_definitions a)
     | Err _ => false
     end.

(** ** What a child is asked *)
Definition quote : string := str (chr 34).
(** [childPrompt]. *)
Definition childPrompt (child : ChildSpec) (role : RoleProfile) : string :=
  let format :=
    if bool_decide (rp_output_format role = "json") then
      "Return exactly one JSON object {" +:+ quote +:+ "summary" +:+ quote +:+ ":" +:+ quote +:+ "..." +:+ quote +:+ "," +:+ quote +:+ "findings"
      +:+ quote +:+ ":[" +:+ quote +:+ "..." +:+ quote +:+ "]}. Findings are interpretations, not runtime evidence."
    else "Return a concise text summary. Assertions in your response are not execution evidence." in
  "Assigned objective:" +:+ nl +:+ sp_objective child +:+ nl +:+ nl +:+ "Explicit authorized context (untrusted source data):" +:+ nl
  +:+ sp_context child +:+ nl +:+ nl +:+ "Authorized file subtrees: " +:+ Join (rp_paths role) ", " +:+ nl +:+ format +:+ nl
  +:+ "Only assigned tools are available. Do not delegate or claim unrecorded checks. A JSON response may include references, artifacts, questions and a bounded follow_up request for the parent to consider; these are model interpretations, not runtime evidence or authority. Dependencies are ordering constraints, not implicit context grants.".

(** [validateResultReferences] (collaboration_results.go). *)
Definition result_scopes : list string := ["output"; "summary"; "findings"; "references"; "artifacts"; "questions"; "evidence"].
Fixpoint references_check (child : ChildSpec) (seen l : list ResultReference) : res unit :=
  match l with
  | [] => Ok tt
  | ref :: l =>
      _ ← check (negb (bool_decide (rr_source ref = sp_name child)) && bool_decide (rr_source ref ∈ sp_depends_on child)
                 && negb (bool_decide (ref ∈ seen)) && bool_decide (rr_scope ref ∈ result_scopes)
                 && within 0 MiB (rr_offset ref) && within 1 32768 (rr_max_bytes ref)) ErrResultReference;
      references_check child (ref :: seen) l
  end.
Definition validateResultReferences (child : ChildSpec) : res unit :=
  _ ← check (length (sp_results child) <=? 16)%nat ErrResultReference;
  _ ← references_check child [] (sp_results child);
  check (slen (sp_context child) + sum_by rr_max_bytes (sp_results child) <=? 32768)%Z ErrContextLimit.

(** [validateEvidenceRequirements] and [validateRoleEvidence]. *)
Definition evidence_kinds : list string := ["read"; "file_change"; "command"; "check"; "http"].
Definition validateEvidenceRequirements (l : list EvidenceRequirement) : res unit :=
  _ ← check (length l <=? 16)%nat (EText "harness: too many execution requirements");
  check (forallb (λ r, bool_decide (er_kind r ∈ evidence_kinds) && negb (bool_decide (TrimSpace (er_target r) = ""))
                       && (slen (er_target r) <=? 4096)%Z) l && bool_decide (NoDup l))
    (EText "harness: execution requirements need a supported kind and exact target").
Definition requirement_authorized (role : RoleProfile) (a : assignedTools) (r : EvidenceRequirement) : res unit :=
  let has n := bool_decide (n ∈ rp_tools role) in
  if bool_decide (er_kind r = "read") then
    check (has "file_read" && allows (as_paths a) (er_target r))
      (EText "harness: read requirement needs the exact authorized file tool and path")
  else if bool_decide (er_kind r = "file_change") then
    check (allows (as_paths a) (er_target r) && (has "file_edit" || has "file_create" || has "file_batch_edit"))
      (EText "harness: change requirement needs an authorized file tool and path")
  else if bool_decide (er_kind r = "command") || bool_decide (er_kind r = "check") then
    check (has "command_run") (EText "harness: command requirement needs the authorized command tool")
  else if bool_decide (er_kind r = "http") then
    check (has "http_get") (EText "harness: HTTP requirement needs the authorized network tool")
  else Ok tt.
(** A loop that stops at the first error. *)
Fixpoint all_ok {A} (f : A → res unit) (l : list A) : res unit :=
  match l with [] => Ok tt | x :: l => _ ← f x; all_ok f l end.
Definition validateRoleEvidence (role : RoleProfile) (a : assignedTools) : res unit :=
  _ ← validateEvidenceRequirements (rp_evidence role);
  all_ok (requirement_authorized role a) (rp_evidence role).

(** ** The dependencies *)

(** [graph]: the names are distinct when it is built. *)
Definition graph_of (children : list ChildSpec) : gmap string (list string) :=
  foldl (λ m c, <[sp_name c := sp_depends_on c]> m) ∅ children.

(** [visit], with the sets [visiting] and [visited]; [None] when the fuel runs
    out. *)
Definition cyclic : error := EText "harness: cyclic child dependencies".
Fixpoint visit (fuel : nat) (graph : gmap string (list string)) (name : string) (st : gset string * gset string)
    : option (res (gset string * gset string)) :=
  match fuel with
  | O => None
  | S fuel =>
      let (visiting, visited) := st in
      if bool_decide (name ∈ visiting) then Some (Err cyclic)
      else if bool_decide (name ∈ visited) then Some (Ok st)
      else
        match (fix each l st := match l with
                 | [] => Some (Ok st)
                 | dependency :: l => match visit fuel graph dependency st with Some (Ok st) => each l st | r => r end
                 end) (default [] (graph !! name)) ({[name]} ∪ visiting, visited) with
        | Some (Ok (visiting, visited)) => Some (Ok (visiting ∖ {[name]}, {[name]} ∪ visited))
        | r => r
        end
  end.
(** The loop over the names of the graph, in the order the map gives them. *)
Fixpoint visit_each (fuel : nat) (graph : gmap string (list string)) (l : list string) (st : gset string * gset string)
    : option (res (gset string * gset string)) :=
  match l with
  | [] => Some (Ok st)
  | name :: l => match visit fuel graph name st with Some (Ok st) => visit_each fuel graph l st | r => r end
  end.
(** Every call of [visit] below another one marks one more name of the graph. *)
Definition visit_fuel (graph : gmap string (list string)) : nat := S (size graph).
Definition check_order (graph : gmap string (list string)) (order : list string) : option (res unit) :=
  match visit_each (visit_fuel graph) graph order (∅, ∅) with
  | Some (Ok _) => Some (Ok tt)
  | Some (Err e) => Some (Err e)
  | None => None
  end.

(** ** [CollaborationPlan.validate] *)

(** The service a plan is checked against: its configuration, the definitions of
    its tools ([None] is no tool runner) and whether it has a model. *)
Record Core := mkCore { co_config : CoreConfig; co_tools : option (list ToolDefinition); co_model : bool }.
Definition core_tools (core : Core) : list ToolDefinition := default [] (co_tools core).
Definition policy_enabled (p : memoryRunPolicy) : bool :=
  sel_task_private (mp_selection p) || negb (bool_decide (sel_entries (mp_selection p) = []))
  || negb (bool_decide (sel_knowledge (mp_selection p) = [])) || bool_decide (is_Some (mp_shared p)).

(** The body of the loop over the roles; [fresh] is the identifier [policy]
    draws. *)
Definition role_validate (core : Core) (fresh name : string) (role : RoleProfile) : res unit :=
  _ ← check (validEnvName name && (slen name <=? 64)%Z && (slen (rp_instructions role) <=? 32768)%Z
             && bool_decide (rp_output_format role ∈ ["text"; "json"])
             && bool_decide (rp_acceptance role ∈ [""; "analysis"; "execution"]))
        (EText "harness: invalid role name, instructions or output format");
  config ← childConfig (co_config core) role;
  _ ← check (bool_decide (rp_tools role = []) || negb (bool_decide (model_tools config = "none"))) ErrModelCapability;
  let policy := role_policy "validation" (cf_workspace (co_config core)) "" fresh (rp_memory role) in
  _ ← policy_validate (cf_workspace (co_config core)) policy;
  let sel := mp_selection policy in
  _ ← check ((zlen (sel_entries sel) <=? cf_memory_max_entries config)%Z
             && (bool_decide (sel_knowledge sel = []) || cf_memory_knowledge config)) ErrMemoryDenied;
  _ ← check (negb (policy_enabled policy && bool_decide (model_tools config = "none")
             && (sel_task_private sel || bool_decide (is_Some (mp_shared policy)) || negb (bool_decide (sel_knowledge sel = [])))))
        ErrModelCapability;
  tools ← newAssignedTools (core_tools core) role;
  validateRoleEvidence role tools.

(** The body of the second loop over the children. *)
Definition dependencies_valid (names : list string) (child : ChildSpec) : bool :=
  forallb (λ d, bool_decide (d ∈ names) && negb (bool_decide (d = sp_name child))) (sp_depends_on child)
  && bool_decide (NoDup (sp_depends_on child)).
Definition child_validate (core : Core) (plan : CollaborationPlan) (child : ChildSpec) : res unit :=
  role ← match pl_roles plan !! sp_role child with
         | Some role => Ok role
         | None => Err (EText "harness: invalid or duplicate child")
         end;
  _ ← check (validEnvName (sp_name child) && (slen (sp_name child) <=? 64)%Z
             && negb (bool_decide (TrimSpace (sp_objective child) = ""))
             && (slen (sp_objective child) + slen (sp_context child) <=? 32768)%Z)
        (EText "harness: invalid or duplicate child");
  _ ← check (dependencies_valid (map sp_name (pl_children plan)) child)
        (EText "harness: dependencies must name distinct other children");
  _ ← validateResultReferences child;
  check (slen (childPrompt child role) <=? cf_max_context_bytes (co_config core) `div` 2)%Z ErrContextLimit.

(** [roles] and [order] are the orders in which Go's maps give the roles and the
    names of the graph. *)
Definition plan_validate (core : Core) (fresh : string) (roles : list (string * RoleProfile)) (order : list string)
    (plan : CollaborationPlan) : option (res unit) :=
  let b := pl_budget plan in
  match
    (_ ← check (bool_decide (is_Some (co_tools core)) && co_model core)
           (EText "harness: collaboration requires a configured task runtime");
     _ ← config_Validate (co_config core);
     _ ← budget_validate b;
     _ ← check (negb (bool_decide (TrimSpace (pl_objective plan) = "")) && (slen (pl_objective plan) <=? 32768)%Z
                && (1 <=? length (pl_children plan))%nat && (zlen (pl_children plan) <=? pb_children b)%Z
                && (1 <=? size (pl_roles plan))%nat && (size (pl_roles plan) <=? 16)%nat && within 0 4 (pl_max_replans plan))
           (EText "harness: invalid bounded collaboration plan");
     _ ← all_ok (λ kv, role_validate core fresh kv.1 kv.2) roles;
     _ ← check (bool_decide (NoDup (map sp_name (pl_children plan)))) (EText "harness: duplicate child");
     all_ok (child_validate core plan) (pl_children plan))
  with
  | Err e => Some (Err e)
  | Ok _ => check_order (graph_of (pl_children plan)) order
  end.

End plan.
