(* ===== verification/PlanProps.v ===== *)
(** * Properties of plans

    The depth-first check of the dependencies accepts exactly the graphs without
    a cycle, whatever order Go's maps give, and always ends; a validated plan is
    one whose limits hold and whose order is well founded. The calls a child may
    prepare. *)

From S2P Require Import Prelude Text Data Memory Workspace Profile Plan.

(** ** The order of the dependencies *)
Section graph.
Variable g : gmap string (list string).

(** [a] is a dependency of [b]. *)
Definition depends (a b : string) : Prop := a ∈ default [] (g !! b).
Definition closed : Prop := ∀ a b, depends a b → a ∈ dom g.
Definition acyclic : Prop := ∀ x, ¬ tc depends x x.

Lemma depends_dom a b : depends a b → b ∈ dom g.
Proof. unfold depends. intros Ha. apply elem_of_dom. destruct (g !! b); [done|]. simpl in Ha. set_solver. Qed.

(** What a call of [visit] answers: every name it visits is accessible, or there
    is a cycle. *)
Definition visited_well (V D : gset string) (name : string) (r : res (gset string * gset string)) : Prop :=
  match r with
  | Ok (V', D') => V' = V ∧ D ⊆ D' ∧ name ∈ D' ∧ ∀ x, x ∈ D' → Acc depends x
  | Err e => e = cyclic ∧ ∃ x, tc depends x x
  end.
Definition loop_well (V D : gset string) (l : list string) (r : res (gset string * gset string)) : Prop :=
  match r with
  | Ok (V', D') => V' = V ∧ D ⊆ D' ∧ (∀ x, x ∈ l → x ∈ D') ∧ ∀ x, x ∈ D' → Acc depends x
  | Err e => e = cyclic ∧ ∃ x, tc depends x x
  end.

(** A loop over names whose visits are well behaved. *)
Lemma loop_spec f l V D :
  (∀ x D, x ∈ l → (∀ y, y ∈ D → Acc depends y) → ∃ r, f x (V, D) = Some r ∧ visited_well V D x r) →
  (∀ x, x ∈ D → Acc depends x) →
  ∃ r, (fix each (l : list string) (st : gset string * gset string) : option (res (gset string * gset string)) := match l with
        | [] => Some (Ok st)
        | x :: l => match f x st with Some (Ok st) => each l st | r => r end
        end) l (V, D) = Some r ∧ loop_well V D l r.
Proof.
  revert D. induction l as [|x l IH]; intros D Hf HD; [eexists; split; [done|]; simpl; set_solver|].
  destruct (Hf x D ltac:(set_solver) HD) as (r & -> & Hr). destruct r as [[V' D']|e]; [|by exists (Err e)].
  destruct Hr as (-> & Hs & Hx & HA). destruct (IH D') as (r & -> & Hr); [intros y E Hy; apply Hf; set_solver|done|].
  exists r. split; [done|]. destruct r as [[V' E]|e]; [|done]. destruct Hr as (-> & Hs' & Hl & HA'). simpl. set_solver.
Qed.

Lemma visit_spec fuel name V D :
  closed → name ∈ dom g → V ⊆ dom g → (S (size g) <= fuel + size V)%nat →
  (∀ v, v ∈ V → tc depends name v) → (∀ x, x ∈ D → Acc depends x) →
  ∃ r, visit fuel g name (V, D) = Some r ∧ visited_well V D name r.
Proof.
  intros Hc. revert name V D. induction fuel as [|fuel IH]; intros name V D Hn HV Hf Hp HD.
  { apply subseteq_size in HV. rewrite size_dom in HV. lia. }
  simpl. case_bool_decide as Hin; [eexists; split; [done|]; split; [done|]; exists name; auto|].
  case_bool_decide; [eexists; split; [done|]; simpl; set_solver|].
  destruct (loop_spec (visit fuel g) (default [] (g !! name)) ({[name]} ∪ V) D) as (r & -> & Hr); [|done|].
  - intros x E Hx HE. apply IH; [by eapply Hc|set_solver| |  |done].
    + rewrite size_union, size_singleton by set_solver. lia.
    + intros v [->%elem_of_singleton|Hv]%elem_of_union; [by apply tc_once|]. eapply tc_l; [exact Hx|auto].
  - exists match r with Ok (V, D) => Ok (V ∖ {[name]}, {[name]} ∪ D) | Err e => Err e end.
    split; [by destruct r as [[]|]|]. destruct r as [[V' D']|e]; [|done]. destruct Hr as (-> & Hs & Hl & HA).
    split_and!; [set_solver|set_solver|set_solver|]. intros x [->%elem_of_singleton|Hx]%elem_of_union; [|auto].
    constructor. intros y Hy. apply HA, Hl, Hy.
Qed.

Lemma visit_each_fix fuel l st : visit_each fuel g l st =
  (fix each (l : list string) (st : gset string * gset string) : option (res (gset string * gset string)) := match l with
   | [] => Some (Ok st)
   | x :: l => match visit fuel g x st with Some (Ok st) => each l st | r => r end
   end) l st.
Proof. revert st. induction l as [|x l IH]; intros st; [done|]. simpl. destruct (visit _ _ _ _) as [[]|]; auto. Qed.

Lemma check_order_spec order : closed → (∀ x, x ∈ order → x ∈ dom g) →
  check_order g order = Some (Ok tt) ∧ (∀ x, x ∈ order → Acc depends x) ∨
  check_order g order = Some (Err cyclic) ∧ ∃ x, tc depends x x.
Proof.
  intros Hc Ho. unfold check_order. rewrite visit_each_fix.
  destruct (loop_spec (visit (visit_fuel g) g) order ∅ ∅) as (r & -> & Hr); [|set_solver|].
  - intros x D Hx HD. apply visit_spec; [done|auto|set_solver| |set_solver|done]. unfold visit_fuel. rewrite size_empty. lia.
  - destruct r as [[V D]|e]; simpl in Hr; [left|right; by destruct Hr as [-> ?]]. split; [done|]. intros x Hx. by apply Hr, Hr.
Qed.

Lemma depends_last x y : tc depends x y → depends x y ∨ ∃ z, tc depends x z ∧ depends z y.
Proof. induction 1 as [x y Hs|x y z Hs Ht [Hd|(u & Hu & Hd)]]; [by left|right..]; [exists y|exists u]; split; eauto using tc. Qed.
Lemma Acc_tc x : Acc depends x → Acc (tc depends) x.
Proof.
  induction 1 as [x _ IH]. constructor. intros y [Hd|(z & Hz & Hd)]%depends_last; [by apply IH|].
  by apply (Acc_inv (IH z Hd)).
Qed.
Lemma Acc_acyclic x : Acc depends x → ¬ tc depends x x.
Proof. intros HA%Acc_tc. induction HA as [x _ IH]. intros Ht. by apply (IH x Ht). Qed.

(** The check accepts exactly the graphs without a cycle. *)
Lemma check_order_acyclic order : closed → (∀ x, x ∈ order ↔ x ∈ dom g) →
  ∃ r, check_order g order = Some r ∧ (r = Ok tt ∨ r = Err cyclic) ∧ (r = Ok tt ↔ acyclic).
Proof.
  intros Hc Ho. destruct (check_order_spec order Hc) as [[-> HA]|[-> Hx]]; [by intros x ?%Ho|eexists; split; [done|]..].
  - split; [by left|]. split; [|done]. intros _ x Hx. destruct (depends_last _ _ Hx) as [Hd|(z & _ & Hd)].
    all: apply (Acc_acyclic x); [|done]; apply HA, Ho; eapply depends_dom; done.
  - split; [by right|]. split; [done|]. intros Ha. destruct Hx as [x Hx]. by destruct (Ha x).
Qed.
(** Without a cycle the order is well founded. *)
Lemma acyclic_wf : closed → acyclic → well_founded depends.
Proof.
  intros Hc Ha. destruct (check_order_spec (elements (dom g)) Hc) as [[_ HA]|[_ [x Hx]]]; [by intros x ?%elem_of_elements| |by destruct (Ha x)].
  intros x. constructor. intros y Hd. apply HA, elem_of_elements. by eapply Hc.
Qed.
End graph.

(** ** Validated plans *)

(** [a] is a child the child [b] waits for. *)
Definition before (children : list ChildSpec) (a b : string) : Prop :=
  ∃ c, c ∈ children ∧ sp_name c = b ∧ a ∈ sp_depends_on c.

Lemma graph_of_snoc l c : graph_of (l ++ [c]) = <[sp_name c := sp_depends_on c]> (graph_of l).
Proof. unfold graph_of. by rewrite foldl_app. Qed.
Lemma graph_of_dom l x : x ∈ dom (graph_of l) ↔ x ∈ map sp_name l.
Proof.
  induction l as [|c l IH] using rev_ind; [unfold graph_of; set_solver|]. rewrite graph_of_snoc, dom_insert, map_app. simpl. set_solver.
Qed.
Lemma graph_of_lookup l x : NoDup (map sp_name l) → ∀ a, a ∈ default [] (graph_of l !! x) ↔ before l a x.
Proof.
  unfold before. induction l as [|c l IH] using rev_ind; intros Hn a; [simpl; set_solver|].
  rewrite map_app in Hn. apply NoDup_app in Hn as (Hn & Hd & _). rewrite graph_of_snoc.
  destruct (decide (sp_name c = x)) as [<-|Hne].
  - rewrite lookup_insert_eq. simpl. split; [intros Ha; exists c; set_solver|].
    intros (c' & [Hc|Hc%list_elem_of_singleton]%elem_of_app & E & Ha); [|by subst]. exfalso. apply (Hd (sp_name c)); [|set_solver].
    rewrite <- E. by apply (list_elem_of_fmap_2 sp_name).
  - rewrite lookup_insert_ne by done. rewrite IH by done. split; intros (c' & Hc & E & Ha); exists c'; set_solver.
Qed.
Lemma depends_before l a b : NoDup (map sp_name l) → depends (graph_of l) a b ↔ before l a b.
Proof. intros Hn. by apply graph_of_lookup. Qed.

Section validated.
Context {PH : PlanHost}.

(** What the documentation of plans promises, limit by limit. *)
Record plan_fits (core : Core) (fresh : string) (plan : CollaborationPlan) : Prop := {
  ok_runtime : is_Some (co_tools core) ∧ co_model core = true ∧ config_Validate (co_config core) = Ok tt;
  ok_budget : let b := pl_budget plan in
    (1 <= pb_children b <= 16)%Z ∧ (1 <= pb_concurrent b <= 4)%Z ∧ (pb_concurrent b <= pb_children b)%Z ∧
    (1 <= pb_model_calls b <= 1000)%Z ∧ (1 <= pb_tool_calls b <= 1000)%Z ∧
    (1024 <= pb_output_bytes b <= 64 * MiB)%Z ∧ (1 <= pb_active_seconds b <= 3600)%Z;
  ok_size : TrimSpace (pl_objective plan) ≠ "" ∧ (slen (pl_objective plan) <= 32768)%Z ∧
    (1 <= zlen (pl_children plan) <= pb_children (pl_budget plan))%Z ∧ (1 <= size (pl_roles plan) <= 16)%nat ∧
    (0 <= pl_max_replans plan <= 4)%Z;
  ok_roles : ∀ name role, pl_roles plan !! name = Some role → role_validate core fresh name role = Ok tt;
  ok_names : NoDup (map sp_name (pl_children plan));
  ok_children : ∀ c, c ∈ pl_children plan → ∃ role, pl_roles plan !! sp_role c = Some role ∧
    validEnvName (sp_name c) = true ∧ (slen (sp_name c) <= 64)%Z ∧ TrimSpace (sp_objective c) ≠ "" ∧
    (slen (sp_objective c) + slen (sp_context c) <= 32768)%Z ∧ validateResultReferences c = Ok tt ∧
    (slen (childPrompt c role) <= cf_max_context_bytes (co_config core) `div` 2)%Z;
  ok_depends : ∀ c, c ∈ pl_children plan → NoDup (sp_depends_on c) ∧
    ∀ d, d ∈ sp_depends_on c → d ∈ map sp_name (pl_children plan) ∧ d ≠ sp_name c;
}.

Lemma all_ok_iff {A} (f : A → res unit) l : all_ok f l = Ok tt ↔ ∀ x, x ∈ l → f x = Ok tt.
Proof.
  induction l as [|x l IH]; simpl; [set_solver|]. destruct (f x) as [[]|e] eqn:E; simpl.
  - rewrite IH. set_solver.
  - split; [done|]. intros Hx. rewrite <- E. apply Hx. set_solver.
Qed.
Lemma within_iff lo hi n : within lo hi n = true ↔ (lo <= n <= hi)%Z.
Proof. unfold within. rewrite andb_true_iff, !Z.leb_le. done. Qed.

Lemma child_validate_iff core plan c : child_validate core plan c = Ok tt ↔
  (∃ role, pl_roles plan !! sp_role c = Some role ∧
    validEnvName (sp_name c) = true ∧ (slen (sp_name c) <= 64)%Z ∧ TrimSpace (sp_objective c) ≠ "" ∧
    (slen (sp_objective c) + slen (sp_context c) <= 32768)%Z ∧ validateResultReferences c = Ok tt ∧
    (slen (childPrompt c role) <= cf_max_context_bytes (co_config core) `div` 2)%Z) ∧
  NoDup (sp_depends_on c) ∧ ∀ d, d ∈ sp_depends_on c → d ∈ map sp_name (pl_children plan) ∧ d ≠ sp_name c.
Proof.
  unfold child_validate, dependencies_valid. destruct (pl_roles plan !! sp_role c) as [role|] eqn:Er; [|split; [done|intros [(? & [=] & _) _]]].
  split.
  - intros E. res_steps. bool_prop. repeat match goal with x : unit |- _ => destruct x end.
    split; [eexists; split_and!; done|]. split; [done|]. intros d Hd.
    match goal with Hf : forallb _ _ = true |- _ => rewrite forallb_forall in Hf; specialize (Hf d ltac:(by apply list_elem_of_In)) end. by bool_prop.
  - intros [(role' & [= <-] & -> & Hl & Ho & Hs & -> & Hp) [Hn Hd]]. cbn [mbind res_mbind].
    rewrite (proj2 (Z.leb_le _ _) Hl), (proj2 (Z.leb_le _ _) Hs), (proj2 (Z.leb_le _ _) Hp), (bool_decide_eq_true_2 _ Hn), (bool_decide_eq_false_2 _ Ho).
    rewrite (proj2 (forallb_forall _ _)); [done|]. intros d Hx%list_elem_of_In. destruct (Hd d Hx) as [H1 H2].
    by rewrite bool_decide_eq_true_2, bool_decide_eq_false_2.
Qed.

(** The checks before the dependencies are looked at. *)
Lemma static_checks core fresh roles plan : roles ≡ₚ map_to_list (pl_roles plan) →
  (_ ← check (bool_decide (is_Some (co_tools core)) && co_model core)
         (EText "harness: collaboration requires a configured task runtime");
   _ ← config_Validate (co_config core);
   _ ← budget_validate (pl_budget plan);
   _ ← check (negb (bool_decide (TrimSpace (pl_objective plan) = "")) && (slen (pl_objective plan) <=? 32768)%Z
              && (1 <=? length (pl_children plan))%nat && (zlen (pl_children plan) <=? pb_children (pl_budget plan))%Z
              && (1 <=? size (pl_roles plan))%nat && (size (pl_roles plan) <=? 16)%nat && within 0 4 (pl_max_replans plan))
         (EText "harness: invalid bounded collaboration plan");
   _ ← all_ok (λ kv, role_validate core fresh kv.1 kv.2) roles;
   _ ← check (bool_decide (NoDup (map sp_name (pl_children plan)))) (EText "harness: duplicate child");
   all_ok (child_validate core plan) (pl_children plan)) = Ok tt ↔ plan_fits core fresh plan.
Proof.
  intros Hr. unfold budget_validate. split.
  - intros E. res_steps. bool_prop. repeat match goal with x : unit |- _ => destruct x end.
    repeat match goal with Hx : within _ _ _ = true |- _ => apply within_iff in Hx | Hx : (_ <=? _)%nat = true |- _ => apply Nat.leb_le in Hx
      | Hx : all_ok _ _ = Ok tt |- _ => rewrite all_ok_iff in Hx end.
    assert (Hc : ∀ c, c ∈ pl_children plan → child_validate core plan c = Ok tt) by done.
    split; [done|cbv zeta; split_and!; lia|unfold zlen; split_and!; try done; lia| |done| |].
    + intros name role Hl. match goal with Hx : ∀ x, x ∈ roles → _ |- _ => apply (Hx (name, role)) end. rewrite Hr. by apply elem_of_map_to_list.
    + intros c Hx. by apply Hc, child_validate_iff in Hx as [? _].
    + intros c Hx. by apply Hc, child_validate_iff in Hx as [_ ?].
  - intros [(Ht & Hm & Hc) Hb (Ho & Hl & Hch & Hro & Hre) Hroles Hn Hcs Hd]. cbv zeta in Hb. unfold zlen in *.
    rewrite (bool_decide_eq_true_2 _ Ht), Hm, Hc, (bool_decide_eq_false_2 _ Ho), (bool_decide_eq_true_2 _ Hn). cbn [andb check mbind res_mbind negb].
    rewrite !(proj2 (within_iff _ _ _)), !(proj2 (Z.leb_le _ _)), !(proj2 (Nat.leb_le _ _)) by lia. cbn [andb check mbind res_mbind].
    rewrite (proj2 (all_ok_iff _ roles)); [apply all_ok_iff; intros c Hx; apply child_validate_iff; auto|].
    intros [name role] Hx. rewrite Hr in Hx. apply elem_of_map_to_list in Hx. by apply Hroles.
Qed.


(** In a plan that fits, the order of the children is well founded. *)
Lemma plan_wf core fresh plan : plan_fits core fresh plan → (∀ x, ¬ tc (before (pl_children plan)) x x) →
  well_founded (before (pl_children plan)).
Proof.
  intros Hp Hx. pose proof (ok_names _ _ _ Hp) as Hn.
  assert (Hw : well_founded (depends (graph_of (pl_children plan)))).
  { apply acyclic_wf.
    - intros a b (c & Hc & _ & Ha)%depends_before; [|done]. apply graph_of_dom. by apply (ok_depends _ _ _ Hp c Hc).
    - intros x Ht. apply (Hx x). eapply tc_congruence with (f := id); [|exact Ht]. intros a b Hab. by apply depends_before. }
  intros x. induction (Hw x) as [x _ IH]. constructor. intros y Hy. apply IH. by apply depends_before.
Qed.
End validated.

(** ** What a child may call *)
Section assigned.
Context {PH : PlanHost}.

Lemma available_in base name t : available base !! name = Some t → t ∈ base ∧ td_name t = name.
Proof.
  unfold available. induction base as [|x l IH] using rev_ind; [by simpl; rewrite lookup_empty|]. rewrite foldl_app. simpl. intros E.
  destruct (decide (td_name x = name)) as [<-|Hne]; [rewrite lookup_insert_eq in E; injection E as <-; set_solver|].
  rewrite lookup_insert_ne in E by done. destruct (IH E). set_solver.
Qed.

(** What the loop over the tools of a role keeps: every assigned name is a tool
    of the runtime, named by the role, with the effect of its definition. *)
Record assigned_ok (base : list ToolDefinition) (role : RoleProfile) (a : assignedTools) : Prop := {
  ao_names : ∀ name e, as_names a !! name = Some e → name ∈ rp_tools role ∧ Contains name "delegate" = false ∧
    Contains name "agent" = false ∧ ∃ t, t ∈ as_definitions a ∧ td_name t = name ∧ td_effect t = e;
  ao_definitions : ∀ t, t ∈ as_definitions a → t ∈ base ∧ td_name t ∈ rp_tools role;
}.
Lemma assign_tools_ok base role l a a' : (∀ x, x ∈ l → x ∈ rp_tools role) → assigned_ok base role a →
  assign_tools base a l = Ok a' → assigned_ok base role a' ∧ as_paths a' = as_paths a ∧
    (∀ n, n ∈ l → is_Some (as_names a' !! n)) ∧ (∀ n, is_Some (as_names a !! n) → is_Some (as_names a' !! n)).
Proof.
  revert a. induction l as [|name l IH]; intros a Hl Ha E; simpl in E; [injection E as <-; split_and!; set_solver|].
  destruct (available base !! name) as [t|] eqn:Et; [|done]. apply available_in in Et as [Hb Hn].
  apply res_bind_ok in E as ([] & Hg%check_ok & E). apply res_bind_ok in E as ([] & _ & E).
  apply negb_true_iff in Hg. apply orb_false_iff in Hg as [Hg Hag]. apply orb_false_iff in Hg as [_ Hde].
  destruct (IH (mkAssigned (as_definitions a ++ [t]) (<[name := td_effect t]> (as_names a)) (as_paths a))) as (H1 & H2 & H3 & H4); [set_solver| |done|]; cycle 1.
  - split; [done|]. split; [done|]. simpl in H4. split.
    + intros n [->|Hx]%elem_of_cons; [|by apply H3]. apply H4. rewrite lookup_insert_eq. by eexists.
    + intros n Hx. apply H4. destruct (decide (name = n)) as [->|]; [rewrite lookup_insert_eq; by eexists|by rewrite lookup_insert_ne].
  - split; simpl.
    + intros n e. destruct (decide (name = n)) as [->|].
      * rewrite lookup_insert_eq. intros [= <-]. split_and!; [set_solver|done|done|]. exists t. set_solver.
      * rewrite lookup_insert_ne by done. intros En. destruct (ao_names _ _ _ Ha _ _ En) as (? & ? & ? & u & ? & ?). split_and!; [done..|]. exists u. set_solver.
    + intros u [Hu| ->%list_elem_of_singleton]%elem_of_app; [by apply (ao_definitions _ _ _ Ha)|]. split; [done|]. rewrite Hn. set_solver.
Qed.
Lemma newAssignedTools_ok base role a : newAssignedTools base role = Ok a →
  assigned_ok base role a ∧ assign_paths [] (rp_paths role) = Ok (as_paths a) ∧ ∀ n, n ∈ rp_tools role → is_Some (as_names a !! n).
Proof.
  unfold newAssignedTools. intros E. apply res_bind_ok in E as (_ & _ & E). apply res_bind_ok in E as (paths & Ep & E).
  destruct (assign_tools_ok base role (rp_tools role) (mkAssigned [] ∅ paths) a) as (H1 & H2 & H3 & _); [done| |done|].
  - split; [by intros ? ? ?|set_solver].
  - rewrite H2. simpl. done.
Qed.

(** Where a path lies below one of the subtrees. *)
Definition below (subtrees : list string) (value : string) : Prop :=
  ∃ clean prefix, scopePath value = Ok clean ∧ prefix ∈ subtrees ∧ inside clean ∧
    (prefix = "." ∨ Split prefix slash `prefix_of` Split clean slash).
Lemma allows_below paths value : allows paths value = true → below paths value.
Proof. intros Ha. destruct (allows_inside paths value Ha) as (c & p & H1 & H2 & H3 & _ & H4). by exists c, p. Qed.

Lemma call_confined {P} (effect : P → ToolEffect) prepare base role a call p :
  newAssignedTools base role = Ok a → assigned_Prepare effect prepare a call = Ok p →
  tc_name call ∈ rp_tools role ∧ (∃ t, t ∈ base ∧ td_name t = tc_name call ∧ td_effect t = effect p) ∧
  (HasPrefix (tc_name call) "file_" = true → ∃ path changes subtrees, decode_paths (tc_arguments call) = Some (path, changes) ∧
     assign_paths [] (rp_paths role) = Ok subtrees ∧
     ∀ value, value ∈ (if bool_decide (tc_name call = "file_batch_edit") then changes else [path]) → below subtrees value).
Proof.
  intros Ha E. destruct (newAssignedTools_ok _ _ _ Ha) as (Hok & Hp & _). unfold assigned_Prepare in E.
  destruct (as_names a !! tc_name call) as [e|] eqn:En; [|done]. destruct (ao_names _ _ _ Hok _ _ En) as (H1 & H2 & H3 & t & H4 & H5 & H6).
  apply res_bind_ok in E as ([] & Hscope & E). apply res_bind_ok in E as (q & Hq & E).
  apply res_bind_ok in E as ([] & He%check_ok%bool_decide_eq_true & [= <-]).
  split; [done|split; [exists t; split_and!; [by apply (ao_definitions _ _ _ Hok)|done|congruence]|]].
  intros Hf. rewrite Hf in Hscope. destruct (decode_paths _) as [[path changes]|]; [|done]. apply check_ok in Hscope.
  exists path, changes, (as_paths a). split_and!; [done|done|]. intros value Hv. apply allows_below. case_bool_decide.
  - rewrite forallb_forall in Hscope. apply Hscope. by apply list_elem_of_In.
  - by apply list_elem_of_singleton in Hv as ->.
Qed.

(** A call a child prepares is of a tool its role names, which does not
    delegate, with the effect the runtime defined it with when it was assigned;
    every path a call of a tool named file_ gives lies, once cleaned, inside the
    workspace and below one of the subtrees of the role. *)
Theorem assigned_call_confined {P} (effect : P → ToolEffect) prepare base role a call p :
  newAssignedTools base role = Ok a → assigned_Prepare effect prepare a call = Ok p →
  tc_name call ∈ rp_tools role ∧ Contains (tc_name call) "delegate" = false ∧ Contains (tc_name call) "agent" = false ∧
  (∃ t, t ∈ base ∧ td_name t = tc_name call ∧ td_effect t = effect p) ∧ prepare call = Ok p ∧
  (HasPrefix (tc_name call) "file_" = true → ∃ path changes subtrees, decode_paths (tc_arguments call) = Some (path, changes) ∧
     assign_paths [] (rp_paths role) = Ok subtrees ∧
     ∀ value, value ∈ (if bool_decide (tc_name call = "file_batch_edit") then changes else [path]) → below subtrees value).
Proof.
  intros Ha E. destruct (call_confined effect prepare _ _ _ _ _ Ha E) as (H1 & H2 & H3). destruct (newAssignedTools_ok _ _ _ Ha) as (Hok & _ & _).
  unfold assigned_Prepare in E. destruct (as_names a !! tc_name call) as [e|] eqn:En; [|done]. destruct (ao_names _ _ _ Hok _ _ En) as (_ & H4 & H5 & _).
  apply res_bind_ok in E as ([] & _ & E). apply res_bind_ok in E as (q & Hq & E). apply res_bind_ok in E as ([] & _ & [= <-]). by split_and!.
Qed.

(** A child that may run beside others prepares only reads of files. *)
Lemma parallelSafe_reads {P} (effect : P → ToolEffect) prepare base role a call p :
  parallelSafe base role = true → newAssignedTools base role = Ok a → assigned_Prepare effect prepare a call = Ok p →
  effect p = EffectRead ∧ tc_name call ∈ ["file_read"; "file_list"; "file_search"].
Proof.
  unfold parallelSafe. intros [Hn Hd]%andb_true_iff Ha E. rewrite Ha in Hd. destruct (newAssignedTools_ok _ _ _ Ha) as (Hok & _ & _).
  unfold assigned_Prepare in E. destruct (as_names a !! tc_name call) as [e|] eqn:En; [|done].
  destruct (ao_names _ _ _ Hok _ _ En) as (H1 & _ & _ & t & H4 & _ & H6).
  apply res_bind_ok in E as ([] & _ & E). apply res_bind_ok in E as (q & _ & E). apply res_bind_ok in E as ([] & He%check_ok%bool_decide_eq_true & [= <-]).
  rewrite forallb_forall in Hn, Hd. split.
  - rewrite He, <- H6. eapply bool_decide_eq_true_1, Hd. by apply list_elem_of_In.
  - eapply bool_decide_eq_true_1, Hn. by apply list_elem_of_In.
Qed.

(** A tool whose name does not begin with file_ is not confined to the subtrees
    of the role: apply_patch is prepared whatever its patch names. *)
Theorem apply_patch_unconfined {P} (effect : P → ToolEffect) prepare base role a arguments p :
  newAssignedTools base role = Ok a → as_names a !! "apply_patch" = Some (effect p) →
  prepare (mkToolCall "c" "apply_patch" arguments) = Ok p →
  assigned_Prepare effect prepare a (mkToolCall "c" "apply_patch" arguments) = Ok p.
Proof.
  intros _ Hn Hp. unfold assigned_Prepare. simpl. rewrite Hn. simpl. rewrite Hp. simpl. by rewrite bool_decide_eq_true_2.
Qed.
End assigned.

(** ** Witnesses *)
Module PlanDemo.
Definition capabilities : ModelCapabilities :=
  mkCapabilities (mkVision false false false 0 0 0 0) "" "" "supported" "" "" "" 0 0 "" 0 "" "" "" "" "".
Definition config : CoreConfig :=
  mkCoreConfig "/w" 2048 4096 262144 "" "" [] {["m" := mkModel "echo" "" "" capabilities]} "m" "m" 8 false None.
#[export] Instance host : PlanHost := {|
  config_Validate _ := Ok tt;
  decode_paths a := if bool_decide (a = "") then None else Some (a, []);
|}.
Definition tools : list ToolDefinition :=
  [mkDefinition "file_read" "" EffectRead; mkDefinition "file_edit" "" EffectModify; mkDefinition "apply_patch" "" EffectModify].
Definition no_memory : RoleMemory := mkRoleMemory "" (mkMemorySelection [] [] [] [] false) (mkShared false false false [] []).
Definition reader : RoleProfile :=
  mkRoleProfile "Look around" "" ["file_read"] ["docs"] "text" "" [mkRequirement "read" "docs/a.md"] (mkChildBudget 5 60 2048 256) no_memory.
Definition child (name : string) (after : list string) : ChildSpec := mkChildSpec name "reader" "look" "" after [].
Definition plan : CollaborationPlan :=
  mkPlan "work" (mkParentBudget 4 10 10 4096 2 60) {["reader" := reader]} [child "b" ["a"]; child "a" []] true 0 false.
Definition core : Core := mkCore config (Some tools) true.
Definition assigned : assignedTools := mkAssigned [mkDefinition "file_read" "" EffectRead] {["file_read" := EffectRead]} ["docs"].
Lemma reader_tools : newAssignedTools tools reader = Ok assigned.
Proof. vm_compute. reflexivity. Qed.
End PlanDemo.
Import PlanDemo.


Lemma assigned_call_confined_witness :
  below ["docs"] "docs/x/../a.md" ∧ assigned_Prepare td_effect (λ _, Ok (mkDefinition "file_read" "" EffectRead)) assigned (mkToolCall "c" "file_read" "../a.md") =
    Err (EText "harness: file outside authorized subtree").
Proof.
  destruct (assigned_call_confined (PH:=host) td_effect (λ _, Ok (mkDefinition "file_read" "" EffectRead)) tools reader assigned
    (mkToolCall "c" "file_read" "docs/x/../a.md") (mkDefinition "file_read" "" EffectRead) reader_tools ltac:(vm_compute; reflexivity))
    as (_ & _ & _ & _ & _ & Hb). destruct (Hb eq_refl) as (path & changes & subtrees & Ed & Es & Hv).
  split; [|vm_compute; reflexivity]. injection Es as <-. injection Ed as <- <-. apply Hv. apply list_elem_of_singleton. reflexivity.
Defined.
