(* ===== verification/Conflicts.v ===== *)
(** * Conflicting versions of a file

    Model of src/internal/harness/collaboration_conflicts.go: the versions of each
    file the children of a plan read and wrote, and which files have no single
    history. It is proved equivalent to a definition that mentions no loop: a
    file is free of conflict when every event starts from the version the one
    before it left, and every rewrite comes after all that was seen before, in
    the same child or along the dependencies of the plan. *)

From S2P Require Import Prelude Text Data Memory Workspace Profile Plan PlanProps.

Record fileVersion := mkVersion {
  fv_child : string; fv_sequence : Z; fv_before : string; fv_hash : string; fv_change : bool;
}.
(** [EvidenceConflict] (collaboration_report.go). *)
Record EvidenceConflict := mkConflict { ec_path : string; ec_children : list string; ec_hashes : list string }.

(** [precedes]: [before] is reached from [after] through the dependencies; a
    path in a plan is no longer than the number of its children. *)
Fixpoint precedes (fuel : nat) (dependencies : gmap string (list string)) (before after : string) : bool :=
  match fuel with
  | O => false
  | S fuel => existsb (λ d, bool_decide (d = before) || precedes fuel dependencies before d) (default [] (dependencies !! after))
  end.
(** [ordered]. *)
Definition ordered (plan : CollaborationPlan) (a b : fileVersion) : bool :=
  (fv_sequence a <? fv_sequence b)%Z &&
  (bool_decide (fv_child a = fv_child b)
   || precedes (length (pl_children plan)) (graph_of (pl_children plan)) (fv_child a) (fv_child b)).

(** [slices.SortStableFunc] by the sequence. *)
Fixpoint insert_version (e : fileVersion) (l : list fileVersion) : list fileVersion :=
  match l with
  | [] => [e]
  | x :: l => if (fv_sequence e <=? fv_sequence x)%Z then e :: x :: l else x :: insert_version e l
  end.
Definition sort_versions (l : list fileVersion) : list fileVersion := foldr insert_version [] l.

(** The variables of the loop over the events of a path. *)
Record scan := mkScan {
  sc_current : string; sc_conflict : bool; sc_previous : list fileVersion; sc_children : list string; sc_hashes : list string;
}.
Definition add_new (l : list string) (x : string) : list string := if bool_decide (x ∈ l) then l else l ++ [x].
Definition scan_event (order : fileVersion → fileVersion → bool) (s : scan) (e : fileVersion) : scan :=
  let rewritten := fv_change e && negb (bool_decide (fv_hash e = sc_current s)) in
  let expected := if fv_change e then fv_before e else fv_hash e in
  mkScan (fv_hash e)
    (sc_conflict s
     || negb (bool_decide (sc_previous s = []))
        && (negb (bool_decide (expected = sc_current s)) || rewritten && negb (forallb (λ p, order p e) (sc_previous s))))
    ((if rewritten then [] else sc_previous s) ++ [e])
    (add_new (sc_children s) (fv_child e))
    (foldl (λ l h, if bool_decide (h = "") then l else add_new l h) (sc_hashes s) [fv_before e; fv_hash e]).
Definition scan_events (order : fileVersion → fileVersion → bool) (l : list fileVersion) : scan :=
  foldl (scan_event order) (mkScan "" false [] [] []) l.

(** [fileConflicts]. *)
#[export] Instance fileVersion_eq_dec : EqDecision fileVersion.
Proof. solve_decision. Defined.
Definition fileConflicts (plan : CollaborationPlan) (versions : gmap string (list fileVersion)) : list EvidenceConflict :=
  omap (λ path,
    let s := scan_events (ordered plan) (sort_versions (default [] (versions !! path))) in
    if sc_conflict s then Some (mkConflict path (sc_children s) (sc_hashes s)) else None)
  (merge_sort String.le (map fst (map_to_list versions))).

(** ** The order along the plan *)
Section order.
Variable g : gmap string (list string).
Hypothesis g_closed : closed g.
Hypothesis g_acyclic : acyclic g.

Lemma precedes_sound fuel a b : precedes fuel g a b = true → tc (depends g) a b.
Proof.
  revert b. induction fuel as [|fuel IH]; intros b; simpl; [done|]. rewrite existsb_exists. intros (d & Hd%list_elem_of_In & Ho).
  apply orb_true_iff in Ho as [->%bool_decide_eq_true|Hp]; [by apply tc_once|]. eapply tc_r; [by apply IH|done].
Qed.
(** The names visited on the way down are distinct, so that the fuel suffices. *)
Lemma precedes_complete fuel a b V : V ⊆ dom g → (∀ v, v ∈ V → tc (depends g) b v) → (size g <= fuel + size V)%nat →
  tc (depends g) a b → precedes fuel g a b = true.
Proof.
  revert b V. induction fuel as [|fuel IH]; intros b V HV Hp Hf Ht.
  all: assert (Hb : b ∈ dom g) by (destruct (depends_last _ _ _ Ht) as [|(? & _ & ?)]; by eapply depends_dom).
  all: assert (Hn : b ∉ V) by (intros Hb'; by apply (g_acyclic b), Hp).
  - exfalso. assert (Hs : {[b]} ∪ V ⊆ dom g) by set_solver. apply subseteq_size in Hs.
    rewrite size_dom, size_union, size_singleton in Hs by set_solver. lia.
  - simpl. apply existsb_exists. destruct (depends_last _ _ _ Ht) as [Hd|(z & Hz & Hd)].
    + exists a. split; [by apply list_elem_of_In|]. by rewrite bool_decide_eq_true_2.
    + exists z. split; [by apply list_elem_of_In|]. rewrite (IH z ({[b]} ∪ V)); [apply orb_true_r|set_solver| | |done].
      * intros v [->%elem_of_singleton|Hv]%elem_of_union; [by apply tc_once|]. eapply tc_l; [exact Hd|auto].
      * rewrite size_union, size_singleton by set_solver. lia.
Qed.
Lemma precedes_exact fuel a b : (size g <= fuel)%nat → precedes fuel g a b = true ↔ tc (depends g) a b.
Proof.
  intros Hf. split; [apply precedes_sound|]. apply (precedes_complete fuel a b ∅); [set_solver|set_solver|]. rewrite size_empty. lia.
Qed.
End order.

(** ** One history *)

Definition last_hash (l : list fileVersion) : string := match last l with Some e => fv_hash e | None => "" end.
(** An event starts from the version the one before it left. *)
Definition starts_from (e : fileVersion) (hash : string) : Prop := (if fv_change e then fv_before e else fv_hash e) = hash.
(** It replaces the version it starts from. *)
Definition rewrites (e : fileVersion) : Prop := fv_change e = true ∧ fv_hash e ≠ fv_before e.

Definition one_history (R : fileVersion → fileVersion → Prop) (l : list fileVersion) : Prop :=
  (∀ i a b, l !! i = Some a → l !! S i = Some b → starts_from b (fv_hash a)) ∧
  (∀ i j a b, (i < j)%nat → l !! i = Some a → l !! j = Some b → rewrites b → R a b).

Lemma one_history_snoc R l e : one_history R (l ++ [e]) ↔
  one_history R l ∧ (l ≠ [] → starts_from e (last_hash l)) ∧ (rewrites e → ∀ x, x ∈ l → R x e).
Proof.
  unfold one_history, last_hash. split.
  - intros [Hc Hr]. split_and!.
    + intros i a b Ha Hb. apply (Hc i a b); by apply lookup_app_l_Some.
    + intros i j a b Hij Ha Hb. apply (Hr i j a b Hij); by apply lookup_app_l_Some.
    + intros Hne. destruct (last l) as [a|] eqn:El; [|by apply last_None in El]. rewrite last_lookup in El.
      apply (Hc (pred (length l)) a e); [by apply lookup_app_l_Some|]. destruct l; [done|]. simpl. by rewrite lookup_app_r, Nat.sub_diag by lia.
    + intros He x [i Hx]%list_elem_of_lookup. apply (Hr i (length l) x e); [by eapply lookup_lt_Some|by apply lookup_app_l_Some| |done].
      by rewrite lookup_app_r, Nat.sub_diag.
  - intros ((Hc & Hr) & Hl & He). split.
    + intros i a b Ha Hb. apply lookup_app_Some in Hb as [Hb|[Hi Hb]].
      * apply (Hc i a b); [|done]. apply lookup_lt_Some in Hb. rewrite lookup_app_l in Ha by lia. done.
      * assert (b = e ∧ length l = S i) as [-> Hlen] by (apply list_lookup_singleton_Some in Hb as [? ?]; split; [done|lia]).
        rewrite lookup_app_l in Ha by lia. destruct l as [|x l]; [done|]. specialize (Hl ltac:(done)).
        rewrite last_lookup in Hl. simpl length in *. replace (pred (S (length l))) with i in Hl by lia. by rewrite Ha in Hl.
    + intros i j a b Hij Ha Hb Hw. apply lookup_app_Some in Hb as [Hb|[Hi Hb]].
      * apply (Hr i j a b); try done. apply lookup_lt_Some in Hb. by rewrite lookup_app_l in Ha by lia.
      * apply list_lookup_singleton_Some in Hb as [? <-]. apply He; [done|]. rewrite lookup_app_l in Ha by lia. by eapply list_elem_of_lookup_2.
Qed.

(** The first occurrences. *)
Definition distinct (l : list string) : list string := foldl add_new [] l.
Definition versions_named (l : list fileVersion) : list string := filter (λ h, h ≠ "") (concat (map (λ e, [fv_before e; fv_hash e]) l)).

Lemma add_hashes l k : foldl (λ l h, if bool_decide (h = "") then l else add_new l h) l k = foldl add_new l (filter (λ h, h ≠ "") k).
Proof.
  revert l. induction k as [|h k IH]; intros l; [done|]. rewrite filter_cons. simpl foldl at 1. rewrite IH.
  case_bool_decide; [by rewrite decide_False by (intros Hx; by apply Hx)|by rewrite decide_True].
Qed.

Lemma and_when (P Q Q' : Prop) : (P → Q ↔ Q') → P ∧ Q ↔ P ∧ Q'.
Proof. tauto. Qed.

Section scan.
Variable order : fileVersion → fileVersion → bool.
Variable R : fileVersion → fileVersion → Prop.
Hypothesis order_R : ∀ a b, order a b = true ↔ R a b.
Hypothesis R_trans : ∀ a b c, R a b → R b c → R a c.

Record scanned (l : list fileVersion) (s : scan) : Prop := {
  sd_current : sc_current s = last_hash l;
  sd_children : sc_children s = distinct (map fv_child l);
  sd_hashes : sc_hashes s = distinct (versions_named l);
  sd_nil : sc_previous s = [] ↔ l = [];
  sd_conflict : sc_conflict s = false ↔ one_history R l;
  sd_previous : ∀ x, x ∈ sc_previous s → x ∈ l;
  sd_ordered : one_history R l → ∀ x, x ∈ l → x ∈ sc_previous s ∨ ∃ y, y ∈ sc_previous s ∧ R x y;
}.

Lemma scanned_all_before l s e : scanned l s → one_history R l →
  (∀ p, p ∈ sc_previous s → R p e) ↔ ∀ x, x ∈ l → R x e.
Proof.
  intros Hs Hh. split; [|intros Hx p Hp; by apply Hx, (sd_previous _ _ Hs)].
  intros Hp x Hx. destruct (sd_ordered _ _ Hs Hh x Hx) as [?|(y & Hy & Hxy)]; eauto.
Qed.

Lemma scan_conflict l s e : scanned l s → sc_conflict (scan_event order s e) = false ↔ one_history R (l ++ [e]).
Proof.
  intros Hs. rewrite one_history_snoc, <- (sd_conflict _ _ Hs). simpl. rewrite orb_false_iff. apply and_when. intros Hh.
  rewrite andb_false_iff, negb_false_iff, bool_decide_eq_true, (sd_nil _ _ Hs), (sd_current _ _ Hs).
  destruct (decide (l = [])) as [->|Hne]; [split; [intros _; split; [done|set_solver]|auto]|].
  rewrite orb_false_iff, negb_false_iff, bool_decide_eq_true, andb_false_iff, negb_false_iff, forallb_forall.
  apply (sd_conflict _ _ Hs) in Hh. pose proof (scanned_all_before l s e Hs Hh) as Hb. unfold starts_from, rewrites. split.
  - intros [?|[He Hr]]; [done|]. split; [by intros _|]. intros [Hc Hw]. rewrite Hc in *. apply Hb. intros p Hp.
    destruct Hr as [Hr|Hr]; [|by apply order_R, Hr, list_elem_of_In]. exfalso. simpl in Hr. apply negb_false_iff, bool_decide_eq_true in Hr. congruence.
  - intros [He Hr]. specialize (He Hne). right. split; [done|]. destruct (fv_change e) eqn:Ec; [|by left]. simpl. case_bool_decide as Hw; [by left|right].
    intros p Hp%list_elem_of_In. apply order_R. apply Hb; [|done]. apply Hr. split; [done|congruence].
Qed.

Lemma scan_exact l : scanned l (scan_events order l).
Proof.
  induction l as [|e l IH] using rev_ind.
  { split; try done. by intros _ x ?%not_elem_of_nil. }
  unfold scan_events in *. rewrite foldl_app. simpl. set (s := foldl _ _ l) in *. split.
  - simpl. unfold last_hash. by rewrite last_snoc.
  - simpl. rewrite (sd_children _ _ IH). unfold distinct. by rewrite map_app, foldl_app.
  - simpl sc_hashes. change (if bool_decide (fv_hash e = "") then _ else _) with
      (foldl (λ l h, if bool_decide (h = "") then l else add_new l h) (sc_hashes s) [fv_before e; fv_hash e]).
    rewrite add_hashes, (sd_hashes _ _ IH). unfold distinct, versions_named. rewrite map_app, concat_app, filter_app, foldl_app. simpl. done.
  - simpl. split; [intros E; by apply app_nil in E as [_ ?]|intros E; by apply app_nil in E as [_ ?]].
  - by apply scan_conflict.
  - simpl. intros x [Hx| ->%list_elem_of_singleton]%elem_of_app; [|set_solver]. apply elem_of_app. left.
    destruct (_ && _); [set_solver|by apply (sd_previous _ _ IH)].
  - intros Hh x Hx. pose proof (proj1 (one_history_snoc _ _ _) Hh) as (Hl & Hstart & Hrw). simpl.
    apply elem_of_app in Hx as [Hx|Hx]; [|left; set_solver].
    destruct (fv_change e && _) eqn:Er; [|destruct (sd_ordered _ _ IH Hl x Hx) as [|(y & Hy & ?)]; [left; set_solver|right; exists y; set_solver]].
    right. exists e. split; [set_solver|]. apply Hrw; [|done]. apply andb_true_iff in Er as [Ec Hn]. apply negb_true_iff, bool_decide_eq_false in Hn.
    split; [done|]. rewrite (sd_current _ _ IH) in Hn. unfold starts_from in Hstart. rewrite Ec in Hstart. rewrite Hstart; [done|]. intros ->. set_solver.
Qed.
End scan.

(** [a] was saved before [b], in the same child or in one [b]'s child depends
    on. *)
Definition history_order (plan : CollaborationPlan) (a b : fileVersion) : Prop :=
  (fv_sequence a < fv_sequence b)%Z ∧ (fv_child a = fv_child b ∨ tc (before (pl_children plan)) (fv_child a) (fv_child b)).

Section exact.
Variable plan : CollaborationPlan.
Hypothesis names : NoDup (map sp_name (pl_children plan)).
Hypothesis known : ∀ c d, c ∈ pl_children plan → d ∈ sp_depends_on c → d ∈ map sp_name (pl_children plan).
Hypothesis no_cycle : ∀ x, ¬ tc (before (pl_children plan)) x x.

Lemma graph_tc a b : tc (depends (graph_of (pl_children plan))) a b ↔ tc (before (pl_children plan)) a b.
Proof. split; apply (tc_congruence id); intros x y; by apply depends_before. Qed.
Lemma graph_size : (size (graph_of (pl_children plan)) <= length (pl_children plan))%nat.
Proof.
  rewrite <- size_dom. transitivity (size (list_to_set (map sp_name (pl_children plan)) : gset string)).
  - apply subseteq_size. intros x. rewrite graph_of_dom, elem_of_list_to_set. done.
  - rewrite size_list_to_set by done. by rewrite length_map.
Qed.
Lemma ordered_exact a b : ordered plan a b = true ↔ history_order plan a b.
Proof.
  unfold ordered, history_order. rewrite andb_true_iff, orb_true_iff, Z.ltb_lt, bool_decide_eq_true, precedes_exact, graph_tc; [done| | |apply graph_size].
  - intros x y (c & Hc & _ & Hx)%depends_before; [|done]. apply graph_of_dom. by apply (known c).
  - intros x Hx. by apply (no_cycle x), graph_tc.
Qed.
Lemma history_order_trans a b c : history_order plan a b → history_order plan b c → history_order plan a c.
Proof.
  intros [H1 [E1|T1]] [H2 [E2|T2]]; (split; [lia|]); rewrite ?E1, ?E2 in *; auto. right. by eapply tc_trans.
Qed.
End exact.

(** The sorted events are the events, in the order of their sequence. *)
Lemma insert_version_perm e l : insert_version e l ≡ₚ e :: l.
Proof. induction l as [|x l IH]; simpl; [done|]. destruct (_ <=? _)%Z; [done|]. rewrite IH. apply Permutation_swap. Qed.
Lemma sort_versions_perm l : sort_versions l ≡ₚ l.
Proof. induction l as [|e l IH]; simpl; [done|]. by rewrite insert_version_perm, IH. Qed.
Lemma insert_version_sorted e l : StronglySorted (λ a b, (fv_sequence a <= fv_sequence b)%Z) l →
  StronglySorted (λ a b, (fv_sequence a <= fv_sequence b)%Z) (insert_version e l).
Proof.
  induction 1 as [|x l Hl IH Hx]; simpl; [repeat constructor|]. destruct (Z.leb_spec (fv_sequence e) (fv_sequence x)).
  - repeat constructor; try done. eapply Forall_impl; [exact Hx|]. simpl. lia.
  - constructor; [done|]. rewrite insert_version_perm. constructor; [lia|done].
Qed.
Lemma sort_versions_sorted l : StronglySorted (λ a b, (fv_sequence a <= fv_sequence b)%Z) (sort_versions l).
Proof. induction l as [|e l IH]; simpl; [constructor|]. by apply insert_version_sorted. Qed.

(** C33: In a plan with distinct names and no cycle, fileConflicts reports exactly
    the files whose saved events, in the order of their sequence, have no single
    history: some event does not start from the version the one before it left,
    or some rewrite is not after everything seen before it, in the same child or
    along the dependencies. A report names the children and the versions in the
    order they appear. *)
Theorem conflicts_exact plan versions c :
  NoDup (map sp_name (pl_children plan)) →
  (∀ c d, c ∈ pl_children plan → d ∈ sp_depends_on c → d ∈ map sp_name (pl_children plan)) →
  (∀ x, ¬ tc (before (pl_children plan)) x x) →
  c ∈ fileConflicts plan versions ↔ ∃ path events, versions !! path = Some events ∧
    ¬ one_history (history_order plan) (sort_versions events) ∧
    c = mkConflict path (distinct (map fv_child (sort_versions events))) (distinct (versions_named (sort_versions events))).
Proof.
  intros Hn Hk Ha. unfold fileConflicts. rewrite list_elem_of_omap.
  assert (Hs : ∀ events, scanned (history_order plan) (sort_versions events) (scan_events (ordered plan) (sort_versions events))).
  { intros events. apply scan_exact; [intros; by apply ordered_exact|apply history_order_trans]. }
  split.
  - intros (path & Hp & E). rewrite merge_sort_Permutation in Hp. apply list_elem_of_fmap in Hp as ([p events] & -> & Hp%elem_of_map_to_list). simpl in *.
    rewrite Hp in E. simpl in E. destruct (Hs events). destruct (sc_conflict _); [|done]. injection E as <-. exists p, events.
    split; [done|]. split; [intros Hh; by apply sd_conflict0 in Hh|]. congruence.
  - intros (path & events & Hp & Hh & ->). exists path. split; [rewrite merge_sort_Permutation; apply list_elem_of_fmap; exists (path, events); split; [done|by apply elem_of_map_to_list]|].
    rewrite Hp. simpl. destruct (Hs events). destruct (sc_conflict _); [by rewrite sd_children0, sd_hashes0|]. by destruct Hh; apply sd_conflict0.
Qed.

(** ** Witnesses *)
Module ConflictsDemo.
Definition child (name : string) (after : list string) : ChildSpec := mkChildSpec name "r" "work" "" after [].
Definition plan : CollaborationPlan :=
  mkPlan "work" (mkParentBudget 4 10 10 4096 2 60) ∅ [child "a" []; child "b" ["a"]; child "c" []] true 0 false.
(** [b] rewrites what [a] wrote, which it depends on; [c] rewrites a version [a]
    has read. *)
Definition versions : gmap string (list fileVersion) :=
  {["x" := [mkVersion "a" 1 "0" "1" true; mkVersion "b" 2 "1" "2" true];
    "y" := [mkVersion "c" 4 "0" "1" true; mkVersion "a" 3 "" "0" false]]}.
Lemma names : NoDup (map sp_name (pl_children plan)).
Proof. apply (bool_decide_unpack (NoDup (map sp_name (pl_children plan)))). vm_compute. exact I. Qed.
Lemma known c d : c ∈ pl_children plan → d ∈ sp_depends_on c → d ∈ map sp_name (pl_children plan).
Proof.
  intros Hc Hd. repeat (apply elem_of_cons in Hc as [->|Hc]; [simpl in *; set_solver|]). by apply not_elem_of_nil in Hc.
Qed.
Lemma no_cycle x : ¬ tc (before (pl_children plan)) x x.
Proof.
  intros Hx. destruct (check_order_acyclic (graph_of (pl_children plan)) ["a"; "b"; "c"]) as (r & Er & _ & Ha).
  - intros a b (c & Hc & _ & Hd)%depends_before; [|apply names]. apply graph_of_dom. by eapply known.
  - intros y. by rewrite graph_of_dom.
  - vm_compute in Er. injection Er as <-. apply (proj1 Ha eq_refl x). by apply graph_tc; [apply names|].
Qed.
End ConflictsDemo.

Lemma conflicts_exact_witness :
  ∃ events, ConflictsDemo.versions !! "y" = Some events ∧ ¬ one_history (history_order ConflictsDemo.plan) (sort_versions events) ∧
    fileConflicts ConflictsDemo.plan ConflictsDemo.versions = [mkConflict "y" ["a"; "c"] ["0"; "1"]].
Proof.
  destruct (proj1 (conflicts_exact ConflictsDemo.plan ConflictsDemo.versions (mkConflict "y" ["a"; "c"] ["0"; "1"])
     ConflictsDemo.names ConflictsDemo.known ConflictsDemo.no_cycle)) as (path & events & Hp & Hh & E).
  - assert (fileConflicts ConflictsDemo.plan ConflictsDemo.versions = [mkConflict "y" ["a"; "c"] ["0"; "1"]]) as -> by (vm_compute; reflexivity). set_solver.
  - injection E as <- _ _. exists events. split; [exact Hp|]. split; [exact Hh|]. vm_compute. reflexivity.
Defined.
