(* ===== verification/Evidence.v ===== *)
(** * The evidence of runs, and the results children hand on

    Model of src/internal/harness/evidence.go, of the projections of
    collaboration_report.go and of collaboration_results.go: what the saved
    attempts of a run prove, what is missing of what a role must prove, the
    sections of a child's result, and the bounded excerpts another child is
    given. [results_checks] implements the check the budget guard asks for before
    every call. *)

From Stdlib Require Import Ascii.
From S2P Require Import Prelude Text Utf8 Data Sql Store Budget Memory Workspace Profile Plan Conflicts.

(** ** Runtime evidence *)
Record Evidence := mkEvidence {
  ev_attachments : list ToolReceipt;
  ev_files : list ToolReceipt;
  ev_commands : list ToolReceipt;
  ev_http : list ToolReceipt;
  ev_passed : list string;
  ev_not_run : list string;
  ev_uncertainty : list string;
}.
Record ObservedResult := mkObserved {
  ob_attempt : string; ob_tool : string; ob_hash : string; ob_path : string; ob_file_hash : string; ob_offset : Z; ob_next : Z;
}.
(** The fields the code reads in the JSON of a child's answer; a list that is
    absent is [None]. *)
Record OutputDocument := mkOutput {
  od_summary : string; od_findings : option (list string); od_references : option (list string);
  od_artifacts : option (list string); od_questions : option (list string);
}.
Record ResultPacket := mkPacket {
  pk_source : string; pk_run : string; pk_hash : string; pk_summary : string; pk_findings : option (list string);
  pk_references : option (list string); pk_artifacts : option (list string); pk_questions : option (list string);
}.
(** What [Inspect] collects of a child, without [OutputBytes], [Delivered] and
    [Result], which are only shown. *)
Record ChildReport := mkChildReport {
  rt_spec : ChildSpec; rt_role : RoleProfile; rt_control : string; rt_run : Run; rt_evidence : Evidence;
  rt_observed : list ObservedResult; rt_retired : bool;
}.

(** The JSON texts the code decodes and encodes: the arguments of command_run
    ([command] and [check]), the result of file_read ([path], [sha256], [offset],
    [next_offset]), an answer with all the lists of a packet, one with only
    [summary] and [findings], and [follow_up]; a list of strings ([None] is
    null), the evidence section, and the delivered excerpts. *)
Class ResultHost := {
  decode_command : string → option (string * bool);
  decode_file : string → option (string * string * Z * Z);
  decode_packet : string → option OutputDocument;
  decode_contract : string → option (string * option (list string));
  decode_follow_up : string → option string;
  json_texts : option (list string) → string;
  json_evidence : Evidence → list ObservedResult → string;
  json_delivered : list DeliveredResult → string;
}.

Section evidence.
Context {RH : ResultHost}.

Definition no_evidence : Evidence := mkEvidence [] [] [] [] [] [] [].
Definition add_uncertain (b : bool) (s : string) (e : Evidence) : Evidence :=
  if b then mkEvidence (ev_attachments e) (ev_files e) (ev_commands e) (ev_http e) (ev_passed e) (ev_not_run e) (ev_uncertainty e ++ [s]) else e.

(** The results decoded from the response of a tool attempt. *)
Definition tool_result (a : Attempt) : option ToolResult := match att_response a with Some (RTool r) => Some r | _ => None end.
Definition attempt_receipts (a : Attempt) : list ToolReceipt := match tool_result a with Some r => tr_receipts r | None => [] end.

(** The body of the loop over the receipts. *)
Definition is_status (t : ToolReceipt) (l : list string) : bool := bool_decide (tx_status t ∈ l).
Definition exited_zero (t : ToolReceipt) : bool := bool_decide (tx_exit t = Some 0%Z).
Definition receipt_evidence (status : AttemptStatus) (e : Evidence) (t : ToolReceipt) : Evidence :=
  let doubtful := is_status t ["unknown"] || tx_truncated t || negb (bool_decide (tx_detail t = "")) in
  let not_started := is_status t ["not_launched"; "failed_to_start"] in
  if bool_decide (tx_kind t = "attachment") then
    mkEvidence (ev_attachments e ++ [t]) (ev_files e) (ev_commands e) (ev_http e) (ev_passed e) (ev_not_run e) (ev_uncertainty e)
  else if bool_decide (tx_kind t = "file") then
    add_uncertain doubtful (tx_path t +:+ ": " +:+ tx_status t +:+ "; " +:+ tx_detail t)
      (mkEvidence (ev_attachments e) (ev_files e ++ [t]) (ev_commands e) (ev_http e) (ev_passed e) (ev_not_run e) (ev_uncertainty e))
  else if bool_decide (tx_kind t = "command") then
    let passed := tx_check t && bool_decide (status = AFinished) && is_status t ["completed"] && exited_zero t && negb (tx_truncated t) in
    let e := mkEvidence (ev_attachments e) (ev_files e) (if not_started then ev_commands e else ev_commands e ++ [t]) (ev_http e)
               (if passed then ev_passed e ++ [tx_command t] else ev_passed e)
               (if tx_check t && negb passed && not_started then ev_not_run e ++ [tx_command t] else ev_not_run e) (ev_uncertainty e) in
    let e := add_uncertain (is_status t ["interrupted"; "timed_out"; "unknown"] || tx_truncated t)
               (tx_command t +:+ ": " +:+ tx_status t +:+ "; no claim of unchanged side effects") e in
    add_uncertain (negb (bool_decide (tx_detail t = ""))) (tx_command t +:+ ": " +:+ tx_detail t) e
  else if bool_decide (tx_kind t = "observation") then add_uncertain true (tx_detail t) e
  else if bool_decide (tx_kind t = "http") then
    add_uncertain doubtful (tx_url t +:+ ": " +:+ tx_status t +:+ "; " +:+ tx_detail t)
      (mkEvidence (ev_attachments e) (ev_files e) (ev_commands e) (ev_http e ++ [t]) (ev_passed e) (ev_not_run e) (ev_uncertainty e))
  else e.

Definition kind_text (k : AttemptKind) : string := match k with KModel => "model" | KTool => "tool" | KWorkflow => "workflow" end.
(** A pending command_run with [check]. *)
Definition pending_check (a : Attempt) : option string :=
  if bool_decide (att_kind a = KTool) && bool_decide (att_status a = APending) then
    match att_request a with
    | QTool c => if bool_decide (tc_name c = "command_run") then
                   match decode_command (tc_arguments c) with Some (command, true) => Some command | _ => None end
                 else None
    | _ => None
    end
  else None.
(** [attemptEvidence]. *)
Definition attempt_evidence (e : Evidence) (a : Attempt) : Evidence :=
  let e := if bool_decide (att_kind a = KTool) then foldl (receipt_evidence (att_status a)) e (attempt_receipts a) else e in
  let e := match pending_check a with
           | Some command => mkEvidence (ev_attachments e) (ev_files e) (ev_commands e) (ev_http e) (ev_passed e) (ev_not_run e ++ [command]) (ev_uncertainty e)
           | None => e
           end in
  add_uncertain (bool_decide (att_status a = AUnknown) || bool_decide (att_status a = ADispatched))
    (kind_text (att_kind a) +:+ " attempt " +:+ att_id a +:+ " has UNKNOWN outcome; not automatically replayable") e.
Definition attemptEvidence (l : list Attempt) : Evidence := foldl attempt_evidence no_evidence l.

(** ** What a child observed *)
Section observed.
Context {H : Host}.

Definition applied_version (name : string) (seq : Z) (t : ToolReceipt) : option (string * fileVersion) :=
  if bool_decide (tx_kind t = "file") && negb (bool_decide (tx_after t = "")) && is_status t ["applied"]
  then Some (tx_path t, mkVersion name seq (tx_before t) (tx_after t) true) else None.
(** The body of the loop of [childRuntimeResults]: the observation of an attempt
    and the versions of files it saw, in order. *)
Definition runtime_result (name : string) (reservations : gmap string outputReservation) (a : Attempt)
    : list ObservedResult * list (string * fileVersion) :=
  if bool_decide (att_kind a = KTool) && bool_decide (att_status a = AFinished) && bool_decide (is_Some (reservations !! att_id a)) then
    match tool_result a, att_request a with
    | Some r, QTool c =>
        let applied := omap (applied_version name (att_seq a)) (tr_receipts r) in
        if tr_is_error r then ([], applied)
        else
          let plain := mkObserved (att_id a) (tc_name c) (sha256hex (tr_content r)) "" "" 0 0 in
          match (if bool_decide (tc_name c = "file_read") then decode_file (tr_content r) else None) with
          | Some (path, hash, offset, next) =>
              if negb (bool_decide (path = "")) && bool_decide (String.length hash = 64%nat)
              then ([mkObserved (att_id a) (tc_name c) (sha256hex (tr_content r)) path hash offset next],
                    applied ++ [(path, mkVersion name (att_seq a) "" hash false)])
              else ([plain], applied)
          | None => ([plain], applied)
          end
    | _, _ => ([], [])
    end
  else ([], []).
Definition group_versions (m : gmap string (list fileVersion)) (l : list (string * fileVersion)) : gmap string (list fileVersion) :=
  foldl (λ m pv, <[pv.1 := default [] (m !! pv.1) ++ [pv.2]]> m) m l.
Definition childRuntimeResults (name : string) (l : list Attempt) (reservations : gmap string outputReservation)
    : list ObservedResult * list (string * fileVersion) :=
  (concat (map (λ a, (runtime_result name reservations a).1) l), concat (map (λ a, (runtime_result name reservations a).2) l)).

(** ** What a role must prove *)

(** The cases of [missingRequirements]. *)
Definition proved (c : ChildReport) (r : EvidenceRequirement) : bool :=
  let e := rt_evidence c in
  let target := er_target r in
  if bool_decide (er_kind r = "read") then existsb (λ o, bool_decide (ob_tool o = "file_read") && bool_decide (ob_path o = target)) (rt_observed c)
  else if bool_decide (er_kind r = "file_change") then existsb (λ t, is_status t ["applied"] && bool_decide (tx_path t = target)) (ev_files e)
  else if bool_decide (er_kind r = "command") then
    existsb (λ t, is_status t ["completed"] && bool_decide (tx_command t = target) && exited_zero t && negb (tx_truncated t)) (ev_commands e)
  else if bool_decide (er_kind r = "check") then bool_decide (target ∈ ev_passed e)
  else if bool_decide (er_kind r = "http") then
    existsb (λ t, bool_decide (tx_url t = target) && is_status t ["completed"] && within 200 299 (tx_http_status t) && negb (tx_truncated t)) (ev_http e)
  else false.
Definition missingRequirements (c : ChildReport) : list string :=
  omap (λ r, if proved c r then None
             else Some (sp_name (rt_spec c) +:+ ": no corresponding runtime " +:+ er_kind r +:+ " evidence for " +:+ er_target r))
    (rp_evidence (rt_role c)).
(** [childEvidenceGaps]. *)
Definition contract_kept (output : string) : bool :=
  match decode_contract output with
  | Some (summary, Some _) => negb (bool_decide (summary = ""))
  | _ => false
  end.
Definition childEvidenceGaps (c : ChildReport) : list string :=
  let name := sp_name (rt_spec c) in
  let role := rt_role c in
  (if negb (bool_decide (rp_acceptance role = "analysis")) && bool_decide (rp_evidence role = []) && bool_decide (rt_observed c = [])
   then [name +:+ ": no successful dispatched tool result; model text is not execution evidence"] else [])
  ++ missingRequirements c
  ++ (if negb (bool_decide (ev_uncertainty (rt_evidence c) = [])) then [name +:+ ": unresolved or truncated runtime evidence"] else [])
  ++ (if bool_decide (rp_output_format role = "json") && negb (contract_kept (run_output (rt_run c)))
      then [name +:+ ": JSON output contract not satisfied"] else []).

(** ** Excerpts of results *)

(** [resultPacket]. *)
Definition resultPacket (c : ChildReport) : ResultPacket :=
  let output := run_output (rt_run c) in
  let packet := mkPacket (sp_name (rt_spec c)) (run_id (rt_run c)) (sha256hex output) in
  match decode_packet output with
  | Some d => if bool_decide (od_summary d = "") then packet output None None None None
              else packet (od_summary d) (od_findings d) (od_references d) (od_artifacts d) (od_questions d)
  | None => packet output None None None None
  end.
(** [resultSection]. *)
Definition resultSection (c : ChildReport) (scope : string) : res string :=
  let p := resultPacket c in
  if bool_decide (scope = "output") then Ok (run_output (rt_run c))
  else if bool_decide (scope = "summary") then Ok (pk_summary p)
  else if bool_decide (scope = "findings") then Ok (json_texts (pk_findings p))
  else if bool_decide (scope = "references") then Ok (json_texts (pk_references p))
  else if bool_decide (scope = "artifacts") then Ok (json_texts (pk_artifacts p))
  else if bool_decide (scope = "questions") then Ok (json_texts (pk_questions p))
  else if bool_decide (scope = "evidence") then Ok (json_evidence (rt_evidence c) (rt_observed c))
  else Err ErrResultReference.
(** [boundedResult]. *)
Definition starts_rune (raw : string) (offset : Z) : bool :=
  (slen raw <=? offset)%Z || match byte_at raw (Z.to_nat offset) with Some c => RuneStart c | None => true end.
Definition boundedResult (c : ChildReport) (ref : ResultReference) : res DeliveredResult :=
  raw ← resultSection c (rr_scope ref);
  let offset := rr_offset ref in
  _ ← check (ValidString raw && (offset <=? slen raw)%Z && starts_rune raw offset) ErrResultReference;
  let rest := drop_s (Z.to_nat offset) raw in
  let stop := (offset + Z.of_nat (back_up rest (Z.to_nat (Z.min (slen raw - offset) (rr_max_bytes ref)))))%Z in
  _ ← check (negb (bool_decide (stop = offset) && (stop <? slen raw)%Z)) ErrResultReference;
  Ok (mkDelivered ref (run_id (rt_run c)) (sha256hex (run_output (rt_run c))) (sha256hex raw) stop (stop <? slen raw)%Z
        (excerpt raw offset stop)).
End observed.
End evidence.
