(* ===== verification/Results.v ===== *)
(** * Results handed from one child to another

    Model of deliverResults and validateDeliveredResults
    (src/internal/harness/collaboration_results.go) and of [change]
    (collaboration.go): a child whose assignment grants it results of others is
    given exact excerpts of them before it starts, and before each of its calls
    the excerpts are compared with what is saved. *)

From S2P Require Import Prelude Text Utf8 Data Sql Store Budget Memory Workspace Profile Plan Conflicts Evidence.

(** Go's zero value of a role that is not in the plan. *)
Definition zeroRole : RoleProfile :=
  mkRoleProfile "" "" [] [] "" "" [] (mkChildBudget 0 0 0 0)
    (mkRoleMemory "" (mkMemorySelection [] [] [] [] false) (mkShared false false false [] [])).
Definition role_of (r : collaborationRecord) (spec : ChildSpec) : RoleProfile := default zeroRole (pl_roles (cr_plan r) !! sp_role spec).

Section validate.
Context {H : Host} {RH : ResultHost}.

(** The report [validateDeliveredResults] makes of a source. *)
Definition source_report (d : db) (r : collaborationRecord) (source : childRecord) (run : Run) : ChildReport :=
  let attempts := listAttempts (run_id run) d in
  mkChildReport (ch_spec source) (role_of r (ch_spec source)) "" run (attemptEvidence attempts)
    (childRuntimeResults (sp_name (ch_spec source)) attempts (cr_reservations r)).1 false.
Definition live_source (source : childRecord) : bool :=
  negb (bool_decide (ch_run source = "")) && bool_decide (ch_control source = "running") && negb (ch_retired source).
(** The body of the loop of [validateDeliveredResults]. *)
Definition delivered_item (d : db) (r : collaborationRecord) (ref : ResultReference) (item : DeliveredResult) : res unit :=
  let source := recordChild r (rr_source ref) in
  _ ← check (live_source source && bool_decide (dv_reference item = ref) && bool_decide (dv_run item = ch_run source)
             && (slen (dv_content item) <=? rr_max_bytes ref)%Z && ValidString (dv_content item)
             && bool_decide (slen (dv_section_hash item) = 64%Z)
             && bool_decide (dv_next_offset item = rr_offset ref + slen (dv_content item))%Z) ErrResultReference;
  match find_run (ch_run source) d with
  | None => Err (EJoin [ErrResultReference; ErrNoRows])
  | Some run =>
      _ ← check (bool_decide (run_status run = Completed) && bool_decide (sha256hex (run_output run) = dv_output_hash item))
            (EJoin [ErrResultReference]);
      let report := source_report d r source run in
      match boundedResult report ref with
      | Err e => Err (EJoin [ErrResultReference; e])
      | Ok expected => check (bool_decide (childEvidenceGaps report = []) && bool_decide (item = expected)) (EJoin [ErrResultReference])
      end
  end.
Fixpoint delivered_items (d : db) (r : collaborationRecord) (refs : list ResultReference) (items : list DeliveredResult) : res unit :=
  match refs, items with
  | ref :: refs, item :: items => _ ← delivered_item d r ref item; delivered_items d r refs items
  | _, _ => Ok tt
  end.
(** [validateDeliveredResults]. *)
Definition delivered_valid (d : db) (r : collaborationRecord) (c : childRecord) : res unit :=
  if bool_decide (sp_results (ch_spec c) = []) then Ok tt
  else
    _ ← check (is_ok (validateResultReferences (ch_spec c)) && ch_results_ready c
               && bool_decide (length (ch_delivered c) = length (sp_results (ch_spec c)))) ErrResultReference;
    delivered_items d r (sp_results (ch_spec c)) (ch_delivered c).
(** What the guard of the budget asks for. *)
Definition results_checks : ReadChecks := {| validateDeliveredResults := delivered_valid |}.
End validate.

