(* ===== verification/Report.v ===== *)
(** * The report of a collaboration

    Model of Inspect (src/internal/harness/collaboration_report.go), of the
    delivery notes of evidence.go, of inspectSynthesis (collaboration_synthesis.go)
    and of the decisions taken from a report: whether the parent plans again
    (collaboration_replan.go) and whether a finished collaboration holds
    ([Check]). *)

From stdpp Require Import pretty.
From S2P Require Import Prelude Text Utf8 Data Sql Store Budget Memory Workspace Profile Plan Conflicts Evidence Results.

Record SynthesisResult := mkSynthesis { sy_attempt : string; sy_digest : string; sy_status : string; sy_text : string }.
(** Without [Budget], [Usage] and [Remaining], which are shown only; [Parent]
    has no output. *)
Record CollaborationReport := mkReport {
  cx_parent : Run; cx_evidence : Evidence; cx_revision : Z; cx_control : string; cx_children : list ChildReport;
  cx_conflicts : list EvidenceConflict; cx_gaps : list string; cx_digest : string; cx_decision : string; cx_synthesis : SynthesisResult;
}.

(** The JSON text a report's digest is computed of. *)
Class ReportHost := {
  json_report : list (ChildReport * childRecord) → list EvidenceConflict → list string → string;
}.

(** [validateResponse] (service.go), for the fields of a response that are
    modelled. *)
Definition response_call_ok (c : ToolCall) : bool :=
  within 1 256 (slen (tc_id c)) && within 1 128 (slen (tc_name c)) && (slen (tc_arguments c) <=? 2 * (256 * KiB))%Z.
Definition validateResponse (r : ModelResponse) : res unit :=
  _ ← check (match rs_failure r with None => true | Some _ => false end) (EText "harness: failed provider output cannot be a final answer");
  _ ← check ((length (rs_tool_calls r) <=? 32)%nat && (slen (rs_content r) <=? MiB)%Z) (EText "harness: model response exceeded limits");
  check (forallb response_call_ok (rs_tool_calls r) && bool_decide (NoDup (map tc_id (rs_tool_calls r))))
    (EText "harness: invalid or duplicate model tool call").

Definition status_text (s : RunStatus) : string :=
  match s with
  | Running => "running" | WaitingConfirmation => "waiting_confirmation" | Completed => "completed" | Stopped => "stopped"
  | Unknown => "unknown" | Limited => "limited" | Failed => "failed" | Abandoned => "abandoned"
  end.

Section report.
Context {H : Host} {RH : ResultHost} {PR : ReportHost}.

(** [channelDeliveryNotes]: the receipts of the run, grouped by their state; the
    order of the groups is the database's. *)
Definition send_state (run : string) (kv : string * MetaValue) : option string :=
  if HasPrefix kv.1 ("channel/send/" +:+ run +:+ "/") || HasPrefix kv.1 ("channel/file-send/" +:+ run +:+ "/") then
    match kv.2 with MSend state => Some state | MDelivery _ state _ _ => Some state | _ => None end
  else None.
Definition delivery_note (state : string) (count : nat) : option string :=
  let n := pretty count in
  if bool_decide (state = "queued") then Some (n +:+ " channel delivery part(s) queued; execution result retained")
  else if bool_decide (state ∈ ["unknown"; "dispatching"]) then
    Some ("channel delivery UNKNOWN for " +:+ n +:+ " part(s); execution was not replayed; inspect saved result before a new request")
  else if bool_decide (state = "failed") then
    Some ("channel delivery failed for " +:+ n +:+ " part(s); saved execution result retained; use an explicit status query")
  else None.
Definition channelDeliveryNotes (d : db) (run : string) : list string :=
  let states := omap (send_state run) (map_to_list (meta d)) in
  omap (λ s, delivery_note s (count_if (λ x, bool_decide (x = s)) states)) (take 16 (distinct states)).
(** [Store.Evidence]. *)
Definition store_evidence (d : db) (run : string) : Evidence :=
  foldl (λ e n, add_uncertain true n e) (attemptEvidence (listAttempts run d)) (channelDeliveryNotes d run).

(** [inspectSynthesis]. *)
Definition inspectSynthesis (d : db) (r : collaborationRecord) (digest : string) : res SynthesisResult :=
  if negb (pl_synthesis (cr_plan r)) then Ok (mkSynthesis "" "" "disabled" "")
  else if bool_decide (cr_synthesis_attempt r = "") then Ok (mkSynthesis "" "" "not_started" "")
  else
    let result := mkSynthesis (cr_synthesis_attempt r) (cr_synthesis_digest r) in
    match List.find (λ a, bool_decide (att_id a = cr_synthesis_attempt r) && bool_decide (att_run a = cr_parent r)) (attempts d) with
    | None => Err ErrNoRows
    | Some a =>
        if bool_decide (att_status a ∈ [AUnknown; ADispatched]) then Ok (result "UNKNOWN" "")
        else if negb (bool_decide (cr_synthesis_digest r = digest)) then Ok (result "stale" "")
        else match att_status a, att_response a with
             | AFinished, Some (RModel response) =>
                 if is_ok (validateResponse response) && bool_decide (rs_tool_calls response = [])
                    && negb (bool_decide (TrimSpace (rs_content response) = ""))
                 then Ok (result "finished" (rs_content response)) else Ok (result "failed" "")
             | _, _ => Ok (result "failed" "")
             end
    end.

(** [Inspect]: the body of the loop over the children, and the whole. *)
Definition child_report (d : db) (r : collaborationRecord) (c : childRecord) : res (ChildReport * list (string * fileVersion)) :=
  match find_run (ch_run c) d with
  | None => Err ErrNoRows
  | Some run =>
      let seen := childRuntimeResults (sp_name (ch_spec c)) (listAttempts (run_id run) d) (cr_reservations r) in
      Ok (mkChildReport (ch_spec c) (role_of r (ch_spec c)) (ch_control c) run (store_evidence d (run_id run)) seen.1 (ch_retired c), seen.2)
  end.
Definition report_gaps (c : ChildReport) : list string :=
  if bool_decide (run_status (rt_run c) = Completed) && negb (rt_retired c) then childEvidenceGaps c else [].
Definition without_output (r : Run) : Run := set_output "" r.
Definition report_of (d : db) (r : collaborationRecord) : res CollaborationReport :=
  match find_run (cr_parent r) d with
  | None => Err ErrNoRows
  | Some parent =>
      l ← mapM (child_report d r) (cr_children r);
      let children := map fst l in
      let conflicts := fileConflicts (cr_plan r) (group_versions ∅ (concat (map snd l))) in
      let gaps := concat (map report_gaps children) in
      let digest := sha256hex (json_report (zip children (cr_children r)) conflicts gaps) in
      synthesis ← inspectSynthesis d r digest;
      Ok (mkReport (without_output parent) (store_evidence d (run_id parent)) (cr_revision r) (cr_control r) children
            conflicts gaps digest (cr_decision r) synthesis)
  end.
Definition Inspect (parent : string) : M CollaborationReport :=
  r ← loadCollaboration parent;
  d ← query id;
  lift (report_of d r).

(** [shouldReplan] and [acknowledgeReplan] (collaboration_replan.go). *)
Definition asks_replan (r : collaborationRecord) (c : ChildReport) : bool :=
  negb (ch_retired (recordChild r (sp_name (rt_spec c))) || bool_decide (run_id (rt_run c) ∈ cr_replanned r)) &&
  (bool_decide (run_status (rt_run c) = Failed)
   || bool_decide (run_status (rt_run c) = Completed)
      && match decode_follow_up (run_output (rt_run c)) with
         | Some s => negb (bool_decide (TrimSpace s = "")) && (slen s <=? 1024)%Z
         | None => false
         end).
Definition shouldReplan (r : collaborationRecord) (report : CollaborationReport) : bool := existsb (asks_replan r) (cx_children report).
Definition set_replanned (l : list string) (r : collaborationRecord) : collaborationRecord :=
  mkRecord (cr_parent r) (cr_plan r) (cr_control r) (cr_usage r) (cr_children r) (cr_active r)
    (cr_reservations r) (cr_accepted_digest r) (cr_decision r) (cr_settings r) (cr_planning r) (cr_single r) (cr_revision r)
    (cr_replan_attempt r) l (cr_synthesis_attempt r) (cr_synthesis_digest r) (cr_initial_plan r).
Definition acknowledgeReplan (r : collaborationRecord) (report : CollaborationReport) : collaborationRecord :=
  set_replanned (foldl (λ l c, if bool_decide (run_status (rt_run c) ∈ [Completed; Failed]) then add_new l (run_id (rt_run c)) else l)
    (cr_replanned r) (cx_children report)) r.

(** ** The answer *)

(** [CombinedEvidence]. *)
Definition append_evidence (prefix : string) (e source : Evidence) : Evidence :=
  mkEvidence (ev_attachments e) (ev_files e ++ ev_files source) (ev_commands e ++ ev_commands source) (ev_http e ++ ev_http source)
    (ev_passed e ++ ev_passed source) (ev_not_run e ++ ev_not_run source) (ev_uncertainty e ++ map (String.append prefix) (ev_uncertainty source)).
Definition CombinedEvidence (r : CollaborationReport) : Evidence :=
  let e := append_evidence "" no_evidence (cx_evidence r) in
  let e := foldl (λ e c, append_evidence (sp_name (rt_spec c) +:+ ": ") e (rt_evidence c)) e (cx_children r) in
  append_evidence "" e (mkEvidence [] [] [] [] [] []
    (cx_gaps r ++ map (λ c, ec_path c +:+ ": differing runtime source versions retained") (cx_conflicts r))).

Definition listed (title : string) (l : option (list string)) : string :=
  match l with Some (x :: l) => nl +:+ title +:+ Join (x :: l) "; " | _ => "" end.
(** The body of [Answer]'s loop over the children. *)
Definition child_answer (c : ChildReport) : string :=
  if rt_retired c then
    nl +:+ nl +:+ sp_objective (rt_spec c) +:+ nl +:+ "Assignment retired; saved outcome: " +:+ status_text (run_status (rt_run c)) +:+ "."
  else
    let output := run_output (rt_run c) in
    let output := if bool_decide (rp_output_format (rt_role c) = "json") then
                    match decode_contract output with
                    | Some (summary, findings) => summary +:+ concat_s (map (λ f, nl +:+ "- " +:+ f) (default [] findings))
                    | None => output
                    end
                  else output in
    let packet := resultPacket c in
    nl +:+ nl +:+ sp_objective (rt_spec c) +:+ nl +:+ output
    +:+ (if bool_decide (rp_acceptance (rt_role c) = "analysis") then nl +:+ "Analysis conclusion; not an independently verified execution result." else "")
    +:+ listed "Reported external sources (not independent verification): " (pk_references packet)
    +:+ listed "Reported artifacts: " (pk_artifacts packet)
    +:+ listed "Open questions: " (pk_questions packet).
(** [Answer]. *)
Definition Answer (r : CollaborationReport) : string :=
  let y := cx_synthesis r in
  let e := CombinedEvidence r in
  (if bool_decide (sy_status y = "finished") then
     "Model synthesis (interpretation, not execution evidence)" +:+ nl +:+ sy_text y +:+ nl +:+ nl
   else if bool_decide (sy_status y ∈ [""; "disabled"; "not_started"]) then ""
   else "Model synthesis: " +:+ sy_status y +:+ "; saved expert results retained." +:+ nl +:+ nl)
  +:+ "Expert results" +:+ concat_s (map child_answer (cx_children r))
  +:+ (match cx_conflicts r with
       | [] => ""
       | _ => nl +:+ nl +:+ "Differing source versions were retained."
              +:+ (if bool_decide (cx_decision r = "") then "" else nl +:+ "User decision: " +:+ cx_decision r)
       end)
  +:+ nl +:+ nl +:+ "Runtime facts"
  +:+ (if bool_decide (ev_files e = []) && bool_decide (ev_commands e = []) && bool_decide (ev_http e = [])
          && bool_decide (ev_passed e = []) && bool_decide (ev_not_run e = [])
       then nl +:+ "No file changes, commands, network results or passed checks recorded." else "")
  +:+ concat_s (map (λ t, nl +:+ "File " +:+ tx_path t +:+ ": " +:+ tx_status t) (ev_files e))
  +:+ concat_s (map (λ t, nl +:+ "Command " +:+ tx_command t +:+ ": " +:+ tx_status t
        +:+ match tx_exit t with Some n => " (exit " +:+ pretty n +:+ ")" | None => "" end) (ev_commands e))
  +:+ concat_s (map (λ t, nl +:+ "HTTP " +:+ tx_url t +:+ ": " +:+ tx_status t +:+ " (" +:+ pretty (tx_http_status t) +:+ ")") (ev_http e))
  +:+ concat_s (map (λ c, nl +:+ "Check passed: " +:+ c) (ev_passed e))
  +:+ concat_s (map (λ c, nl +:+ "Check not run: " +:+ c) (ev_not_run e))
  +:+ (if bool_decide (ev_uncertainty e = []) then ""
       else nl +:+ nl +:+ "Unresolved evidence and uncertainty" +:+ nl +:+ Join (ev_uncertainty e) nl).

(** [Check]. *)
Definition report_check (report : CollaborationReport) : res unit :=
  _ ← check (bool_decide (run_status (cx_parent report) = Completed))
        (EFmt "harness: collaboration is %s, not completed" [status_text (run_status (cx_parent report))]);
  _ ← check (bool_decide (cx_gaps report = [])) ErrMissingEvidence;
  _ ← check (bool_decide (length (cx_conflicts report) = 0%nat) || negb (bool_decide (cx_decision report = ""))) ErrMergeDecision;
  check (forallb (λ c, bool_decide (run_status (rt_run c) = Completed) || rt_retired c) (cx_children report))
    (EText "harness: incomplete child").
End report.
