(* ===== verification/Schedule.v ===== *)
(** * The scheduler of a collaboration

    Model of src/internal/harness/collaboration.go: the controls of a parent and
    its children, the leases of the active children, the delivery of results
    before a child starts, the choice of the next batch, and the loop of Continue
    with its end. The children themselves run in the agent loop: what a child's
    call of [Service.Continue] does to the world is a parameter, and so is the
    interleaving of the children of a batch. *)

From S2P Require Import Prelude Text Utf8 Data Sql Store Budget Memory Workspace Profile Plan Conflicts Evidence Results Report.

(** ** Setters *)
Definition set_control (control : string) (r : collaborationRecord) : collaborationRecord :=
  mkRecord (cr_parent r) (cr_plan r) control (cr_usage r) (cr_children r) (cr_active r)
    (cr_reservations r) (cr_accepted_digest r) (cr_decision r) (cr_settings r) (cr_planning r) (cr_single r) (cr_revision r)
    (cr_replan_attempt r) (cr_replanned r) (cr_synthesis_attempt r) (cr_synthesis_digest r) (cr_initial_plan r).
Definition set_decision (digest decision : string) (r : collaborationRecord) : collaborationRecord :=
  mkRecord (cr_parent r) (cr_plan r) (cr_control r) (cr_usage r) (cr_children r) (cr_active r)
    (cr_reservations r) digest decision (cr_settings r) (cr_planning r) (cr_single r) (cr_revision r)
    (cr_replan_attempt r) (cr_replanned r) (cr_synthesis_attempt r) (cr_synthesis_digest r) (cr_initial_plan r).
(** [record.Active = l; record.Usage.ActiveChildren = len(record.Active)]. *)
Definition set_active (l : list string) (r : collaborationRecord) : collaborationRecord :=
  let u := cr_usage r in
  mkRecord (cr_parent r) (cr_plan r) (cr_control r)
    (mkUsage (us_children u) (us_model_calls u) (us_tool_calls u) (us_output_bytes u) (zlen l) (us_replans u)) (cr_children r) l
    (cr_reservations r) (cr_accepted_digest r) (cr_decision r) (cr_settings r) (cr_planning r) (cr_single r) (cr_revision r)
    (cr_replan_attempt r) (cr_replanned r) (cr_synthesis_attempt r) (cr_synthesis_digest r) (cr_initial_plan r).
Definition child_set_control (control : string) (c : childRecord) : childRecord :=
  mkChild (ch_spec c) (ch_run c) control (ch_output_bytes c) (ch_retired c) (ch_delivered c) (ch_results_ready c).
Definition child_deliver (l : list DeliveredResult) (c : childRecord) : childRecord :=
  mkChild (ch_spec c) (ch_run c) (ch_control c) (ch_output_bytes c) (ch_retired c) l true.
(** The first child of that name, in place. *)
Fixpoint update_child (name : string) (f : childRecord → childRecord) (l : list childRecord) : list childRecord :=
  match l with
  | [] => []
  | c :: l => if is_child name c then f c :: l else c :: update_child name f l
  end.
(** [prompt] of a run. *)
Definition set_prompt (prompt now : string) (r : Run) : Run :=
  mkRun (run_id r) (run_conversation r) (run_request_key r) prompt (run_config r) (run_status r) (run_stop_reason r) (run_steps r)
    (run_elapsed_ms r) (run_output r) (run_created_at r) now (run_active_since r) (run_seq r) (run_last_attempt_seq r).
Definition user_message_of (run : string) (m : Message) : bool :=
  bool_decide (msg_run m = Some run) && bool_decide (mm_role (msg_body m) = "user").
Definition role_message (role content : string) : ModelMessage := mkModelMessage false [] None false role content "" "" [].

Section schedule.
Context {H : Host} {RH : ResultHost} {PR : ReportHost} {PH : PlanHost}.

(** [change]: one transaction that loads, edits and saves the record. *)
Definition change (parent : string) (edit : collaborationRecord → M collaborationRecord) : M unit :=
  transaction (r ← loadCollaboration parent; r ← edit r; saveCollaboration r).

(** ** Controls *)

(** The loop of [Control] over the children of a name: the children, whether one
    was found, and whether the edit ends there. *)
Fixpoint control_children (name action next : string) (l : list childRecord) : M (list childRecord * bool * bool) :=
  match l with
  | [] => mret ([], false, false)
  | c :: l =>
      if negb (is_child name c) then
        x ← control_children name action next l;
        mret (c :: x.1.1, x.1.2, x.2)
      else
        _ ← guard_ (negb (ch_retired c)) ErrControlledRun;
        run ← query_row (find_run (ch_run c));
        if bool_decide (run_status run = Completed) || bool_decide (ch_control c = "cancelled") then
          if bool_decide (ch_control c = "cancelled") && bool_decide (action = "cancel") then mret (c :: l, true, true)
          else fail (EText "harness: completed or cancelled child is immutable")
        else
          _ ← guard_ (negb (bool_decide (action = "resume") && bool_decide (run_status run = Unknown))) ErrUnknownResult;
          x ← control_children name action next l;
          mret (child_set_control next c :: x.1.1, true, x.2)
  end.
Definition next_control (action : string) : string :=
  if bool_decide (action = "pause") then "paused" else if bool_decide (action = "resume") then "running" else "cancelled".
Definition control_edit (parent child action : string) (r : collaborationRecord) : M collaborationRecord :=
  run ← query_row (find_run parent);
  if bool_decide (cr_control r = "cancelled") && bool_decide (action = "cancel") then mret r
  else
    _ ← guard_ (negb (bool_decide (run_status run = Completed) || bool_decide (cr_control r = "cancelled")))
          (EText "harness: completed or cancelled collaboration is immutable");
    if bool_decide (child = "") then
      _ ← guard_ (negb (bool_decide (action = "resume") && bool_decide (run_status run = Unknown))) ErrUnknownResult;
      mret (set_decision "" "" (set_control (next_control action) r))
    else
      x ← control_children child action (next_control action) (cr_children r);
      let '(l, found, stop) := x : list childRecord * bool * bool in
      _ ← guard_ found (EText "harness: child not found");
      let r := set_children l r in
      mret (if stop then r else set_decision "" "" r).

(** [drainCancelled]. *)
Fixpoint drain_children (control : string) (l : list childRecord) : M unit :=
  match l with
  | [] => mret tt
  | c :: l =>
      if negb (bool_decide (ch_control c = "cancelled")) && negb (bool_decide (control = "cancelled")) then drain_children control l
      else
        run ← query_row (find_run (ch_run c));
        _ ← (if bool_decide (run_status run ∈ [Completed; Failed]) then mret tt else abandonRun (ch_run c));
        drain_children control l
  end.
Definition drainCancelled (parent : string) : M unit :=
  r ← loadCollaboration parent;
  _ ← drain_children (cr_control r) (cr_children r);
  if bool_decide (cr_control r = "cancelled") then abandonRun parent else mret tt.
(** [Control]; [free] is whether the execution gate admits the parent, and the
    contexts of running children are not part of the model. *)
Definition Control (free : bool) (parent child action : string) : M unit :=
  _ ← guard_ (bool_decide (action ∈ ["pause"; "resume"; "cancel"])) (EText "harness: control must be pause, resume or cancel");
  _ ← change parent (control_edit parent child action);
  if bool_decide (action = "cancel") && free then drainCancelled parent else mret tt.

(** ** Leases *)

(** [activate]; [revision] is [None] when the caller does not give one. *)
Definition activate_edit (names : list string) (revision : option Z) (r : collaborationRecord) : res collaborationRecord :=
  let b := pl_budget (cr_plan r) in
  _ ← check (match revision with Some n => bool_decide (n = cr_revision r) | None => true end) ErrPlanRevision;
  _ ← check (bool_decide (cr_control r = "running")) ErrChildPaused;
  _ ← check (zlen (cr_active r) + zlen names <=? pb_concurrent b)%Z ErrParentBudget;
  _ ← check ((us_model_calls (cr_usage r) <? pb_model_calls b)%Z && (us_output_bytes (cr_usage r) <? pb_output_bytes b)%Z) ErrParentBudget;
  _ ← check (forallb (λ name, let c := recordChild r name in
               negb (bool_decide (ch_run c = "")) && bool_decide (ch_control c = "running") && negb (ch_retired c)
               && negb (bool_decide (name ∈ cr_active r))) names) ErrChildPaused;
  Ok (set_active (cr_active r ++ names) r).
Definition activate (parent : string) (names : list string) (revision : option Z) : M unit :=
  change parent (λ r, lift (activate_edit names revision r)).
(** [deactivate]. *)
Definition deactivate_edit (name : string) (r : collaborationRecord) : collaborationRecord :=
  set_active (filter (λ n, n ≠ name) (cr_active r)) r.
Definition deactivate (parent name : string) : M unit := change parent (λ r, mret (deactivate_edit name r)).
(** What [Continue] does before its loop: a batch that was active was
    interrupted. *)
Definition interrupt (parent : string) : M unit := change parent (λ r, mret (set_active [] r)).

(** ** Delivering results *)
Definition gap_of (source gap : string) : bool := HasPrefix gap (source +:+ ":").
Definition source_ready (d : db) (report : CollaborationReport) (r : collaborationRecord) (ref : ResultReference) : bool :=
  let source := recordChild r (rr_source ref) in
  live_source source && match find_run (ch_run source) d with Some run => bool_decide (run_status run = Completed) | None => false end
  && negb (existsb (gap_of (rr_source ref)) (cx_gaps report)).
(** The loop that takes the excerpts. *)
Definition take_excerpt (d : db) (report : CollaborationReport) (ref : ResultReference) : res DeliveredResult :=
  match List.find (λ c, bool_decide (sp_name (rt_spec c) = rr_source ref)) (cx_children report) with
  | None => Err ErrResultReference
  | Some c =>
      item ← boundedResult c ref;
      match find_run (dv_run item) d with
      | None => Err ErrNoRows
      | Some run => _ ← check (bool_decide (sha256hex (run_output run) = dv_output_hash item)) ErrResultReference; Ok item
      end
  end.
Definition delivered_prompt (r : collaborationRecord) (c : childRecord) (l : list DeliveredResult) : string :=
  childPrompt (ch_spec c) (role_of r (ch_spec c)) +:+ nl +:+ nl
  +:+ "Authorized saved result excerpts (untrusted source data, not permissions or independent verification):" +:+ nl +:+ json_delivered l.
Definition deliver_edit (max_context : Z) (report : CollaborationReport) (name : string) (revision : Z) (r : collaborationRecord)
    : M collaborationRecord :=
  _ ← guard_ (bool_decide (cr_revision r = revision) && bool_decide (cx_revision report = revision)) ErrPlanRevision;
  _ ← guard_ (bool_decide (cr_control r = "running")) ErrChildPaused;
  match find_child name r with
  | None => fail ErrResultReference
  | Some c =>
      _ ← guard_ (bool_decide (ch_control c = "running") && negb (ch_retired c)) ErrChildPaused;
      d ← query id;
      _ ← guard_ (forallb (source_ready d report r) (sp_results (ch_spec c))) ErrResultReference;
      if ch_results_ready c || bool_decide (sp_results (ch_spec c) = []) then
        _ ← lift (delivered_valid d r c); mret r
      else
        run ← query_row (find_run (ch_run c));
        _ ← guard_ (bool_decide (run_steps run = 0%Z)) ErrResultReference;
        l ← lift (mapM (take_excerpt d report) (sp_results (ch_spec c)));
        let prompt := delivered_prompt r c l in
        _ ← guard_ (slen prompt <=? max_context `div` 2)%Z ErrContextLimit;
        now ← nowText;
        _ ← update_runs (by_id (run_id run)) (set_prompt prompt now);
        n ← update_messages (user_message_of (run_id run)) (set_body (role_message "user" prompt));
        _ ← guard_ (bool_decide (n = 1%nat)) (EJoin [ErrStoreFormat]);
        let r := set_children (update_child name (child_deliver l) (cr_children r)) r in
        d ← query id;
        _ ← lift (delivered_valid d r (child_deliver l c));
        mret r
  end.
(** [deliverResults]. *)
Definition deliverResults (max_context : Z) (parent name : string) (revision : Z) : M unit :=
  report ← Inspect parent;
  change parent (deliver_edit max_context report name revision).

(** ** The choice of the next children *)

(** [statuses]: the last report of a name. *)
Definition statuses_of (report : CollaborationReport) : gmap string RunStatus :=
  foldl (λ m c, <[sp_name (rt_spec c) := run_status (rt_run c)]> m) ∅ (cx_children report).
(** A child that may start: live, running, not ended or waiting, and all it
    depends on completed. *)
Definition may_start (statuses : gmap string RunStatus) (c : childRecord) : bool :=
  let status := statuses !! sp_name (ch_spec c) in
  negb (bool_decide (status = Some Completed) || ch_retired c)
  && negb (negb (bool_decide (ch_control c = "running")) || bool_decide (status ∈ [Some Failed; Some Abandoned; Some WaitingConfirmation]))
  && forallb (λ d, bool_decide (statuses !! d = Some Completed)) (sp_depends_on (ch_spec c)).
(** The loop over the children that fills [batch]. *)
Fixpoint fill_batch (parallel : bool) (safe : childRecord → bool) (limit : Z) (ready : childRecord → bool)
    (batch l : list childRecord) : list childRecord :=
  match l with
  | [] => batch
  | c :: l =>
      if negb (ready c) then fill_batch parallel safe limit ready batch l
      else
        let full batch := if (limit <=? zlen batch)%Z then batch else fill_batch parallel safe limit ready batch l in
        match batch with
        | [] => if negb parallel || negb (safe c) then [c] else full [c]
        | _ => if safe c then full (batch ++ [c]) else batch
        end
  end.
Definition next_batch (tools : list ToolDefinition) (r : collaborationRecord) (report : CollaborationReport) : list childRecord :=
  fill_batch (pl_parallel (cr_plan r)) (λ c, parallelSafe tools (role_of r (ch_spec c))) (pb_concurrent (pl_budget (cr_plan r)))
    (may_start (statuses_of report)) [] (cr_children r).

(** ** The end *)

(** [saveDraftAnswer]. *)
Definition no_synthesis (report : CollaborationReport) : CollaborationReport :=
  mkReport (cx_parent report) (cx_evidence report) (cx_revision report) (cx_control report) (cx_children report)
    (cx_conflicts report) (cx_gaps report) (cx_digest report) (cx_decision report) (mkSynthesis "" "" "disabled" "").
Definition with_decision (decision : string) (report : CollaborationReport) : CollaborationReport :=
  mkReport (cx_parent report) (cx_evidence report) (cx_revision report) (cx_control report) (cx_children report)
    (cx_conflicts report) (cx_gaps report) (cx_digest report) decision (cx_synthesis report).
Definition set_answer (answer now : string) (r : Run) : Run :=
  mkRun (run_id r) (run_conversation r) (run_request_key r) (run_prompt r) (run_config r) (run_status r) (run_stop_reason r) (run_steps r)
    (run_elapsed_ms r) answer (run_created_at r) now (run_active_since r) (run_seq r) (run_last_attempt_seq r).
Definition draft_edit (report : CollaborationReport) (r : collaborationRecord) : M collaborationRecord :=
  _ ← guard_ (bool_decide (cr_revision r = cx_revision report)) ErrPlanRevision;
  _ ← guard_ (bool_decide (cr_control r = "running")) ErrChildPaused;
  now ← nowText;
  _ ← update_runs (λ x, by_id (cr_parent r) x && negb (bool_decide (run_status x ∈ [Completed; Unknown; Abandoned])))
        (set_answer (Answer (no_synthesis report)) now);
  mret r.
(** The transaction that completes the parent, unless a control or a revision of
    the user came first. *)
Definition complete_parent (parent : string) (report : CollaborationReport) : M unit :=
  transaction
    (r ← loadCollaboration parent;
     _ ← guard_ (bool_decide (cr_control r = "running")) ErrChildPaused;
     _ ← guard_ (bool_decide (cr_revision r = cx_revision report)) ErrPlanRevision;
     now ← nowText;
     _ ← update_runs (by_id parent) (λ x, set_answer (Answer report) now (set_status Completed "" now x));
     run ← query_row (find_run parent);
     insertMessage run (role_message "assistant" (Answer report))).

Variable synthesize : string → CollaborationReport → M (option error).

(** The reports after which a failed synthesis ends the loop without an
    answer. *)
Definition synthesis_stops (report : CollaborationReport) (e : option error) : bool :=
  bool_decide (run_status (cx_parent report) ∈ [Unknown; Limited]) || bool_decide (sy_status (cx_synthesis report) = "UNKNOWN")
  || match e with
     | Some e => errors_Is (λ e, match e with
                   | ErrChildPaused | ErrConfigChanged | ErrParentBudget | ErrChildBudget | ErrStepLimit | ErrContextLimit | ErrTimeLimit => true
                   | _ => false end) e
     | None => false
     end.
(** [finalize], by the error it returns; the report is read again when the loop
    ends. *)
Definition finished (report : CollaborationReport) : bool :=
  forallb (λ c, rt_retired c || bool_decide (run_status (rt_run c) = Completed) && bool_decide (rt_control c = "running")) (cx_children report).
Definition finalize (parent : string) (report : CollaborationReport) : M (option error) :=
  if negb (finished report) then mret None
  else
    _ ← guard_ (bool_decide (cx_gaps report = [])) ErrMissingEvidence;
    r ← loadCollaboration parent;
    if negb (bool_decide (length (cx_conflicts report) = 0%nat)) && negb (bool_decide (cr_accepted_digest r = cx_digest report)) then
      _ ← FinishRun parent WaitingConfirmation "conflicting runtime evidence; inspect and resolve exact digest";
      fail ErrMergeDecision
    else
      let report := with_decision (cr_decision r) report in
      _ ← change parent (draft_edit report);
      if pl_synthesis (cr_plan r) then
        e ← synthesize parent report;
        report ← Inspect parent;
        if synthesis_stops report e then mret e
        else _ ← complete_parent parent report; mret e
      else _ ← complete_parent parent report; mret None.

(** ** The loop *)

(** [execute r c] is childService and the child's [Continue], with its error;
    [interleave] runs the children of a batch and gives their errors, in the
    order they end; [replan] is [replan] (collaboration_replan.go), a call to the
    model and the edit it proposes. *)
Variable execute : collaborationRecord → childRecord → M (option error).
Variable interleave : list (M (option error)) → M (list error).
Variable replan : string → CollaborationReport → M (option error).

Definition join (l : list (option error)) : option error :=
  match omap id l with [] => None | es => Some (EJoin es) end.
(** A method whose error is kept. *)
Definition caught {A} (m : M A) : M (option error) := λ w,
  match m w with (Ok _, w') => (Ok None, w') | (Err e, w') => (Ok (Some e), w') end.
(** [runChild]. *)
Definition runChild (max_context : Z) (r : collaborationRecord) (c : childRecord) : M (option error) :=
  let name := sp_name (ch_spec c) in
  e ← (if bool_decide (sp_results (ch_spec c) = []) then mret None
       else caught (deliverResults max_context (cr_parent r) name (cr_revision r)));
  e ← match e with Some e => mret (Some e) | None => execute r c end;
  e' ← caught (deactivate (cr_parent r) name);
  mret (join [e; e']).

(** A method whose result or error is looked at. *)
Definition attempt {A} (m : M A) : M (res A) := λ w, let (x, w') := m w in (Ok x, w').

(** What an iteration of the loop does: it goes on, or ends, perhaps with an
    error. *)
Inductive round_result := RNext | REnd (e : option error).
Definition is_unknown_error (e : error) : bool := errors_Is (λ e, match e with ErrUnknownResult => true | _ => false end) e.
Definition ended (names : list string) (c : ChildReport) : bool :=
  bool_decide (sp_name (rt_spec c) ∈ names) && negb (bool_decide (run_status (rt_run c) = Completed)).
Definition replanned (parent : string) (report : CollaborationReport) (before : list error) : M round_result :=
  e ← replan parent report;
  mret match e with Some e => REnd (Some (match before with [] => e | _ => EJoin (before ++ [e]) end)) | None => RNext end.
Definition may_replan (r : collaborationRecord) (report : CollaborationReport) : bool :=
  shouldReplan r report && (us_replans (cr_usage r) <? pl_max_replans (cr_plan r))%Z.
(** The batch: its leases, its children, and whether all of it completed. *)
Definition run_batch (max_context : Z) (parent : string) (r : collaborationRecord) (batch : list childRecord) : M round_result :=
  let names := map (λ c, sp_name (ch_spec c)) batch in
  _ ← activate parent names (Some (cr_revision r));
  errors ← interleave (map (runChild max_context r) batch);
  match errors with
  | [] => after ← Inspect parent; mret (if existsb (ended names) (cx_children after) then REnd None else RNext)
  | _ =>
      after ← attempt (Inspect parent);
      match after with
      | Ok after => if negb (is_unknown_error (EJoin errors)) && may_replan r after then replanned parent after errors
                    else mret (REnd (Some (EJoin errors)))
      | Err _ => mret (REnd (Some (EJoin errors)))
      end
  end.
Definition round (tools : list ToolDefinition) (max_context : Z) (parent : string) : M round_result :=
  r ← loadCollaboration parent;
  current ← Inspect parent;
  if existsb (λ c, bool_decide (run_status (rt_run c) = Unknown)) (cx_children current) then mret (REnd (Some ErrUnknownResult))
  else if negb (bool_decide (cr_replan_attempt r = "")) then replanned parent current []
  else
    match next_batch tools r current with
    | [] => if may_replan r current then replanned parent current [] else e ← finalize parent current; mret (REnd e)
    | batch => run_batch max_context parent r batch
    end.
(** The loop of [Continue], by the error it ends with; [None] when the fuel runs
    out. *)
Fixpoint continue_loop (fuel : nat) (tools : list ToolDefinition) (max_context : Z) (parent : string) : M (option (option error)) :=
  match fuel with
  | O => mret None
  | S fuel =>
      x ← round tools max_context parent;
      match x with REnd e => mret (Some e) | RNext => continue_loop fuel tools max_context parent end
  end.

(** The function [Continue] defers: what was cancelled is abandoned, and the
    parent gets the status its children and the error leave it with. *)
Definition limit_error (e : error) : bool :=
  errors_Is (λ e, match e with ErrParentBudget | ErrTimeLimit | ErrStepLimit | ErrContextLimit | ErrChildBudget => true | _ => false end) e.
Definition parent_outcome (report : CollaborationReport) (control : option string) (e : option error) : RunStatus * string :=
  if bool_decide (control = Some "cancelled") then (Abandoned, "parent cancelled; child evidence and UNKNOWN retained")
  else if existsb (λ c, bool_decide (run_status (rt_run c) = Unknown)) (cx_children report) then (Unknown, "child outcome UNKNOWN; no automatic replay")
  else match e with
       | Some e => if limit_error e then (Limited, safeError e) else (Stopped, "explicit continuation required")
       | None => (Stopped, "explicit continuation required")
       end.
Definition leave (parent : string) (e : option error) : M (option error) :=
  e' ← caught (drainCancelled parent);
  current ← attempt (Inspect parent);
  match current with
  | Err e'' => mret (join [e; e'; Some e''])
  | Ok current =>
      saved ← attempt (loadCollaboration parent);
      let control := match saved with Ok r => Some (cr_control r) | Err _ => None end in
      let (status, reason) := parent_outcome current control (join [e; e']) in
      e'' ← (if bool_decide (run_status (cx_parent current) = Running) then caught (FinishRun parent status reason) else mret None);
      mret (join [e; e'; e''])
  end.

(** [checkConfig] and the comparison of the snapshot with the one the parent was
    planned with. *)
Variable config_unchanged : db → collaborationRecord → res unit.

(** [Continue], for a parent the execution gate admits, by the error it returns:
    the report beside it is [Inspect] of what it leaves. *)
Definition Continue (fuel : nat) (tools : list ToolDefinition) (max_context : Z) (parent : string) : M (option (option error)) :=
  r ← loadCollaboration parent;
  run ← query_row (find_run parent);
  if bool_decide (run_status run = Completed) then mret (Some None)
  else if bool_decide (run_status run = Unknown) then mret (Some (Some ErrUnknownResult))
  else
    status ← (if bool_decide (run_status run = Failed) && negb (bool_decide (cr_synthesis_attempt r = "")) && bool_decide (cr_control r = "running")
              then saved ← Inspect parent;
                   if bool_decide (sy_status (cx_synthesis saved) = "failed")
                   then _ ← FinishRun parent Stopped "saved synthesis failed; child outcomes retained"; mret Stopped
                   else mret Failed
              else mret (run_status run));
    if bool_decide (status ∈ [Failed; Abandoned]) then
      mret (Some (Some (EText "harness: failed or abandoned runs cannot be continued")))
    else if negb (bool_decide (cr_control r = "running")) then
      _ ← (if bool_decide (cr_control r = "cancelled") then drainCancelled parent else mret tt);
      mret (Some (Some ErrChildPaused))
    else
      d ← query id;
      _ ← lift (config_unchanged d r);
      _ ← interrupt parent;
      _ ← FinishRun parent Running "";
      x ← attempt (continue_loop fuel tools max_context parent);
      match x with
      | Ok None => mret None
      | Ok (Some e) => e ← leave parent e; mret (Some e)
      | Err e => e ← leave parent (Some e); mret (Some e)
      end.

(** [Resolve]: the user's decision about the conflicts of exactly one report. *)
Definition resolve_edit (parent digest decision : string) (r : collaborationRecord) : M collaborationRecord :=
  _ ← guard_ (bool_decide (cr_active r = []) && bool_decide (cr_control r = "running")) ErrActiveRun;
  run ← query_row (find_run parent);
  _ ← guard_ (negb (bool_decide (run_status run = Completed))) (EText "harness: merge already completed");
  mret (set_decision digest decision r).
Definition Resolve (parent digest decision : string) : M unit :=
  _ ← guard_ (negb (bool_decide (TrimSpace decision = "")) && (slen decision <=? 4096)%Z)
        (EText "harness: a bounded explicit conflict decision is required");
  report ← Inspect parent;
  _ ← guard_ (bool_decide (digest = cx_digest report) && negb (bool_decide (length (cx_conflicts report) = 0%nat))) ErrApprovalChanged;
  change parent (resolve_edit parent digest decision).
End schedule.
