(* ===== verification/ScheduleRuns.v ===== *)
(** * The scheduler makes progress

    With children that end, the loop of Continue completes every live child of a
    plan in at most one iteration for each, and hands the finished report to
    [finalize]. The environment of the loop, which runs the children, is a
    parameter: what is asked of it is that a batch it is given ends. *)

From S2P Require Import Prelude Text Utf8 Data Sql Store StoreInv StoreProps Budget BudgetProps Memory Workspace Profile Plan PlanProps Conflicts Evidence Results Report Schedule ScheduleProps.

Lemma bind_run {A B} (m : M A) (f : A → M B) w a w1 : m w = (Ok a, w1) → (m ≫= f) w = f a w1.
Proof. intros E. unfold mbind, M_bind. by rewrite E. Qed.

Lemma mapM_Forall2 {A B} (f : A → res B) l : (∀ x, x ∈ l → ∃ y, f x = Ok y) → ∃ k, mapM f l = Ok k ∧ Forall2 (λ x y, f x = Ok y) l k.
Proof.
  induction l as [|x l IH]; intros Hx; [exists []; by repeat constructor|].
  destruct (Hx x) as [y Ey]; [set_solver|]. destruct IH as (k & Ek & Hk); [set_solver|]. exists (y :: k). split; [|by constructor].
  change (mapM f (x :: l)) with (y ← f x; k ← mapM f l; mret (M := res) (y :: k)). rewrite Ey. simpl. by rewrite Ek.
Qed.

Section runs.
Context {H : Host} {RH : ResultHost} {PR : ReportHost} {PH : PlanHost}.
Variable synthesize : string → CollaborationReport → M (option error).
Variable execute : collaborationRecord → childRecord → M (option error).
Variable interleave : list (M (option error)) → M (list error).
Variable replan : string → CollaborationReport → M (option error).
Variables (tools : list ToolDefinition) (max_context : Z) (parent : string).

Definition status_in (w : world) (c : childRecord) : option RunStatus := run_status <$> find_run (ch_run c) (w_db w).

(** A collaboration in which every live child can still complete: it is running
    and so are its live children, none of which has failed, was abandoned or waits
    for a confirmation; nothing live depends on retired work, the dependencies
    have no cycle, no outcome is unknown, and neither a revision of the plan nor a
    synthesis is under way. Whether the plan may be revised later is left open. *)
Record workable (w : world) (r : collaborationRecord) : Prop := {
  wk_record : loadCollaboration parent w = (Ok r, w);
  wk_control : cr_control r = "running";
  wk_replan : cr_replan_attempt r = "";
  wk_synthesis : pl_synthesis (cr_plan r) = false ∨ cr_synthesis_attempt r = "";
  wk_names : NoDup (map (λ c, sp_name (ch_spec c)) (cr_children r));
  wk_order : well_founded (before (map ch_spec (cr_children r)));
  wk_live : depends_live r;
  wk_parent : is_Some (find_run parent (w_db w));
  wk_children : ∀ c, c ∈ cr_children r → ∃ s, status_in w c = Some s ∧ s ≠ Unknown ∧
    (ch_retired c = false → ch_control c = "running" ∧ s ∉ [Failed; Abandoned; WaitingConfirmation]);
}.

Definition of_child (w : world) (c : childRecord) (x : ChildReport) : Prop :=
  rt_spec x = ch_spec c ∧ rt_control x = ch_control c ∧ rt_retired x = ch_retired c ∧ find_run (ch_run c) (w_db w) = Some (rt_run x).

Lemma workable_inspect w r : workable w r →
  ∃ report, Inspect parent w = (Ok report, w) ∧ Forall2 (of_child w) (cr_children r) (cx_children report).
Proof.
  intros Hw. pose proof (wk_record _ _ Hw) as El. apply loadCollaboration_ok in El as (_ & _ & Hp).
  destruct (mapM_Forall2 (child_report (w_db w) r) (cr_children r)) as (l & Em & Hl).
  { intros c Hc. destruct (wk_children _ _ Hw c Hc) as (s & Hs & _). unfold status_in in Hs. unfold child_report.
    destruct (find_run (ch_run c) (w_db w)) as [run|]; [by eexists|done]. }
  destruct (wk_parent _ _ Hw) as [run Hrun].
  unfold Inspect. rewrite (bind_run _ _ _ _ _ (wk_record _ _ Hw)), bind_query. unfold lift, id, report_of. rewrite Hp, Hrun, Em.
  cbn [mbind res_mbind]. 
  assert (Hsy : ∀ digest, is_Some (match inspectSynthesis (w_db w) r digest with Ok x => Some x | Err _ => None end)).
  { intros digest. unfold inspectSynthesis. destruct (negb _) eqn:En; [by eexists|]. destruct (wk_synthesis _ _ Hw) as [E|E]; [by rewrite E in En|].
    rewrite bool_decide_eq_true_2 by done. by eexists. }
  match goal with |- context[inspectSynthesis ?d ?r ?g] => destruct (Hsy g) as [y Ey]; destruct (inspectSynthesis d r g); [|done] end.
  cbn [mbind res_mbind]. eexists. split; [done|]. cbn [cx_children]. apply Forall2_fmap_r. eapply Forall2_impl; [exact Hl|]. intros c [x vs] E. unfold child_report in E.
  destruct (find_run (ch_run c) (w_db w)) as [run'|] eqn:Er; [|done]. injection E as <- _. by split_and!.
Qed.

Lemma statuses_lookup l x : NoDup (map (λ x, sp_name (rt_spec x)) l) → x ∈ l →
  foldl (λ m c, <[sp_name (rt_spec c) := run_status (rt_run c)]> m) (∅ : gmap string RunStatus) l !! sp_name (rt_spec x) = Some (run_status (rt_run x)).
Proof.
  induction l as [|y l IH] using rev_ind; [by intros _ ?%not_elem_of_nil|]. intros Hn Hx. rewrite foldl_app. simpl.
  rewrite map_app in Hn. apply NoDup_app in Hn as (Hn & Hd & _). apply elem_of_app in Hx as [Hx| ->%list_elem_of_singleton].
  - rewrite lookup_insert_ne; [by apply IH|]. intros E. apply (Hd (sp_name (rt_spec x))); [by apply (list_elem_of_fmap_2 (λ x, sp_name (rt_spec x)))|].
    simpl. rewrite E. set_solver.
  - apply lookup_insert_eq.
Qed.
Lemma of_child_names w l k : Forall2 (of_child w) l k → map (λ x, sp_name (rt_spec x)) k = map (λ c, sp_name (ch_spec c)) l.
Proof. induction 1 as [|c x l k (E & _) _ IH]; [done|]. simpl. by rewrite E, IH. Qed.
Lemma workable_status w r report c : workable w r → Forall2 (of_child w) (cr_children r) (cx_children report) → c ∈ cr_children r →
  statuses_of report !! sp_name (ch_spec c) = status_in w c.
Proof.
  intros Hw Hl Hc. apply list_elem_of_lookup in Hc as [i Hi]. destruct (Forall2_lookup_l _ _ _ _ _ Hl Hi) as (x & Hx & E & _ & _ & Er).
  unfold statuses_of, status_in. rewrite <- E, Er. apply statuses_lookup; [|by eapply list_elem_of_lookup_2].
  rewrite (of_child_names _ _ _ Hl). apply (wk_names _ _ Hw).
Qed.

(** How many children are left. *)
Definition unfinished (w : world) (r : collaborationRecord) : nat :=
  count_if (λ c, negb (ch_retired c) && negb (bool_decide (status_in w c = Some Completed))) (cr_children r).
Definition all_done (w : world) (r : collaborationRecord) : Prop :=
  ∀ c, c ∈ cr_children r → ch_retired c = false → status_in w c = Some Completed.

(** What a batch leaves as it was. *)
Definition same_children (r r' : collaborationRecord) : Prop :=
  Forall2 (λ c c', ch_spec c' = ch_spec c ∧ ch_run c' = ch_run c ∧ ch_retired c' = ch_retired c) (cr_children r) (cr_children r').

Lemma count_if_le {A B} (R : A → B → Prop) (p : A → bool) (q : B → bool) l k :
  Forall2 R l k → (∀ x y, R x y → q y = true → p x = true) → (count_if q k <= count_if p l)%nat.
Proof.
  intros Hl Hpq. induction Hl as [|x y l k Hxy _ IH]; [done|]. rewrite !count_if_cons.
  destruct (q y) eqn:Eq; [rewrite (Hpq _ _ Hxy Eq); lia|destruct (p x); lia].
Qed.
Lemma count_if_lt {A B} (R : A → B → Prop) (p : A → bool) (q : B → bool) l k x :
  Forall2 R l k → (∀ x y, R x y → q y = true → p x = true) → x ∈ l → p x = true → (∀ y, R x y → q y = false) → (count_if q k < count_if p l)%nat.
Proof.
  intros Hl Hpq Hx Hp Hq. induction Hl as [|a b l k Hab Hl IH]; [by apply not_elem_of_nil in Hx|]. rewrite !count_if_cons.
  apply elem_of_cons in Hx as [->|Hx].
  - rewrite Hp, (Hq _ Hab). pose proof (count_if_le R p q l k Hl Hpq). lia.
  - specialize (IH Hx). destruct (q b) eqn:Eq; [rewrite (Hpq _ _ Hab Eq); lia|destruct (p a); lia].
Qed.

(** ** Progress *)
Notation round' := (round synthesize execute interleave replan tools max_context parent).

(** An invariant of the collaboration that the environment keeps: a batch the
    scheduler starts ends, its children completed, without errors. *)
Variable Inv : world → collaborationRecord → Prop.
Hypothesis inv_workable : ∀ w r, Inv w r → workable w r.
Hypothesis batch_ends : ∀ w r report, Inv w r → Inspect parent w = (Ok report, w) → next_batch tools r report ≠ [] →
  ∃ w1 w2 r2, activate parent (map (λ c, sp_name (ch_spec c)) (next_batch tools r report)) (Some (cr_revision r)) w = (Ok tt, w1) ∧
    interleave (map (runChild execute max_context r) (next_batch tools r report)) w1 = (Ok [], w2) ∧
    Inv w2 r2 ∧ same_children r r2 ∧
    (∀ c, c ∈ cr_children r → status_in w c = Some Completed → status_in w2 c = Some Completed) ∧
    (∀ c, c ∈ next_batch tools r report → status_in w2 c = Some Completed).

Lemma sublist_in {A} (l k : list A) x : l `sublist_of` k → x ∈ l → x ∈ k.
Proof. intros Hs Hx. by eapply elem_of_sublist. Qed.

Lemma unfinished_lt w r w2 r2 c : same_children r r2 →
  (∀ c, c ∈ cr_children r → status_in w c = Some Completed → status_in w2 c = Some Completed) →
  c ∈ cr_children r → ch_retired c = false → status_in w c ≠ Some Completed → status_in w2 c = Some Completed →
  (unfinished w2 r2 < unfinished w r)%nat.
Proof.
  intros Hs Hkeep Hc Hl Hn Hd. unfold unfinished, same_children in *.
  apply (count_if_lt (λ c c', c ∈ cr_children r ∧ ch_run c' = ch_run c ∧ ch_retired c' = ch_retired c) _ _ _ _ c); [|..|done| |].
  - apply Forall2_same_length_lookup_2; [by eapply Forall2_length|]. intros i x y Hx Hy.
    split; [by eapply list_elem_of_lookup_2|]. by apply (Forall2_lookup_lr _ _ _ i x y Hs) in Hx as (_ & ? & ?).
  - intros x y (Hx & Er & Et). unfold status_in. rewrite Er, Et. rewrite !andb_true_iff, !negb_true_iff, !bool_decide_eq_false.
    intros [? Hy]. split; [done|]. intros Hxc. apply Hy. by apply (Hkeep x).
  - rewrite Hl, bool_decide_eq_false_2 by done. done.
  - intros y (_ & Er & Et). unfold status_in. rewrite Er, Et, Hl. rewrite bool_decide_eq_true_2; [done|exact Hd].
Qed.

Lemma same_children_trans r1 r2 r3 : same_children r1 r2 → same_children r2 r3 → same_children r1 r3.
Proof.
  unfold same_children. intros H1 H2. apply Forall2_same_length_lookup_2; [by rewrite (Forall2_length _ _ _ H1); apply (Forall2_length _ _ _ H2)|].
  intros i x z Hx Hz. destruct (Forall2_lookup_l _ _ _ _ _ H1 Hx) as (y & Hy & ? & ? & ?).
  destruct (Forall2_lookup_lr _ _ _ i y z H2 Hy Hz) as (? & ? & ?). split_and!; congruence.
Qed.

(** After the batch, its children are completed in the report. *)
Lemma batch_completed w r w2 r2 batch after : workable w r → (∀ c, c ∈ batch → c ∈ cr_children r) → same_children r r2 →
  (∀ c, c ∈ batch → status_in w2 c = Some Completed) → Forall2 (of_child w2) (cr_children r2) (cx_children after) →
  existsb (ended (map (λ c, sp_name (ch_spec c)) batch)) (cx_children after) = false.
Proof.
  intros Hw Hb Hs Hd Hl. apply not_true_iff_false. rewrite existsb_exists. intros (x & Hx%list_elem_of_In & He).
  unfold ended in He. apply andb_true_iff in He as [Hn%bool_decide_eq_true Hc]. apply negb_true_iff, bool_decide_eq_false in Hc. apply Hc. clear Hc.
  apply list_elem_of_lookup in Hx as [i Hi]. destruct (Forall2_lookup_r _ _ _ _ _ Hl Hi) as (c2 & H2 & Es & _ & _ & Er).
  destruct (Forall2_lookup_r _ _ _ _ _ Hs H2) as (c & Hc & Es2 & Er2 & _). apply list_elem_of_fmap in Hn as (b & En & Hb').
  assert (c = b) as ->.
  { apply (NoDup_map_inj (λ c, sp_name (ch_spec c)) (cr_children r)); [apply (wk_names _ _ Hw)|by eapply list_elem_of_lookup_2|by apply Hb|]. congruence. }
  specialize (Hd b Hb'). unfold status_in in Hd. rewrite <- Er2, Er in Hd. simpl in Hd. congruence.
Qed.

Lemma workable_known w r report : workable w r → Forall2 (of_child w) (cr_children r) (cx_children report) →
  existsb (λ c, bool_decide (run_status (rt_run c) = Unknown)) (cx_children report) = false.
Proof.
  intros Hw Hl. apply not_true_iff_false. rewrite existsb_exists. intros (x & Hx%list_elem_of_In & Hu%bool_decide_eq_true).
  apply list_elem_of_lookup in Hx as [i Hi]. destruct (Forall2_lookup_r _ _ _ _ _ Hl Hi) as (c & Hc & _ & _ & _ & Er).
  apply list_elem_of_lookup_2 in Hc. destruct (wk_children _ _ Hw c Hc) as (s & Hs & Hn & _). unfold status_in in Hs. rewrite Er in Hs. simpl in Hs. congruence.
Qed.

(** With nothing left to start, everything is done. *)
Lemma nothing_left w r report : workable w r → Forall2 (of_child w) (cr_children r) (cx_children report) →
  next_batch tools r report = [] → all_done w r.
Proof.
  intros Hw Hl Hb c Hc Hr. rewrite <- (workable_status w r report c Hw Hl Hc).
  apply (no_deadlock tools r report); [apply Hw..| |done|done|done]. intros x Hx Hrx. destruct (wk_children _ _ Hw x Hx) as (s & Hs & _ & Hok).
  destruct (Hok Hrx) as [? Hst]. split; [done|]. rewrite (workable_status w r report x Hw Hl Hx), Hs. set_solver.
Qed.
Lemma done_nothing_left w r report : workable w r → Forall2 (of_child w) (cr_children r) (cx_children report) →
  all_done w r → next_batch tools r report = [].
Proof.
  intros Hw Hl Ha. unfold next_batch. destruct (fill_batch_spec (pl_parallel (cr_plan r)) (λ c, parallelSafe tools (role_of r (ch_spec c)))
    (may_start (statuses_of report)) (pb_concurrent (pl_budget (cr_plan r))) [] (cr_children r)) as (k & -> & Hs & Hr & _). simpl.
  destruct k as [|c k]; [done|]. exfalso. pose proof (proj1 (may_start_iff _ _) (Hr c ltac:(set_solver))) as (Hn & Ht & _). apply Hn.
  assert (Hc : c ∈ cr_children r) by (eapply sublist_in; [exact Hs|set_solver]). rewrite (workable_status w r report c Hw Hl Hc). by apply Ha.
Qed.

Lemma round_running w r : Inv w r → (0 < unfinished w r)%nat →
  ∃ w2 r2, round' w = (Ok RNext, w2) ∧ Inv w2 r2 ∧ same_children r r2 ∧ (unfinished w2 r2 < unfinished w r)%nat.
Proof.
  intros Hi Hu. pose proof (inv_workable _ _ Hi) as Hw. destruct (workable_inspect w r Hw) as (report & Ei & Hl).
  destruct (next_batch tools r report) as [|c batch] eqn:Eb.
  { pose proof (nothing_left w r report Hw Hl Eb) as Ha. exfalso. assert (unfinished w r = 0%nat); [|lia]. apply count_if_zero.
    intros x Hx. destruct (ch_retired x) eqn:Et; [done|]. simpl. by rewrite bool_decide_eq_true_2 by by apply Ha. }
  destruct (batch_ends w r report Hi Ei) as (w1 & w2 & r2 & Ea & Er & Hi2 & Hs & Hkeep & Hd); [by rewrite Eb|]. rewrite Eb in Ea, Er, Hd.
  assert (Hbc : ∀ x, x ∈ c :: batch → x ∈ cr_children r ∧ may_start (statuses_of report) x = true).
  { intros x Hx. destruct (fill_batch_spec (pl_parallel (cr_plan r)) (λ c, parallelSafe tools (role_of r (ch_spec c)))
      (may_start (statuses_of report)) (pb_concurrent (pl_budget (cr_plan r))) [] (cr_children r)) as (k & Ek & Hsub & Hr & _).
    unfold next_batch in Eb. rewrite Ek in Eb. simpl in Eb. subst k. split; [by eapply sublist_in|by apply Hr]. }
  pose proof (inv_workable _ _ Hi2) as Hw2. destruct (workable_inspect w2 r2 Hw2) as (after & Ei2 & Hl2).
  exists w2, r2. split; [|split; [done|split; [done|]]].
  - unfold round. rewrite (bind_run _ _ _ _ _ (wk_record _ _ Hw)), (bind_run _ _ _ _ _ Ei), (workable_known w r report Hw Hl).
    rewrite bool_decide_eq_true_2 by apply Hw. cbn [negb]. rewrite Eb. unfold run_batch. rewrite (bind_run _ _ _ _ _ Ea), (bind_run _ _ _ _ _ Er).
    rewrite (bind_run _ _ _ _ _ Ei2). rewrite (batch_completed w r w2 r2 (c :: batch) after Hw); [done|intros x Hx; by apply Hbc|done..].
  - destruct (Hbc c) as [Hc Hm]; [set_solver|]. pose proof (proj1 (may_start_iff _ _) Hm) as (Hn & Ht & _).
    apply (unfinished_lt w r w2 r2 c Hs Hkeep Hc Ht); [by rewrite <- (workable_status w r report c Hw Hl Hc)|]. apply Hd. set_solver.
Qed.

Lemma round_done w r : Inv w r → unfinished w r = 0%nat →
  ∃ report, all_done w r ∧ Inspect parent w = (Ok report, w) ∧ finished report = true ∧
    round' w = (if may_replan r report then replanned replan parent report [] else e ← finalize synthesize parent report; mret (REnd e)) w.
Proof.
  intros Hi Hu. pose proof (inv_workable _ _ Hi) as Hw. destruct (workable_inspect w r Hw) as (report & Ei & Hl). exists report.
  assert (Ha : all_done w r).
  { intros c Hc Hr. pose proof (proj1 (count_if_zero _ _) Hu c Hc) as E. cbv beta in E. rewrite Hr in E. simpl in E. by apply negb_false_iff, bool_decide_eq_true in E. }
  split_and!; try done.
  - unfold finished. apply forallb_forall. intros x Hx%list_elem_of_In. apply list_elem_of_lookup in Hx as [i Hx].
    destruct (Forall2_lookup_r _ _ _ _ _ Hl Hx) as (c & Hc & _ & Ec & Et & Er). apply list_elem_of_lookup_2 in Hc.
    destruct (ch_retired c) eqn:Ere; [by rewrite Et|]. destruct (wk_children _ _ Hw c Hc) as (s & _ & _ & Hok).
    specialize (Ha c Hc Ere). unfold status_in in Ha. rewrite Er in Ha. injection Ha as ->. rewrite Ec, (proj1 (Hok Ere)). by rewrite !bool_decide_eq_true_2, orb_true_r.
  - unfold round. rewrite (bind_run _ _ _ _ _ (wk_record _ _ Hw)), (bind_run _ _ _ _ _ Ei), (workable_known w r report Hw Hl).
    rewrite bool_decide_eq_true_2 by apply Hw. cbn [negb]. by rewrite (done_nothing_left w r report Hw Hl Ha).
Qed.

(** C30: Progress of the loop of Continue. Suppose an invariant of the
    collaboration gives that it is workable (it and its live children are running,
    none has failed, was abandoned or waits for a confirmation, no outcome is
    unknown, the live children depend on live ones only and without a cycle, and
    neither a revision of the plan nor a synthesis is under way), and that from
    such a state a batch the scheduler chooses can always be activated, and ends
    with its children completed, without errors and with the invariant restored.
    Then, with more iterations than children are left, the loop completes every
    live child of the plan, and comes to a finished report with no more iterations
    spent than there were children left and one. What it does from there is to
    have the plan revised, when a completed child asks for it and a revision is
    left, and to go on with the iterations that remain; otherwise what it does and
    returns is finalize of the finished report. *)
Theorem schedule_completes fuel w r : Inv w r → (unfinished w r < fuel)%nat →
  ∃ k w' r' report, (k < fuel <= S k + unfinished w r)%nat ∧
    Inv w' r' ∧ same_children r r' ∧ all_done w' r' ∧ Inspect parent w' = (Ok report, w') ∧ finished report = true ∧
    continue_loop synthesize execute interleave replan fuel tools max_context parent w =
      (if may_replan r' report then
         x ← replanned replan parent report [];
         match x with REnd e => mret (Some e) | RNext => continue_loop synthesize execute interleave replan k tools max_context parent end
       else e ← finalize synthesize parent report; mret (Some e)) w'.
Proof.
  revert w r. induction fuel as [|fuel IH]; intros w r Hi Hf; [lia|]. destruct (decide (unfinished w r = 0%nat)) as [Hz|Hz].
  - destruct (round_done w r Hi Hz) as (report & Ha & Ei & Hfin & Er). exists fuel, w, r, report. split; [lia|]. split_and!; try done.
    { apply Forall2_same_length_lookup_2; [done|]. intros i x y Hx Hy. assert (x = y) by congruence. by subst. }
    simpl. unfold mbind, M_bind in *. rewrite Er. destruct (may_replan r report); [done|]. destruct (finalize synthesize parent report w) as [[e|e] w2]; done.
  - destruct (round_running w r Hi ltac:(lia)) as (w2 & r2 & Er & Hi2 & Hs & Hlt). destruct (IH w2 r2 Hi2 ltac:(lia)) as (k & w' & r' & report & H0 & H1 & H2 & H3 & H4 & H5 & H6).
    exists k, w', r', report. split; [lia|]. split_and!; try done; [by eapply same_children_trans|]. simpl. by rewrite (bind_run _ _ _ _ _ Er).
Qed.
End runs.

(** ** Witnesses *)
Module ScheduleDemo.
#[export] Instance results : ResultHost := {|
  decode_command _ := None; decode_file _ := None; decode_packet _ := None; decode_contract _ := None; decode_follow_up _ := None;
  json_texts _ := "[]"; json_evidence _ _ := "{}"; json_delivered l := String.concat "," (map dv_content l);
|}.
#[export] Instance reports : ReportHost := {| json_report _ _ _ := "digest" |}.
#[export] Existing Instances Demo.host PlanDemo.host.

(** The children end in turn, each completing its run. *)
Fixpoint in_turn (l : list (M (option error))) : M (list error) :=
  match l with
  | [] => mret []
  | m :: l => e ← m; es ← in_turn l; mret (option_list e ++ es)
  end.
Definition complete (r : collaborationRecord) (c : childRecord) : M (option error) :=
  _ ← FinishRun (ch_run c) Completed ""; mret None.
Definition none (p : string) (report : CollaborationReport) : M (option error) := mret None.

Definition a_run (id : string) (status : RunStatus) : Run := mkRun id id id "work" Demo.config status "" 0 0 "" "" "" "" 0 0.
Definition reader : RoleProfile := mkRoleProfile "Look around" "" ["file_read"] ["docs"] "text" "analysis" [] (mkChildBudget 5 60 2048 256) PlanDemo.no_memory.
Definition plan : CollaborationPlan :=
  mkPlan "work" (mkParentBudget 4 10 10 4096 2 60) {["reader" := reader]}
    [PlanDemo.child "b" ["a"]; PlanDemo.child "a" []; PlanDemo.child "d" []] true 1 false.
Definition record : collaborationRecord :=
  mkRecord "p" plan "running" (mkUsage 3 0 0 0 0 0)
    (map (λ s, mkChild s (sp_name s) "running" 0 false [] false) (pl_children plan)) [] ∅ "" "" None false false 1 "" [] "" "" "".
Definition start : world :=
  mkWorld (mkDb [mkSpace "local" "Local" "local" "" "" "p" "p" false "" ""] (map (λ id, mkConversation id "Chat" "/w" "local" "" "" 1 0) ["p"; "b"; "a"; "d"])
    [a_run "p" Running; a_run "b" Stopped; a_run "a" Stopped; a_run "d" Stopped] [] [] {[collaborationKey "p" := MCollaboration record]} (mkMemory [] [] ∅)) 0 0.
Definition next (w : world) : world := (round none complete in_turn none PlanDemo.tools 65536 "p" w).2.
Definition record_in (w : world) : collaborationRecord :=
  match meta (w_db w) !! collaborationKey "p" with Some (MCollaboration r) => r | _ => record end.
(** The states of the run: two batches are started, [a] with [d] and then [b]. *)
Definition Inv (w : world) (r : collaborationRecord) : Prop := w ∈ [start; next start; next (next start)] ∧ r = record_in w.

Lemma order : well_founded (before (pl_children plan)).
Proof.
  assert (Hn : NoDup (map sp_name (pl_children plan))) by (apply (bool_decide_unpack (NoDup _)); vm_compute; exact I).
  assert (Hc : closed (graph_of (pl_children plan))).
  { intros x y (c & Hc & _ & Hd)%depends_before; [|done]. apply graph_of_dom.
    repeat (apply elem_of_cons in Hc as [->|Hc]; [simpl in *; set_solver|]). by apply not_elem_of_nil in Hc. }
  assert (Ha : acyclic (graph_of (pl_children plan))).
  { destruct (check_order_acyclic (graph_of (pl_children plan)) ["a"; "b"; "d"] Hc) as (r & Er & _ & Ha).
    - intros y. rewrite graph_of_dom. simpl. set_solver.
    - vm_compute in Er. injection Er as <-. by apply Ha. }
  intros x. induction (acyclic_wf _ Hc Ha x) as [x _ IH]. constructor. intros y Hy. apply IH. by apply depends_before.
Qed.

Lemma depends_known s d : s ∈ pl_children plan → d ∈ sp_depends_on s → d ∈ ["b"; "a"; "d"].
Proof.
  intros Hs Hd. repeat (apply elem_of_cons in Hs as [Hs|Hs]; [rewrite Hs in Hd; simpl in Hd; clear Hs; set_solver|]). by apply not_elem_of_nil in Hs.
Qed.
Lemma states (P : world → Prop) w : P start → P (next start) → P (next (next start)) → w ∈ [start; next start; next (next start)] → P w.
Proof. intros H1 H2 H3 Hw. repeat (apply elem_of_cons in Hw as [->|Hw]; [assumption|]). by apply not_elem_of_nil in Hw. Qed.
Lemma records w : w ∈ [start; next start; next (next start)] →
  map ch_spec (cr_children (record_in w)) = pl_children plan ∧ cr_plan (record_in w) = plan ∧
  loadCollaboration "p" w = (Ok (record_in w), w) ∧ live_names (record_in w) = ["b"; "a"; "d"] ∧
  cr_control (record_in w) = "running" ∧ cr_replan_attempt (record_in w) = "" ∧ cr_active (record_in w) = [] ∧
  cr_usage (record_in w) = cr_usage record ∧ is_Some (find_run "p" (w_db w)) ∧
  map (λ c, (ch_run c, ch_control c)) (cr_children (record_in w)) = [("b", "running"); ("a", "running"); ("d", "running")] ∧
  forallb (λ id, bool_decide (run_status <$> find_run id (w_db w) ∈ [Some Stopped; Some Completed])) ["b"; "a"; "d"] = true.
Proof.
  intros Hw. pattern w. apply states; [..|exact Hw]; vm_compute; split_and!; try reflexivity; eexists; reflexivity.
Qed.

Lemma demo_workable w r : Inv w r → workable "p" w r.
Proof.
  intros [Hw ->]. destruct (records w Hw) as (Es & Ep & El & En & Ec & Er & Ea & Eu & Ef & Eruns & Est).
  split; rewrite ?Ep, ?Eu; [exact El|exact Ec|exact Er|left; reflexivity| | | |exact Ef|].
  - rewrite <- (map_map ch_spec sp_name), Es. apply (bool_decide_unpack (NoDup _)). vm_compute. exact I.
  - rewrite Es. apply order.
  - intros c d Hc Hr Hd. assert (Hs : ch_spec c ∈ pl_children plan) by (rewrite <- Es; by apply list_elem_of_fmap_2).
    rewrite En. exact (depends_known _ _ Hs Hd).
  - intros c Hc. assert (Hx : (ch_run c, ch_control c) ∈ [("b", "running"); ("a", "running"); ("d", "running")])
      by (rewrite <- Eruns; by apply (list_elem_of_fmap_2 (λ c, (ch_run c, ch_control c)))).
    assert (Hrun : ch_run c ∈ ["b"; "a"; "d"] ∧ ch_control c = "running").
    { clear -Hx. repeat (apply elem_of_cons in Hx as [Hx|Hx]; [injection Hx as -> ->; split; [set_solver|reflexivity]|]). by apply not_elem_of_nil in Hx. }
    destruct Hrun as [Hrun Hctl]. rewrite forallb_forall in Est.
    specialize (Est _ (proj1 (list_elem_of_In _ _) Hrun)). apply bool_decide_eq_true in Est.
    apply elem_of_cons in Est as [E|E%list_elem_of_singleton]; eexists; (split; [exact E|split; [discriminate|intros _; split; [exact Hctl|clear; set_solver]]]).
Qed.

(** The claims about a batch, as tests. *)
Definition batch_ok (w w2 : world) (batch : list childRecord) : bool :=
  bool_decide (map (λ c, (ch_spec c, ch_run c, ch_retired c)) (cr_children (record_in w2)) =
               map (λ c, (ch_spec c, ch_run c, ch_retired c)) (cr_children (record_in w)))
  && forallb (λ c, negb (bool_decide (status_in w c = Some Completed)) || bool_decide (status_in w2 c = Some Completed)) (cr_children (record_in w))
  && forallb (λ c, bool_decide (status_in w2 c = Some Completed)) batch.
Lemma batch_ok_spec w w2 batch : batch_ok w w2 batch = true →
  same_children (record_in w) (record_in w2) ∧
  (∀ c, c ∈ cr_children (record_in w) → status_in w c = Some Completed → status_in w2 c = Some Completed) ∧
  (∀ c, c ∈ batch → status_in w2 c = Some Completed).
Proof.
  unfold batch_ok. intros [[He%bool_decide_eq_true Hk]%andb_true_iff Hb]%andb_true_iff. rewrite forallb_forall in Hk, Hb. split_and!.
  - unfold same_children. revert He. generalize (cr_children (record_in w)) as l, (cr_children (record_in w2)) as k. clear.
    intros l. induction l as [|c l IH]; intros [|c2 k]; try discriminate; constructor; [|apply IH]; simpl in He; injection He; auto.
  - intros c Hc%list_elem_of_In E. specialize (Hk c Hc). rewrite bool_decide_eq_true_2 in Hk by exact E. simpl in Hk. by apply bool_decide_eq_true in Hk.
  - intros c Hc%list_elem_of_In. eapply bool_decide_eq_true_1, Hb, Hc.
Qed.

(** A batch in one of the states is started, ends, and leads to the next. *)
Definition batch_of (w : world) : list childRecord :=
  match Inspect "p" w with (Ok report, _) => next_batch PlanDemo.tools (record_in w) report | _ => [] end.
Definition leased (w : world) : world := (activate "p" (map (λ c, sp_name (ch_spec c)) (batch_of w)) (Some (cr_revision (record_in w))) w).2.
Lemma demo_batch w : w ∈ [start; next start] →
  activate "p" (map (λ c, sp_name (ch_spec c)) (batch_of w)) (Some (cr_revision (record_in w))) w = (Ok tt, leased w) ∧
  in_turn (map (runChild complete 65536 (record_in w)) (batch_of w)) (leased w) = (Ok [], next w) ∧ batch_ok w (next w) (batch_of w) = true.
Proof.
  intros Hw. apply elem_of_cons in Hw as [->|Hw]; [vm_compute; split_and!; reflexivity|].
  apply list_elem_of_singleton in Hw as ->. vm_compute; split_and!; reflexivity.
Qed.
Lemma demo_end : batch_of (next (next start)) = [].
Proof. vm_compute. reflexivity. Qed.
Lemma demo_batch_ends w r report : Inv w r → Inspect "p" w = (Ok report, w) → next_batch PlanDemo.tools r report ≠ [] →
  ∃ w1 w2 r2, activate "p" (map (λ c, sp_name (ch_spec c)) (next_batch PlanDemo.tools r report)) (Some (cr_revision r)) w = (Ok tt, w1) ∧
    in_turn (map (runChild complete 65536 r) (next_batch PlanDemo.tools r report)) w1 = (Ok [], w2) ∧
    Inv w2 r2 ∧ same_children r r2 ∧
    (∀ c, c ∈ cr_children r → status_in w c = Some Completed → status_in w2 c = Some Completed) ∧
    (∀ c, c ∈ next_batch PlanDemo.tools r report → status_in w2 c = Some Completed).
Proof.
  intros [Hw ->] Hi. assert (Eb : next_batch PlanDemo.tools (record_in w) report = batch_of w) by (unfold batch_of; by rewrite Hi).
  rewrite Eb. intros Hb. assert (Hw' : w ∈ [start; next start]).
  { apply elem_of_cons in Hw as [->|Hw]; [by left|]. apply elem_of_cons in Hw as [->|Hw]; [by right; left|].
    apply list_elem_of_singleton in Hw as ->. by destruct (Hb demo_end). }
  destruct (demo_batch w Hw') as (E1 & E2 & Hok). apply batch_ok_spec in Hok. exists (leased w), (next w), (record_in (next w)).
  split; [exact E1|split; [exact E2|split; [split; [|reflexivity]|exact Hok]]].
  apply elem_of_cons in Hw' as [->|Hw']; [by right; left|]. apply list_elem_of_singleton in Hw' as ->. by right; right; left.
Qed.
End ScheduleDemo.
Import ScheduleDemo.

Lemma schedule_completes_witness :
  ∃ w' r', all_done w' r' ∧ same_children record r' ∧
    (continue_loop none complete in_turn none 4 PlanDemo.tools 65536 "p" start).1 = Ok (Some None).
Proof.
  assert (Hi : Inv start record) by (split; [left|vm_compute; reflexivity]).
  destruct (schedule_completes none complete in_turn none PlanDemo.tools 65536 "p" Inv demo_workable demo_batch_ends 4 start record Hi)
    as (k & w' & r' & report & _ & _ & Hs & Ha & _); [vm_compute; repeat constructor|].
  exists w', r'. split; [exact Ha|split; [exact Hs|vm_compute; reflexivity]].
Defined.

(** The report the first batch is chosen from. *)
Definition start_report : CollaborationReport :=
  match Inspect "p" start with
  | (Ok report, _) => report
  | _ => mkReport (a_run "p" Running) no_evidence 0 "" [] [] [] "" "" (mkSynthesis "" "" "" "")
  end.
Lemma batch_safe_witness :
  map (λ c, sp_name (ch_spec c)) (next_batch PlanDemo.tools record start_report) = ["a"; "d"] ∧
  ∀ c, c ∈ next_batch PlanDemo.tools record start_report → parallelSafe PlanDemo.tools (role_of record (ch_spec c)) = true.
Proof.
  split; [vm_compute; reflexivity|].
  destruct (batch_safe PlanDemo.tools record start_report _ eq_refl) as (_ & _ & _ & Hp);
    [apply (bool_decide_unpack (NoDup _)); vm_compute; exact I|simpl; lia|].
  destruct Hp as [_ Hp]; [vm_compute; repeat constructor|]. intros c Hc. apply (Hp c Hc).
Defined.
