(* ===== verification/ResultsProps.v ===== *)
(** * What a child is given of the results of others

    An excerpt is the longest run of whole characters of the section that fits;
    a child whose assignment grants it results makes a call only while every
    excerpt it was given is exactly what is saved of a completed child it depends
    on; and delivering puts exactly these excerpts into its prompt. *)

From S2P Require Import Prelude Text Utf8 Data Sql Store StoreInv StoreProps Budget BudgetProps Memory Workspace Profile Plan PlanProps Conflicts Evidence Results Report Schedule.

Section results.
Context {H : Host} {RH : ResultHost}.

(** What [boundedResult] answers. *)
Definition exact_excerpt (c : ChildReport) (ref : ResultReference) (item : DeliveredResult) : Prop :=
  ∃ raw, resultSection c (rr_scope ref) = Ok raw ∧ ValidString raw = true ∧
    let stop := dv_next_offset item in
    dv_reference item = ref ∧ dv_run item = run_id (rt_run c) ∧ dv_output_hash item = sha256hex (run_output (rt_run c)) ∧
    dv_section_hash item = sha256hex raw ∧
    (rr_offset ref <= stop <= slen raw)%Z ∧ (stop <= rr_offset ref + rr_max_bytes ref)%Z ∧
    dv_content item = excerpt raw (rr_offset ref) stop ∧ ValidString (dv_content item) = true ∧
    slen (dv_content item) = (stop - rr_offset ref)%Z ∧ dv_truncated item = (stop <? slen raw)%Z ∧
    (dv_content item = "" → stop = slen raw) ∧
    ∀ n, (stop < n <= slen raw)%Z → (n <= rr_offset ref + rr_max_bytes ref)%Z → ValidString (excerpt raw (rr_offset ref) n) = false.

Lemma boundedResult_exact c ref item : (0 <= rr_offset ref)%Z → (0 <= rr_max_bytes ref)%Z →
  boundedResult c ref = Ok item → exact_excerpt c ref item.
Proof.
  intros Ho Hm E. unfold boundedResult in E. apply res_bind_ok in E as (raw & Es & E). apply res_bind_ok in E as ([] & Hg%check_ok & E).
  apply andb_true_iff in Hg as [Hg _]. apply andb_true_iff in Hg as [Hv Hl%Z.leb_le]. cbv zeta in E.
  set (rest := drop_s (Z.to_nat (rr_offset ref)) raw) in *. set (n := Z.to_nat (Z.min (slen raw - rr_offset ref) (rr_max_bytes ref))) in *.
  set (k := back_up rest n) in *. apply res_bind_ok in E as ([] & Hne%check_ok%negb_true_iff & E). injection E as <-.
  assert (Hk : (k <= n)%nat) by apply back_up_le. assert (Hrest : slen rest = (slen raw - rr_offset ref)%Z) by (unfold slen, rest in *; rewrite drop_length; lia).
  assert (Hx : ∀ m, (0 <= m)%Z → excerpt raw (rr_offset ref) (rr_offset ref + m) = take_s (Z.to_nat m) rest).
  { intros m Hm'. unfold excerpt. by replace (rr_offset ref + m - rr_offset ref)%Z with m by lia. }
  assert (Hc : excerpt raw (rr_offset ref) (rr_offset ref + Z.of_nat k) = take_s k rest) by (rewrite Hx by lia; by rewrite Nat2Z.id).
  exists raw. cbn [dv_next_offset dv_reference dv_run dv_output_hash dv_section_hash dv_content dv_truncated].
  assert (Hlen : slen (take_s k rest) = Z.of_nat k) by (unfold slen in *; rewrite take_length; lia).
  split_and!; try done; try lia.
  - rewrite Hc. apply back_up_valid.
  - rewrite Hc, Hlen. lia.
  - rewrite Hc. intros E. rewrite E in Hlen. change (slen "") with 0%Z in Hlen. apply andb_false_iff in Hne as [Hne%bool_decide_eq_false|Hne%Z.ltb_ge]; lia.
  - intros m Hm1 Hm2. replace m with (rr_offset ref + (m - rr_offset ref))%Z by lia. rewrite Hx by lia. apply not_true_iff_false. intros Ht.
    pose proof (back_up_max rest n (Z.to_nat (m - rr_offset ref)) ltac:(lia) Ht) as Hb. fold k in Hb. lia.
Qed.

Lemma references_check_ok child seen l : references_check child seen l = Ok tt → ∀ ref, ref ∈ l →
  rr_source ref ∈ sp_depends_on child ∧ rr_source ref ≠ sp_name child ∧ (0 <= rr_offset ref)%Z ∧ (1 <= rr_max_bytes ref <= 32768)%Z.
Proof.
  revert seen. induction l as [|x l IH]; intros seen E ref Hr; [by apply not_elem_of_nil in Hr|]. simpl in E.
  apply res_bind_ok in E as ([] & Hg%check_ok & E). apply elem_of_cons in Hr as [->|Hr]; [|by eapply IH].
  repeat (apply andb_true_iff in Hg as [Hg ?]). bool_prop. rewrite !within_iff in *. split_and!; try done; lia.
Qed.
Lemma validated_references child : validateResultReferences child = Ok tt → ∀ ref, ref ∈ sp_results child →
  rr_source ref ∈ sp_depends_on child ∧ rr_source ref ≠ sp_name child ∧ (0 <= rr_offset ref)%Z ∧ (1 <= rr_max_bytes ref <= 32768)%Z.
Proof.
  unfold validateResultReferences. intros E. apply res_bind_ok in E as ([] & _ & E). apply res_bind_ok in E as ([] & Hc & _). by eapply references_check_ok.
Qed.

(** The child [c] holds, for the grant [ref], exactly what is saved. *)
Definition holds_exactly (d : db) (r : collaborationRecord) (c : childRecord) (ref : ResultReference) : Prop :=
  let source := recordChild r (rr_source ref) in
  live_source source = true ∧ rr_source ref ∈ sp_depends_on (ch_spec c) ∧
  ∃ run item, find_run (ch_run source) d = Some run ∧ run_status run = Completed ∧ item ∈ ch_delivered c ∧
    exact_excerpt (source_report d r source run) ref item ∧ childEvidenceGaps (source_report d r source run) = [].

Lemma delivered_item_ok d r ref item : (0 <= rr_offset ref)%Z → (0 <= rr_max_bytes ref)%Z → delivered_item d r ref item = Ok tt →
  let source := recordChild r (rr_source ref) in live_source source = true ∧
  ∃ run, find_run (ch_run source) d = Some run ∧ run_status run = Completed ∧
    exact_excerpt (source_report d r source run) ref item ∧ childEvidenceGaps (source_report d r source run) = [].
Proof.
  intros Ho Hm E. unfold delivered_item in E. cbv zeta in *. apply res_bind_ok in E as ([] & Hg%check_ok & E).
  do 6 (apply andb_true_iff in Hg as [Hg _]). split; [done|]. destruct (find_run _ d) as [run|]; [|done]. exists run.
  apply res_bind_ok in E as ([] & Hs%check_ok & E). apply andb_true_iff in Hs as [Hs%bool_decide_eq_true _].
  destruct (boundedResult _ ref) as [expected|e] eqn:Eb; [|done]. apply check_ok, andb_true_iff in E as [Hgap%bool_decide_eq_true ->%bool_decide_eq_true].
  split_and!; try done. by apply boundedResult_exact.
Qed.
Lemma delivered_items_ok d r refs items : length items = length refs → delivered_items d r refs items = Ok tt →
  ∀ ref, ref ∈ refs → ∃ item, item ∈ items ∧ delivered_item d r ref item = Ok tt.
Proof.
  revert items. induction refs as [|x refs IH]; intros [|i items] Hl E ref Hr; try done; [by apply not_elem_of_nil in Hr|].
  simpl in E. apply res_bind_ok in E as ([] & Ei & E). apply elem_of_cons in Hr as [->|Hr]; [exists i; split; [by left|done]|].
  destruct (IH items ltac:(by injection Hl) E ref Hr) as (y & Hy & Ey). exists y. split; [by right|done].
Qed.
Lemma delivered_valid_ok d r c : delivered_valid d r c = Ok tt → ∀ ref, ref ∈ sp_results (ch_spec c) → holds_exactly d r c ref.
Proof.
  unfold delivered_valid. case_bool_decide as Hn; [rewrite Hn; by intros _ ref ?%not_elem_of_nil|]. intros E ref Hr.
  apply res_bind_ok in E as ([] & Hg%check_ok & E). apply andb_true_iff in Hg as [Hg Hl%bool_decide_eq_true]. apply andb_true_iff in Hg as [Hg _].
  destruct (validateResultReferences (ch_spec c)) as [[]|] eqn:Ev; [|done]. destruct (validated_references _ Ev ref Hr) as (H1 & _ & H3 & H4).
  destruct (delivered_items_ok _ _ _ _ Hl E ref Hr) as (item & Hi & Ei). apply delivered_item_ok in Ei as (Hlive & run & H5 & H6 & H7 & H8); [|lia..].
  split; [done|]. split; [done|]. exists run, item. split_and!; done.
Qed.

(** C32: A child makes a call only while everything it was given of the results of
    others is what is saved: for each grant of its assignment, a live child it
    depends on has completed with the evidence its role asks for, and the excerpt
    is the longest run of whole characters of that section from the granted
    offset within the granted bytes, with the hashes of what it was cut from. *)
Theorem delivered_exact parent child a w w' :
  guard_reserve (RC := results_checks) parent child a w = (Ok tt, w') → child ≠ "" →
  ∃ r c, loadCollaboration parent w = (Ok r, w) ∧ find_child child r = Some c ∧ ch_run c = att_run a ∧
    ∀ ref, ref ∈ sp_results (ch_spec c) → holds_exactly (w_db w) r c ref.
Proof.
  intros E Hc. unfold guard_reserve in E. apply bind_ok in E as (r & w1 & El & E). pose proof (loadCollaboration_ok _ _ _ _ El) as (-> & _ & _).
  apply bind_ok in E as ([] & w2 & [_ <-]%guard_ok & E). apply bind_ok in E as (p & w2 & [_ <-]%query_row_ok & E).
  apply bind_ok in E as (now & w2 & Enow & E). injection Enow as _ <-. apply bind_ok in E as ([] & w2 & [_ <-]%guard_ok & E).
  rewrite bool_decide_eq_false_2 in E by done. destruct (find_child child r) as [c|] eqn:Ef; [|by apply fail_ok in E].
  apply bind_ok in E as ([] & w2 & [Hg <-]%guard_ok & E). apply bind_ok in E as ([] & w2 & [_ <-]%guard_ok & E).
  rewrite bind_query in E. apply bind_ok in E as ([] & w2 & [Hv _]%lift_ok & _). exists r, c. split_and!; try done.
  - apply negb_true_iff in Hg. bool_prop. done.
  - by apply delivered_valid_ok.
Qed.
End results.

(** ** Witnesses *)
Module ResultsDemo.
#[export] Instance results : ResultHost := {|
  decode_command _ := None; decode_file _ := None; decode_packet _ := None; decode_contract _ := None; decode_follow_up _ := None;
  json_texts _ := "[]"; json_evidence _ _ := "{}"; json_delivered l := String.concat "," (map dv_content l);
|}.
#[export] Existing Instance Demo.host.
Definition output : string := "0123456789abcdef0123456789abcdef0123456789abcdef0123456789abcdef".
Definition a_run (id : string) (status : RunStatus) (out : string) : Run := mkRun id id id "work" Demo.config status "" 0 0 out "" "" "" 0 0.
Definition reader : RoleProfile := mkRoleProfile "Look around" "" ["file_read"] ["docs"] "text" "analysis" [] (mkChildBudget 5 60 2048 256) PlanDemo.no_memory.
Definition ref : ResultReference := mkResultReference "a" "output" 60 3.
Definition b_spec : ChildSpec := mkChildSpec "b" "reader" "look" "" ["a"] [ref].
Definition plan : CollaborationPlan :=
  mkPlan "work" (mkParentBudget 4 10 10 4096 2 60) {["reader" := reader]} [PlanDemo.child "a" []; b_spec] true 0 false.
Definition record (delivered : list DeliveredResult) : collaborationRecord :=
  mkRecord "p" plan "running" (mkUsage 2 0 0 0 1 0)
    [mkChild (PlanDemo.child "a" []) "a" "running" 0 false [] false; mkChild b_spec "b" "running" 0 false delivered true]
    ["b"] ∅ "" "" None false false 1 "" [] "" "" "".
Definition base : db :=
  mkDb [] (map (λ id, mkConversation id "Chat" "/w" "local" "" "" 1 0) ["p"; "a"; "b"])
    [a_run "p" Running ""; a_run "a" Completed output; a_run "b" Stopped ""] [] [] ∅ (mkMemory [] [] ∅).
Definition item : DeliveredResult :=
  match boundedResult (source_report base (record []) (recordChild (record []) "a") (a_run "a" Completed output)) ref with
  | Ok i => i | Err _ => mkDelivered ref "" "" "" 0 false ""
  end.
Definition start : world := mkWorld (set_meta {[collaborationKey "p" := MCollaboration (record [item])]} base) 0 0.
Definition call : Attempt := mkAttempt "x" "b" KTool "call" APending (QTool (mkToolCall "call" "file_read" "{}")) None 1.
Definition reserved : world := (guard_reserve (RC := results_checks) "p" "b" call start).2.
End ResultsDemo.
Import ResultsDemo.

Lemma delivered_exact_witness :
  (∃ r c, find_child "b" r = Some c ∧ holds_exactly (w_db start) r c ref) ∧ dv_content item = "cde" ∧ dv_truncated item = true.
Proof.
  destruct (delivered_exact "p" "b" call start reserved) as (r & c & El & Ef & _ & Hx); [vm_compute; reflexivity|discriminate|].
  split; [|split; vm_compute; reflexivity]. exists r, c. split; [exact Ef|]. apply Hx. vm_compute in El. injection El as <-.
  vm_compute in Ef. injection Ef as <-. left.
Defined.
