(* ===== verification/Entry.v ===== *)
(** * What the person authorises, and what a model suggests

    Model of the settings and of the suggestions of
    src/internal/harness/collaboration_entry.go, and of authorizeReplan
    (collaboration_replan.go): the limits, models, tools, subtrees and memory a
    person allows, the plan a suggestion of a model stands for, and the roles a
    new plan may bring. *)

From S2P Require Import Prelude Text Data Sql Memory Workspace Profile Plan Results.

(** [DefaultCollaborationSettings]. *)
Definition DefaultCollaborationSettings : CollaborationSettings :=
  Data.mkSettings "off" (mkParentBudget 6 40 40 (512 * KiB) 2 600) (mkChildBudget 12 300 (64 * KiB) (16 * KiB)) 1 [] [] [] false
    (mkShared true true true ["fact"; "hypothesis"; "finding"; "decision"; "question"; "artifact"] []).

(** Experts of a suggestion. *)
Record ExpertSuggestion := mkExpert {
  xs_name : string; xs_objective : string; xs_model : string; xs_tools : list string; xs_paths : list string;
  xs_depends_on : list string; xs_acceptance : string; xs_results : list ResultReference; xs_evidence : list EvidenceRequirement;
}.
Record CollaborationSuggestion := mkSuggestion { su_reason : string; su_experts : list ExpertSuggestion }.

(** [plan.validate(core)]: one of the orders Go may iterate in; the verdict is
    that of all of them. *)
Definition validate_plan {PH : PlanHost} (core : Core) (fresh : string) (plan : CollaborationPlan) : res unit :=
  match plan_validate core fresh (map_to_list (pl_roles plan)) (map sp_name (pl_children plan)) plan with
  | Some r => r
  | None => Err cyclic
  end.

Section entry.
Context {PH : PlanHost}.

(** The roles that carry only the tools and subtrees of the settings. *)
Definition settings_role (s : CollaborationSettings) : RoleProfile :=
  mkRoleProfile "" "" (st_tools s) (st_paths s) "" "" [] (rp_budget zeroRole) (rp_memory zeroRole).
Definition scope_role (s : CollaborationSettings) : RoleProfile :=
  mkRoleProfile "" "" [] (st_paths s) "" "" [] (rp_budget zeroRole) (rp_memory zeroRole).

(** [SharedMemoryAccess.validate] (collaboration_memory.go). *)
Definition shared_validate (project : string) (a : SharedMemoryAccess) : res unit :=
  if negb (access_enabled a) then check (bool_decide (sh_kinds a = []) && bool_decide (sh_entries a = [])) ErrMemoryDenied
  else policy_validate project
         (Data.mkPolicy [] "validation" "validation" (mkMemorySelection [] [] [] [] false) (access_grant "validation" project a)).

(** [CollaborationSettings.validate]; [tools] is [None] when there is no tool
    runner. *)
Definition zero_settings (s : CollaborationSettings) : bool :=
  bool_decide (st_budget s = mkParentBudget 0 0 0 0 0 0) && bool_decide (st_child s = mkChildBudget 0 0 0 0)
  && bool_decide (st_models s = []) && bool_decide (st_tools s = []) && bool_decide (st_paths s = []) && bool_decide (st_max_replans s = 0%Z).
Definition settings_validate (config : CoreConfig) (tools : option (list ToolDefinition)) (s : CollaborationSettings) : res unit :=
  _ ← shared_validate (cf_workspace config) (st_shared s);
  _ ← check (bool_decide (st_mode s ∈ [""; "off"; "ask"; "auto"])) (EText "harness: collaboration mode must be off, ask or auto");
  if bool_decide (st_mode s ∈ [""; "off"]) && zero_settings s then Ok tt
  else
    _ ← budget_validate (st_budget s);
    _ ← check (child_budget_ok (st_child s) && within 0 4 (st_max_replans s)) (EText "harness: invalid finite collaboration settings");
    _ ← check (forallb (λ m, bool_decide (is_Some (cf_models config !! m))) (st_models s) && bool_decide (NoDup (st_models s)))
          (EText "harness: collaboration models must be distinct configured profiles");
    _ ← check ((length (st_models s) <=? 32)%nat && (length (st_tools s) <=? 32)%nat && (length (st_paths s) <=? 16)%nat)
          (EText "harness: collaboration authorization exceeds supported bounds");
    _ ← check (forallb (λ n, within 1 128 (slen n)) (st_tools s) && bool_decide (NoDup (st_tools s)))
          (EText "harness: invalid or duplicate authorized collaboration tool");
    _ ← check (is_ok (assign_paths [] (st_paths s))) (EText "harness: invalid or duplicate collaboration file scope");
    match tools with
    | None => Ok tt
    | Some base => _ ← newAssignedTools base (settings_role s); Ok tt
    end.

(** ** Suggestions *)

(** The role an expert gets: the authority of the settings, and the collections
    the parent's run was given. *)
Definition expert_role (memory : option memoryRunPolicy) (s : CollaborationSettings) (x : ExpertSuggestion) : RoleProfile :=
  mkRoleProfile "Complete the assigned objective. Preserve disagreements and source limitations." (xs_model x) (xs_tools x) (xs_paths x)
    "text" (if bool_decide (xs_acceptance x = "") then "analysis" else xs_acceptance x) (xs_evidence x) (st_child s)
    (mkRoleMemory "" (mkMemorySelection [] [] [] (match memory with Some p => sel_knowledge (mp_selection p) | None => [] end) false) (st_shared s)).
Definition expert_child (x : ExpertSuggestion) : ChildSpec :=
  mkChildSpec (xs_name x) (xs_name x) (xs_objective x) "" (xs_depends_on x) (xs_results x).

(** The body of the loop over the experts. *)
Definition expert_check (core : Core) (s : CollaborationSettings) (x : ExpertSuggestion) : res unit :=
  _ ← check (validEnvName (xs_name x) && (slen (xs_name x) <=? 64)%Z && negb (bool_decide (TrimSpace (xs_objective x) = ""))
             && (slen (xs_objective x) <=? 8192)%Z) (EText "harness: invalid expert identity or objective");
  _ ← check (bool_decide (st_models s = []) || bool_decide (xs_model x ∈ st_models s))
        (EText "harness: suggested model is outside the authorized pool");
  _ ← check (bool_decide (is_Some (cf_models (co_config core) !! xs_model x))) ErrModelCapability;
  _ ← check (forallb (λ t, bool_decide (t ∈ st_tools s)) (xs_tools x)) (EText "harness: suggested tool was not authorized");
  scope ← newAssignedTools (core_tools core) (scope_role s);
  check (forallb (allows (as_paths scope)) (xs_paths x)) (EText "harness: suggested file scope was not authorized").
Fixpoint add_experts (core : Core) (memory : option memoryRunPolicy) (s : CollaborationSettings) (plan : CollaborationPlan)
    (l : list ExpertSuggestion) : res CollaborationPlan :=
  match l with
  | [] => Ok plan
  | x :: l =>
      _ ← expert_check core s x;
      add_experts core memory s
        (mkPlan (pl_objective plan) (pl_budget plan) (<[xs_name x := expert_role memory s x]> (pl_roles plan))
           (pl_children plan ++ [expert_child x]) (pl_parallel plan) (pl_max_replans plan) (pl_synthesis plan)) l
  end.
(** [CollaborationSuggestion.plan]; [memory] is the policy of the core's run. *)
Definition suggestion_plan (core : Core) (memory : option memoryRunPolicy) (fresh objective : string) (s : CollaborationSettings)
    (su : CollaborationSuggestion) : res CollaborationPlan :=
  _ ← check (negb (bool_decide (TrimSpace (su_reason su) = "")) && (slen (su_reason su) <=? 1024)%Z
             && (zlen (su_experts su) <=? pb_children (st_budget s))%Z) (EText "harness: invalid bounded expert suggestion");
  plan ← add_experts core memory s
           (mkPlan objective (st_budget s) ∅ [] (1 <? pb_concurrent (st_budget s))%Z (st_max_replans s) (st_synthesis s)) (su_experts su);
  if bool_decide (length (pl_children plan) = 0%nat) then Ok plan
  else _ ← validate_plan core fresh plan; Ok plan.

(** ** The roles of a new plan *)

(** [authorizeReplan]: the body of its loop, for the settings and the roles of
    the saved record. *)
Definition budget_within (limit b : ChildBudget) : bool :=
  (cb_steps b <=? cb_steps limit)%Z && (cb_seconds b <=? cb_seconds limit)%Z && (cb_output_bytes b <=? cb_output_bytes limit)%Z
  && (cb_call_output_bytes b <=? cb_call_output_bytes limit)%Z.
Definition check_expert (role : RoleProfile) : ExpertSuggestion :=
  mkExpert "check" "check" (rp_model_id role) (rp_tools role) (rp_paths role) [] (rp_acceptance role) [] [].
Definition role_authorized (core : Core) (memory : option memoryRunPolicy) (fresh : string) (r : collaborationRecord) (role : RoleProfile) : res unit :=
  match cr_settings r with
  | None => check (existsb (λ kv, bool_decide (kv.2 = role)) (map_to_list (pl_roles (cr_plan r))))
              (EText "harness: explicit plan replanning may only reuse its authorized roles")
  | Some s =>
      let m := rp_memory role in
      _ ← check (bool_decide (rm_agent m = "") && negb (sel_task_private (rm_selection m)) && bool_decide (sel_entries (rm_selection m) = [])
                 && access_within (st_shared s) (rm_shared m)) ErrMemoryDenied;
      _ ← check (forallb (λ k, match memory with Some p => bool_decide (k ∈ sel_knowledge (mp_selection p)) | None => false end)
                   (sel_knowledge (rm_selection m))) ErrMemoryDenied;
      _ ← suggestion_plan core memory fresh "check" s (mkSuggestion "bounded replan authority check" [check_expert role]);
      check (budget_within (st_child s) (rp_budget role)) (EText "harness: replan child limits exceed saved authority")
  end.
End entry.
