(* ===== verification/EntryProps.v ===== *)
(** * What a suggestion may do

    Whatever experts a model suggests, when a goal is planned or planned again,
    their models, tools, subtrees, limits and memory stay within what the person
    authorised in the settings. *)

From S2P Require Import Prelude Text Data Sql Store StoreInv StoreProps Memory Workspace Profile Plan PlanProps Results Entry.

(** The authority of a role is part of that of the settings. *)
Record role_within {PH : PlanHost} (core : Core) (memory : option memoryRunPolicy) (s : CollaborationSettings) (role : RoleProfile) : Prop := {
  rw_model : (st_models s = [] ∨ rp_model_id role ∈ st_models s) ∧ is_Some (cf_models (co_config core) !! rp_model_id role);
  rw_tools : ∀ t, t ∈ rp_tools role → t ∈ st_tools s;
  rw_paths : ∃ scope, assign_paths [] (st_paths s) = Ok scope ∧ ∀ p, p ∈ rp_paths role → allows scope p = true;
  rw_budget : budget_within (st_child s) (rp_budget role) = true;
  rw_shared : rm_shared (rp_memory role) = st_shared s ∨ access_within (st_shared s) (rm_shared (rp_memory role)) = true;
  rw_knowledge : ∀ k, k ∈ sel_knowledge (rm_selection (rp_memory role)) → ∃ p, memory = Some p ∧ k ∈ sel_knowledge (mp_selection p);
  rw_private : rm_agent (rp_memory role) = "" ∧ sel_entries (rm_selection (rp_memory role)) = [];
}.

Lemma budget_within_refl b : budget_within b b = true.
Proof. unfold budget_within. by rewrite !Z.leb_refl. Qed.

(** Subtrees of subtrees. *)
Lemma Split_inj (s t : string) : Split s slash = Split t slash → s = t.
Proof. intros E. by rewrite <- (Split_Join s slash), <- (Split_Join t slash), E. Qed.
Lemma assign_paths_in acc l out : assign_paths acc l = Ok out → ∀ q, q ∈ out → q ∈ acc ∨ ∃ p, p ∈ l ∧ scopePath p = Ok q.
Proof.
  revert acc. induction l as [|v l IH]; intros acc E q Hq; simpl in E; [injection E as <-; by left|].
  destruct (scopePath v) as [c|] eqn:Ec; [|done]. case_bool_decide; [done|]. destruct (IH _ E q Hq) as [[Ha| ->%list_elem_of_singleton]%elem_of_app|(p & Hp & Ep)].
  - by left.
  - right. exists v. split; [by left|done].
  - right. exists p. split; [by right|done].
Qed.
Lemma below_trans scope l subtrees value : (∀ p, p ∈ l → allows scope p = true) → assign_paths [] l = Ok subtrees →
  below subtrees value → below scope value.
Proof.
  intros Ha El (c & q & Ec & Hq & Hin & Hpre). destruct (assign_paths_in _ _ _ El q Hq) as [?%not_elem_of_nil|(p & Hp & Ep)]; [done|].
  destruct (allows_inside scope p (Ha p Hp)) as (c' & x & Ec' & Hx & _ & _ & Hx'). rewrite Ep in Ec'. injection Ec' as <-.
  exists c, x. split; [done|split; [done|split; [done|]]]. destruct Hx' as [->|Hx']; [by left|]. destruct Hpre as [->|Hpre]; [|right; by etrans].
  left. change (Split "." slash) with ["."] in Hx'. apply Split_inj. change (Split "." slash) with ["."].
  destruct Hx' as [k Hk]. pose proof (Split_nonempty x slash). destruct (Split x slash) as [|y [|z k']]; [done|by injection Hk as <- _|by injection Hk].
Qed.

Section entry.
Context {PH : PlanHost}.

Lemma expert_check_ok core s x : expert_check core s x = Ok tt →
  (st_models s = [] ∨ xs_model x ∈ st_models s) ∧ is_Some (cf_models (co_config core) !! xs_model x) ∧
  (∀ t, t ∈ xs_tools x → t ∈ st_tools s) ∧
  ∃ scope, assign_paths [] (st_paths s) = Ok scope ∧ ∀ p, p ∈ xs_paths x → allows scope p = true.
Proof.
  unfold expert_check. intros E. apply res_bind_ok in E as ([] & _ & E). apply res_bind_ok in E as ([] & Hm%check_ok%orb_true_iff & E).
  apply res_bind_ok in E as ([] & Hc%check_ok%bool_decide_eq_true & E). apply res_bind_ok in E as ([] & Ht%check_ok & E).
  apply res_bind_ok in E as (scope & Es & Hp%check_ok). rewrite forallb_forall in Ht, Hp.
  apply newAssignedTools_ok in Es as (_ & Es & _). split; [by destruct Hm as [?%bool_decide_eq_true|?%bool_decide_eq_true]; [left|right]|].
  split; [done|split]. { intros t Hin. eapply bool_decide_eq_true_1, Ht. by apply list_elem_of_In. }
  exists (as_paths scope). split; [done|]. intros p Hin. apply Hp. by apply list_elem_of_In.
Qed.
Lemma expert_within core memory s x : expert_check core s x = Ok tt → role_within core memory s (expert_role memory s x).
Proof.
  intros E. destruct (expert_check_ok _ _ _ E) as (H1 & H2 & H3 & H4). split; simpl; try done; [apply budget_within_refl|by left|].
  intros k Hk. destruct memory as [p|]; [by exists p|by apply not_elem_of_nil in Hk].
Qed.
Lemma add_experts_ok core memory s plan l out : add_experts core memory s plan l = Ok out →
  (∀ x, x ∈ l → expert_check core s x = Ok tt) ∧
  ∀ name role, pl_roles out !! name = Some role → pl_roles plan !! name = Some role ∨ ∃ x, x ∈ l ∧ role = expert_role memory s x.
Proof.
  revert plan. induction l as [|x l IH]; intros plan E; simpl in E; [injection E as <-; split; [by intros x ?%not_elem_of_nil|by left]|].
  apply res_bind_ok in E as ([] & Ex & E). destruct (IH _ E) as [H1 H2]. split; [by intros y [->|Hy]%elem_of_cons; [|apply H1]|].
  intros name role Hr. destruct (H2 name role Hr) as [Hp|(y & Hy & ->)]; [|right; exists y; split; [by right|done]]. simpl in Hp.
  destruct (decide (xs_name x = name)) as [<-|Hne]; [|rewrite lookup_insert_ne in Hp by done; by left].
  rewrite lookup_insert_eq in Hp. injection Hp as <-. right. exists x. split; [by left|done].
Qed.
Lemma suggestion_within core memory fresh objective s su plan name role : suggestion_plan core memory fresh objective s su = Ok plan →
  pl_roles plan !! name = Some role → role_within core memory s role.
Proof.
  unfold suggestion_plan. intros E Hr. apply res_bind_ok in E as ([] & _ & E). apply res_bind_ok in E as (q & Eq & E).
  assert (plan = q) as -> by (case_bool_decide; [by injection E|by apply res_bind_ok in E as ([] & _ & [= <-])]).
  destruct (add_experts_ok _ _ _ _ _ _ Eq) as [H1 H2]. destruct (H2 _ _ Hr) as [Hx|(x & Hx & ->)]; [cbn in Hx; by apply lookup_empty_Some in Hx|]. by apply expert_within, H1.
Qed.
Lemma authorized_within core memory fresh r s role : cr_settings r = Some s → role_authorized core memory fresh r role = Ok tt →
  role_within core memory s role.
Proof.
  intros Es. unfold role_authorized. rewrite Es. intros E. apply res_bind_ok in E as ([] & Hg%check_ok & E). apply res_bind_ok in E as ([] & Hk%check_ok & E).
  apply res_bind_ok in E as (q & Eq & Hb%check_ok). apply andb_true_iff in Hg as [Hg Hs]. apply andb_true_iff in Hg as [Hg He%bool_decide_eq_true].
  apply andb_true_iff in Hg as [Ha%bool_decide_eq_true _]. unfold suggestion_plan in Eq. apply res_bind_ok in Eq as ([] & _ & Eq).
  apply res_bind_ok in Eq as (q' & Eq & _). destruct (add_experts_ok _ _ _ _ _ _ Eq) as [H1 _].
  destruct (expert_check_ok _ _ _ (H1 (check_expert role) (list_elem_of_here _ _))) as (C1 & C2 & C3 & C4).
  split; try done; [by right|]. intros k Hin. rewrite forallb_forall in Hk. specialize (Hk k (proj1 (list_elem_of_In _ _) Hin)).
  destruct memory as [p|]; [|done]. exists p. split; [done|]. by apply bool_decide_eq_true in Hk.
Qed.

(** C6: Whatever a model suggests for a goal, or for a new plan of it, the call an
    expert prepares is of a tool the person authorised, with the effect the
    runtime defines it with; when it is a call of a tool named file_..., every path
    it gives lies below one of the subtrees the person authorised; the model is of
    the authorised pool, and the limits and the memory are within the settings.
    The paths inside the text of apply_patch are not confined: see
    [apply_patch_unconfined] and finding 3. *)
Theorem experts_within_authority {P} (effect : P → ToolEffect) prepare core memory fresh objective s su plan r role a call p :
  (suggestion_plan core memory fresh objective s su = Ok plan ∧ (∃ name, pl_roles plan !! name = Some role)) ∨
    (cr_settings r = Some s ∧ role_authorized core memory fresh r role = Ok tt) →
  newAssignedTools (core_tools core) role = Ok a → assigned_Prepare effect prepare a call = Ok p →
  role_within core memory s role ∧ tc_name call ∈ st_tools s ∧
  (∃ t, t ∈ core_tools core ∧ td_name t = tc_name call ∧ td_effect t = effect p) ∧
  (HasPrefix (tc_name call) "file_" = true → ∃ path changes scope, decode_paths (tc_arguments call) = Some (path, changes) ∧
     assign_paths [] (st_paths s) = Ok scope ∧
     ∀ value, value ∈ (if bool_decide (tc_name call = "file_batch_edit") then changes else [path]) → below scope value).
Proof.
  intros Hr Ha E. assert (Hw : role_within core memory s role).
  { destruct Hr as [[Hs [name Hn]]|[Hs Hx]]; [by eapply suggestion_within|by eapply authorized_within]. }
  destruct (call_confined effect prepare _ _ _ _ _ Ha E) as (H1 & H2 & H3). destruct (rw_paths _ _ _ _ Hw) as (scope & Es & Hp).
  split; [done|]. split; [by apply (rw_tools _ _ _ _ Hw)|]. split; [done|]. intros Hf. destruct (H3 Hf) as (path & changes & subtrees & Ed & El & Hv).
  exists path, changes, scope. split; [done|split; [done|]]. intros value Hin. eapply below_trans; [exact Hp|exact El|by apply Hv].
Qed.
End entry.

(** ** Witnesses *)
Module EntryDemo.
#[export] Existing Instance PlanDemo.host.
Definition settings : CollaborationSettings :=
  Data.mkSettings "auto" (mkParentBudget 4 10 10 4096 2 60) (mkChildBudget 5 60 2048 256) 1 [] ["file_read"] ["docs"] false
    (mkShared false false false [] []).
Definition suggestion : CollaborationSuggestion :=
  mkSuggestion "one reader" [mkExpert "reader" "read the guide" "m" ["file_read"] ["docs/guide"] [] "" [] []].
Definition planned : CollaborationPlan :=
  match suggestion_plan PlanDemo.core None "f" "goal" settings suggestion with Ok p => p | Err _ => PlanDemo.plan end.
Definition role : RoleProfile := default zeroRole (pl_roles planned !! "reader").
Definition assigned : assignedTools := match newAssignedTools PlanDemo.tools role with Ok a => a | Err _ => PlanDemo.assigned end.
Definition read_call : ToolCall := mkToolCall "c" "file_read" "docs/guide/a.md".
End EntryDemo.
Import EntryDemo.

Lemma experts_within_authority_witness :
  below ["docs"] "docs/guide/a.md" ∧ suggestion_plan PlanDemo.core None "f" "goal" settings suggestion = Ok planned ∧
  is_ok (suggestion_plan PlanDemo.core None "f" "goal" settings
    (mkSuggestion "one reader" [mkExpert "reader" "read" "m" ["file_read"] ["secret"] [] "" [] []])) = false.
Proof.
  assert (Ep : suggestion_plan PlanDemo.core None "f" "goal" settings suggestion = Ok planned) by (vm_compute; reflexivity).
  split; [|split; [exact Ep|vm_compute; reflexivity]].
  destruct (experts_within_authority td_effect (λ _, Ok (mkDefinition "file_read" "" EffectRead)) PlanDemo.core None "f" "goal" settings suggestion planned
    (Data.mkRecord "" planned "" (mkUsage 0 0 0 0 0 0) [] [] ∅ "" "" None false false 1 "" [] "" "" "") role assigned read_call (mkDefinition "file_read" "" EffectRead))
    as (_ & _ & _ & Hb).
  - left. split; [exact Ep|]. exists "reader". vm_compute. reflexivity.
  - vm_compute. reflexivity.
  - vm_compute. reflexivity.
  - destruct (Hb eq_refl) as (path & changes & scope & Ed & Es & Hv). vm_compute in Es. injection Es as <-. vm_compute in Ed. injection Ed as <- <-.
    apply Hv. apply list_elem_of_singleton. reflexivity.
Defined.
