(* ===== verification/Revision.v ===== *)
(** * Creating a collaboration, and revising its plan

    Model of src/internal/harness/collaboration_revision.go, of the runs of the
    children and of Create (collaboration.go), of the record of a goal and of the
    plan saved for it (collaboration_entry.go), of the delegation of an active
    run (collaboration_delegate.go), and of replan (collaboration_replan.go) but
    for the text of its request. Every form of a plan is kept under its revision. *)

From stdpp Require Import pretty.
From S2P Require Import Prelude Text Utf8 Data Sql Store Budget Memory MemoryStore Workspace Profile Plan Conflicts Evidence Results Report Schedule Entry.

(** [CollaborationEdit]. *)
Record CollaborationEdit := mkEdit {
  ed_expected : Z; ed_reason : string; ed_roles : gmap string RoleProfile; ed_upsert : list ChildSpec; ed_retire : list string;
}.

(** The JSON text of a plan, of a revision and of an edit, the edit in the answer
    to a request to plan again; the state [Service.snapshot] freezes of a child's
    configuration, tools, budget and memory. *)
Class RevisionHost := {
  json_plan : CollaborationPlan → string;
  json_plan_revision : PlanRevision → string;
  json_edit : CollaborationEdit → string;
  decode_edit : string → option CollaborationEdit;
  service_snapshot : CoreConfig → assignedTools → ChildBudget → memoryRunPolicy → res RunConfig;
}.

(** ** Setters *)
Definition set_revised (plan : CollaborationPlan) (children : list childRecord) (added : Z) (r : collaborationRecord) : collaborationRecord :=
  let u := cr_usage r in
  mkRecord (cr_parent r) plan (cr_control r)
    (mkUsage (us_children u + added) (us_model_calls u) (us_tool_calls u) (us_output_bytes u) (us_active_children u) (us_replans u))
    children (cr_active r) (cr_reservations r) "" "" (cr_settings r) (cr_planning r) (cr_single r) (cr_revision r + 1)
    (cr_replan_attempt r) (cr_replanned r) "" "" (cr_initial_plan r).
Definition set_budget (b : ParentBudget) (r : collaborationRecord) : collaborationRecord :=
  let p := cr_plan r in
  let plan := mkPlan (pl_objective p) b (pl_roles p) (pl_children p) (pl_parallel p) (pl_max_replans p) (pl_synthesis p) in
  let settings s := Data.mkSettings (st_mode s) b (st_child s) (st_max_replans s) (st_models s) (st_tools s) (st_paths s) (st_synthesis s) (st_shared s) in
  mkRecord (cr_parent r) plan (cr_control r) (cr_usage r) (cr_children r) (cr_active r) (cr_reservations r) (cr_accepted_digest r)
    (cr_decision r) (settings <$> cr_settings r) (cr_planning r) (cr_single r) (cr_revision r + 1)
    (cr_replan_attempt r) (cr_replanned r) (cr_synthesis_attempt r) (cr_synthesis_digest r) (cr_initial_plan r).
Definition next_revision (r : collaborationRecord) : collaborationRecord :=
  mkRecord (cr_parent r) (cr_plan r) (cr_control r) (cr_usage r) (cr_children r) (cr_active r) (cr_reservations r) (cr_accepted_digest r)
    (cr_decision r) (cr_settings r) (cr_planning r) (cr_single r) (cr_revision r + 1)
    (cr_replan_attempt r) (cr_replanned r) (cr_synthesis_attempt r) (cr_synthesis_digest r) (cr_initial_plan r).
(** The plan of a goal is known. *)
Definition set_planned (plan : CollaborationPlan) (children : list childRecord) (r : collaborationRecord) : collaborationRecord :=
  let u := cr_usage r in
  mkRecord (cr_parent r) plan (cr_control r)
    (mkUsage (us_children u + zlen (pl_children plan)) (us_model_calls u) (us_tool_calls u) (us_output_bytes u) (us_active_children u) (us_replans u))
    (cr_children r ++ children) (cr_active r) (cr_reservations r) (cr_accepted_digest r) (cr_decision r) (cr_settings r) false
    (bool_decide (length (pl_children plan) = 0%nat)) (cr_revision r)
    (cr_replan_attempt r) (cr_replanned r) (cr_synthesis_attempt r) (cr_synthesis_digest r) (cr_initial_plan r).
Definition child_retire (control : string) (c : childRecord) : childRecord :=
  mkChild (ch_spec c) (ch_run c) control (ch_output_bytes c) true (ch_delivered c) (ch_results_ready c).
Definition child_assign (spec : ChildSpec) (c : childRecord) : childRecord :=
  mkChild spec (ch_run c) (ch_control c) (ch_output_bytes c) (ch_retired c) [] false.
Definition set_assignment (prompt : string) (config : RunConfig) (now : string) (r : Run) : Run :=
  mkRun (run_id r) (run_conversation r) (run_request_key r) prompt config (run_status r) (run_stop_reason r) (run_steps r)
    (run_elapsed_ms r) (run_output r) (run_created_at r) now (run_active_since r) (run_seq r) (run_last_attempt_seq r).
(** Children inherit the recipient and authority, never the parent's input. *)
Definition without_input (c : RunConfig) : RunConfig :=
  match rc_channel c with
  | None => c
  | Some o => set_channel (mkChannelRunOrigin (co_revision o) (co_target o) 0 (co_history_through o) "") c
  end.
(** A new child. *)
Definition new_child (spec : ChildSpec) (run : string) : childRecord := mkChild spec run "running" 0 false [] false.

(** ** The history of a plan *)

(** [fmt.Sprintf] with ["collaboration-revision/%s/%04d"]. *)
Definition pad4 (n : Z) : string :=
  let s := pretty n in String.substring 0 (4 - String.length s) "0000" +:+ s.
Definition revisionKey (parent : string) (n : Z) : string := "collaboration-revision/" +:+ parent +:+ "/" +:+ pad4 n.

Section revision.
Context {H : Host} {RH : ResultHost} {PR : ReportHost} {PH : PlanHost} {VH : RevisionHost}.

(** [savePlanRevision]. *)
Definition savePlanRevision (r : collaborationRecord) (source reason attempt : string) : M unit :=
  _ ← guard_ (within 1 64 (cr_revision r)) (EText "harness: finite plan revision limit reached");
  now ← nowText;
  let revision := mkPlanRevision (cr_revision r) source reason attempt now (cr_plan r)
                    (map (λ c, sp_name (ch_spec c)) (filter (λ c, ch_retired c = true) (cr_children r))) in
  _ ← guard_ (slen (json_plan_revision revision) <=? 256 * KiB)%Z (EText "harness: plan revision exceeds limit");
  meta_insert (revisionKey (cr_parent r) (cr_revision r)) (MRevision revision).

(** ** The runs of the children *)

(** [insertPlannedRun]. *)
Definition insertPlannedRun (conversation request prompt : string) (config : RunConfig) : M Run :=
  rid ← newID;
  created ← nowText;
  updated ← nowText;
  let run := mkRun rid conversation request prompt config Stopped "explicit collaboration continuation required" 0 0 "" created updated "" 0 0 in
  _ ← insert_run run;
  _ ← match rc_channel config with
      | Some o =>
          if (0 <? co_input_message o)%Z then
            n ← update_messages (λ m, bool_decide (msg_id m = co_input_message o) && bool_decide (msg_conversation m = conversation)
                                   && bool_decide (msg_request_key m = request) && bool_decide (msg_run m = None))
                  (λ m, mkMessage (msg_id m) (msg_conversation m) (Some rid) (msg_request_key m) (msg_body m));
            guard_ (bool_decide (n = 1%nat)) ErrRequestKey
          else insertMessage run (userMessage prompt [] true)
      | None => insertMessage run (userMessage prompt [] false)
      end;
  mret run.
(** [insertCollaborationRun]. *)
Definition insertCollaborationRun (workspace title request prompt : string) (config : RunConfig) : M Run :=
  cid ← newID;
  created ← nowText;
  updated ← nowText;
  let space := match rc_permission config with
               | Some p => if bool_decide (ps_space p = "") then LocalSpaceID else ps_space p
               | None => LocalSpaceID
               end in
  _ ← insert_conversation (mkConversation cid title workspace space created updated 0 0);
  run ← insertPlannedRun cid request prompt (without_input config);
  _ ← match rc_memory config with Some p => meta_insert (chatAgentKey cid) (MText (mp_agent p)) | None => mret tt end;
  mret run.

(** [collaborationAgentID] and [assignmentSnapshot]. *)
Definition collaborationAgentID (parent child : string) : string := "expert-" +:+ parent +:+ "-" +:+ child.
Definition assignmentSnapshot (core : Core) (spec : ChildSpec) (role : RoleProfile) (parent agent : string) : res (RunConfig * string) :=
  config ← childConfig (co_config core) role;
  tools ← newAssignedTools (core_tools core) role;
  let agent := if bool_decide (agent = "") then collaborationAgentID parent (sp_name spec) else agent in
  let policy := role_policy parent (cf_workspace config) agent "" (rp_memory role) in
  _ ← policy_validate (cf_workspace config) policy;
  snapshot ← service_snapshot config tools (rp_budget role) policy;
  Ok (snapshot, childPrompt spec role).
(** The loop that gives every new assignment its run. *)
Definition role_in (plan : CollaborationPlan) (spec : ChildSpec) : RoleProfile := default zeroRole (pl_roles plan !! sp_role spec).
Fixpoint assign_children (core : Core) (parent request : string) (plan : CollaborationPlan) (l : list ChildSpec) : M (list childRecord) :=
  match l with
  | [] => mret []
  | spec :: l =>
      x ← lift (assignmentSnapshot core spec (role_in plan spec) parent "");
      run ← insertCollaborationRun (cf_workspace (co_config core)) ("Child: " +:+ sp_name spec) (request +:+ "/" +:+ sp_name spec) x.2 x.1;
      _ ← meta_insert (collaborationRunKey (run_id run)) (MText parent);
      rest ← assign_children core parent request plan l;
      mret (new_child spec (run_id run) :: rest)
  end.

(** ** Creation *)

(** The transaction of [Create]; [saved] is how the conversation's preference
    was read before it, [snapshot] what the parent's run freezes. *)
Definition initial_record (parent : string) (plan : CollaborationPlan) (children : list childRecord) (initial : string) : collaborationRecord :=
  mkRecord parent plan "running" (mkUsage (zlen (pl_children plan)) 0 0 0 0 0) children [] ∅ "" "" None false false 1 "" [] "" "" initial.
Definition insert_collaboration (core : Core) (parent : Run) (request : string) (plan : CollaborationPlan) (initial source reason : string) : M unit :=
  children ← assign_children core (run_id parent) request plan (pl_children plan);
  _ ← meta_insert (collaborationRunKey (run_id parent)) (MText (run_id parent));
  let r := initial_record (run_id parent) plan children initial in
  _ ← saveCollaboration r;
  savePlanRevision r source reason "".
Definition unfinished_runs (conversation : string) (d : db) : nat :=
  count_if (λ r, bool_decide (run_conversation r = conversation) && negb (bool_decide (run_status r ∈ [Completed; Failed; Abandoned]))) (runs d).
Definition preferenceKey (conversation : string) : string := "chat/collaboration/" +:+ conversation.
Definition create_tx (core : Core) (saved : string) (snapshot : RunConfig) (conversation request : string) (plan : CollaborationPlan) : M string :=
  if bool_decide (conversation = "") then
    parent ← insertCollaborationRun (cf_workspace (co_config core)) ("Collaboration: " +:+ String.substring 0 60 (pl_objective plan)) request
               (pl_objective plan) snapshot;
    _ ← insert_collaboration core parent request plan (json_plan plan) "user" "initial authorized plan";
    mret (run_id parent)
  else
    d ← query id;
    _ ← guard_ (bool_decide (meta_text (preferenceKey conversation) d = saved)) ErrConfigChanged;
    c ← query_row (find_conversation conversation);
    _ ← guard_ (bool_decide (cv_workspace c = cf_workspace (co_config core))) (EText "harness: parent workspace mismatch");
    match find_by_request conversation request d with
    | Some existing =>
        r ← or_else (loadCollaboration (run_id existing)) ErrRequestKey;
        _ ← guard_ (bool_decide (cr_initial_plan r = json_plan plan)) ErrRequestKey;
        mret (run_id existing)
    | None =>
        _ ← guard_ (bool_decide (unfinished_runs conversation d = 0%nat)) ErrActiveRun;
        parent ← insertPlannedRun conversation request (pl_objective plan) snapshot;
        _ ← insert_collaboration core parent request plan (json_plan plan) "user" "initial authorized plan";
        mret (run_id parent)
    end.
(** [Create], for the settings' mode and preference, a free conversation and the
    parent's snapshot; a request without a key draws one. *)
Definition Create (core : Core) (mode saved : string) (snapshot : res RunConfig) (conversation request : string) (plan : CollaborationPlan) : M string :=
  _ ← guard_ (bool_decide (mode ∈ ["ask"; "auto"])) ErrCollaborationDisabled;
  fresh ← newID;
  _ ← lift (validate_plan core fresh plan);
  request ← (if bool_decide (request = "") then newID else mret request);
  _ ← guard_ (slen (json_plan plan) <=? 256 * KiB)%Z (EText "harness: plan exceeds limit");
  snapshot ← lift snapshot;
  transaction (create_tx core saved snapshot conversation request plan).

(** [insertActiveDelegation] (collaboration_delegate.go): the active run [run]
    becomes the parent. *)
Definition insertActiveDelegation (core : Core) (run : Run) (plan : CollaborationPlan) : M unit :=
  d ← query id;
  _ ← match meta d !! collaborationKey (run_id run) with
      | None => mret tt
      | Some _ => _ ← loadCollaboration (run_id run); fail (EText "harness: an active run may delegate only once")
      end;
  transaction (insert_collaboration core run (run_request_key run) plan "" "extension" "active Run extension delegation").

(** The transaction of [startGoal]: a parent whose plan is still to be made. *)
Definition goal_record (parent prompt : string) (s : CollaborationSettings) : collaborationRecord :=
  mkRecord parent (mkPlan prompt (st_budget s) ∅ [] false 0 false) "running" (mkUsage 0 0 0 0 0 0) [] [] ∅ "" "" (Some s) true false 1 "" [] "" "" "".
Definition start_goal (saved conversation request prompt : string) (snapshot : RunConfig) (s : CollaborationSettings) : M string :=
  transaction
    (d ← query id;
     _ ← guard_ (bool_decide (meta_text (preferenceKey conversation) d = saved)) ErrConfigChanged;
     _ ← guard_ (bool_decide (unfinished_runs conversation d = 0%nat)) (EJoin [ErrActiveRun]);
     parent ← insertPlannedRun conversation request prompt snapshot;
     _ ← meta_insert (collaborationRunKey (run_id parent)) (MText (run_id parent));
     _ ← saveCollaboration (goal_record (run_id parent) prompt s);
     mret (run_id parent)).
(** The change [planGoal] makes once its suggestion is accepted, for the plan it
    stands for, the reason it gives and the attempt it was saved with. *)
Definition declined : string := "user declined collaboration; continued with the selected single Agent".
Definition plan_goal_edit (core : Core) (request : string) (plan : CollaborationPlan) (accepted : bool) (reason attempt : string)
    (r : collaborationRecord) : M collaborationRecord :=
  _ ← guard_ (bool_decide (cr_control r = "running") && cr_planning r) ErrChildPaused;
  children ← assign_children core (cr_parent r) request plan (pl_children plan);
  let r := set_planned plan children r in
  _ ← savePlanRevision r "planning" (if accepted then reason else declined) attempt;
  mret r.

(** ** Revisions *)

(** The attempt of a synthesis or of a new plan has a definite outcome. *)
Definition definite_attempt (id : string) : M unit :=
  a ← query_row (find_attempt id);
  guard_ (negb (bool_decide (att_status a ∈ [ADispatched; AUnknown]))) ErrUnknownResult.
(** The loop over [edit.Upsert]: every name once, and not retired as well. *)
Fixpoint put_spec (spec : ChildSpec) (l : list ChildSpec) : list ChildSpec :=
  match l with
  | [] => [spec]
  | c :: l => if bool_decide (sp_name c = sp_name spec) then spec :: l else c :: put_spec spec l
  end.
Fixpoint upsert_specs (retire seen : list string) (l children : list ChildSpec) : res (list ChildSpec) :=
  match l with
  | [] => Ok children
  | spec :: l =>
      _ ← check (negb (bool_decide (sp_name spec ∈ seen) || bool_decide (sp_name spec ∈ retire)))
            (EText "harness: duplicate or both revised and retired assignment");
      upsert_specs retire (sp_name spec :: seen) l (put_spec spec children)
  end.
(** The loop over [edit.Roles]: a changed role names all the assignments it
    affects. *)
Definition affects (edit : CollaborationEdit) (r : collaborationRecord) (name : string) (role : RoleProfile) (c : childRecord) : bool :=
  bool_decide (sp_role (ch_spec c) = name) && negb (bool_decide (default zeroRole (pl_roles (cr_plan r) !! name) = role))
  && negb (existsb (λ s, bool_decide (sp_name s = sp_name (ch_spec c))) (ed_upsert edit)).
Definition roles_explicit (edit : CollaborationEdit) (r : collaborationRecord) : bool :=
  forallb (λ kv, negb (existsb (affects edit r kv.1 kv.2) (cr_children r))) (map_to_list (ed_roles edit)).
(** The loop over [edit.Retire], with [seen] and the map [retired]. *)
Definition retired_map (l : list childRecord) : gmap string bool := foldl (λ m c, <[sp_name (ch_spec c) := ch_retired c]> m) ∅ l.
Fixpoint retire_names (seen l : list string) (retired : gmap string bool) : res (gmap string bool) :=
  match l with
  | [] => Ok retired
  | name :: l =>
      _ ← check (negb (bool_decide (name ∈ seen))) (EText "harness: duplicate retired assignment");
      _ ← check (bool_decide (retired !! name = Some false)) (EText "harness: retired assignment is missing or already retired");
      retire_names (name :: seen) l (<[name := true]> retired)
  end.
Definition is_retired (retired : gmap string bool) (name : string) : bool := default false (retired !! name).
(** Live work does not depend on retired work. *)
Definition live_dependencies (retired : gmap string bool) (l : list ChildSpec) : bool :=
  forallb (λ s, is_retired retired (sp_name s) || forallb (λ d, negb (is_retired retired d)) (sp_depends_on s)) l.

(** The attempts of a run whose outcome is not known, nor settled by the user. *)
Definition uncertain_attempts (run : string) (d : db) : nat :=
  count_if (λ a, bool_decide (att_run a = run) && bool_decide (att_status a ∈ [AUnknown; ADispatched]) && negb (resolvedAttempt d a)) (attempts d).
(** The body of the loop over the children that are revised or retired. *)
Definition revise_child (core : Core) (edit : CollaborationEdit) (plan : CollaborationPlan) (parent : string) (active : list string)
    (c : childRecord) : M childRecord :=
  let name := sp_name (ch_spec c) in
  _ ← guard_ (negb (ch_retired c || bool_decide (name ∈ active))) ErrActiveRun;
  run ← query_row (find_run (ch_run c));
  d ← query id;
  _ ← guard_ (bool_decide (uncertain_attempts (run_id run) d = 0%nat) && negb (bool_decide (run_status run = Unknown))) ErrUnknownResult;
  if bool_decide (name ∈ ed_retire edit) then
    _ ← guard_ (bool_decide (run_steps run = 0%Z) || bool_decide (run_status run = Failed)) ErrControlledRun;
    if bool_decide (run_steps run = 0%Z) then
      now ← nowText;
      _ ← update_runs (by_id (run_id run)) (set_status Abandoned "undispatched assignment retired" now);
      mret (child_retire "cancelled" c)
    else mret (child_retire (ch_control c) c)
  else
    _ ← guard_ (bool_decide (run_steps run = 0%Z) && negb (bool_decide (run_status run = Abandoned))
                && negb (bool_decide (ch_control c = "cancelled"))) ErrControlledRun;
    match List.find (λ s, bool_decide (sp_name s = name)) (pl_children plan) with
    | None => fail ErrStoreFormat
    | Some spec =>
        let agent := match rc_memory (run_config run) with Some p => mp_agent p | None => "" end in
        x ← lift (assignmentSnapshot core spec (role_in plan spec) parent agent);
        now ← nowText;
        _ ← update_runs (by_id (ch_run c)) (set_assignment x.2 x.1 now);
        _ ← update_messages (user_message_of (ch_run c)) (set_body (role_message "user" x.2));
        mret (child_assign spec c)
    end.
Fixpoint revise_children (core : Core) (edit : CollaborationEdit) (plan : CollaborationPlan) (parent : string) (active : list string)
    (l : list childRecord) : M (list childRecord) :=
  match l with
  | [] => mret []
  | c :: l =>
      c' ← (if bool_decide (sp_name (ch_spec c) ∈ map sp_name (ed_upsert edit) ++ ed_retire edit)
            then revise_child core edit plan parent active c else mret c);
      rest ← revise_children core edit plan parent active l;
      mret (c' :: rest)
  end.

(** [applyPlanEdit]. *)
Definition edited_plan (edit : CollaborationEdit) (p : CollaborationPlan) (children : list ChildSpec) : CollaborationPlan :=
  mkPlan (pl_objective p) (pl_budget p) (ed_roles edit ∪ pl_roles p) children (pl_parallel p) (pl_max_replans p) (pl_synthesis p).
Definition applyPlanEdit (core : Core) (edit : CollaborationEdit) (source attempt : string) (r : collaborationRecord) : M collaborationRecord :=
  _ ← guard_ (bool_decide (ed_expected edit = cr_revision r)) ErrPlanRevision;
  parent ← query_row (find_run (cr_parent r));
  _ ← guard_ (negb (cr_planning r || cr_single r || bool_decide (cr_control r = "cancelled")
                    || bool_decide (run_status parent ∈ [Completed; Abandoned; Failed]))) ErrControlledRun;
  _ ← guard_ (negb (bool_decide (run_status parent = Unknown))) ErrUnknownResult;
  _ ← (if bool_decide (cr_synthesis_attempt r = "") then mret tt else definite_attempt (cr_synthesis_attempt r));
  r ← (if bool_decide (source = "user") && negb (bool_decide (cr_replan_attempt r = ""))
       then _ ← definite_attempt (cr_replan_attempt r); mret (set_replan "" r) else mret r);
  _ ← guard_ (negb (bool_decide (TrimSpace (ed_reason edit) = "")) && (slen (ed_reason edit) <=? 4096)%Z
              && (1 <=? length (ed_upsert edit) + length (ed_retire edit))%nat && (length (ed_upsert edit) <=? 16)%nat
              && (length (ed_retire edit) <=? 16)%nat) (EText "harness: a bounded explained work revision is required");
  _ ← guard_ (roles_explicit edit r) (EText "harness: role changes must explicitly update each affected assignment");
  children ← lift (upsert_specs (ed_retire edit) [] (ed_upsert edit) (pl_children (cr_plan r)));
  let plan := edited_plan edit (cr_plan r) children in
  let added := (zlen children - zlen (pl_children (cr_plan r)))%Z in
  _ ← guard_ (us_children (cr_usage r) + added <=? pb_children (pl_budget (cr_plan r)))%Z ErrParentBudget;
  fresh ← newID;
  _ ← lift (validate_plan core fresh plan);
  retired ← lift (retire_names (map sp_name (ed_upsert edit)) (ed_retire edit) (retired_map (cr_children r)));
  _ ← guard_ (live_dependencies retired children) (EText "harness: live work cannot depend on a retired assignment");
  old ← revise_children core edit plan (run_id parent) (cr_active r) (cr_children r);
  new ← assign_children core (run_id parent) (run_request_key parent) plan (drop (length (pl_children (cr_plan r))) children);
  let r := set_revised plan (old ++ new) added r in
  _ ← savePlanRevision r source (ed_reason edit) attempt;
  mret r.
(** [Revise], for a parent whose configuration is unchanged. *)
Definition Revise (core : Core) (parent : string) (edit : CollaborationEdit) : M unit :=
  _ ← query_row (find_run parent);
  _ ← guard_ (slen (json_edit edit) <=? 64 * KiB)%Z (EText "harness: invalid bounded plan edit");
  change parent (applyPlanEdit core edit "user" "").
(** [Adjust] (collaboration.go). *)
Definition Adjust (core : Core) (parent name : string) (spec : ChildSpec) : M unit :=
  _ ← guard_ (bool_decide (sp_name spec = name)) (EText "harness: adjustment cannot change child identity");
  report ← Inspect parent;
  _ ← guard_ (existsb (λ c, bool_decide (sp_name (rt_spec c) = name)) (cx_children report)) (EText "harness: child not found");
  Revise core parent (mkEdit (cx_revision report) "adjust undispatched child" ∅ [spec] []).

(** [IncreaseLimits], for a parent the execution gate admits. *)
Definition limits_grow (old b : ParentBudget) : bool :=
  (pb_children old <=? pb_children b)%Z && (pb_model_calls old <=? pb_model_calls b)%Z && (pb_tool_calls old <=? pb_tool_calls b)%Z
  && (pb_output_bytes old <=? pb_output_bytes b)%Z && (pb_concurrent old <=? pb_concurrent b)%Z && (pb_active_seconds old <=? pb_active_seconds b)%Z.
Definition limits_edit (b : ParentBudget) (r : collaborationRecord) : M collaborationRecord :=
  parent ← query_row (find_run (cr_parent r));
  _ ← guard_ (negb (bool_decide (run_status parent ∈ [Completed; Failed; Abandoned]) || bool_decide (cr_control r = "cancelled"))) ErrControlledRun;
  _ ← guard_ (limits_grow (pl_budget (cr_plan r)) b) (EText "harness: parent limits can only increase without resetting consumption");
  if bool_decide (b = pl_budget (cr_plan r)) then mret r
  else
    let r := set_budget b r in
    _ ← savePlanRevision r "limits" "explicit finite parent limit increase; consumption retained" "";
    mret r.
Definition IncreaseLimits (parent : string) (b : ParentBudget) : M unit :=
  _ ← lift (budget_validate b);
  change parent (limits_edit b).
End revision.
