(* ===== verification/Replan.v ===== *)
(** * Planning again

    Model of replan (src/internal/harness/collaboration_replan.go): the saved
    answer of the model is applied once, under the revision it was asked for,
    within the authority of the settings. The request and the call of the model
    are parameters; the clock of the call is not modelled. *)

From S2P Require Import Prelude Text Utf8 Data Sql Store Budget Memory MemoryStore Workspace Profile Plan Conflicts Evidence Results Report Schedule Entry Revision.

Section replan.
Context {H : Host} {RH : ResultHost} {PR : ReportHost} {PH : PlanHost} {VH : RevisionHost}.
Variable core : Core.
Variable memory : option memoryRunPolicy.
Variable request : collaborationRecord → CollaborationReport → res ModelRequest.
Variable generate : Run → ModelRequest → M Attempt.

(** The revision a request to plan again was made for. *)
Definition asked_revision (a : Attempt) : res Z :=
  match rq_messages (decodeModelRequest (att_request a)) with
  | _ :: m :: _ => match json_revision (mm_content m) with Some n => Ok n | None => Err ErrStoreFormat end
  | _ => Err ErrStoreFormat
  end.
Definition is_replanning (a : Attempt) : bool :=
  bool_decide (att_kind a = KModel) && bool_decide (rq_purpose (decodeModelRequest (att_request a)) = "replanning").
Definition open_attempt (d : db) (a : Attempt) : bool :=
  bool_decide (att_status a = ADispatched) || bool_decide (att_status a = AUnknown) && negb (resolvedAttempt d a).
(** The loop over the attempts that looks for the saved proposal. *)
Fixpoint saved_proposal (d : db) (r : collaborationRecord) (saved : option Attempt) (l : list Attempt) : res (option Attempt) :=
  match l with
  | [] => Ok saved
  | a :: l =>
      _ ← check (negb (open_attempt d a)) ErrUnknownResult;
      if negb (is_replanning a) then saved_proposal d r saved l
      else
        n ← asked_revision a;
        saved_proposal d r (if bool_decide (n = cr_revision r) || bool_decide (cr_replan_attempt r = att_id a) then Some a else saved) l
  end.

(** [replanLimitRevisions]: only the limits were raised since the request. *)
Definition limits_only (d : db) (parent : string) (n : Z) : res unit :=
  match meta d !! revisionKey parent n with
  | Some (MRevision v) => check (bool_decide (rv_revision v = n) && bool_decide (rv_source v = "limits")) ErrPlanRevision
  | Some _ => Err ErrPlanRevision
  | None => Err ErrNoRows
  end.
Definition replanLimitRevisions (d : db) (r : collaborationRecord) (a : Attempt) (revision : Z) : res unit :=
  _ ← check (bool_decide (cr_replan_attempt r = att_id a) && (1 <=? revision)%Z && (revision <? cr_revision r)%Z
             && match asked_revision a with Ok n => bool_decide (n = revision) | Err _ => false end) ErrPlanRevision;
  all_ok (limits_only d (cr_parent r)) (seqZ (revision + 1) (cr_revision r - revision)).

(** The two changes: no work is revised, or the edit is applied. *)
Definition keep_plan_edit (report : CollaborationReport) (a : Attempt) (reason : string) (expected : Z) (r : collaborationRecord) : M collaborationRecord :=
  _ ← guard_ (bool_decide (cr_revision r = expected) && bool_decide (cr_replan_attempt r = att_id a)) ErrPlanRevision;
  _ ← guard_ (bool_decide (cr_control r = "running")) ErrChildPaused;
  let r := next_revision (acknowledgeReplan (set_replan "" r) report) in
  _ ← savePlanRevision r "replanning" reason (att_id a);
  mret r.
Definition replan_edit (report : CollaborationReport) (a : Attempt) (edit : CollaborationEdit) (r : collaborationRecord) : M collaborationRecord :=
  _ ← guard_ (bool_decide (cr_control r = "running")) ErrChildPaused;
  _ ← guard_ (bool_decide (cr_replan_attempt r = att_id a)) ErrPlanRevision;
  r ← applyPlanEdit core edit "replanning" (att_id a) r;
  mret (acknowledgeReplan (set_replan "" r) report).

(** The body of [replan]. *)
Definition with_expected (n : Z) (e : CollaborationEdit) : CollaborationEdit := mkEdit n (ed_reason e) (ed_roles e) (ed_upsert e) (ed_retire e).
Definition replan_call (parent : string) (report : CollaborationReport) : M unit :=
  r ← loadCollaboration parent;
  run ← query_row (find_run parent);
  d ← query id;
  saved ← lift (saved_proposal d r None (listAttempts parent d));
  _ ← guard_ (bool_decide (cr_replan_attempt r = "") || match saved with Some a => bool_decide (att_id a = cr_replan_attempt r) | None => false end)
        ErrPlanRevision;
  a ← match saved with Some a => mret a | None => q ← lift (request r report); generate run q end;
  _ ← guard_ (bool_decide (att_status a = AFinished)) (EText "harness: replanning result cannot be replayed");
  let invalid := EText "harness: replanning response is not a bounded work revision" in
  edit ← match att_response a with
         | Some (RModel response) => match decode_edit (rs_content response) with Some e => mret e | None => fail invalid end
         | _ => fail invalid
         end;
  _ ← guard_ (negb (bool_decide (TrimSpace (ed_reason edit) = "")) && (slen (ed_reason edit) <=? 4096)%Z)
        (EText "harness: a bounded explained work revision is required");
  d ← query id;
  _ ← (if bool_decide (ed_expected edit = cr_revision r) then mret tt else lift (replanLimitRevisions d r a (ed_expected edit)));
  let edit := with_expected (cr_revision r) edit in
  if bool_decide (length (ed_upsert edit) + length (ed_retire edit) = 0)%nat then
    _ ← guard_ (bool_decide (ed_roles edit = ∅)) (EText "harness: role changes require explicit assignment revisions");
    change parent (keep_plan_edit report a (ed_reason edit) (ed_expected edit))
  else
    fresh ← newID;
    _ ← lift (all_ok (λ kv, role_authorized core memory fresh r kv.2) (map_to_list (ed_roles edit)));
    change parent (replan_edit report a edit).
(** [replan], by the error it returns: a run its call failed is stopped. *)
Definition replan (parent : string) (report : CollaborationReport) : M (option error) :=
  e ← caught (replan_call parent report);
  match e with
  | None => mret None
  | Some e =>
      run ← attempt (query_row (find_run parent));
      e' ← match run with
           | Ok run => if bool_decide (run_status run = Failed)
                       then caught (FinishRun parent Stopped "replanning failed; saved child results retained") else mret None
           | Err e' => mret (Some e')
           end;
      mret (join [Some e; e'])
  end.
End replan.
