(* ===== verification/RevisionInv.v ===== *)
(** * The invariant of collaborations

    [record_ok] is what every operation on a collaboration keeps: the children
    are the assignments of the plan, live work depends on live work only and on
    no cycle, every child has a run of its own, the leases go to live children
    and within the limit, and every form of the plan is saved under its revision.
    [quiet] is the relation of the statements that leave the records alone. *)

From S2P Require Import Prelude Text Utf8 Data Sql Store StoreInv StoreProps Budget BudgetProps Memory MemoryStore Workspace Profile Plan PlanProps Conflicts Evidence Results Report Schedule ScheduleProps Entry Revision.

(** ** What a statement leaves alone *)
Record quiet (d d' : db) : Prop := {
  qt_runs : ∀ id, is_Some (find_run id d) → is_Some (find_run id d');
  qt_history : ∀ p n v, meta d !! revisionKey p n = Some v → meta d' !! revisionKey p n = Some v;
  qt_records : ∀ p, meta d' !! collaborationKey p = meta d !! collaborationKey p;
}.
#[export] Instance quiet_pre : PreOrder quiet.
Proof. split; [by split|]. intros a b c [A1 A2 A3] [B1 B2 B3]. split; [auto|auto|]. intros p. by rewrite B3. Qed.

Notation Quiet := (Along (λ R, R = quiet)).
#[export] Instance quiet_closed : Closed (λ R, R = quiet).
Proof. intros R ->. apply _. Qed.
#[export] Hint Resolve quiet_closed : steps.

(** The keys a quiet statement may insert or write. *)
Definition quiet_key (k : string) : bool := negb (HasPrefix k "collaboration/") && negb (HasPrefix k "collaboration-revision/").

Lemma revisionKey_prefix p n : HasPrefix (revisionKey p n) "collaboration-revision/" = true.
Proof. unfold revisionKey. apply HasPrefix_spec. by eexists. Qed.
Lemma collaborationKey_prefix p : HasPrefix (collaborationKey p) "collaboration/" = true.
Proof. unfold collaborationKey. apply HasPrefix_spec. by eexists. Qed.
Lemma revisionKey_not_record p n q : revisionKey p n ≠ collaborationKey q.
Proof. intros E. discriminate E. Qed.

Lemma find_run_ids d d' : map run_id (runs d') = map run_id (runs d) → ∀ x, is_Some (find_run x d) → is_Some (find_run x d').
Proof.
  intros E x [r Hr]. apply find_elem in Hr as [Hr Ex%bool_decide_eq_true]. unfold find_run.
  assert (Hin : x ∈ map run_id (runs d')) by (rewrite E, <- Ex; by apply list_elem_of_fmap_2).
  apply list_elem_of_fmap in Hin as (r' & Ex' & Hr'). destruct (List.find _ (runs d')) eqn:Ef; [by eexists|].
  pose proof (List.find_none _ _ Ef r' (proj1 (list_elem_of_In _ _) Hr')) as Hx. cbv beta in Hx. by apply bool_decide_eq_false in Hx.
Qed.
Lemma quiet_same_meta d d' : meta d' = meta d → (∀ x, is_Some (find_run x d) → is_Some (find_run x d')) → quiet d d'.
Proof. intros E Hr. split; [done|intros p n v; by rewrite E|intros p; by rewrite E]. Qed.

(** An UPDATE of runs that keeps their names. *)
Lemma quiet_update_runs p f : (∀ r, run_id (f r) = run_id r) → Quiet (update_runs p f).
Proof.
  intros Hf R -> w. unfold update_runs. rewrite bind_query. unfold id, guard_. destruct (runs_constraints _); [|reflexivity].
  apply quiet_same_meta; [done|]. apply find_run_ids. simpl. by apply map_update_rows.
Qed.
Lemma quiet_update_messages p f : Quiet (update_messages p f).
Proof. intros R -> w. by apply quiet_same_meta. Qed.
Lemma quiet_insert_message_row c r b : Quiet (insert_message_row c r b).
Proof.
  intros R -> w. unfold insert_message_row, query_row, mbind, M_bind. destruct (find_conversation _ _); [|reflexivity]. by apply quiet_same_meta.
Qed.
Lemma quiet_touch x now : Quiet (touch_conversation x now).
Proof. intros R -> w. by apply quiet_same_meta. Qed.
Lemma quiet_insert_conversation c : Quiet (insert_conversation c).
Proof. intros R -> w. unfold insert_conversation. rewrite bind_query. destruct (_ && _); [|reflexivity]. by apply quiet_same_meta. Qed.
Lemma find_run_app x d r : is_Some (find_run x d) → is_Some (List.find (λ r, bool_decide (run_id r = x)) (runs d ++ [r])).
Proof.
  unfold find_run. intros [y Hy]. exists y. revert Hy. induction (runs d) as [|z l IH]; [done|]. simpl. by case_bool_decide.
Qed.
Lemma quiet_insert_run r : Quiet (insert_run r).
Proof.
  intros R -> w. unfold insert_run, query_row, mbind, M_bind. destruct (find_conversation _ _); [|reflexivity]. simpl.
  destruct (runs_constraints _); [|reflexivity]. apply quiet_same_meta; [done|]. intros x Hx. by apply find_run_app.
Qed.
Lemma quiet_meta_insert k v : HasPrefix k "collaboration/" = false → Quiet (meta_insert k v).
Proof.
  intros Hk R -> w. unfold meta_insert. rewrite bind_query. unfold id, guard_. case_bool_decide as E; [|reflexivity].
  split; simpl; [done| |].
  - intros p n v' Hv. rewrite lookup_insert_ne; [done|]. intros ->. by rewrite E in Hv.
  - intros p. rewrite lookup_insert_ne; [done|]. intros ->. by rewrite collaborationKey_prefix in Hk.
Qed.
#[export] Hint Resolve quiet_update_messages quiet_insert_message_row quiet_touch quiet_insert_conversation quiet_insert_run : steps.
#[export] Hint Extern 1 (Along _ (update_runs _ _)) => apply quiet_update_runs; done : steps.
#[export] Hint Extern 1 (Along _ (meta_insert _ _)) => apply quiet_meta_insert; reflexivity : steps.

(** ** The invariant *)

(** What the books and controls of a record leave alone. *)
Definition same_child (c c' : childRecord) : Prop := ch_spec c' = ch_spec c ∧ ch_run c' = ch_run c ∧ ch_retired c' = ch_retired c.
Record same_plan (r r' : collaborationRecord) : Prop := {
  sm_parent : cr_parent r' = cr_parent r;
  sm_plan : cr_plan r' = cr_plan r;
  sm_children : Forall2 same_child (cr_children r) (cr_children r');
  sm_active : cr_active r' = cr_active r;
  sm_usage : us_children (cr_usage r') = us_children (cr_usage r) ∧ us_active_children (cr_usage r') = us_active_children (cr_usage r);
  sm_planning : cr_planning r' = cr_planning r;
  sm_revision : cr_revision r' = cr_revision r;
}.

(** Every revision is saved, the last one with the plan. *)
Definition history (d : db) (r : collaborationRecord) : Prop :=
  (1 <= cr_revision r)%Z ∧
  (∀ n, (1 <= n <= cr_revision r)%Z → ∃ v, meta d !! revisionKey (cr_parent r) n = Some (MRevision v) ∧ rv_revision v = n) ∧
  ∃ v, meta d !! revisionKey (cr_parent r) (cr_revision r) = Some (MRevision v) ∧ rv_plan v = cr_plan r.

Record record_ok (d : db) (r : collaborationRecord) : Prop := {
  ro_specs : map ch_spec (cr_children r) = pl_children (cr_plan r);
  ro_names : NoDup (map sp_name (pl_children (cr_plan r)));
  ro_live : depends_live r;
  ro_order : well_founded (before (pl_children (cr_plan r)));
  ro_runs : NoDup (map ch_run (cr_children r));
  ro_run : ∀ c, c ∈ cr_children r → is_Some (find_run (ch_run c) d);
  ro_active : ∀ n, n ∈ cr_active r → n ∈ live_names r;
  ro_leases : us_active_children (cr_usage r) = zlen (cr_active r) ∧ (zlen (cr_active r) <= Z.max 0 (pb_concurrent (pl_budget (cr_plan r))))%Z;
  ro_count : us_children (cr_usage r) = zlen (cr_children r) ∧ (zlen (cr_children r) <= Z.max 0 (pb_children (pl_budget (cr_plan r))))%Z;
  ro_history : cr_planning r = false → history d r;
  ro_planning : cr_planning r = true → cr_children r = [] ∧ cr_active r = [] ∧
    (cr_revision r = 1%Z ∨ is_Some (meta d !! revisionKey (cr_parent r) (cr_revision r)));
}.
Definition collabs_ok (d : db) : Prop :=
  ∀ p r, meta d !! collaborationKey p = Some (MCollaboration r) → cr_parent r = p ∧ record_ok d r.

Lemma keep_record_ok d d' r : (∀ x, is_Some (find_run x d) → is_Some (find_run x d')) →
  (∀ p n v, meta d !! revisionKey p n = Some v → meta d' !! revisionKey p n = Some v) → record_ok d r → record_ok d' r.
Proof.
  intros Q1 Q2 []. split; try done; [auto| |].
  - intros Hp. destruct (ro_history0 Hp) as (H1 & H2 & v & Hv & Ep). split; [done|]. split.
    + intros n Hn. destruct (H2 n Hn) as (v' & Hv' & E). eauto.
    + eauto.
  - intros Hp. destruct (ro_planning0 Hp) as (H1 & H2 & [H3|[v Hv]]); split_and!; try done; [by left|right; eauto].
Qed.
Lemma quiet_record_ok d d' r : quiet d d' → record_ok d r → record_ok d' r.
Proof. intros [Q1 Q2 _]. by apply keep_record_ok. Qed.
Definition put_record (r : collaborationRecord) (d : db) : db := set_meta (<[collaborationKey (cr_parent r) := MCollaboration r]> (meta d)) d.
Lemma put_keeps r d p n v : meta d !! revisionKey p n = Some v → meta (put_record r d) !! revisionKey p n = Some v.
Proof. intros Hv. simpl. rewrite lookup_insert_ne; [done|]. by intros E%eq_sym%revisionKey_not_record. Qed.
Lemma put_collabs_ok d r : collabs_ok d → record_ok d r → collabs_ok (put_record r d).
Proof.
  intros Hc Hr p x Hx. simpl in Hx. destruct (decide (cr_parent r = p)) as [<-|Hne].
  - rewrite lookup_insert_eq in Hx. injection Hx as <-. split; [done|]. eapply keep_record_ok; [|by intros; apply put_keeps|exact Hr]. done.
  - rewrite lookup_insert_ne in Hx by (intros E; apply Hne; unfold collaborationKey in E; by injection E).
    destruct (Hc p x Hx) as [E Ho]. split; [done|]. eapply keep_record_ok; [|by intros; apply put_keeps|exact Ho]. done.
Qed.
Lemma quiet_collabs_ok d d' : quiet d d' → collabs_ok d → collabs_ok d'.
Proof.
  intros Hq Hc p r Hr. rewrite (qt_records _ _ Hq) in Hr. destruct (Hc p r Hr) as [E Ho]. split; [done|]. by eapply quiet_record_ok.
Qed.

Lemma Forall2_map_in {A B C} (P : A → B → Prop) (f : B → C) (g : A → C) l k : Forall2 P l k →
  (∀ x y, x ∈ l → P x y → f y = g x) → map f k = map g l.
Proof.
  induction 1 as [|x y l k Hxy _ IH]; intros Hf; [done|]. simpl. rewrite (Hf x y), IH; [done| |by left|done]. intros a b Ha. apply Hf. by right.
Qed.
Lemma same_child_refl l : Forall2 same_child l l.
Proof. induction l; constructor; [by split_and!|done]. Qed.
Lemma same_child_maps l l' : Forall2 same_child l l' →
  map ch_spec l' = map ch_spec l ∧ map ch_run l' = map ch_run l ∧ length l' = length l ∧
  map ch_spec (filter (λ c, ch_retired c = false) l') = map ch_spec (filter (λ c, ch_retired c = false) l).
Proof.
  induction 1 as [|c c' l l' (E1 & E2 & E3) _ (I1 & I2 & I3 & I4)]; [done|]. simpl. rewrite E1, E2, I1, I2, I3. split_and!; try done.
  rewrite !filter_cons, E3. case_decide; simpl; by rewrite ?E1, I4.
Qed.
Lemma live_names_specs r : live_names r = map sp_name (map ch_spec (filter (λ c, ch_retired c = false) (cr_children r))).
Proof. unfold live_names. by rewrite map_map. Qed.
Lemma same_plan_refl r : same_plan r r.
Proof. split; try done. apply same_child_refl. Qed.
Lemma same_plan_trans r1 r2 r3 : same_plan r1 r2 → same_plan r2 r3 → same_plan r1 r3.
Proof.
  intros [A1 A2 A3 A4 [A5 A6] A7 A8] [B1 B2 B3 B4 [B5 B6] B7 B8]. split; try congruence; [|by split; congruence].
  clear -A3 B3. revert B3. generalize (cr_children r3). induction A3 as [|c c' l l' (E1 & E2 & E3) _ IH]; intros k Hk; inversion Hk as [|? ? ? ? (F1 & F2 & F3)]; subst; constructor; [|auto].
  split_and!; congruence.
Qed.
Lemma same_plan_live r r' : same_plan r r' → live_names r' = live_names r.
Proof. intros Hs. rewrite !live_names_specs. by destruct (same_child_maps _ _ (sm_children _ _ Hs)) as (_ & _ & _ & ->). Qed.

(** The controls, the books and the deliveries keep the invariant. *)
Lemma same_plan_ok d r r' : same_plan r r' → record_ok d r → record_ok d r'.
Proof.
  intros Hs Ho. pose proof (same_plan_live _ _ Hs) as Hl. destruct Hs as [E1 E2 E3 E4 [E5 E6] E7 E8].
  destruct (same_child_maps _ _ E3) as (M1 & M2 & M3 & _). destruct Ho. split; rewrite ?E2, ?E4, ?E5, ?E6, ?E7, ?M1, ?M2, ?Hl; try done.
  - intros c x Hc Hr Hx. rewrite Hl. apply list_elem_of_lookup in Hc as [i Hi].
    destruct (Forall2_lookup_r _ _ _ _ _ E3 Hi) as (c0 & Hc0 & F1 & _ & F3). apply list_elem_of_lookup_2 in Hc0.
    apply (ro_live0 c0 x); [done|congruence|by rewrite <- F1].
  - intros c Hc. apply list_elem_of_lookup in Hc as [i Hi]. destruct (Forall2_lookup_r _ _ _ _ _ E3 Hi) as (c0 & Hc0 & _ & -> & _).
    apply ro_run0. by eapply list_elem_of_lookup_2.
  - unfold zlen. rewrite M3. done.
  - unfold history. rewrite E1, E2, E8. done.
  - intros Hp. destruct (ro_planning0 Hp) as (H1 & H2 & H3). rewrite E1, E8. split_and!; try done. rewrite H1 in E3. by inversion E3.
Qed.

(** ** Changes of a record *)
Section changes.
Context {H : Host}.

Lemma change_ok parent edit w w' : change parent edit w = (Ok tt, w') →
  ∃ r r' w1, loadCollaboration parent w = (Ok r, w) ∧ edit r w = (Ok r', w1) ∧ w_db w' = put_record r' (w_db w1).
Proof.
  unfold change, transaction. destruct ((r ← loadCollaboration parent; r ← edit r; saveCollaboration r) w) as [[[]|e] w1] eqn:E; [|done].
  intros [= <-]. apply bind_ok in E as (r & w0 & El & E). pose proof (loadCollaboration_ok _ _ _ _ El) as (-> & _ & _).
  apply bind_ok in E as (r' & w2 & Ee & Es). exists r, r', w2. split_and!; try done. by apply saveCollaboration_ok.
Qed.
Lemma change_failed parent edit w e w' : change parent edit w = (Err e, w') → w_db w' = w_db w.
Proof.
  unfold change, transaction. destruct ((r ← loadCollaboration parent; r ← edit r; saveCollaboration r) w) as [[[]|e'] w1]; [done|]. by intros [= _ <-].
Qed.

(** A failed change changes nothing; a change that succeeds has put the edited
    record where the old one was. *)
Lemma change_cases parent edit w :
  w_db (change parent edit w).2 = w_db w ∨
  ∃ r r' w1, loadCollaboration parent w = (Ok r, w) ∧ edit r w = (Ok r', w1) ∧ w_db (change parent edit w).2 = put_record r' (w_db w1).
Proof.
  destruct (change parent edit w) as [[[]|e] w'] eqn:E; [right; by apply change_ok|left; by apply (change_failed _ _ _ _ _ E)].
Qed.
Lemma change_collabs_ok parent edit w :
  (∀ r r' w1, cr_parent r = parent → edit r w = (Ok r', w1) → record_ok (w_db w) r →
     quiet (w_db w) (w_db w1) ∧ record_ok (w_db w1) r') →
  collabs_ok (w_db w) → collabs_ok (w_db (change parent edit w).2).
Proof.
  intros He Hc. destruct (change_cases parent edit w) as [->|(r & r' & w1 & El & Ee & ->)]; [done|].
  pose proof (loadCollaboration_ok _ _ _ _ El) as (_ & Hr & _). destruct (Hc _ _ Hr) as [Ep Ho].
  destruct (He r r' w1 Ep Ee Ho) as [Hq Ho']. apply put_collabs_ok; [by eapply quiet_collabs_ok|done].
Qed.
(** An edit that only keeps books. *)
Lemma change_same_plan parent edit w :
  (∀ r, Quiet (edit r)) → (∀ r r' w1, edit r w = (Ok r', w1) → same_plan r r') →
  collabs_ok (w_db w) → collabs_ok (w_db (change parent edit w).2).
Proof.
  intros Hq Hs. apply change_collabs_ok. intros r r' w1 _ E Ho. pose proof (Hq r quiet eq_refl w) as Hx. rewrite E in Hx. simpl in Hx.
  split; [done|]. eapply quiet_record_ok; [exact Hx|]. eapply same_plan_ok; [by eapply Hs|done].
Qed.
End changes.
