(* ===== verification/RevisionProps.v ===== *)
(** * Revising a plan

    What an edit of a plan does to the children and to their runs: a plan stays
    one the scheduler can finish, dispatched work is never rewritten, and every
    form of the plan stays saved. *)

From S2P Require Import Prelude Text Utf8 Data Sql Store StoreInv StoreProps Budget BudgetProps Memory MemoryStore Workspace Profile Plan PlanProps Conflicts Evidence Results Report Schedule ScheduleProps Entry Revision RevisionInv.

(** ** The assignments of an edited plan *)

(** What an edit makes of an assignment of that name. *)
Definition pick (l : list ChildSpec) (s : ChildSpec) : ChildSpec := default s (List.find (λ x, bool_decide (sp_name x = sp_name s)) l).
Lemma pick_name l s : sp_name (pick l s) = sp_name s.
Proof. unfold pick. destruct (List.find _ l) as [x|] eqn:E; [|done]. by apply find_elem in E as [_ ?%bool_decide_eq_true]. Qed.
Lemma pick_other l s : sp_name s ∉ map sp_name l → pick l s = s.
Proof.
  intros Hs. unfold pick. destruct (List.find _ l) as [x|] eqn:E; [|done]. apply find_elem in E as [Hx E%bool_decide_eq_true]. destruct Hs.
  rewrite <- E. by apply list_elem_of_fmap_2.
Qed.
Lemma find_pick l s : NoDup (map sp_name l) → s ∈ l → List.find (λ x, bool_decide (sp_name x = sp_name s)) l = Some s.
Proof.
  induction l as [|x l IH]; [by intros _ ?%not_elem_of_nil|]. simpl. intros [Hx Hn]%NoDup_cons [->|Hs]%elem_of_cons; [by rewrite bool_decide_eq_true_2|].
  rewrite bool_decide_eq_false_2; [by apply IH|]. intros E. apply Hx. rewrite E. by apply list_elem_of_fmap_2.
Qed.

Lemma pick_names l k : map sp_name (map (pick l) k) = map sp_name k.
Proof. rewrite map_map. apply map_ext. intros x. apply pick_name. Qed.
Lemma map_pick_other l k : (∀ s, s ∈ k → sp_name s ∉ map sp_name l) → map (pick l) k = k.
Proof. intros Hk. rewrite <- (map_id k) at 2. apply map_ext_in. intros x Hx%list_elem_of_In. by apply pick_other, Hk. Qed.
Lemma pick_cons x l s : sp_name x ∉ map sp_name l → pick l (pick [x] s) = pick (x :: l) s.
Proof.
  intros Hx. unfold pick at 2 3. simpl. case_bool_decide as E; [by apply pick_other|done].
Qed.

(** Putting an assignment of a known name replaces it, another one is added. *)
Lemma put_spec_known s l : NoDup (map sp_name l) → sp_name s ∈ map sp_name l → put_spec s l = map (pick [s]) l.
Proof.
  induction l as [|x l IH]; [by intros _ ?%not_elem_of_nil|]. simpl. intros [Hx Hn]%NoDup_cons Hs. unfold pick at 1. simpl.
  destruct (decide (sp_name s = sp_name x)) as [E|Hne].
  - rewrite !bool_decide_eq_true_2 by done. simpl. f_equal. symmetry. apply map_pick_other. intros y Hy Ey. apply list_elem_of_singleton in Ey.
    apply Hx. rewrite <- E, <- Ey. by apply list_elem_of_fmap_2.
  - rewrite !bool_decide_eq_false_2 by done. simpl. f_equal. apply IH; [done|]. apply elem_of_cons in Hs as [?|?]; [congruence|done].
Qed.
Lemma put_spec_new s l : sp_name s ∉ map sp_name l → put_spec s l = l ++ [s].
Proof.
  induction l as [|x l IH]; [done|]. simpl. intros Hs. rewrite bool_decide_eq_false_2 by (intros E; apply Hs; rewrite E; by left).
  f_equal. apply IH. intros Hx. apply Hs. by right.
Qed.

Lemma upsert_specs_ok retire seen l children out : upsert_specs retire seen l children = Ok out → NoDup (map sp_name children) →
  (∀ n, n ∈ map sp_name l → n ∉ seen ∧ n ∉ retire) ∧
  ∃ new, out = map (pick l) children ++ new ∧ (∀ s, s ∈ new → sp_name s ∉ map sp_name children) ∧ NoDup (map sp_name out).
Proof.
  revert seen children. induction l as [|x l IH]; intros seen children E Hn.
  { injection E as <-. split; [by intros n ?%not_elem_of_nil|]. exists []. rewrite app_nil_r, map_pick_other by (intros s _; apply not_elem_of_nil).
    split_and!; [done|by intros s ?%not_elem_of_nil|done]. }
  simpl in E. apply res_bind_ok in E as ([] & [H1 H2]%check_ok%negb_true_iff%orb_false_iff & E). apply bool_decide_eq_false in H1, H2.
  destruct (decide (sp_name x ∈ map sp_name children)) as [Hk|Hk].
  - rewrite put_spec_known in E by done. destruct (IH _ _ E) as (Hs & new & -> & Hw & Hd); [by rewrite pick_names|].
    assert (Hx : sp_name x ∉ map sp_name l) by (intros Hx; destruct (Hs _ Hx) as [Hx' _]; apply Hx'; by left).
    split; [intros n [->|Hl]%elem_of_cons; [done|]; destruct (Hs n Hl) as [Ha Hb]; split; [intros Hz; apply Ha; by right|done]|].
    assert (Em : map (pick l) (map (pick [x]) children) = map (pick (x :: l)) children)
      by (rewrite map_map; apply map_ext; intros s; by apply pick_cons).
    rewrite Em in Hd. exists new. rewrite Em. split_and!; [done| |done]. intros s Hs' Hc. apply (Hw s Hs'). by rewrite pick_names.
  - rewrite put_spec_new in E by done.
    destruct (IH _ _ E) as (Hs & new & -> & Hw & Hd).
    { rewrite map_app. apply NoDup_app. split_and!; [done| |apply NoDup_singleton]. simpl. intros y Hy ->%list_elem_of_singleton. done. }
    assert (Hx : sp_name x ∉ map sp_name l) by (intros Hx; destruct (Hs _ Hx) as [Hx' _]; apply Hx'; by left).
    split; [intros n [->|Hl]%elem_of_cons; [done|]; destruct (Hs n Hl) as [Ha Hb]; split; [intros Hz; apply Ha; by right|done]|].
    assert (Em : map (pick l) (children ++ [x]) ++ new = map (pick (x :: l)) children ++ x :: new).
    { rewrite map_app. simpl. rewrite (pick_other l x Hx), <- app_assoc. simpl. f_equal. apply map_ext_in. intros s Hs'%list_elem_of_In.
      rewrite <- pick_cons by done. f_equal. symmetry. apply pick_other. simpl. intros E'%list_elem_of_singleton. apply Hk. rewrite <- E'. by apply list_elem_of_fmap_2. }
    rewrite Em in *. exists (x :: new). split_and!; [done| |done]. intros s [->|Hs']%elem_of_cons; [done|]. intros Hc. apply (Hw s Hs').
    rewrite map_app. apply elem_of_app. by left.
Qed.

(** ** The retired names *)
Lemma retire_names_ok seen l m m' : retire_names seen l m = Ok m' →
  (∀ n, n ∈ l → n ∉ seen ∧ m !! n = Some false) ∧ ∀ n, m' !! n = if bool_decide (n ∈ l) then Some true else m !! n.
Proof.
  revert seen m. induction l as [|x l IH]; intros seen m E.
  { injection E as <-. split; [by intros n ?%not_elem_of_nil|]. intros n. by rewrite bool_decide_eq_false_2 by apply not_elem_of_nil. }
  simpl in E. apply res_bind_ok in E as ([] & Hx%check_ok%negb_true_iff%bool_decide_eq_false & E).
  apply res_bind_ok in E as ([] & Hf%check_ok%bool_decide_eq_true & E). destruct (IH _ _ E) as [H1 H2]. split.
  - intros n [->|Hn]%elem_of_cons; [done|]. destruct (H1 n Hn) as [Hs Hm]. split; [intros Hs'; apply Hs; by right|].
    rewrite lookup_insert_ne in Hm; [done|]. intros ->. apply Hs. by left.
  - intros n. rewrite H2. destruct (decide (n ∈ l)) as [Hn|Hn]; [rewrite !bool_decide_eq_true_2; [done|by right|done]|].
    rewrite (bool_decide_eq_false_2 (n ∈ l)) by done. destruct (decide (n = x)) as [->|Hne].
    + rewrite lookup_insert_eq, bool_decide_eq_true_2; [done|by left].
    + rewrite lookup_insert_ne, bool_decide_eq_false_2; [done| |done]. by intros [?|?]%elem_of_cons.
Qed.
Lemma retired_map_lookup l c : NoDup (map (λ c, sp_name (ch_spec c)) l) → c ∈ l → retired_map l !! sp_name (ch_spec c) = Some (ch_retired c).
Proof.
  unfold retired_map. induction l as [|x l IH] using rev_ind; [by intros _ ?%not_elem_of_nil|]. intros Hn Hc. rewrite foldl_app. simpl.
  rewrite map_app in Hn. apply NoDup_app in Hn as (Hn & Hd & _). apply elem_of_app in Hc as [Hc| ->%list_elem_of_singleton].
  - rewrite lookup_insert_ne; [by apply IH|]. intros E. apply (Hd (sp_name (ch_spec c))); [by apply (list_elem_of_fmap_2 (λ c, sp_name (ch_spec c)))|].
    simpl. rewrite E. by left.
  - apply lookup_insert_eq.
Qed.
Lemma retired_map_none l n : n ∉ map (λ c, sp_name (ch_spec c)) l → retired_map l !! n = None.
Proof.
  unfold retired_map. induction l as [|x l IH] using rev_ind; [intros _; apply lookup_empty|]. rewrite map_app, foldl_app. simpl. intros Hn.
  rewrite lookup_insert_ne; [apply IH|]; intros E; apply Hn, elem_of_app; [by left|right; rewrite E; by left].
Qed.

Section edits.
Context {H : Host} {RH : ResultHost} {PR : ReportHost} {PH : PlanHost} {VH : RevisionHost}.

(** ** The runs of new children *)
Lemma quiet_at {A} (m : M A) w a w' : Quiet m → m w = (Ok a, w') → quiet (w_db w) (w_db w').
Proof. intros Hm E. specialize (Hm quiet eq_refl w). by rewrite E in Hm. Qed.
Lemma quiet_insertMessage r m : Quiet (insertMessage r m).
Proof. unfold insertMessage. solve_steps. Qed.
#[local] Hint Resolve quiet_insertMessage : steps.
Lemma quiet_insertPlannedRun c q p config : Quiet (insertPlannedRun c q p config).
Proof. unfold insertPlannedRun. solve_steps. Qed.
#[local] Hint Resolve quiet_insertPlannedRun : steps.
Lemma quiet_insertCollaborationRun ws t q p config : Quiet (insertCollaborationRun ws t q p config).
Proof. unfold insertCollaborationRun. solve_steps. Qed.
#[local] Hint Resolve quiet_insertCollaborationRun : steps.
Lemma quiet_savePlanRevision r source reason a : Quiet (savePlanRevision r source reason a).
Proof. unfold savePlanRevision. solve_steps. Qed.
#[local] Hint Resolve quiet_savePlanRevision : steps.
Lemma quiet_assign_children core parent q plan l : Quiet (assign_children core parent q plan l).
Proof. induction l as [|s l IH]; simpl; solve_steps. Qed.
#[local] Hint Resolve quiet_assign_children : steps.

(** A new run has a name no run had. *)
Lemma insert_run_fresh r w u w' : insert_run r w = (Ok u, w') → find_run (run_id r) (w_db w) = None ∧ is_Some (find_run (run_id r) (w_db w')).
Proof.
  unfold insert_run, query_row, mbind, M_bind. destruct (find_conversation _ _) as [c|]; [|done]. simpl. unfold guard_.
  destruct (runs_constraints _) eqn:E; [|done]. simpl. intros [= _ <-]. unfold runs_constraints in E. apply andb_true_iff in E as [E _].
  apply andb_true_iff in E as [E _]. apply andb_true_iff in E as [E%bool_decide_eq_true _]. rewrite map_app in E. apply NoDup_app in E as (_ & Hd & _).
  unfold find_run. simpl. split.
  - destruct (List.find _ (runs (w_db w))) as [x|] eqn:Ef; [|done]. apply find_elem in Ef as [Hx Ex%bool_decide_eq_true].
    exfalso. apply (Hd (run_id r)); [rewrite <- Ex; by apply list_elem_of_fmap_2|by left].
  - induction (runs (w_db w)) as [|x l IH]; simpl; [rewrite bool_decide_eq_true_2 by done; by eexists|].
    case_bool_decide; [by eexists|]. apply IH. intros y Hy. apply Hd. by right.
Qed.
Lemma insertPlannedRun_fresh c q p config w run w' : insertPlannedRun c q p config w = (Ok run, w') →
  find_run (run_id run) (w_db w) = None ∧ is_Some (find_run (run_id run) (w_db w')).
Proof.
  unfold insertPlannedRun. intros E. apply bind_ok in E as (rid & w1 & [= _ <-] & E). apply bind_ok in E as (c1 & w1 & [= _ <-] & E).
  apply bind_ok in E as (c2 & w1 & [= _ <-] & E). cbv zeta in E. apply bind_ok in E as ([] & w1 & Ei & E). apply insert_run_fresh in Ei as [Hn Hs].
  apply bind_ok in E as ([] & w2 & Em & [<- <-]%ret_ok). split; [done|].
  assert (Hq : quiet (w_db w1) (w_db w2)); [|by apply (qt_runs _ _ Hq)]. revert Em. apply quiet_at. solve_steps.
Qed.
Lemma insertCollaborationRun_fresh ws t q p config w run w' : insertCollaborationRun ws t q p config w = (Ok run, w') →
  find_run (run_id run) (w_db w) = None ∧ is_Some (find_run (run_id run) (w_db w')).
Proof.
  unfold insertCollaborationRun. intros E. apply bind_ok in E as (cid & w1 & [= _ <-] & E). apply bind_ok in E as (c1 & w1 & [= _ <-] & E).
  apply bind_ok in E as (c2 & w1 & [= _ <-] & E). cbv zeta in E. apply bind_ok in E as ([] & w1 & Ec & E).
  apply bind_ok in E as (run' & w2 & Er & E). apply bind_ok in E as ([] & w3 & Em & [<- <-]%ret_ok). apply insertPlannedRun_fresh in Er as [Hn Hs].
  split.
  - apply eq_None_not_Some. intros Hx. apply eq_None_not_Some in Hn. apply Hn.
    pose proof (quiet_at _ _ _ _ (quiet_insert_conversation _) Ec) as Hq. by apply (qt_runs _ _ Hq).
  - assert (Hq : quiet (w_db w2) (w_db w3)); [|by apply (qt_runs _ _ Hq)]. revert Em. apply quiet_at. solve_steps.
Qed.

Lemma assign_children_ok core parent q plan l w cs w' : assign_children core parent q plan l w = (Ok cs, w') →
  map ch_spec cs = l ∧ NoDup (map ch_run cs) ∧
  ∀ c, c ∈ cs → find_run (ch_run c) (w_db w) = None ∧ is_Some (find_run (ch_run c) (w_db w')) ∧ ch_retired c = false.
Proof.
  revert w cs w'. induction l as [|s l IH]; intros w cs w' E.
  { injection E as <- <-. split_and!; [done|constructor|by intros c ?%not_elem_of_nil]. }
  simpl in E. apply bind_ok in E as (x & w1 & [_ <-]%lift_ok & E). apply bind_ok in E as (run & w1 & Er & E).
  apply bind_ok in E as ([] & w2 & Em & E). apply bind_ok in E as (cs' & w3 & Ec & [<- <-]%ret_ok).
  pose proof (insertCollaborationRun_fresh _ _ _ _ _ _ _ _ Er) as [Hn Hs]. pose proof (quiet_at _ _ _ _ (quiet_insertCollaborationRun _ _ _ _ _) Er) as Q1.
  assert (Q2 : quiet (w_db w1) (w_db w2)) by (revert Em; apply quiet_at; solve_steps).
  pose proof (quiet_at _ _ _ _ (quiet_assign_children core parent q plan l) Ec) as Q3. destruct (IH _ _ _ Ec) as (<- & Hd & Hc).
  assert (Hrun : is_Some (find_run (run_id run) (w_db w2))) by (by apply (qt_runs _ _ Q2)). split_and!; [done| |].
  - simpl. apply NoDup_cons. split; [|done]. intros Hx. apply list_elem_of_fmap in Hx as (c & Ex & Hc'). destruct (Hc c Hc') as (Hno & _ & _).
    rewrite Ex, Hno in Hrun. by destruct Hrun.
  - intros c [->|Hc']%elem_of_cons; simpl; [split_and!; [done|by apply (qt_runs _ _ Q3)|done]|]. destruct (Hc c Hc') as (Hno & Hyes & Hr).
    split_and!; [|done|done]. apply eq_None_not_Some. intros Hx. apply eq_None_not_Some in Hno. apply Hno.
    apply (qt_runs _ _ Q2), (qt_runs _ _ Q1), Hx.
Qed.

(** ** The children an edit names *)
Lemma quiet_revise_child core edit plan parent active c : Quiet (revise_child core edit plan parent active c).
Proof. unfold revise_child. solve_steps. Qed.
#[local] Hint Resolve quiet_revise_child : steps.
Lemma quiet_revise_children core edit plan parent active l : Quiet (revise_children core edit plan parent active l).
Proof. induction l as [|c l IH]; simpl; solve_steps. Qed.
#[local] Hint Resolve quiet_revise_children : steps.

Definition named (edit : CollaborationEdit) (c : childRecord) : Prop := sp_name (ch_spec c) ∈ map sp_name (ed_upsert edit) ++ ed_retire edit.
(** What becomes of a child. *)
Definition revised (edit : CollaborationEdit) (plan : CollaborationPlan) (active : list string) (c c' : childRecord) : Prop :=
  ch_run c' = ch_run c ∧
  (¬ named edit c ∧ c' = c ∨
   named edit c ∧ ch_retired c = false ∧ sp_name (ch_spec c) ∉ active ∧
     if bool_decide (sp_name (ch_spec c) ∈ ed_retire edit) then ch_spec c' = ch_spec c ∧ ch_retired c' = true
     else ch_retired c' = false ∧ List.find (λ s, bool_decide (sp_name s = sp_name (ch_spec c))) (pl_children plan) = Some (ch_spec c')).
Lemma revise_child_ok core edit plan parent active c w c' w' : revise_child core edit plan parent active c w = (Ok c', w') → named edit c →
  revised edit plan active c c'.
Proof.
  unfold revise_child. cbv zeta. intros E Hc. apply bind_ok in E as ([] & w1 & [Hg%negb_true_iff%orb_false_iff <-]%guard_ok & E).
  destruct Hg as [Hr Ha%bool_decide_eq_false]. apply bind_ok in E as (run & w1 & [Hrun <-]%query_row_ok & E). rewrite bind_query in E.
  apply bind_ok in E as ([] & w1 & [_ <-]%guard_ok & E). unfold revised. case_bool_decide as Hin.
  - apply bind_ok in E as ([] & w1 & [_ <-]%guard_ok & E). case_bool_decide.
    + apply bind_ok in E as (now & w2 & _ & E). apply bind_ok in E as (n & w3 & _ & [<- _]%ret_ok). split; [done|]. by right.
    + apply ret_ok in E as [<- _]. split; [done|]. by right.
  - apply bind_ok in E as ([] & w1 & [_ <-]%guard_ok & E). destruct (List.find _ _) as [spec|]; [|by apply fail_ok in E].
    apply bind_ok in E as (x & w2 & _ & E). apply bind_ok in E as (now & w3 & _ & E). apply bind_ok in E as (n & w4 & _ & E).
    apply bind_ok in E as (n' & w5 & _ & [<- _]%ret_ok). split; [done|]. right. by split_and!.
Qed.
Lemma revise_children_ok core edit plan parent active l w l' w' : revise_children core edit plan parent active l w = (Ok l', w') →
  Forall2 (revised edit plan active) l l'.
Proof.
  revert w l' w'. induction l as [|c l IH]; intros w l' w' E; simpl in E; [apply ret_ok in E as [<- _]; constructor|].
  apply bind_ok in E as (c' & w1 & Ec & E). apply bind_ok in E as (rest & w2 & Er & [<- _]%ret_ok). constructor; [|by eapply IH].
  case_bool_decide as Hn; [by eapply revise_child_ok|]. apply ret_ok in Ec as [<- _]. split; [done|]. by left.
Qed.

(** ** Validated plans *)
Lemma validate_plan_ok core fresh plan : validate_plan core fresh plan = Ok tt →
  plan_fits core fresh plan ∧ well_founded (before (pl_children plan)).
Proof.
  unfold validate_plan, plan_validate. pose proof (static_checks core fresh (map_to_list (pl_roles plan)) plan (reflexivity _)) as Hs. revert Hs.
  match goal with |- (?x = _ ↔ _) → _ => destruct x as [[]|e] end; intros Hs; [|done]. pose proof (proj1 Hs eq_refl) as Hp. clear Hs.
  destruct (check_order_acyclic (graph_of (pl_children plan)) (map sp_name (pl_children plan))) as (r & -> & _ & Ha).
  - intros a b (c & Hc & _ & Hx)%depends_before; [|by apply (ok_names _ _ _ Hp)]. apply graph_of_dom. by apply (ok_depends _ _ _ Hp c Hc).
  - intros x. by rewrite graph_of_dom.
  - intros ->. pose proof (proj1 Ha eq_refl) as Hac. split; [done|]. apply (plan_wf _ _ _ Hp). intros x Ht. apply (Hac x).
    eapply tc_congruence with (f := id); [|exact Ht]. intros a b Hab. by apply depends_before, Hab; apply (ok_names _ _ _ Hp).
Qed.

(** ** The saved revision *)
Lemma savePlanRevision_ok r source reason a w w' : savePlanRevision r source reason a w = (Ok tt, w') →
  (1 <= cr_revision r <= 64)%Z ∧ meta (w_db w) !! revisionKey (cr_parent r) (cr_revision r) = None ∧
  ∃ v, meta (w_db w') !! revisionKey (cr_parent r) (cr_revision r) = Some (MRevision v) ∧ rv_revision v = cr_revision r ∧ rv_plan v = cr_plan r.
Proof.
  unfold savePlanRevision. intros E. apply bind_ok in E as ([] & w1 & [Hw%within_iff <-]%guard_ok & E). apply bind_ok in E as (now & w1 & [= <- <-] & E).
  cbv zeta in E. apply bind_ok in E as ([] & w1 & [_ <-]%guard_ok & E). unfold meta_insert in E. rewrite bind_query in E. unfold id in E.
  apply bind_ok in E as ([] & w1 & [Hn%bool_decide_eq_true <-]%guard_ok & E). injection E as <-. simpl in *. split_and!; [lia..|done|].
  eexists. rewrite lookup_insert_eq. by split.
Qed.
(** A revision that follows the saved ones keeps the history whole. *)
Lemma history_next d d' r r' : quiet d d' → history d r → cr_parent r' = cr_parent r → cr_revision r' = (cr_revision r + 1)%Z →
  (∃ v, meta d' !! revisionKey (cr_parent r') (cr_revision r') = Some (MRevision v) ∧ rv_revision v = cr_revision r' ∧ rv_plan v = cr_plan r') →
  history d' r'.
Proof.
  intros Hq (H1 & H2 & _) Ep Er (v & Hv & Ev & Epl). split; [lia|]. split; [|by exists v].
  intros n Hn. destruct (decide (n = cr_revision r')) as [->|Hne]; [by exists v|]. destruct (H2 n ltac:(lia)) as (v' & Hv' & E). exists v'.
  rewrite Ep. split; [by apply (qt_history _ _ Hq)|done].
Qed.

(** ** An edit, step by step *)
Lemma quiet_definite_attempt x : Quiet (definite_attempt x).
Proof. unfold definite_attempt. solve_steps. Qed.
#[local] Hint Resolve quiet_definite_attempt : steps.
Lemma quiet_applyPlanEdit core edit source a r : Quiet (applyPlanEdit core edit source a r).
Proof. unfold applyPlanEdit. solve_steps. Qed.

Record edit_done (core : Core) (edit : CollaborationEdit) (r r0 r' : collaborationRecord) (children : list ChildSpec) (retired : gmap string bool)
    (old new : list childRecord) (w w1 w2 w3 : world) : Prop := {
  de_open : cr_planning r = false;
  de_old : r0 = r ∨ r0 = set_replan "" r;
  de_upsert : upsert_specs (ed_retire edit) [] (ed_upsert edit) (pl_children (cr_plan r)) = Ok children;
  de_budget : (us_children (cr_usage r) + (zlen children - zlen (pl_children (cr_plan r))) <= pb_children (pl_budget (cr_plan r)))%Z;
  de_fits : ∃ fresh, plan_fits core fresh (edited_plan edit (cr_plan r) children);
  de_order : well_founded (before children);
  de_retired : retire_names (map sp_name (ed_upsert edit)) (ed_retire edit) (retired_map (cr_children r)) = Ok retired;
  de_live : live_dependencies retired children = true;
  de_before : w_db w1 = w_db w;
  de_revise : revise_children core edit (edited_plan edit (cr_plan r) children) (cr_parent r) (cr_active r) (cr_children r) w1 = (Ok old, w2);
  de_assign : ∃ q, assign_children core (cr_parent r) q (edited_plan edit (cr_plan r) children) (drop (length (pl_children (cr_plan r))) children) w2 = (Ok new, w3);
  de_record : r' = set_revised (edited_plan edit (cr_plan r) children) (old ++ new) (zlen children - zlen (pl_children (cr_plan r))) r0;
}.
#[global] Arguments de_open {_ _ _ _ _ _ _ _ _ _ _ _ _}.
#[global] Arguments de_old {_ _ _ _ _ _ _ _ _ _ _ _ _}.
#[global] Arguments de_upsert {_ _ _ _ _ _ _ _ _ _ _ _ _}.
#[global] Arguments de_budget {_ _ _ _ _ _ _ _ _ _ _ _ _}.
#[global] Arguments de_fits {_ _ _ _ _ _ _ _ _ _ _ _ _}.
#[global] Arguments de_order {_ _ _ _ _ _ _ _ _ _ _ _ _}.
#[global] Arguments de_retired {_ _ _ _ _ _ _ _ _ _ _ _ _}.
#[global] Arguments de_live {_ _ _ _ _ _ _ _ _ _ _ _ _}.
#[global] Arguments de_before {_ _ _ _ _ _ _ _ _ _ _ _ _}.
#[global] Arguments de_revise {_ _ _ _ _ _ _ _ _ _ _ _ _}.
#[global] Arguments de_assign {_ _ _ _ _ _ _ _ _ _ _ _ _}.
#[global] Arguments de_record {_ _ _ _ _ _ _ _ _ _ _ _ _}.
Lemma applyPlanEdit_done core edit source a r w r' w' : applyPlanEdit core edit source a r w = (Ok r', w') →
  ∃ r0 children retired old new w1 w2 w3, edit_done core edit r r0 r' children retired old new w w1 w2 w3 ∧
    savePlanRevision r' source (ed_reason edit) a w3 = (Ok tt, w').
Proof.
  unfold applyPlanEdit. intros E. apply bind_ok in E as ([] & w0 & [_ <-]%guard_ok & E). apply bind_ok in E as (parent & w0 & [Hp <-]%query_row_ok & E).
  apply find_elem in Hp as [_ Hp%bool_decide_eq_true].
  apply bind_ok in E as ([] & w0 & [Hg%negb_true_iff <-]%guard_ok & E). apply bind_ok in E as ([] & w0 & [_ <-]%guard_ok & E).
  apply orb_false_iff in Hg as [Hg _]. apply orb_false_iff in Hg as [Hg _]. apply orb_false_iff in Hg as [Hplan _].
  apply bind_ok in E as ([] & w0 & E0 & E). assert (w0 = w) as ->.
  { destruct (bool_decide (cr_synthesis_attempt r = "")); [by apply ret_ok in E0 as [_ <-]|]. unfold definite_attempt in E0. apply bind_ok in E0 as (x & w1 & [_ <-]%query_row_ok & E0).
    by apply guard_ok in E0 as [_ <-]. }
  clear E0. apply bind_ok in E as (r0 & w0 & E0 & E). assert (w0 = w ∧ (r0 = r ∨ r0 = set_replan "" r)) as [-> Hr0].
  { destruct (_ && _); [|apply ret_ok in E0 as [<- <-]; auto]. apply bind_ok in E0 as ([] & w1 & Ed & [<- <-]%ret_ok). unfold definite_attempt in Ed.
    apply bind_ok in Ed as (x & w2 & [_ <-]%query_row_ok & Ed). apply guard_ok in Ed as [_ <-]. auto. }
  clear E0. assert (Hsame : cr_plan r0 = cr_plan r ∧ cr_children r0 = cr_children r ∧ cr_usage r0 = cr_usage r ∧ cr_active r0 = cr_active r) by (by destruct Hr0 as [->| ->]).
  destruct Hsame as (S1 & S2 & S3 & S4). rewrite S1, S2, S3, S4 in E.
  apply bind_ok in E as ([] & w0 & [_ <-]%guard_ok & E). apply bind_ok in E as ([] & w0 & [_ <-]%guard_ok & E).
  apply bind_ok in E as (children & w0 & [Hu <-]%lift_ok & E). cbv zeta in E. apply bind_ok in E as ([] & w0 & [Hb%Z.leb_le <-]%guard_ok & E).
  apply bind_ok in E as (fresh & w1 & Ef & E). assert (Hdb : w_db w1 = w_db w) by (by injection Ef as _ <-). clear Ef.
  apply bind_ok in E as ([] & w0 & [Hv <-]%lift_ok & E). apply bind_ok in E as (retired & w0 & [Hret <-]%lift_ok & E).
  apply bind_ok in E as ([] & w0 & [Hlive <-]%guard_ok & E). apply bind_ok in E as (old & w2 & Ho & E). apply bind_ok in E as (new & w3 & Hn & E).
  apply bind_ok in E as ([] & w4 & Hs & [<- <-]%ret_ok). apply validate_plan_ok in Hv as [Hfit Hwf].
  exists r0, children, retired, old, new, w1, w2, w3. split; [|done]. rewrite Hp in Ho, Hn. split; try done; by eexists.
Qed.

Section done_edit.
Context {core : Core} {edit : CollaborationEdit} {r r0 r' : collaborationRecord} {children : list ChildSpec} {retired : gmap string bool}
  {old new : list childRecord} {w w1 w2 w3 : world}.
Hypothesis Hd : edit_done core edit r r0 r' children retired old new w w1 w2 w3.
Hypothesis Hok : record_ok (w_db w) r.

Lemma done_revised : Forall2 (revised edit (edited_plan edit (cr_plan r) children) (cr_active r)) (cr_children r) old.
Proof. eapply revise_children_ok, (de_revise Hd). Qed.
Lemma done_names : NoDup (map (λ c, sp_name (ch_spec c)) (cr_children r)).
Proof. rewrite <- (map_map ch_spec sp_name), (ro_specs _ _ Hok). apply (ro_names _ _ Hok). Qed.
(** The assignments: the old ones, edited, and the new ones. *)
Lemma done_children : ∃ fresh_specs, children = map (pick (ed_upsert edit)) (pl_children (cr_plan r)) ++ fresh_specs ∧
  drop (length (pl_children (cr_plan r))) children = fresh_specs ∧ NoDup (map sp_name children) ∧
  (∀ s, s ∈ fresh_specs → sp_name s ∉ map sp_name (pl_children (cr_plan r))) ∧
  ∀ n, n ∈ map sp_name (ed_upsert edit) → n ∉ ed_retire edit.
Proof.
  destruct (upsert_specs_ok _ _ _ _ _ (de_upsert Hd) (ro_names _ _ Hok)) as (H1 & k & Ek & H2 & H3).
  exists k. split; [done|]. split; [|split_and!; [done|done|by intros n Hn; apply H1]].
  rewrite Ek. rewrite <- (length_map (pick (ed_upsert edit))). apply drop_app_length.
Qed.
(** The record of a child names the assignment the plan has. *)
Lemma done_old_spec c c' : c ∈ cr_children r → revised edit (edited_plan edit (cr_plan r) children) (cr_active r) c c' →
  ch_spec c' = pick (ed_upsert edit) (ch_spec c).
Proof.
  intros Hc (_ & [[Hn ->]|(Hn & _ & _ & Hx)]).
  - symmetry. apply pick_other. intros Hu. apply Hn. apply elem_of_app. by left.
  - destruct done_children as (k & Ek & _ & Hnd & _ & Hur). case_bool_decide as Hin.
    + destruct Hx as [-> _]. symmetry. apply pick_other. intros Hu. by apply (Hur _ Hu).
    + destruct Hx as [_ Hx]. cbn [edited_plan pl_children] in Hx. rewrite <- (pick_name (ed_upsert edit) (ch_spec c)) in Hx. rewrite find_pick in Hx; [by injection Hx|done|].
      rewrite Ek. apply elem_of_app. left. apply list_elem_of_fmap_2. rewrite <- (ro_specs _ _ Hok). by apply list_elem_of_fmap_2.
Qed.
Lemma done_old_name c c' : revised edit (edited_plan edit (cr_plan r) children) (cr_active r) c c' → c ∈ cr_children r → sp_name (ch_spec c') = sp_name (ch_spec c).
Proof. intros Hr Hc. rewrite (done_old_spec c c' Hc Hr). apply pick_name. Qed.
Lemma done_old_specs : map ch_spec old = map (pick (ed_upsert edit)) (pl_children (cr_plan r)).
Proof.
  rewrite <- (ro_specs _ _ Hok), map_map. apply (Forall2_map_in _ _ _ _ _ done_revised). intros c c' Hc Hr. by apply done_old_spec.
Qed.
Lemma done_new : map ch_spec new = drop (length (pl_children (cr_plan r))) children ∧ NoDup (map ch_run new) ∧
  ∀ c, c ∈ new → find_run (ch_run c) (w_db w2) = None ∧ is_Some (find_run (ch_run c) (w_db w3)) ∧ ch_retired c = false.
Proof. destruct (de_assign Hd) as [q Hn]. by apply (assign_children_ok _ _ _ _ _ _ _ _ Hn). Qed.
Lemma done_specs : map ch_spec (old ++ new) = children.
Proof.
  destruct done_children as (k & Ek & Edrop & _). rewrite map_app, done_old_specs, (proj1 done_new), Edrop. done.
Qed.
Lemma done_old_runs : map ch_run old = map ch_run (cr_children r).
Proof. apply (Forall2_map_in _ _ _ _ _ done_revised). by intros c c' _ [E _]. Qed.
Lemma done_quiet : quiet (w_db w) (w_db w2) ∧ quiet (w_db w2) (w_db w3).
Proof.
  rewrite <- (de_before Hd). split.
  - eapply quiet_at; [|exact (de_revise Hd)]. apply quiet_revise_children.
  - destruct (de_assign Hd) as [q Hn]. eapply quiet_at; [|exact Hn]. apply quiet_assign_children.
Qed.

(** Whom the map of retired names names. *)
Lemma done_retired c c' : c ∈ cr_children r → revised edit (edited_plan edit (cr_plan r) children) (cr_active r) c c' →
  is_retired retired (sp_name (ch_spec c')) = ch_retired c'.
Proof.
  intros Hc Hr. rewrite (done_old_name c c' Hr Hc). destruct (retire_names_ok _ _ _ _ (de_retired Hd)) as [_ Hl].
  unfold is_retired. rewrite Hl, (retired_map_lookup _ _ done_names Hc). destruct Hr as (_ & [[Hn ->]|(Hn & Hre & _ & Hx)]).
  - rewrite bool_decide_eq_false_2; [done|]. intros Hx. apply Hn, elem_of_app. by right.
  - destruct (bool_decide (sp_name (ch_spec c) ∈ ed_retire edit)); destruct Hx as [E1 E2]; by rewrite ?E1, ?E2, ?Hre.
Qed.
Lemma done_retired_new c : c ∈ new → is_retired retired (sp_name (ch_spec c)) = false.
Proof.
  intros Hc. destruct done_children as (k & _ & Edrop & _ & Hk & _). assert (Hs : ch_spec c ∈ k).
  { rewrite <- Edrop, <- (proj1 done_new). by apply list_elem_of_fmap_2. }
  destruct (retire_names_ok _ _ _ _ (de_retired Hd)) as [Hin Hl]. unfold is_retired. rewrite Hl.
  assert (Hno : sp_name (ch_spec c) ∉ map (λ c, sp_name (ch_spec c)) (cr_children r))
    by (rewrite <- (map_map ch_spec sp_name), (ro_specs _ _ Hok); by apply Hk).
  pose proof (retired_map_none _ _ Hno) as Hnone. rewrite Hnone, bool_decide_eq_false_2; [done|]. intros Hx. destruct (Hin _ Hx) as [_ Hf].
  by rewrite Hnone in Hf.
Qed.
Lemma done_retired_all c : c ∈ old ++ new → is_retired retired (sp_name (ch_spec c)) = ch_retired c.
Proof.
  intros [Hc|Hc]%elem_of_app.
  - apply list_elem_of_lookup in Hc as [i Hi]. destruct (Forall2_lookup_r _ _ _ _ _ done_revised Hi) as (c0 & Hc0 & Hr).
    apply (done_retired c0 c); [by eapply list_elem_of_lookup_2|done].
  - rewrite done_retired_new by done. by destruct (proj2 (proj2 done_new) c Hc) as (_ & _ & ->).
Qed.

(** The edited record keeps every promise. *)
Lemma done_live : depends_live r'.
Proof.
  rewrite (de_record Hd). intros c d Hc Hr Hx. unfold live_names. cbn [set_revised cr_children] in *.
  pose proof (de_live Hd) as Hl. unfold live_dependencies in Hl. rewrite forallb_forall in Hl.
  assert (Hs : ch_spec c ∈ children) by (rewrite <- done_specs; by apply list_elem_of_fmap_2).
  specialize (Hl _ (proj1 (list_elem_of_In _ _) Hs)). rewrite (done_retired_all c Hc), Hr in Hl. simpl in Hl. rewrite forallb_forall in Hl.
  specialize (Hl _ (proj1 (list_elem_of_In _ _) Hx)). apply negb_true_iff in Hl.
  destruct (de_fits Hd) as [fresh Hf]. destruct (ok_depends _ _ _ Hf _ Hs) as [_ Hdep]. destruct (Hdep d Hx) as [Hin _].
  cbn [edited_plan pl_children] in Hin. rewrite <- done_specs, map_map in Hin. apply list_elem_of_fmap in Hin as (c' & -> & Hc').
  apply (list_elem_of_fmap_2 (λ c, sp_name (ch_spec c))). apply list_elem_of_filter. split; [|done]. by rewrite <- (done_retired_all c').
Qed.
Lemma done_runs : NoDup (map ch_run (old ++ new)) ∧ ∀ c, c ∈ old ++ new → is_Some (find_run (ch_run c) (w_db w3)).
Proof.
  destruct done_new as (_ & Hn & Hc). destruct done_quiet as [Q1 Q2].
  assert (Ho : ∀ x, x ∈ map ch_run old → is_Some (find_run x (w_db w2))).
  { intros x. rewrite done_old_runs. intros (c & -> & Hx)%list_elem_of_fmap. apply (qt_runs _ _ Q1). by apply (ro_run _ _ Hok). }
  split.
  - rewrite map_app. apply NoDup_app. split; [rewrite done_old_runs; apply (ro_runs _ _ Hok)|]. split; [|done].
    intros x Hx (c & -> & Hc')%list_elem_of_fmap. destruct (Hc c Hc') as (E & _). apply Ho in Hx. rewrite E in Hx. by destruct Hx.
  - intros c [Hx|Hx]%elem_of_app; [|by apply Hc]. apply (qt_runs _ _ Q2), Ho. by apply list_elem_of_fmap_2.
Qed.
Lemma done_active n : n ∈ cr_active r → n ∈ live_names r'.
Proof.
  intros Hn. pose proof (ro_active _ _ Hok n Hn) as Hl. unfold live_names in *. apply list_elem_of_fmap in Hl as (c & -> & Hc).
  apply list_elem_of_filter in Hc as [Hr Hc]. apply list_elem_of_lookup in Hc as [i Hi].
  destruct (Forall2_lookup_l _ _ _ _ _ done_revised Hi) as (c' & Hc' & _ & [[_ ->]|(_ & _ & Ha & _)]); [|done].
  apply (list_elem_of_fmap_2 (λ c, sp_name (ch_spec c))). apply list_elem_of_filter. split; [done|].
  rewrite (de_record Hd). apply elem_of_app. left. by eapply list_elem_of_lookup_2.
Qed.
Lemma done_length : zlen (old ++ new) = zlen children ∧ zlen (pl_children (cr_plan r)) = zlen (cr_children r).
Proof. rewrite <- done_specs. unfold zlen. rewrite !length_map, <- (ro_specs _ _ Hok), length_map. done. Qed.
Lemma done_record_ok d : quiet (w_db w3) d → history d r' → record_ok d r'.
Proof.
  intros Hq Hh. destruct done_length as [L1 L2]. destruct done_runs as [R1 R2]. pose proof done_specs as Hs. pose proof done_live as Hl. pose proof done_active as Ha.
  pose proof (de_order Hd) as Hw. destruct done_children as (_ & _ & _ & Hnd & _). pose proof (de_budget Hd) as Hb. pose proof (de_open Hd) as Hp.
  destruct (ro_leases _ _ Hok) as [La Lb]. destruct (ro_count _ _ Hok) as [Ca Cb].
  assert (Hsame : cr_usage r0 = cr_usage r ∧ cr_active r0 = cr_active r ∧ cr_planning r0 = cr_planning r)
    by (destruct (de_old Hd) as [->| ->]; done). destruct Hsame as (S1 & S2 & S3).
  rewrite (de_record Hd) in *.
  split; cbn [set_revised cr_children cr_plan cr_usage cr_active cr_planning edited_plan pl_children pl_budget us_children us_active_children] in *;
    rewrite ?S1, ?S2, ?S3 in *; try done; [intros c Hc; by apply (qt_runs _ _ Hq), R2|rewrite L1; lia|]. intros E. congruence.
Qed.
End done_edit.

(** A record the edit is applied to keeps its invariant. *)
Lemma edit_record_ok core edit source a r w r' w' : applyPlanEdit core edit source a r w = (Ok r', w') → record_ok (w_db w) r →
  quiet (w_db w) (w_db w') ∧ record_ok (w_db w') r'.
Proof.
  intros E Ho. split; [revert E; apply quiet_at, quiet_applyPlanEdit|].
  destruct (applyPlanEdit_done _ _ _ _ _ _ _ _ E) as (r0 & children & retired & old & new & w1 & w2 & w3 & Hd & Hs).
  pose proof (quiet_at _ _ _ _ (quiet_savePlanRevision _ _ _ _) Hs) as Q3. destruct (done_quiet Hd) as [Q1 Q2]. apply (done_record_ok Hd Ho); [done|].
  apply savePlanRevision_ok in Hs as (_ & _ & Hv).
  apply (history_next (w_db w) (w_db w') r r'); [by etrans; [|etrans]|by apply (ro_history _ _ Ho), (de_open Hd)| | |done]; rewrite (de_record Hd); by destruct (de_old Hd) as [->| ->].
Qed.
End edits.
