(* ===== verification/RevisionWork.v ===== *)
(** * What an edit of a plan leaves alone

    Dispatched work is history: an edit adds runs, gives a run that has not begun
    its new assignment, and touches nothing else of the runs and the attempts. *)

From S2P Require Import Prelude Text Utf8 Data Sql Store StoreInv StoreProps Budget BudgetProps Memory MemoryStore Workspace Profile Plan PlanProps Conflicts Evidence Results Report Schedule ScheduleProps Entry Revision RevisionInv RevisionProps.

Record kept (d d' : db) : Prop := {
  kp_attempts : attempts d' = attempts d;
  kp_runs : ∀ x run, find_run x d = Some run → run_steps run ≠ 0%Z → find_run x d' = Some run;
}.
#[export] Instance kept_pre : PreOrder kept.
Proof. split; [by split|]. intros a b c [A1 A2] [B1 B2]. split; [by rewrite B1|auto]. Qed.
Notation Kept := (Along (λ R, R = kept)).
#[export] Instance kept_closed : Closed (λ R, R = kept).
Proof. intros R ->. apply _. Qed.
#[export] Hint Resolve kept_closed : steps.

Lemma kept_same d d' : attempts d' = attempts d → runs d' = runs d → kept d d'.
Proof. intros Ea Er. split; [done|]. intros x run. unfold find_run. by rewrite Er. Qed.
Lemma kept_update_messages p f : Kept (update_messages p f).
Proof. intros R -> w. by apply kept_same. Qed.
Lemma kept_insert_message_row c r b : Kept (insert_message_row c r b).
Proof.
  intros R -> w. unfold insert_message_row, query_row, mbind, M_bind. destruct (find_conversation _ _); [|reflexivity]. by apply kept_same.
Qed.
Lemma kept_touch x now : Kept (touch_conversation x now).
Proof. intros R -> w. by apply kept_same. Qed.
Lemma kept_insert_conversation c : Kept (insert_conversation c).
Proof. intros R -> w. unfold insert_conversation. rewrite bind_query. destruct (_ && _); [|reflexivity]. by apply kept_same. Qed.
Lemma kept_meta_insert k v : Kept (meta_insert k v).
Proof. intros R -> w. unfold meta_insert. rewrite bind_query. unfold guard_. destruct (bool_decide _); [by apply kept_same|reflexivity]. Qed.
Lemma find_app_some {A} (p : A → bool) l k x : List.find p l = Some x → List.find p (l ++ k) = Some x.
Proof. induction l as [|y l IH]; [done|]. simpl. by destruct (p y). Qed.
Lemma kept_insert_run r : Kept (insert_run r).
Proof.
  intros R -> w. unfold insert_run, query_row, mbind, M_bind. destruct (find_conversation _ _); [|reflexivity]. simpl.
  destruct (runs_constraints _); [|reflexivity]. split; [done|]. intros x run Hx _. unfold find_run. simpl. by apply find_app_some.
Qed.
#[export] Hint Resolve kept_update_messages kept_insert_message_row kept_touch kept_insert_conversation kept_meta_insert kept_insert_run : steps.

(** An UPDATE of the run of a name that has not begun. *)
Lemma kept_update_runs y f w n w' run : find_run y (w_db w) = Some run → run_steps run = 0%Z → (∀ r, run_id (f r) = run_id r) →
  update_runs (by_id y) f w = (Ok n, w') → kept (w_db w) (w_db w').
Proof.
  intros Hy Hs Hf (_ & _ & ->)%update_runs_ok. split; [done|]. intros x r Hx Hr. unfold find_run in *. simpl.
  rewrite find_update_rows, Hx by (intros z; by rewrite Hf). simpl. unfold by_id. rewrite bool_decide_eq_false_2; [done|]. intros E.
  apply find_elem in Hx as Hx'. destruct Hx' as [_ E'%bool_decide_eq_true]. rewrite E in E'. subst. congruence.
Qed.

Section work.
Context {H : Host} {RH : ResultHost} {PR : ReportHost} {PH : PlanHost} {VH : RevisionHost}.

Lemma kept_at {A} (m : M A) w a w' : Kept m → m w = (Ok a, w') → kept (w_db w) (w_db w').
Proof. intros Hm E. specialize (Hm kept eq_refl w). by rewrite E in Hm. Qed.
Lemma kept_insertMessage r m : Kept (insertMessage r m).
Proof. unfold insertMessage. solve_steps. Qed.
#[local] Hint Resolve kept_insertMessage : steps.
Lemma kept_insertPlannedRun c q p config : Kept (insertPlannedRun c q p config).
Proof. unfold insertPlannedRun. solve_steps. Qed.
#[local] Hint Resolve kept_insertPlannedRun : steps.
Lemma kept_insertCollaborationRun ws t q p config : Kept (insertCollaborationRun ws t q p config).
Proof. unfold insertCollaborationRun. solve_steps. Qed.
#[local] Hint Resolve kept_insertCollaborationRun : steps.
Lemma kept_assign_children core parent q plan l : Kept (assign_children core parent q plan l).
Proof. induction l as [|s l IH]; simpl; solve_steps. Qed.
Lemma kept_savePlanRevision r source reason a : Kept (savePlanRevision r source reason a).
Proof. unfold savePlanRevision. solve_steps. Qed.

(** What the edit asks of a child before it changes it. *)
Definition untouched (d : db) (c c' : childRecord) : Prop :=
  ch_run c' = ch_run c ∧ ch_output_bytes c' = ch_output_bytes c ∧
  (ch_spec c' ≠ ch_spec c ∨ ch_control c' ≠ ch_control c → ∃ run, find_run (ch_run c) d = Some run ∧ run_steps run = 0%Z).
Lemma kept_revise_child core edit plan parent active c w c' w' : revise_child core edit plan parent active c w = (Ok c', w') →
  kept (w_db w) (w_db w') ∧ untouched (w_db w) c c'.
Proof.
  unfold revise_child. cbv zeta. intros E. apply bind_ok in E as ([] & w1 & [_ <-]%guard_ok & E).
  apply bind_ok in E as (run & w1 & [Hrun <-]%query_row_ok & E). rewrite bind_query in E. apply bind_ok in E as ([] & w1 & [_ <-]%guard_ok & E).
  assert (Eid : run_id run = ch_run c) by (apply find_elem in Hrun as [_ E']; by apply bool_decide_eq_true in E').
  case_bool_decide as Hin.
  - apply bind_ok in E as ([] & w1 & [Hg <-]%guard_ok & E). destruct (decide (run_steps run = 0%Z)) as [Hs|Hs].
    + rewrite bool_decide_eq_true_2 in E by done. apply bind_ok in E as (now & w2 & [= _ <-] & E). apply bind_ok in E as (n & w3 & Eu & [<- <-]%ret_ok).
      split; [|split; [done|split; [done|by exists run]]]. rewrite Eid in Eu. apply (kept_update_runs (ch_run c) _ _ _ _ run) in Eu; done.
    + rewrite bool_decide_eq_false_2 in E by done. apply ret_ok in E as [<- <-]. split; [reflexivity|]. split_and!; try done. by intros [?|?].
  - apply bind_ok in E as ([] & w1 & [Hg <-]%guard_ok & E). apply andb_true_iff in Hg as [Hg _]. apply andb_true_iff in Hg as [Hs%bool_decide_eq_true _].
    destruct (List.find _ _) as [spec|]; [|by apply fail_ok in E]. apply bind_ok in E as (x & w2 & [_ <-]%lift_ok & E).
    apply bind_ok in E as (now & w2 & [= _ <-] & E). apply bind_ok in E as (n & w3 & Eu & E). apply bind_ok in E as (n' & w4 & Em & [<- <-]%ret_ok).
    split; [|split; [done|split; [done|by exists run]]]. apply (kept_update_runs (ch_run c) _ _ _ _ run) in Eu; [|done..]. etrans; [exact Eu|].
    revert Em. apply kept_at. solve_steps.
Qed.
Lemma kept_back d d' x run : kept d d' → is_Some (find_run x d) → find_run x d' = Some run → run_steps run = 0%Z →
  ∃ run, find_run x d = Some run ∧ run_steps run = 0%Z.
Proof.
  intros Hk [r Hr] Hx Hs. exists r. split; [done|]. destruct (decide (run_steps r = 0%Z)) as [|Hn]; [done|]. pose proof (kp_runs _ _ Hk _ _ Hr Hn). congruence.
Qed.
Lemma kept_revise_children core edit plan parent active l w l' w' : revise_children core edit plan parent active l w = (Ok l', w') →
  (∀ c, c ∈ l → is_Some (find_run (ch_run c) (w_db w))) → kept (w_db w) (w_db w') ∧ Forall2 (untouched (w_db w)) l l'.
Proof.
  revert w l' w'. induction l as [|c l IH]; intros w l' w' E Hl; simpl in E; [apply ret_ok in E as [<- <-]; split; [reflexivity|constructor]|].
  apply bind_ok in E as (c' & w1 & Ec & E). apply bind_ok in E as (rest & w2 & Er & [<- <-]%ret_ok).
  assert (Q : quiet (w_db w) (w_db w1)) by (revert Ec; apply quiet_at; pose proof quiet_revise_child; destruct (bool_decide _); [done|apply steps_ret]).
  assert (Hc : kept (w_db w) (w_db w1) ∧ untouched (w_db w) c c').
  { case_bool_decide; [by eapply kept_revise_child|]. apply ret_ok in Ec as [<- <-]. split; [reflexivity|]. split_and!; try done. by intros [?|?]. }
  destruct Hc as [K1 U1]. assert (Hl' : ∀ x, x ∈ l → is_Some (find_run (ch_run x) (w_db w1))) by (intros x Hx; apply (qt_runs _ _ Q), Hl; by right).
  destruct (IH _ _ _ Er Hl') as [K2 U2]. split; [by etrans|]. constructor; [done|].
  apply Forall2_same_length_lookup_2; [by apply Forall2_length in U2|]. intros i x x' Hx Hx'. destruct (Forall2_lookup_lr _ _ _ _ _ _ U2 Hx Hx') as (E1 & E2 & E3).
  split; [done|split; [done|]]. intros Hch. destruct (E3 Hch) as (run & Hr & Hs). eapply kept_back; [exact K1| |exact Hr|exact Hs].
  apply Hl. right. by eapply list_elem_of_lookup_2.
Qed.
End work.
