(* ===== verification/RevisionRuns.v ===== *)
(** * Books, leases and creation

    The guard of the budget, the recovery of the leases at start, the creation of
    a collaboration and the plan of a goal keep the invariant [record_ok] of every
    record. *)

From S2P Require Import Prelude Text Utf8 Data Sql Store StoreInv StoreProps Budget BudgetProps Memory MemoryStore Workspace Profile FilePolicy Permission PermissionProps Plan PlanProps Conflicts Evidence Results Report Schedule ScheduleProps Entry Revision Replan RevisionInv RevisionProps.

(** ** Small steps of a method *)
Lemma read_then (P : db → Prop) {A B} (m : M A) (f : A → M B) w : (m w).2 = w → P (w_db w) → (∀ a, m w = (Ok a, w) → P (w_db (f a w).2)) →
  P (w_db ((m ≫= f) w).2).
Proof. intros Hm Hw Hf. unfold mbind, M_bind. destruct (m w) as [[a|e] w']; simpl in Hm; subst; [by apply Hf|done]. Qed.
Lemma transaction_then (P : db → Prop) {A} (m : M A) w : P (w_db w) → (∀ a w', m w = (Ok a, w') → P (w_db w')) → P (w_db (transaction m w).2).
Proof. intros Hw Hm. unfold transaction. destruct (m w) as [[a|e] w']; [by eapply Hm|done]. Qed.
Section steps.
Context {H : Host} {RH : ResultHost} {PR : ReportHost} {PH : PlanHost} {VH : RevisionHost} {RC : ReadChecks}.

(** ** The books *)
Lemma same_child_first name n l : Forall2 same_child l (child_add_first name n l).
Proof. induction l as [|c l IH]; simpl; [constructor|]. destruct (is_child name c); constructor; try done; apply same_child_refl. Qed.
Lemma same_child_rows p n l : Forall2 same_child l (update_rows p (child_add n) l).
Proof. induction l as [|c l IH]; simpl; [constructor|]. destruct (p c); by constructor. Qed.
Lemma same_plan_purpose a r r' w w' : reservePurpose a r w = (Ok r', w') → same_plan r r' ∧ w' = w.
Proof.
  intros E. split; [|by apply reservePurpose_ok in E as [? _]]. unfold reservePurpose in E. rewrite bind_query in E.
  apply bind_ok in E as ([] & w1 & _ & E). apply bind_ok in E as (r1 & w2 & E1 & E).
  assert (S1 : same_plan r r1).
  { destruct (bool_decide _) in E1; [|apply ret_ok in E1 as [<- _]; apply same_plan_refl].
    apply bind_ok in E1 as ([] & w3 & _ & E1). apply bind_ok in E1 as ([] & w4 & _ & E1). apply bind_ok in E1 as (rev & w5 & _ & E1).
    apply bind_ok in E1 as ([] & w6 & _ & E1). apply ret_ok in E1 as [<- _]. split; try done. apply same_child_refl. }
  apply (same_plan_trans _ _ _ S1). destruct (bool_decide _) in E; [|apply ret_ok in E as [<- _]; apply same_plan_refl].
  apply bind_ok in E as ([] & w3 & _ & E). apply bind_ok in E as (g & w4 & _ & E). apply bind_ok in E as ([] & w5 & _ & E).
  apply ret_ok in E as [<- _]. split; try done. apply same_child_refl.
Qed.

Lemma reads_reservePurpose a r : Reads (reservePurpose a r).
Proof. unfold reservePurpose. cbv zeta. solve_reads. Qed.
Lemma reads_load p : Reads (loadCollaboration p).
Proof. unfold loadCollaboration. solve_reads. Qed.

Lemma save_err r w e w' : saveCollaboration r w = (Err e, w') → w' = w.
Proof. unfold saveCollaboration, mbind, M_bind, guard_. destruct (_ <=? _)%Z; [done|by intros [= _ ->]]. Qed.
(** What a guard of the budget makes of the records. *)
Definition books_kept (parent : string) (d d' : db) : Prop :=
  d' = d ∨ ∃ r r' d1, meta d !! collaborationKey parent = Some (MCollaboration r) ∧ cr_parent r = parent ∧ same_plan r r' ∧
    quiet (put_record r' d) d1 ∧ d' = d1.
Lemma books_kept_ok parent d d' : books_kept parent d d' → collabs_ok d → collabs_ok d'.
Proof.
  intros [->|(r & r' & d1 & Hr & Hp & Hs & Hq & ->)] Hc; [done|]. apply (quiet_collabs_ok _ _ Hq), put_collabs_ok; [done|].
  apply (same_plan_ok _ _ _ Hs). by apply (Hc parent).
Qed.
Lemma save_books parent r r' w : meta (w_db w) !! collaborationKey parent = Some (MCollaboration r) → cr_parent r = parent → same_plan r r' →
  books_kept parent (w_db w) (w_db (saveCollaboration r' w).2).
Proof.
  intros Hr Hp Hs. unfold saveCollaboration. apply read_then; [apply reads_guard|by left|]. intros [] _. right. exists r, r'. eexists. by split_and!.
Qed.
Lemma reserve_call_books parent r r0 c a limit w : meta (w_db w) !! collaborationKey parent = Some (MCollaboration r0) → cr_parent r0 = parent → same_plan r0 r →
  books_kept parent (w_db w) (w_db (reserveCollaborationCall r c a limit w).2).
Proof.
  intros Hr Hp Hs. unfold reserveCollaborationCall. cbv zeta. apply read_then; [destruct c; [apply reads_guard|done]|by left|intros [] _].
  apply read_then; [apply reads_guard|by left|intros [] _]. apply read_then; [destruct (att_kind a); [apply reads_guard..|done]|by left|intros [] _].
  apply (save_books parent r0); [done..|]. apply (same_plan_trans _ _ _ Hs). destruct c as [c|]; split; try done; simpl;
    try apply same_child_first; try apply same_child_refl; by destruct (att_kind a).
Qed.
Lemma guard_reserve_books parent child a w : books_kept parent (w_db w) (w_db (guard_reserve parent child a w).2).
Proof.
  unfold guard_reserve. apply read_then; [apply reads_load|by left|]. intros r El. apply loadCollaboration_ok in El as (_ & Hr & Hp).
  apply read_then; [apply reads_guard|by left|intros [] _]. apply read_then; [done|by left|intros run _]. apply read_then; [done|by left|intros now _].
  apply read_then; [apply reads_guard|by left|intros [] _]. destruct (bool_decide (child = "")).
  - apply read_then; [apply reads_guard|by left|intros [] _].
    destruct (match att_kind a with KModel => reservePurpose a r | _ => mret r end w) as [[r'|e] w'] eqn:E.
    + assert (Hs : same_plan r r' ∧ w' = w).
      { destruct (att_kind a); [by eapply same_plan_purpose|apply ret_ok in E as [<- <-]; by split; [apply same_plan_refl|]..]. }
      destruct Hs as [Hs ->]. unfold mbind at 1, M_bind at 1. rewrite E. by apply (reserve_call_books parent r' r).
    + unfold mbind at 1, M_bind at 1. rewrite E. left. cut (w' = w); [by intros ->|].
      revert E. apply reads_ok. destruct (att_kind a); [apply reads_reservePurpose|apply reads_ret..].
  - destruct (find_child child r) as [c|]; [|by left]. do 2 (apply read_then; [apply reads_guard|by left|intros [] _]).
    apply read_then; [done|by left|intros d _]. apply read_then; [done|by left|intros [] _]. apply read_then; [apply reads_guard|by left|intros [] _].
    apply (reserve_call_books parent r r); [done..|apply same_plan_refl].
Qed.

Lemma same_plan_settle name id x size final r : same_plan r (settle_reservation name id x size final r).
Proof. split; try done. apply same_child_rows. Qed.
Lemma guard_record_books parent child a size final w : books_kept parent (w_db w) (w_db (guard_record parent child a size final w).2).
Proof.
  unfold guard_record. cbv zeta. apply read_then; [apply reads_load|by left|]. intros r El. apply loadCollaboration_ok in El as (_ & Hr & Hp).
  destruct (cr_reservations r !! att_id a) as [x|]; [|destruct (_ && _); by left]. apply read_then; [apply reads_guard|by left|intros [] _].
  set (r' := settle_reservation child (att_id a) x size final r).
  destruct (saveCollaboration r' w) as [[[]|e] w1] eqn:Es; unfold mbind at 1, M_bind at 1; rewrite Es.
  - right. exists r, r'. eexists. split_and!; [done|done|apply same_plan_settle| |done].
    apply saveCollaboration_ok in Es. change (w_db w1 = put_record r' (w_db w)) in Es. rewrite <- Es.
    match goal with |- quiet _ (w_db (?m w1).2) => cut (Quiet m); [intros Hm; by apply Hm|] end. unfold update_status. solve_steps.
  - left. by rewrite (save_err _ _ _ _ Es).
Qed.

(** ** Leases at start *)
Lemma same_but_leases d r : record_ok d r → record_ok d (clear_leases r).
Proof.
  intros Ho. destruct Ho. split; try done; [by intros n ?%not_elem_of_nil|simpl; split; [done|unfold zlen; simpl; lia]|].
  intros Hp. by destruct (ro_planning Hp) as (H1 & _ & H3).
Qed.
Lemma lease_records_ok m l : lease_records m = Ok l →
  ∀ r', r' ∈ l → ∃ r, m !! collaborationKey (cr_parent r) = Some (MCollaboration r) ∧ r' = clear_leases r.
Proof.
  unfold lease_records. assert (Hm : ∀ kv, kv ∈ filter (λ kv : string * MetaValue, String.prefix "collaboration/" kv.1 = true) (map_to_list m) → m !! kv.1 = Some kv.2).
  { intros [k v] [_ Hk]%list_elem_of_filter. by apply elem_of_map_to_list. }
  revert l Hm. generalize (filter (λ kv : string * MetaValue, String.prefix "collaboration/" kv.1 = true) (map_to_list m)) as k.
  induction k as [|[key v] k IH]; intros l Hm E; simpl in E; [injection E as <-; by intros r' ?%not_elem_of_nil|].
  apply res_bind_ok in E as (l0 & E0 & E). specialize (IH l0 (λ kv Hk, Hm kv (list_elem_of_further _ _ _ Hk)) E0). destruct v; try discriminate.
  apply res_bind_ok in E as ([] & Hc%check_ok%negb_true_iff%orb_false_iff & [= <-]). destruct Hc as [_ Hc%negb_false_iff%bool_decide_eq_true].
  intros r' [->|Hr]%elem_of_cons; [|by apply IH]. eexists. split; [|done]. rewrite <- Hc. apply (Hm (_, _)). by left.
Qed.
Lemma save_all_ok l w : collabs_ok (w_db w) → (∀ r, r ∈ l → record_ok (w_db w) r) → collabs_ok (w_db (save_all l w).2).
Proof.
  revert w. induction l as [|r l IH]; intros w Hc Hl; [done|]. simpl. unfold mbind, M_bind. destruct (saveCollaboration r w) as [[[]|e] w1] eqn:Es.
  - apply saveCollaboration_ok in Es. change (w_db w1 = put_record r (w_db w)) in Es. apply IH; rewrite Es.
    + apply put_collabs_ok; [done|]. apply Hl. by left.
    + intros x Hx. eapply keep_record_ok; [|by intros; apply put_keeps|apply Hl; by right]. done.
  - by rewrite (save_err _ _ _ _ Es).
Qed.
Lemma recover_ok w : collabs_ok (w_db w) → collabs_ok (w_db (recoverCollaborationLeases w).2).
Proof.
  intros Hc. unfold recoverCollaborationLeases. rewrite bind_query. unfold id. apply read_then; [done|done|]. intros l [El _]%lift_ok.
  apply save_all_ok; [done|]. intros x Hx. destruct (lease_records_ok _ _ El x Hx) as (r & Hr & ->). by apply same_but_leases, (Hc (cr_parent r)).
Qed.

(** ** Creation *)
Record plan_ready (p : CollaborationPlan) : Prop := {
  pr_names : NoDup (map sp_name (pl_children p));
  pr_order : well_founded (before (pl_children p));
  pr_depends : ∀ c d, c ∈ pl_children p → d ∈ sp_depends_on c → d ∈ map sp_name (pl_children p);
  pr_count : (zlen (pl_children p) <= Z.max 0 (pb_children (pl_budget p)))%Z;
}.
Lemma validate_ready core fresh p : validate_plan core fresh p = Ok tt → plan_ready p.
Proof.
  intros [Hf Hw]%validate_plan_ok. split; [apply (ok_names _ _ _ Hf)|done| |].
  - intros c d Hc Hd. by apply (ok_depends _ _ _ Hf c Hc).
  - destruct (ok_size _ _ _ Hf) as (_ & _ & ? & _). lia.
Qed.
Lemma empty_ready p : pl_children p = [] → plan_ready p.
Proof.
  intros E. split; rewrite E; [constructor| | |unfold zlen; simpl; lia].
  - intros x. constructor. intros y (c & Hc & _). by apply not_elem_of_nil in Hc.
  - by intros c d ?%not_elem_of_nil.
Qed.
Lemma suggestion_ready core memory fresh objective s su p : suggestion_plan core memory fresh objective s su = Ok p → plan_ready p.
Proof.
  unfold suggestion_plan. intros E. apply res_bind_ok in E as ([] & _ & E). apply res_bind_ok in E as (q & _ & E).
  case_bool_decide as Hn; [injection E as <-; by apply empty_ready, nil_length_inv|].
  apply res_bind_ok in E as ([] & Hv & [= <-]). by eapply validate_ready.
Qed.

(** A record whose children have just been given their runs. *)
Lemma assigned_ok d r cs : plan_ready (cr_plan r) → cr_children r = cs → map ch_spec cs = pl_children (cr_plan r) → NoDup (map ch_run cs) →
  (∀ c, c ∈ cs → is_Some (find_run (ch_run c) d) ∧ ch_retired c = false) → cr_active r = [] → us_active_children (cr_usage r) = 0%Z →
  us_children (cr_usage r) = zlen (pl_children (cr_plan r)) → cr_planning r = false → history d r → record_ok d r.
Proof.
  intros [P1 P2 P3 P4] <- Es Hr Hc Ha Hu Hn Hp Hh. assert (Hz : zlen (cr_children r) = zlen (pl_children (cr_plan r))) by (unfold zlen; by rewrite <- Es, length_map).
  split; rewrite ?Ha, ?Hu, ?Hn, ?Hz; try done.
  - intros c x Hin _ Hx. assert (Hs : ch_spec c ∈ pl_children (cr_plan r)) by (rewrite <- Es; by apply list_elem_of_fmap_2).
    specialize (P3 _ _ Hs Hx). rewrite <- Es, map_map in P3. apply list_elem_of_fmap in P3 as (c' & -> & Hc').
    apply (list_elem_of_fmap_2 (λ c, sp_name (ch_spec c))), list_elem_of_filter. split; [by apply Hc|done].
  - intros c Hin. by apply Hc.
  - by intros n ?%not_elem_of_nil.
  - split; [done|unfold zlen; simpl; lia].
  - intros E. congruence.
Qed.
Lemma first_history d r v : cr_revision r = 1%Z → meta d !! revisionKey (cr_parent r) (cr_revision r) = Some (MRevision v) →
  rv_revision v = cr_revision r → rv_plan v = cr_plan r → history d r.
Proof.
  intros E Hv Er Ep. split; [lia|]. split; [|by exists v]. intros n Hn. assert (n = cr_revision r) as -> by lia. by exists v.
Qed.
(** A record saved before its revision. *)
Lemma put_then_ok d d' r : collabs_ok d → quiet (put_record r d) d' → record_ok d' r → collabs_ok d'.
Proof.
  intros Hc Hq Hr p x Hx. rewrite (qt_records _ _ Hq) in Hx. simpl in Hx. destruct (decide (cr_parent r = p)) as [<-|Hne].
  - rewrite lookup_insert_eq in Hx. by injection Hx as <-.
  - rewrite lookup_insert_ne in Hx by (intros E; apply Hne; unfold collaborationKey in E; by injection E). destruct (Hc p x Hx) as [E Ho].
    split; [done|]. apply (quiet_record_ok _ _ _ Hq). eapply keep_record_ok; [|by intros; apply put_keeps|exact Ho]. done.
Qed.
End steps.

(** ** What keeps the collaborations *)
Definition keeps (d d' : db) : Prop := collabs_ok d → collabs_ok d'.
#[export] Instance keeps_pre : PreOrder keeps.
Proof. split; [intros d Hc; exact Hc|]. intros a b c Hab Hbc Ha. exact (Hbc (Hab Ha)). Qed.
#[export] Instance keeps_closed : Closed (λ R, R = keeps).
Proof. intros R ->. apply _. Qed.
#[export] Hint Resolve keeps_closed : steps.
Notation Keeps := (Along (λ R, R = keeps)).
Lemma keeps_quiet {A} (m : M A) : Quiet m → Keeps m.
Proof. intros Hm R -> w Hc. exact (quiet_collabs_ok _ _ (Hm quiet eq_refl w) Hc). Qed.
Lemma keeps_when {A} (m : M A) : (∀ w, collabs_ok (w_db w) → collabs_ok (w_db (m w).2)) → Keeps m.
Proof. intros Hm R -> w Hc. exact (Hm w Hc). Qed.
Lemma collabs_lift {A B} (x : res A) (f : A → M B) : (∀ a, x = Ok a → Keeps (f a)) → Keeps (lift x ≫= f).
Proof.
  intros Hf R -> w. destruct x as [a|e]; [exact (Hf a eq_refl keeps eq_refl w)|reflexivity].
Qed.
Lemma collabs_transaction {A} (m : M A) : (∀ w a w', m w = (Ok a, w') → collabs_ok (w_db w) → collabs_ok (w_db w')) → Keeps (transaction m).
Proof. intros Hm. apply keeps_when. intros w Hc. apply transaction_then; [done|]. intros a w' E. by eapply Hm. Qed.

Section creation.
Context {H : Host} {RH : ResultHost} {PR : ReportHost} {PH : PlanHost} {VH : RevisionHost} {RC : ReadChecks}.

Lemma insert_collaboration_ok core parent q plan initial source reason w w' :
  insert_collaboration core parent q plan initial source reason w = (Ok tt, w') → plan_ready plan → collabs_ok (w_db w) → collabs_ok (w_db w').
Proof.
  unfold insert_collaboration. intros E Hp Hc. apply bind_ok in E as (cs & w1 & Ea & E). apply bind_ok in E as ([] & w2 & Em & E). cbv zeta in E.
  apply bind_ok in E as ([] & w3 & Es & Ev). set (r := initial_record (run_id parent) plan cs initial) in *.
  pose proof (quiet_at _ _ _ _ (quiet_assign_children _ _ _ _ _) Ea) as Q1.
  assert (Q2 : quiet (w_db w1) (w_db w2)) by (revert Em; apply quiet_at; solve_steps).
  pose proof (quiet_at _ _ _ _ (quiet_savePlanRevision _ _ _ _) Ev) as Q3.
  apply saveCollaboration_ok in Es. change (w_db w3 = put_record r (w_db w2)) in Es. rewrite Es in Q3.
  apply (put_then_ok (w_db w2) _ r); [|done|].
  { eapply quiet_collabs_ok; [exact Q2|]. by eapply quiet_collabs_ok. }
  destruct (assign_children_ok _ _ _ _ _ _ _ _ Ea) as (A1 & A2 & A3). apply savePlanRevision_ok in Ev as (_ & _ & v & Hv & Er & Epl).
  apply (assigned_ok _ r cs); try done; [|by apply (first_history _ r v)].
  intros c Hx. destruct (A3 c Hx) as (_ & Hs & ->). split; [|done]. apply (qt_runs _ _ Q3). simpl. by apply (qt_runs _ _ Q2).
Qed.
Lemma create_ok core saved snapshot conversation request plan : plan_ready plan → Keeps (transaction (create_tx core saved snapshot conversation request plan)).
Proof.
  intros Hp. apply collabs_transaction. intros w a w' E Hc. unfold create_tx in E. destruct (bool_decide (conversation = "")).
  - apply bind_ok in E as (parent & w1 & Ei & E). apply bind_ok in E as ([] & w2 & Ec & [_ <-]%ret_ok).
    eapply insert_collaboration_ok; [exact Ec|done|]. by eapply quiet_collabs_ok; [eapply quiet_at, Ei; apply quiet_insertCollaborationRun|].
  - rewrite bind_query in E. apply bind_ok in E as ([] & w1 & [_ <-]%guard_ok & E). apply bind_ok in E as (c & w1 & [_ <-]%query_row_ok & E).
    apply bind_ok in E as ([] & w1 & [_ <-]%guard_ok & E). destruct (find_by_request _ _ _) as [x|].
    + assert (w' = w) as ->; [|done]. revert E. apply reads_ok. pose proof reads_load. solve_reads.
    + apply bind_ok in E as ([] & w1 & [_ <-]%guard_ok & E). apply bind_ok in E as (parent & w1 & Ei & E).
      apply bind_ok in E as ([] & w2 & Ec & [_ <-]%ret_ok).
      eapply insert_collaboration_ok; [exact Ec|done|]. by eapply quiet_collabs_ok; [eapply quiet_at, Ei; apply quiet_insertPlannedRun|].
Qed.
Lemma keeps_Create core mode saved snapshot conversation request plan : Keeps (Create core mode saved snapshot conversation request plan).
Proof.
  unfold Create. apply steps_bind; [solve_steps|intros _]. apply steps_bind; [solve_steps|intros fresh]. apply collabs_lift. intros [] Hv.
  apply steps_bind; [solve_steps|intros q]. apply steps_bind; [solve_steps|intros _]. apply steps_bind; [solve_steps|intros s].
  eapply create_ok, validate_ready, Hv.
Qed.
Lemma keeps_delegation core run plan : plan_ready plan → Keeps (insertActiveDelegation core run plan).
Proof.
  intros Hp. unfold insertActiveDelegation. apply steps_bind; [apply steps_query|intros d]. apply steps_bind.
  - apply reads_steps. pose proof reads_load. solve_reads.
  - intros _. apply collabs_transaction. intros w [] w' E. by eapply insert_collaboration_ok.
Qed.

(** A goal: its record, then its plan. *)
Lemma goal_record_ok d parent prompt s : record_ok d (goal_record parent prompt s).
Proof.
  constructor; cbn [goal_record cr_children cr_plan cr_active cr_usage cr_planning cr_revision pl_children pl_budget us_children us_active_children].
  - reflexivity.
  - constructor.
  - by intros c x ?%not_elem_of_nil.
  - intros x. constructor. intros y (c & Hc & _). by apply not_elem_of_nil in Hc.
  - constructor.
  - by intros c ?%not_elem_of_nil.
  - by intros n ?%not_elem_of_nil.
  - split; [reflexivity|unfold zlen; simpl; lia].
  - split; [reflexivity|unfold zlen; simpl; lia].
  - intros E. discriminate E.
  - intros _. split; [reflexivity|split; [reflexivity|by left]].
Qed.
Lemma keeps_goal saved conversation request prompt snapshot s : Keeps (start_goal saved conversation request prompt snapshot s).
Proof.
  apply collabs_transaction. intros w a w' E Hc. rewrite bind_query in E. apply bind_ok in E as ([] & w1 & [_ <-]%guard_ok & E).
  apply bind_ok in E as ([] & w1 & [_ <-]%guard_ok & E). apply bind_ok in E as (parent & w1 & Ei & E). apply bind_ok in E as ([] & w2 & Em & E).
  apply bind_ok in E as ([] & w3 & Es & [_ <-]%ret_ok). apply saveCollaboration_ok in Es. rewrite Es. apply put_collabs_ok; [|apply goal_record_ok].
  eapply quiet_collabs_ok; [|by eapply quiet_collabs_ok; [eapply quiet_at, Ei; apply quiet_insertPlannedRun|]].
  revert Em. apply quiet_at. solve_steps.
Qed.
Lemma keeps_plan_goal core parent request plan accepted reason a : plan_ready plan →
  Keeps (change parent (plan_goal_edit core request plan accepted reason a)).
Proof.
  intros Hp. apply keeps_when. intros w. apply change_collabs_ok. intros r r' w1 Er E Ho. unfold plan_goal_edit in E.
  apply bind_ok in E as ([] & w2 & [[_ Hpl]%andb_true_iff <-]%guard_ok & E). apply bind_ok in E as (cs & w2 & Ea & E). cbv zeta in E.
  apply bind_ok in E as ([] & w3 & Ev & [<- <-]%ret_ok). destruct (ro_planning _ _ Ho Hpl) as (R1 & R2 & R3).
  pose proof (quiet_at _ _ _ _ (quiet_assign_children _ _ _ _ _) Ea) as Q1. pose proof (quiet_at _ _ _ _ (quiet_savePlanRevision _ _ _ _) Ev) as Q2.
  split; [by etrans|]. destruct (assign_children_ok _ _ _ _ _ _ _ _ Ea) as (A1 & A2 & A3).
  apply savePlanRevision_ok in Ev as (_ & Hno & v & Hv & En & Epl). simpl in Hno, Hv, En, Epl.
  destruct (ro_count _ _ Ho) as [U1 _]. destruct (ro_leases _ _ Ho) as [U2 _]. rewrite R1 in U1. rewrite R2 in U2. apply (assigned_ok _ _ cs); simpl; rewrite ?R1, ?R2, ?U1, ?U2; try done.
  - intros c Hx. destruct (A3 c Hx) as (_ & Hs & ->). split; [|done]. by apply (qt_runs _ _ Q2).
  - apply (first_history _ _ v); simpl; try done. destruct R3 as [R3|[x Hx]]; [done|]. exfalso. pose proof (qt_history _ _ Q1 _ _ _ Hx) as Hx'. congruence.
Qed.
End creation.
