(* ===== verification/Collaborations.v ===== *)
(** * Every reachable state of the collaborations

    The operations on collaborations as one transition system: whatever is
    created, revised, controlled, scheduled and called, in any order, every
    record keeps the invariant [record_ok], and its scheduler is never stuck. *)

From S2P Require Import Prelude Text Utf8 Data Sql Store StoreInv StoreProps Budget BudgetProps Memory MemoryStore Workspace Profile FilePolicy Permission PermissionProps Plan PlanProps Conflicts Evidence Results Report Schedule ScheduleProps ScheduleRuns Entry Revision Replan RevisionInv RevisionProps RevisionWork RevisionRuns.

Section operations.
Context {H : Host} {RH : ResultHost} {PR : ReportHost} {PH : PlanHost} {VH : RevisionHost} {RC : ReadChecks}.

(** ** Edits that move the revision *)

(** The record of the next revision, the plan but for a higher limit the same. *)
Lemma advance_ok d d' r r' v : quiet d d' → record_ok d r →
  cr_parent r' = cr_parent r → cr_children r' = cr_children r → cr_active r' = cr_active r →
  us_children (cr_usage r') = us_children (cr_usage r) → us_active_children (cr_usage r') = us_active_children (cr_usage r) →
  cr_planning r' = cr_planning r → cr_revision r' = (cr_revision r + 1)%Z → pl_children (cr_plan r') = pl_children (cr_plan r) →
  (pb_children (pl_budget (cr_plan r)) <= pb_children (pl_budget (cr_plan r')))%Z →
  (pb_concurrent (pl_budget (cr_plan r)) <= pb_concurrent (pl_budget (cr_plan r')))%Z →
  meta d' !! revisionKey (cr_parent r') (cr_revision r') = Some (MRevision v) → rv_revision v = cr_revision r' → rv_plan v = cr_plan r' →
  record_ok d' r'.
Proof.
  intros Hq Ho Ep Ec Ea Eu El Epl Er Es Hb1 Hb2 Hv En Evp.
  assert (Hlive : live_names r' = live_names r) by (unfold live_names; by rewrite Ec).
  destruct Ho. constructor; rewrite ?Ec, ?Ea, ?Eu, ?El, ?Epl, ?Es, ?Hlive.
  - exact ro_specs.
  - exact ro_names.
  - intros c x. rewrite Ec, Hlive. apply ro_live.
  - exact ro_order.
  - exact ro_runs.
  - intros c Hc. by apply (qt_runs _ _ Hq), ro_run.
  - exact ro_active.
  - destruct ro_leases. split; [done|lia].
  - destruct ro_count. split; [done|lia].
  - intros Hp. apply (history_next d d' r r'); [done|by apply ro_history|done|done|]. by exists v.
  - intros Hp. destruct (ro_planning Hp) as (H1 & H2 & _). split; [exact H1|split; [exact H2|]]. right. by exists (MRevision v).
Qed.
Lemma keeps_edit core parent edit source a : Keeps (change parent (applyPlanEdit core edit source a)).
Proof. apply keeps_when. intros w. apply change_collabs_ok. intros r r' w1 _ E Ho. by eapply edit_record_ok. Qed.
Lemma keeps_limits parent b : Keeps (change parent (limits_edit b)).
Proof.
  apply keeps_when. intros w. apply change_collabs_ok. intros r r' w1 _ E Ho. unfold limits_edit in E.
  apply bind_ok in E as (x & w2 & [_ <-]%query_row_ok & E). apply bind_ok in E as ([] & w2 & [_ <-]%guard_ok & E).
  apply bind_ok in E as ([] & w2 & [Hg <-]%guard_ok & E). case_bool_decide; [by apply ret_ok in E as [<- <-]|].
  cbv zeta in E. apply bind_ok in E as ([] & w2 & Ev & [<- <-]%ret_ok). pose proof (quiet_at _ _ _ _ (quiet_savePlanRevision _ _ _ _) Ev) as Q.
  split; [exact Q|]. apply savePlanRevision_ok in Ev as (_ & _ & v & Hv & En & Epl).
  unfold limits_grow in Hg. repeat (apply andb_true_iff in Hg as [Hg ?%Z.leb_le]). apply Z.leb_le in Hg.
  by apply (advance_ok (w_db w) (w_db w2) r _ v).
Qed.
Lemma keeps_keep_plan parent report a reason n : Keeps (change parent (keep_plan_edit report a reason n)).
Proof.
  apply keeps_when. intros w. apply change_collabs_ok. intros r r' w1 _ E Ho. unfold keep_plan_edit in E.
  apply bind_ok in E as ([] & w2 & [_ <-]%guard_ok & E). apply bind_ok in E as ([] & w2 & [_ <-]%guard_ok & E). cbv zeta in E.
  apply bind_ok in E as ([] & w2 & Ev & [<- <-]%ret_ok). pose proof (quiet_at _ _ _ _ (quiet_savePlanRevision _ _ _ _) Ev) as Q.
  split; [exact Q|]. apply savePlanRevision_ok in Ev as (_ & _ & v & Hv & En & Epl). by apply (advance_ok (w_db w) (w_db w2) r _ v).
Qed.
Lemma keeps_replan_edit core parent report a edit : Keeps (change parent (replan_edit core report a edit)).
Proof.
  apply keeps_when. intros w. apply change_collabs_ok. intros r r' w1 _ E Ho. unfold replan_edit in E.
  apply bind_ok in E as ([] & w2 & [_ <-]%guard_ok & E). apply bind_ok in E as ([] & w2 & [_ <-]%guard_ok & E).
  apply bind_ok in E as (r1 & w2 & Ee & [<- <-]%ret_ok). destruct (edit_record_ok _ _ _ _ _ _ _ _ Ee Ho) as [Q Ho1]. split; [exact Q|].
  apply (same_plan_ok _ r1); [|done]. split; try done. apply same_child_refl.
Qed.

(** ** Controls and deliveries *)
Lemma same_child_control name action next l w x w' : control_children name action next l w = (Ok x, w') → Forall2 same_child l x.1.1.
Proof.
  revert w x w'. induction l as [|c l IH]; intros w x w' E; simpl in E; [apply ret_ok in E as [<- _]; constructor|].
  destruct (negb (is_child name c)).
  - apply bind_ok in E as (y & w1 & Ey & [<- _]%ret_ok). constructor; [done|]. by eapply IH.
  - apply bind_ok in E as ([] & w1 & _ & E). apply bind_ok in E as (run & w2 & _ & E). destruct (_ || _).
    + destruct (_ && _); [|by apply fail_ok in E]. apply ret_ok in E as [<- _]. apply same_child_refl.
    + apply bind_ok in E as ([] & w3 & _ & E). apply bind_ok in E as (y & w4 & Ey & [<- _]%ret_ok). constructor; [done|]. by eapply IH.
Qed.
Lemma same_child_update name f l : (∀ c, same_child c (f c)) → Forall2 same_child l (update_child name f l).
Proof. intros Hf. induction l as [|c l IH]; simpl; [constructor|]. destruct (is_child name c); constructor; try done; apply same_child_refl. Qed.
Lemma keeps_same parent edit : (∀ r, Quiet (edit r)) → (∀ r w r' w1, edit r w = (Ok r', w1) → same_plan r r') → Keeps (change parent edit).
Proof. intros Hq Hs. apply keeps_when. intros w. apply change_same_plan; [done|]. intros r r' w1. apply Hs. Qed.
Lemma same_plan_children r l : Forall2 same_child (cr_children r) l → same_plan r (set_children l r).
Proof. by split. Qed.
Lemma same_plan_decision r x y : same_plan r (set_decision x y r).
Proof. split; try done. apply same_child_refl. Qed.
Lemma same_plan_control r x : same_plan r (set_control x r).
Proof. split; try done. apply same_child_refl. Qed.

Lemma reads_control_children name action next l : Reads (control_children name action next l).
Proof. induction l as [|c l IH]; simpl; solve_reads. Qed.
Lemma keeps_control parent child action : Keeps (change parent (control_edit parent child action)).
Proof.
  apply keeps_same.
  - intros r. apply reads_steps. unfold control_edit. pose proof reads_control_children. solve_reads.
  - intros r w r' w1 E. unfold control_edit in E. apply bind_ok in E as (run & w2 & _ & E). destruct (_ && _); [apply ret_ok in E as [<- _]; apply same_plan_refl|].
    apply bind_ok in E as ([] & w3 & _ & E). destruct (bool_decide (child = "")).
    + apply bind_ok in E as ([] & w4 & _ & [<- _]%ret_ok). eapply same_plan_trans; [apply same_plan_control|apply same_plan_decision].
    + apply bind_ok in E as ([[l found] stop] & w4 & Ec & E). apply same_child_control in Ec. apply bind_ok in E as ([] & w5 & _ & E). cbv zeta in E.
      apply ret_ok in E as [<- _]. apply same_plan_children in Ec. destruct stop; [done|]. eapply same_plan_trans; [done|apply same_plan_decision].
Qed.
Lemma keeps_resolve parent digest decision : Keeps (change parent (resolve_edit parent digest decision)).
Proof.
  apply keeps_same.
  - intros r. unfold resolve_edit. solve_steps.
  - intros r w r' w1 E. unfold resolve_edit in E. apply bind_ok in E as ([] & w2 & _ & E). apply bind_ok in E as (run & w3 & _ & E).
    apply bind_ok in E as ([] & w4 & _ & [<- _]%ret_ok). apply same_plan_decision.
Qed.
Lemma keeps_draft parent report : Keeps (change parent (draft_edit report)).
Proof.
  apply keeps_same.
  - intros r. unfold draft_edit. solve_steps.
  - intros r w r' w1 E. unfold draft_edit in E. apply bind_ok in E as ([] & w2 & _ & E). apply bind_ok in E as ([] & w3 & _ & E).
    apply bind_ok in E as (now & w4 & _ & E). apply bind_ok in E as (n & w5 & _ & [<- _]%ret_ok). apply same_plan_refl.
Qed.
Lemma keeps_deliver max report parent name n : Keeps (change parent (deliver_edit max report name n)).
Proof.
  apply keeps_same.
  - intros r. unfold deliver_edit. solve_steps.
  - intros r w r' w1 E. unfold deliver_edit in E. apply bind_ok in E as ([] & w2 & _ & E). apply bind_ok in E as ([] & w3 & _ & E).
    destruct (find_child name r) as [c|]; [|by apply fail_ok in E]. apply bind_ok in E as ([] & w4 & _ & E). rewrite bind_query in E.
    apply bind_ok in E as ([] & w5 & _ & E). destruct (_ || _); [apply bind_ok in E as ([] & w6 & _ & [<- _]%ret_ok); apply same_plan_refl|].
    apply bind_ok in E as (run & w6 & _ & E). apply bind_ok in E as ([] & w7 & _ & E). apply bind_ok in E as (l & w8 & _ & E). cbv zeta in E.
    apply bind_ok in E as ([] & w9 & _ & E). apply bind_ok in E as (now & w10 & _ & E). apply bind_ok in E as (k & w11 & _ & E).
    apply bind_ok in E as (k' & w12 & _ & E). apply bind_ok in E as ([] & w13 & _ & E). rewrite bind_query in E. apply bind_ok in E as ([] & w14 & _ & [<- _]%ret_ok).
    by apply same_plan_children, same_child_update.
Qed.

(** ** Leases *)
Lemma set_active_ok d l r : record_ok d r → (∀ n, n ∈ l → n ∈ live_names r) → (zlen l <= Z.max 0 (pb_concurrent (pl_budget (cr_plan r))))%Z →
  record_ok d (set_active l r).
Proof.
  intros Ho Hl Hz. destruct Ho. split; try done. intros Hp. destruct (ro_planning Hp) as (H1 & H2 & H3). split; [done|split; [|done]].
  destruct l as [|n l]; [done|]. exfalso. specialize (Hl n (list_elem_of_here _ _)). unfold live_names in Hl. rewrite H1 in Hl. by apply not_elem_of_nil in Hl.
Qed.
Lemma keeps_leases parent edit : (∀ r w r' w1, record_ok (w_db w) r → edit r w = (Ok r', w1) → w1 = w ∧ record_ok (w_db w) r') → Keeps (change parent edit).
Proof.
  intros He. apply keeps_when. intros w. apply change_collabs_ok. intros r r' w1 _ E Ho. destruct (He r w r' w1 Ho E) as [-> Ho']. split; [reflexivity|done].
Qed.
Lemma keeps_activate parent names n : Keeps (activate parent names n).
Proof.
  apply keeps_leases. intros r w r' w1 Ho [E ->]%lift_ok. split; [done|]. unfold activate_edit in E.
  apply res_bind_ok in E as ([] & _ & E). apply res_bind_ok in E as ([] & _ & E). apply res_bind_ok in E as ([] & Hz%check_ok%Z.leb_le & E).
  apply res_bind_ok in E as ([] & _ & E). apply res_bind_ok in E as ([] & Hc%check_ok & [= <-]). apply set_active_ok; [done| |rewrite zlen_app; lia].
  intros x [Hx|Hx]%elem_of_app; [by apply (ro_active _ _ Ho)|]. rewrite forallb_forall in Hc. specialize (Hc x (proj1 (list_elem_of_In _ _) Hx)).
  cbv beta zeta in Hc. apply andb_true_iff in Hc as [Hc _]. apply andb_true_iff in Hc as [Hc Hr%negb_true_iff]. apply andb_true_iff in Hc as [Hrun%negb_true_iff%bool_decide_eq_false _].
  unfold recordChild, find_child in *. destruct (List.find (is_child x) (cr_children r)) as [c|] eqn:Ef; [|by destruct Hrun].
  apply find_elem in Ef as [Hc Ex%bool_decide_eq_true]. rewrite <- Ex. unfold live_names. apply (list_elem_of_fmap_2 (λ c, sp_name (ch_spec c))).
  by apply list_elem_of_filter.
Qed.
Lemma keeps_deactivate parent name : Keeps (deactivate parent name).
Proof.
  apply keeps_leases. intros r w r' w1 Ho [<- ->]%ret_ok. split; [done|]. unfold deactivate_edit. apply set_active_ok; [done| |].
  - intros n [_ Hn]%list_elem_of_filter. by apply (ro_active _ _ Ho).
  - destruct (ro_leases _ _ Ho) as [_ Hl]. unfold zlen in *. pose proof (length_filter (λ n, n ≠ name) (cr_active r)). lia.
Qed.
Lemma keeps_interrupt parent : Keeps (interrupt parent).
Proof. apply keeps_leases. intros r w r' w1 Ho [<- ->]%ret_ok. split; [done|]. apply set_active_ok; [done|by intros n ?%not_elem_of_nil|unfold zlen; simpl; lia]. Qed.

(** ** Methods *)
Lemma quiet_update_attempts p f : Quiet (update_attempts p f).
Proof. intros R -> w. by apply quiet_same_meta. Qed.
#[local] Hint Resolve quiet_update_attempts quiet_insertMessage : steps.
Lemma quiet_abandonRun x : Quiet (abandonRun x).
Proof.
  assert (Hl : ∀ r l, Quiet (abandon_attempts r l)) by (intros r l; induction l as [|a l IH]; simpl; solve_steps).
  unfold abandonRun, update_status, lockExecutionTx, lockConversationTx. solve_steps.
Qed.
Lemma quiet_drainCancelled parent : Quiet (drainCancelled parent).
Proof.
  pose proof quiet_abandonRun. assert (Hl : ∀ control l, Quiet (drain_children control l)) by (intros control l; induction l as [|c l IH]; simpl; solve_steps).
  unfold drainCancelled. apply steps_bind; [apply reads_steps, reads_load|]. solve_steps.
Qed.
Lemma reads_Inspect parent : Reads (Inspect parent).
Proof. unfold Inspect. apply reads_bind; [apply reads_load|]. solve_reads. Qed.
Lemma keeps_reads {A} (m : M A) : Reads m → Keeps m.
Proof. apply reads_steps. Qed.

Lemma keeps_Control free parent child action : Keeps (Control free parent child action).
Proof.
  unfold Control. apply steps_bind; [apply steps_guard|intros _]. apply steps_bind; [apply keeps_control|intros _].
  destruct (_ && _); [apply keeps_quiet, quiet_drainCancelled|apply steps_ret].
Qed.
Lemma keeps_Resolve parent digest decision : Keeps (Resolve parent digest decision).
Proof.
  unfold Resolve. apply steps_bind; [apply steps_guard|intros _]. apply steps_bind; [apply keeps_reads, reads_Inspect|intros report].
  apply steps_bind; [apply steps_guard|intros _]. apply keeps_resolve.
Qed.
Lemma keeps_deliverResults max parent name n : Keeps (deliverResults max parent name n).
Proof. unfold deliverResults. apply steps_bind; [apply keeps_reads, reads_Inspect|intros report]. apply keeps_deliver. Qed.
Lemma keeps_Revise core parent edit : Keeps (Revise core parent edit).
Proof. unfold Revise. do 2 (apply steps_bind; [solve_steps|intros ?]). apply keeps_edit. Qed.
Lemma keeps_Adjust core parent name spec : Keeps (Adjust core parent name spec).
Proof.
  unfold Adjust. apply steps_bind; [apply steps_guard|intros _]. apply steps_bind; [apply keeps_reads, reads_Inspect|intros report].
  apply steps_bind; [apply steps_guard|intros _]. apply keeps_Revise.
Qed.
Lemma keeps_IncreaseLimits parent b : Keeps (IncreaseLimits parent b).
Proof. unfold IncreaseLimits. apply steps_bind; [apply steps_lift|intros _]. apply keeps_limits. Qed.

(** C34: Raising the limits of a goal whose plan is still to be made saves its
    revision under the key the plan of the goal needs: from then on that plan can
    never be saved, whatever the model suggests, and the goal cannot go on. *)
Theorem limits_block_planning core parent b request plan accepted reason a w w1 w2 r :
  meta (w_db w) !! collaborationKey parent = Some (MCollaboration r) → cr_planning r = true → b ≠ pl_budget (cr_plan r) →
  IncreaseLimits parent b w = (Ok tt, w1) → quiet (w_db w1) (w_db w2) →
  ∃ e w3, change parent (plan_goal_edit core request plan accepted reason a) w2 = (Err e, w3) ∧ w_db w3 = w_db w2.
Proof.
  intros Hr Hp Hb E Hq. unfold IncreaseLimits in E. apply bind_ok in E as ([] & w0 & [_ <-]%lift_ok & E).
  destruct (change_ok _ _ _ _ E) as (r0 & r1 & w0 & El & Ee & Ew). apply loadCollaboration_ok in El as (_ & Hr0 & Ep). rewrite Hr in Hr0. injection Hr0 as <-.
  unfold limits_edit in Ee. apply bind_ok in Ee as (x & w4 & [_ <-]%query_row_ok & Ee). apply bind_ok in Ee as ([] & w4 & [_ <-]%guard_ok & Ee).
  apply bind_ok in Ee as ([] & w4 & [_ <-]%guard_ok & Ee). rewrite bool_decide_eq_false_2 in Ee by done. cbv zeta in Ee.
  apply bind_ok in Ee as ([] & w4 & Ev & [<- <-]%ret_ok). apply savePlanRevision_ok in Ev as (_ & _ & v & Hv & _).
  assert (Hv2 : meta (w_db w2) !! revisionKey parent (cr_revision r + 1) = Some (MRevision v)).
  { apply (qt_history _ _ Hq). rewrite Ew. rewrite <- Ep. by apply put_keeps. }
  assert (Hr2 : meta (w_db w2) !! collaborationKey parent = Some (MCollaboration (set_budget b r))).
  { rewrite (qt_records _ _ Hq), Ew. simpl. rewrite Ep. apply lookup_insert_eq. }
  destruct (change parent (plan_goal_edit core request plan accepted reason a) w2) as [[[]|e] w3] eqn:E3.
  - exfalso. destruct (change_ok _ _ _ _ E3) as (r2 & r3 & w5 & El & Ee & _). apply loadCollaboration_ok in El as (_ & Hx & _). rewrite Hr2 in Hx. injection Hx as <-.
    unfold plan_goal_edit in Ee. apply bind_ok in Ee as ([] & w6 & [_ <-]%guard_ok & Ee). apply bind_ok in Ee as (cs & w6 & Ea & Ee). cbv zeta in Ee.
    apply bind_ok in Ee as ([] & w7 & Es & _). apply savePlanRevision_ok in Es as (_ & Hno & _). cbn [set_planned set_budget cr_parent cr_revision] in Hno. rewrite Ep in Hno.
    pose proof (qt_history _ _ (quiet_at _ _ _ _ (quiet_assign_children _ _ _ _ _) Ea) _ _ _ Hv2). congruence.
  - exists e, w3. split; [done|]. by apply (change_failed _ _ _ _ _ E3).
Qed.

(** ** Dispatched work *)

(** C5: An edit of a plan never rewrites dispatched work: the attempts stay as
    they are, and so does every run that has taken a step; every child keeps its
    run and the output it was charged for, and its assignment and control change
    only while its run has not begun; children are only added, after the old
    ones; and the revision goes up by one. *)
Theorem edit_preserves_work core edit source a r w r' w' :
  applyPlanEdit core edit source a r w = (Ok r', w') → record_ok (w_db w) r →
  cr_revision r' = (cr_revision r + 1)%Z ∧ attempts (w_db w') = attempts (w_db w) ∧
  (∀ x run, find_run x (w_db w) = Some run → run_steps run ≠ 0%Z → find_run x (w_db w') = Some run) ∧
  Forall2 (untouched (w_db w)) (cr_children r) (take (length (cr_children r)) (cr_children r')).
Proof.
  intros E Ho. destruct (applyPlanEdit_done _ _ _ _ _ _ _ _ E) as (r0 & children & retired & old & new & w1 & w2 & w3 & Hd & Hs).
  assert (Hw : w_db w1 = w_db w) by apply (de_before Hd).
  destruct (kept_revise_children _ _ _ _ _ _ _ _ _ (de_revise Hd)) as [K1 U1].
  { intros c Hc. rewrite Hw. by apply (ro_run _ _ Ho). }
  destruct (de_assign Hd) as [q Hq]. pose proof (kept_at _ _ _ _ (kept_assign_children _ _ _ _ _) Hq) as K2.
  pose proof (kept_at _ _ _ _ (kept_savePlanRevision _ _ _ _) Hs) as K3. rewrite Hw in K1, U1.
  assert (K : kept (w_db w) (w_db w')) by (etrans; [exact K1|etrans; [exact K2|exact K3]]). destruct K as [Ka Kr]. rewrite (de_record Hd).
  cbn [set_revised cr_revision cr_children]. split; [by destruct (de_old Hd) as [->| ->]|]. split; [done|split; [done|]].
  rewrite (Forall2_length _ _ _ U1), take_app_length. done.
Qed.

(** ** The transition system *)

(** One operation on the collaborations, by whom it comes from: the person, the
    scheduler, which runs one transaction at a time and so between any two of its
    own may find the others', the calls of the runs, and a restart. *)
Inductive collab_op : world → world → Prop :=
  | co_create core mode saved snapshot conversation request plan w :
      collab_op w (Create core mode saved snapshot conversation request plan w).2
  | co_delegate core fresh run plan w : validate_plan core fresh plan = Ok tt → collab_op w (insertActiveDelegation core run plan w).2
  | co_goal saved conversation request prompt snapshot s w : collab_op w (start_goal saved conversation request prompt snapshot s w).2
  | co_plan_goal core memory fresh parent request objective s su plan accepted reason a w :
      suggestion_plan core memory fresh objective s su = Ok plan →
      collab_op w (change parent (plan_goal_edit core request plan accepted reason a) w).2
  | co_revise core parent edit w : collab_op w (Revise core parent edit w).2
  | co_adjust core parent name spec w : collab_op w (Adjust core parent name spec w).2
  | co_limits parent b w : collab_op w (IncreaseLimits parent b w).2
  | co_keep_plan parent report a reason n w : collab_op w (change parent (keep_plan_edit report a reason n) w).2
  | co_replan core parent report a edit w : collab_op w (change parent (replan_edit core report a edit) w).2
  | co_control free parent child action w : collab_op w (Control free parent child action w).2
  | co_resolve parent digest decision w : collab_op w (Resolve parent digest decision w).2
  | co_interrupt parent w : collab_op w (interrupt parent w).2
  | co_activate parent names n w : collab_op w (activate parent names n w).2
  | co_deliver max parent name n w : collab_op w (deliverResults max parent name n w).2
  | co_deactivate parent name w : collab_op w (deactivate parent name w).2
  | co_draft parent report w : collab_op w (change parent (draft_edit report) w).2
  | co_complete parent report w : collab_op w (complete_parent parent report w).2
  | co_reserve parent child a w : collab_op w (guard_reserve parent child a w).2
  | co_record parent child a size final w : collab_op w (guard_record parent child a size final w).2
  | co_restart w : collab_op w (recoverCollaborationLeases w).2.
(** A step of the program: an operation, or something else, which leaves the
    records, the saved revisions and the names of the runs alone. *)
Inductive collab_step (w w' : world) : Prop :=
  | step_op (Hop : collab_op w w')
  | step_other (Hq : quiet (w_db w) (w_db w')).

Lemma quiet_complete_parent parent report : Quiet (complete_parent parent report).
Proof. unfold complete_parent. apply steps_transaction, steps_bind; [apply reads_steps, reads_load|]. solve_steps. Qed.
Lemma keeps_at {A} (m : M A) w : Keeps m → collabs_ok (w_db w) → collabs_ok (w_db (m w).2).
Proof. intros Hm. exact (Hm keeps eq_refl w). Qed.
Lemma step_collabs_ok w w' : collab_step w w' → collabs_ok (w_db w) → collabs_ok (w_db w').
Proof.
  intros [Hop|Hq]; [|by apply quiet_collabs_ok]. destruct Hop.
  - apply keeps_at, keeps_Create.
  - eapply keeps_at, keeps_delegation, validate_ready; eassumption.
  - apply keeps_at, keeps_goal.
  - eapply keeps_at, keeps_plan_goal, suggestion_ready; eassumption.
  - apply keeps_at, keeps_Revise.
  - apply keeps_at, keeps_Adjust.
  - apply keeps_at, keeps_IncreaseLimits.
  - apply keeps_at, keeps_keep_plan.
  - apply keeps_at, keeps_replan_edit.
  - apply keeps_at, keeps_Control.
  - apply keeps_at, keeps_Resolve.
  - apply keeps_at, keeps_interrupt.
  - apply keeps_at, keeps_activate.
  - apply keeps_at, keeps_deliverResults.
  - apply keeps_at, keeps_deactivate.
  - apply keeps_at, keeps_draft.
  - apply keeps_at, keeps_quiet, quiet_complete_parent.
  - eapply books_kept_ok, guard_reserve_books.
  - eapply books_kept_ok, guard_record_books.
  - apply recover_ok.
Qed.

(** A record that keeps the invariant has a scheduler that is not stuck. *)
Definition not_stuck (r : collaborationRecord) : Prop := ∀ tools report,
  (∀ c, c ∈ cr_children r → ch_retired c = false → ch_control c = "running" ∧
     statuses_of report !! sp_name (ch_spec c) ∉ [Some Failed; Some Abandoned; Some WaitingConfirmation]) →
  next_batch tools r report = [] →
  ∀ c, c ∈ cr_children r → ch_retired c = false → statuses_of report !! sp_name (ch_spec c) = Some Completed.
Lemma record_not_stuck d r : record_ok d r → not_stuck r.
Proof.
  intros Ho tools report Hc Hb. apply (no_deadlock tools r report); [|apply (ro_live _ _ Ho)| |done|done].
  - rewrite <- (map_map ch_spec sp_name), (ro_specs _ _ Ho). apply (ro_names _ _ Ho).
  - rewrite (ro_specs _ _ Ho). apply (ro_order _ _ Ho).
Qed.

(** C4: From a database without collaborations, whatever operations follow in
    whatever order, every saved record is under its own name, its children are
    the assignments of its plan, each with a run of its own; live work depends
    only on live work and on no cycle; the leases go to live children within the
    limit; every revision stays saved; and the scheduler is never stuck: when no
    child may start, and none is paused, failed, abandoned or waiting, all live
    children have completed. *)
Theorem collaborations_sound w0 w :
  (∀ p r, meta (w_db w0) !! collaborationKey p ≠ Some (MCollaboration r)) → rtc collab_step w0 w →
  ∀ p r, meta (w_db w) !! collaborationKey p = Some (MCollaboration r) → cr_parent r = p ∧ record_ok (w_db w) r ∧ not_stuck r.
Proof.
  intros Hno Hs p r Hr. assert (Hc : collabs_ok (w_db w)).
  { assert (H0 : collabs_ok (w_db w0)) by (intros q x Hx; by destruct (Hno q x)). revert H0. clear -Hs. induction Hs; [done|]. eauto using step_collabs_ok. }
  destruct (Hc p r Hr) as [Ep Ho]. split_and!; [done|done|by eapply record_not_stuck].
Qed.
End operations.

(** ** Witnesses *)
Module CollabDemo.
#[export] Instance host : RevisionHost := {|
  json_plan p := pl_objective p; json_plan_revision v := rv_reason v; json_edit e := ed_reason e; decode_edit _ := None;
  service_snapshot _ _ _ _ := Ok Demo.config;
|}.
#[export] Existing Instances Demo.host Demo.checks PlanDemo.host ScheduleDemo.results ScheduleDemo.reports.
Definition core : Core := PlanDemo.core.
(** A collaboration of two children, then an edit that gives one a new objective,
    retires the other and adds a third. *)
Definition created : world := (Create core "auto" "" (Ok Demo.config) "" "key" PlanDemo.plan Demo.empty).2.
Definition parent : string := match runs (w_db created) with r :: _ => run_id r | [] => "" end.
Definition edit : CollaborationEdit :=
  mkEdit 1 "what was found" ∅ [mkChildSpec "a" "reader" "look again" "" [] []; PlanDemo.child "c" ["a"]] ["b"].
Definition revised : world := (Revise core parent edit created).2.
(** A goal whose limits are raised before its plan is made. *)
Definition settings : CollaborationSettings :=
  Data.mkSettings "auto" (mkParentBudget 4 10 10 4096 2 60) (mkChildBudget 5 60 2048 256) 0 [] [] [] false (mkShared false false false [] []).
Definition goal : world := (start_goal "" "c" "key" "goal" Demo.config settings Demo.empty).2.
Definition goal_run : string := match runs (w_db goal) with r :: _ => run_id r | [] => "" end.
Definition more : ParentBudget := mkParentBudget 4 20 10 4096 2 60.
Definition plan_goal (w : world) : res unit * world :=
  change goal_run (plan_goal_edit core "key" PlanDemo.plan true "two readers" "attempt") w.
Definition record_of (p : string) (w : world) : option collaborationRecord :=
  match meta (w_db w) !! collaborationKey p with Some (MCollaboration r) => Some r | _ => None end.
Definition summary (p : string) (w : world) := option_map (λ r, (cr_revision r, map (λ c, (sp_name (ch_spec c), ch_retired c)) (cr_children r))) (record_of p w).
End CollabDemo.
Import CollabDemo.

Lemma collaborations_sound_witness :
  ∃ r, meta (w_db revised) !! collaborationKey parent = Some (MCollaboration r) ∧ cr_revision r = 2%Z ∧
    map (λ c, (sp_name (ch_spec c), ch_retired c)) (cr_children r) = [("b", true); ("a", false); ("c", false)] ∧
    record_ok (w_db revised) r ∧ not_stuck r.
Proof.
  destruct (record_of parent revised) as [r|] eqn:Er; [|vm_compute in Er; discriminate].
  assert (Em : meta (w_db revised) !! collaborationKey parent = Some (MCollaboration r)).
  { unfold record_of in Er. destruct (meta (w_db revised) !! collaborationKey parent) as [[]|]; try discriminate. by injection Er as <-. }
  assert (Hn : ∀ p x, meta (w_db Demo.empty) !! collaborationKey p ≠ Some (MCollaboration x)) by (intros p x Hx; simpl in Hx; by rewrite lookup_empty in Hx).
  destruct (collaborations_sound Demo.empty revised Hn) with (p := parent) (r := r) as (_ & Ho & Hs); [|exact Em|].
  - eapply rtc_l; [apply step_op, co_create|]. eapply rtc_l; [apply step_op, co_revise|]. apply rtc_refl.
  - exists r. split; [exact Em|]. assert (Es : summary parent revised = Some (2%Z, [("b", true); ("a", false); ("c", false)])) by (vm_compute; reflexivity).
    unfold summary in Es. rewrite Er in Es. simpl in Es. injection Es as E1 E2. split; [exact E1|split; [exact E2|split; [exact Ho|exact Hs]]].
Defined.

(** The edit of the demonstration, inside its transaction. *)
Lemma creation_ok : collabs_ok (w_db created).
Proof.
  apply (step_collabs_ok Demo.empty); [apply step_op, co_create|]. intros p x Hx. simpl in Hx. by rewrite lookup_empty in Hx.
Qed.
Definition first_record : collaborationRecord := match record_of parent created with Some r => r | None => goal_record "" "" settings end.
Lemma edit_preserves_work_witness :
  ∃ r' w', applyPlanEdit core edit "user" "" first_record created = (Ok r', w') ∧ record_ok (w_db created) first_record ∧
    cr_revision r' = 2%Z ∧ Forall2 (untouched (w_db created)) (cr_children first_record) (take 2 (cr_children r')).
Proof.
  destruct (applyPlanEdit core edit "user" "" first_record created) as [[r'|e] w'] eqn:E; [|vm_compute in E; discriminate].
  assert (Ho : record_ok (w_db created) first_record) by (apply (creation_ok parent); vm_compute; reflexivity).
  destruct (edit_preserves_work core edit "user" "" first_record created r' w' E Ho) as (H1 & _ & _ & H4).
  exists r', w'. split; [reflexivity|split; [exact Ho|split; [|exact H4]]]. rewrite H1. vm_compute. reflexivity.
Defined.

(** Without the new limits the plan of the goal is saved. *)
Definition goal_record_in : collaborationRecord := match record_of goal_run goal with Some r => r | None => goal_record "" "" settings end.
Definition raised : world := (IncreaseLimits goal_run more goal).2.
Lemma limits_block_planning_witness :
  (plan_goal goal).1 = Ok tt ∧ IncreaseLimits goal_run more goal = (Ok tt, raised) ∧ ∃ e w3, plan_goal raised = (Err e, w3) ∧ w_db w3 = w_db raised.
Proof.
  split; [vm_compute; reflexivity|]. assert (E : IncreaseLimits goal_run more goal = (Ok tt, raised)) by (vm_compute; reflexivity). split; [exact E|].
  apply (limits_block_planning core goal_run more "key" PlanDemo.plan true "two readers" "attempt" goal raised raised goal_record_in);
    [vm_compute; reflexivity|vm_compute; reflexivity|intros Hx; vm_compute in Hx; discriminate|exact E|reflexivity].
Defined.
