(* ===== verification/MemoryProps.v ===== *)
(** * What memory guarantees

    One mutation: what it changes on every branch, what an agent can reach with
    the grants of its run, the history it keeps, and what a request may cite. *)

From S2P Require Import Prelude Text Utf8 Data Sql Memory Store StoreInv StoreProps Space SpaceProps Workspace Profile FilePolicy Permission PermissionProps Budget MemoryStore.

(** ** One mutation *)
Definition bump (author now : string) (e : MemoryEntry) : MemoryEntry :=
  mkEntry (me_pinned e) (me_id e) (me_scope e) (me_revision e + 1) (me_state e) (me_kind e) (me_title e) (me_body e)
    author (me_sources e) (me_created_at e) now.

(** Where a mutation starts: a new entry under the identifier [i], or the
    current revision of the entry it names. *)
Inductive starts (a : memoryAuthority) (m : MemoryMutation) (i : string) (t : memoryTables) : MemoryEntry → Prop :=
| starts_new created updated : mut_action m = "create" →
    starts a m i t (mkEntry None i (mut_scope m) 1 "active" "" "" "" (author_of a) [] created updated)
| starts_at e g now : mut_action m ≠ "create" → e ∈ mt_entries t → List.find (λ e, bool_decide (me_id e = mut_entry m)) (mt_entries t) = Some e →
    me_id e = mut_entry m → me_scope e = mut_scope m → authority_grant a (mut_scope m) (mut_action m) = Ok g → granted g (mut_scope m) e = true →
    scanMemory e = Ok e → me_state e ≠ "deleted" → me_revision e = mut_expected m →
    starts a m i t (bump (author_of a) now e).

Section mutation.
Context {H : Host}.

(** The tables after a mutation that went through. *)
Definition key_of (a : memoryAuthority) (m : MemoryMutation) : string := (memoryOperation a m).1.
Definition hash_of (a : memoryAuthority) (m : MemoryMutation) : string := (memoryOperation a m).2.
Definition record_receipt (a : memoryAuthority) (m : MemoryMutation) (r : MemoryReceipt) (t : memoryTables) : memoryTables :=
  mkMemory (mt_entries t) (mt_revisions t) (<[key_of a m := (hash_of a m, r)]> (mt_operations t)).
Definition save_entry (m : MemoryMutation) (e : MemoryEntry) (t : memoryTables) : memoryTables :=
  mkMemory (upsert_entry e (mt_entries t))
    (if bool_decide (mut_action m = "delete") then filter (λ v, mv_entry v ≠ me_id e) (mt_revisions t)
     else mt_revisions t ++ [revision_of e (mut_reason m)]) (mt_operations t).
Definition no_revision (e : MemoryEntry) (t : memoryTables) : Prop :=
  ∀ v, v ∈ mt_revisions t → ¬ (mv_entry v = me_id e ∧ mv_revision v = me_revision e).
Definition receipt_of (m : MemoryMutation) (e : MemoryEntry) : MemoryReceipt :=
  mkReceipt (me_id e) (me_revision e) (me_state e) (mut_action m) false.

Inductive mutated (a : memoryAuthority) (m : MemoryMutation) (i : string) (d : db) : MemoryReceipt → memoryTables → Prop :=
| mut_saved r : mt_operations (memory d) !! key_of a m = Some (hash_of a m, r) → mutated a m i d (duplicate_receipt r) (memory d)
| mut_document r : mt_operations (memory d) !! key_of a m = None → mut_action m = "create" → au_user a = true →
    duplicateKnowledgeSource d m = Ok (Some r) → mutated a m i d r (record_receipt a m r (memory d))
| mut_changed e e' g : mt_operations (memory d) !! key_of a m = None → authority_grant a (mut_scope m) (mut_action m) = Ok g →
    starts a m i (memory d) e → (me_revision e <= 256)%Z → apply_action a m e = Ok e' →
    (writes_content m = true → (mg_kinds g = [] ∨ mut_kind m ∈ mg_kinds g) ∧ check_sources d a m (mut_sources m) = Ok tt) →
    (mut_action m ≠ "delete" → no_revision e' (memory d)) →
    mutated a m i d (receipt_of m e') (record_receipt a m (receipt_of m e') (save_entry m e' (memory d))).

Lemma key_unchanged_entry a m e e' : apply_action a m e = Ok e' →
  me_id e' = me_id e ∧ me_scope e' = me_scope e ∧ me_revision e' = me_revision e ∧ me_created_at e' = me_created_at e ∧ me_author e' = me_author e.
Proof.
  unfold apply_action. destruct (writes_content m); intros Ha; res_steps;
    repeat (case_bool_decide; [try (res_steps; done)|]); res_steps; done.
Qed.
Lemma next_entry_ok a m e w w' : next_entry a m w = (Ok e, w') →
  w_db w' = w_db w ∧ starts a m (newID_at (w_ids w)) (memory (w_db w)) e.
Proof.
  unfold next_entry. intros Hn. apply bind_ok in Hn as (i & w1 & [= <- <-] & Hn). apply bind_ok in Hn as (c & w2 & [= <- <-] & Hn).
  apply bind_ok in Hn as (u & w3 & [= <- <-] & Hn). case_bool_decide as Ea.
  { apply ret_ok in Hn as [<- <-]. split; [done|]. by constructor. }
  rewrite bind_query in Hn. apply bind_ok in Hn as ([] & w4 & [Hx <-]%guard_ok & Hn).
  apply bind_ok in Hn as (e0 & w4 & [Hg <-]%lift_ok & Hn). apply bind_ok in Hn as ([] & w4 & [Hr <-]%guard_ok & Hn).
  apply bind_ok in Hn as (now & w4 & [= <- <-] & Hn). apply ret_ok in Hn as [<- <-]. split; [done|].
  unfold getMemory, memory_row in Hg. apply res_bind_ok in Hg as (e1 & Hg & Hd). apply res_bind_ok in Hg as (g & Hg & Hf).
  unfold find_entry, id in Hf. cbn [w_db] in *. destruct (List.find _ _) as [e2|] eqn:Ef; [|done].
  destruct (granted g _ e2) eqn:Eg; [|done].
  assert (e1 = e2) as -> by (unfold scanMemory in Hf; by res_steps). case_bool_decide as Ed; [done|]. injection Hd as ->.
  destruct (List.find_some _ _ Ef) as [Hin Hid]. apply bool_decide_eq_true in Hid.
  change (mkEntry _ _ _ _ _ _ _ _ _ _ _ _) with (bump (author_of a) (now_at (S (S (w_ticks w)))) e0).
  eapply (starts_at a m _ _ e0 g); try done.
  - by apply list_elem_of_In.
  - unfold granted in Eg. bool_prop. done.
  - by apply Z.eqb_eq in Hr.
Qed.
Lemma saveMemoryReceipt_ok key hash r u w w' : saveMemoryReceipt key hash r w = (Ok u, w') →
  w_db w' = set_memory (mkMemory (mt_entries (memory (w_db w))) (mt_revisions (memory (w_db w))) (<[key := (hash, r)]> (mt_operations (memory (w_db w))))) (w_db w).
Proof.
  unfold saveMemoryReceipt. intros Hs. apply bind_ok in Hs as (now & w1 & [= <- <-] & Hs). rewrite bind_query in Hs.
  apply bind_ok in Hs as ([] & w1 & [_ <-]%guard_ok & [= _ <-]). done.
Qed.
Lemma reads_loadCollaboration p : Reads (loadCollaboration p).
Proof. unfold loadCollaboration. solve_reads. Qed.
Lemma reads_validateMemoryScopeOwner s : Reads (validateMemoryScopeOwner s).
Proof. unfold validateMemoryScopeOwner. pose proof reads_loadCollaboration. solve_reads. Qed.

Lemma insert_revision_ok v u w w' : insert_revision v w = (Ok u, w') →
  (∀ x, x ∈ mt_revisions (memory (w_db w)) → ¬ (mv_entry x = mv_entry v ∧ mv_revision x = mv_revision v)) ∧
  w_db w' = set_memory (mkMemory (mt_entries (memory (w_db w))) (mt_revisions (memory (w_db w)) ++ [v]) (mt_operations (memory (w_db w)))) (w_db w).
Proof.
  unfold insert_revision. rewrite bind_query. intros Hi. apply bind_ok in Hi as ([] & w1 & [Hg%negb_true_iff <-]%guard_ok & [= _ <-]).
  split; [|done]. intros x Hx [E1 E2]. apply not_true_iff_false in Hg. apply Hg, existsb_exists. exists x.
  split; [by apply list_elem_of_In|]. rewrite bool_decide_eq_true_2 by done. by apply Z.eqb_eq.
Qed.

(** Writing the entry, its history and the receipt. *)
Lemma write_changed a m e u1 u2 u3 w w1 w2 w3 :
  write_entry e w = (Ok u1, w1) →
  (if bool_decide (mut_action m = "delete") then delete_revisions (me_id e) else insert_revision (revision_of e (mut_reason m))) w1 = (Ok u2, w2) →
  saveMemoryReceipt (key_of a m) (hash_of a m) (receipt_of m e) w2 = (Ok u3, w3) →
  (mut_action m ≠ "delete" → no_revision e (memory (w_db w))) ∧
  w_db w3 = set_memory (record_receipt a m (receipt_of m e) (save_entry m e (memory (w_db w)))) (w_db w).
Proof.
  intros [= _ <-] Hh Hr. apply saveMemoryReceipt_ok in Hr. unfold record_receipt, save_entry. case_bool_decide as Ed.
  - injection Hh as _ <-. split; [done|]. by rewrite Hr.
  - apply insert_revision_ok in Hh as [Hno Hh]. split; [intros _; exact Hno|]. rewrite Hr, Hh. done.
Qed.

(** What a mutation that went through did. *)
Lemma mutate_ok a m r w w' : mutateMemoryTx a m w = (Ok r, w') →
  mutation_validate m = Ok tt ∧ is_ok (authority_grant a (mut_scope m) (mut_action m)) = true ∧
  ∃ t, mutated a m (newID_at (w_ids w)) (w_db w) r t ∧ w_db w' = set_memory t (w_db w).
Proof.
  unfold mutateMemoryTx. intros Hm. apply bind_ok in Hm as ([] & w1 & [Hv <-]%lift_ok & Hm). split; [done|].
  rewrite bind_query in Hm. apply bind_ok in Hm as ([] & w1 & [_ <-]%lift_ok & Hm).
  apply bind_ok in Hm as (g & w1 & [Hg <-]%lift_ok & Hm). split; [by rewrite Hg|].
  apply bind_ok in Hm as ([] & w1 & Ho & Hm). apply (reads_ok _ _ _ _ (reads_validateMemoryScopeOwner _)) in Ho as ->.
  fold (key_of a m) (hash_of a m) in Hm. cbv zeta in Hm. apply bind_ok in Hm as (saved & w1 & [Hs <-]%lift_ok & Hm). unfold id in *.
  unfold savedMemoryReceipt in Hs. destruct (mt_operations _ !! key_of a m) as [[previous r0]|] eqn:Eo.
  { destruct (bool_decide (previous = hash_of a m)) eqn:Eh; [apply bool_decide_eq_true in Eh|discriminate Hs]. injection Hs as <-. apply ret_ok in Hm as [<- <-]. subst previous.
    eexists. split; [by apply mut_saved|]. by destruct (w_db w). }
  injection Hs as <-. apply bind_ok in Hm as (e & w1 & Hn & Hm).
  apply next_entry_ok in Hn as [Hdb Hst]. apply bind_ok in Hm as ([] & w2 & [Hrev%Z.leb_le <-]%guard_ok & Hm).
  apply bind_ok in Hm as (dup & w2 & Hdup & Hm).
  assert (Hd : w2 = w1 ∧ (writes_content m = true → (mg_kinds g = [] ∨ mut_kind m ∈ mg_kinds g) ∧ check_sources (w_db w) a m (mut_sources m) = Ok tt) ∧
     (∀ x, dup = Some x → mut_action m = "create" ∧ au_user a = true ∧ duplicateKnowledgeSource (w_db w) m = Ok (Some x))).
  { destruct (writes_content m); [|apply ret_ok in Hdup as [<- <-]; split_and!; done].
    apply bind_ok in Hdup as ([] & w3 & [Hk <-]%guard_ok & Hdup). apply bind_ok in Hdup as ([] & w3 & [Hu <-]%guard_ok & Hdup).
    apply bind_ok in Hdup as ([] & w3 & [Hc <-]%lift_ok & Hdup). apply lift_ok in Hdup as [Hdup <-]. split; [done|]. split.
    { intros _. split; [|done]. apply orb_true_iff in Hk as [Hk|Hk]; apply bool_decide_eq_true in Hk; auto. }
    intros x ->. pose proof Hdup as Hx. unfold duplicateKnowledgeSource in Hdup. destruct (bool_decide (mut_action m = "create") && bool_decide (ms_kind (mut_scope m) = "knowledge")) eqn:Ek; [|discriminate Hdup].
    apply andb_true_iff in Ek as [Ek1%bool_decide_eq_true Ek2]. rewrite Ek2, orb_true_r in Hu. simpl in Hu. rewrite orb_false_r in Hu. done. }
  destruct Hd as (-> & Hc & Hdx). destruct dup as [x|].
  - destruct (Hdx x eq_refl) as (Ha & Hu & Hx). apply bind_ok in Hm as ([] & w2 & Hsv & [<- <-]%ret_ok).
    apply saveMemoryReceipt_ok in Hsv. eexists. split; [by apply mut_document|]. by rewrite Hsv, Hdb.
  - apply bind_ok in Hm as (e' & w2 & [Ha <-]%lift_ok & Hm). apply bind_ok in Hm as ([] & w2 & H1 & Hm).
    apply bind_ok in Hm as ([] & w3 & H2 & Hm). apply bind_ok in Hm as ([] & w4 & H3 & [<- <-]%ret_ok).
    destruct (write_changed _ _ _ _ _ _ _ _ _ _ H1 H2 H3) as [Hno E]. rewrite Hdb in *. eexists.
    split; [by eapply mut_changed|]. by rewrite E.
Qed.

(** ** Well-formed tables *)
Record memory_wf (t : memoryTables) : Prop := {
  mw_ids : NoDup (map me_id (mt_entries t));
  mw_bounds : ∀ e, e ∈ mt_entries t → (1 <= me_revision e <= 256)%Z;
  mw_erased : ∀ e, e ∈ mt_entries t → me_state e = "deleted" →
    (me_title e = "" ∧ me_body e = "" ∧ me_sources e = [] ∧ me_pinned e = None) ∧ ∀ v, v ∈ mt_revisions t → mv_entry v ≠ me_id e;
  mw_keys : NoDup (map (λ v, (mv_entry v, mv_revision v)) (mt_revisions t));
  mw_entry : ∀ v, v ∈ mt_revisions t → ∃ e, e ∈ mt_entries t ∧ me_id e = mv_entry v ∧ (1 <= mv_revision v <= me_revision e)%Z;
  mw_history : ∀ e k, e ∈ mt_entries t → me_state e ≠ "deleted" → (1 <= k <= me_revision e)%Z →
    ∃ v, v ∈ mt_revisions t ∧ mv_entry v = me_id e ∧ mv_revision v = k;
  mw_current : ∀ e, e ∈ mt_entries t → me_state e ≠ "deleted" → ∃ reason, revision_of e reason ∈ mt_revisions t;
  mw_receipts : ∀ key h r, mt_operations t !! key = Some (h, r) →
    ∃ e, e ∈ mt_entries t ∧ me_id e = mc_entry r ∧ (mc_revision r <= me_revision e)%Z;
}.

(** How memory evolves: an entry keeps its identity and place, every change is a
    new revision, and a deleted one never changes again; history is only lost
    with its entry; receipts stay. *)
Record entry_le (e e' : MemoryEntry) : Prop := {
  el_id : me_id e' = me_id e;
  el_scope : me_scope e' = me_scope e;
  el_created : me_created_at e' = me_created_at e;
  el_revision : (me_revision e <= me_revision e')%Z;
  el_same : me_revision e' = me_revision e → e' = e;
  el_deleted : me_state e = "deleted" → e' = e;
}.
#[export] Instance entry_le_pre : PreOrder entry_le.
Proof.
  split; [intros e; by split|]. intros x y z [A1 A2 A3 A4 A5 A6] [B1 B2 B3 B4 B5 B6]. split; try congruence.
  - lia.
  - intros E. assert (me_revision y = me_revision x) by lia. rewrite B5 by lia. auto.
  - intros E. specialize (A6 E). subst y. auto.
Qed.
Record memory_le (t t' : memoryTables) : Prop := {
  le_entries : grows entry_le (mt_entries t) (mt_entries t');
  le_history : ∀ v, v ∈ mt_revisions t → v ∈ mt_revisions t' ∨ ∃ e, e ∈ mt_entries t' ∧ me_id e = mv_entry v ∧ me_state e = "deleted";
  le_operations : mt_operations t ⊆ mt_operations t';
}.
Lemma grows_elem {A} (R : relation A) l l' x : grows R l l' → x ∈ l → ∃ y, y ∈ l' ∧ R x y.
Proof.
  intros (l1 & l2 & -> & Hf) Hx. apply list_elem_of_lookup in Hx as [i Hi]. destruct (Forall2_lookup_l _ _ _ _ _ Hf Hi) as (y & Hy & HR).
  exists y. split; [|done]. apply elem_of_app. left. by apply list_elem_of_lookup_2 in Hy.
Qed.
#[export] Instance memory_le_pre : PreOrder memory_le.
Proof.
  split; [intros t; split; [reflexivity|by left|done]|]. intros x y z [A1 A2 A3] [B1 B2 B3]. split; [by etrans| |by etrans].
  intros v Hv. destruct (A2 v Hv) as [Hy|(e & He & Hid & Hd)]; [by apply B2|]. right.
  destruct (grows_elem _ _ _ _ B1 He) as (e' & He' & Hle). exists e'. rewrite (el_deleted _ _ Hle Hd) in *. done.
Qed.

(** Writing an entry. *)
Lemma upsert_new e l : me_id e ∉ map me_id l → upsert_entry e l = l ++ [e].
Proof.
  intros Hn. unfold upsert_entry. destruct (existsb _ l) eqn:E; [|done]. exfalso. apply Hn.
  apply existsb_exists in E as (x & Hx & Hid%bool_decide_eq_true). rewrite <- Hid. apply list_elem_of_fmap_2. by apply list_elem_of_In.
Qed.
Lemma upsert_at e0 e l : NoDup (map me_id l) → e0 ∈ l → me_id e = me_id e0 → me_scope e = me_scope e0 → me_created_at e = me_created_at e0 →
  upsert_entry e l = update_rows (λ x, bool_decide (me_id x = me_id e)) (λ _, e) l.
Proof.
  intros Hn Hin Hid Hsc Hcr. unfold upsert_entry. destruct (existsb _ l) eqn:E.
  - unfold update_rows. apply map_ext_in. intros x Hx%list_elem_of_In. case_bool_decide as Ex; [|done].
    assert (x = e0) as -> by (eapply (NoDup_map_inj me_id); [done..|congruence]). unfold overwrite. rewrite <- Hid, <- Hsc, <- Hcr. by destruct e.
  - exfalso. apply not_true_iff_false in E. apply E, existsb_exists. exists e0. split; [by apply list_elem_of_In|]. by apply bool_decide_eq_true.
Qed.

(** What an action makes of an entry that is not deleted. *)
Lemma apply_action_state a m e e' : me_state e ≠ "deleted" → apply_action a m e = Ok e' →
  (mut_action m = "delete" ∧ au_user a = true ∧ e' = erase e) ∨ (mut_action m ≠ "delete" ∧ me_state e' ≠ "deleted").
Proof.
  unfold apply_action, writes_content. intros Hs Ha. apply res_bind_ok in Ha as ([] & _ & Ha).
  destruct (decide (mut_action m = "delete")) as [Ed|Ed].
  - left. rewrite !Ed in Ha. cbn in Ha. destruct (au_user a); [|done]. cbn in Ha. injection Ha as <-. by rewrite Ed.
  - right. split; [done|]. rewrite (bool_decide_eq_false_2 (mut_action m = "delete")) in Ha by done.
    assert (Hst : me_state (if bool_decide (mut_action m = "create") || bool_decide (mut_action m = "update") then set_content m e else e) ≠ "deleted")
      by (by destruct (_ || _)).
    repeat (case_bool_decide; [try (res_steps; done)|]); res_steps; done.
Qed.
Lemma starts_alive a m i t e : starts a m i t e → me_state e ≠ "deleted".
Proof. by destruct 1. Qed.

(** The entry a mutation writes takes the place of at most one, and continues its
    history. *)
Record continues (t : memoryTables) (e : MemoryEntry) : Prop := {
  co_elem : ∀ x, x ∈ upsert_entry e (mt_entries t) ↔ x = e ∨ x ∈ mt_entries t ∧ me_id x ≠ me_id e;
  co_ids : NoDup (map me_id (upsert_entry e (mt_entries t)));
  co_grows : grows entry_le (mt_entries t) (upsert_entry e (mt_entries t));
  co_bounds : (1 <= me_revision e <= 256)%Z;
  co_prior : ∀ v, v ∈ mt_revisions t → mv_entry v = me_id e → (1 <= mv_revision v < me_revision e)%Z;
  co_history : ∀ k, (1 <= k < me_revision e)%Z → ∃ v, v ∈ mt_revisions t ∧ mv_entry v = me_id e ∧ mv_revision v = k;
  co_place : ∀ x, x ∈ mt_entries t → me_id x = me_id e → (me_revision x < me_revision e)%Z ∧ me_state x ≠ "deleted" ∧ me_scope x = me_scope e;
}.

Lemma starts_new_continues t e : memory_wf t → me_id e ∉ map me_id (mt_entries t) → me_revision e = 1%Z → continues t e.
Proof.
  intros Hwf Hi Hr. assert (Hni : ∀ x, x ∈ mt_entries t → me_id x ≠ me_id e).
  { intros x Hx E. apply Hi. rewrite <- E. by apply list_elem_of_fmap_2. }
  split; rewrite ?upsert_new by done.
  - intros x. rewrite elem_of_app, list_elem_of_singleton. split; [intros [Hx| ->]; auto|intros [->|[Hx _]]; auto].
  - rewrite map_app. apply NoDup_app. split; [apply Hwf|]. split; [|apply NoDup_singleton]. by intros x Hx ->%list_elem_of_singleton.
  - apply grows_app, _.
  - lia.
  - intros v Hv E. destruct (mw_entry t Hwf v Hv) as (x & Hx & Ex & _). by destruct (Hni x Hx); congruence.
  - intros k Hk. lia.
  - intros x Hx E. by destruct (Hni x Hx).
Qed.
Lemma starts_at_continues t e0 e : memory_wf t → e0 ∈ mt_entries t → me_state e0 ≠ "deleted" →
  me_id e = me_id e0 → me_scope e = me_scope e0 → me_created_at e = me_created_at e0 → me_revision e = (me_revision e0 + 1)%Z → (me_revision e <= 256)%Z →
  continues t e.
Proof.
  intros Hwf Hin Hd Hid Hsc Hcr Hr Hb. assert (Huniq : ∀ x, x ∈ mt_entries t → me_id x = me_id e → x = e0).
  { intros x Hx E. eapply (NoDup_map_inj me_id); [apply Hwf|done..|congruence]. }
  pose proof (mw_bounds t Hwf e0 Hin) as Hb0. split; rewrite ?(upsert_at e0) by (done || apply Hwf).
  - intros x. rewrite elem_of_update_rows. split.
    + intros (y & Hy & ->). case_bool_decide as Ey; [by left|by right].
    + intros [->|[Hx Hne]]; [exists e0|exists x]; (split; [done|]); [by rewrite bool_decide_eq_true_2|by rewrite bool_decide_eq_false_2].
  - unfold update_rows. rewrite map_map. erewrite map_ext_in; [apply Hwf|]. intros x Hx. simpl. by case_bool_decide.
  - apply grows_update_rows; [apply _|]. intros x Hx Ex%bool_decide_eq_true. rewrite (Huniq x Hx Ex). split; try done; lia.
  - lia.
  - intros v Hv E. destruct (mw_entry t Hwf v Hv) as (x & Hx & Ex & Hvr). rewrite (Huniq x Hx) in Hvr by congruence. lia.
  - intros k Hk. destruct (mw_history t Hwf e0 k Hin Hd) as (v & Hv & Ev & Er); [lia|]. exists v. by rewrite Hid.
  - intros x Hx E. rewrite (Huniq x Hx E). split; [lia|done].
Qed.
Lemma mutation_continues a m i t e e' : memory_wf t → i ∉ map me_id (mt_entries t) → starts a m i t e → (me_revision e <= 256)%Z →
  apply_action a m e = Ok e' → continues t e'.
Proof.
  intros Hwf Hi Hst Hb Ha. destruct (key_unchanged_entry _ _ _ _ Ha) as (E1 & E2 & E3 & E4 & _). destruct Hst as [created updated Hc|e0 g now Hc Hin _ Hid Hsc _ _ _ Hd Hr].
  - apply starts_new_continues; [done|by rewrite E1|by rewrite E3].
  - apply (starts_at_continues t e0); try done. by rewrite E3.
Qed.

(** Saving the entry keeps the tables well formed and moves them forward. *)
Lemma save_alive t e reason : memory_wf t → continues t e → me_state e ≠ "deleted" →
  let t' := mkMemory (upsert_entry e (mt_entries t)) (mt_revisions t ++ [revision_of e reason]) (mt_operations t) in memory_wf t' ∧ memory_le t t'.
Proof.
  intros Hwf [C1 C2 C3 C4 C5 C6 C7] Hd t'. assert (Hv : ∀ v, v ∈ mt_revisions t' ↔ v ∈ mt_revisions t ∨ v = revision_of e reason).
  { intros v. unfold t'. simpl. by rewrite elem_of_app, list_elem_of_singleton. }
  split; [|split; [done|intros v Hx; left; apply Hv; by left|done]]. split; simpl.
  - done.
  - intros x [->|[Hx _]]%C1; [done|by apply Hwf].
  - intros x [->|[Hx Hne]]%C1 Hs; [done|]. destruct (mw_erased t Hwf x Hx Hs) as [He Hnv]. split; [done|].
    intros v [Hin| ->]%Hv; [by apply Hnv|]. intros E. by apply Hne.
  - rewrite map_app. apply NoDup_app. split; [apply Hwf|]. split; [|apply NoDup_singleton].
    intros k (v & -> & Hin)%list_elem_of_fmap E%list_elem_of_singleton. injection E as E1 E2. pose proof (C5 v Hin E1). simpl in *. lia.
  - intros v [Hin| ->]%Hv.
    + destruct (mw_entry t Hwf v Hin) as (x & Hx & Ex & Hr). destruct (decide (me_id x = me_id e)) as [E|E].
      * exists e. split; [apply C1; by left|]. split; [congruence|]. pose proof (C5 v Hin ltac:(congruence)). lia.
      * exists x. split; [apply C1; by right|done].
    + exists e. split; [apply C1; by left|]. split; [done|]. simpl. lia.
  - intros x k [->|[Hx Hne]]%C1 Hs Hk.
    + destruct (decide (k = me_revision e)) as [->|Hk']; [exists (revision_of e reason); split; [apply Hv; by right|done]|].
      destruct (C6 k ltac:(lia)) as (v & Hin & E). exists v. split; [apply Hv; by left|done].
    + destruct (mw_history t Hwf x k Hx Hs Hk) as (v & Hin & E). exists v. split; [apply Hv; by left|done].
  - intros x [->|[Hx Hne]]%C1 Hs; [exists reason; apply Hv; by right|]. destruct (mw_current t Hwf x Hx Hs) as [rs Hin]. exists rs. apply Hv. by left.
  - intros key h r Ho. destruct (mw_receipts t Hwf key h r Ho) as (x & Hx & Ex & Hr). destruct (decide (me_id x = me_id e)) as [E|E].
    + exists e. split; [apply C1; by left|]. split; [congruence|]. destruct (C7 x Hx E). lia.
    + exists x. split; [apply C1; by right|done].
Qed.
Lemma save_erased t e : memory_wf t → continues t e → e = erase e →
  let t' := mkMemory (upsert_entry e (mt_entries t)) (filter (λ v, mv_entry v ≠ me_id e) (mt_revisions t)) (mt_operations t) in memory_wf t' ∧ memory_le t t'.
Proof.
  intros Hwf [C1 C2 C3 C4 C5 C6 C7] He t'. assert (Hv : ∀ v, v ∈ mt_revisions t' ↔ mv_entry v ≠ me_id e ∧ v ∈ mt_revisions t).
  { intros v. unfold t'. simpl. by rewrite list_elem_of_filter. }
  assert (Hse : me_state e = "deleted") by (by rewrite He).
  split; [|split; [done| |done]].
  - split; simpl.
    + done.
    + intros x [->|[Hx _]]%C1; [done|by apply Hwf].
    + intros x [->|[Hx Hne]]%C1 Hs; [rewrite He at 1 2 3 4; split; [done|]; by intros v [? _]%Hv|].
      destruct (mw_erased t Hwf x Hx Hs) as [Her Hnv]. split; [done|]. intros v [_ Hin]%Hv. by apply Hnv.
    + apply NoDup_map_filter, Hwf.
    + intros v [Hne Hin]%Hv. destruct (mw_entry t Hwf v Hin) as (x & Hx & Ex & Hr). exists x. split; [apply C1; right; split; [done|congruence]|done].
    + intros x k [->|[Hx Hne]]%C1 Hs Hk; [done|]. destruct (mw_history t Hwf x k Hx Hs Hk) as (v & Hin & E1 & E2).
      exists v. split; [apply Hv; split; [congruence|done]|done].
    + intros x [->|[Hx Hne]]%C1 Hs; [done|]. destruct (mw_current t Hwf x Hx Hs) as [rs Hin]. exists rs. by apply Hv.
    + intros key h r Ho. destruct (mw_receipts t Hwf key h r Ho) as (x & Hx & Ex & Hr). destruct (decide (me_id x = me_id e)) as [E|E].
      * exists e. split; [apply C1; by left|]. split; [congruence|]. destruct (C7 x Hx E). lia.
      * exists x. split; [apply C1; by right|done].
  - intros v Hin. destruct (decide (mv_entry v = me_id e)) as [E|E]; [right; exists e; split; [apply C1; by left|done]|left; by apply Hv].
Qed.

Lemma record_receipt_wf a m r t : memory_wf t → mt_operations t !! key_of a m = None →
  (∃ e, e ∈ mt_entries t ∧ me_id e = mc_entry r ∧ (mc_revision r <= me_revision e)%Z) →
  memory_wf (record_receipt a m r t) ∧ memory_le t (record_receipt a m r t).
Proof.
  intros Hwf Hno Hr. split.
  - split; try apply Hwf. intros key h r' Hl. cbn [record_receipt mt_operations] in Hl.
    apply lookup_insert_Some in Hl as [[<- [= <- <-]]|[_ Ho]]; [done|by eapply (mw_receipts t Hwf)].
  - split; [done|by left|]. by apply insert_subseteq.
Qed.
Lemma same_document_found wanted e l r : same_document wanted e l = Some (Ok r) → mc_entry r = me_id e ∧ mc_revision r = me_revision e ∧ mc_duplicate r = true ∧
  mc_state r = me_state e ∧ ∃ s, s ∈ l ∧ so_kind s = "file" ∧ so_hash s = so_hash wanted.
Proof.
  induction l as [|s l IH]; simpl; [done|]. intros Hs.
  assert (Hrec : same_document wanted e l = Some (Ok r) → mc_entry r = me_id e ∧ mc_revision r = me_revision e ∧ mc_duplicate r = true ∧
    mc_state r = me_state e ∧ ∃ s0, s0 ∈ s :: l ∧ so_kind s0 = "file" ∧ so_hash s0 = so_hash wanted).
  { intros E. destruct (IH E) as (? & ? & ? & ? & s0 & ? & ?). split_and!; try done. exists s0. split; [by right|done]. }
  case_bool_decide as Ek; [|auto]. case_bool_decide as Eh; [|case_bool_decide; [done|auto]].
  injection Hs as <-. split_and!; try done. exists s. split; [by left|done].
Qed.
Lemma same_documents_found wanted l r : same_documents wanted l = Some (Ok r) → ∃ e, e ∈ l ∧ mc_entry r = me_id e ∧ mc_revision r = me_revision e ∧
  mc_duplicate r = true ∧ mc_state r = me_state e ∧ ∃ s, s ∈ me_sources e ∧ so_kind s = "file" ∧ so_hash s = so_hash wanted.
Proof.
  induction l as [|e l IH]; simpl; [done|]. destruct (same_document _ _ _) as [q|] eqn:E.
  - intros [= ->]. exists e. split; [by left|]. by apply same_document_found.
  - intros Hs. destruct (IH Hs) as (x & Hx & Hr). exists x. split; [by right|done].
Qed.
Lemma duplicate_found d m r : duplicateKnowledgeSource d m = Ok (Some r) → ∃ wanted e, file_source (mut_sources m) = Some wanted ∧
  e ∈ mt_entries (memory d) ∧ me_scope e = mkScope "knowledge" (ms_owner (mut_scope m)) (ms_project (mut_scope m)) "" ∧ me_state e ≠ "deleted" ∧
  mc_entry r = me_id e ∧ mc_revision r = me_revision e ∧ mc_duplicate r = true ∧ mc_state r = me_state e ∧
  ∃ s, s ∈ me_sources e ∧ so_kind s = "file" ∧ so_hash s = so_hash wanted.
Proof.
  unfold duplicateKnowledgeSource. destruct (negb _); [done|]. destruct (file_source _) as [wanted|]; [|done].
  destruct (same_documents _ _) as [[q|]|] eqn:E; intros [= <-]. apply same_documents_found in E as (e & He & Hr).
  apply list_elem_of_filter in He as [Hp He]. bool_prop. exists wanted, e. done.
Qed.

Lemma mutated_wf a m i d r t : memory_wf (memory d) → i ∉ map me_id (mt_entries (memory d)) → mutated a m i d r t →
  memory_wf t ∧ memory_le (memory d) t.
Proof.
  intros Hwf Hi Hm. destruct Hm as [r Ho|r Ho Ha Hu Hx|e e' g Ho Hg Hst Hb Ha Hc Hno].
  - split; [done|reflexivity].
  - apply record_receipt_wf; try done. apply duplicate_found in Hx as (_ & e & _ & He & _ & _ & E1 & E2 & _). exists e. by rewrite E1, E2.
  - pose proof (mutation_continues _ _ _ _ _ _ Hwf Hi Hst Hb Ha) as Hco.
    assert (Hs : memory_wf (save_entry m e' (memory d)) ∧ memory_le (memory d) (save_entry m e' (memory d))).
    { unfold save_entry. destruct (apply_action_state _ _ _ _ (starts_alive _ _ _ _ _ Hst) Ha) as [(Ed & _ & ->)|[Ed Hd]].
      - rewrite (bool_decide_eq_true_2 _ Ed). by apply save_erased.
      - rewrite (bool_decide_eq_false_2 _ Ed). by apply save_alive. }
    destruct Hs as [Hs Hle]. destruct (record_receipt_wf a m (receipt_of m e') _ Hs Ho) as [Hr Hle'].
    + exists e'. split; [simpl; apply (co_elem _ _ Hco); by left|]. simpl. split; [done|lia].
    + split; [done|]. by etrans.
Qed.

(** The content an entry shows. *)
Definition content (e : MemoryEntry) := (me_kind e, me_title e, me_body e, me_sources e).
Definition wanted (m : MemoryMutation) := (mut_kind m, mut_title m, mut_body m, mut_sources m).

(** What each action makes of the entry [e]. *)
Definition acted (a : memoryAuthority) (m : MemoryMutation) (e e' : MemoryEntry) : Prop :=
  let act x := mut_action m = x in
  (act "create" ∨ act "update" → content e' = wanted m ∧ me_state e' = me_state e ∧ me_pinned e' = me_pinned e) ∧
  (act "disable" → me_state e = "active" ∧ me_state e' = "disabled" ∧ content e' = content e ∧ me_pinned e' = me_pinned e) ∧
  (act "enable" → me_state e = "disabled" ∧ me_state e' = "active" ∧ content e' = content e ∧ me_pinned e' = me_pinned e) ∧
  (act "pin" → au_user a = true ∧ me_state e' = "active" ∧ ms_task (me_scope e) = "" ∧ content e' = content e ∧ me_pinned e' = mut_pinned m) ∧
  (act "unpin" → au_user a = true ∧ me_state e' = me_state e ∧ content e' = content e ∧ me_pinned e' = None) ∧
  (act "delete" → au_user a = true ∧ content e' = (me_kind e, "", "", []) ∧ me_state e' = "deleted" ∧ me_pinned e' = None).
Lemma apply_action_acted a m e e' : me_state e ≠ "deleted" → apply_action a m e = Ok e' → acted a m e e'.
Proof.
  unfold apply_action, writes_content, acted. intros Hs Ha. apply res_bind_ok in Ha as ([] & Hg%check_ok & Ha).
  split_and!; intros E; try (destruct E as [E|E]); rewrite !E in Ha, Hg; repeat (case_bool_decide; try done); cbn in Hg, Ha; res_steps; bool_prop; done.
Qed.
Lemma action_listed m : mutation_validate m = Ok tt → mut_action m ∈ memory_actions.
Proof. unfold mutation_validate. intros Hv. apply res_bind_ok in Hv as ([] & _ & Hv). cbv zeta in Hv. apply res_bind_ok in Hv as ([] & Hv%check_ok%negb_true_iff & _).
  repeat (apply orb_false_iff in Hv as [Hv ?]). repeat match goal with Hx : negb _ = false |- _ => apply negb_false_iff in Hx end. by eapply bool_decide_eq_true_1.
Qed.

(** C36: What a mutation of memory does. When it goes through, the rest of the
    database is untouched, and memory either already held its receipt, or the
    same document, and then no entry changes; or exactly one entry changes: a
    created one is new, active and at revision 1, any other was at exactly the
    revision the mutation expected and is now at the next one, signed by its
    author and changed as the action says, deletion erasing its content. The
    tables stay well formed (every entry that is not deleted keeps the whole
    numbered history of its revisions, a deleted one none), entries never go
    back, and receipts are never forgotten. *)
Theorem mutation_effect a m r w w' : mutateMemoryTx a m w = (Ok r, w') → memory_wf (memory (w_db w)) →
  newID_at (w_ids w) ∉ map me_id (mt_entries (memory (w_db w))) →
  let t := memory (w_db w) in let t' := memory (w_db w') in
  w_db w' = set_memory t' (w_db w) ∧ memory_wf t' ∧ memory_le t t' ∧
  (mc_duplicate r = true ∧ mt_entries t' = mt_entries t ∧ mt_revisions t' = mt_revisions t ∨
   mc_duplicate r = false ∧ mt_operations t !! key_of a m = None ∧ mt_operations t' !! key_of a m = Some (hash_of a m, r) ∧
   ∃ e', e' ∈ mt_entries t' ∧ (me_id e', me_revision e', me_state e') = (mc_entry r, mc_revision r, mc_state r) ∧
     me_scope e' = mut_scope m ∧ me_author e' = author_of a ∧ (∀ x, me_id x ≠ me_id e' → x ∈ mt_entries t' ↔ x ∈ mt_entries t) ∧
     (mut_action m = "create" → me_id e' ∉ map me_id (mt_entries t) ∧ me_revision e' = 1%Z ∧ me_state e' = "active" ∧ content e' = wanted m) ∧
     (mut_action m ≠ "create" → ∃ e, e ∈ mt_entries t ∧ me_id e = mut_entry m ∧ me_id e' = mut_entry m ∧ me_state e ≠ "deleted" ∧
        me_revision e = mut_expected m ∧ me_revision e' = (mut_expected m + 1)%Z ∧ acted a m e e')).
Proof.
  intros Hm Hwf Hi. apply mutate_ok in Hm as (Hv & _ & t & Hm & Hdb). cbv zeta. rewrite Hdb. simpl.
  destruct (mutated_wf _ _ _ _ _ _ Hwf Hi Hm) as [Hwf' Hle]. split; [done|]. split; [done|]. split; [done|].
  destruct Hm as [r Ho|r Ho Ha Hu Hx|e e' g Ho Hg Hst Hb Ha Hc Hno]; [by left|left; apply duplicate_found in Hx; naive_solver|].
  right. split; [done|]. split; [done|]. split; [apply lookup_insert_eq|].
  pose proof (mutation_continues _ _ _ _ _ _ Hwf Hi Hst Hb Ha) as Hco.
  destruct (key_unchanged_entry _ _ _ _ Ha) as (E1 & E2 & E3 & E4 & E5).
  pose proof (apply_action_acted _ _ _ _ (starts_alive _ _ _ _ _ Hst) Ha) as Hact.
  exists e'. simpl. split; [apply (co_elem _ _ Hco); by left|]. split; [done|].
  split; [by rewrite E2; destruct Hst|]. split; [by rewrite E5; destruct Hst|]. split.
  { intros x Hne. rewrite (co_elem _ _ Hco). naive_solver. }
  destruct Hst as [created updated Hcr|e0 g0 now Hcr Hin _ Hid Hsc _ _ _ Hd Hr]; (split; intros Ecr; [|]); try done.
  - rewrite E1, E3. split; [done|]. split; [done|]. destruct Hact as [Hact _]. destruct (Hact (or_introl Ecr)) as (? & -> & _). done.
  - exists e0. rewrite E1, E3. simpl. rewrite Hid, <- Hr. done.
Qed.

(** ** What an agent reaches *)
Lemma read_only_references l gs : (∀ g, g ∈ gs → mg_append g = false ∧ mg_modify g = false) →
  ∀ g, g ∈ foldl (λ l r, add_reference r l) gs l → mg_append g = false ∧ mg_modify g = false.
Proof.
  revert gs. induction l as [|r l IH]; intros gs Hgs; simpl; [done|]. apply IH. clear IH. intros g.
  induction gs as [|h gs IH]; simpl.
  - intros ->%list_elem_of_singleton. done.
  - case_bool_decide; intros [->|Hg]%elem_of_cons.
    + apply (Hgs h). by left.
    + apply Hgs. by right.
    + apply Hgs. by left.
    + apply IH; [|done]. intros x Hx. apply Hgs. by right.
Qed.
Lemma agent_grant a s act g : au_user a = false → authority_grant a s act = Ok g →
  g ∈ au_grants a ∧ mg_scope g = s ∧ grant_allows act g = true ∧ grant_validate g = Ok tt ∧ scope_validate s = Ok tt ∧
  (ms_project s = "" ∨ ms_project s = au_project a) ∧
  (ms_kind s = "private" → ms_owner s = au_agent a ∧ (ms_task s = "" ∨ ms_task s = au_run a)) ∧
  (ms_kind s = "shared" → ms_owner s = au_parent a) ∧
  (act ≠ "read" → ms_kind s ≠ "knowledge" ∧ (ms_kind s = "private" → ms_task s ≠ "")).
Proof.
  intros Hu. unfold authority_grant. rewrite Hu. intros Hg. apply res_bind_ok in Hg as ([] & Hp%check_ok & Hg).
  apply andb_true_iff in Hp as [Hs%is_ok_tt Hp]. apply orb_true_iff in Hp.
  apply res_bind_ok in Hg as ([] & Ho%check_ok%negb_true_iff & Hg). apply res_bind_ok in Hg as ([] & Hk%check_ok%negb_true_iff & Hg).
  destruct (List.find _ _) as [g'|] eqn:Ef; [|done]. injection Hg as ->. apply find_elem in Ef as [Hin Hf].
  apply andb_true_iff in Hf as [Hf Hal]. apply andb_true_iff in Hf as [Hsc%bool_decide_eq_true Hgv%is_ok_tt].
  split_and!; try done.
  - destruct Hp as [Hp|Hp]; apply bool_decide_eq_true in Hp; auto.
  - intros E. rewrite E in Ho. repeat (case_bool_decide; try done); simpl in Ho; rewrite ?orb_true_r in Ho; try done; auto.
  - intros E. rewrite E in Ho. repeat (case_bool_decide; try done); simpl in Ho; rewrite ?orb_true_r in Ho; done.
  - intros Hr. rewrite (bool_decide_eq_false_2 (act = "read")) in Hk by done. repeat (case_bool_decide; try done); naive_solver.
Qed.
Lemma grant_writes p run project s act g : act ≠ "read" → authority_grant (policy_authority run project p) s act = Ok g →
  sel_task_private (mp_selection p) = true ∧ s = mkScope "private" (mp_agent p) project run ∨
  mp_shared p = Some g ∧ mg_scope g = s ∧ grant_allows act g = true ∧
    (ms_kind s = "private" → ms_owner s = mp_agent p ∧ ms_task s = run) ∧ (ms_kind s = "shared" → ms_owner s = mp_parent p) ∧ ms_kind s ≠ "knowledge".
Proof.
  intros Hact Hg. apply agent_grant in Hg as (Hin & Hsc & Hal & _ & _ & _ & Hpr & Hsh & Hk); [|done]. destruct (Hk Hact) as [Hk1 Hk2].
  simpl in Hin, Hpr, Hsh. assert (Hw : mg_append g = false ∧ mg_modify g = false → False).
  { intros [E1 E2]. unfold grant_allows in Hal. repeat case_bool_decide; congruence. }
  apply elem_of_app in Hin as [Hin|Hin]; [exfalso; apply Hw; revert Hin; apply read_only_references; by intros ? ?%elem_of_nil|].
  apply elem_of_app in Hin as [Hin|Hin].
  { left. destruct (sel_task_private _ && _) eqn:E; [|by apply elem_of_nil in Hin]. apply andb_true_iff in E as [E _].
    apply list_elem_of_singleton in Hin as ->. done. }
  apply elem_of_app in Hin as [Hin|Hin].
  2: { exfalso. apply Hw. apply list_elem_of_fmap in Hin as (x & -> & _). done. }
  right. destruct (mp_shared p) as [g'|]; [apply list_elem_of_singleton in Hin as ->|by apply elem_of_nil in Hin]. split_and!; try done.
  intros E. destruct (Hpr E) as [? [Ht|Ht]]; [by destruct (Hk2 E)|done].
Qed.

(** C37: What an agent writes stays where its run was sent. Whatever mutation a
    run's agent gets through, with the policy the run froze, goes to the run's own
    working scope, when the policy opens it, or to the shared scope it was granted,
    with the right the action needs; never to knowledge, nor to what an agent
    retains. Entries of every other scope are untouched, no entry is deleted, none
    of the history is lost, and entries only move forward. *)
Theorem agent_writes_confined p run project m r w w' :
  mutateMemoryTx (policy_authority run project p) m w = (Ok r, w') → memory_wf (memory (w_db w)) →
  newID_at (w_ids w) ∉ map me_id (mt_entries (memory (w_db w))) →
  let t := memory (w_db w) in let t' := memory (w_db w') in let s := mut_scope m in
  (sel_task_private (mp_selection p) = true ∧ s = mkScope "private" (mp_agent p) project run ∨
   ∃ g, mp_shared p = Some g ∧ mg_scope g = s ∧ (if bool_decide (mut_action m = "create") then mg_append g else mg_modify g) = true ∧
     (ms_kind s = "private" → ms_owner s = mp_agent p ∧ ms_task s = run) ∧ (ms_kind s = "shared" → ms_owner s = mp_parent p) ∧ ms_kind s ≠ "knowledge") ∧
  (∀ x, me_scope x ≠ s → x ∈ mt_entries t' ↔ x ∈ mt_entries t) ∧
  (∀ e, e ∈ mt_entries t → ∃ e', e' ∈ mt_entries t' ∧ entry_le e e' ∧ (me_state e' = "deleted" → e' = e)) ∧
  (∀ v, v ∈ mt_revisions t → v ∈ mt_revisions t').
Proof.
  intros Hm Hwf Hi. apply mutate_ok in Hm as (Hv & Hg & t & Hm & Hdb). cbv zeta. rewrite Hdb. simpl.
  pose proof (action_listed _ Hv) as Hlist. assert (Hr : mut_action m ≠ "read") by (intros E; rewrite E in Hlist; set_solver).
  split.
  { destruct (authority_grant _ _ _) as [g|] eqn:Eg; [|done]. apply grant_writes in Eg as [Eg|(E1 & E2 & E3 & E4)]; [by left| |done].
    right. exists g. split; [done|]. split; [done|]. split; [|done]. unfold grant_allows in E3. by rewrite (bool_decide_eq_false_2 (mut_action m = "read")) in E3. }
  destruct (mutated_wf _ _ _ _ _ _ Hwf Hi Hm) as [Hwf' Hle].
  destruct Hm as [r Ho|r Ho Ha Hu Hx|e e' g Ho Hg' Hst Hb Ha Hc Hno]; [split; [done|]; split; [|done]; intros e He; exists e; split; [done|by split]|done|].
  pose proof (mutation_continues _ _ _ _ _ _ Hwf Hi Hst Hb Ha) as Hco. destruct (key_unchanged_entry _ _ _ _ Ha) as (_ & E2 & _).
  assert (Hs : me_scope e' = mut_scope m) by (rewrite E2; by destruct Hst).
  destruct (apply_action_state _ _ _ _ (starts_alive _ _ _ _ _ Hst) Ha) as [(_ & ? & _)|[Hnd Hd]]; [done|].
  simpl. rewrite (bool_decide_eq_false_2 _ Hnd). split; [|split].
  - intros x Hx. rewrite (co_elem _ _ Hco). split; [intros [->|[Hin _]]; done|]. intros Hin. right. split; [done|].
    intros E. destruct (co_place _ _ Hco x Hin E) as (_ & _ & E'). congruence.
  - intros x Hx. destruct (grows_elem _ _ _ _ (co_grows _ _ Hco) Hx) as (y & Hy & Hxy). exists y. split; [done|]. split; [done|].
    intros Hyd. apply (co_elem _ _ Hco) in Hy as [->|[Hy Hne]]; [done|]. eapply (NoDup_map_inj me_id); [apply Hwf|done..|apply Hxy].
  - intros v Hv'. apply elem_of_app. by left.
Qed.

(** ** What a request cites *)

(** What the conversation selected, or nothing. *)
Definition chat_selection (d : db) (chat : string) : MemorySelection :=
  match meta d !! chatMemoryKey chat with Some (MMemory s) => s | _ => noSelection end.
(** A pin that still reaches the run's conversation. *)
Definition pin_live (d : db) (run : Run) (u : MemoryUse) : Prop :=
  ∃ c s pin, find_conversation (run_conversation run) d = Some c ∧ meta d !! permissionKey (cv_space c) = Some (MPermission s) ∧ mu_pinned u = Some pin ∧
    let sel := chat_selection d (run_conversation run) in
    mu_entry u ∉ sel_excluded_pins sel ∧
    (pin_scope pin = "conversation" ∧ pin_target pin = run_conversation run ∨
     (cv_space c = LocalSpaceID ∨ ps_owner_private s = true) ∧
       (pin_scope pin = "global" ∨ pin_scope pin = "workspace" ∧ pin_target pin = rc_workspace (run_config run)) ∨
     mu_entry u ∈ sel_pinned_grants sel).
Lemma validateLivePin_ok d run u : validateLivePin d run u (rc_workspace (run_config run)) = Ok tt → pin_live d run u.
Proof.
  unfold validateLivePin, pin_live, chat_selection. intros Hv. apply res_bind_ok in Hv as (c & Hc & Hv).
  destruct (find_conversation _ d) as [c'|]; [|done]. injection Hc as ->.
  apply res_bind_ok in Hv as (s & Hs & Hv). destruct (meta d !! permissionKey _) as [[]|] eqn:Es; try done. injection Hs as ->.
  apply res_bind_ok in Hv as (sel & Hsel & Hv). apply res_bind_ok in Hv as ([] & Hex%check_ok%negb_true_iff%bool_decide_eq_false & Hv).
  destruct (mu_pinned u) as [pin|]; [|done]. apply check_ok in Hv. exists c, s, pin. split_and!; try done.
  - destruct (meta d !! chatMemoryKey _) as [[]|]; naive_solver.
  - assert (Esel : sel = match meta d !! chatMemoryKey (run_conversation run) with Some (MMemory s0) => s0 | _ => noSelection end)
      by (destruct (meta d !! chatMemoryKey _) as [[]|]; naive_solver).
    rewrite <- Esel. apply orb_true_iff in Hv as [Hv|Hv]; [|right; right; by eapply bool_decide_eq_true_1].
    apply orb_true_iff in Hv as [Hv|Hv]; apply andb_true_iff in Hv as [H1 H2]; [left; split; by eapply bool_decide_eq_true_1|].
    right; left. apply orb_true_iff in H1, H2. split; [destruct H1 as [H1|H1]; [left; by eapply bool_decide_eq_true_1|by right]|].
    destruct H2 as [H2|H2]; [left; by eapply bool_decide_eq_true_1|right]. apply andb_true_iff in H2 as [H2 H3].
    split; by eapply bool_decide_eq_true_1.
Qed.

(** Reading with an authority. *)
Lemma memory_row_ok d a s i act e : memory_row d a s i act = Ok e →
  e ∈ mt_entries (memory d) ∧ me_id e = i ∧ me_scope e = s ∧ ∃ g, authority_grant a s act = Ok g ∧ granted g s e = true.
Proof.
  unfold memory_row. intros Hm. apply res_bind_ok in Hm as (g & Hg & Hm). destruct (find_entry i d) as [e'|] eqn:Ef; [|done].
  destruct (granted g s e') eqn:Eg; [|done]. assert (e = e') as <- by (unfold scanMemory in Hm; by res_steps).
  apply find_elem in Ef as [Hin Hid%bool_decide_eq_true]. split_and!; try done; [|eauto].
  unfold granted in Eg. apply andb_true_iff in Eg as [Eg _]. apply andb_true_iff in Eg as [Eg _]. by apply bool_decide_eq_true in Eg.
Qed.
Lemma check_use_ok d run p seen u : check_use d run p seen u = Ok tt →
  use_ref u ∉ seen ∧ ∃ e, e ∈ mt_entries (memory d) ∧ me_id e = mu_entry u ∧ u = memoryUse e ∧
    (is_pin p u = true ∧ pin_live d run u ∨
     is_pin p u = false ∧ use_ref u ∈ sel_entries (mp_selection p) ∧
       ∃ g, g ∈ au_grants (policy_authority (run_id run) (rc_workspace (run_config run)) p) ∧ mg_scope g = me_scope e ∧ mg_read g = true ∧ granted g (me_scope e) e = true ∧
         (ms_kind (me_scope e) = "private" → ms_owner (me_scope e) = mp_agent p)).
Proof.
  unfold check_use. intros Hc. apply res_bind_ok in Hc as ([] & Hs%check_ok%negb_true_iff & Hc). apply orb_false_iff in Hs as [Hs Hsel].
  apply bool_decide_eq_false in Hs. split; [done|]. apply res_bind_ok in Hc as ([] & Hpin & Hc). apply res_bind_ok in Hc as (e & He & Hc).
  apply check_ok, bool_decide_eq_true in Hc. apply memory_row_ok in He as (Hin & Hid & Hsc & g & Hg & Hgr). exists e. split_and!; try done.
  destruct (is_pin p u); [left; split; [done|by apply validateLivePin_ok]|right]. split; [done|].
  simpl in Hsel. rewrite andb_true_r in Hsel. apply negb_false_iff, bool_decide_eq_true in Hsel. split; [done|].
  apply agent_grant in Hg as (Hing & Hgs & Hal & _ & _ & _ & Hpr & _); [|done]. exists g. rewrite Hsc. split_and!; try done.
  intros E. by apply Hpr.
Qed.

(** C40: What a request to a model cites from memory is what memory holds. When
    the check before the call passes, the request cites at most as many entries as
    the run's configuration allows, none twice, and every citation (revision,
    state, digest, author and sources) is exactly that of a current entry, which
    the run's frozen policy either selected, under a grant it gives the run, and
    of the agent's own scope if private, or pinned, and then the pin still reaches
    the run's conversation and was not excluded there. The check changes nothing. *)
Theorem request_memory_exact run q u w w' : validateRequestMemory run q w = (Ok u, w') →
  w' = w ∧ (zlen (rq_memory q) <= rc_memory_entries (run_config run))%Z ∧ NoDup (map use_ref (rq_memory q)) ∧
  ∀ c, c ∈ rq_memory q → ∃ p e, rc_memory (run_config run) = Some p ∧ e ∈ mt_entries (memory (w_db w)) ∧ me_id e = mu_entry c ∧ c = memoryUse e ∧
    (is_pin p c = true ∧ pin_live (w_db w) run c ∨
     is_pin p c = false ∧ use_ref c ∈ sel_entries (mp_selection p) ∧
       ∃ g, g ∈ au_grants (policy_authority (run_id run) (rc_workspace (run_config run)) p) ∧ mg_scope g = me_scope e ∧ mg_read g = true ∧
         granted g (me_scope e) e = true ∧ (ms_kind (me_scope e) = "private" → ms_owner (me_scope e) = mp_agent p)).
Proof.
  unfold validateRequestMemory. rewrite bind_query. intros Hv. apply lift_ok in Hv as [Hv <-]. split; [done|].
  apply res_bind_ok in Hv as ([] & Hn%check_ok%Z.leb_le & Hv). split; [done|]. unfold id in Hv.
  destruct (rc_memory (run_config run)) as [p|] eqn:Ep.
  2: { destruct (rq_memory q) as [|c l]; [split; [constructor|by intros c ?%elem_of_nil]|done]. }
  assert (Hc : check_uses (w_db w) run p [] (rq_memory q) = Ok tt) by (destruct (rq_memory q), u; done). clear Hv Hn.
  assert (Hg : ∀ l seen, check_uses (w_db w) run p seen l = Ok tt → NoDup (map use_ref l) ∧ (∀ c, c ∈ l → use_ref c ∉ seen) ∧
     ∀ c, c ∈ l → ∃ seen, check_use (w_db w) run p seen c = Ok tt).
  { induction l as [|c l IH]; intros seen Hl; [split_and!; [constructor|by intros c ?%elem_of_nil..]|]. simpl in Hl.
    apply res_bind_ok in Hl as ([] & H1 & H2). destruct (IH _ H2) as (A & B & C). pose proof (proj1 (check_use_ok _ _ _ _ _ H1)) as H0. split_and!.
    - apply NoDup_cons. split; [|done]. intros (x & E & Hx)%list_elem_of_fmap. apply (B x Hx). rewrite <- E. by left.
    - intros x [->|Hx]%elem_of_cons; [done|]. intros Hs. apply (B x Hx). by right.
    - intros x [->|Hx]%elem_of_cons; eauto. }
  destruct (Hg _ _ Hc) as (A & _ & C). split; [done|]. intros c Hin. destruct (C c Hin) as (seen & Hcu).
  apply check_use_ok in Hcu as (_ & e & He & Hid & Eq & Hr). exists p, e. done.
Qed.

(** ** Reading *)

(** A reader who asks for one page after another, each from where the last one
    ended, until the whole entry was read. *)
Fixpoint read_pages (fuel : nat) (d : db) (a : memoryAuthority) (s : MemoryScope) (id : string) (total offset maxBytes : Z) : res (list MemoryPage) :=
  match fuel with
  | O => Ok []
  | S fuel =>
      if (total <=? offset)%Z then Ok []
      else p ← readMemoryPage d a s id offset maxBytes; rest ← read_pages fuel d a s id total (pg_end p) maxBytes; Ok (p :: rest)
  end.
Lemma read_pages_spec d a s id maxBytes e fuel offset l : getMemory d a s id "read" = Ok e → me_state e = "active" →
  pages fuel (me_body e) offset maxBytes = Ok l →
  ∃ ps, read_pages fuel d a s id (Z.of_nat (String.length (me_body e))) offset maxBytes = Ok ps ∧ map (λ p, me_body (pg_entry p)) ps = l ∧
    Forall (λ p, pg_source_hash p = sha256hex (me_body e) ∧ (mu_entry (pg_use p), mu_revision (pg_use p)) = (me_id e, me_revision e) ∧
      me_revision (pg_entry p) = me_revision e ∧ mu_excerpt (pg_use p) = Some (mkExcerpt (pg_start p) (pg_end p) (sha256hex (me_body (pg_entry p))))) ps.
Proof.
  intros He Hs. revert offset l. induction fuel as [|fuel IH]; intros offset l; simpl; [intros [= <-]; by exists []|].
  destruct (_ <=? offset)%Z; [intros [= <-]; by exists []|]. intros Hp.
  apply res_bind_ok in Hp as (stop & Hstop & Hp). apply res_bind_ok in Hp as (rest & Hrest & [= <-]). destruct (IH _ _ Hrest) as (ps & Hps & Hm & Hall).
  unfold readMemoryPage at 1. rewrite He. simpl. rewrite (bool_decide_eq_true_2 _ Hs). simpl. rewrite Hstop. simpl. rewrite Hps. simpl.
  eexists. split; [done|]. simpl. rewrite Hm. split; [done|]. constructor; [|done]. simpl. by rewrite ?(bool_decide_eq_true_2 _ Hs).
Qed.

(** Reading memory page by page loses nothing. Whoever may read an active
    entry gets, with pages of at least four bytes and each page from where the
    last one ended, finitely many pages whose texts concatenate to the entry's
    whole body: every page is valid UTF-8, not empty and within the bound, and
    cites the same revision, the digest of the whole source and that of its own
    excerpt. *)
Theorem memory_pages_whole d a s id maxBytes e : getMemory d a s id "read" = Ok e → me_state e = "active" → ValidString (me_body e) = true → (4 <= maxBytes)%Z →
  ∃ ps, read_pages (String.length (me_body e)) d a s id (Z.of_nat (String.length (me_body e))) 0 maxBytes = Ok ps ∧
    concat_s (map (λ p, me_body (pg_entry p)) ps) = me_body e ∧
    Forall (λ p, ValidString (me_body (pg_entry p)) = true ∧ me_body (pg_entry p) ≠ "" ∧ (Z.of_nat (String.length (me_body (pg_entry p))) <= maxBytes)%Z ∧
      pg_source_hash p = sha256hex (me_body e) ∧ (mu_entry (pg_use p), mu_revision (pg_use p)) = (me_id e, me_revision e) ∧
      mu_excerpt (pg_use p) = Some (mkExcerpt (pg_start p) (pg_end p) (sha256hex (me_body (pg_entry p))))) ps.
Proof.
  intros He Hs Hv Hm. destruct (pages_from (String.length (me_body e)) (me_body e) 0 maxBytes Hv Hm) as (l & Hl & Hc & Hall); [lia|by destruct (me_body e)|lia|].
  destruct (read_pages_spec _ _ _ _ _ _ _ _ _ He Hs Hl) as (ps & Hps & Hml & Hps'). exists ps. split; [done|]. split.
  - rewrite Hml, Hc. unfold drop_s. simpl. rewrite Nat.sub_0_r. apply substring_all.
  - rewrite <- Hml in Hall. apply Forall_map in Hall. apply Forall_forall. intros p Hp.
    rewrite Forall_forall in Hall. rewrite Forall_forall in Hps'. destruct (Hall p Hp) as (H0 & H1 & H2). destruct (Hps' p Hp) as (? & ? & ? & ?). split_and!; try done. intros E. rewrite E in H1. simpl in H1. lia.
Qed.
End mutation.

(** ** A concrete memory, for the witnesses *)
Module MemoryDemo.
(** A digest of 64 hexadecimal digits. *)
Definition hexit (n : Z) : Ascii.ascii := Ascii.ascii_of_nat (Z.to_nat (if (n <? 10)%Z then 48 + n else 87 + n)).
Fixpoint hexits (k : nat) (n : Z) : string := match k with O => "" | S k => String (hexit (n mod 16)) (hexits k (n / 16)) end.
Definition digest (s : string) : string :=
  hexits 64 (foldl (λ h c, (h * 257 + Z.of_nat (code c) + 1) mod 2 ^ 256)%Z 7%Z (String.list_ascii_of_string s)).
#[export] Instance host : Host := {|
  newID_at := Demo.unary;
  now_at n := "t" +:+ Demo.unary n;
  elapsed_since _ _ := Some 5%Z;
  sha256hex := digest;
  hash_request _ := "";
  hash_response _ := digest "response";
  json_scope s := ms_kind s +:+ "/" +:+ ms_owner s +:+ "/" +:+ ms_project s +:+ "/" +:+ ms_task s;
  json_mutation m := mut_action m +:+ mut_entry m +:+ mut_title m +:+ mut_body m;
  json_receipt r := mc_entry r;
  len_response _ := 1%Z;
  len_collaboration _ := 1%Z;
  json_revision _ := Some 1%Z;
  json_digest _ := None;
  text_lt a b := match String.compare a b with Lt => true | _ => false end;
|}.

Definition scope : MemoryScope := mkScope "private" "chat-c" "" "".
Definition user : memoryAuthority := mkAuthority true "chat-c" "" "" "/w" [] ∅.
Definition text : string := "caf" +:+ bytes_str [195; 169; 32; 226; 130; 172]%nat.
Definition create : MemoryMutation := mkMutation None "k1" "create" scope "" 0 "fact" "Coffee" text [mkSource "user" "" "" "" 0 "" ""] "".
Definition created := mutateMemoryTx user create Demo.w3.
Definition w1 : world := created.2.
Definition receipt : MemoryReceipt := match created.1 with Ok r => r | Err _ => mkReceipt "" 0 "" "" false end.
Lemma memory_created : mutateMemoryTx user create Demo.w3 = (Ok receipt, w1).
Proof. vm_compute. reflexivity. Qed.
Lemma no_memory_wf : memory_wf (mkMemory [] [] ∅).
Proof.
  split; simpl; try (intros ? ?%elem_of_nil; done); try (intros ? ? ?%elem_of_nil; done); try apply NoDup_nil_2.
  intros key h r. by rewrite lookup_empty.
Qed.
Lemma empty_memory : memory (w_db Demo.w3) = mkMemory [] [] ∅.
Proof. vm_compute. reflexivity. Qed.
Lemma empty_wf : memory_wf (memory (w_db Demo.w3)).
Proof. rewrite empty_memory. exact no_memory_wf. Qed.
Lemma fresh3 : newID_at (w_ids Demo.w3) ∉ map me_id (mt_entries (memory (w_db Demo.w3))).
Proof. rewrite empty_memory. apply not_elem_of_nil. Qed.
Definition entry : MemoryEntry := match mt_entries (memory (w_db w1)) with e :: _ => e | [] => mkEntry None "" scope 0 "" "" "" "" "" [] "" "" end.

(** An agent writes in the working scope of its run. *)
Definition policy : memoryRunPolicy := Data.mkPolicy [] "expert" "" (mkMemorySelection [] [] [] [] true) None.
Definition working : MemoryScope := mkScope "private" "expert" "/w" (run_id Demo.run).
Definition note : MemoryMutation := mkMutation None "k2" "create" working "" 0 "finding" "Seen" "It works"
  [mkSource "request" (run_id Demo.run) "" "" 0 (digest "do it") ""] "".
Definition noted := mutateMemoryTx (policy_authority (run_id Demo.run) "/w" policy) note w1.
Definition note_receipt : MemoryReceipt := match noted.1 with Ok r => r | Err _ => receipt end.
Lemma noted_ok : mutateMemoryTx (policy_authority (run_id Demo.run) "/w" policy) note w1 = (Ok note_receipt, noted.2).
Proof. vm_compute. reflexivity. Qed.
Lemma w1_wf : memory_wf (memory (w_db w1)).
Proof. exact (proj1 (proj2 (mutation_effect user create receipt Demo.w3 w1 memory_created empty_wf fresh3))). Qed.
Lemma fresh1 : newID_at (w_ids w1) ∉ map me_id (mt_entries (memory (w_db w1))).
Proof. apply (bool_decide_unpack _). vm_compute. exact I. Qed.

(** A request that cites the entry. *)
Definition reader : memoryRunPolicy := Data.mkPolicy [] "chat-c" "" (mkMemorySelection [] [] [mkReference scope (me_id entry)] [] false) None.
Definition run : Run := mkRun "r" "c" "k" "" (mkRunConfig "" "" [] None no_selection None (Some reader) "/w" 16) Running "" 0 0 "" "" "" "" 0 0.
Definition request : ModelRequest := mkModelRequest None "m" "" [] 100 [memoryUse entry].
Lemma request_ok : validateRequestMemory run request w1 = (Ok tt, w1).
Proof. vm_compute. reflexivity. Qed.
End MemoryDemo.
Import MemoryDemo.

Lemma mutation_effect_witness :
  memory_wf (memory (w_db w1)) ∧ mc_duplicate receipt = false ∧ w_db w1 = set_memory (memory (w_db w1)) (w_db Demo.w3).
Proof.
  destruct (mutation_effect user create receipt Demo.w3 w1 memory_created empty_wf fresh3) as (H1 & H2 & _).
  split; [exact H2|]. split; [vm_compute; reflexivity|exact H1].
Defined.

Lemma agent_writes_confined_witness :
  mut_scope note = mkScope "private" "expert" "/w" (run_id Demo.run) ∧ (∀ v, v ∈ mt_revisions (memory (w_db w1)) → v ∈ mt_revisions (memory (w_db noted.2))).
Proof.
  destruct (agent_writes_confined policy (run_id Demo.run) "/w" note note_receipt w1 noted.2 noted_ok w1_wf fresh1) as (_ & _ & _ & Hv).
  split; [reflexivity|exact Hv].
Defined.

Lemma request_memory_exact_witness :
  NoDup (map use_ref (rq_memory request)) ∧ (zlen (rq_memory request) <= 16)%Z.
Proof.
  destruct (request_memory_exact run request tt w1 w1 request_ok) as (_ & H1 & H2 & _). split; [exact H2|exact H1].
Defined.

Lemma memory_pages_whole_witness :
  ∃ ps, read_pages (String.length (me_body entry)) (w_db w1) user scope (me_id entry) (Z.of_nat (String.length (me_body entry))) 0 4 = Ok ps ∧
    concat_s (map (λ p, me_body (pg_entry p)) ps) = text.
Proof.
  destruct (memory_pages_whole (w_db w1) user scope (me_id entry) 4 entry ltac:(vm_compute; reflexivity) ltac:(vm_compute; reflexivity)
    ltac:(vm_compute; reflexivity) ltac:(lia)) as (ps & H1 & H2 & _).
  exists ps. split; [exact H1|]. rewrite H2. vm_compute. reflexivity.
Defined.
