(* ===== verification/Channel.v ===== *)
(** * Messages of channels

    Model of src/internal/harness/channel_messages.go: the identity of a received
    message, recording it once, the run it starts, the channel a run is bound
    to, the actions a channel may take on a run, and the public mirror of what
    was delivered. *)

From Stdlib Require Import Ascii.
From S2P Require Import Prelude Text Data Sql Store Space Workspace Profile FilePolicy Permission.

(** [channelOriginFromJSON] of a run whose configuration is decoded, and
    [historyBound]: what of the conversation the run may see. *)
Definition channelOriginFromJSON (run : Run) : option ChannelRunOrigin := rc_channel (run_config run).
Definition historyBound (run : Run) : Z :=
  match channelOriginFromJSON run with Some o => co_history_through o | None => 2 ^ 63 - 1 end.

(** [ChannelReceived]. *)
Record ChannelReceived := mkReceived {
  cr_conversation : string;
  cr_message : Z;
  cr_run : string;
  cr_duplicate : bool;
  cr_origin : option ChannelRunOrigin;
  cr_source : option ChannelMessageSource;
  cr_text : string;
  cr_attachments : list string;
}.

Section channel.
Context {H : Host} {D : Disk}.

(** [ChannelMessageSource.validate]. *)
Definition media_valid (m : MediaRef) : bool :=
  validChannelPart (md_id m) && (String.length (md_name m) <=? 512)%nat && (0 <=? md_bytes m)%Z && (md_bytes m <=? 64 * 2 ^ 20)%Z.
Definition source_validate (s : ChannelMessageSource) : res unit :=
  _ ← check (length (cs_media s) <=? 8)%nat ErrInvalidSpace;
  _ ← check (forallb media_valid (cs_media s)) ErrAttachment;
  _ ← check (target_valid (cs_target s) && validChannelPart (cs_message_id s) && (RuneCount (cs_name s) <=? 128)%nat && negb (hasControl (cs_name s)))
        ErrInvalidSpace;
  _ ← check (bool_decide (cs_person s = "") || validPersonID (cs_person s) && HasPrefix (cs_person s) (ct_source (cs_target s) +:+ ":"))
        ErrPermissionDenied;
  check (one_of (cs_purpose s) ["background"; "request"; "command"; "delivery"; "published"]) ErrInvalidSpace.

(** [ChannelMessageSource.requestKey]: the identity of a message. *)
Definition requestKey (s : ChannelMessageSource) : string :=
  "channel:" +:+ sha256hex (json_strings [ct_source (cs_target s); ct_application (cs_target s); ct_chat (cs_target s); cs_message_id s]).

(** [publicSummaryScope]. *)
Definition publicSummaryScope (p : option PermissionSelection) : string := if spaceContext p then "channel_public" else "public_text".

(** ** Receiving *)

(** INSERT INTO fa.messages with a request key: the unique index refuses a
    second row with the same key; RETURNING id. *)
Definition message_by_key (key : string) (d : db) : option Message :=
  List.find (λ m, bool_decide (msg_request_key m = key)) (messages d).
Definition insert_keyed_message (chat key : string) (body : ModelMessage) : M Z :=
  c ← query_row (find_conversation chat);
  d ← query id;
  _ ← guard_ (bool_decide (message_by_key key d = None)) ErrConstraint;
  _ ← insert_message_once chat key body;
  mret (cv_last_message_seq c + 1)%Z.

(** INSERT INTO fa.meta ... ON CONFLICT DO NOTHING: whether the row is new. *)
Definition meta_insert_once (k : string) (v : MetaValue) : M bool :=
  d ← query id;
  match meta d !! k with
  | Some _ => mret false
  | None => _ ← meta_insert k v; mret true
  end.

(** The conversation a message belongs to: that of a replayed intent, or the
    one the space routes to, or a new one. *)
Definition routed_conversation (space : Space) : string :=
  if sp_multi space then sp_active space else sp_default space.
Definition receive_conversation (space : Space) (replay workspace : string) : M string :=
  chat ← (if bool_decide (replay = "") then mret (routed_conversation space)
          else c ← query_row (find_conversation replay);
               _ ← guard_ (bool_decide (cv_space c = sp_id space)) ErrConversationSpace;
               mret replay);
  if bool_decide (chat = "") then
    chat ← newID;
    now ← nowText;
    _ ← insert_conversation (mkConversation chat (sp_title space) workspace (sp_id space) now now 0 0);
    _ ← update_spaces (by_id (sp_id space)) (λ s, route chat chat (sp_updated_at s) s);
    mret chat
  else mret chat.

(** [ReceiveChannelText]; [replay] is the conversation of a replayed intent, or
    empty, and [workspace] the configured one. *)
Definition ReceiveChannelText (source : ChannelMessageSource) (text replay workspace : string) : M ChannelReceived :=
  _ ← guard_ (is_ok (source_validate source) && negb (one_of (cs_purpose source) ["delivery"; "published"])
              && negb (bool_decide (TrimSpace text = "")) && (Z.of_nat (String.length text) <=? 32 * 2 ^ 10)%Z) ErrInvalidSpace;
  access ← (if bool_decide (ct_source (cs_target source) = "telegram") then CheckTelegramAccess (cs_target source) (cs_person source)
            else mret no_access);
  transaction
    (d ← query id;
     match message_by_key (requestKey source) d with
     | Some m => mret (mkReceived (msg_conversation m) (msg_id m) (match msg_run m with Some r => r | None => "" end) true None None "" [])
     | None =>
         space ← scanSpace (find_external (ct_source (cs_target source)) (target_key (cs_target source)));
         chat ← receive_conversation space replay workspace;
         message ← insert_keyed_message chat (requestKey source) (mkModelMessage false [] (Some source) true "user" text "" "" []);
         touched ← nowText;
         _ ← touch_conversation chat touched;
         _ ← (if bool_decide (cs_person source = "") then mret tt
              else
                now ← nowText;
                _ ← meta_insert_once (personKey (cs_person source)) (MPerson (mkPerson (cs_person source) (cs_name source) PermissionNone now));
                mret tt);
         mret (mkReceived chat message "" false
                 (Some (mkChannelRunOrigin (ta_revision access) (cs_target source) message message (requestKey source)))
                 (Some source) text [])
     end).

(** [SubmitChannel]: the turn it submits, its conversation, request key and
    text with the channel, the person and the attachments of the run. *)
Definition SubmitChannel (input : ChannelReceived) : res (string * string * string * ChannelRunOrigin * string * list string) :=
  match cr_origin input, cr_source input with
  | Some origin, Some source =>
      if negb (cr_duplicate input) && bool_decide (cs_purpose source = "request")
      then Ok (cr_conversation input, co_request_key origin, cr_text input, origin, cs_person source, cr_attachments input)
      else Err (EText "harness: channel input is background, duplicate or no longer executable")
  | _, _ => Err (EText "harness: channel input is background, duplicate or no longer executable")
  end.

(** ** The channel of a run *)

(** [bindChannel]: the channel the service keeps for the run. *)
Definition set_revision (r : Z) (o : ChannelRunOrigin) : ChannelRunOrigin :=
  mkChannelRunOrigin r (co_target o) (co_input_message o) (co_history_through o) (co_request_key o).
Definition last_message (chat : string) (d : db) : Z :=
  fold_right Z.max 0%Z (map msg_id (filter (λ m, msg_conversation m = chat) (messages d))).
Definition bindChannel (permission : option PermissionSelection) (chat : string) (origin : option ChannelRunOrigin)
    : M (option ChannelRunOrigin) :=
  conversation ← GetConversation chat;
  space ← GetSpace (cv_space conversation);
  match channelTarget space with
  | None => match origin with Some _ => fail ErrConversationSpace | None => mret None end
  | Some target =>
      let telegram := bool_decide (ct_source target = "telegram") in
      match origin with
      | Some o =>
          _ ← guard_ (bool_decide (co_target o = target) && (1 <=? co_input_message o)%Z && negb (bool_decide (co_request_key o = "")))
                ErrConversationSpace;
          _ ← (if telegram then
                 grant ← or_else (CheckTelegramAccess target (match permission with Some p => ps_person p | None => "" end)) ErrPermissionRevoked;
                 guard_ (co_revision o =? ta_revision grant)%Z ErrPermissionRevoked
               else mret tt);
          mret (Some o)
      | None =>
          through ← query (last_message chat);
          let o := mkChannelRunOrigin 0 target 0 through "" in
          match permission with
          | Some p =>
              if negb telegram then mret (Some o)
              else if bool_decide (ps_person p = "") then
                g ← telegramAccessRaw target;
                mret (Some (if ta_enabled g.1 && bool_decide (ta_space g.1 = sp_id space) then set_revision (ta_revision g.1) o else o))
              else
                grant ← CheckTelegramAccess target (ps_person p);
                mret (Some (set_revision (ta_revision grant) o))
          | None => mret (Some o)
          end
      end
  end.

(** [ChannelRun]. *)
Definition ChannelRun (id : string) : M (Run * option ChannelRunOrigin) :=
  run ← query_row (find_run id);
  mret (run, channelOriginFromJSON run).

(** [CheckChannelRunAction]. *)
Definition CheckChannelRunAction (e : Env) (target : ChannelTarget) (person id action : string) : M Run :=
  r ← or_else (ChannelRun id) ErrPermissionDenied;
  let run := r.1 in
  _ ← guard_ (match r.2 with Some o => bool_decide (co_target o = target) | None => false end) ErrPermissionDenied;
  _ ← checkTelegramRun e run;
  _ ← (if bool_decide (ct_source target = "telegram") then g ← CheckTelegramAccess target person; mret tt else mret tt);
  match rc_permission (run_config run) with
  | None => fail ErrPermissionDenied
  | Some permission =>
      _ ← guard_ (negb (bool_decide (person = "")) && (bool_decide (action = "stop") || bool_decide (person = ps_person permission)))
            ErrPermissionDenied;
      space ← ChannelSpace target;
      p ← spacePermission (sp_id space);
      who ← PersonPermission person;
      let effective := lowerPermission (ps_mode p) (pp_mode who) in
      if bool_decide (action = "stop") && (bool_decide (person = ps_person permission) || negb (bool_decide (effective = PermissionNone)))
      then mret run
      else
        _ ← guard_ (negb ((permissionRank effective <? permissionRank (ps_mode permission))%Z
                          || bool_decide (action = "approve") && bool_decide (effective = PermissionNone))) ErrPermissionDenied;
        mret run
  end.

(** ** Delivery *)

(** [RecordChannelDelivery]: the record of a delivery, and the public message
    that mirrors its confirmed text. *)
Definition deliveryKey (run delivery : string) : string := "channel/delivery/" +:+ run +:+ "/" +:+ delivery.
Definition delivered_message (target : ChannelTarget) (delivery text : string) (maintenance : bool) : ModelMessage :=
  mkModelMessage false [] (Some (mkChannelMessageSource [] target "" "" delivery (if maintenance then "command" else "delivery"))) true
    "assistant" text "" "" [].
Definition RecordChannelDelivery (id delivery text state : string) (maintenance : bool) : M unit :=
  r ← or_else (ChannelRun id) ErrInvalidSpace;
  match r.2 with
  | None => fail ErrInvalidSpace
  | Some origin =>
      _ ← guard_ (validChannelPart delivery && (Z.of_nat (String.length text) <=? 128 * 2 ^ 10)%Z) ErrInvalidSpace;
      _ ← guard_ (one_of state ["sent"; "partial"; "unknown"; "failed"; "queued"]) ErrInvalidSpace;
      transaction
        (let run := r.1 in
         let key := deliveryKey (run_id run) delivery in
         fresh ← meta_insert_once key (MDelivery (run_id run) state (Z.of_nat (String.length text)) (co_target origin));
         if negb fresh then mret tt
         else if bool_decide (text = "") then mret tt
         else _ ← insert_keyed_message (run_conversation run) key (delivered_message (co_target origin) delivery text maintenance); mret tt)
  end.
End channel.
