(* ===== verification/Queue.v ===== *)
(** * The input queue

    Model of src/internal/harness/input_queue.go, with [resolveAttachments] of
    attachments.go: what the user says while a run works. An input is accepted
    once under its key, kept as a deferred message with a pending entry, and is
    then sent as a run of its own, moved into a running run, adopted there at a
    safe boundary, or cancelled. The entry's part of creating a run is in the
    file Store ([deferredInput], [moveInputMessage]). *)

From Stdlib Require Import Ascii.
From S2P Require Import Prelude Text Data Sql Store Space Workspace Profile FilePolicy Permission Channel Model.

(** [strings.Fields]: the text between the white space of Unicode. *)
Fixpoint fields (fuel : nat) (word s : string) : list string :=
  let push l := if bool_decide (word = "") then l else word :: l in
  match fuel with
  | O => push []
  | S fuel =>
      match cut_first s with
      | Some rest => push (fields fuel "" rest)
      | None => match s with "" => push [] | String c s => fields fuel (word +:+ str c) s end
      end
  end.
Definition Fields (s : string) : list string := fields (S (String.length s)) "" s.
(** [strings.SplitN(word, "@", 2)[0]]. *)
Definition before_at (w : string) : string := match Split w "@" with p :: _ => p | [] => "" end.
Definition first_word (s : string) : string := match Fields s with w :: _ => w | [] => "" end.

(** [InputCommand]. *)
Record InputCommand := mkCommand {
  ic_action : string; ic_run : string; ic_key : string; ic_prompt : string; ic_attachments : list string;
}.

(** [AttachmentPolicy]: the bounds of an input. *)
Record AttachmentPolicy := mkAttachmentPolicy { po_max_files : Z; po_max_batch : Z; po_max_input : Z }.

(** What the service brings: the environment of permissions, the models and
    keys, the bound on the text of a request, the JSON text of the configuration
    and of a profile, the bounds of attachments, [readAttachmentBlob] (None when
    the file is as recorded), and of the context, the principal of
    [PublicEntryFrom] and the attachment identity. *)
Record QueueEnv := mkQueueEnv {
  qe_env : Env;
  qe_models : ModelsConfig;
  qe_keys : KeyStore;
  qe_max_context : Z;
  qe_config_json : string;
  qe_profile_json : ExecutionProfile → string;
  qe_policy : AttachmentPolicy;
  qe_blob : AttachmentRef → option error;
  qe_entry : option string;
  qe_identity : string;
}.
(** [WithPublicEntry], [WithAttachmentIdentity]. *)
Definition with_entry (entry : option string) (q : QueueEnv) : QueueEnv :=
  let e := qe_env q in
  mkQueueEnv (mkEnv (ev_config e) (ev_data_dir e) (ev_public_enabled e) (ev_public_max e) (bool_decide (is_Some entry)) (ev_bots e))
    (qe_models q) (qe_keys q) (qe_max_context q) (qe_config_json q) (qe_profile_json q) (qe_policy q) (qe_blob q) entry (qe_identity q).
Definition with_identity (identity : string) (q : QueueEnv) : QueueEnv :=
  mkQueueEnv (qe_env q) (qe_models q) (qe_keys q) (qe_max_context q) (qe_config_json q) (qe_profile_json q) (qe_policy q) (qe_blob q)
    (qe_entry q) identity.
(** [InteractivePrincipal(ctx, "local")]. *)
Definition principal (q : QueueEnv) : string := default "local" (qe_entry q).

Section queue.
Context {H : Host} {D : Disk} {MH : ModelHost}.

(** The workspace check every operation begins with. *)
Definition own_conversation (q : QueueEnv) (chat : string) : M unit :=
  c ← GetConversation chat;
  guard_ (bool_decide (cv_workspace c = cf_workspace (ev_config (qe_env q)))) ErrConversationSpace.

(** [resolveAttachments]. *)
Fixpoint resolve_refs (q : QueueEnv) (d : db) (chat space : string) (seen : list string) (total : Z) (ids : list string)
    : res (list AttachmentRef) :=
  match ids with
  | [] => Ok []
  | id :: ids =>
      match loadAttachment d id with
      | None => Err ErrAttachment
      | Some r =>
          _ ← check (negb (at_deleted r || negb (bool_decide (at_conversation r = chat)) || negb (bool_decide (at_space r = space))
                           || negb (at_committed r) && negb (bool_decide (at_principal r = qe_identity q)) || bool_decide (id ∈ seen))) ErrAttachment;
          let total := (total + ar_bytes (at_ref r))%Z in
          _ ← check ((total <=? po_max_batch (qe_policy q))%Z && (ar_bytes (at_ref r) <=? po_max_input (qe_policy q))%Z)
                (EText "harness: input attachments exceed the batch limit");
          _ ← match qe_blob q (at_ref r) with Some e => Err e | None => Ok tt end;
          rest ← resolve_refs q d chat space (id :: seen) total ids;
          Ok (at_ref r :: rest)
      end
  end.
Definition resolveAttachments (q : QueueEnv) (chat : string) (ids : list string) : M (list AttachmentRef) :=
  if bool_decide (ids = []) then mret []
  else
    _ ← guard_ (zlen ids <=? po_max_files (qe_policy q))%Z (EText "harness: too many input attachments");
    d ← query id;
    match find_conversation chat d with
    | None => fail ErrAttachment
    | Some c =>
        _ ← guard_ (bool_decide (cv_workspace c = cf_workspace (ev_config (qe_env q)))) ErrAttachment;
        lift (resolve_refs q d chat (cv_space c) [] 0 ids)
    end.

(** ** Accepting an input *)

Definition runRemoteKey (run : string) : string := "run/remote/" +:+ run.
Definition message_of (chat : string) (id : Z) (d : db) : option Message :=
  List.find (λ m, bool_decide (msg_id m = id) && bool_decide (msg_conversation m = chat)) (messages d).

(** The authority of a request over a run: the person and the chat that started
    it, and the entry it came through. *)
Definition same_requester (person : string) (target : option ChannelTarget) (run : Run) : bool :=
  bool_decide (person = "") ||
  match rc_permission (run_config run), channelOriginFromJSON run, target with
  | Some p, Some o, Some t => bool_decide (ps_person p = person) && bool_decide (co_target o = t)
  | _, _, _ => false
  end.
Definition same_entry (remote : option string) (run : string) (d : db) : bool :=
  match remote with
  | None => true
  | Some p => match meta d !! runRemoteKey run with Some (MText original) => bool_decide (original = p) | _ => false end
  end.

(** The frozen permission and profile of an input. *)
Definition input_permission (q : QueueEnv) (chat : string) (channel : option (ChannelRunOrigin * string)) : M PermissionSelection :=
  match channel with
  | None => resolvePermission (qe_env q) chat "" false
  | Some c =>
      _ ← resolvePermission (qe_env q) chat "" false;
      resolveRequestPermission (qe_env q) chat c.2 (ct_source (co_target c.1))
  end.
Definition profile_hash (q : QueueEnv) (s : PermissionSelection) : res string :=
  p ← buildExecutionProfile (ev_config (qe_env q)) s;
  Ok (sha256hex (qe_profile_json q p)).

(** The update of the message a channel already delivered. *)
Definition steering_words (content prompt : string) : bool :=
  let w := first_word content in
  (2 <=? length (Fields content))%nat && one_of (before_at w) ["/queue"; "/steer"] && bool_decide (TrimSpace (TrimPrefix content w) = prompt).
Definition deferred_channel (prompt : string) (refs : list AttachmentRef) (m : ModelMessage) : res ModelMessage :=
  if bool_decide (mm_content m = prompt) then
    Ok (mkModelMessage true refs (mm_channel m) (mm_public m) (mm_role m) (mm_content m) (mm_name m) (mm_tool_call_id m) (mm_tool_calls m))
  else
    match mm_channel m with
    | Some source =>
        _ ← check (bool_decide (cs_purpose source = "command") && steering_words (mm_content m) prompt) ErrRequestKey;
        Ok (mkModelMessage true refs
              (Some (mkChannelMessageSource (cs_media source) (cs_target source) (cs_person source) (cs_name source) (cs_message_id source) "request"))
              (mm_public m) (mm_role m) prompt (mm_name m) (mm_tool_call_id m) (mm_tool_calls m))
    | None => Err ErrRequestKey
    end.

(** What a repetition of the key answers. *)
Definition repeated_input (chat : string) (command : InputCommand) (by_ : string) (refs : list AttachmentRef) (old : PendingInput) : M PendingInput :=
  m ← query_row (message_of chat (in_message old));
  _ ← guard_ (bool_decide (in_principal old = by_) && bool_decide (in_action old = ic_action command) &&
              bool_decide (in_target_run old = ic_run command) && bool_decide (mm_content (msg_body m) = ic_prompt command) &&
              bool_decide (in_attachments old = refs)) ErrRequestKey;
  mret old.

(** The status of a new input: a steering input whose run has ended is kept. *)
Definition open_target (s : RunStatus) : bool :=
  match s with Running | WaitingConfirmation | Unknown | Stopped | Limited => true | _ => false end.
Definition input_status (q : QueueEnv) (chat : string) (command : InputCommand) (channel : option (ChannelRunOrigin * string)) : M string :=
  if bool_decide (ic_action command = "steer") then
    run ← query_row (List.find (λ r, bool_decide (run_id r = ic_run command) && bool_decide (run_conversation r = chat)) ∘ runs);
    _ ← guard_ (match channel with Some c => same_requester c.2 (Some (co_target c.1)) run | None => true end) ErrPermissionDenied;
    d ← query id;
    _ ← guard_ (same_entry (qe_entry q) (run_id run) d) ErrPermissionDenied;
    mret (if open_target (run_status run) then "pending" else "target_ended")
  else mret "pending".

Definition pending_inputs (chat : string) (d : db) : list PendingInput :=
  filter (λ i, in_status i = "pending") (meta_inputs d (inputPrefix chat)).

(** The message of the input: the delivered one, deferred, or a new one. *)
Definition input_message (chat prompt : string) (refs : list AttachmentRef) (channel : option (ChannelRunOrigin * string)) : M Z :=
  match channel with
  | None => insert_message_row chat None (mkModelMessage true refs None false "user" prompt "" "" [])
  | Some c =>
      let id := co_input_message c.1 in
      m ← query_row (λ d, List.find (λ m, bool_decide (msg_id m = id) && bool_decide (msg_conversation m = chat) && bool_decide (msg_run m = None)) (messages d));
      body ← lift (deferred_channel prompt refs (msg_body m));
      _ ← update_messages (λ m, bool_decide (msg_id m = id) && bool_decide (msg_conversation m = chat)) (set_body body);
      mret id
  end.

(** The transaction of [acceptInput]; [input] is the entry but for its status
    and message. *)
Definition accept_tx (q : QueueEnv) (chat : string) (command : InputCommand) (channel : option (ChannelRunOrigin * string))
    (refs : list AttachmentRef) (input : string → Z → PendingInput) : M PendingInput :=
  d ← query id;
  match meta d !! inputKey chat (ic_key command) with
  | Some (MInput old) => repeated_input chat command (in_principal (input "" 0%Z)) refs old
  | Some _ => fail ErrStoreFormat
  | None =>
      status ← input_status q chat command channel;
      _ ← guard_ (length (pending_inputs chat d) <? 20)%nat
            (EText "harness: at most 20 pending inputs per conversation; input was not accepted");
      message ← input_message chat (ic_prompt command) refs channel;
      let i := input status message in
      _ ← bindAttachments (qe_identity q) chat ("input:" +:+ ic_key command) refs;
      _ ← saveInput i;
      mret i
  end.

(** [acceptInput]; [channel] is the channel and the person of the options,
    [chosen] the model the conversation keeps. *)
Definition control_words : list string := ["/stop"; "/continue"; "/compact"; "/context"; "/approve"; "/reject"].
Definition acceptInput (q : QueueEnv) (chat chosen : string) (command : InputCommand) (channel : option (ChannelRunOrigin * string)) : M PendingInput :=
  _ ← guard_ (one_of (ic_action command) ["steer"; "queue"] && negb (bool_decide (ic_key command = ""))
              && (String.length (ic_key command) <=? 128)%nat && negb (bool_decide (TrimSpace (ic_prompt command) = ""))
              && (Z.of_nat (String.length (ic_prompt command)) <=? qe_max_context q)%Z) ErrRequestKey;
  _ ← own_conversation q chat;
  _ ← guard_ (negb (one_of (before_at (first_word (ic_prompt command))) control_words))
        (EText "harness: use the Owner control command directly; control commands are not queued model input");
  permission ← input_permission q chat channel;
  _ ← match channel with Some c => _ ← bindChannel (Some permission) chat (Some c.1); mret tt | None => mret tt end;
  let by_ := match channel with
             | Some c => if bool_decide (c.2 = "") then principal q else "channel:" +:+ c.2
             | None => principal q end in
  let model := SelectedModel (qe_models q) chosen in
  _ ← guard_ (negb (bool_decide (model = "auto") && bool_decide (ic_action command = "queue")))
        (EText "harness: choose an explicit model before queueing input so its binding can be retained");
  binding ← lift (newBinding (qe_keys q) (qe_models q) (if bool_decide (model = "auto") then ms_default (qe_models q) else model));
  refs ← resolveAttachments q chat (ic_attachments command);
  created ← nowText;
  hash ← lift (profile_hash q permission);
  transaction (accept_tx q chat command channel refs
    (λ status message, mkInput "" (ic_key command) (ic_action command) status message chat (ic_run command) "" by_ created refs
       (match channel with Some c => c.2 | None => "" end) (qe_entry q) (fst <$> channel) binding (sha256hex (qe_config_json q)) hash
       (ps_mode permission))).

(** ** Changing an entry *)
Definition set_input (action status target : string) (i : PendingInput) : PendingInput :=
  mkInput (in_adopted_at i) (in_key i) action status (in_message i) (in_conversation i) target (in_run i) (in_principal i) (in_created_at i)
    (in_attachments i) (in_person i) (in_remote i) (in_channel i) (in_binding i) (in_config_hash i) (in_profile_hash i) (in_permission i).

(** [CancelInput]. *)
Definition CancelInput (q : QueueEnv) (chat key : string) : M PendingInput :=
  _ ← own_conversation q chat;
  transaction (
    i ← loadInput chat key;
    _ ← guard_ (bool_decide (in_principal i = principal q) || bool_decide (principal q = "local")) ErrPermissionDenied;
    if bool_decide (in_status i = "pending") then
      let i := set_input (in_action i) "cancelled" (in_target_run i) i in
      _ ← saveInput i; mret i
    else mret i).

(** [validateQueuedInput]: what was frozen still holds. *)
Definition validateQueuedInput (q : QueueEnv) (chat : string) (i : PendingInput) : M PermissionSelection :=
  _ ← (match newBinding (qe_keys q) (qe_models q) (bd_id (in_binding i)) with
       | Err e => fail (EJoin [ErrConfigChanged; e])
       | Ok b => guard_ (bool_decide (sha256hex (qe_config_json q) = in_config_hash i) && bool_decide (b = in_binding i)) (EJoin [ErrConfigChanged])
       end);
  permission ← input_permission q chat (match in_channel i with Some o => Some (o, in_person i) | None => None end);
  let permission := match in_remote i with
                    | Some _ => sel_mode (lowerPermission (ps_mode permission) (ev_public_max (qe_env q))) (ps_source permission) permission
                    | None => permission end in
  match profile_hash q permission with
  | Err e => fail (EJoin [ErrPermissionRevoked; e])
  | Ok h => _ ← guard_ (bool_decide (h = in_profile_hash i)) (EJoin [ErrPermissionRevoked]); mret permission
  end.

(** [SteerInput]. *)
Definition SteerInput (q : QueueEnv) (chat key run : string) : M PendingInput :=
  _ ← guard_ (negb (bool_decide (chat = "") || bool_decide (key = "") || bool_decide (run = ""))) ErrRequestKey;
  _ ← own_conversation q chat;
  i ← loadInput chat key;
  _ ← guard_ (bool_decide (in_principal i = principal q) || bool_decide (principal q = "local")) ErrPermissionDenied;
  _ ← validateQueuedInput q chat i;
  transaction (
    i ← loadInput chat key;
    if bool_decide (in_action i = "steer") && bool_decide (in_target_run i = run) then mret i
    else
      _ ← guard_ (bool_decide (in_action i = "queue") && bool_decide (in_status i = "pending")) ErrInputNotPending;
      r ← query_row (List.find (λ r, bool_decide (run_id r = run) && bool_decide (run_conversation r = chat)) ∘ runs);
      _ ← guard_ (bool_decide (run_status r = Running)) ErrInputTargetEnded;
      _ ← guard_ (same_requester (in_person i) (co_target <$> in_channel i) r) ErrPermissionDenied;
      d ← query id;
      _ ← guard_ (same_entry (in_remote i) (run_id r) d) ErrPermissionDenied;
      let i := set_input "steer" (in_status i) (run_id r) i in
      _ ← saveInput i;
      mret i).

(** [PauseQueue]. *)
Definition PauseQueue (q : QueueEnv) (chat : string) (paused : bool) : M unit :=
  _ ← own_conversation q chat;
  meta_upsert (pausedKey chat) (MText (if paused then "true" else "false")).

(** ** Sending a queued input *)

(** [QueuedConversations]: GROUP BY the conversation, ORDER BY its first
    pending message; the order of equals is the database's. *)
Definition chat_before (a b : string * Z) : Prop := (a.2 <= b.2)%Z.
#[export] Instance chat_before_dec : RelDecision chat_before := λ a b, Z_le_dec a.2 b.2.
Definition QueuedConversations (q : QueueEnv) (d : db) : list string :=
  let mine c := bool_decide (cv_workspace c = cf_workspace (ev_config (qe_env q))) in
  let first c := match filter (λ i, in_conversation i = cv_id c ∧ in_action i = "queue" ∧ in_status i = "pending") (meta_inputs d "input/") with
                 | [] => None
                 | i :: l => Some (cv_id c, fold_right Z.min (in_message i) (map in_message l))
                 end in
  take 1000 (map fst (merge_sort chat_before (omap (λ c, if mine c then first c else None) (conversations d)))).

(** What [RunQueued] submits ([submitWithOptions]). *)
Record Submission := mkSubmission {
  su_key : string; su_prompt : string; su_model : string; su_permission : string;
  su_attachments : list string; su_channel : option ChannelRunOrigin; su_person : string;
}.

(** [RunQueued]: nothing to send, or the submission. *)
Definition RunQueued (q : QueueEnv) (chat : string) : M (option Submission) :=
  d ← query id;
  _ ← guard_ (negb (bool_decide (meta_text (pausedKey chat) d = "true"))) ErrQueuePaused;
  match queued chat d with
  | [] => mret None
  | i :: _ =>
      let q := with_identity (in_principal i) (match in_remote i with Some p => with_entry (Some p) q | None => q end) in
      valid ← outcome (validateQueuedInput q chat i);
      match valid with
      | Err e => _ ← outcome (PauseQueue q chat true); fail e
      | Ok _ =>
          m ← query_row (message_of (in_conversation i) (in_message i));
          mret (Some (mkSubmission (in_key i) (mm_content (msg_body m)) (bd_id (in_binding i)) (in_permission i)
                        (map ar_id (in_attachments i)) (in_channel i) (in_person i)))
      end
  end.

(** ** Adopting steering at a safe boundary *)

(** An attempt without an outcome that neither is being retried nor was
    resolved. *)
Definition unresolved (run retry : string) (d : db) : bool :=
  existsb (λ a, bool_decide (att_run a = run) && match att_status a with AUnknown | ADispatched => true | _ => false end
                && negb (bool_decide (att_kind a = KModel) && bool_decide (att_id a = retry) || resolvedAttempt d a)) (attempts d).
(** The pending steering of a run, ORDER BY message_id. *)
Definition steering (chat run : string) (d : db) : list PendingInput :=
  merge_sort by_message (filter (λ i, in_target_run i = run ∧ in_status i = "pending" ∧ in_action i = "steer")
    (meta_inputs d (inputPrefix chat))).
Definition superseded_text : string := "NOT_RUN: superseded by verified user steering before dispatch; no approval was reused".
Definition superseded : ToolResult := mkToolResult [] (Some (mkToolOutcome "not_run" false true false)) false superseded_text true [] [].

(** The loop over the attempts listed before. *)
Fixpoint supersede (run : Run) (l : list Attempt) : M unit :=
  match l with
  | [] => mret tt
  | a :: l =>
      if negb (pending_tool a) then supersede run l
      else
        let call := decodeToolCall (att_request a) in
        _ ← update_attempts (att_by (att_id a) (is_status APending)) (set_attempt AFinished (Some (RTool superseded)));
        _ ← insertMessage run (toolMessage (tc_name call) (tc_id call) superseded_text []);
        supersede run l
  end.
Fixpoint move_inputs (run : string) (l : list PendingInput) : M unit :=
  match l with
  | [] => mret tt
  | i :: l => _ ← moveInputMessage i run; move_inputs run l
  end.

(** [adoptSteeringForRetry]; [retry] is the model attempt being retried, or
    empty ([adoptSteering]). *)
Definition adoptSteeringForRetry (run : Run) (retry : string) : M bool :=
  transaction (
    d ← query id;
    _ ← guard_ (negb (unresolved (run_id run) retry d)) ErrUnknownResult;
    let inputs := steering (run_conversation run) (run_id run) d in
    if bool_decide (inputs = []) then mret false
    else
      _ ← supersede run (listAttempts (run_id run) d);
      _ ← move_inputs (run_id run) inputs;
      _ ← update_status (Store.by_id (run_id run)) Running "";
      mret true).
Definition adoptSteering (run : Run) : M bool := adoptSteeringForRetry run "".
End queue.
