(* ===== verification/QueueInv.v ===== *)
(** * The input queue: how entries move

    [input_le] orders the states of an entry: what it is and who may send it is
    fixed, and once it is no longer pending it never changes. [inputs_step] lifts
    the order to the store; every operation of the queue and the creation of a
    run move along it. *)

From S2P Require Import Prelude Text Data Sql Store StoreInv Space SpaceInv StoreProps Workspace Profile FilePolicy Permission PermissionProps Channel Model Queue.

(** ** Reads *)
Section reads.
Context {H : Host} {D : Disk} {MH : ModelHost}.
Lemma reads_own_conversation q c : Reads (own_conversation q c).
Proof. unfold own_conversation. apply reads_bind; [apply reads_GetConversation|intros; apply reads_guard]. Qed.
Lemma reads_input_permission q c ch : Reads (input_permission q c ch).
Proof.
  unfold input_permission. destruct ch as [ch|]; [|apply reads_resolvePermission]. apply reads_bind; [apply reads_resolvePermission|intros _].
  unfold resolveRequestPermission. apply reads_bind; [apply reads_resolvePermission|intros s].
  apply reads_bind; [destruct (bool_decide _); [apply reads_ret|apply reads_PersonPermission]|intros p; apply reads_ret].
Qed.
Lemma reads_bindChannel p c o : Reads (bindChannel p c o).
Proof.
  unfold bindChannel. apply reads_bind; [apply reads_GetConversation|intros cv]. apply reads_bind; [apply reads_GetSpace|intros s].
  pose proof reads_CheckTelegramAccess. pose proof reads_telegramAccessRaw. cbv zeta. solve_reads.
Qed.
Lemma reads_resolveAttachments q c ids : Reads (resolveAttachments q c ids).
Proof. unfold resolveAttachments. solve_reads. Qed.
Lemma reads_validateQueuedInput q c i : Reads (validateQueuedInput q c i).
Proof.
  unfold validateQueuedInput. apply reads_bind; [solve_reads|intros _]. apply reads_bind; [apply reads_input_permission|intros p]. solve_reads.
Qed.
Lemma reads_loadInput c k : Reads (loadInput c k).
Proof. unfold loadInput. solve_reads. Qed.
Lemma reads_input_status q c cmd ch : Reads (input_status q c cmd ch).
Proof. unfold input_status. solve_reads. Qed.
Lemma reads_repeated_input c cmd b refs old : Reads (repeated_input c cmd b refs old).
Proof. unfold repeated_input. solve_reads. Qed.
End reads.
#[export] Hint Resolve reads_own_conversation reads_input_permission reads_bindChannel reads_resolveAttachments reads_validateQueuedInput
  reads_loadInput reads_input_status reads_repeated_input : reads.

(** ** Steps *)
Section steps.
Context {H : Host} {D : Disk} {MH : ModelHost}.
#[local] Hint Extern 3 (Along _ _) => apply reads_steps; solve [eauto with reads] : steps.
#[local] Hint Resolve steps_saveInput steps_moveInputMessage steps_bindAttachments steps_update_status steps_insertMessage : steps.

Lemma steps_set_body p b : Steps (update_messages p (set_body b)).
Proof. apply steps_update_messages. by intros m. Qed.
#[local] Hint Resolve steps_set_body : steps.
Lemma steps_input_message c p refs ch : Steps (input_message c p refs ch).
Proof. unfold input_message. solve_steps. Qed.
#[local] Hint Resolve steps_input_message : steps.
Lemma steps_acceptInput q c chosen cmd ch : InputSteps (acceptInput q c chosen cmd ch).
Proof. unfold acceptInput, accept_tx. solve_steps. Qed.
Lemma steps_CancelInput q c k : InputSteps (CancelInput q c k).
Proof. unfold CancelInput. solve_steps. Qed.
Lemma steps_SteerInput q c k r : InputSteps (SteerInput q c k r).
Proof. unfold SteerInput. solve_steps. Qed.
Lemma steps_PauseQueue q c b : Steps (PauseQueue q c b).
Proof. unfold PauseQueue. solve_steps. Qed.
Lemma steps_RunQueued q c : Steps (RunQueued q c).
Proof.
  unfold RunQueued. apply steps_bind; [apply steps_query|intros d]. apply steps_bind; [apply steps_guard|intros []].
  destruct (queued c d) as [|i l]; [apply steps_ret|]. cbv zeta. apply steps_bind; [apply reads_steps, reads_outcome, reads_validateQueuedInput|].
  intros [s|e]; [solve_steps|]. apply steps_bind; [apply steps_outcome_any, steps_PauseQueue|intros ?; apply steps_fail].
Qed.
Lemma steps_supersede r l : Steps (supersede r l).
Proof. induction l as [|a l IH]; cbn [supersede]; [apply steps_ret|]. cbv zeta. solve_steps. Qed.
Lemma steps_move_inputs r l : InputSteps (move_inputs r l).
Proof. induction l as [|i l IH]; cbn [move_inputs]; [apply steps_ret|]. solve_steps. Qed.
#[local] Hint Resolve steps_supersede steps_move_inputs : steps.
Lemma steps_adoptSteeringForRetry r a : InputSteps (adoptSteeringForRetry r a).
Proof. unfold adoptSteeringForRetry. solve_steps. Qed.

(** The operations of the queue. *)
Inductive queue_op (w : world) : world → Prop :=
| qo_accept q chat chosen c ch : queue_op w (acceptInput q chat chosen c ch w).2
| qo_cancel q chat key : queue_op w (CancelInput q chat key w).2
| qo_steer q chat key run : queue_op w (SteerInput q chat key run w).2
| qo_pause q chat b : queue_op w (PauseQueue q chat b w).2
| qo_run q chat : queue_op w (RunQueued q chat w).2
| qo_adopt run retry : queue_op w (adoptSteeringForRetry run retry w).2.
Lemma queue_op_along R `{!RespectsInputs R} w w' : queue_op w w' → R (w_db w) (w_db w').
Proof.
  destruct 1; [by apply steps_acceptInput|by apply steps_CancelInput|by apply steps_SteerInput|by apply steps_PauseQueue; apply _|
    by apply steps_RunQueued; apply _|by apply steps_adoptSteeringForRetry].
Qed.
End steps.

(** ** The order of an entry *)
Record input_le (i j : PendingInput) : Prop := {
  il_key : in_key j = in_key i;
  il_conversation : in_conversation j = in_conversation i;
  il_principal : in_principal j = in_principal i;
  il_person : in_person j = in_person i;
  il_remote : in_remote j = in_remote i;
  il_channel : in_channel j = in_channel i;
  il_attachments : in_attachments j = in_attachments i;
  il_binding : in_binding j = in_binding i;
  il_config : in_config_hash j = in_config_hash i;
  il_profile : in_profile_hash j = in_profile_hash i;
  il_permission : in_permission j = in_permission i;
  il_settled : in_status i ≠ "pending" → j = i;
  il_moved : in_status i = "pending" → one_of (in_status j) ["pending"; "cancelled"; "adopted"] = true;
  il_message : in_status j ≠ "adopted" → in_message j = in_message i;
}.
#[export] Instance input_le_pre : PreOrder input_le.
Proof.
  split.
  - intros i. split; try done. by intros ->.
  - intros i j k [] Hk. destruct (decide (in_status j = "pending")) as [Ej|Nj].
    + destruct Hk. assert (Ei : in_status i = "pending").
      { destruct (decide (in_status i = "pending")) as [|Ni]; [done|]. by rewrite (il_settled0 Ni) in Ej. }
      split; try congruence; [auto|]. intros Hn. rewrite il_message1 by done. apply il_message0. by rewrite Ej.
    + destruct Hk. assert (k = j) as -> by auto. by split.
Qed.

(** The entries of the store stay where they are filed, and move along the
    order. *)
Section entries.
Context {H : Host} {D : Disk} {MH : ModelHost}.
Definition entry_at (i : PendingInput) : string := inputKey (in_conversation i) (in_key i).
Definition inputs_wf (d : db) : Prop := ∀ k i, input_key k = true → meta d !! k = Some (MInput i) → k = entry_at i.
Definition inputs_le (d d' : db) : Prop :=
  ∀ k i, input_key k = true → meta d !! k = Some (MInput i) → ∃ j, meta d' !! k = Some (MInput j) ∧ input_le i j.
(** Without [new], no entry is added. *)
Definition inputs_old (d d' : db) : Prop :=
  ∀ k j, input_key k = true → meta d' !! k = Some (MInput j) → ∃ i, meta d !! k = Some (MInput i).
Definition inputs_step (new : bool) (d d' : db) : Prop := inputs_wf d → inputs_wf d' ∧ inputs_le d d' ∧ (new = false → inputs_old d d').
#[export] Instance inputs_step_pre new : PreOrder (inputs_step new).
Proof.
  split.
  - intros d Hd. split; [done|]. split; [intros k i _ Hi; by exists i|]. intros _ k j _ Hj. by exists j.
  - intros a b c H1 H2 Ha. destruct (H1 Ha) as (Hb & L1 & O1). destruct (H2 Hb) as (Hc & L2 & O2). split; [done|]. split.
    + intros k i Hk Hi. destruct (L1 k i Hk Hi) as (j & Hj & ?). destruct (L2 k j Hk Hj) as (l & Hl & ?). exists l. split; [done|by etrans].
    + intros Hn k l Hk Hl. destruct (O2 Hn k l Hk Hl) as (j & Hj). exact (O1 Hn k j Hk Hj).
Qed.

(** Whatever else is written leaves the entries alone. *)
Definition entries_same (d d' : db) : Prop := ∀ k, input_key k = true → meta d' !! k = meta d !! k.
#[export] Instance entries_same_pre : PreOrder entries_same.
Proof. split; [by intros d k|]. intros a b c H1 H2 k Hk. by rewrite H2, H1. Qed.
#[export] Instance entries_same_spaces : RespectsSpaces entries_same.
Proof. apply spaces_meta_only; [apply _|by intros d d' E k _; rewrite E|]. intros d m _ Hk k Hi. by apply Hk. Qed.
#[export] Instance entries_same_revoke : RespectsRevoke entries_same.
Proof.
  split; [apply _|]. intros d i k Hk. simpl. apply option_eq. intros v. rewrite map_lookup_filter_Some. split; [by intros []|].
  intros Hv. split; [done|]. simpl. unfold revoked. by rewrite (input_no_access k Hk).
Qed.
Lemma entries_same_step new d d' : entries_same d d' → inputs_step new d d'.
Proof.
  intros Hs Hd. split; [intros k i Hk; rewrite Hs by done; by apply Hd|].
  split; [intros k i Hk Hi; exists i; by rewrite Hs|]. intros _ k j Hk Hj. exists j. by rewrite <- Hs.
Qed.
Lemma steps_entries {A} (m : M A) w : Steps m → entries_same (w_db w) (w_db (m w).2).
Proof. intros Hm. by apply Hm, _. Qed.

(** A write of the queue. *)
Lemma write_entry new d i j : meta d !! entry_at i = Some (MInput i) → input_le i j →
  inputs_step new d (set_meta (<[entry_at i := MInput j]> (meta d)) d).
Proof.
  intros Hi Hle Hd. assert (Ej : entry_at j = entry_at i) by (destruct Hle; unfold entry_at; congruence).
  split; [|split; [|intros _]]; intros k x Hk Hx; simpl in *; destruct (decide (k = entry_at i)) as [->|Hn];
    rewrite ?lookup_insert_eq, ?lookup_insert_ne in * by done.
  - by injection Hx as <-.
  - by apply Hd.
  - exists j. split; [done|]. rewrite Hi in Hx. by injection Hx as <-.
  - by exists x.
  - by exists i.
  - by exists x.
Qed.
Lemma write_new_entry d i : meta d !! entry_at i = None → inputs_step true d (set_meta (<[entry_at i := MInput i]> (meta d)) d).
Proof.
  intros Hi Hd. split; [|split; [|done]]; intros k x Hk Hx; simpl in *.
  - destruct (decide (k = entry_at i)) as [->|Hn]; rewrite ?lookup_insert_eq, ?lookup_insert_ne in * by done; [by injection Hx as <-|by apply Hd].
  - exists x. rewrite lookup_insert_ne by congruence. done.
Qed.

(** A computation that keeps the entries, begun where [P] holds. *)
Definition Moves (new : bool) (P : db → Prop) {A} (m : M A) : Prop :=
  ∀ w, inputs_wf (w_db w) → P (w_db w) → inputs_step new (w_db w) (w_db (m w).2).
Definition stable (P : db → Prop) : Prop := ∀ d d', entries_same d d' → P d → P d'.
Lemma moves_steps new P {A} (m : M A) : Steps m → Moves new P m.
Proof. intros Hm w _ _. by apply entries_same_step, steps_entries. Qed.
Lemma moves_bind new P {A B} (Q : A → db → Prop) (m : M A) (f : A → M B) : Moves new P m →
  (∀ w a w', inputs_wf (w_db w) → P (w_db w) → m w = (Ok a, w') → Q a (w_db w')) → (∀ a, Moves new (Q a) (f a)) → Moves new P (m ≫= f).
Proof.
  intros Hm Hq Hf w Hw Hp. pose proof (Hm w Hw Hp) as Hs. unfold mbind, M_bind. destruct (m w) as [[a|e] w1] eqn:E; [|done].
  etrans; [exact Hs|]. destruct (Hs Hw) as [Hw1 _]. exact (Hf a w1 Hw1 (Hq w a w1 Hw Hp E)).
Qed.
Lemma moves_before new P {A B} (m : M A) (f : A → M B) : stable P → Steps m → (∀ a, Moves new P (f a)) → Moves new P (m ≫= f).
Proof.
  intros Hs Hm Hf. apply (moves_bind _ P (λ _, P)); [by apply moves_steps| |done]. intros w a w' _ Hp E. pose proof (steps_entries m w Hm) as He.
  rewrite E in He. by eapply Hs.
Qed.
Lemma moves_after new P {A B} (m : M A) (f : A → M B) : Moves new P m → (∀ a, Steps (f a)) → Moves new P (m ≫= f).
Proof. intros Hm Hf. apply (moves_bind _ P (λ _ _, True)); [done|done|]. intros a. by apply moves_steps. Qed.
Lemma moves_transaction new P {A} (m : M A) : Moves new P m → Moves new P (transaction m).
Proof. intros Hm w Hw Hp. specialize (Hm w Hw Hp). unfold transaction. destruct (m w) as [[a|e] w']; [done|]. simpl. reflexivity. Qed.
Lemma moves_query new P {B} (f : db → M B) : (∀ d, inputs_wf d → Moves new (λ d', d' = d ∧ P d') (f d)) → Moves new P (query id ≫= f).
Proof. intros Hf w Hw Hp. rewrite bind_query. by apply Hf. Qed.
Lemma moves_guard new P {B} b e (f : unit → M B) : (b = true → Moves new P (f tt)) → Moves new P (guard_ b e ≫= f).
Proof. intros Hf. destruct b; [intros w; by apply Hf|intros w Hw Hp; reflexivity]. Qed.
Lemma stable_true : stable (λ _, True).
Proof. done. Qed.
Lemma stable_entry i : stable (λ d, meta d !! entry_at i = Some (MInput i)).
Proof. intros d d' Hs Hi. by rewrite Hs by apply inputKey_input. Qed.
Lemma stable_no_entry i : stable (λ d, meta d !! entry_at i = None).
Proof. intros d d' Hs Hi. by rewrite Hs by apply inputKey_input. Qed.
Lemma moves_weaken new (P Q : db → Prop) {A} (m : M A) : (∀ d, inputs_wf d → P d → Q d) → Moves new Q m → Moves new P m.
Proof. intros Hpq Hm w Hw Hp. by apply Hm; auto. Qed.

Lemma moves_saveInput new i j : input_le i j → Moves new (λ d, meta d !! entry_at i = Some (MInput i)) (saveInput j).
Proof.
  intros Hle w _ Hi. replace (inputKey (in_conversation j) (in_key j)) with (entry_at i) by (destruct Hle; unfold entry_at; congruence).
  unfold saveInput, meta_upsert, write. simpl. replace (inputKey (in_conversation j) (in_key j)) with (entry_at i) by (destruct Hle; unfold entry_at; congruence).
  by apply write_entry.
Qed.
Lemma moves_saveNew i : Moves true (λ d, meta d !! entry_at i = None) (saveInput i).
Proof. intros w _ Hi. by apply write_new_entry. Qed.

(** An entry that was read is where it is filed. *)
Lemma moves_loadInput new P {B} c k (f : PendingInput → M B) :
  (∀ i, Moves new (λ d, meta d !! entry_at i = Some (MInput i) ∧ entry_at i = inputKey c k) (f i)) → Moves new P (loadInput c k ≫= f).
Proof.
  intros Hf w Hw Hp. unfold loadInput, mbind, M_bind. simpl. destruct (meta (w_db w) !! inputKey c k) as [[]|] eqn:E; try reflexivity.
  simpl. pose proof (Hw _ _ (inputKey_input c k) E) as Hk. apply Hf; [done|]. by rewrite <- Hk.
Qed.

Lemma adopted_le i now next run : in_status i = "pending" →
  input_le i (mkInput now (in_key i) (in_action i) "adopted" next (in_conversation i) (in_target_run i) run
              (in_principal i) (in_created_at i) (in_attachments i) (in_person i) (in_remote i)
              (in_channel i) (in_binding i) (in_config_hash i) (in_profile_hash i) (in_permission i)).
Proof. intros Hp. by split. Qed.
Lemma moves_moveInputMessage new i run : in_status i = "pending" →
  Moves new (λ d, meta d !! entry_at i = Some (MInput i)) (moveInputMessage i run).
Proof.
  intros Hp. unfold moveInputMessage. apply moves_before; [apply stable_entry|apply steps_move_message_row; by intros|intros next].
  apply moves_before; [apply stable_entry|solve_steps|intros now]. cbv zeta. apply moves_after; [by apply moves_saveInput, adopted_le|solve_steps].
Qed.

(** The lists of entries the code selects. *)
Lemma sublist_omap {A B C} (f : A → option B) (g : B → C) (h : A → C) (l : list A) :
  (∀ x y, x ∈ l → f x = Some y → g y = h x) → map g (omap f l) `sublist_of` map h l.
Proof.
  induction l as [|x l IH]; intros Hf; [constructor|]. simpl.
  specialize (IH (λ z y Hz, Hf z y (list_elem_of_further z x l Hz))). destruct (f x) as [y|] eqn:E; simpl; [|by constructor].
  rewrite (Hf x y (list_elem_of_here x l) E). by constructor.
Qed.
Lemma elem_of_meta_inputs d p i : i ∈ meta_inputs d p ↔ ∃ k, meta d !! k = Some (MInput i) ∧ String.prefix p k = true.
Proof.
  unfold meta_inputs. rewrite list_elem_of_omap. split.
  - intros ([k v] & Hin%elem_of_map_to_list & Hv). exists k. destruct v; try done. simpl in Hv. destruct (String.prefix p k) eqn:E; [|done]. by injection Hv as ->.
  - intros (k & Hk & Hp). exists (k, MInput i). split; [by apply elem_of_map_to_list|]. simpl. by rewrite Hp.
Qed.
Definition input_prefix (p : string) : Prop := ∀ k, String.prefix p k = true → input_key k = true.
Lemma inputPrefix_input c : input_prefix (inputPrefix c).
Proof. intros k [s ->]%HasPrefix_spec. exact (prefix_app "input/" ((c +:+ "/") +:+ s)). Qed.
Lemma meta_inputs_at d p i : inputs_wf d → input_prefix p → i ∈ meta_inputs d p → meta d !! entry_at i = Some (MInput i).
Proof. intros Hw Hp (k & Hk & Hpk)%elem_of_meta_inputs. by rewrite <- (Hw k i (Hp k Hpk) Hk). Qed.
Lemma meta_inputs_unique d p : inputs_wf d → input_prefix p → NoDup (map entry_at (meta_inputs d p)).
Proof.
  intros Hw Hp. eapply sublist_NoDup; [apply (NoDup_fst_map_to_list (meta d))|apply (sublist_omap _ _ fst)].
  intros [k v] i Hin%elem_of_map_to_list Hv. simpl in *. destruct v; try done. destruct (String.prefix p k) eqn:E; [|done].
  injection Hv as ->. symmetry. by apply Hw; [apply Hp|].
Qed.
Lemma steering_spec c r d : inputs_wf d → NoDup (map entry_at (steering c r d)) ∧
  Forall (λ i, meta d !! entry_at i = Some (MInput i) ∧ in_status i = "pending") (steering c r d).
Proof.
  intros Hw. assert (Hperm : steering c r d ≡ₚ filter (λ i, in_target_run i = r ∧ in_status i = "pending" ∧ in_action i = "steer") (meta_inputs d (inputPrefix c)))
    by apply merge_sort_Permutation.
  split.
  - rewrite Hperm. by apply NoDup_map_filter, meta_inputs_unique, inputPrefix_input.
  - rewrite Hperm. apply Forall_forall. intros i [(_ & Hp & _) Hi]%list_elem_of_filter. split; [|done].
    eapply meta_inputs_at; [done|apply inputPrefix_input|done].
Qed.

(** ** The operations move along the order *)
#[local] Hint Extern 3 (Along _ _) => apply reads_steps; solve [eauto with reads] : steps.
#[local] Hint Resolve steps_bindAttachments steps_update_status steps_insertMessage steps_set_body steps_input_message steps_supersede : steps.

Lemma moves_accept_tx P q chat c ch refs input : (∀ s m, entry_at (input s m) = inputKey chat (ic_key c)) → Moves true P (accept_tx q chat c ch refs input).
Proof.
  intros He. unfold accept_tx. apply moves_query. intros d _. destruct (meta d !! inputKey chat (ic_key c)) as [v|] eqn:E.
  { apply moves_steps. destruct v; solve_steps. }
  apply (moves_weaken _ _ (λ d, meta d !! inputKey chat (ic_key c) = None)); [by intros d' _ [-> _]|].
  assert (Hs : stable (λ d, meta d !! inputKey chat (ic_key c) = None)) by (rewrite <- (He "" 0%Z); apply stable_no_entry).
  apply moves_before; [done|solve_steps|intros status]. apply moves_before; [done|solve_steps|intros _].
  apply moves_before; [done|solve_steps|intros message]. cbv zeta. apply moves_before; [done|solve_steps|intros _].
  apply moves_after; [|solve_steps]. rewrite <- (He status message). apply moves_saveNew.
Qed.
Lemma moves_acceptInput q chat chosen c ch : Moves true (λ _, True) (acceptInput q chat chosen c ch).
Proof.
  unfold acceptInput. pose proof stable_true.
  do 3 (apply moves_before; [done|solve_steps|intros ?]). apply moves_before; [done|solve_steps|intros p].
  apply moves_before; [done|solve_steps|intros _]. cbv zeta. apply moves_before; [done|solve_steps|intros _].
  do 4 (apply moves_before; [done|solve_steps|intros ?]). by apply moves_transaction, moves_accept_tx.
Qed.
Lemma set_input_le i a s t : s = "pending" ∨ s = "cancelled" → in_status i = "pending" → input_le i (set_input a s t i).
Proof. intros Hs Hp. split; simpl; try done. by intros _; destruct Hs as [-> | ->]. Qed.
Lemma moves_CancelInput new q chat key : Moves new (λ _, True) (CancelInput q chat key).
Proof.
  unfold CancelInput. apply moves_before; [done|solve_steps|intros _]. apply moves_transaction, moves_loadInput. intros i.
  apply moves_guard. intros _. case_bool_decide as Hp; [|apply moves_steps; solve_steps]. cbv zeta. apply moves_after; [|solve_steps].
  apply (moves_weaken _ _ (λ d, meta d !! entry_at i = Some (MInput i))); [by intros d _ []|]. apply moves_saveInput, set_input_le; [by right|done].
Qed.
Lemma moves_SteerInput new q chat key run : Moves new (λ _, True) (SteerInput q chat key run).
Proof.
  unfold SteerInput. pose proof stable_true. do 2 (apply moves_before; [done|solve_steps|intros _]).
  apply moves_before; [done|solve_steps|intros i0]. do 2 (apply moves_before; [done|solve_steps|intros _]).
  apply moves_transaction, moves_loadInput. intros i. apply (moves_weaken _ _ (λ d, meta d !! entry_at i = Some (MInput i))); [by intros d _ []|].
  destruct (_ && _); [apply moves_steps; solve_steps|]. apply moves_guard. intros [_ Hp%bool_decide_eq_true]%andb_true_iff.
  pose proof (stable_entry i). do 3 (apply moves_before; [done|solve_steps|intros ?]). apply moves_query. intros d _.
  apply (moves_weaken _ _ (λ d, meta d !! entry_at i = Some (MInput i))); [by intros d' _ []|].
  apply moves_before; [done|solve_steps|intros _]. cbv zeta. apply moves_after; [|solve_steps].
  apply moves_saveInput, set_input_le; [by left|done].
Qed.
Lemma moves_move_inputs new run l : NoDup (map entry_at l) → Forall (λ i, in_status i = "pending") l →
  Moves new (λ d, Forall (λ i, meta d !! entry_at i = Some (MInput i)) l) (move_inputs run l).
Proof.
  induction l as [|i l IH]; simpl; [intros _ _; apply moves_steps; solve_steps|].
  intros [Hi Hn]%NoDup_cons [Hp Hl]%Forall_cons.
  apply (moves_bind _ _ (λ _ d, Forall (λ i, meta d !! entry_at i = Some (MInput i)) l)); [|intros w a w' _ [_ Hin]%Forall_cons E|intros _; by apply IH].
  { apply (moves_weaken _ _ (λ d, meta d !! entry_at i = Some (MInput i))); [by intros d _ [? ?]%Forall_cons|]. by apply moves_moveInputMessage. }
  unfold moveInputMessage in E. apply bind_ok in E as (next & w1 & E1 & E). apply bind_ok in E as (now & w2 & E2 & E).
  apply bind_ok in E as ([] & w3 & E3 & [_ <-]%ret_ok). assert (Hs : entries_same (w_db w) (w_db w2)).
  { transitivity (w_db w1); [|by injection E2 as _ <-]. apply (f_equal snd) in E1. simpl in E1. rewrite <- E1. by apply steps_entries, steps_move_message_row. }
  injection E3 as <-. simpl. rewrite Forall_forall in Hin |- *. intros j Hj. specialize (Hin j Hj). simpl in Hin. rewrite lookup_insert_ne; [by rewrite Hs by apply inputKey_input|].
  intros E. apply Hi. change (inputKey _ _) with (entry_at i) in E. rewrite E. by apply list_elem_of_fmap_2.
Qed.
Lemma moves_adopt new run retry : Moves new (λ _, True) (adoptSteeringForRetry run retry).
Proof.
  unfold adoptSteeringForRetry. apply moves_transaction, moves_query. intros d Hw. cbv zeta.
  destruct (steering_spec (run_conversation run) (run_id run) d Hw) as [Hn Hl].
  set (l := steering (run_conversation run) (run_id run) d) in *. clearbody l.
  apply (moves_weaken _ _ (λ d, Forall (λ i, meta d !! entry_at i = Some (MInput i)) l)).
  { intros d' _ [-> _]. eapply Forall_impl; [exact Hl|]. by intros i []. }
  assert (Hs : stable (λ d, Forall (λ i, meta d !! entry_at i = Some (MInput i)) l)).
  { intros d1 d2 Hs Hd. eapply Forall_impl; [exact Hd|]. intros i. exact (stable_entry i d1 d2 Hs). }
  apply moves_before; [done|solve_steps|intros _]. case_bool_decide; [apply moves_steps; solve_steps|].
  apply moves_before; [done|solve_steps|intros _]. apply moves_after; [|solve_steps].
  apply moves_move_inputs; [done|]. eapply Forall_impl; [exact Hl|]. by intros i [].
Qed.
(** Only accepting an input adds an entry. *)
Definition accepts (w w' : world) : Prop := ∃ q chat chosen c ch, w' = (acceptInput q chat chosen c ch w).2.
Lemma queue_op_moves w w' : queue_op w w' → accepts w w' ∨ inputs_step false (w_db w) (w_db w').
Proof.
  destruct 1; [left; by repeat eexists|..]; right; intros Hw.
  - by apply moves_CancelInput.
  - by apply moves_SteerInput.
  - by apply (moves_steps _ (λ _, True)), Hw; [apply steps_PauseQueue|..].
  - by apply (moves_steps _ (λ _, True)), Hw; [apply steps_RunQueued|..].
  - by apply moves_adopt.
Qed.
Lemma accepts_moves w w' : accepts w w' → inputs_step true (w_db w) (w_db w').
Proof. intros (q & chat & chosen & c & ch & ->) Hw. by apply moves_acceptInput. Qed.
Lemma inputs_step_weaken d d' : inputs_step false d d' → inputs_step true d d'.
Proof. intros Hs Hd. destruct (Hs Hd) as (? & ? & _). done. Qed.

(** The creation of a run adopts the entry it was sent from. *)
Lemma deferredInput_ok chat key config i w w' : deferredInput chat key config w = (Ok (Some i), w') → inputs_wf (w_db w) →
  meta (w_db w) !! entry_at i = Some (MInput i) ∧ in_status i = "pending" ∧ in_action i = "queue".
Proof.
  unfold deferredInput. case_bool_decide; [done|]. intros E Hw. apply bind_ok in E as (j & w1 & Hj & E).
  unfold loadInput, mbind, M_bind in Hj. simpl in Hj. destruct (meta (w_db w) !! inputKey chat (rc_input_request config)) as [[]|] eqn:El; try done.
  injection Hj as <- <-. apply bind_ok in E as ([] & w2 & [Hg _]%guard_ok & E). apply bind_ok in E as (d & w3 & _ & E).
  apply bind_ok in E as (first & w4 & _ & E). do 2 (apply bind_ok in E as ([] & ? & _ & E)). injection E as <- _.
  rewrite !andb_true_iff, !bool_decide_eq_true in Hg. destruct Hg as [[Ha Hp] _].
  by rewrite <- (Hw _ _ (inputKey_input _ _) El).
Qed.
Definition found_entry (deferred : option PendingInput) (d : db) : Prop :=
  match deferred with Some i => meta d !! entry_at i = Some (MInput i) | None => True end.
Lemma stable_found deferred : stable (found_entry deferred).
Proof. destruct deferred as [i|]; [apply stable_entry|apply stable_true]. Qed.
Lemma moves_attachTrigger new r config deferred m : (∀ i, deferred = Some i → in_status i = "pending") →
  Moves new (found_entry deferred) (attachTrigger r config deferred m).
Proof.
  intros Hp. unfold attachTrigger. destruct deferred as [i|].
  - apply moves_after; [|solve_steps]. apply moves_moveInputMessage. by apply Hp.
  - apply moves_steps. solve_steps. apply steps_update_messages. by intros [].
Qed.
Context {RC : ReadChecks}.
#[local] Hint Resolve steps_successorTx steps_branchSourceReady steps_freezeChannel steps_attachCall steps_deferredInput : steps.
Lemma moves_createRun new identity allowed chat key prompt config m call : Moves new (λ _, True) (createRunWithTool identity allowed chat key prompt config m call).
Proof.
  unfold createRunWithTool, lockConversationTx. pose proof stable_true. apply moves_before; [done|solve_steps|intros _].
  apply moves_transaction, moves_before; [done|solve_steps|intros _]. apply moves_before; [done|solve_steps|intros d].
  destruct (find_by_request chat key d); [apply moves_steps; solve_steps|]. apply moves_before; [done|solve_steps|intros next].
  destruct (negb _); [apply moves_steps; solve_steps|]. do 2 (apply moves_before; [done|solve_steps|intros _]).
  apply (moves_bind _ _ (λ x d, found_entry x d ∧ ∀ i, x = Some i → in_status i = "pending")); [apply moves_steps; solve_steps| |intros deferred].
  { intros w [i|] w1 Hw _ E; [|done]. pose proof (steps_entries (deferredInput chat key config) w (steps_deferredInput _ _ _)) as He.
    rewrite E in He. apply deferredInput_ok in E as (Hi & Hp & _); [|done]. split; [by eapply stable_entry|by intros ? [= <-]]. }
  assert (Hs : stable (λ d, found_entry deferred d ∧ ∀ i, deferred = Some i → in_status i = "pending")).
  { intros d1 d2 Hs [Hf Hp]. split; [by eapply stable_found|done]. }
  do 4 (apply moves_before; [done|solve_steps|intros ?]). cbv zeta. do 2 (apply moves_before; [done|solve_steps|intros _]).
  apply moves_after; [|intros _; solve_steps].
  intros w Hw [Hf Hp]. by apply (moves_attachTrigger _ _ _ deferred).
Qed.
Lemma creates_moves w w' : creates w w' → inputs_step false (w_db w) (w_db w').
Proof. intros (i & al & c & k & p & cfg & m & call & ->) Hw. by apply moves_createRun. Qed.
End entries.
