(* ===== verification/Telegram.v ===== *)
(** * Access to Telegram chats

    Model of src/internal/harness/telegram_access.go: the bots that are
    connected, the requests for access people make in a chat, which live in
    memory and expire, and the grant the operator proposes and applies, whose
    revision every call and delivery of a run is checked against. *)

From Stdlib Require Import Ascii.
From S2P Require Import Prelude Text Data Sql Store Space Workspace Profile FilePolicy Permission Channel.
Local Open Scope Z_scope.

#[export] Instance TelegramAccess_eq_dec : EqDecision TelegramAccess.
Proof. solve_decision. Defined.

(** Times are nanoseconds. *)
Definition telegramRequestTTL : Z := 3600 * 10 ^ 9.
Definition telegramRequestCapacity : nat := 32.
Definition telegramRequestNoticeInterval : Z := 60 * 10 ^ 9.

Record TelegramAccessRequest := mkAccessRequest {
  tr_id : string;
  tr_code : string;
  tr_target : ChannelTarget;
  tr_kind : string;
  tr_person : string;
  tr_name : string;
  tr_created : Z;
  tr_expires : Z;
  tr_notified : Z;
}.

(** What the store keeps in memory: [telegramBot], [telegramBots] and
    [telegramRequests], under [telegramMu]. *)
Record TelegramMemory := mkTelegram { tm_bot : string; tm_bots : gset string; tm_requests : gmap string TelegramAccessRequest }.
Definition set_requests (l : gmap string TelegramAccessRequest) (m : TelegramMemory) : TelegramMemory := mkTelegram (tm_bot m) (tm_bots m) l.
Definition requests (m : TelegramMemory) : list TelegramAccessRequest := (map_to_list (tm_requests m)).*2.

(** [telegramIdentity], [telegramIdentities]. *)
Definition telegramIdentity (bot : string) (m : TelegramMemory) : TelegramMemory :=
  if bool_decide (tm_bot m = bot) then m else mkTelegram bot {[bot]} ∅.
Definition telegramIdentities (bots : list string) (m : TelegramMemory) : TelegramMemory :=
  mkTelegram (tm_bot m) (list_to_set bots) (filter (λ kv, ct_application (tr_target kv.2) ∈ bots) (tm_requests m)).

(** [expireTelegramRequests]. *)
Definition expireTelegramRequests (now : Z) (m : TelegramMemory) : TelegramMemory :=
  set_requests (filter (λ kv, now < tr_expires kv.2) (tm_requests m)) m.

(** ** Requests *)

(** The event of a chat, [channelEvent] (channel_runtime.go), as far as it is
    used. *)
Record channelEvent := mkEvent { ce_target : ChannelTarget; ce_person : string; ce_name : string; ce_kind : string }.

(** The runes of a string in UTF-8; an invalid byte is U+FFFD. *)
Fixpoint rune_list (fuel : nat) (s : string) : list string :=
  match fuel, s with
  | O, _ | _, "" => []
  | S fuel, String c _ =>
      let w := rune_width s in
      (if (w =? 1)%nat && (128 <=? code c)%nat then bytes_str [239; 191; 189]%nat else String.substring 0 w s)
      :: rune_list fuel (String.substring w (String.length s - w) s)
  end.
Definition printable (r : string) : bool :=
  match r with String c "" => (32 <=? code c)%nat && negb (code c =? 127)%nat | _ => true end.
Definition display_name (s : string) : string := concat_s (take 128 (filter (λ r, printable r = true) (rune_list (String.length s) s))).

(** The code of a request: eight random bytes over an alphabet of 32, drawn
    until the code is new; [draws] are the answers of [rand.Read]. *)
Definition alphabet : string := "23456789ABCDEFGHJKLMNPQRSTUVWXYZ".
Definition code_char (b : nat) : ascii := match String.get (b mod String.length alphabet)%nat alphabet with Some c => c | None => "2"%char end.
Definition encode_code (raw : list nat) : string := foldr (λ b s, String (code_char b) s) "" raw.
Fixpoint new_code (draws : list (res (list nat))) (taken : list string) : res string :=
  match draws with
  | [] => Err (EText "rand: no data")
  | Err e :: _ => Err e
  | Ok raw :: draws => if bool_decide (encode_code raw ∈ taken) then new_code draws taken else Ok (encode_code raw)
  end.

Definition same_request (e : channelEvent) (r : TelegramAccessRequest) : bool :=
  bool_decide (tr_target r = ce_target e) && bool_decide (tr_kind r = ce_kind e) && bool_decide (tr_person r = ce_person e).
Definition notified (now : Z) (r : TelegramAccessRequest) : TelegramAccessRequest :=
  mkAccessRequest (tr_id r) (tr_code r) (tr_target r) (tr_kind r) (tr_person r) (tr_name r) (tr_created r) (tr_expires r) now.

Section telegram.
Context {H : Host} {D : Disk}.

(** [requestTelegramAccess]: the request and whether to announce it; the second
    component is the memory afterwards. *)
Definition requestTelegramAccess (e : channelEvent) (now : Z) (draws : list (res (list nat))) (m : TelegramMemory)
    : M (res (TelegramAccessRequest * bool) * TelegramMemory) :=
  if negb (validTelegramTarget (ce_target e) && validTelegramPerson (ce_person e) && one_of (ce_kind e) ["private"; "group"])
  then mret (Err ErrPermissionDenied, m)
  else if negb (bool_decide (ct_application (ce_target e) ∈ tm_bots m)) then mret (Err ErrPermissionDenied, m)
  else
    let m := expireTelegramRequests now m in
    match List.find (λ kv, same_request e kv.2) (map_to_list (tm_requests m)) with
    | Some (id, r) =>
        if telegramRequestNoticeInterval <=? now - tr_notified r
        then mret (Ok (notified now r, true), set_requests (<[id := notified now r]> (tm_requests m)) m)
        else mret (Ok (r, false), m)
    | None =>
        if (telegramRequestCapacity <=? size (tm_requests m))%nat
        then mret (Err (EText "telegram: access request capacity reached; try again after an application expires"), m)
        else match new_code draws (map tr_code (requests m)) with
        | Err err => mret (Err err, m)
        | Ok code =>
            id ← newID;
            let r := mkAccessRequest id code (ce_target e) (ce_kind e) (ce_person e) (display_name (ce_name e)) now (now + telegramRequestTTL) now in
            mret (Ok (r, true), set_requests (<[id := r]> (tm_requests m)) m)
        end
    end.

(** [TelegramAccessRequests], [TelegramRequest]. *)
Definition created_le (a b : TelegramAccessRequest) : Prop := tr_created a <= tr_created b.
#[local] Instance created_le_dec : RelDecision created_le := λ a b, Z_le_dec (tr_created a) (tr_created b).
Definition TelegramAccessRequests (now : Z) (m : TelegramMemory) : list TelegramAccessRequest * TelegramMemory :=
  let m := expireTelegramRequests now m in (merge_sort created_le (requests m), m).
Definition TelegramRequest (wanted : string) (now : Z) (m : TelegramMemory) : res TelegramAccessRequest * TelegramMemory :=
  let l := TelegramAccessRequests now m in
  (match List.find (λ r, bool_decide (tr_code r = ToUpper (TrimSpace wanted)) || bool_decide (tr_id r = wanted)) l.1 with
   | Some r => Ok r | None => Err ErrControlExpired end, l.2).

(** ** Proposing and applying a grant *)

Record TelegramAccessChange := mkAccessChange {
  tc_code : string;
  tc_request : string;
  tc_target : ChannelTarget;
  tc_kind : string;
  tc_enabled : bool;
  tc_whole_group : bool;
  tc_members : list string;
  tc_title : string;
}.

(** The control record: the arguments, and the grant that was there when it was
    proposed. *)
Record controlRecord := mkControl { ct_args : TelegramAccessChange; ct_before : option TelegramAccess }.

(** [slices.Sort] and [slices.Compact] on strings. *)
Definition string_le (a b : string) : Prop := String.leb a b = true.
#[local] Instance string_le_dec : RelDecision string_le := λ a b, decide (String.leb a b = true).
Fixpoint Compact (l : list string) : list string :=
  match l with
  | a :: (b :: _) as l' => if bool_decide (a = b) then Compact l' else a :: Compact l'
  | _ => l
  end.

(** The request a change names, by code or by identifier. *)
Definition named_request (c : TelegramAccessChange) (m : TelegramMemory) : res string :=
  if bool_decide (tc_code c = "") then Ok (tc_request c)
  else
    let id := foldl (λ id r, if EqualFold (tr_code r) (TrimSpace (tc_code c)) then tr_id r else id) (tc_request c) (requests m) in
    _ ← check (negb (bool_decide (id = ""))) ErrControlExpired;
    Ok id.
Definition no_target : ChannelTarget := mkChannelTarget "" "" "".
Definition requested_change (c : TelegramAccessChange) (m : TelegramMemory) : res TelegramAccessChange :=
  id ← named_request c m;
  if bool_decide (id = "") then Ok (mkAccessChange "" "" (tc_target c) (tc_kind c) (tc_enabled c) (tc_whole_group c) (tc_members c) (tc_title c))
  else match tm_requests m !! id with
  | None => Err ErrControlExpired
  | Some r =>
      _ ← check (bool_decide (tc_target c = no_target) || bool_decide (tc_target c = tr_target r)) ErrPermissionDenied;
      Ok (mkAccessChange "" id (tr_target r) (tr_kind r) (tc_enabled c) (tc_whole_group c)
            (if bool_decide (tr_person r ∈ tc_members c) then tc_members c else tc_members c ++ [tr_person r]) (tc_title c))
  end.
Definition checked_change (c : TelegramAccessChange) (bots : gset string) : res TelegramAccessChange :=
  _ ← check (validTelegramTarget (tc_target c) && bool_decide (ct_application (tc_target c) ∈ bots) && one_of (tc_kind c) ["private"; "group"]
             && (length (tc_members c) <=? 128)%nat && negb (bool_decide (tc_kind c = "private") && tc_whole_group c)) ErrPermissionDenied;
  let members := Compact (merge_sort string_le (tc_members c)) in
  _ ← check (forallb validTelegramPerson members) ErrPermissionDenied;
  _ ← check (negb (tc_enabled c && negb (tc_whole_group c) && bool_decide (members = [])
                   || bool_decide (tc_kind c = "private") && negb (length members =? 1)%nat))
        (EText "telegram: private access requires one verified person; a member-scoped group needs at least one member");
  let title := if bool_decide (tc_title c = "") then "Telegram " +:+ ct_chat (tc_target c) else tc_title c in
  _ ← check (is_ok (validateSpaceTitle title)) ErrInvalidSpace;
  Ok (mkAccessChange (tc_code c) (tc_request c) (tc_target c) (tc_kind c) (tc_enabled c) (tc_whole_group c) members title).

(** [buildTelegramAccess]. *)
Definition grant_row (v : option MetaValue) : option TelegramAccess := match v with Some (MAccess g) => Some g | _ => None end.
Definition buildTelegramAccess (args : TelegramAccessChange) (now : Z) (m : TelegramMemory) : M (res controlRecord * TelegramMemory) :=
  let m := expireTelegramRequests now m in
  match args ← requested_change args m; checked_change args (tm_bots m) with
  | Err e => mret (Err e, m)
  | Ok args =>
      found ← outcome (telegramAccessRaw (tc_target args));
      mret (match found with Err e => Err e | Ok g => Ok (mkControl args (grant_row g.2)) end, m)
  end.

(** [ListConversationsInSpace] (store.go), the identifiers. *)
Definition ListConversationsInSpace (space : string) : M (list string) :=
  _ ← GetSpace space;
  query (λ d, map cv_id (filter (λ c, cv_space c = space) (conversations d))).

(** The transaction of [applyTelegramAccess]: the grant, its space, and whether
    it was written. The revision is a uint64. *)
Definition apply_grant (record : controlRecord) (workspace : string) : M (TelegramAccess * Space * bool) :=
  let args := ct_args record in
  transaction
    (p ← telegramAccessRaw (tc_target args);
     let previous := p.1 in
     _ ← guard_ (bool_decide (grant_row p.2 = ct_before record)) ErrControlStaleRevision;
     space ← bindChannelTx (tc_target args) (tc_kind args) (tc_title args) workspace;
     _ ← guard_ (bool_decide (sp_kind space = tc_kind args)) ErrInvalidSpace;
     if bool_decide (ta_space previous = sp_id space) && Bool.eqb (ta_enabled previous) (tc_enabled args)
        && Bool.eqb (ta_whole_group previous) (tc_whole_group args) && bool_decide (ta_members previous = tc_members args)
     then mret (previous, space, false)
     else
       now ← nowText;
       let grant := mkAccess (tc_target args) (sp_id space) (tc_kind args) (tc_enabled args) (tc_whole_group args) (tc_members args)
                      ((ta_revision previous + 1) mod 2 ^ 64) now in
       _ ← meta_upsert (telegramAccessKey (tc_target args)) (MAccess grant);
       mret (grant, space, true)).

(** [applyTelegramAccess]: the grant, the conversations cancelled and the
    commands asked to stop. *)
Record Applied := mkApplied { ap_grant : TelegramAccess; ap_cancelled : list string; ap_stopped : list string }.
Definition request_alive (args : TelegramAccessChange) (now : Z) (m : TelegramMemory) : bool :=
  bool_decide (tc_request args = "") ||
  match tm_requests m !! tc_request args with
  | Some r => (now <? tr_expires r) && bool_decide (tr_target r = tc_target args)
  | None => false end.
Definition applyTelegramAccess (sup : Supervisor) (record : controlRecord) (workspace : string) (now : Z) (m : TelegramMemory)
    : M (res Applied * TelegramMemory) :=
  let args := ct_args record in
  if negb (bool_decide (ct_application (tc_target args) ∈ tm_bots m)) then mret (Err ErrControlStaleRevision, m)
  else if negb (request_alive args now m) then mret (Err ErrControlExpired, m)
  else
    r ← outcome (apply_grant record workspace);
    match r with
    | Err e => mret (Err e, m)
    | Ok (grant, space, changed) =>
        let m := set_requests (delete (tc_request args) (tm_requests m)) m in
        if negb changed then mret (Ok (mkApplied grant [] []), m)
        else
          chats ← outcome (ListConversationsInSpace (sp_id space));
          match chats with
          | Err e => mret (Err e, m)
          | Ok chats =>
              stopped ← outcome (stopPermissionCommands sup (sp_id space) "");
              mret (Ok (mkApplied grant chats (match stopped with Ok r => r.1 | Err _ => [] end)), m)
          end
    end.

(** ** Checks before a call and before a delivery *)

(** [lockTelegramDispatch]: whether the call may be made; [cancelled] is the
    context's error. *)
Definition lockTelegramDispatch (m : TelegramMemory) (channel : option ChannelRunOrigin) (permission : option PermissionSelection)
    (cancelled : option error) : M unit :=
  match channel, permission with
  | Some o, Some p =>
      if negb (bool_decide (ct_source (co_target o) = "telegram")) || bool_decide (ps_person p = "") then mret tt
      else
        grant ← or_else (CheckTelegramAccess (co_target o) (ps_person p)) ErrPermissionRevoked;
        _ ← guard_ ((ta_revision grant =? co_revision o) && bool_decide (ct_application (co_target o) ∈ tm_bots m)) ErrPermissionRevoked;
        match cancelled with Some e => fail e | None => mret tt end
  | _, _ => mret tt
  end.

(** [sendRunText] up to the send: what is checked before the text of a run is
    sent to a chat. *)
Definition sendRunText_check (m : TelegramMemory) (run : Run) (target : ChannelTarget) : M unit :=
  if negb (bool_decide (ct_source target = "telegram")) then mret tt
  else match rc_permission (run_config run), rc_channel (run_config run) with
  | Some p, Some o =>
      grant ← or_else (telegramDeliveryGrant target (ps_person p) (bool_decide (ps_person p = ""))) ErrPermissionRevoked;
      guard_ ((co_revision o =? ta_revision grant) && bool_decide (ct_application target ∈ tm_bots m)) ErrPermissionRevoked
  | _, _ => fail ErrPermissionDenied
  end.

(** [withTelegramFileAccess] up to the send: the authority of the context, or of
    the run the file is bound to. *)
Record telegramFileAuthority := mkAuthority { fa_local : bool; fa_target : ChannelTarget; fa_person : string; fa_revision : Z }.
Definition run_authority (run : Run) : res telegramFileAuthority :=
  match rc_channel (run_config run), rc_permission (run_config run) with
  | Some o, Some p => Ok (mkAuthority (bool_decide (ps_person p = "")) (co_target o) (ps_person p) (co_revision o))
  | _, _ => Err ErrPermissionDenied
  end.
Definition withTelegramFileAccess_check (m : TelegramMemory) (target : ChannelTarget) (binding : string) (authority : option telegramFileAuthority)
    : M unit :=
  if negb (bool_decide (ct_source target = "telegram")) then mret tt
  else
    a ← match authority with
        | Some a => mret a
        | None => run ← query_row (find_run binding); lift (run_authority run)
        end;
    _ ← guard_ (bool_decide (fa_target a = target) && bool_decide (ct_application target ∈ tm_bots m)) ErrPermissionRevoked;
    grant ← or_else (telegramDeliveryGrant target (fa_person a) (fa_local a)) ErrPermissionRevoked;
    guard_ (ta_revision grant =? fa_revision a) ErrPermissionRevoked.
End telegram.
