(* ===== verification/System.v ===== *)
(** * The service as one machine

    Every operation on the store that the development models, and the memory of
    the Telegram bots beside it, as the steps of one transition system: the
    theorems about "any interleaving" are about its runs. Each operation is one
    step, since the store serialises its transactions and [telegramMu] the
    operations on the bots. *)

From S2P Require Import Prelude Text Data Sql Store StoreInv Space SpaceInv StoreProps SpaceProps SpaceMove Workspace Profile FilePolicy Permission PermissionProps Budget Memory MemoryStore MemoryProps Channel Telegram Model Routing Queue QueueInv.

(** ** The operations respect what the store's statements respect *)

(** What writing a grant respects as well. *)
Class RespectsAccess (R : relation db) : Prop := {
  ra_revoke :: RespectsRevoke R;
  ra_access : ∀ d k g, access_key k = true → R d (set_meta (<[k := MAccess g]> (meta d)) d);
}.
#[export] Instance respects_access_closed : Closed RespectsAccess.
Proof. intros R HR. apply HR. Qed.
Notation AccessSteps := (Along RespectsAccess).
Lemma access_steps {A} (m : M A) : RevokeSteps m → AccessSteps m.
Proof. apply along_sub. by intros R []. Qed.
#[export] Hint Resolve respects_access_closed : steps.
#[export] Hint Extern 6 (AccessSteps _) => apply access_steps : steps.

(** What a mutation of memory respects as well; the identifier it draws is not
    one memory already uses. *)
Definition fresh_id {H : Host} (w : world) : Prop := newID_at (w_ids w) ∉ map me_id (mt_entries (memory (w_db w))).
Class RespectsMemory {H : Host} (R : relation db) : Prop := {
  rmem_access :: RespectsAccess R;
  rmem_mutate : ∀ a m r w w', mutateMemoryTx a m w = (Ok r, w') → fresh_id w → R (w_db w) (w_db w');
}.
(** A relation that does not look at memory. *)
Lemma respects_memory_blind {H : Host} R : RespectsAccess R → (∀ d t, R d (set_memory t d)) → RespectsMemory R.
Proof. intros HR Hb. split; [done|]. intros a m r w w' Hm _. apply mutate_ok in Hm as (_ & _ & t & _ & ->). apply Hb. Qed.
Lemma wf_set_memory d t : step_ok d (set_memory t d).
Proof. intros []. split; [by split|split; simpl; (reflexivity || done)]. Qed.

Lemma access_key_free t : write_once (telegramAccessKey t) = false ∧ String.prefix "recovery/model/" (telegramAccessKey t) = false.
Proof. split; reflexivity. Qed.
Lemma telegramAccessKey_access t : access_key (telegramAccessKey t) = true.
Proof. unfold access_key, telegramAccessKey. apply prefix_app. Qed.
#[export] Instance step_ok_respects_access : RespectsAccess step_ok.
Proof.
  split; [apply _|]. intros d k g [s ->]%HasPrefix_spec. apply wf_set_meta. split.
  - intros k' v Hk _ Hl. rewrite lookup_insert_ne; [done|]. by intros <-.
  - intros root r Hl. exists r. split; [|lia]. rewrite lookup_insert_ne; [done|]. done.
Qed.

Section methods.
Context {H : Host} {RC : ReadChecks} {D : Disk}.


(** Permissions. *)
Lemma steps_persistSpacePermission sup i s : Steps (persistSpacePermission sup i s).
Proof.
  unfold persistSpacePermission. apply steps_bind; [apply reads_steps, reads_spacePermission|intros before].
  apply steps_bind; [apply steps_guard|intros []]. apply steps_bind; [solve_steps|intros []].
  apply steps_bind; [apply steps_meta_upsert; split_and!; reflexivity|intros []].
  destruct (_ <? _)%Z; [apply reads_steps, reads_stopPermissionCommands|apply steps_ret].
Qed.
Lemma permission_step_along R `{!Respects R} e sup c w w' : permission_step e sup c w w' → R (w_db w) (w_db w').
Proof.
  intros Hs. destruct Hs as [i mode|p name mode|chat mode|chat mode computer roots|chat s];
    match goal with |- R _ (w_db (?m _).2) => cut (Steps m); [intros Hm; by apply Hm|] end.
  - unfold SetSpacePermission. apply steps_bind; [apply steps_lift|intros []].
    apply steps_bind; [apply reads_steps, reads_spacePermission|intros s]. apply steps_bind; [apply steps_guard|intros []].
    apply steps_persistSpacePermission.
  - unfold SetPersonPermission. apply steps_bind; [apply steps_guard|intros []]. apply steps_bind; [apply steps_lift|intros []].
    apply steps_bind; [apply reads_steps, reads_PersonPermission|intros s]. apply steps_bind; [apply steps_guard|intros []].
    apply steps_bind; [apply steps_nowText|intros now]. apply steps_bind; [apply steps_meta_upsert; split_and!; reflexivity|intros []].
    destruct (_ <? _)%Z; [apply reads_steps, reads_stopPermissionCommands|apply steps_ret].
  - unfold SelectPermission. apply steps_bind; [apply steps_lift|intros []].
    apply steps_bind; [apply reads_steps, reads_SelectedPermission|intros s]. apply steps_bind; [apply steps_guard|intros []].
    apply steps_persistSpacePermission.
  - unfold SelectPermissionWithFiles. apply steps_bind; [apply steps_lift|intros []].
    apply steps_bind; [apply reads_steps, reads_SelectedPermission|intros s]. apply steps_bind; [apply steps_guard|intros []].
    apply steps_bind; [apply reads_steps; solve_reads|intros roots']. apply steps_persistSpacePermission.
  - unfold SelectExecutionProfile. apply steps_bind; [apply reads_steps, reads_SelectedPermission|intros s0].
    apply steps_bind; [apply steps_guard|intros []]. apply steps_bind; [apply steps_lift|intros s']. apply steps_persistSpacePermission.
Qed.

(** Channels. *)
Lemma steps_insert_keyed_message chat key b : MessageSteps (insert_keyed_message chat key b).
Proof. unfold insert_keyed_message. solve_steps. Qed.
Lemma steps_meta_insert_once k v : input_key k = false → Steps (meta_insert_once k v).
Proof. intros Hk. unfold meta_insert_once. solve_steps. by apply steps_meta_insert. Qed.
#[local] Hint Resolve steps_insert_keyed_message steps_scanSpace : steps.
#[local] Hint Extern 1 (Steps (meta_insert_once _ _)) => apply steps_meta_insert_once; reflexivity : steps.
Lemma steps_receive_conversation s r wd : SpaceSteps (receive_conversation s r wd).
Proof. unfold receive_conversation. solve_steps. Qed.
#[local] Hint Resolve steps_receive_conversation : steps.
Lemma steps_ReceiveChannelText s t r wd : SpaceSteps (ReceiveChannelText s t r wd).
Proof.
  unfold ReceiveChannelText. apply steps_bind; [apply steps_guard|intros []].
  apply steps_bind; [destruct (bool_decide _); [apply reads_steps, reads_CheckTelegramAccess|apply steps_ret]|intros access].
  solve_steps.
Qed.
Lemma steps_RecordChannelDelivery i d t st b : MessageSteps (RecordChannelDelivery i d t st b).
Proof.
  unfold RecordChannelDelivery. apply steps_bind; [apply steps_or_else; unfold ChannelRun; solve_steps|intros r]. cbv zeta. solve_steps.
Qed.

(** Grants. *)
Lemma steps_write_access t g : AccessSteps (meta_upsert (telegramAccessKey t) (MAccess g)).
Proof. apply steps_query_id. intros R HR HP w. by apply ra_access, telegramAccessKey_access. Qed.
Lemma steps_bindChannelTx t k n wd : SpaceSteps (bindChannelTx t k n wd).
Proof. unfold bindChannelTx. solve_steps. Qed.
Lemma steps_apply_grant r wd : AccessSteps (apply_grant r wd).
Proof.
  unfold apply_grant. apply steps_transaction. apply steps_bind; [apply reads_steps, reads_telegramAccessRaw|intros p].
  cbv zeta. apply steps_bind; [apply steps_guard|intros []].
  apply steps_bind; [apply access_steps, revoke_steps, steps_bindChannelTx|intros s].
  apply steps_bind; [apply steps_guard|intros []]. destruct (_ && _); [apply steps_ret|].
  apply steps_bind; [apply steps_nowText|intros now]. apply steps_bind; [apply steps_write_access|intros []]. apply steps_ret.
Qed.
Lemma reads_ListConversationsInSpace i : Reads (ListConversationsInSpace i).
Proof. unfold ListConversationsInSpace. apply reads_bind; [apply reads_GetSpace|intros s; apply reads_query]. Qed.

(** Beyond the transaction, applying a grant only reads. *)
Lemma applyTelegramAccess_world sup r wd now m w :
  w_db (applyTelegramAccess sup r wd now m w).2 = w_db w ∨
  w_db (applyTelegramAccess sup r wd now m w).2 = w_db (apply_grant r wd w).2.
Proof.
  unfold applyTelegramAccess. destruct (negb _); [by left|]. destruct (negb _); [by left|]. right.
  unfold mbind at 1, M_bind at 1. unfold outcome at 1. destruct (apply_grant r wd w) as [[[[g s] b]|e] w1]; [|done].
  destruct b; [|done]. simpl negb. cbv iota zeta.
  match goal with |- w_db (?p w1).2 = _ => assert (Hr : Reads p); [|by rewrite Hr] end.
  apply reads_bind; [apply reads_outcome, reads_ListConversationsInSpace|intros [l|e]; [|apply reads_ret]].
  apply reads_bind; [apply reads_outcome, reads_stopPermissionCommands|intros x; apply reads_ret].
Qed.
Lemma steps_applyTelegramAccess sup r wd now m : AccessSteps (applyTelegramAccess sup r wd now m).
Proof.
  intros R HR w. destruct (applyTelegramAccess_world sup r wd now m w) as [-> | ->];
    [pose proof (closed_pre (C:=RespectsAccess) R HR); reflexivity|by apply steps_apply_grant].
Qed.

(** The models of runs. *)
Lemma run_update_selection s now : run_update (set_run_selection s now).
Proof. intros r. split; [split; simpl; (done || lia)|done]. Qed.
#[local] Hint Resolve run_update_selection : steps.
Section routing.
Context {MH : ModelHost} {U : Unicode} {RH : RoutingHost}.
Lemma steps_saveRouting s r b d : Steps (saveRouting s r b d).
Proof. unfold saveRouting. solve_steps. Qed.
#[local] Hint Resolve steps_saveRouting : steps.
Lemma steps_prepareAuto r refresh assess s run l : (∀ b, Steps (assess b)) → Steps (prepareAuto r refresh assess s run l).
Proof. intros Ha. unfold prepareAuto. solve_steps. Qed.
Lemma steps_editRun u i edit : (∀ run, Steps (edit run)) → Steps (editRun u i edit).
Proof. intros He. unfold editRun. solve_steps. Qed.
Lemma steps_SwitchModel r u i m : Steps (SwitchModel r u i m).
Proof. apply steps_editRun. intros run. unfold switch_edit. cbv zeta. solve_steps. Qed.
Lemma steps_IncreaseRunLimits c u i l : Steps (IncreaseRunLimits c u i l).
Proof. unfold IncreaseRunLimits. apply steps_bind; [apply steps_lift|intros ?]. apply steps_editRun. intros run. solve_steps. Qed.
End routing.

(** Memory. *)
Lemma reads_lockExecutionTx r : Reads (lockExecutionTx r).
Proof. unfold lockExecutionTx, lockConversationTx. solve_reads. Qed.
Lemma bind_at R `{!PreOrder R} {A B} (m : M A) (f : A → M B) w : Reads m → (∀ a, R (w_db w) (w_db (f a w).2)) → R (w_db w) (w_db ((m ≫= f) w).2).
Proof.
  intros Hm Hf. unfold mbind, M_bind. specialize (Hm w). destruct (m w) as [[a|e] w1]; simpl in Hm; subst; [apply Hf|simpl; reflexivity].
Qed.
Lemma transaction_at R `{!PreOrder R} {A} (m : M A) w : (∀ a w', m w = (Ok a, w') → R (w_db w) (w_db w')) → R (w_db w) (w_db (transaction m w).2).
Proof. intros Hm. unfold transaction. destruct (m w) as [[a|e] w1]; simpl; [by eapply Hm|reflexivity]. Qed.
Lemma transaction_join_at R `{!PreOrder R} {A} (m : M (A * option error)) w : R (w_db w) (w_db (m w).2) → R (w_db w) (w_db (transaction_join m w).2).
Proof. intros Hm. unfold transaction_join. destruct (m w) as [[[a [e|]]|e] w1]; simpl in *; [done|done|reflexivity]. Qed.

Lemma executeMemoryWrite_along R `{!PreOrder R} p project run attempt limit m w :
  (∀ a m r w', mutateMemoryTx a m w = (Ok r, w') → R (w_db w) (w_db w')) →
  R (w_db w) (w_db (savepoint (executeMemoryWrite p project run attempt limit m) w).2).
Proof.
  intros Hf. unfold savepoint.
  destruct (executeMemoryWrite _ _ _ _ _ _ w) as [[r|e] w'] eqn:E; simpl; [|reflexivity].
  unfold executeMemoryWrite in E. rewrite bind_query in E. apply bind_ok in E as (sources & w1 & [_ <-]%lift_ok & E).
  apply bind_ok in E as (rc & w1 & Hm & E). apply bind_ok in E as (d & w2 & [= _ <-] & E). cbv zeta in E.
  apply bind_ok in E as ([] & w3 & [_ <-]%guard_ok & [_ <-]%ret_ok). by eapply Hf.
Qed.
Lemma executeLocalToolMode_along R `{!Respects R} r a c m norm g `{!GuardSteps g} n b w : R (w_db w) (w_db (savepoint m w).2) →
  R (w_db w) (w_db (executeLocalToolMode r a c m norm g n b w).2).
Proof.
  intros Hm. unfold executeLocalToolMode. apply transaction_join_at; [apply _|].
  apply bind_at; [apply _|apply reads_lockExecutionTx|intros []]. apply bind_at; [apply _|apply reads_query|intros d].
  apply bind_at; [apply _|by destruct (List.find _ _)|intros t]. apply bind_at; [apply _|apply reads_guard|intros []].
  destruct (att_status t); [simpl; reflexivity| | |simpl; reflexivity].
  2: { destruct (att_response t) as [[]|]; simpl; reflexivity. }
  unfold mbind at 1, M_bind at 1. destruct (savepoint m w) as [[x|e] w1]; [|done]. simpl in Hm. etrans; [exact Hm|].
  match goal with |- R (w_db w1) (w_db (?k w1).2) => assert (Hk : Steps k); [|by apply Hk] end.
  cbv zeta. apply steps_bind; [apply steps_guard|intros []]. apply steps_bind; [by apply steps_saveToolTxMode|intros oe; apply steps_ret].
Qed.
Lemma reads_AgentIdentity project chat : Reads (AgentIdentity project chat).
Proof.
  unfold AgentIdentity. solve_reads.
Qed.
Lemma SaveMemory_along R `{!PreOrder R} c project chat document m w :
  (∀ a m r w', mutateMemoryTx a m w = (Ok r, w') → R (w_db w) (w_db w')) →
  R (w_db w) (w_db (SaveMemory c project chat document m w).2).
Proof.
  intros Hf. unfold SaveMemory. cbv zeta.
  apply bind_at; [apply _|apply reads_AgentIdentity|intros agent]. do 2 (apply bind_at; [apply _|apply reads_lift|intros ?]).
  apply bind_at; [apply _|apply reads_query|intros d]. apply bind_at; [apply _|apply reads_lift|intros [receipt|]]; [simpl; reflexivity|].
  do 2 (apply bind_at; [apply _|apply reads_guard|intros []]). apply bind_at; [apply _|apply reads_lift|intros files].
  apply transaction_at; [apply _|]. intros r w' Hm. by eapply Hf.
Qed.
End methods.

(** ** The machine *)
Record system := mkSystem { sy_memory : TelegramMemory; sy_world : world }.

(** An operation on the bots' memory that also uses the store. *)
Definition run_telegram {A} (op : M (A * TelegramMemory)) (s : system) : system :=
  match op (sy_world s) with
  | (Ok r, w) => mkSystem r.2 w
  | (Err _, w) => mkSystem (sy_memory s) w
  end.

#[export] Instance step_ok_respects_memory {H : Host} : RespectsMemory step_ok.
Proof. apply respects_memory_blind; [apply _|apply wf_set_memory]. Qed.

(** Everything the operations respect. *)
Class RespectsSystem {H : Host} (R : relation db) : Prop := {
  rsys_memory :: RespectsMemory R;
  rsys_inputs :: RespectsInputs R;
}.
#[export] Instance step_ok_respects_system {H : Host} : RespectsSystem step_ok.
Proof. split; apply _. Qed.

Section machine.
Context {H : Host} {RC : ReadChecks} {D : Disk} {MH : ModelHost} {RH : RoutingHost}.

Inductive system_step (s : system) : system → Prop :=
| sy_store w (Hop : op_step (sy_world s) w) : system_step s (mkSystem (sy_memory s) w)
| sy_permission e sup c w (Hop : permission_step e sup c (sy_world s) w) : system_step s (mkSystem (sy_memory s) w)
| sy_receive source text replay wd : system_step s (mkSystem (sy_memory s) (ReceiveChannelText source text replay wd (sy_world s)).2)
| sy_deliver run delivery text state b :
    system_step s (mkSystem (sy_memory s) (RecordChannelDelivery run delivery text state b (sy_world s)).2)
| sy_route r refresh assess sel run l (Hassess : ∀ b, Steps (assess b)) :
    system_step s (mkSystem (sy_memory s) (prepareAuto r refresh assess sel run l (sy_world s)).2)
| sy_switch r unchanged id model : system_step s (mkSystem (sy_memory s) (SwitchModel r unchanged id model (sy_world s)).2)
| sy_limits config unchanged id limits : system_step s (mkSystem (sy_memory s) (IncreaseRunLimits config unchanged id limits (sy_world s)).2)
| sy_input w (Hop : queue_op (sy_world s) w) : system_step s (mkSystem (sy_memory s) w)
| sy_identity bot : system_step s (mkSystem (telegramIdentity bot (sy_memory s)) (sy_world s))
| sy_identities bots : system_step s (mkSystem (telegramIdentities bots (sy_memory s)) (sy_world s))
| sy_list now : system_step s (mkSystem (TelegramAccessRequests now (sy_memory s)).2 (sy_world s))
| sy_request e now draws : system_step s (run_telegram (requestTelegramAccess e now draws (sy_memory s)) s)
| sy_build args now : system_step s (run_telegram (buildTelegramAccess args now (sy_memory s)) s)
| sy_apply sup record wd now : system_step s (run_telegram (applyTelegramAccess sup record wd now (sy_memory s)) s)
| sy_save_memory c project chat document m (Hfresh : fresh_id (sy_world s)) :
    system_step s (mkSystem (sy_memory s) (SaveMemory c project chat document m (sy_world s)).2)
| sy_memory_tool run a call p m norm g `(!GuardSteps g) limit max add (Hp : rc_memory (run_config run) = Some p) (Hfresh : fresh_id (sy_world s)) :
    system_step s (mkSystem (sy_memory s)
      (executeLocalToolMode run a call (executeMemoryWrite p (rc_workspace (run_config run)) (run_id run) (att_id a) limit m) norm g max add (sy_world s)).2).

Lemma run_telegram_db {A} (op : M (A * TelegramMemory)) s : w_db (sy_world (run_telegram op s)) = w_db (op (sy_world s)).2.
Proof. unfold run_telegram. by destruct (op (sy_world s)) as [[r|e] w]. Qed.
Lemma request_world e now draws m w : w_db (requestTelegramAccess e now draws m w).2 = w_db w.
Proof.
  unfold requestTelegramAccess. destruct (negb _); [done|]. destruct (negb _); [done|].
  destruct (List.find _ _) as [[i r]|]; [by destruct (_ <=? _)%Z|].
  match goal with |- context [if ?full then _ else _] => destruct full; [done|] end. by destruct (new_code _ _).
Qed.
Lemma build_world args now m w : w_db (buildTelegramAccess args now m w).2 = w_db w.
Proof.
  unfold buildTelegramAccess. cbv zeta. destruct (mbind _ _) as [a|]; [|done]. f_equal.
  apply reads_bind; [apply reads_outcome, reads_telegramAccessRaw|intros f; apply reads_ret].
Qed.

(** Whatever every statement respects, every step does. *)
Lemma system_step_along R `{!RespectsSystem R} s s' : system_step s s' → R (w_db (sy_world s)) (w_db (sy_world s')).
Proof.
  pose proof (closed_pre (C:=RespectsAccess) R _). destruct 1; simpl.
  - destruct Hop as [Hop|Hop]; [by apply run_op_along; try apply _|by apply space_op_revoke; try apply _].
  - eapply permission_step_along; [apply _|exact Hop].
  - by apply (steps_ReceiveChannelText source text replay wd R); try apply _.
  - by apply (steps_RecordChannelDelivery run delivery text state b R); try apply _.
  - by apply steps_prepareAuto; try apply _.
  - by apply steps_SwitchModel; try apply _.
  - by apply steps_IncreaseRunLimits; try apply _.
  - by apply queue_op_along; try apply _.
  - reflexivity.
  - reflexivity.
  - reflexivity.
  - rewrite run_telegram_db, request_world. reflexivity.
  - rewrite run_telegram_db, build_world. reflexivity.
  - rewrite run_telegram_db. by apply steps_applyTelegramAccess; try apply _.
  - apply SaveMemory_along; [apply _|]. intros. by eapply rmem_mutate.
  - apply executeLocalToolMode_along; [apply _..|]. apply executeMemoryWrite_along; [apply _|]. intros. by eapply rmem_mutate.
Qed.
(** Every step but those on the input queue leaves its entries alone. *)
#[export] Instance entries_same_memory : RespectsMemory entries_same.
Proof.
  apply respects_memory_blind; [|by intros d t k]. split; [apply _|]. intros d k g Ha k' Hk'. simpl.
  rewrite lookup_insert_ne; [done|]. intros ->. by rewrite (input_no_access _ Hk') in Ha.
Qed.
Lemma system_step_moves s s' : system_step s s' →
  accepts (sy_world s) (sy_world s') ∨ inputs_step false (w_db (sy_world s)) (w_db (sy_world s')).
Proof.
  destruct 1; simpl. 8: by apply queue_op_moves.
  all: right. 2-15: apply entries_same_step.
  - destruct Hop as [[Hop|Hop]%run_op_cases|Hop]; [by apply creates_moves|apply entries_same_step, Hop, _|].
    apply entries_same_step. by apply space_op_revoke; try apply _.
  - eapply permission_step_along; [apply _|exact Hop].
  - by apply steps_ReceiveChannelText; try apply _.
  - by apply steps_RecordChannelDelivery; try apply _.
  - by apply steps_prepareAuto; try apply _.
  - by apply steps_SwitchModel; try apply _.
  - by apply steps_IncreaseRunLimits; try apply _.
  - reflexivity.
  - reflexivity.
  - reflexivity.
  - rewrite run_telegram_db, request_world. reflexivity.
  - rewrite run_telegram_db, build_world. reflexivity.
  - rewrite run_telegram_db. by apply steps_applyTelegramAccess; try apply _.
  - apply SaveMemory_along; [apply _|]. intros. by eapply rmem_mutate; try apply _.
  - apply executeLocalToolMode_along; [apply _..|]. apply executeMemoryWrite_along; [apply _|]. intros. by eapply rmem_mutate; try apply _.
Qed.
Lemma system_reach R `{!RespectsSystem R} s s' : rtc system_step s s' → R (w_db (sy_world s)) (w_db (sy_world s')).
Proof.
  pose proof (closed_pre (C:=RespectsAccess) R _). induction 1; [reflexivity|]. etrans; [by apply system_step_along|done].
Qed.
Lemma system_wf s s' : rtc system_step s s' → db_wf (w_db (sy_world s)) → db_wf (w_db (sy_world s')).
Proof. intros Hs Hwf. by apply (system_reach step_ok s s' Hs). Qed.

(** ** Keys of messages *)

(** The unique index on the request keys of messages, and their persistence. *)
Definition keyed (d : db) : list string := filter (λ k, k ≠ "") (map msg_request_key (messages d)).
Definition keys_grow (d d' : db) : Prop := (NoDup (keyed d) → NoDup (keyed d')) ∧ ∀ k, k ∈ keyed d → k ∈ keyed d'.
Lemma keys_same d d' : map msg_request_key (messages d') = map msg_request_key (messages d) → keys_grow d d'.
Proof. unfold keys_grow, keyed. by intros ->. Qed.
Lemma keyed_plain l m : msg_request_key m = "" →
  filter (λ k, k ≠ "") (map msg_request_key (l ++ [m])) = filter (λ k, k ≠ "") (map msg_request_key l).
Proof. intros E. rewrite map_app, filter_app. simpl. rewrite filter_cons, E. simpl. by rewrite app_nil_r. Qed.
Lemma find_key_none key d : key ≠ "" → existsb (λ m, bool_decide (msg_request_key m = key)) (messages d) = false → key ∉ keyed d.
Proof.
  intros Hk Hf Hin. apply list_elem_of_filter in Hin as [_ Hin]. apply list_elem_of_fmap in Hin as (m & -> & Hm).
  apply not_true_iff_false in Hf. apply Hf, existsb_exists. exists m. rewrite <- list_elem_of_In. split; [done|]. by apply bool_decide_eq_true.
Qed.
#[export] Instance keys_grow_access : RespectsAccess keys_grow.
Proof.
  assert (Hpre : PreOrder keys_grow).
  { split; [split; auto|]. intros a b c [H1 H2] [H3 H4]. split; auto. }
  assert (Hr : Respects keys_grow).
  { split; try done; try (intros; by apply keys_same).
    - intros d p f Hf. apply keys_same. simpl. apply map_update_rows. intros m. by destruct (Hf m) as (_ & _ & ->).
    - intros r w. unfold insert_run, query_row, mbind, M_bind. destruct (find_conversation _ _); [|done]. simpl.
      by destruct (runs_constraints _).
    - intros a w _. unfold insert_attempt. rewrite bind_query. unfold id. destruct (find_run _ _); [|done]. simpl.
      by destruct (negb _).
    - intros c r b w. unfold insert_message_row, query_row, mbind, M_bind. destruct (find_conversation _ _); [|done]. simpl.
      unfold keys_grow, keyed. simpl. by rewrite keyed_plain.
    - intros c o r f w. unfold move_message_row, query_row, mbind, M_bind. destruct (find_conversation _ _); [|done]. simpl.
      destruct (existsb _ _); [|done]. apply keys_same. simpl. by apply map_update_rows. }
  split; [|by intros; apply keys_same]. split; [|by intros; apply keys_same].
  split; [|by intros; apply keys_same..]. split; [done|].
  intros chat key b w. unfold insert_message_once, query_row, mbind, M_bind. destruct (find_conversation _ _); [|done]. simpl.
  destruct (existsb _ _) eqn:E; [by apply keys_same|]. destruct (decide (key = "")) as [->|Hk].
  { unfold keys_grow, keyed. simpl. by rewrite keyed_plain. }
  pose proof (find_key_none _ _ Hk E) as Hnew. unfold keys_grow, keyed in *. simpl. rewrite map_app, filter_app. simpl.
  rewrite filter_cons_True by done. rewrite filter_nil. split.
  - intros Hn. apply NoDup_app. split; [done|]. split; [|apply NoDup_singleton]. by intros x Hx ->%list_elem_of_singleton.
  - intros k Hin. apply elem_of_app. by left.
Qed.
End machine.
#[export] Instance keys_grow_system {H : Host} : RespectsSystem keys_grow.
Proof. split; [apply respects_memory_blind; [apply _|]; intros d t|split; [apply _|]; intros d k i _]; by apply keys_same. Qed.
