(* ===== verification/QueueProps.v ===== *)
(** * The input queue: what it guarantees

    An accepted input is never lost: it stays filed under its key with the
    authority it was accepted with, and once it is adopted or cancelled it never
    changes, whatever the service does in between. A conversation has at most
    twenty pending inputs. What accepting an input writes, and what adopting
    steering does to the run it reaches. *)

From S2P Require Import Prelude Text Data Sql Store StoreInv Space SpaceInv StoreProps SpaceProps StoreRuns StoreCalls StoreEnd Workspace Profile ProfileProps FilePolicy FilePolicyProps Permission PermissionProps Budget BudgetProps Memory MemoryStore MemoryProps Channel Telegram Model Routing RoutingProps Queue QueueInv System.

(** ** Reachable states *)
Section runs.
Context {H : Host} {RC : ReadChecks} {D : Disk} {MH : ModelHost} {RH : RoutingHost}.

Lemma step_inputs s s' : system_step s s' → inputs_step true (w_db (sy_world s)) (w_db (sy_world s')).
Proof. by intros [Ha|Hi]%system_step_moves; [apply accepts_moves|apply inputs_step_weaken]. Qed.
Lemma reach_inputs s s' : rtc system_step s s' → inputs_step true (w_db (sy_world s)) (w_db (sy_world s')).
Proof. induction 1; [reflexivity|]. etrans; [by apply step_inputs|done]. Qed.

(** C10: An accepted input is never lost. In every later state of the service
    its entry is under its key, for the same conversation, sender, entry,
    channel, attachments, model binding, profile and permission; it is pending,
    cancelled or adopted, and once no longer pending it never changes. *)
Theorem input_settled s s' chat key i : rtc system_step s s' → inputs_wf (w_db (sy_world s)) →
  meta (w_db (sy_world s)) !! inputKey chat key = Some (MInput i) →
  ∃ j, meta (w_db (sy_world s')) !! inputKey chat key = Some (MInput j) ∧ input_le i j ∧ inputs_wf (w_db (sy_world s')).
Proof.
  intros Hr Hw Hi. destruct (reach_inputs s s' Hr Hw) as (Hw' & Hle & _).
  destruct (Hle _ i (inputKey_input chat key) Hi) as (j & Hj & ?). by exists j.
Qed.

(** ** The bound on pending inputs *)

(** The pending inputs of a conversation, whatever is done with them. *)
Definition pending_of (chat : string) (d : db) : list PendingInput :=
  filter (λ i, in_conversation i = chat ∧ in_status i = "pending") (meta_inputs d "input/").
Lemma all_inputs : input_prefix "input/".
Proof. by intros k. Qed.
Lemma elem_of_pending chat d k : inputs_wf d →
  k ∈ map entry_at (pending_of chat d) ↔
  ∃ i, input_key k = true ∧ meta d !! k = Some (MInput i) ∧ in_conversation i = chat ∧ in_status i = "pending".
Proof.
  intros Hw. rewrite list_elem_of_fmap. split.
  - intros (i & -> & [[Hc Hp] Hi]%list_elem_of_filter). exists i. split; [apply inputKey_input|]. split; [|done].
    exact (meta_inputs_at d "input/" i Hw all_inputs Hi).
  - intros (i & Hk & Hi & Hc & Hp). exists i. split; [by apply Hw|]. apply list_elem_of_filter. split; [done|].
    apply elem_of_meta_inputs. by exists k.
Qed.
Lemma pending_unique chat d : inputs_wf d → NoDup (map entry_at (pending_of chat d)).
Proof. intros Hw. by apply NoDup_map_filter, meta_inputs_unique, all_inputs. Qed.
Lemma fewer_pending chat d d' : inputs_step false d d' → inputs_wf d → map entry_at (pending_of chat d') ⊆ map entry_at (pending_of chat d).
Proof.
  intros Hs Hw k. destruct (Hs Hw) as (Hw' & Hle & Hold). rewrite !elem_of_pending by done. intros (j & Hk & Hj & Hc & Hp).
  destruct (Hold eq_refl k j Hk Hj) as (i & Hi). exists i. destruct (Hle k i Hk Hi) as (j' & Hj' & Hij). rewrite Hj in Hj'. injection Hj' as <-.
  split_and!; try done; [by destruct Hij; congruence|]. destruct (decide (in_status i = "pending")) as [|Hn]; [done|].
  by rewrite <- (il_settled _ _ Hij Hn).
Qed.
Lemma length_pending chat d l : inputs_wf d → map entry_at (pending_of chat d) ⊆ l → (length (pending_of chat d) ≤ length l)%nat.
Proof.
  intros Hw Hs. rewrite <- (length_map entry_at (pending_of chat d)). apply submseteq_length, NoDup_submseteq; [by apply pending_unique|exact Hs].
Qed.

(** Accepting an input: an entry already there, or a new one. *)
Lemma accept_tx_ok q chat c ch refs input i w w' : (∀ s m, entry_at (input s m) = inputKey chat (ic_key c)) →
  accept_tx q chat c ch refs input w = (Ok i, w') →
  (∃ old, meta (w_db w) !! inputKey chat (ic_key c) = Some (MInput old) ∧
     repeated_input chat c (in_principal (input "" 0%Z)) refs old w = (Ok i, w')) ∨
  ∃ status message w1 w2 w3,
    meta (w_db w) !! inputKey chat (ic_key c) = None ∧ i = input status message ∧
    input_status q chat c ch w = (Ok status, w1) ∧ (length (pending_inputs chat (w_db w)) < 20)%nat ∧
    input_message chat (ic_prompt c) refs ch w1 = (Ok message, w2) ∧
    bindAttachments (qe_identity q) chat ("input:" +:+ ic_key c) refs w2 = (Ok tt, w3) ∧
    w_db w' = set_meta (<[inputKey chat (ic_key c) := MInput i]> (meta (w_db w3))) (w_db w3).
Proof.
  intros He. unfold accept_tx. rewrite bind_query. unfold id. destruct (meta (w_db w) !! inputKey chat (ic_key c)) as [v|] eqn:E.
  { destruct v; try done. intros Hr. left. by eexists. }
  intros Hm. right. apply bind_ok in Hm as (status & w1 & Hs & Hm). apply bind_ok in Hm as ([] & w1' & [Hl%Nat.ltb_lt <-]%guard_ok & Hm).
  apply bind_ok in Hm as (message & w2 & Hmsg & Hm). apply bind_ok in Hm as ([] & w3 & Hb & Hm).
  apply bind_ok in Hm as ([] & w4 & Hi & [<- <-]%ret_ok). exists status, message, w1, w2, w3. split_and!; try done.
  unfold saveInput, meta_upsert in Hi. apply write_ok in Hi as ->. simpl. by rewrite <- (He status message).
Qed.

(** What an entry is made of: [by_] sent it. *)
Definition sender (q : QueueEnv) (ch : option (ChannelRunOrigin * string)) : string :=
  match ch with Some c => if bool_decide (c.2 = "") then principal q else "channel:" +:+ c.2 | None => principal q end.
Lemma acceptInput_ok q chat chosen c ch i w w' : acceptInput q chat chosen c ch w = (Ok i, w') →
  ∃ refs input w0, w_db w0 = w_db w ∧ accept_tx q chat c ch refs input w0 = (Ok i, w') ∧
    one_of (ic_action c) ["steer"; "queue"] = true ∧
    ∀ s m, let j := input s m in in_key j = ic_key c ∧ in_conversation j = chat ∧ in_action j = ic_action c ∧ in_status j = s ∧ in_message j = m ∧
      in_target_run j = ic_run c ∧ in_principal j = sender q ch ∧ in_attachments j = refs ∧ in_remote j = qe_entry q ∧ in_channel j = fst <$> ch.
Proof.
  unfold acceptInput. intros E. apply bind_ok in E as ([] & w1 & [Hg <-]%guard_ok & E). rewrite !andb_true_iff in Hg. destruct Hg as [[[[Ha _] _] _] _].
  apply bind_ok in E as ([] & w1 & ->%(reads_ok _ _ _ _ (reads_own_conversation _ _)) & E). apply bind_ok in E as ([] & w1 & [_ <-]%guard_ok & E).
  apply bind_ok in E as (p & w1 & ->%(reads_ok _ _ _ _ (reads_input_permission _ _ _)) & E).
  apply bind_ok in E as ([] & w1 & E1 & E). assert (w1 = w) as ->.
  { destruct ch as [x|]; [|by apply ret_ok in E1 as [_ <-]]. apply bind_ok in E1 as (? & w2 & ->%(reads_ok _ _ _ _ (reads_bindChannel _ _ _)) & [_ <-]%ret_ok). done. }
  cbv zeta in E. apply bind_ok in E as ([] & w1 & [_ <-]%guard_ok & E). apply bind_ok in E as (b & w1 & [_ <-]%lift_ok & E).
  apply bind_ok in E as (refs & w1 & ->%(reads_ok _ _ _ _ (reads_resolveAttachments _ _ _)) & E).
  apply bind_ok in E as (created & w1 & Hn%nowText_ok & E). apply bind_ok in E as (hash & w2 & [_ <-]%lift_ok & E). rewrite transaction_ok in E.
  eexists refs, _, w1. split; [done|]. split; [exact E|]. split; [done|]. intros s m. cbv zeta. by split_and!.
Qed.
Lemma readonly_reads {A} (m : M A) : Reads m → ReadOnly m.
Proof. intros Hm w. by rewrite Hm. Qed.
Lemma acceptInput_atomic q chat chosen c ch : Atomic (acceptInput q chat chosen c ch).
Proof.
  assert (Hr : ∀ {A} (m : M A), Reads m → ReadOnly m) by exact @readonly_reads. unfold acceptInput.
  apply atomic_bind; [apply readonly_guard|intros _]. apply atomic_bind; [apply Hr, reads_own_conversation|intros _].
  apply atomic_bind; [apply readonly_guard|intros _]. apply atomic_bind; [apply Hr, reads_input_permission|intros p].
  apply atomic_bind; [destruct ch; [apply readonly_bind; [apply Hr, reads_bindChannel|done]|done]|intros _]. cbv zeta.
  apply atomic_bind; [apply readonly_guard|intros _]. apply atomic_bind; [done|intros b].
  apply atomic_bind; [apply Hr, reads_resolveAttachments|intros refs]. apply atomic_bind; [done|intros created].
  apply atomic_bind; [done|intros hash]. apply atomic_transaction.
Qed.
Lemma pending_prefix chat d : inputs_wf d → (length (pending_of chat d) <= length (pending_inputs chat d))%nat.
Proof.
  intros Hw. rewrite <- (length_map entry_at (pending_inputs chat d)). apply length_pending; [done|]. intros k (i & Hk & Hi & Hc & Hp)%elem_of_pending; [|done].
  apply list_elem_of_fmap. exists i. split; [by apply Hw|]. apply list_elem_of_filter. split; [done|]. apply elem_of_meta_inputs. exists k. split; [done|].
  rewrite (Hw k i Hk Hi). unfold entry_at. rewrite Hc. apply prefix_app.
Qed.
(** The entries before the new one is saved are those at the start. *)
Lemma accept_same q chat c ch refs s m w w1 w2 w3 : input_status q chat c ch w = (Ok s, w1) → input_message chat (ic_prompt c) refs ch w1 = (Ok m, w2) →
  bindAttachments (qe_identity q) chat ("input:" +:+ ic_key c) refs w2 = (Ok tt, w3) → entries_same (w_db w) (w_db w3).
Proof.
  intros E1 E2 E3. apply (reads_ok _ _ _ _ (reads_input_status _ _ _ _)) in E1 as ->.
  transitivity (w_db w2); [exact (along_from _ entries_same _ _ _ _ (steps_input_message _ _ _ _) _ E2)|exact (along_from _ entries_same _ _ _ _ (steps_bindAttachments _ _ _ _) _ E3)].
Qed.
Lemma saved_pending chat d d3 i : inputs_wf d → entries_same d d3 → meta d !! entry_at i = None →
  map entry_at (pending_of chat (set_meta (<[entry_at i := MInput i]> (meta d3)) d3)) ⊆
    (if bool_decide (in_conversation i = chat) then [entry_at i] else []) ++ map entry_at (pending_of chat d).
Proof.
  intros Hw Hs Hn k. set (d' := set_meta _ d3). assert (Hw' : inputs_wf d').
  { intros k' j Hk Hj. simpl in Hj. destruct (decide (k' = entry_at i)) as [->|Hne]; [rewrite lookup_insert_eq in Hj; by injection Hj as <-|].
    rewrite lookup_insert_ne, Hs in Hj by done. by apply Hw. }
  rewrite elem_of_app, !elem_of_pending by done. intros (j & Hk & Hj & Hc & Hp). simpl in Hj.
  destruct (decide (k = entry_at i)) as [->|Hne].
  - rewrite lookup_insert_eq in Hj. injection Hj as <-. left. rewrite bool_decide_eq_true_2 by done. by apply list_elem_of_singleton.
  - right. exists j. rewrite lookup_insert_ne, Hs in Hj by done. by split_and!.
Qed.
Lemma accept_pending chat w w' : accepts w w' → inputs_wf (w_db w) →
  (length (pending_of chat (w_db w)) <= 20)%nat → (length (pending_of chat (w_db w')) <= 20)%nat.
Proof.
  intros Ha Hw Hb. destruct (accepts_moves _ _ Ha Hw) as [Hw' _]. revert Hw'.
  destruct Ha as (q & chat' & chosen & c & ch & ->). destruct (acceptInput q chat' chosen c ch w) as [[i|e] w'] eqn:E; simpl; intros Hw'.
  2: { apply acceptInput_atomic in E. by rewrite E. }
  apply acceptInput_ok in E as (refs & input & w0 & E0 & E & _ & Hin). rewrite <- E0 in *. clear w E0.
  assert (He : ∀ s m, entry_at (input s m) = inputKey chat' (ic_key c)).
  { intros s m. destruct (Hin s m) as (Ek & Ec & _). unfold entry_at. by rewrite Ek, Ec. }
  apply (accept_tx_ok _ _ _ _ _ _ _ _ _ He) in E as [(old & _ & E)|(s & m & w1 & w2 & w3 & Hn & -> & E1 & Hlt & E2 & E3 & E4)].
  { pose proof (reads_ok _ _ _ _ (reads_repeated_input _ _ _ _ _) E) as ->. done. }
  pose proof (accept_same _ _ _ _ _ _ _ _ _ _ _ E1 E2 E3) as Hs. rewrite <- (He s m) in Hn, E4.
  pose proof (saved_pending chat (w_db w0) (w_db w3) (input s m) Hw Hs Hn) as Hsub. rewrite <- E4 in Hsub.
  pose proof (length_pending chat _ _ Hw' Hsub) as Hlen. rewrite length_app, length_map in Hlen.
  destruct (Hin s m) as (_ & Ec & _). rewrite Ec in Hlen. clear Ec. case_bool_decide as Hcc; simpl in Hlen; [|lia]. subst chat'.
  pose proof (pending_prefix chat (w_db w0) Hw). lia.
Qed.

(** C12: A conversation never has more than twenty pending inputs, in any
    reachable state of the service. *)
Theorem pending_bounded s s' chat : rtc system_step s s' → inputs_wf (w_db (sy_world s)) →
  (length (pending_of chat (w_db (sy_world s))) <= 20)%nat → (length (pending_of chat (w_db (sy_world s'))) <= 20)%nat.
Proof.
  induction 1 as [|x y z Hs _ IH]; [done|]. intros Hw Hb. destruct (step_inputs _ _ Hs Hw) as [Hwy _]. apply IH; [done|].
  apply system_step_moves in Hs as [Ha|Hi]; [by eapply accept_pending|].
  etrans; [|exact Hb]. rewrite <- (length_map entry_at (pending_of chat (w_db (sy_world x)))).
  destruct (Hi Hw) as [Hwy' _]. apply length_pending; [done|]. by apply fewer_pending.
Qed.

(** ** What accepting an input writes *)

Lemma bind_refs_meta i sp c r refs : MetaOnly (bind_refs i sp c r refs).
Proof. induction refs as [|ref refs IH]; simpl; [apply meta_readonly; done|].
  apply meta_bind; [apply meta_readonly; done|intros d]. destruct (loadAttachment d _); [|apply meta_readonly; done].
  apply meta_bind; [apply meta_readonly, readonly_guard|intros _]. apply meta_bind; [apply meta_upsert_only|intros _; apply IH].
Qed.
Lemma bindAttachments_messages i c r refs w u w' : bindAttachments i c r refs w = (Ok u, w') → messages (w_db w') = messages (w_db w).
Proof.
  unfold bindAttachments. intros E. apply bind_ok in E as (cv & w1 & [_ <-]%query_row_ok & E).
  destruct (bind_refs_meta i (cv_space cv) c r refs w) as [m Hm]. rewrite E in Hm. simpl in Hm. by rewrite Hm.
Qed.
(** The message of an input is kept from the model until it is sent. *)
Record input_text (chat prompt : string) (refs : list AttachmentRef) (id : Z) (m : Message) : Prop := {
  it_id : msg_id m = id;
  it_conversation : msg_conversation m = chat;
  it_run : msg_run m = None;
  it_deferred : mm_deferred (msg_body m) = true;
  it_content : mm_content (msg_body m) = prompt;
  it_attachments : mm_attachments (msg_body m) = refs;
}.
Lemma deferred_channel_ok prompt refs m b : deferred_channel prompt refs m = Ok b →
  mm_deferred b = true ∧ mm_content b = prompt ∧ mm_attachments b = refs.
Proof.
  unfold deferred_channel. case_bool_decide as E; [by intros [= <-]|]. destruct (mm_channel m) as [x|]; [|done].
  simpl. destruct (_ && _); [|done]. by intros [= <-].
Qed.
Lemma input_message_ok chat prompt refs ch n w w' : input_message chat prompt refs ch w = (Ok n, w') →
  ∃ m, m ∈ messages (w_db w') ∧ input_text chat prompt refs n m.
Proof.
  destruct ch as [x|]; simpl; intros E.
  - apply bind_ok in E as (m & w1 & [Hm <-]%query_row_ok & E). apply List.find_some in Hm as [Hin%list_elem_of_In Hp].
    rewrite !andb_true_iff, !bool_decide_eq_true in Hp. destruct Hp as [[Hi Hc] Hr].
    apply bind_ok in E as (b & w1 & [Hb <-]%lift_ok & E). apply deferred_channel_ok in Hb as (H1 & H2 & H3).
    unfold update_messages in E. apply bind_ok in E as (k & w1 & Hu & [<- <-]%ret_ok). rewrite bind_query in Hu.
    apply bind_ok in Hu as ([] & w2 & ->%write_ok & [_ <-]%ret_ok). exists (set_body b m). split; [|by split].
    simpl. apply elem_of_update_rows. exists m. split; [done|]. by rewrite Hi, Hc, !bool_decide_eq_true_2.
  - unfold insert_message_row in E. apply bind_ok in E as (c & w2 & [_ <-]%query_row_ok & E). rewrite bind_query in E.
    apply bind_ok in E as ([] & w2 & ->%write_ok & [<- <-]%ret_ok). eexists. split; [simpl; apply elem_of_app; right; by apply list_elem_of_singleton|by split].
Qed.
Lemma input_status_ok q chat c ch s w w' : input_status q chat c ch w = (Ok s, w') →
  (s = "pending" ∨ s = "target_ended" ∧ ic_action c = "steer") ∧
  (ic_action c = "steer" → ∃ r, r ∈ runs (w_db w) ∧ run_id r = ic_run c ∧ run_conversation r = chat ∧ (s = "pending" ↔ open_target (run_status r) = true) ∧
     same_entry (qe_entry q) (run_id r) (w_db w) = true ∧
     match ch with Some x => same_requester x.2 (Some (co_target x.1)) r = true | None => True end).
Proof.
  unfold input_status. case_bool_decide as Ha; [|intros [<- _]%ret_ok; split; [by left|done]]. intros E.
  apply bind_ok in E as (r & w1 & [Hr <-]%query_row_ok & E). apply List.find_some in Hr as [Hin%list_elem_of_In Hp].
  rewrite andb_true_iff, !bool_decide_eq_true in Hp. destruct Hp as [Hi Hc]. apply bind_ok in E as ([] & w1 & [Hq <-]%guard_ok & E).
  rewrite bind_query in E. apply bind_ok in E as ([] & w1 & [He <-]%guard_ok & [<- _]%ret_ok). split.
  - destruct (open_target _); [by left|by right].
  - intros _. exists r. split_and!; try done; [by destruct (open_target _)|by destruct ch].
Qed.

(** Accepting an input either answers the input already accepted under its
    key, when sender, kind, target, words and attachments are the same, and
    changes nothing, or, when fewer than twenty inputs of the conversation are
    pending, files a new entry with the sender and entry of the request and
    keeps its words as a message no model reads yet. Steering is accepted only
    for a run of the conversation that the sender's chat started, and is kept
    aside when that run has ended. A refused input changes nothing. *)
Theorem accept_effect q chat chosen c ch r w w' : acceptInput q chat chosen c ch w = (r, w') →
  match r with
  | Err _ => w_db w' = w_db w
  | Ok i =>
      let key := inputKey chat (ic_key c) in
      in_action i = ic_action c ∧ in_target_run i = ic_run c ∧ in_principal i = sender q ch ∧ meta (w_db w') !! key = Some (MInput i) ∧
      (meta (w_db w) !! key = Some (MInput i) ∧ w_db w' = w_db w ∨
       meta (w_db w) !! key = None ∧ (length (pending_inputs chat (w_db w)) < 20)%nat ∧
       in_key i = ic_key c ∧ in_conversation i = chat ∧ in_remote i = qe_entry q ∧
       (in_status i = "pending" ∨ in_status i = "target_ended" ∧ ic_action c = "steer") ∧
       (∃ m, m ∈ messages (w_db w') ∧ input_text chat (ic_prompt c) (in_attachments i) (in_message i) m) ∧
       (ic_action c = "steer" → ∃ t, t ∈ runs (w_db w) ∧ run_id t = ic_run c ∧ run_conversation t = chat ∧
          (in_status i = "pending" ↔ open_target (run_status t) = true) ∧ same_entry (qe_entry q) (run_id t) (w_db w) = true ∧
          match ch with Some x => same_requester x.2 (Some (co_target x.1)) t = true | None => True end))
  end.
Proof.
  intros E. destruct r as [i|e]; [|by apply acceptInput_atomic in E].
  apply acceptInput_ok in E as (refs & input & w0 & E0 & E & _ & Hin). rewrite <- E0. clear w E0. cbv zeta.
  assert (He : ∀ s m, entry_at (input s m) = inputKey chat (ic_key c)).
  { intros s m. destruct (Hin s m) as (Ek & Ec & _). unfold entry_at. by rewrite Ek, Ec. }
  apply (accept_tx_ok _ _ _ _ _ _ _ _ _ He) in E as [(old & Hold & E)|(s & m & w1 & w2 & w3 & Hn & -> & E1 & Hlt & E2 & E3 & E4)].
  - pose proof (reads_ok _ _ _ _ (reads_repeated_input _ _ _ _ _) E) as ->. unfold repeated_input in E.
    apply bind_ok in E as (x & w1 & _ & E). apply bind_ok in E as ([] & w2 & [Hg _]%guard_ok & [-> _]%ret_ok).
    rewrite !andb_true_iff, !bool_decide_eq_true in Hg. destruct Hg as [[[[Hp Ha] Ht] _] _].
    destruct (Hin "" 0%Z) as (_ & _ & _ & _ & _ & _ & Hs & _). rewrite Hs in Hp. split_and!; try done. by left.
  - destruct (Hin s m) as (Ek & Ec & Ea & Es & Em & Et & Ep & Er & Ee & _). rewrite Ek, Ec, Ea, Es, Em, Et, Ep, Er, Ee.
    pose proof E1 as ->%(reads_ok _ _ _ _ (reads_input_status _ _ _ _)). apply input_status_ok in E1 as [Hst Hrun].
    split_and!; try done; [rewrite E4; apply lookup_insert_eq|]. right. split_and!; try done.
    rewrite E4. simpl. rewrite (bindAttachments_messages _ _ _ _ _ _ _ E3). by apply input_message_ok in E2.
Qed.

(** ** What adopting steering does *)

(** What was said in a run stays in the conversation. *)
Definition said_kept (d d' : db) : Prop := ∀ m, m ∈ messages d → msg_run m ≠ None → m ∈ messages d'.
#[local] Instance said_kept_pre : PreOrder said_kept.
Proof. split; [by intros d m|]. intros a b c H1 H2 m Hm Hr. by apply H2, Hr; apply H1. Qed.

Definition not_needed : Attempt → Attempt := set_attempt AFinished (Some (RTool superseded)).
Lemma supersede_ok run l w w' : supersede run l w = (Ok tt, w') →
  attempts (w_db w') = update_rows (λ x, existsb (λ a, pending_tool a && att_by (att_id a) (is_status APending) x) l) not_needed (attempts (w_db w)) ∧
  runs (w_db w') = runs (w_db w) ∧ meta (w_db w') = meta (w_db w) ∧ said_kept (w_db w) (w_db w').
Proof.
  revert w. induction l as [|a l IH]; intros w E; cbn [supersede] in E.
  { apply ret_ok in E as [_ <-]. split_and!; try done. symmetry. apply map_id. }
  destruct (pending_tool a) eqn:Hp; cbn [negb] in E.
  2: { apply IH in E as (Ha & Hr). split; [|done]. rewrite Ha. apply update_rows_ext. intros x _. cbn [existsb]. by rewrite Hp. }
  cbv zeta in E. apply bind_ok in E as (n & w1 & [_ ->]%update_attempts_ok & E).
  apply bind_ok in E as ([] & w2 & ((x & Hx & _) & Hr & Ha & Hm)%insertMessage_ok & E). apply IH in E as (Ha' & Hr' & Hm' & Hs'). simpl in *.
  split_and!; [|congruence|congruence|].
  - rewrite Ha', Ha, update_rows_fuse by done. apply update_rows_ext. intros y _. by rewrite Hp.
  - etrans; [|exact Hs']. intros m Hin _. rewrite Hx. apply elem_of_app. by left.
Qed.
Lemma superseded_calls run r w w' : db_wf (w_db w) → supersede run (listAttempts r (w_db w)) w = (Ok tt, w') →
  attempts (w_db w') = update_rows (λ a, bool_decide (att_run a = r) && pending_tool a) not_needed (attempts (w_db w)).
Proof.
  intros Hwf (-> & _)%supersede_ok. apply update_rows_ext. intros x Hx. rewrite <- (listed_pending (w_db w) r x Hwf Hx).
  apply eq_true_iff_eq. rewrite !existsb_exists. unfold att_by. split; intros (a & Ha & Hp); exists a; (split; [done|]).
  - by rewrite andb_assoc, andb_true_iff in Hp; destruct Hp as [Hp _].
  - rewrite andb_true_iff, bool_decide_eq_true in Hp. destruct Hp as [Hp Hi]. rewrite Hp. apply list_elem_of_In, list_elem_of_filter in Ha as [_ Ha].
    assert (x = a) as -> by (by eapply attempt_id_unique). unfold pending_tool in Hp. apply andb_true_iff in Hp as [_ Hp%bool_decide_eq_true].
    rewrite bool_decide_eq_true_2 by done. unfold is_status. by rewrite bool_decide_eq_true_2.
Qed.

(** An entry moved into a run, and its message there. *)
Record adopted_into (run : string) (i j : PendingInput) : Prop := {
  ai_le : input_le i j;
  ai_at : entry_at j = entry_at i;
  ai_status : in_status j = "adopted";
  ai_run : in_run j = run;
  ai_after : in_conversation j = in_conversation i;
}.
Definition in_run_text (run : string) (j : PendingInput) (d : db) : Prop :=
  ∃ m, m ∈ messages d ∧ msg_id m = in_message j ∧ msg_conversation m = in_conversation j ∧ msg_run m = Some run ∧ mm_deferred (msg_body m) = false.
Definition last_seq (chat : string) (d : db) : Z := match find_conversation chat d with Some c => cv_last_message_seq c | None => 0%Z end.
Lemma last_seq_update d chat c n c' : find_conversation chat d = Some c →
  find_conversation c' (set_conversations (update_rows (λ c, bool_decide (cv_id c = chat)) (conv_message_seq n) (conversations d)) d) =
    if bool_decide (c' = chat) then Some (conv_message_seq n c) else find_conversation c' d.
Proof.
  intros Hf. unfold find_conversation in *. simpl. rewrite find_update_rows by done. destruct (decide (c' = chat)) as [->|Hn].
  - rewrite bool_decide_eq_true_2, Hf by done. apply find_elem in Hf as [_ Hf]. simpl. by rewrite Hf.
  - rewrite bool_decide_eq_false_2 by done. destruct (List.find (λ c, bool_decide (cv_id c = c')) (conversations d)) as [x|] eqn:E; [|done]. apply find_elem in E as [_ E%bool_decide_eq_true].
    simpl. by rewrite bool_decide_eq_false_2 by congruence.
Qed.
Lemma moveInputMessage_ok i run j w w' : in_status i = "pending" → moveInputMessage i run w = (Ok j, w') →
  adopted_into run i j ∧ meta (w_db w') = <[entry_at i := MInput j]> (meta (w_db w)) ∧
  attempts (w_db w') = attempts (w_db w) ∧ runs (w_db w') = runs (w_db w) ∧ said_kept (w_db w) (w_db w') ∧ in_run_text run j (w_db w') ∧
  (last_seq (in_conversation i) (w_db w) < in_message j)%Z ∧ in_message j = last_seq (in_conversation i) (w_db w') ∧
  ∀ c, (last_seq c (w_db w) <= last_seq c (w_db w'))%Z.
Proof.
  intros Hp E. unfold moveInputMessage in E. apply bind_ok in E as (next & w1 & Hm & E). apply bind_ok in E as (now & w2 & Hn & E).
  apply bind_ok in E as ([] & w3 & Hsv & [<- <-]%ret_ok). injection Hn as _ <-. unfold saveInput, meta_upsert in Hsv. apply write_ok in Hsv as ->. simpl.
  unfold move_message_row in Hm. apply bind_ok in Hm as (c & w2 & [Hc <-]%query_row_ok & Hm). rewrite bind_query in Hm.
  apply bind_ok in Hm as ([] & w2 & [Hex <-]%guard_ok & Hm). apply bind_ok in Hm as ([] & w2 & ->%write_ok & [<- <-]%ret_ok). simpl. unfold id in *.
  assert (Hls : last_seq (in_conversation i) (w_db w) = cv_last_message_seq c) by (unfold last_seq; by rewrite Hc).
  assert (Hl : ∀ c', last_seq c' (set_conversations (update_rows (λ c, bool_decide (cv_id c = in_conversation i)) (conv_message_seq (cv_last_message_seq c + 1)) (conversations (w_db w))) (w_db w)) =
            if bool_decide (c' = in_conversation i) then (cv_last_message_seq c + 1)%Z else last_seq c' (w_db w)).
  { intros c'. unfold last_seq. rewrite (last_seq_update _ _ _ _ _ Hc). by case_bool_decide. }
  split_and!; try done.
  - intros m Hin Hr. simpl. apply elem_of_update_rows. exists m. split; [done|]. destruct (msg_run m); [|done]. by rewrite andb_false_r.
  - apply existsb_exists in Hex as (m & Hin%list_elem_of_In & Ht). eexists. split; [simpl; apply elem_of_update_rows; exists m; split; [exact Hin|reflexivity]|].
    rewrite Ht. rewrite !andb_true_iff, !bool_decide_eq_true in Ht. destruct Ht as [[_ Hcv] _]. by destruct (msg_body m).
  - rewrite Hls. lia.
  - specialize (Hl (in_conversation i)). rewrite bool_decide_eq_true_2 in Hl by done. symmetry. exact Hl.
  - intros c'. transitivity (last_seq c' (set_conversations (update_rows (λ c, bool_decide (cv_id c = in_conversation i)) (conv_message_seq (cv_last_message_seq c + 1)) (conversations (w_db w))) (w_db w))); [|reflexivity].
    rewrite Hl. case_bool_decide as Ec; [subst; rewrite Hls; lia|lia].
Qed.

(** In the order given, and after what the conversation already holds. *)
Fixpoint in_order (d : db) (js : list PendingInput) : Prop :=
  match js with
  | [] => True
  | j :: js => (last_seq (in_conversation j) d < in_message j)%Z ∧
      Forall (λ k, in_conversation k = in_conversation j → (in_message j < in_message k)%Z) js ∧ in_order d js
  end.
Lemma in_order_mono d d' js : (∀ c, (last_seq c d <= last_seq c d')%Z) → in_order d' js → in_order d js.
Proof. intros Hd. induction js as [|j js IH]; [done|]. intros (H1 & H2 & H3). specialize (Hd (in_conversation j)). split; [lia|]. split; [done|by apply IH]. Qed.
Lemma in_order_after d js j : in_order d js → in_message j = last_seq (in_conversation j) d →
  Forall (λ k, in_conversation k = in_conversation j → (in_message j < in_message k)%Z) js.
Proof.
  intros Ho Hj. induction js as [|k js IH]; [done|]. destruct Ho as (H1 & _ & H3). constructor; [|by apply IH].
  intros Ec. rewrite Hj, <- Ec. exact H1.
Qed.
Lemma move_inputs_ok run l w w' : NoDup (map entry_at l) → Forall (λ i, in_status i = "pending") l → move_inputs run l w = (Ok tt, w') →
  attempts (w_db w') = attempts (w_db w) ∧ runs (w_db w') = runs (w_db w) ∧ said_kept (w_db w) (w_db w') ∧
  (∀ k, k ∉ map entry_at l → meta (w_db w') !! k = meta (w_db w) !! k) ∧
  ∃ js, Forall2 (adopted_into run) l js ∧ in_order (w_db w) js ∧
    Forall (λ j, meta (w_db w') !! entry_at j = Some (MInput j) ∧ in_run_text run j (w_db w')) js.
Proof.
  revert w. induction l as [|i l IH]; intros w Hn Hp E; simpl in *.
  { apply ret_ok in E as [_ <-]. split_and!; try done. by exists []. }
  apply NoDup_cons in Hn as [Hi Hn]. apply Forall_cons in Hp as [Hp Hl]. apply bind_ok in E as (j & w1 & Hm & E).
  apply moveInputMessage_ok in Hm as (Hj & Em & Ea & Er & Hs & Hx & Hb & He & Hls); [|done].
  destruct (IH w1 Hn Hl E) as (Ea' & Er' & Hs' & Em' & js & Hjs & Ho & Hf). clear IH.
  split_and!; [congruence|congruence|by etrans| |].
  - intros k [Hk1 Hk2]%not_elem_of_cons. rewrite Em', Em by done. by rewrite lookup_insert_ne.
  - exists (j :: js). split; [by constructor|]. destruct Hj as [Hle Hat _ _ Hc]. split.
    + simpl. rewrite Hc. split; [done|]. split; [|by eapply in_order_mono]. rewrite <- Hc. apply (in_order_after (w_db w1)); [done|by rewrite Hc].
    + constructor; [|done]. rewrite Hat. rewrite Em', Em by done. split; [apply lookup_insert_eq|].
      destruct Hx as (m & Hin & ? & ? & Hr & ?). exists m. split_and!; try done. apply Hs'; [done|by rewrite Hr].
Qed.

(** Messages of a conversation are only added at its end. *)
Definition seqs_le (d d' : db) : Prop := ∀ c, (last_seq c d <= last_seq c d')%Z.
Lemma seqs_same d d' : conversations d' = conversations d → seqs_le d d'.
Proof. intros E c. unfold last_seq, find_conversation. by rewrite E. Qed.
Lemma seqs_update d p f : (∀ x, cv_id (f x) = cv_id x ∧ cv_last_message_seq (f x) = cv_last_message_seq x) →
  seqs_le d (set_conversations (update_rows p f (conversations d)) d).
Proof.
  intros Hi c. unfold last_seq, find_conversation. simpl. rewrite find_update_rows by (intros x; by destruct (Hi x) as [-> _]).
  destruct (List.find _ (conversations d)) as [x|]; [|done]. simpl. destruct (p x); [|done]. by destruct (Hi x) as [_ ->].
Qed.
Lemma seqs_next d chat c : find_conversation chat d = Some c →
  seqs_le d (set_conversations (update_rows (λ c, bool_decide (cv_id c = chat)) (conv_message_seq (cv_last_message_seq c + 1)) (conversations d)) d).
Proof.
  intros Hc c'. unfold last_seq at 2. rewrite (last_seq_update _ _ _ _ _ Hc). case_bool_decide as E; [|done].
  subst. unfold last_seq. rewrite Hc. simpl. lia.
Qed.
#[export] Instance seqs_le_respects : Respects seqs_le.
Proof.
  split; try done; try (intros; by apply seqs_same).
  - split; [intros d; by apply seqs_same|]. intros a b c H1 H2 x. specialize (H1 x). specialize (H2 x). lia.
  - intros d p now. by apply seqs_update.
  - intros r w. unfold insert_run. unfold query_row, mbind, M_bind. destruct (find_conversation _ _); [|by apply seqs_same]. simpl.
    destruct (runs_constraints _); [|by apply seqs_same]. by apply seqs_update.
  - intros a w _. unfold insert_attempt. rewrite bind_query. unfold id. destruct (find_run _ _); [|by apply seqs_same]. simpl.
    by destruct (negb _); apply seqs_same.
  - intros c r b w. unfold insert_message_row, query_row, mbind, M_bind. destruct (find_conversation _ _) eqn:E; [|by apply seqs_same]. by apply seqs_next.
  - intros c o r f w. unfold move_message_row, query_row, mbind, M_bind. destruct (find_conversation _ _) eqn:E; [|by apply seqs_same]. simpl.
    destruct (existsb _ _); [|by apply seqs_same]. by apply seqs_next.
Qed.

(** What was pending has been adopted. *)
Lemma steering_empty chat run d d' js : inputs_wf d → inputs_wf d' → Forall2 (adopted_into run) (steering chat run d) js →
  Forall (λ j, meta d' !! entry_at j = Some (MInput j)) js →
  (∀ k, k ∉ map entry_at (steering chat run d) → meta d' !! k = meta d !! k) → steering chat run d' = [].
Proof.
  intros Hw Hw' Hjs Hf Hm. apply elem_of_nil_inv. intros i Hi.
  assert (Hin : ∀ d, i ∈ steering chat run d ↔ (in_target_run i = run ∧ in_status i = "pending" ∧ in_action i = "steer") ∧ i ∈ meta_inputs d (inputPrefix chat)).
  { intros d0. unfold steering. by rewrite merge_sort_Permutation, list_elem_of_filter. }
  pose proof Hi as Hi'. apply Hin in Hi' as [(Ht & Hp & Ha) Hmi]. pose proof (meta_inputs_at _ _ _ Hw' (inputPrefix_input chat) Hmi) as Hl.
  destruct (decide (entry_at i ∈ map entry_at (steering chat run d))) as [(x & Ex & Hx)%list_elem_of_fmap|Hno].
  - apply list_elem_of_lookup in Hx as [n Hx]. destruct (Forall2_lookup_l _ _ _ _ _ Hjs Hx) as (j & Hj & [_ Hat Hst _ _]).
    rewrite Forall_lookup in Hf. specialize (Hf n j Hj). simpl in Hf. rewrite Hat, <- Ex, Hl in Hf. injection Hf as <-. by rewrite Hp in Hst.
  - apply Hno, list_elem_of_fmap_2, Hin. split; [done|]. apply elem_of_meta_inputs in Hmi as (k & Hk & Hpk).
    apply elem_of_meta_inputs. exists k. split; [|done]. rewrite <- Hk. symmetry. apply Hm.
    by rewrite (Hw' k i (inputPrefix_input chat k Hpk) Hk).
Qed.

(** C11: Adopting steering needs every call of the run without an outcome to be
    resolved or about to be retried. Without pending steering it changes
    nothing. Otherwise every tool call of the run that waited is closed as not
    run, and no other attempt changes; each pending steering input is adopted
    into the run, its words placed, in the order of receipt, after everything
    the conversation held; no steering is left pending, and the run is running.
    A refused adoption changes nothing. *)
Theorem adopt_effect run retry r w w' : db_wf (w_db w) → inputs_wf (w_db w) → adoptSteeringForRetry run retry w = (r, w') →
  let l := steering (run_conversation run) (run_id run) (w_db w) in
  match r with
  | Err _ => w_db w' = w_db w
  | Ok b =>
      unresolved (run_id run) retry (w_db w) = false ∧
      if b then
        attempts (w_db w') = update_rows (λ a, bool_decide (att_run a = run_id run) && pending_tool a) not_needed (attempts (w_db w)) ∧
        (∃ js, Forall2 (adopted_into (run_id run)) l js ∧ in_order (w_db w) js ∧
           Forall (λ j, meta (w_db w') !! entry_at j = Some (MInput j) ∧ in_run_text (run_id run) j (w_db w')) js) ∧
        steering (run_conversation run) (run_id run) (w_db w') = [] ∧
        ∀ x, find_run (run_id run) (w_db w) = Some x → ∃ now, find_run (run_id run) (w_db w') = Some (set_status Running "" now x)
      else l = [] ∧ w_db w' = w_db w
  end.
Proof.
  intros Hwf Hw E l. destruct r as [b|e]; [|by apply transaction_err in E].
  pose proof (moves_adopt false run retry w Hw I Hw) as [Hw' _]. rewrite E in Hw'. simpl in Hw'.
  unfold adoptSteeringForRetry in E. rewrite transaction_ok, bind_query in E. unfold id in E.
  apply bind_ok in E as ([] & w0 & [Hu%negb_true_iff <-]%guard_ok & E). split; [done|]. cbv zeta in E. fold l in E.
  case_bool_decide as Hl; [by apply ret_ok in E as [<- <-]|].
  apply bind_ok in E as ([] & w1 & Hs & E). apply bind_ok in E as ([] & w2 & Hm & E).
  apply bind_ok in E as (n & w3 & (_ & [now Hru] & Ha3 & Hm3 & Hx3)%update_status_ok & [<- <-]%ret_ok).
  destruct (steering_spec (run_conversation run) (run_id run) (w_db w) Hw) as [Hn Hf]. fold l in Hn, Hf.
  pose proof (superseded_calls _ _ _ _ Hwf Hs) as Ha1. pose proof (steps_supersede run (listAttempts (run_id run) (w_db w)) seqs_le _ w) as Hq.
  rewrite Hs in Hq. simpl in Hq. apply supersede_ok in Hs as (_ & Hr1 & Hm1 & _).
  apply move_inputs_ok in Hm as (Ha2 & Hr2 & _ & Hk2 & js & Hjs & Ho & Hf2); [|done|by eapply Forall_impl; [exact Hf|intros i []]].
  split_and!.
  - congruence.
  - exists js. split; [done|]. split; [by eapply in_order_mono|]. eapply Forall_impl; [exact Hf2|]. intros j [H1 (m & H2 & H3)].
    rewrite Hx3. split; [done|]. exists m. by rewrite Hm3.
  - eapply (steering_empty _ _ (w_db w)); [done..|eapply Forall_impl; [exact Hf2|intros j [H1 _]; by rewrite Hx3]|].
    intros k Hk. rewrite Hx3, Hk2, Hm1 by done. done.
  - intros x Hx. exists now. unfold find_run in *. rewrite Hru, Hr2, Hr1. by apply find_update_by_id.
Qed.
End runs.

(** ** Witnesses *)
Module QueueDemo.
Export RoutingDemo.
#[export] Existing Instances RoutingDemo.host RoutingDemo.models RoutingDemo.words Demo.checks FilePolicyDemo.disk.
Definition settings : Config :=
  let c := ProfileDemo.config in
  Profile.mkConfig "/w" (cf_tools c) (cf_commands c) (cf_execution c) (cf_generation c) (cf_computer_files c) (cf_computer_roots c) (cf_http c).
Definition env : Env := mkEnv settings "/home/u/data" true PermissionWorkspace false ∅.
Definition service : QueueEnv :=
  mkQueueEnv env RoutingDemo.config keys 1000 "{}" (λ _, "{}") (mkAttachmentPolicy 4 1000 1000) (λ _, None) None "local".
(** A run with a model call answered by one tool call, which waits. *)
Definition begun : world := start first.
Definition run : Run := run_of begun.
Definition asked := startGuardedModel run Demo.request 5 None begun.
Definition model_attempt : Attempt := match asked.1 with Ok a => a | Err _ => mkAttempt "" "" KModel "" APending (QModel Demo.request) None 0 end.
Definition waiting : world := (saveGuardedModel run model_attempt (mkModelResponse "" [Demo.call] None) None 1 asked.2).2.
(** Steering for it, a queued input, and the adoption of the steering. *)
Definition steer : InputCommand := mkCommand "steer" (run_id run) "s1" "look elsewhere" [].
Definition queue : InputCommand := mkCommand "queue" "" "s2" "and then this" [].
Definition accepted := acceptInput service "c" "strong" steer None waiting.
Definition entry : PendingInput := match accepted.1 with Ok i => i | Err _ => mkInput "" "" "" "" 0 "" "" "" "" "" [] "" None None (mkBinding "" "" light "") "" "" "" end.
Definition both := acceptInput service "c" "strong" queue None accepted.2.
Definition adopted := adoptSteering run both.2.
Definition cancelled := CancelInput service "c" "s1" adopted.2.
Definition at_ (w : world) : system := mkSystem (mkTelegram "" ∅ ∅) w.
Lemma reach_waiting : rtc system_step (at_ Demo.empty) (at_ waiting).
Proof.
  eapply rtc_l; [apply (sy_store (at_ Demo.empty) begun), os_run, (os_createRun Demo.empty "local" "" "c" "k1" "please help" (mkRunConfig "" "" [] None first None None "/w" 16) false None)|].
  eapply rtc_l; [apply (sy_store (at_ begun) asked.2), os_run, (os_startModel begun run Demo.request 5 None)|].
  apply rtc_once. apply (sy_store (at_ asked.2) waiting), os_run, (os_saveModel asked.2 run model_attempt (mkModelResponse "" [Demo.call] None) None 1).
Qed.
Lemma reach_accepted : rtc system_step (at_ waiting) (at_ accepted.2).
Proof. exact (rtc_once _ _ (sy_input (at_ waiting) accepted.2 (qo_accept waiting service "c" "strong" steer None))). Qed.
Lemma reach_both : rtc system_step (at_ accepted.2) (at_ both.2).
Proof. exact (rtc_once _ _ (sy_input (at_ accepted.2) both.2 (qo_accept accepted.2 service "c" "strong" queue None))). Qed.
Lemma reach_cancelled : rtc system_step (at_ both.2) (at_ cancelled.2).
Proof.
  exact (rtc_l _ _ _ _ (sy_input (at_ both.2) adopted.2 (qo_adopt both.2 run ""))
    (rtc_once _ _ (sy_input (at_ adopted.2) cancelled.2 (qo_cancel adopted.2 service "c" "s1")))).
Qed.
Lemma reach_begin : rtc system_step (at_ Demo.empty) (at_ accepted.2).
Proof. etrans; [apply reach_waiting|apply reach_accepted]. Qed.
Lemma empty_inputs : inputs_wf (w_db Demo.empty).
Proof. intros k i _ Hk. cbn in Hk. by rewrite lookup_empty in Hk. Qed.
Lemma reached_inputs w : rtc system_step (at_ Demo.empty) (at_ w) → inputs_wf (w_db w).
Proof. intros Hr. by apply (reach_inputs _ _ Hr), empty_inputs. Qed.
Lemma accepted_entry : meta (w_db accepted.2) !! inputKey "c" "s1" = Some (MInput entry).
Proof. vm_compute. reflexivity. Qed.
End QueueDemo.
Import QueueDemo.

(** Cancelling the input after it was adopted changes nothing. *)
Lemma input_settled_witness :
  option_map (λ v, match v with MInput i => in_status i | _ => "" end) (meta (w_db cancelled.2) !! inputKey "c" "s1") = Some "adopted" ∧
  ∃ j, meta (w_db cancelled.2) !! inputKey "c" "s1" = Some (MInput j) ∧ input_le entry j.
Proof.
  split; [vm_compute; reflexivity|].
  destruct (input_settled (at_ accepted.2) (at_ cancelled.2) "c" "s1" entry) as (j & Hj & Hle & _).
  - etrans; [apply reach_both|apply reach_cancelled].
  - apply reached_inputs, reach_begin.
  - exact accepted_entry.
  - exists j. split; [exact Hj|exact Hle].
Defined.

Lemma pending_bounded_witness : length (pending_of "c" (w_db both.2)) = 2%nat ∧ (length (pending_of "c" (w_db cancelled.2)) <= 20)%nat.
Proof.
  split; [vm_compute; reflexivity|]. apply (pending_bounded (at_ Demo.empty) (at_ cancelled.2)).
  - etrans; [apply reach_begin|]. etrans; [apply reach_both|apply reach_cancelled].
  - exact empty_inputs.
  - vm_compute. lia.
Defined.

Lemma accept_effect_witness :
  accepted.1 = Ok entry ∧ in_status entry = "pending" ∧ meta (w_db accepted.2) !! inputKey "c" "s1" = Some (MInput entry) ∧
  w_db (acceptInput service "c" "strong" (mkCommand "steer" (run_id run) "s1" "other words" []) None accepted.2).2 = w_db accepted.2.
Proof.
  assert (E : acceptInput service "c" "strong" steer None waiting = (Ok entry, accepted.2)) by (vm_compute; reflexivity).
  split; [vm_compute; reflexivity|]. split; [vm_compute; reflexivity|]. split.
  - pose proof (accept_effect service "c" "strong" steer None _ waiting _ E) as Hx. exact (proj1 (proj2 (proj2 (proj2 Hx)))).
  - apply (accept_effect service "c" "strong" (mkCommand "steer" (run_id run) "s1" "other words" []) None (Err ErrRequestKey)). vm_compute. reflexivity.
Defined.

Lemma adopt_effect_witness :
  map (λ a, (att_kind a, att_status a)) (attempts (w_db both.2)) = [(KModel, AFinished); (KTool, APending)] ∧
  map (λ a, (att_kind a, att_status a)) (attempts (w_db adopted.2)) = [(KModel, AFinished); (KTool, AFinished)] ∧
  steering "c" (run_id run) (w_db both.2) = [entry] ∧ steering "c" (run_id run) (w_db adopted.2) = [].
Proof.
  split; [vm_compute; reflexivity|]. split; [vm_compute; reflexivity|]. split; [vm_compute; reflexivity|].
  destruct (adopt_effect run "" (Ok true) both.2 adopted.2) as (_ & _ & _ & Hs & _).
  - apply (system_wf (at_ Demo.empty) (at_ both.2)); [etrans; [apply reach_begin|apply reach_both]|exact Demo.wf_empty].
  - apply reached_inputs. etrans; [apply reach_begin|apply reach_both].
  - vm_compute. reflexivity.
  - exact Hs.
Defined.
