(* ===== verification/MemoryRuns.v ===== *)
(** * Memory in every reachable state

    Whatever the service does in between (runs, permissions, channels, restarts,
    and mutations of memory by the user and by agents), memory stays well formed
    and only moves forward; what was deleted stays deleted, and a request to
    change memory is carried out at most once. *)

From S2P Require Import Prelude Text Utf8 Data Sql Memory Store StoreInv Space SpaceInv StoreProps Workspace Profile FilePolicy Permission PermissionProps Budget MemoryStore MemoryProps Channel Telegram Model Routing RoutingProps System.

(** ** Only mutations change memory *)
Definition memory_moves (d d' : db) : Prop :=
  memory_wf (memory d) → memory_wf (memory d') ∧ memory_le (memory d) (memory d').
Lemma moves_same d d' : memory d' = memory d → memory_moves d d'.
Proof. intros E Hwf. rewrite E. split; [done|reflexivity]. Qed.
#[export] Instance memory_moves_pre : PreOrder memory_moves.
Proof.
  split; [intros d; by apply moves_same|]. intros x y z H1 H2 Hwf. destruct (H1 Hwf) as [Hy Hxy]. destruct (H2 Hy) as [Hz Hyz].
  split; [done|by etrans].
Qed.
#[export] Instance memory_moves_access : RespectsAccess memory_moves.
Proof.
  split; [|by intros; apply moves_same]. split; [|by intros; apply moves_same]. split; [|by intros; apply moves_same..]. split.
  2: { intros chat key b w. unfold insert_message_once, query_row, mbind, M_bind. destruct (find_conversation _ _); by apply moves_same. }
  split; [apply _|by intros; apply moves_same..| | | |].
  - intros r w. unfold insert_run, query_row, mbind, M_bind. destruct (find_conversation _ _); [|by apply moves_same]. simpl.
    by destruct (runs_constraints _); apply moves_same.
  - intros a w _. unfold insert_attempt. rewrite bind_query. unfold id. destruct (find_run _ _); [|by apply moves_same]. simpl.
    by destruct (negb _); apply moves_same.
  - intros c r b w. unfold insert_message_row, query_row, mbind, M_bind. by destruct (find_conversation _ _); apply moves_same.
  - intros c o r f w. unfold move_message_row, query_row, mbind, M_bind. destruct (find_conversation _ _); [|by apply moves_same]. simpl.
    by destruct (existsb _ _); apply moves_same.
Qed.
#[export] Instance memory_moves_system {H : Host} : RespectsSystem memory_moves.
Proof.
  split; [split; [apply _|]|split; [apply _|]; intros; by apply moves_same].
  intros a m r w w' Hm Hf Hwf. apply mutate_ok in Hm as (_ & _ & t & Hm & ->). by eapply mutated_wf.
Qed.

Section runs.
Context {H : Host} {RC : ReadChecks} {D : Disk} {MH : ModelHost} {RH : RoutingHost}.

Lemma memory_reach s s' : rtc system_step s s' → memory_moves (w_db (sy_world s)) (w_db (sy_world s')).
Proof. intros Hs Hwf. exact (system_reach memory_moves s s' Hs Hwf). Qed.

(** Memory is well formed in every reachable state, and only moves forward.
    Starting from well-formed tables, whatever steps the service takes: no two
    entries share an identifier; every entry that is not deleted has the complete
    numbered history of its revisions, the last of which is the entry itself; a
    deleted one has no content and no history; every receipt names an entry that
    has at least the revision it recorded. And an entry's identity, scope and
    time of creation never change, each change of it is a new revision, and
    history is lost only with its entry. *)
Theorem memory_reachable s s' : rtc system_step s s' → memory_wf (memory (w_db (sy_world s))) →
  memory_wf (memory (w_db (sy_world s'))) ∧ memory_le (memory (w_db (sy_world s))) (memory (w_db (sy_world s'))).
Proof. apply memory_reach. Qed.

Lemma deleted_unreadable t e : memory_wf t → e ∈ mt_entries t → me_state e = "deleted" →
  ∀ d a s act, memory d = t → is_ok (getMemory d a s (me_id e) act) = false.
Proof.
  intros Hwf He Hs d a s act Ed. destruct (getMemory d a s (me_id e) act) as [e'|] eqn:Eg; [|done]. exfalso.
  unfold getMemory in Eg. apply res_bind_ok in Eg as (x & Hx & Eg). apply memory_row_ok in Hx as (Hx & Hid & _). rewrite Ed in Hx.
  assert (x = e) as -> by (eapply (NoDup_map_inj me_id); [apply Hwf|done..]). by rewrite bool_decide_eq_true_2 in Eg.
Qed.

(** C38: What was deleted stays deleted. Once an entry of memory is deleted, in
    every later state it is still there, without content, sources, pin or
    history; nobody, the user included, reads it by its identifier in whatever
    scope; and a mutation that names it goes through only as the retry of one
    that went through before. *)
Theorem deleted_stays_erased s s' e : rtc system_step s s' → memory_wf (memory (w_db (sy_world s))) →
  e ∈ mt_entries (memory (w_db (sy_world s))) → me_state e = "deleted" →
  let d := w_db (sy_world s') in
  e ∈ mt_entries (memory d) ∧ content e = (me_kind e, "", "", []) ∧ me_pinned e = None ∧ (∀ v, v ∈ mt_revisions (memory d) → mv_entry v ≠ me_id e) ∧
  (∀ a sc act, is_ok (getMemory d a sc (me_id e) act) = false) ∧
  (∀ a m r w, mutateMemoryTx a m (sy_world s') = (Ok r, w) → mut_action m ≠ "create" → mut_entry m = me_id e →
     w_db w = d ∧ ∃ r0, mt_operations (memory d) !! key_of a m = Some (hash_of a m, r0) ∧ r = duplicate_receipt r0).
Proof.
  intros Hs Hwf He Hd. destruct (memory_reach s s' Hs Hwf) as [Hwf' [Hle _ _]]. cbv zeta.
  destruct (grows_elem _ _ _ _ Hle He) as (e' & He' & Hee). pose proof (el_deleted _ _ Hee Hd) as ->.
  destruct (mw_erased _ Hwf' e He' Hd) as [(E1 & E2 & E3 & E4) Hv]. unfold content. rewrite E1, E2, E3.
  split_and!; try done; [intros a sc act; by eapply deleted_unreadable|].
  intros a m r w Hm Hc Hid. apply mutate_ok in Hm as (_ & _ & t & Hm & ->).
  destruct Hm as [r Ho|r _ Ha|x x' g _ _ Hst _ _ _]; [split; [by destruct (w_db (sy_world s'))|eauto]|done|].
  exfalso. destruct Hst as [|x g' now _ Hx _ Hxid _ _ _ _ Hxd _]; [done|]. apply Hxd.
  assert (x = e) as -> by (eapply (NoDup_map_inj me_id); [apply Hwf'|done|done|congruence]). done.
Qed.

Lemma duplicate_idem r : duplicate_receipt (duplicate_receipt r) = duplicate_receipt r.
Proof. done. Qed.
Lemma mutated_recorded a m i d r t : mutated a m i d r t → ∃ r0, mt_operations t !! key_of a m = Some (hash_of a m, r0) ∧ duplicate_receipt r0 = duplicate_receipt r.
Proof.
  destruct 1 as [r Ho|r Ho|x x' g Ho]; eexists; (split; [first [exact Ho|apply lookup_insert_eq]|done]).
Qed.

(** C39: A request to change memory is carried out at most once. After it went
    through, in every later state the same author's request with the same key, run
    and scope goes through only if it asks for the same, and then changes nothing
    and gets the same receipt, marked as a duplicate. *)
Theorem mutation_once a m r w w1 s s' a' m' r' w' : mutateMemoryTx a m w = (Ok r, w1) → memory_wf (memory (w_db w)) → fresh_id w →
  w_db (sy_world s) = w_db w1 → rtc system_step s s' → key_of a' m' = key_of a m → mutateMemoryTx a' m' (sy_world s') = (Ok r', w') →
  hash_of a' m' = hash_of a m ∧ r' = duplicate_receipt r ∧ w_db w' = w_db (sy_world s').
Proof.
  intros Hm Hwf Hf Ew Hs Hk Hm'. apply mutate_ok in Hm as (_ & _ & t & Hm & Hdb). destruct (mutated_wf _ _ _ _ _ _ Hwf Hf Hm) as [Hwf1 _].
  rewrite Hdb in Ew. destruct (mutated_recorded _ _ _ _ _ _ Hm) as (r0 & Ho & Er). rewrite <- Er.
  assert (Hwfs : memory_wf (memory (w_db (sy_world s)))) by (by rewrite Ew).
  destruct (memory_reach s s' Hs Hwfs) as [_ [_ _ Hops]]. rewrite Ew in Hops. simpl in Hops.
  eapply lookup_weaken in Ho; [|exact Hops]. rewrite <- Hk in Ho.
  apply mutate_ok in Hm' as (_ & _ & t' & Hm' & ->). destruct Hm' as [r1 Ho'|r1 Ho'|x x' g Ho']; rewrite Ho in Ho'; [|done..].
  injection Ho' as -> <-. split; [done|]. split; [done|]. by destruct (w_db (sy_world s')).
Qed.
End runs.

(** ** Witnesses *)
Module RunsDemo.
Import MemoryDemo.
#[local] Existing Instances FilePolicyProps.FilePolicyDemo.disk RoutingDemo.models RoutingDemo.words.
Definition config : MemoryConfig := mkMemoryConfig true 16 16384 65536.
Definition s0 : system := mkSystem (mkTelegram "" ∅ ∅) Demo.w3.
Definition save (m : MemoryMutation) (w : world) : world := (SaveMemory config "/w" "c" (λ _, None) m w).2.
Definition s1 : system := mkSystem (mkTelegram "" ∅ ∅) (save create Demo.w3).
Definition id1 : string := match mt_entries (memory (w_db (sy_world s1))) with e :: _ => me_id e | [] => "" end.
Definition remove : MemoryMutation := mkMutation None "k3" "delete" scope id1 1 "" "" "" [] "".
Definition s2 : system := mkSystem (mkTelegram "" ∅ ∅) (save remove (sy_world s1)).
Definition another : MemoryMutation := mkMutation None "k4" "create" scope "" 0 "fact" "Tea" "Green" [mkSource "user" "" "" "" 0 "" ""] "".
Definition s3 : system := mkSystem (mkTelegram "" ∅ ∅) (save another (sy_world s2)).
Lemma fresh (w : world) : bool_decide (newID_at (w_ids w) ∉ map me_id (mt_entries (memory (w_db w)))) = true → fresh_id w.
Proof. apply bool_decide_eq_true_1. Qed.
Lemma step1 : system_step s0 s1.
Proof. exact (sy_save_memory s0 config "/w" "c" (λ _, None) create (fresh Demo.w3 ltac:(vm_compute; reflexivity))). Qed.
Lemma step2 : system_step s1 s2.
Proof. exact (sy_save_memory s1 config "/w" "c" (λ _, None) remove (fresh (sy_world s1) ltac:(vm_compute; reflexivity))). Qed.
Lemma step3 : system_step s2 s3.
Proof. exact (sy_save_memory s2 config "/w" "c" (λ _, None) another (fresh (sy_world s2) ltac:(vm_compute; reflexivity))). Qed.
Definition gone : MemoryEntry := match mt_entries (memory (w_db (sy_world s2))) with e :: _ => e | [] => entry end.
Lemma s2_wf : memory_wf (memory (w_db (sy_world s2))).
Proof. exact (proj1 (memory_reach s0 s2 (rtc_l _ _ _ _ step1 (rtc_once _ _ step2)) MemoryDemo.empty_wf)). Qed.
Lemma gone_in : gone ∈ mt_entries (memory (w_db (sy_world s2))).
Proof.
  assert (mt_entries (memory (w_db (sy_world s2))) = [gone]) as -> by (vm_compute; reflexivity). apply list_elem_of_singleton. reflexivity.
Qed.
Lemma gone_deleted : me_state gone = "deleted".
Proof. vm_compute. reflexivity. Qed.
End RunsDemo.
Import RunsDemo.

Lemma memory_reachable_witness : memory_wf (memory (w_db (sy_world s2))) ∧ mt_revisions (memory (w_db (sy_world s1))) ≠ [].
Proof.
  split; [|vm_compute; discriminate].
  exact (proj1 (memory_reachable (H:=MemoryDemo.host) (D:=FilePolicyProps.FilePolicyDemo.disk) (MH:=RoutingDemo.models) (RH:=RoutingDemo.words) s0 s2
    (rtc_l _ _ _ _ step1 (rtc_once _ _ step2)) MemoryDemo.empty_wf)).
Defined.

Lemma deleted_stays_erased_witness :
  is_ok (getMemory (w_db (sy_world s3)) MemoryDemo.user MemoryDemo.scope (me_id gone) "read") = false.
Proof.
  exact (proj1 (proj2 (proj2 (proj2 (proj2 (deleted_stays_erased (H:=MemoryDemo.host) (D:=FilePolicyProps.FilePolicyDemo.disk) (MH:=RoutingDemo.models) (RH:=RoutingDemo.words) s2 s3 gone
    (rtc_once _ _ step3) s2_wf gone_in gone_deleted))))) MemoryDemo.user MemoryDemo.scope "read").
Defined.

Definition again_s : system := mkSystem (mkTelegram "" ∅ ∅) MemoryDemo.w1.
Definition again := mutateMemoryTx (H:=MemoryDemo.host) MemoryDemo.user MemoryDemo.create MemoryDemo.w1.
Definition again_receipt : MemoryReceipt := duplicate_receipt MemoryDemo.receipt.
Lemma again_ok : mutateMemoryTx (H:=MemoryDemo.host) MemoryDemo.user MemoryDemo.create (sy_world again_s) = (Ok again_receipt, again.2).
Proof. vm_compute. reflexivity. Qed.
Lemma mutation_once_witness :
  again_receipt = duplicate_receipt MemoryDemo.receipt ∧ w_db again.2 = w_db MemoryDemo.w1.
Proof.
  destruct (mutation_once (H:=MemoryDemo.host) (D:=FilePolicyProps.FilePolicyDemo.disk) (MH:=RoutingDemo.models) (RH:=RoutingDemo.words) MemoryDemo.user MemoryDemo.create MemoryDemo.receipt Demo.w3 MemoryDemo.w1 again_s again_s
    MemoryDemo.user MemoryDemo.create again_receipt again.2 MemoryDemo.memory_created MemoryDemo.empty_wf MemoryDemo.fresh3 eq_refl (rtc_refl _ _) eq_refl again_ok)
    as (_ & H1 & H2).
  split; [exact H1|exact H2].
Defined.
