(* ===== verification/TelegramProps.v ===== *)
(** * What the grants of Telegram chats guarantee

    The requests for access kept in memory are few and distinct; applying a
    grant advances its revision by one; and a run that froze an older revision
    stays revoked as long as the chat keeps a grant. *)

From Stdlib Require Import Ascii.
From S2P Require Import Prelude Text Data Sql Store StoreInv Space SpaceInv StoreProps SpaceProps SpaceMove Workspace Profile ProfileProps FilePolicy FilePolicyProps Permission PermissionProps Memory MemoryStore MemoryProps Channel Telegram Model Routing RoutingProps Queue QueueInv System.
Local Open Scope Z_scope.

Section methods.
Context {H : Host} {RC : ReadChecks} {D : Disk} {MH : ModelHost} {RH : RoutingHost}.

(** ** Grants *)

(** The grant a database holds for a chat. *)
Definition grant_at (t : ChannelTarget) (d : db) (g : TelegramAccess) : Prop := meta d !! telegramAccessKey t = Some (MAccess g).

Lemma telegramAccessRaw_ok t g v w w' : telegramAccessRaw t w = (Ok (g, v), w') →
  w' = w ∧ v = meta (w_db w) !! telegramAccessKey t ∧
  (v = None ∧ g = mkAccess t "" "" false false [] 0 "" ∨ v = Some (MAccess g) ∧ ta_target g = t ∧ ta_revision g ≠ 0).
Proof.
  unfold telegramAccessRaw. rewrite bind_query. intros Hm. destruct (meta _ !! _) as [[]|]; try done.
  - apply bind_ok in Hm as ([] & w1 & [Hg <-]%guard_ok & [[= <- <-] <-]%ret_ok). bool_prop. split; [done|]. split; [done|]. right. done.
  - apply ret_ok in Hm as [[= <- <-] <-]. split; [done|]. split; [done|]. by left.
Qed.
Lemma grant_raw t g h v w w' : grant_at t (w_db w) g → telegramAccessRaw t w = (Ok (h, v), w') → h = g ∧ v = Some (MAccess g).
Proof. intros Hg (_ & -> & [[Hn _]|[Hs _]])%telegramAccessRaw_ok; unfold grant_at in Hg; split; congruence. Qed.

Lemma CheckTelegramAccess_ok t p g w w' : ct_source t = "telegram" → CheckTelegramAccess t p w = (Ok g, w') →
  w' = w ∧ grant_at t (w_db w) g ∧ ta_enabled g = true ∧ (ta_whole_group g = true ∨ p ∈ ta_members g) ∧
  ∃ s, find_external (ct_source t) (target_key t) (w_db w) = Some s ∧ sp_id s = ta_space g.
Proof.
  intros Ht Hm. pose proof (reads_ok _ _ _ _ (reads_CheckTelegramAccess t p) Hm) as ->. split; [done|].
  unfold CheckTelegramAccess in Hm. rewrite (bool_decide_eq_true_2 _ Ht) in Hm. simpl negb in Hm. cbv iota in Hm.
  apply bind_ok in Hm as ([] & w1 & [_ <-]%guard_ok & Hm). apply bind_ok in Hm as ([h v] & w1 & Hr & Hm).
  apply telegramAccessRaw_ok in Hr as (-> & -> & Hr). cbv zeta in Hm. cbn [fst] in Hm.
  apply bind_ok in Hm as ([] & w1 & [Hg <-]%guard_ok & Hm). rewrite bind_query in Hm.
  apply bind_ok in Hm as ([] & w1 & [Hs <-]%guard_ok & [<- _]%ret_ok). apply andb_true_iff in Hg as [He Hg].
  destruct Hr as [[_ ->]|[Hr _]]; [done|]. split; [done|]. split; [done|]. split.
  { apply orb_true_iff in Hg as [?|?%bool_decide_eq_true]; auto. }
  apply andb_true_iff in Hs as [_ Hs]. unfold id in Hs. destruct (find_external _ _ _) as [s|]; [|done]. exists s.
  apply andb_true_iff in Hs as [Hs%bool_decide_eq_true _]. done.
Qed.
Lemma or_else_ok {A} (m : M A) e a w w' : or_else m e w = (Ok a, w') ↔ m w = (Ok a, w').
Proof. unfold or_else. by destruct (m w) as [[]]. Qed.

(** A run that still passes froze the revision that is granted. *)
Lemma checkTelegramRun_ok e run o w w' : rc_channel (run_config run) = Some o → ct_source (co_target o) = "telegram" →
  checkTelegramRun e run w = (Ok tt, w') →
  w' = w ∧ ∃ p, rc_permission (run_config run) = Some p ∧
    (ps_person p ≠ "" → ∃ g, grant_at (co_target o) (w_db w) g ∧ ta_revision g = co_revision o ∧ ta_enabled g = true ∧
       (ta_whole_group g = true ∨ ps_person p ∈ ta_members g)).
Proof.
  intros Ho Ht Hm. pose proof (reads_ok _ _ _ _ (reads_checkTelegramRun e run) Hm) as ->. split; [done|].
  unfold checkTelegramRun in Hm. rewrite Ho, (bool_decide_eq_true_2 _ Ht) in Hm. simpl negb in Hm. cbv iota in Hm.
  destruct (rc_permission _) as [p|]; [|done]. exists p. split; [done|]. intros Hp. rewrite (bool_decide_eq_false_2 _ Hp) in Hm.
  apply bind_ok in Hm as ([] & w1 & [_ <-]%guard_ok & Hm). apply bind_ok in Hm as (g & w1 & Hg%or_else_ok & [Hr <-]%guard_ok).
  apply CheckTelegramAccess_ok in Hg as (_ & Hg & He & Hmem & _); [|done]. exists g. split; [done|]. split; [lia|]. done.
Qed.

(** ** How a grant changes *)

(** Everything but applying a grant or deleting its space keeps it. *)
Definition grants_kept (d d' : db) : Prop :=
  ∀ k g, access_key k = true → meta d !! k = Some (MAccess g) → meta d' !! k = Some (MAccess g).
Lemma grants_same d d' : meta d' = meta d → grants_kept d d'.
Proof. unfold grants_kept. intros ->. by intros k g _ Hk. Qed.
#[export] Instance grants_kept_spaces : RespectsSpaces grants_kept.
Proof.
  apply spaces_meta_only; [|apply grants_same|intros d m _ Hk k g; by apply Hk].
  split; [by intros d; apply grants_same|]. intros a b c H1 H2 k g Hk Hl. apply H2, H1; done.
Qed.
#[export] Instance grants_kept_inputs : RespectsInputs grants_kept.
Proof.
  split; [apply _|]. intros d k i Hi k' g Hk Hg. simpl. rewrite lookup_insert_ne; [done|]. intros ->. by rewrite (input_no_access _ Hi) in Hk.
Qed.

Lemma memory_keeps_grants a m r w w' : mutateMemoryTx a m w = (Ok r, w') → grants_kept (w_db w) (w_db w').
Proof. intros Hm. apply mutate_ok in Hm as (_ & _ & t & _ & ->). by apply grants_same. Qed.

(** Deleting a space makes no grant. *)
Lemma delete_grants i w k g : db_wf (w_db w) → access_key k = true →
  meta (w_db (DeleteSpace i w).2) !! k = Some (MAccess g) → meta (w_db w) !! k = Some (MAccess g).
Proof.
  intros Hwf Hk Hl. destruct (DeleteSpace i w) as [[[]|e] w'] eqn:E; simpl in Hl.
  - apply deleteSpace_ok in E as (_ & _ & _ & now & w1 & _ & _ & _ & _ & _ & Emeta & Hwf1 & Href).
    destruct (refresh_frame _ _ _ _ (Hwf1 Hwf) Href) as (_ & _ & _ & _ & Em & _). rewrite Em, Emeta in Hl.
    apply (rehomed_lookup (access_of i) (personal i)) in Hl as (_ & _ & v & Hv & Ev). rewrite Hv. f_equal.
    destruct v; simpl in Ev; try congruence. by destruct (_ && _).
  - unfold DeleteSpace in E. apply bind_err in E as [E|([] & w1 & [_ <-]%guard_ok & E)].
    + unfold guard_ in E. destruct (negb _); [done|]. by injection E as _ <-.
    + apply transaction_err in E. by rewrite <- E.
Qed.

(** Applying a change: the grant it found, and the one it leaves. *)
Lemma apply_grant_ok record wd g sp changed w w' : apply_grant record wd w = (Ok (g, sp, changed), w') →
  ∃ previous v, telegramAccessRaw (tc_target (ct_args record)) w = (Ok (previous, v), w) ∧ ct_before record = grant_row v ∧
  let args := ct_args record in
  if changed then
    ta_revision g = (ta_revision previous + 1) mod 2 ^ 64 ∧ ta_space g = sp_id sp ∧ sp_kind sp = tc_kind args ∧
    ta_enabled g = tc_enabled args ∧ ta_whole_group g = tc_whole_group args ∧ ta_members g = tc_members args ∧ ta_target g = tc_target args ∧
    ∃ w1, grants_kept (w_db w) (w_db w1) ∧ w_db w' = set_meta (<[telegramAccessKey (tc_target args) := MAccess g]> (meta (w_db w1))) (w_db w1)
  else g = previous ∧ grants_kept (w_db w) (w_db w') ∧ ta_enabled g = tc_enabled args ∧ ta_whole_group g = tc_whole_group args ∧
       ta_members g = tc_members args.
Proof.
  unfold apply_grant. rewrite transaction_ok. intros Hm. apply bind_ok in Hm as ([previous v] & w1 & Hr & Hm).
  pose proof (reads_ok _ _ _ _ (reads_telegramAccessRaw _) Hr) as ->. exists previous, v. split; [done|]. cbv zeta in Hm. cbn [fst snd] in Hm.
  apply bind_ok in Hm as ([] & w1 & [Hb%bool_decide_eq_true <-]%guard_ok & Hm). split; [done|].
  apply bind_ok in Hm as (space & w1 & Hs & Hm).
  pose proof (steps_bindChannelTx (tc_target (ct_args record)) (tc_kind (ct_args record)) (tc_title (ct_args record)) wd grants_kept _ w) as Hk.
  rewrite Hs in Hk. simpl in Hk. apply bind_ok in Hm as ([] & w2 & [Hkind%bool_decide_eq_true <-]%guard_ok & Hm).
  destruct (_ && _) eqn:E.
  - apply ret_ok in Hm as [[= <- <- <-] <-]. cbv zeta. split; [done|]. split; [done|]. apply andb_true_iff in E as [E Em%bool_decide_eq_true].
    apply andb_true_iff in E as [E Ew%eqb_prop]. apply andb_true_iff in E as [_ Ee%eqb_prop]. done.
  - apply bind_ok in Hm as (now & w2 & Hn%nowText_ok & Hm). apply bind_ok in Hm as ([] & w3 & Hw & [[= <- <- <-] <-]%ret_ok).
    unfold meta_upsert in Hw. rewrite bind_query in Hw. apply write_ok in Hw as ->. unfold id. rewrite Hn.
    cbv zeta. cbn [ta_revision ta_space ta_enabled ta_whole_group ta_members ta_target]. split_and!; try done. by exists w1.
Qed.

(** The only step that changes a grant advances its revision. *)
Lemma grant_step t s s' g g' : db_wf (w_db (sy_world s)) → system_step s s' →
  grant_at t (w_db (sy_world s)) g → grant_at t (w_db (sy_world s')) g' →
  g' = g ∨ ta_revision g' = (ta_revision g + 1) mod 2 ^ 64.
Proof.
  intros Hwf Hs Hg Hg'. pose proof (telegramAccessKey_access t) as Hk.
  assert (Hkept : grants_kept (w_db (sy_world s)) (w_db (sy_world s')) → g' = g).
  { intros Hkept. specialize (Hkept _ _ Hk Hg). unfold grant_at in Hg'. congruence. }
  destruct Hs; simpl in *.
  - destruct Hop as [Hop|Hop]; [left; apply Hkept, (run_op_along grants_kept _ _ Hop)|].
    apply (space_op_along grants_kept) in Hop as [Hop|[i ->]]; [left; by apply Hkept|]. left.
    apply delete_grants in Hg'; [|done|done]. unfold grant_at in Hg. congruence.
  - left. apply Hkept. by eapply permission_step_along; [apply _|exact Hop].
  - left. by apply Hkept, (steps_ReceiveChannelText source text replay wd grants_kept _).
  - left. by apply Hkept, (steps_RecordChannelDelivery run delivery text state b grants_kept _).
  - left. by apply Hkept, (steps_prepareAuto r refresh assess sel run l Hassess grants_kept _).
  - left. by apply Hkept, (steps_SwitchModel r unchanged id model grants_kept _).
  - left. by apply Hkept, (steps_IncreaseRunLimits config unchanged id limits grants_kept _).
  - left. by apply Hkept, (queue_op_along grants_kept _ _ Hop).
  - left. by apply Hkept, grants_same.
  - left. by apply Hkept, grants_same.
  - left. by apply Hkept, grants_same.
  - left. apply Hkept, grants_same. by rewrite run_telegram_db, request_world.
  - left. apply Hkept, grants_same. by rewrite run_telegram_db, build_world.
  - rewrite run_telegram_db in Hg', Hkept. destruct (applyTelegramAccess_world sup record wd now (sy_memory s) (sy_world s)) as [E|E];
      rewrite E in Hg', Hkept; [left; by apply Hkept, grants_same|]. clear E.
    destruct (apply_grant record wd (sy_world s)) as [[[[h sp] changed]|e] w'] eqn:E; simpl in *.
    2: { unfold apply_grant in E. apply transaction_err in E. left. apply Hkept, grants_same. by rewrite E. }
    apply apply_grant_ok in E as (previous & v & Hr & _ & Hc). destruct changed; [|left; by apply Hkept, (proj1 (proj2 Hc))].
    destruct Hc as (Erev & _ & _ & _ & _ & _ & _ & w1 & Hk1 & Ew). unfold grant_at in Hg'. rewrite Ew in Hg'. simpl in Hg'.
    destruct (decide (telegramAccessKey (tc_target (ct_args record)) = telegramAccessKey t)) as [Ekey|Hne].
    + rewrite Ekey, lookup_insert_eq in Hg'. injection Hg' as <-. right. rewrite Erev. do 2 f_equal.
      apply telegramAccessRaw_ok in Hr as (_ & -> & Hr). rewrite Ekey in Hr. unfold grant_at in Hg. rewrite Hg in Hr.
      destruct Hr as [[Hn _]|[[= ->] _]]; done.
    + rewrite lookup_insert_ne in Hg' by done. left. specialize (Hk1 _ _ Hk Hg). congruence.
  - left. apply Hkept, (SaveMemory_along grants_kept). intros. by eapply memory_keeps_grants.
  - left. apply Hkept, (executeLocalToolMode_along grants_kept); [apply _|]. apply (executeMemoryWrite_along grants_kept).
    intros. by eapply memory_keeps_grants.
Qed.

(** A step after which the chat still has a grant. *)
Definition keeps_grant (t : ChannelTarget) (s s' : system) : Prop := system_step s s' ∧ ∃ g, grant_at t (w_db (sy_world s')) g.
Lemma revision_grows t n s s' g : db_wf (w_db (sy_world s)) → nsteps (keeps_grant t) n s s' → grant_at t (w_db (sy_world s)) g →
  0 <= ta_revision g → ta_revision g + Z.of_nat n < 2 ^ 64 →
  ∃ g', grant_at t (w_db (sy_world s')) g' ∧ ta_revision g <= ta_revision g' <= ta_revision g + Z.of_nat n.
Proof.
  intros Hwf Hs. revert g Hwf. induction Hs as [s|n s s1 s' [Hstep [g1 Hg1]] _ IH]; intros g Hwf Hg Hpos Hb; [exists g; split; [done|lia]|].
  destruct (grant_step t s s1 g g1 Hwf Hstep Hg Hg1) as [->|Er].
  - destruct (IH g) as (g' & Hg' & Hr); [by apply (system_wf s s1 (rtc_once _ _ Hstep))|done|done|lia|]. exists g'. split; [done|lia].
  - rewrite Z.mod_small in Er by lia.
    destruct (IH g1) as (g' & Hg' & Hr); [by apply (system_wf s s1 (rtc_once _ _ Hstep))|done|lia|lia|]. exists g'. split; [done|lia].
Qed.

(** C20: Access that was taken away does not come back. Once the grant of a
    Telegram chat has a higher revision than a run froze, then whatever sequence
    of operations follows, on the store, the permissions, the channels and the
    bots, re-granting the same access included, as long as the chat keeps a
    grant and fewer than 2^64 steps are taken: the run may dispatch no call, no
    button of it is honoured and no text of it is sent. *)
Theorem superseded_stays_revoked t n s s' g run o p :
  db_wf (w_db (sy_world s)) → nsteps (keeps_grant t) n s s' →
  grant_at t (w_db (sy_world s)) g → 0 <= ta_revision g → ta_revision g + Z.of_nat n < 2 ^ 64 →
  ct_source t = "telegram" → rc_channel (run_config run) = Some o → co_target o = t → rc_permission (run_config run) = Some p →
  co_revision o < ta_revision g →
  (∀ bots w', sendRunText_check bots run t (sy_world s') ≠ (Ok tt, w')) ∧
  (ps_person p ≠ "" →
     (∀ bots cancelled w', lockTelegramDispatch bots (Some o) (Some p) cancelled (sy_world s') ≠ (Ok tt, w')) ∧
     (∀ e w', checkTelegramRun e run (sy_world s') ≠ (Ok tt, w')) ∧
     (∀ e target person id action w', find_run id (w_db (sy_world s')) = Some run →
        CheckChannelRunAction e target person id action (sy_world s') ≠ (Ok run, w'))).
Proof.
  intros Hwf Hs Hg Hpos Hb Ht Ho Et Hp Hold. destruct (revision_grows t n s s' g Hwf Hs Hg Hpos Hb) as (g' & Hg' & Hle & _).
  assert (Hun : ∀ h, grant_at t (w_db (sy_world s')) h → ta_revision h ≠ co_revision o).
  { intros h Hh. unfold grant_at in *. rewrite Hg' in Hh. injection Hh as <-. lia. }
  assert (Hrun : ps_person p ≠ "" → ∀ e w', checkTelegramRun e run (sy_world s') ≠ (Ok tt, w')).
  { intros Hperson e w' Hc. rewrite <- Et in Ht. apply (checkTelegramRun_ok _ _ o) in Hc as (_ & p' & Hp' & Hc); [|done|done].
    rewrite Hp in Hp'. injection Hp' as <-. destruct (Hc Hperson) as (h & Hh & Hrev & _). rewrite Et in Hh. by apply (Hun h Hh). }
  split; [|intros Hperson; split; [|split]].
  - intros bots w' Hm. unfold sendRunText_check in Hm. rewrite (bool_decide_eq_true_2 _ Ht), Hp, Ho in Hm. simpl negb in Hm. cbv iota in Hm.
    apply bind_ok in Hm as (h & w1 & Hh%or_else_ok & [Hr _]%guard_ok).
    assert (Hgh : grant_at t (w_db (sy_world s')) h).
    { unfold telegramDeliveryGrant in Hh. destruct (bool_decide (ps_person p = "")).
      - cbn [negb] in Hh. cbv iota in Hh. apply bind_ok in Hh as ([] & w2 & [_ <-]%guard_ok & Hh). apply bind_ok in Hh as ([h' v] & w2 & Hraw & Hh).
        apply bind_ok in Hh as ([] & w3 & [_ <-]%guard_ok & [<- _]%ret_ok).
        apply (grant_raw _ g') in Hraw as [-> _]; [done|done].
      - by apply CheckTelegramAccess_ok in Hh as (_ & ? & _). }
    apply (Hun h Hgh). lia.
  - intros bots cancelled w' Hm. unfold lockTelegramDispatch in Hm. rewrite Et, (bool_decide_eq_true_2 _ Ht), (bool_decide_eq_false_2 _ Hperson) in Hm.
    simpl in Hm. apply bind_ok in Hm as (h & w1 & Hh%or_else_ok & Hm). apply bind_ok in Hm as ([] & w2 & [Hr _]%guard_ok & _).
    apply CheckTelegramAccess_ok in Hh as (_ & Hh & _); [|done]. apply (Hun h Hh). lia.
  - by apply Hrun.
  - intros e target person id action w' Hf Hm. unfold CheckChannelRunAction in Hm. apply bind_ok in Hm as ([r o'] & w1 & Hr%or_else_ok & Hm).
    unfold ChannelRun in Hr. apply bind_ok in Hr as (r' & w2 & [Hr' <-]%query_row_ok & [[= <- <-] <-]%ret_ok).
    rewrite Hf in Hr'. injection Hr' as <-. cbv zeta in Hm. cbn [fst snd] in Hm.
    apply bind_ok in Hm as ([] & w2 & [_ <-]%guard_ok & Hm). apply bind_ok in Hm as ([] & w2 & Hc & _). by apply Hrun in Hc.
Qed.

(** Asking the commands to stop always ends with an answer. *)
Lemma stop_commands_total sup space person l w : ∃ r, stop_commands sup space person l w = (Ok r, w).
Proof.
  induction l as [|c l [r IH]]; [by eexists|]. simpl. destruct (_ && _); [by exists r|]. rewrite bind_query.
  unfold mbind, M_bind. rewrite IH. destruct (find_run _ _) as [rn|]; [|by eexists]. destruct (rc_permission _); [|by eexists].
  destruct (_ || _); by eexists.
Qed.
Lemma stopPermissionCommands_total sup space person w : ∃ r, stopPermissionCommands sup space person w = (Ok r, w).
Proof.
  unfold stopPermissionCommands. destruct (sup_list sup) as [[l|e]|]; [|by eexists..].
  destruct (stop_commands_total sup space person l w) as [r E]. unfold mbind, M_bind. rewrite E. by eexists.
Qed.

(** Applying a grant does what was proposed, and only if nothing changed in
    between: the bot is connected, the request is alive, the grant stored is the
    one the proposal saw. The chat then has exactly the proposed members, under
    a revision that is one higher unless nothing was to be changed, the request
    is used up, no other chat's grant is touched, and when access changed every
    conversation of the space is cancelled and every running command of its runs
    asked to stop. *)
Theorem applied_grant sup record wd now m a m' w w' : let args := ct_args record in let t := tc_target args in
  applyTelegramAccess sup record wd now m w = (Ok (Ok a, m'), w') →
  ct_application t ∈ tm_bots m ∧ request_alive args now m = true ∧ tm_requests m' = delete (tc_request args) (tm_requests m) ∧
  ct_before record = grant_row (meta (w_db w) !! telegramAccessKey t) ∧
  ta_enabled (ap_grant a) = tc_enabled args ∧ ta_whole_group (ap_grant a) = tc_whole_group args ∧ ta_members (ap_grant a) = tc_members args ∧
  (∀ k g, access_key k = true → k ≠ telegramAccessKey t → meta (w_db w) !! k = Some (MAccess g) → meta (w_db w') !! k = Some (MAccess g)) ∧
  (ta_space (ap_grant a) ≠ "" → grant_at t (w_db w') (ap_grant a)) ∧
  (ct_before record = Some (ap_grant a) ∨ ta_space (ap_grant a) = "" ∨
   ta_revision (ap_grant a) = (match ct_before record with Some g => ta_revision g | None => 0 end + 1) mod 2 ^ 64 ∧
   (∀ c, c ∈ conversations (w_db w') → cv_space c = ta_space (ap_grant a) → cv_id c ∈ ap_cancelled a) ∧
   (∀ l c, sup_list sup = Some (Ok l) → c ∈ l → governs (ta_space (ap_grant a)) "" (w_db w') c → cmd_id c ∈ ap_stopped a)).
Proof.
  intros args t Hm. subst t args. unfold applyTelegramAccess in Hm. cbv zeta in Hm.
  destruct (negb (bool_decide (_ ∈ tm_bots m))) eqn:Eb; [done|]. apply negb_false_iff, bool_decide_eq_true in Eb. split; [done|].
  destruct (negb (request_alive (ct_args record) now m)) eqn:Ea; [done|]. apply negb_false_iff in Ea. split; [done|].
  apply bind_ok in Hm as (r & w1 & Hr & Hm). unfold outcome in Hr.
  destruct (apply_grant record wd w) as [x w2] eqn:Eg. injection Hr as <- <-. destruct x as [[[g sp] changed]|e]; [|done].
  apply apply_grant_ok in Eg as (previous & v & Hraw & Hbefore & Hc). apply telegramAccessRaw_ok in Hraw as (_ & -> & Hraw).
  cbv zeta in Hm, Hc. destruct changed; cbn [negb] in Hm.
  - destruct Hc as (Erev & Esp & _ & He & Hw & Hmem & Ht & w1 & Hk & Ew).
    apply bind_ok in Hm as (chats & w3 & Hl & Hm). pose proof (reads_ok _ _ _ _ (reads_outcome _ (reads_ListConversationsInSpace _)) Hl) as ->.
    destruct chats as [chats|e]; [|done]. apply bind_ok in Hm as (stopped & w3 & Hst & Hm).
    pose proof (reads_ok _ _ _ _ (reads_outcome _ (reads_stopPermissionCommands _ _ _)) Hst) as ->.
    apply ret_ok in Hm as [[= <- <-] <-]. cbn [ap_grant ap_cancelled ap_stopped tm_requests set_requests].
    split; [done|]. split; [done|]. split; [done|]. split; [done|]. split; [done|]. split.
    { intros k h Hk' Hne Hl'. rewrite Ew. simpl. rewrite lookup_insert_ne by done. by apply Hk. }
    split; [intros _; unfold grant_at; rewrite Ew; simpl; apply lookup_insert_eq|]. right. right. split.
    { rewrite Erev, Hbefore. do 2 f_equal. by destruct Hraw as [[-> ->]|[-> _]]. }
    rewrite Esp. split.
    + intros c Hc Hs. unfold outcome in Hl. destruct (ListConversationsInSpace (sp_id sp) w2) as [x w3] eqn:El. injection Hl as -> ->.
      unfold ListConversationsInSpace in El. apply bind_ok in El as (s0 & w3 & Hs0 & El). apply (reads_ok _ _ _ _ (reads_GetSpace _)) in Hs0 as ->.
      apply query_ok in El as [-> _]. apply list_elem_of_fmap. exists c. split; [done|]. by apply list_elem_of_filter.
    + intros l c Hsl Hcl Hgov. destruct (stopPermissionCommands_total sup (sp_id sp) "" w2) as [r Hstop].
      unfold outcome in Hst. rewrite Hstop in Hst. injection Hst as <-.
      eapply (stopPermissionCommands_ok sup (sp_id sp) "" r w2 w2 Hstop); done.
  - apply ret_ok in Hm as [[= <- <-] <-]. destruct Hc as (-> & Hk & He & Hw & Hmem). cbn [ap_grant tm_requests set_requests].
    split; [done|]. split; [done|]. split; [done|]. split; [done|]. split; [done|]. split; [intros k h Hk' _; by apply Hk|].
    destruct Hraw as [[Hn ->]|[Hs _]]; [split; [done|right; by left]|]. split.
    + intros _. apply Hk; [apply telegramAccessKey_access|done].
    + left. by rewrite Hbefore, Hs.
Qed.

(** ** Requests *)

(** Pending requests are few, belong to people in chats of connected bots, live
    for an hour, and no two share a code or are of the same person in the same
    chat. *)
Record requests_ok (m : TelegramMemory) : Prop := {
  ro_few : (size (tm_requests m) <= telegramRequestCapacity)%nat;
  ro_valid : ∀ i r, tm_requests m !! i = Some r → tr_id r = i ∧ ct_application (tr_target r) ∈ tm_bots m ∧
    validTelegramTarget (tr_target r) = true ∧ validTelegramPerson (tr_person r) = true ∧ tr_kind r ∈ ["private"; "group"] ∧
    tr_expires r = tr_created r + telegramRequestTTL;
  ro_code : ∀ i j r r', tm_requests m !! i = Some r → tm_requests m !! j = Some r' → tr_code r = tr_code r' → i = j;
  ro_identity : ∀ i j r r', tm_requests m !! i = Some r → tm_requests m !! j = Some r' →
    tr_target r = tr_target r' → tr_kind r = tr_kind r' → tr_person r = tr_person r' → i = j;
}.

Lemma requests_sub m b bots l : requests_ok m → l ⊆ tm_requests m → (∀ i r, l !! i = Some r → ct_application (tr_target r) ∈ bots) →
  requests_ok (mkTelegram b bots l).
Proof.
  intros [H1 H2 H3 H4] Hs Hb. assert (Hl : ∀ i r, l !! i = Some r → tm_requests m !! i = Some r) by (intros i r Hi; by eapply lookup_weaken).
  split; simpl.
  - etrans; [|exact H1]. by apply map_subseteq_size.
  - intros i r Hi. destruct (H2 i r (Hl i r Hi)) as (? & _ & ? & ? & ? & ?). specialize (Hb i r Hi). done.
  - intros i j r r' Hi Hj. by apply H3; apply Hl.
  - intros i j r r' Hi Hj. by apply H4; apply Hl.
Qed.
Lemma requests_shrink m l : requests_ok m → l ⊆ tm_requests m → requests_ok (set_requests l m).
Proof.
  intros Hm Hs. apply (requests_sub m); [done|done|]. intros i r Hi. eapply lookup_weaken in Hi; [|exact Hs]. by apply (ro_valid m Hm i r).
Qed.
Lemma requests_expire now m : requests_ok m → requests_ok (expireTelegramRequests now m).
Proof. intros Hm. apply requests_shrink; [done|]. apply map_filter_subseteq. Qed.

Lemma new_code_fresh draws taken c : new_code draws taken = Ok c → c ∉ taken.
Proof. induction draws as [|[raw|e] draws IH]; simpl; [done| |done]. case_bool_decide; [done|]. by intros [= <-]. Qed.
Lemma requests_elem m r : r ∈ requests m ↔ ∃ i, tm_requests m !! i = Some r.
Proof.
  unfold requests. rewrite list_elem_of_fmap. split.
  - intros ([i r'] & -> & Hi). exists i. by apply elem_of_map_to_list in Hi.
  - intros [i Hi]. exists (i, r). split; [done|]. by apply elem_of_map_to_list.
Qed.

(** A request that replaces the one it renews, or is new in code and identity,
    keeps the requests in order. *)
Lemma requests_insert m i r : requests_ok m → tr_id r = i → ct_application (tr_target r) ∈ tm_bots m →
  validTelegramTarget (tr_target r) = true → validTelegramPerson (tr_person r) = true → tr_kind r ∈ ["private"; "group"] →
  tr_expires r = tr_created r + telegramRequestTTL →
  (size (<[i := r]> (tm_requests m)) <= telegramRequestCapacity)%nat →
  (∀ j r', tm_requests m !! j = Some r' → j ≠ i → tr_code r' ≠ tr_code r ∧
     ¬ (tr_target r' = tr_target r ∧ tr_kind r' = tr_kind r ∧ tr_person r' = tr_person r)) →
  requests_ok (set_requests (<[i := r]> (tm_requests m)) m).
Proof.
  intros [H1 H2 H3 H4] Hi Hb Ht Hp Hk He Hsize Hnew. split; simpl; [done|..].
  - intros j r' [[<- <-]|[Hne Hj]]%lookup_insert_Some; [done|]. by apply H2.
  - intros j k r1 r2 [[<- <-]|[Hne Hj]]%lookup_insert_Some [[<- <-]|[Hne' Hk']]%lookup_insert_Some Hc; try done.
    + destruct (Hnew k r2 Hk'); [by apply not_eq_sym|]. congruence.
    + destruct (Hnew j r1 Hj); [by apply not_eq_sym|]. congruence.
    + by apply (H3 j k r1 r2).
  - intros j k r1 r2 [[<- <-]|[Hne Hj]]%lookup_insert_Some [[<- <-]|[Hne' Hk']]%lookup_insert_Some E1 E2 E3; try done.
    + destruct (Hnew k r2 Hk') as [_ Hx]; [by apply not_eq_sym|]. by destruct Hx.
    + destruct (Hnew j r1 Hj) as [_ Hx]; [by apply not_eq_sym|]. by destruct Hx.
    + by apply (H4 j k r1 r2).
Qed.

Lemma requests_request e now draws m w x m' w' : requests_ok m → requestTelegramAccess e now draws m w = (Ok (x, m'), w') → requests_ok m'.
Proof.
  intros Hm Hr. unfold requestTelegramAccess in Hr. destruct (negb (_ && _ && _)) eqn:Ev; [by apply ret_ok in Hr as [[= _ <-] _]|].
  destruct (negb (bool_decide _)) eqn:Eb; [by apply ret_ok in Hr as [[= _ <-] _]|]. apply negb_false_iff in Ev, Eb.
  apply bool_decide_eq_true in Eb. apply andb_true_iff in Ev as [Ev Ek%bool_decide_eq_true]. apply andb_true_iff in Ev as [Et Ep].
  cbv zeta in Hr. apply (requests_expire now) in Hm. set (m1 := expireTelegramRequests now m) in *.
  assert (Eb1 : ct_application (ce_target e) ∈ tm_bots m1) by done. clearbody m1. clear Eb m.
  destruct (List.find _ _) as [[i r]|] eqn:Ef.
  - apply List.find_some in Ef as [Hin%list_elem_of_In%elem_of_map_to_list Hsame]. simpl in Hsame.
    destruct (_ <=? _); apply ret_ok in Hr as [[= _ <-] _]; [|done]. destruct (ro_valid m1 Hm i r Hin) as (H1 & H2 & H3 & H4 & H5 & H6).
    apply requests_insert; try done.
    + rewrite map_size_insert_Some by (rewrite Hin; by eexists). apply Hm.
    + intros j r' Hj Hne. simpl. split; [intros Hc; apply Hne; by apply (ro_code m1 Hm j i r' r)|].
      intros (A1 & A2 & A3). apply Hne. by apply (ro_identity m1 Hm j i r' r).
  - destruct (telegramRequestCapacity <=? size _)%nat eqn:Es; [by apply ret_ok in Hr as [[= _ <-] _]|]. apply Nat.leb_gt in Es.
    destruct (new_code _ _) as [c|err] eqn:Ec; [|by apply ret_ok in Hr as [[= _ <-] _]].
    apply bind_ok in Hr as (i & w1 & _ & [[= _ <-] _]%ret_ok). apply requests_insert; try done.
    + rewrite map_size_insert. destruct (tm_requests m1 !! i); simpl; lia.
    + intros j r' Hj Hne. simpl. split.
      * intros Hc. apply new_code_fresh in Ec. apply Ec. rewrite <- Hc. apply list_elem_of_fmap. exists r'. split; [done|].
        apply requests_elem. by exists j.
      * intros (A1 & A2 & A3). assert (Hin : (j, r') ∈ map_to_list (tm_requests m1)) by by apply elem_of_map_to_list.
        apply list_elem_of_In in Hin. apply (List.find_none _ _ Ef) in Hin. unfold same_request in Hin. simpl in Hin.
        by rewrite !bool_decide_eq_true_2 in Hin by done.
Qed.

Lemma build_memory args now m w x m' w' : buildTelegramAccess args now m w = (Ok (x, m'), w') → m' = expireTelegramRequests now m.
Proof.
  unfold buildTelegramAccess. cbv zeta. destruct (mbind _ _) as [a|e]; intros Hm; [|by apply ret_ok in Hm as [[= _ <-] _]].
  apply bind_ok in Hm as (f & w1 & _ & [[= _ <-] _]%ret_ok). done.
Qed.
Lemma apply_memory sup record wd now m w x m' w' : applyTelegramAccess sup record wd now m w = (Ok (x, m'), w') →
  m' = m ∨ m' = set_requests (delete (tc_request (ct_args record)) (tm_requests m)) m.
Proof.
  unfold applyTelegramAccess. cbv zeta. intros Hm. destruct (negb _); [apply ret_ok in Hm as [[= _ <-] _]; by left|].
  destruct (negb _); [apply ret_ok in Hm as [[= _ <-] _]; by left|]. apply bind_ok in Hm as (r & w1 & _ & Hm).
  destruct r as [[[g sp] changed]|e]; [|apply ret_ok in Hm as [[= _ <-] _]; by left]. right.
  destruct changed; cbn [negb] in Hm; [|by apply ret_ok in Hm as [[= _ <-] _]].
  apply bind_ok in Hm as (chats & w2 & _ & Hm). destruct chats; [|by apply ret_ok in Hm as [[= _ <-] _]].
  apply bind_ok in Hm as (st & w3 & _ & Hm). by apply ret_ok in Hm as [[= _ <-] _].
Qed.

(** Strangers cannot fill the memory nor reuse an old code. Whatever people
    ask in whatever chats, interleaved with every other operation, at most 32
    requests are pending, each for a verified identity in a chat of a connected
    bot and one per person and chat, no two with the same code; a code that is
    answered belongs to exactly one of them and has not expired; and who asks is
    answered with the pending request kept for that person in that chat. *)
Theorem requests_bounded s s' : rtc system_step s s' → requests_ok (sy_memory s) →
  requests_ok (sy_memory s') ∧
  (∀ wanted now r m, TelegramRequest wanted now (sy_memory s') = (Ok r, m) →
     tm_requests (sy_memory s') !! tr_id r = Some r ∧ now < tr_expires r ∧ (tr_code r = ToUpper (TrimSpace wanted) ∨ tr_id r = wanted) ∧
     ∀ r', r' ∈ requests (sy_memory s') → tr_code r' = tr_code r → r' = r) ∧
  (∀ e now draws r b m w, requestTelegramAccess e now draws (sy_memory s') (sy_world s') = (Ok (Ok (r, b), m), w) →
     tm_requests m !! tr_id r = Some r ∧ tr_person r = ce_person e ∧ tr_target r = ce_target e).
Proof.
  intros Hreach Hok. assert (Hinv : requests_ok (sy_memory s')).
  { induction Hreach as [|s s1 s' Hstep _ IH]; [done|]. apply IH. clear IH. destruct Hstep; simpl; try done.
    - unfold telegramIdentity. destruct (bool_decide _); [done|]. split; simpl; try (intros ? ?; by rewrite ?lookup_empty). unfold telegramRequestCapacity. rewrite map_size_empty. lia.
    - unfold telegramIdentities. apply (requests_sub (sy_memory s)); [done|apply map_filter_subseteq|].
      intros i r [_ Hr]%map_lookup_filter_Some. simpl in Hr. by apply elem_of_list_to_set.
    - by apply requests_expire.
    - unfold run_telegram. destruct (requestTelegramAccess _ _ _ _ _) as [[[x m]|err] w] eqn:E; simpl; [|done]. by eapply requests_request.
    - unfold run_telegram. destruct (buildTelegramAccess _ _ _ _) as [[[x m]|err] w] eqn:E; simpl; [|done].
      apply build_memory in E as ->. by apply requests_expire.
    - unfold run_telegram. destruct (applyTelegramAccess _ _ _ _ _ _) as [[[x m]|err] w] eqn:E; simpl; [|done].
      apply apply_memory in E as [-> | ->]; [done|]. apply requests_shrink; [done|]. apply delete_subseteq. }
  split; [done|]. set (m0 := sy_memory s') in *. clearbody m0. split.
  - intros wanted now r m Hr. unfold TelegramRequest, TelegramAccessRequests in Hr. cbn [fst snd] in Hr.
    destruct (List.find _ _) as [r0|] eqn:Ef; [|done]. injection Hr as -> _. apply List.find_some in Ef as [Hin Hq].
    apply list_elem_of_In in Hin. rewrite merge_sort_Permutation in Hin. apply requests_elem in Hin as [i Hi].
    unfold expireTelegramRequests in Hi. simpl in Hi. apply map_lookup_filter_Some in Hi as [Hi Hexp]. simpl in Hexp.
    destruct (ro_valid m0 Hinv i r Hi) as (<- & _). split; [done|]. split; [done|]. split.
    { apply orb_true_iff in Hq as [Hq%bool_decide_eq_true|Hq%bool_decide_eq_true]; auto. }
    intros r' [j Hj]%requests_elem Hc. pose proof (ro_code m0 Hinv j (tr_id r) r' r Hj Hi Hc) as ->. congruence.
  - intros e now draws r b m w Hr. pose proof (requests_expire now m0 Hinv) as Hexp. unfold requestTelegramAccess in Hr.
    destruct (negb (_ && _ && _)); [done|]. destruct (negb (bool_decide _)); [done|]. cbv zeta in Hr.
    set (m1 := expireTelegramRequests now m0) in *. destruct (List.find _ _) as [[i r0]|] eqn:Ef.
    + apply List.find_some in Ef as [Hin%list_elem_of_In%elem_of_map_to_list Hsame]. simpl in Hsame.
      destruct (ro_valid m1 Hexp i r0 Hin) as (Hid & _). apply andb_true_iff in Hsame as [Hsame Hp%bool_decide_eq_true].
      apply andb_true_iff in Hsame as [Ht%bool_decide_eq_true _].
      destruct (_ <=? _); apply ret_ok in Hr as [[= <- <- <-] _]; simpl; [|by rewrite Hid]. rewrite Hid, lookup_insert_eq. done.
    + destruct (_ <=? _)%nat; [done|]. destruct (new_code _ _) as [c|err]; [|done].
      apply bind_ok in Hr as (i & w1 & _ & [[= <- <- <-] _]%ret_ok). simpl. by rewrite lookup_insert_eq.
Qed.
End methods.

(** ** Witnesses *)
Module TelegramDemo.
Export Demo FilePolicyDemo.
#[export] Existing Instances Demo.host Demo.checks FilePolicyDemo.disk RoutingDemo.models RoutingDemo.words.
Definition chat : ChannelTarget := mkChannelTarget "telegram" "777" "42".
Definition ann : string := "telegram:user:42".
Definition idle : Supervisor := mkSupervisor None (λ _, None).
Definition env : Env := mkEnv ProfileDemo.config "/home/u/data" false PermissionNone false {["777"]}.
Definition bots : TelegramMemory := telegramIdentity "777" (mkTelegram "" ∅ ∅).
Definition begin : system := mkSystem bots empty.
Definition draws : list (res (list nat)) := [Ok (seq 0 8)].
Definition requested : system := run_telegram (requestTelegramAccess (mkEvent chat ann "Ann" "private") 0 draws bots) begin.
Definition propose (c : TelegramAccessChange) (s : system) : controlRecord :=
  match (buildTelegramAccess c 1 (sy_memory s) (sy_world s)).1 with Ok (Ok r, _) => r | _ => mkControl c None end.
Definition apply_to (r : controlRecord) (s : system) : system := run_telegram (applyTelegramAccess idle r "/w" 2 (sy_memory s)) s.
Definition change (code : string) (enabled : bool) : TelegramAccessChange :=
  mkAccessChange code "" chat "private" enabled false [ann] "Ann's chat".
Definition first : controlRecord := propose (change "23456789" true) requested.
Definition granted : system := apply_to first requested.
Definition second : controlRecord := propose (change "" false) granted.
Definition disabled : system := apply_to second granted.
Definition third : controlRecord := propose (change "" true) disabled.
Definition regranted : system := apply_to third disabled.
Definition source : ChannelMessageSource := mkChannelMessageSource [] chat ann "Ann" "m-1" "request".
Definition received := ReceiveChannelText source "hello" "" "/w" (sy_world granted).
Definition got : ChannelReceived := match received.1 with Ok r => r | Err _ => mkReceived "" 0 "" true None None "" [] end.
Definition origin : ChannelRunOrigin := match cr_origin got with Some o => o | None => mkChannelRunOrigin 0 chat 0 0 "" end.
Definition permission : PermissionSelection := sel_person ann "telegram" PermissionNone PermissionNone (no_permission "i").
Definition old_run : Run := mkRun "r" "c" "" "hello" (mkRunConfig "" "" [] (Some origin) no_selection (Some permission) None "/w" 16) Running "" 0 0 "" "" "" "" 0 0.
Definition grant_of (s : system) : TelegramAccess :=
  match meta (w_db (sy_world s)) !! telegramAccessKey chat with Some (MAccess g) => g | _ => no_access end.
Lemma granted_at s : option_map (λ v, match v with MAccess _ => true | _ => false end) (meta (w_db (sy_world s)) !! telegramAccessKey chat) = Some true →
  grant_at chat (w_db (sy_world s)) (grant_of s).
Proof. unfold grant_at, grant_of. destruct (_ !! _) as [[]|]; by intros [= ]. Qed.
Lemma apply_system_step r s : system_step s (apply_to r s).
Proof. exact (sy_apply s idle r "/w" 2). Qed.
Lemma reach_requested : rtc system_step begin requested.
Proof. exact (rtc_once _ _ (sy_request begin (mkEvent chat ann "Ann" "private") 0 draws)). Qed.
Lemma bots_ok : requests_ok bots.
Proof. split; simpl; try (intros ? ?; by rewrite ?lookup_empty). rewrite map_size_empty. unfold telegramRequestCapacity. lia. Qed.
Lemma wf_disabled : db_wf (w_db (sy_world disabled)).
Proof.
  apply (system_wf begin disabled); [|exact wf_empty]. etrans; [exact reach_requested|].
  etrans; [exact (rtc_once _ _ (apply_system_step first requested))|exact (rtc_once _ _ (apply_system_step second granted))].
Qed.
Lemma applied_first : ∃ a m w, applyTelegramAccess idle first "/w" 2 (sy_memory requested) (sy_world requested) = (Ok (Ok a, m), w) ∧
  ta_revision (ap_grant a) = 1.
Proof. eexists _, _, _. split; vm_compute; reflexivity. Qed.
Lemma received_ok : ReceiveChannelText source "hello" "" "/w" (sy_world granted) = (Ok got, received.2) ∧ cr_duplicate got = false.
Proof. split; vm_compute; reflexivity. Qed.
End TelegramDemo.
Import TelegramDemo.

Lemma requests_bounded_witness :
  size (tm_requests (sy_memory requested)) = 1%nat ∧
  ∀ r', r' ∈ requests (sy_memory requested) → tr_code r' = "23456789" → tr_person r' = ann.
Proof.
  split; [vm_compute; reflexivity|]. destruct (requests_bounded begin requested reach_requested bots_ok) as (_ & Hcode & _).
  destruct (TelegramRequest " 23456789 " 5 (sy_memory requested)) as [[r|e] m] eqn:E; [|vm_compute in E; discriminate E].
  destruct (Hcode _ _ _ _ E) as (_ & _ & _ & Hu). intros r' Hr' Hc.
  assert (Er : tr_code r = "23456789" ∧ tr_person r = ann) by (vm_compute in E; injection E as <- _; split; vm_compute; reflexivity).
  destruct Er as [E1 E2]. rewrite (Hu r' Hr'); [exact E2|]. rewrite Hc, E1. reflexivity.
Defined.

Lemma applied_grant_witness :
  ta_members (grant_of granted) = [ann] ∧ tm_requests (sy_memory granted) = ∅.
Proof.
  split; [vm_compute; reflexivity|].
  destruct (applyTelegramAccess idle first "/w" 2 (sy_memory requested) (sy_world requested)) as [[[[a|e] m]|e] w] eqn:E; [|vm_compute in E; discriminate E..].
  assert (Em : sy_memory granted = m). { unfold granted, apply_to, run_telegram. rewrite E. reflexivity. }
  pose proof (applied_grant idle first "/w" 2 (sy_memory requested) a m (sy_world requested) w E) as (_ & _ & Hd & _).
  rewrite Em, Hd. vm_compute. reflexivity.
Defined.

Lemma superseded_stays_revoked_witness :
  (checkTelegramRun env old_run (sy_world granted)).1 = Ok tt ∧ (checkTelegramRun env old_run (sy_world regranted)).1 ≠ Ok tt.
Proof.
  split; [vm_compute; reflexivity|]. intros E.
  destruct (superseded_stays_revoked chat 1 disabled regranted (grant_of disabled) old_run origin permission wf_disabled) as [_ Hs].
  - apply nsteps_once. split; [exact (apply_system_step third disabled)|]. exists (grant_of regranted). apply granted_at. vm_compute. reflexivity.
  - apply granted_at. vm_compute. reflexivity.
  - apply Z.leb_le. vm_compute. reflexivity.
  - apply Z.ltb_lt. vm_compute. reflexivity.
  - reflexivity.
  - reflexivity.
  - vm_compute. reflexivity.
  - reflexivity.
  - apply Z.ltb_lt. vm_compute. reflexivity.
  - destruct Hs as (_ & Hs & _); [vm_compute; discriminate|]. apply (Hs env (checkTelegramRun env old_run (sy_world regranted)).2).
    rewrite <- E. destruct (checkTelegramRun env old_run (sy_world regranted)); reflexivity.
Defined.

(** Deleting the space of a chat forgets the revision of its grant: granting
    access anew starts at revision 1, at which a run of the first grant passes
    the check again, and its text may be sent. *)
Definition deleted_space : system := mkSystem (sy_memory disabled) (DeleteSpace (ta_space (grant_of disabled)) (sy_world disabled)).2.
Definition revived : system := apply_to (propose (change "" true) deleted_space) deleted_space.
Example deleted_space_revives :
  ta_revision (grant_of disabled) = 2 ∧ (checkTelegramRun env old_run (sy_world disabled)).1 = Err ErrPermissionRevoked ∧
  ta_revision (grant_of revived) = 1 ∧ (checkTelegramRun env old_run (sy_world revived)).1 = Ok tt ∧
  (sendRunText_check (sy_memory revived) old_run chat (sy_world revived)).1 = Ok tt.
Proof. vm_compute. split_and!; reflexivity. Qed.
