(* ===== verification/ChannelProps.v ===== *)
(** * What the channels guarantee

    A message of a channel is recorded once and starts at most one run; a button
    pressed in a chat is honoured only for the run's own chat and for people who
    still have what the run was granted. *)

From S2P Require Import Prelude Text Data Sql Store StoreInv Space SpaceInv StoreProps SpaceProps Workspace Profile ProfileProps FilePolicy FilePolicyProps Permission PermissionProps Channel Telegram Model Routing RoutingProps System TelegramProps.

Section methods.
Context {H : Host} {RC : ReadChecks} {D : Disk} {MH : ModelHost} {RH : RoutingHost}.

(** ** Receiving *)
Lemma message_by_key_none key d : key ≠ "" → message_by_key key d = None ↔ key ∉ keyed d.
Proof.
  intros Hk. unfold message_by_key, keyed. rewrite list_elem_of_filter, list_elem_of_fmap. split.
  - intros Hf [_ (m & -> & Hm)]. apply list_elem_of_In in Hm. apply (List.find_none _ _ Hf) in Hm. by apply bool_decide_eq_false in Hm.
  - intros Hn. destruct (List.find _ _) as [m|] eqn:E; [|done]. apply List.find_some in E as [Hm%list_elem_of_In <-%bool_decide_eq_true].
    exfalso. apply Hn. eauto.
Qed.
Lemma requestKey_nonempty s : requestKey s ≠ "".
Proof. done. Qed.

(** A statement that leaves the messages alone. *)
Definition MessagesSame {A} (m : M A) : Prop := ∀ w, messages (w_db (m w).2) = messages (w_db w).
Lemma ms_bind {A B} (m : M A) (f : A → M B) : MessagesSame m → (∀ a, MessagesSame (f a)) → MessagesSame (m ≫= f).
Proof. intros Hm Hf w. specialize (Hm w). unfold mbind, M_bind. destruct (m w) as [[a|e] w1]; simpl in *; [by rewrite Hf|done]. Qed.
Lemma ms_reads {A} (m : M A) : Reads m → MessagesSame m.
Proof. intros Hm w. by rewrite Hm. Qed.
Lemma ms_write f : (∀ d, messages (f d) = messages d) → MessagesSame (write f).
Proof. intros Hf w. apply Hf. Qed.
Lemma ms_nowText : MessagesSame nowText. Proof. done. Qed.
Lemma ms_newID : MessagesSame newID. Proof. done. Qed.
Lemma ms_meta_insert_once k v : MessagesSame (meta_insert_once k v).
Proof.
  intros w. unfold meta_insert_once, meta_insert. rewrite bind_query. unfold id. destruct (meta _ !! k) eqn:E; [done|].
  unfold mbind, M_bind. simpl. rewrite E. by rewrite bool_decide_eq_true_2.
Qed.
Lemma ms_touch_conversation c now : MessagesSame (touch_conversation c now).
Proof. done. Qed.
Lemma ms_insert_conversation c : MessagesSame (insert_conversation c).
Proof. intros w. unfold insert_conversation. rewrite bind_query. unfold id, mbind, M_bind. by destruct (_ && _). Qed.
Lemma ms_update_spaces p f : MessagesSame (update_spaces p f).
Proof.
  intros w. unfold update_spaces. rewrite bind_query. unfold id, mbind, M_bind.
  destruct (change_spaces (update_rows p f) w) as [[[]|e] w1] eqn:E; [apply change_spaces_ok in E as [_ ->]|apply change_spaces_err in E as ->]; done.
Qed.
Lemma ms_receive_conversation s r wd : MessagesSame (receive_conversation s r wd).
Proof.
  unfold receive_conversation. apply ms_bind; [apply ms_reads; solve_reads; by intros w|intros chat].
  destruct (bool_decide _); [|by apply ms_reads]. apply ms_bind; [apply ms_newID|intros i]. apply ms_bind; [apply ms_nowText|intros now].
  apply ms_bind; [apply ms_insert_conversation|intros []]. apply ms_bind; [apply ms_update_spaces|intros n]. by apply ms_reads.
Qed.
Lemma insert_keyed_message_ok chat key b i w w' : insert_keyed_message chat key b w = (Ok i, w') →
  message_by_key key (w_db w) = None ∧ messages (w_db w') = messages (w_db w) ++ [mkMessage i chat None key b].
Proof.
  unfold insert_keyed_message. intros Hm. apply bind_ok in Hm as (c & w1 & [Hc <-]%query_row_ok & Hm). rewrite bind_query in Hm.
  apply bind_ok in Hm as ([] & w1 & [Hg%bool_decide_eq_true <-]%guard_ok & Hm). split; [done|].
  apply bind_ok in Hm as ([] & w1 & Hi & [<- <-]%ret_ok). unfold insert_message_once in Hi.
  apply bind_ok in Hi as (c' & w2 & [Hc' <-]%query_row_ok & Hi). rewrite bind_query in Hi. apply write_ok in Hi as ->. unfold id in *.
  rewrite Hc in Hc'. injection Hc' as <-. destruct (existsb _ _) eqn:E; [|done]. exfalso.
  apply existsb_exists in E as (m & Hin & Hk). unfold message_by_key in Hg. apply (List.find_none _ _ Hg) in Hin. by rewrite Hk in Hin.
Qed.

(** What a message that is new leaves behind. *)
Definition received_message (i : Z) (chat : string) (source : ChannelMessageSource) (text : string) : Message :=
  mkMessage i chat None (requestKey source) (mkModelMessage false [] (Some source) true "user" text "" "" []).
Lemma receive_ok source text replay wd r w w' : ReceiveChannelText source text replay wd w = (Ok r, w') →
  (cr_duplicate r = true ∧ cr_origin r = None ∧ w_db w' = w_db w) ∨
  (cr_duplicate r = false ∧ requestKey source ∉ keyed (w_db w) ∧
   messages (w_db w') = messages (w_db w) ++ [received_message (cr_message r) (cr_conversation r) source text] ∧
   ∃ rev, cr_origin r = Some (mkChannelRunOrigin rev (cs_target source) (cr_message r) (cr_message r) (requestKey source)) ∧
   cr_source r = Some source).
Proof.
  unfold ReceiveChannelText. intros Hm. apply bind_ok in Hm as ([] & w1 & [_ <-]%guard_ok & Hm).
  apply bind_ok in Hm as (access & w1 & Ha & Hm).
  assert (w1 = w) as ->. { eapply reads_ok; [|exact Ha]. destruct (bool_decide _); [apply reads_CheckTelegramAccess|done]. }
  rewrite transaction_ok, bind_query in Hm. unfold id in Hm. destruct (message_by_key _ _) as [m|] eqn:Ek.
  { apply ret_ok in Hm as [<- <-]. by left. }
  right. apply bind_ok in Hm as (space & w1 & Hs & Hm). apply scanSpace_ok in Hs as [_ ->].
  apply bind_ok in Hm as (chat & w1 & Hc & Hm). pose proof (ms_receive_conversation space replay wd w) as E1. rewrite Hc in E1.
  apply bind_ok in Hm as (i & w2 & Hi & Hm). apply insert_keyed_message_ok in Hi as [_ E2].
  apply bind_ok in Hm as (now & w3 & Hn & Hm). apply nowText_ok in Hn.
  apply bind_ok in Hm as ([] & w4 & Ht & Hm). pose proof (ms_touch_conversation chat now w3) as E3. rewrite Ht in E3.
  apply bind_ok in Hm as ([] & w5 & Hp & [<- <-]%ret_ok). cbn [cr_duplicate cr_message cr_conversation cr_origin cr_source].
  split; [done|]. split; [by apply message_by_key_none in Ek|]. split; [|eauto].
  assert (E4 : messages (w_db w5) = messages (w_db w4)).
  { match goal with Hp : ?p w4 = _ |- _ => assert (Hms : MessagesSame p); [|specialize (Hms w4); by rewrite Hp in Hms] end.
    destruct (bool_decide _); [by apply ms_reads|]. apply ms_bind; [apply ms_nowText|intros n].
    apply ms_bind; [apply ms_meta_insert_once|intros b]. by apply ms_reads. }
  simpl in E1, E3. rewrite E4, E3, Hn, E2, E1. done.
Qed.

(** A message of a channel is recorded once. When it is new, exactly one
    message is appended to the conversation, and the run it starts is bound to
    it. Whatever happens afterwards, in any interleaving of the operations of
    the store and the bots and through restarts, receiving it again, also from
    another conversation, changes nothing and yields no input that could be
    submitted; and the keys of messages stay unique. *)
Theorem received_once source text replay wd r w w1 :
  ReceiveChannelText source text replay wd w = (Ok r, w1) → cr_duplicate r = false →
  messages (w_db w1) = messages (w_db w) ++ [received_message (cr_message r) (cr_conversation r) source text] ∧
  (∀ o, cr_origin r = Some o → co_input_message o = cr_message r ∧ co_history_through o = cr_message r ∧ co_target o = cs_target source) ∧
  ∀ bots s, rtc system_step (mkSystem bots w1) s →
    (NoDup (keyed (w_db w)) → NoDup (keyed (w_db (sy_world s)))) ∧
    ∀ source' text' replay' wd', requestKey source' = requestKey source →
      match ReceiveChannelText source' text' replay' wd' (sy_world s) with
      | (Ok r', w') => w_db w' = w_db (sy_world s) ∧ cr_duplicate r' = true ∧ ∀ q, SubmitChannel r' ≠ Ok q
      | (Err _, w') => w_db w' = w_db (sy_world s)
      end.
Proof.
  intros Hr Hd. pose proof Hr as Hok. apply receive_ok in Hok as [(Hd' & _)|(_ & Hnew & Em & rev & Eo & Es)]; [congruence|].
  split; [done|]. split. { intros o Ho. rewrite Eo in Ho. by injection Ho as <-. }
  intros bots s Hreach. apply (system_reach keys_grow) in Hreach as [Hn Hk]. simpl in Hn, Hk.
  assert (Hin : requestKey source ∈ keyed (w_db (sy_world s))).
  { apply Hk. unfold keyed. rewrite Em, map_app, filter_app. apply elem_of_app. right. simpl. rewrite filter_cons_True by done. by left. }
  split.
  { intros Hu. apply Hn. unfold keyed in *. rewrite Em, map_app, filter_app. simpl. rewrite filter_cons_True by done. rewrite filter_nil.
    apply NoDup_app. split; [done|]. split; [|apply NoDup_singleton]. by intros x Hx ->%list_elem_of_singleton. }
  intros source' text' replay' wd' Ekey. destruct (ReceiveChannelText source' text' replay' wd' (sy_world s)) as [[r'|e] w'] eqn:E.
  - apply receive_ok in E as [(H1 & H2 & H3)|(_ & Hno & _)]; [|by rewrite Ekey in Hno]. split; [done|]. split; [done|].
    intros q. unfold SubmitChannel. by rewrite H2.
  - unfold ReceiveChannelText in E. apply bind_err in E as [E|([] & w2 & [_ <-]%guard_ok & E)].
    { unfold guard_ in E. destruct (_ && _); [done|]. by injection E as _ <-. }
    apply bind_err in E as [E|(access & w2 & Ha & E)].
    { eapply reads_ok in E; [by rewrite E|]. destruct (bool_decide _); [apply reads_CheckTelegramAccess|done]. }
    apply transaction_err in E. rewrite E. eapply reads_ok in Ha; [by rewrite Ha|]. destruct (bool_decide _); [apply reads_CheckTelegramAccess|done].
Qed.

(** ** Buttons *)
Lemma permissionRank_zero m : (permissionRank m <= 0)%Z → (0 <= permissionRank m)%Z → m = PermissionNone.
Proof. unfold permissionRank. repeat case_bool_decide; try lia. done. Qed.

(** The last decision of [CheckChannelRunAction], with the permission the person
    has now. *)
Lemma action_decision action person (p : PermissionSelection) effective (r run : Run) w w' : (0 <= permissionRank effective)%Z →
  (if bool_decide (action = "stop") && (bool_decide (person = ps_person p) || negb (bool_decide (effective = PermissionNone)))
   then mret r
   else _ ← guard_ (negb ((permissionRank effective <? permissionRank (ps_mode p))%Z
                          || bool_decide (action = "approve") && bool_decide (effective = PermissionNone))) ErrPermissionDenied;
        mret r) w = (Ok run, w') →
  r = run ∧ w' = w ∧
  (action ≠ "stop" → (permissionRank (ps_mode p) <= permissionRank effective)%Z ∧ (action = "approve" → (0 < permissionRank effective)%Z)) ∧
  (action = "stop" → person = ps_person p ∨ (0 < permissionRank effective)%Z ∨ (permissionRank (ps_mode p) <= permissionRank effective)%Z).
Proof.
  intros Hpos Hm. assert (Hnone : effective ≠ PermissionNone → (0 < permissionRank effective)%Z).
  { intros Hn. destruct (Z.le_gt_cases (permissionRank effective) 0); [|lia]. exfalso. by apply Hn, permissionRank_zero. }
  destruct (bool_decide (action = "stop") && _) eqn:Estop.
  - apply ret_ok in Hm as [-> <-]. apply andb_true_iff in Estop as [->%bool_decide_eq_true Hor]. split_and!; try done.
    intros _. apply orb_true_iff in Hor as [?%bool_decide_eq_true|?%negb_true_iff%bool_decide_eq_false]; auto.
  - apply bind_ok in Hm as ([] & w1 & [Hle <-]%guard_ok & [-> <-]%ret_ok). apply negb_true_iff, orb_false_iff in Hle as [Hle Happ].
    split; [done|]. split; [done|]. split; [intros _; split; [lia|]|intros _; right; right; lia].
    intros ->. apply Hnone. intros ->. discriminate Happ.
Qed.

(** C21: A button pressed in a chat has no authority of its own. It is honoured
    only for a run that was started from this very chat, and, in Telegram, while
    the run's own grant is current and the person is let into the chat. Anything
    but stopping it is for the person who started the run, who must still have,
    in this space and in person, at least what the run was granted; a stop is
    for that person, for somebody who may do something in the space, or for
    anybody let in when the run was granted no more than that. *)
Theorem channel_action_authorised e target person id action run w w' :
  CheckChannelRunAction e target person id action w = (Ok run, w') →
  w' = w ∧ find_run id (w_db w) = Some run ∧
  ∃ o p s, rc_channel (run_config run) = Some o ∧ co_target o = target ∧ rc_permission (run_config run) = Some p ∧ person ≠ "" ∧
    find_external (ct_source target) (target_key target) (w_db w) = Some s ∧
    let allowed := Z.min (permissionRank (space_mode (w_db w) (sp_id s))) (permissionRank (person_mode (w_db w) person)) in
    (ct_source target = "telegram" →
       (∃ g, grant_at target (w_db w) g ∧ ta_enabled g = true ∧ (ta_whole_group g = true ∨ person ∈ ta_members g) ∧
             (ps_person p ≠ "" → ta_revision g = co_revision o))) ∧
    (action ≠ "stop" → person = ps_person p ∧ (permissionRank (ps_mode p) <= allowed)%Z ∧ (action = "approve" → (0 < allowed)%Z)) ∧
    (action = "stop" → person = ps_person p ∨ (0 < allowed)%Z ∨ (permissionRank (ps_mode p) <= allowed)%Z).
Proof.
  unfold CheckChannelRunAction. intros Hm. apply bind_ok in Hm as ([r o'] & w1 & Hr%or_else_ok & Hm).
  unfold ChannelRun in Hr. apply bind_ok in Hr as (r' & w2 & [Hf <-]%query_row_ok & [[= <- <-] <-]%ret_ok). cbv zeta in Hm. cbn [fst snd] in Hm.
  apply bind_ok in Hm as ([] & w1 & [Ho <-]%guard_ok & Hm). unfold channelOriginFromJSON in Ho.
  destruct (rc_channel (run_config r')) as [o|] eqn:Eo; [|done]. apply bool_decide_eq_true in Ho.
  apply bind_ok in Hm as ([] & w1 & Hrun & Hm). pose proof (reads_ok _ _ _ _ (reads_checkTelegramRun _ _) Hrun) as ->.
  apply bind_ok in Hm as ([] & w1 & Haccess & Hm).
  assert (w1 = w ∧ (ct_source target = "telegram" → ∃ g w2, CheckTelegramAccess target person w = (Ok g, w2))) as [-> Hg].
  { destruct (decide (ct_source target = "telegram")) as [E|E].
    - rewrite (bool_decide_eq_true_2 _ E) in Haccess. apply bind_ok in Haccess as (g & w2 & Hg & [_ <-]%ret_ok).
      pose proof (reads_ok _ _ _ _ (reads_CheckTelegramAccess _ _) Hg) as ->. eauto.
    - rewrite (bool_decide_eq_false_2 _ E) in Haccess. apply ret_ok in Haccess as [_ <-]. done. }
  destruct (rc_permission (run_config r')) as [p|] eqn:Ep; [|done].
  apply bind_ok in Hm as ([] & w1 & [Hperson <-]%guard_ok & Hm). apply andb_true_iff in Hperson as [Hne%negb_true_iff%bool_decide_eq_false Hwho].
  apply bind_ok in Hm as (s & w1 & Hs & Hm). unfold ChannelSpace in Hs. apply bind_ok in Hs as ([] & w2 & [_ <-]%guard_ok & [Hs ->]%scanSpace_ok).
  apply bind_ok in Hm as (ps & w1 & Hps & Hm). apply spacePermission_ok in Hps as (-> & _ & _ & Esp & Hsp).
  apply bind_ok in Hm as (pp & w1 & Hpp & Hm). apply PersonPermission_ok in Hpp as (-> & Epp & Hpp).
  assert (Heff : permissionRank (lowerPermission (ps_mode ps) (pp_mode pp)) =
    Z.min (permissionRank (space_mode (w_db w) (sp_id s))) (permissionRank (person_mode (w_db w) person))).
  { rewrite rank_lower_pos by done. rewrite <- Esp, <- Epp. lia. }
  assert (Hpos : (0 <= permissionRank (lowerPermission (ps_mode ps) (pp_mode pp)))%Z) by (rewrite Heff, <- Esp, <- Epp; lia).
  apply (action_decision _ _ _ _ _ _ _ _ Hpos) in Hm as (<- & -> & Hother & Hstop).
  split; [done|]. split; [done|]. exists o, p, s. cbv zeta. rewrite <- Heff.
  split; [done|]. split; [done|]. split; [done|]. split; [done|]. split; [done|]. split; [|split].
  - intros Ht. destruct (Hg Ht) as (g & w2 & Hacc). apply CheckTelegramAccess_ok in Hacc as (_ & Hgrant & He & Hmem & _); [|done].
    exists g. split; [done|]. split; [done|]. split; [done|]. intros Hpers.
    apply (checkTelegramRun_ok e r' o) in Hrun as (_ & p' & Hp' & Hc); [|done|by rewrite Ho]. rewrite Ep in Hp'. injection Hp' as <-.
    destruct (Hc Hpers) as (g' & Hg' & Hrev & _). rewrite Ho in Hg'. unfold grant_at in *. congruence.
  - intros Ha. destruct (Hother Ha) as [H1 H2]. split; [|done].
    apply orb_true_iff in Hwho as [?%bool_decide_eq_true|?%bool_decide_eq_true]; done.
  - exact Hstop.
Qed.
End methods.

(** ** Witnesses *)
Module ChannelDemo.
Export TelegramDemo.
#[export] Existing Instances Demo.host Demo.checks FilePolicyDemo.disk RoutingDemo.models RoutingDemo.words.
Definition again : ChannelMessageSource := mkChannelMessageSource [] chat ann "Ann B." "m-1" "request".
Definition started : world :=
  (createRunWithTool "local" "" (cr_conversation got) (co_request_key origin) "hello"
     (mkRunConfig "" "" [] (Some origin) no_selection (Some permission) None "/w" 16) false None received.2).2.
Definition the_run : Run := match runs (w_db started) with r :: _ => r | [] => old_run end.
Lemma reach_started m : rtc system_step (mkSystem m received.2) (mkSystem m started).
Proof.
  exact (rtc_once _ _ (sy_store (mkSystem m received.2) started (os_run _ _ (os_createRun received.2 "local" "" (cr_conversation got)
    (co_request_key origin) "hello" (mkRunConfig "" "" [] (Some origin) no_selection (Some permission) None "/w" 16) false None)))).
Qed.
Lemma stopped : CheckChannelRunAction env chat ann (run_id the_run) "stop" started = (Ok the_run, started).
Proof. vm_compute. reflexivity. Qed.
End ChannelDemo.
Import ChannelDemo.
Lemma length_snoc {A} (l : list A) x : length (l ++ [x]) = S (length l).
Proof. rewrite length_app. apply Nat.add_comm. Qed.

Lemma received_once_witness :
  length (messages (w_db received.2)) = S (length (messages (w_db (sy_world granted)))) ∧
  w_db (ReceiveChannelText again "other text" "" "/w" started).2 = w_db started ∧
  (ReceiveChannelText again "other text" "" "/w" started).1 ≠ Err ErrPermissionDenied.
Proof.
  destruct (received_once source "hello" "" "/w" got (sy_world granted) received.2 (proj1 received_ok) (proj2 received_ok)) as (Hm & _ & Hafter).
  split; [rewrite Hm; exact (length_snoc _ _)|].
  destruct (Hafter (sy_memory granted) _ (reach_started (sy_memory granted))) as [_ Hsame].
  specialize (Hsame again "other text" "" "/w" eq_refl). cbn [sy_world] in Hsame. split; [|vm_compute; discriminate].
  destruct (ReceiveChannelText again "other text" "" "/w" started) as [[r|e] w]; [exact (proj1 Hsame)|exact Hsame].
Defined.

Lemma channel_action_authorised_witness :
  (∃ g, grant_at chat (w_db started) g ∧ ta_revision g = co_revision origin ∧ ann ∈ ta_members g) ∧
  (CheckChannelRunAction env chat "telegram:user:7" (run_id the_run) "stop" started).1 = Err ErrPermissionDenied.
Proof.
  split; [|vm_compute; reflexivity].
  destruct (channel_action_authorised env chat ann (run_id the_run) "stop" the_run started started stopped)
    as (_ & _ & o & p & s & Ho & _ & Hp & _ & _ & Hg & _). vm_compute in Hp. injection Hp as <-. vm_compute in Ho. injection Ho as <-.
  destruct (Hg eq_refl) as (g & Hat & _ & Hmem & Hrev). exists g. split; [exact Hat|]. split; [apply Hrev; discriminate|].
  destruct Hmem as [Hw|Hmem]; [|exact Hmem]. unfold grant_at in Hat. vm_compute in Hat. injection Hat as <-. discriminate Hw.
Defined.
