(* ===== verification/Ledger.v ===== *)
(** * The ledger of calls

    The abstract specification of what the store promises about the calls of
    runs, to models, tools and workflows: a ledger in which every call has a
    fixed identity and goes from waiting over in flight to finished or
    uncertain, at most once through each. The store, with everything around it,
    refines it: each step of the machine of System.v is a sequence of steps of
    the ledger. *)

From S2P Require Import Prelude Text Data Sql Store StoreInv Space SpaceInv StoreProps Workspace Profile FilePolicy FilePolicyProps Permission Channel Telegram Model Routing RoutingProps System.

(** ** The specification *)

(** What a call is, and how far it is. *)
Record Call := mkCall { call_run : string; call_kind : AttemptKind; call_name : string; call_request : AttemptRequest; call_seq : Z }.
Inductive Phase := Waiting | InFlight | Finished | Uncertain.
Definition settled (p : Phase) : bool := match p with Finished | Uncertain => true | _ => false end.
Notation Ledger := (gmap string (Call * Phase)).

Inductive call_step (L : Ledger) : Ledger → Prop :=
| cs_open id c p : L !! id = None → settled p = false → call_step L (<[id := (c, p)]> L)
| cs_dispatch id c : L !! id = Some (c, Waiting) → call_step L (<[id := (c, InFlight)]> L)
| cs_settle id c p p' : L !! id = Some (c, p) → settled p' = true → call_step L (<[id := (c, p')]> L).

(** The specification's own promises: calls are never forgotten or changed, and
    what is settled is never in flight again. *)
Definition call_evolves (L L' : Ledger) : Prop :=
  ∀ id c p, L !! id = Some (c, p) → ∃ p', L' !! id = Some (c, p') ∧ (settled p = true → settled p' = true) ∧ (p' = Waiting → p = Waiting).
Lemma ledger_evolves L L' : rtc call_step L L' → call_evolves L L'.
Proof.
  induction 1 as [L|L L1 L' Hs _ IH]; intros id c p Hl; [eauto|].
  assert (Hone : ∃ p1, L1 !! id = Some (c, p1) ∧ (settled p = true → settled p1 = true) ∧ (p1 = Waiting → p = Waiting)).
  { destruct Hs as [i d q Hn Hq|i d Hd|i d q q' Hd Hq]; (destruct (decide (i = id)) as [->|Hne];
      [rewrite Hl in *; simplify_eq; eexists; rewrite lookup_insert_eq; (split; [done|])
      |exists p; rewrite lookup_insert_ne by done; done]).
    - by split.
    - split; [done|]. by intros ->. }
  destruct Hone as (p1 & H1 & A1 & B1). destruct (IH id c p1 H1) as (p' & H' & A & B). exists p'. split; [done|]. split; auto.
Qed.

(** Moving entries along, each at most once, is a sequence of steps. *)
Definition call_move (x y : Call * Phase) : Prop :=
  x = y ∨ x.1 = y.1 ∧ (x.2 = Waiting ∧ y.2 = InFlight ∨ settled y.2 = true).
Lemma moves_rtc (ks : list string) (L L' : Ledger) :
  (∀ i, i ∉ ks → L !! i = L' !! i) →
  (∀ i, match L !! i, L' !! i with Some x, Some y => call_move x y | None, None => True | _, _ => False end) →
  rtc call_step L L'.
Proof.
  revert L. induction ks as [|k ks IH]; intros L Hout Hin.
  { assert (L = L') as ->; [|done]. apply map_eq. intros i. apply Hout, not_elem_of_nil. }
  destruct (L !! k) as [x|] eqn:Ex.
  2: { apply IH; [|done]. intros i Hi. destruct (decide (i = k)) as [->|Hne]; [|apply Hout; by intros [?|?]%elem_of_cons].
       specialize (Hin k). rewrite Ex in Hin |- *. by destruct (L' !! k). }
  pose proof (Hin k) as Hk. rewrite Ex in Hk. destruct (L' !! k) as [y|] eqn:Ey; [|done].
  transitivity (<[k := y]> L).
  - destruct x as [c p], y as [c' p'], Hk as [[= -> ->]|[Hc [[Hp Hp']|Hp']]]; simpl in *; subst.
    + by rewrite insert_id.
    + by apply rtc_once, cs_dispatch.
    + by apply rtc_once, (cs_settle _ _ _ p).
  - apply IH.
    + intros i Hi. destruct (decide (i = k)) as [->|Hne]; [by rewrite lookup_insert_eq|]. rewrite lookup_insert_ne by done.
      apply Hout. by intros [?|?]%elem_of_cons.
    + intros i. destruct (decide (i = k)) as [->|Hne]; [rewrite lookup_insert_eq, Ey; by left|]. rewrite lookup_insert_ne by done. apply Hin.
Qed.

(** ** The store refines it *)
Definition phase_of (s : AttemptStatus) : Phase :=
  match s with APending => Waiting | ADispatched => InFlight | AFinished => Finished | AUnknown => Uncertain end.
Definition entry (a : Attempt) : Call * Phase :=
  (mkCall (att_run a) (att_kind a) (att_call a) (att_request a) (att_seq a), phase_of (att_status a)).
Definition ledger (l : list Attempt) : Ledger := list_to_map (map (λ a, (att_id a, entry a)) l).

Lemma ledger_keys l : (map (λ a, (att_id a, entry a)) l).*1 = map att_id l.
Proof. induction l as [|a l IH]; [done|]. simpl. by f_equal. Qed.
Lemma ledger_lookup l a : NoDup (map att_id l) → a ∈ l → ledger l !! att_id a = Some (entry a).
Proof.
  intros Hn Ha. apply elem_of_list_to_map_1; [by rewrite ledger_keys|]. apply list_elem_of_fmap. eauto.
Qed.
Lemma ledger_none l i : i ∉ map att_id l → ledger l !! i = None.
Proof. intros Hi. apply not_elem_of_list_to_map_1. by rewrite ledger_keys. Qed.

Lemma entry_move a b : att_le a b → call_move (entry a) (entry b).
Proof.
  intros [H1 H2 H3 H4 H5 H6 H7 _ _]. unfold call_move, entry. simpl. rewrite H2, H3, H4, H5, H6.
  destruct (att_status a), (att_status b); simpl in *; auto; lia.
Qed.
Lemma ledger_update l p f : NoDup (map att_id l) → att_update_on l p f → rtc call_step (ledger l) (ledger (update_rows p f l)).
Proof.
  intros Hn Hf. assert (Hid : map att_id (update_rows p f l) = map att_id l).
  { unfold update_rows. rewrite map_map. apply map_ext_in. intros a Ha%list_elem_of_In. destruct (p a) eqn:E; [by apply (al_id _ _ (Hf a Ha E))|done]. }
  apply (moves_rtc (map att_id l)).
  - intros i Hi. rewrite !ledger_none; [done|by rewrite Hid|done].
  - intros i. destruct (decide (i ∈ map att_id l)) as [Hi|Hi]; [|rewrite !ledger_none; [done|by rewrite Hid|done]].
    apply list_elem_of_fmap in Hi as (a & -> & Ha). rewrite ledger_lookup by done.
    set (b := if p a then f a else a). assert (Hb : b ∈ update_rows p f l) by (apply elem_of_update_rows; eauto).
    assert (Hle : att_le a b) by (unfold b; destruct (p a) eqn:E; [by apply Hf|reflexivity]).
    rewrite <- (al_id _ _ Hle), ledger_lookup; [|by rewrite Hid|done]. by apply entry_move.
Qed.

(** Each statement of the store is a sequence of steps of the ledger. *)
Definition refines (d d' : db) : Prop :=
  step_ok d d' ∧ (db_wf d → rtc call_step (ledger (attempts d)) (ledger (attempts d'))).
Lemma refines_same d d' : step_ok d d' → attempts d' = attempts d → refines d d'.
Proof. intros Hs E. split; [done|]. intros _. by rewrite E. Qed.
#[export] Instance refines_access : RespectsAccess refines.
Proof.
  assert (Hpre : PreOrder refines).
  { split; [intros d; by apply refines_same|]. intros a b c [H1 H2] [H3 H4]. split; [by etrans|]. intros Hwf.
    etrans; [by apply H2|]. apply H4. by apply H1. }
  split; [|intros; apply refines_same; [by apply ra_access|done]].
  split; [|intros; apply refines_same; [by apply (rr_revoke (R:=step_ok))|done]].
  split; [|intros; apply refines_same; [by apply (rs_spaces (R:=step_ok))|done]|intros; apply refines_same; [by apply (rs_move (R:=step_ok))|done]
    |intros; apply refines_same; [by apply (rs_conversation (R:=step_ok))|done]].
  split.
  2: { intros chat key b w. apply refines_same; [apply (rm_message (R:=step_ok))|]. unfold insert_message_once, query_row, mbind, M_bind.
       by destruct (find_conversation _ _). }
  split.
  - done.
  - intros. apply refines_same; [by apply (respects_runs (R:=step_ok))|done].
  - intros d p f Hf. split; [by apply (respects_attempts (R:=step_ok))|]. intros Hwf. apply ledger_update; [apply Hwf|by apply Hf].
  - intros. apply refines_same; [by apply (respects_messages (R:=step_ok))|done].
  - intros. apply refines_same; [by apply (respects_conversations (R:=step_ok))|done].
  - intros. apply refines_same; [by apply (respects_meta (R:=step_ok))|done].
  - intros r w. apply refines_same; [apply (respects_insert_run (R:=step_ok))|]. unfold insert_run, query_row, mbind, M_bind.
    destruct (find_conversation _ _); [|done]. simpl. by destruct (runs_constraints _).
  - intros a w Ha. split; [by apply (respects_insert_attempt (R:=step_ok))|]. intros Hwf. unfold insert_attempt. rewrite bind_query. unfold id.
    destruct (find_run _ _) as [r|]; [|done]. simpl. destruct (existsb _ _) eqn:Ex; [done|]. simpl.
    assert (Hnew : att_id a ∉ map att_id (attempts (w_db w))).
    { intros (b & Eb & Hb)%list_elem_of_fmap. apply not_true_iff_false in Ex. apply Ex, existsb_exists. exists b.
      rewrite <- list_elem_of_In. split; [done|]. by apply bool_decide_eq_true. }
    unfold ledger. rewrite map_app, list_to_map_app. simpl.
    match goal with |- rtc _ ?L (?L ∪ <[?i := ?e]> ∅) => rewrite (map_union_comm L); [rewrite insert_empty, <- insert_union_singleton_l|] end.
    + apply rtc_once. apply cs_open; [by apply ledger_none|]. simpl. by destruct (att_status a); simpl in *; try lia.
    + rewrite insert_empty. apply map_disjoint_singleton_r. by apply ledger_none.
  - intros c r b w. apply refines_same; [apply (respects_insert_message (R:=step_ok))|]. unfold insert_message_row, query_row, mbind, M_bind.
    by destruct (find_conversation _ _).
  - intros c o r f w. apply refines_same; [apply (respects_move_message (R:=step_ok))|]. unfold move_message_row, query_row, mbind, M_bind.
    destruct (find_conversation _ _); [|done]. simpl. by destruct (existsb _ _).
Qed.

#[export] Instance refines_system {H : Host} : RespectsSystem refines.
Proof.
  split; [apply respects_memory_blind; [apply _|]; intros d t; apply refines_same; [apply wf_set_memory|done]|].
  split; [apply _|]. intros d k i Hi. apply refines_same; [by apply (ri_input (R:=step_ok))|done].
Qed.

Section refinement.
Context {H : Host} {RC : ReadChecks} {D : Disk} {MH : ModelHost} {RH : RoutingHost}.

(** C3: The machine refines the ledger of calls. From any well-formed state,
    whatever operations of the store, the permissions, the channels and the bots
    are interleaved, failures and restarts included, what they do to the calls of
    runs is a sequence of steps of the specification: a call is opened once with
    an identity that never changes, is dispatched at most once and only while it
    waits, and once its outcome is settled is never in flight again. *)
Theorem calls_refine_ledger s s' : rtc system_step s s' → db_wf (w_db (sy_world s)) →
  rtc call_step (ledger (attempts (w_db (sy_world s)))) (ledger (attempts (w_db (sy_world s')))) ∧
  (∀ a, a ∈ attempts (w_db (sy_world s)) → ∃ b, b ∈ attempts (w_db (sy_world s')) ∧ att_id b = att_id a ∧ (entry b).1 = (entry a).1 ∧
     (settled (entry a).2 = true → settled (entry b).2 = true) ∧ ((entry b).2 = Waiting → (entry a).2 = Waiting)).
Proof.
  intros Hs Hwf. destruct (system_reach refines s s' Hs) as [Hok Hl]. specialize (Hl Hwf). destruct (Hok Hwf) as [Hwf' _].
  split; [done|]. intros a Ha. pose proof (ledger_lookup _ a (wf_attempt_ids _ Hwf) Ha) as Hla.
  destruct (entry a) as [c p] eqn:Ea. destruct (ledger_evolves _ _ Hl _ _ _ Hla) as (p' & Hlb & H1 & H2).
  apply elem_of_list_to_map_2 in Hlb. apply list_elem_of_fmap in Hlb as (b & Eb & Hin). exists b.
  pose proof (f_equal fst Eb) as Hid. pose proof (f_equal snd Eb) as Hb. cbn [fst snd] in Hid, Hb. rewrite <- Hb. done.
Qed.
End refinement.

(** ** Witness *)
#[local] Existing Instances RoutingDemo.models RoutingDemo.words.
Lemma calls_refine_ledger_witness :
  rtc call_step ∅ (ledger (attempts (w_db Demo.w3))) ∧ ledger (attempts (w_db Demo.w3)) ≠ ∅.
Proof.
  split; [|vm_compute; discriminate].
  destruct (calls_refine_ledger (H:=Demo.host) (D:=FilePolicyProps.FilePolicyDemo.disk) (MH:=RoutingDemo.models) (RH:=RoutingDemo.words)
    (mkSystem (mkTelegram "" ∅ ∅) Demo.empty) (mkSystem (mkTelegram "" ∅ ∅) Demo.w3)) as [Hl _]; [|exact Demo.wf_empty|exact Hl].
  etrans; [exact (rtc_once _ _ (sy_store (mkSystem (mkTelegram "" ∅ ∅) Demo.empty) Demo.w1
    (os_run _ _ (os_createRun Demo.empty "local" "" "c" "k1" "do it" Demo.config false None))))|].
  etrans; [exact (rtc_once _ _ (sy_store (mkSystem (mkTelegram "" ∅ ∅) Demo.w1) Demo.w2 (os_run _ _ (os_startModel Demo.w1 Demo.run Demo.request 5 None))))|].
  exact (rtc_once _ _ (sy_store (mkSystem (mkTelegram "" ∅ ∅) Demo.w2) Demo.w3
    (os_run _ _ (os_saveModel Demo.w2 Demo.run Demo.model_attempt (mkModelResponse "" [Demo.call] None) None 1)))).
Defined.
