(* ===== verification/Service.v ===== *)
(** * The whole service

    Every operation the development models, those on collaborations included, as
    the steps of one transition system, and what holds along any interleaving of
    them: no row of a conversation, a message, a call or a run is ever lost, the
    result of a call never changes once it is saved, and every space routes to
    its own conversations. *)

From S2P Require Import Prelude Text Utf8 Data Sql Store StoreInv Space SpaceInv StoreProps SpaceProps SpaceMove StoreCalls Budget BudgetProps Memory MemoryStore Workspace Profile FilePolicy FilePolicyProps Permission PermissionProps Plan PlanProps Conflicts Evidence Results Report Schedule ScheduleProps ScheduleRuns Entry Revision Replan RevisionInv RevisionProps RevisionWork RevisionRuns Collaborations MemoryProps Channel Queue QueueInv Telegram Model Routing RoutingProps System TelegramProps.

(** ** What the statements on collaborations respect *)

(** A run that has not begun may be given another assignment. *)
Record assigns (f : Run → Run) : Prop := {
  as_id : ∀ r, run_id (f r) = run_id r;
  as_conversation : ∀ r, run_conversation (f r) = run_conversation r;
  as_key : ∀ r, run_request_key (f r) = run_request_key r;
  as_seq : ∀ r, run_seq (f r) = run_seq r;
  as_steps : ∀ r, run_steps (f r) = run_steps r;
  as_last : ∀ r, run_last_attempt_seq (f r) = run_last_attempt_seq r;
}.
Lemma assigns_prompt p now : assigns (set_prompt p now).
Proof. by split. Qed.
Lemma assigns_assignment p config now : assigns (set_assignment p config now).
Proof. by split. Qed.
Definition not_begun (d : db) (id : string) : Prop := ∀ r, r ∈ runs d → run_id r = id → run_steps r = 0%Z.

Class RespectsCollab (R : relation db) : Prop := {
  rcol_messages :: RespectsMessages R;
  rcol_conversation : ∀ d c, (0 <= cv_last_message_seq c)%Z → find_conversation (cv_id c) d = None →
    space_references [c] (spaces d) = true → R d (set_conversations (conversations d ++ [c]) d);
  rcol_assign : ∀ d id f, assigns f → (db_wf d → not_begun d id) → runs_constraints (update_rows (Store.by_id id) f (runs d)) = true →
    R d (set_runs (update_rows (Store.by_id id) f (runs d)) d);
}.
#[export] Instance respects_collab_closed : Closed RespectsCollab.
Proof. intros R HR. apply HR. Qed.
Notation CollabSteps := (Along RespectsCollab).
Lemma collab_messages {A} (m : M A) : MessageSteps m → CollabSteps m.
Proof. apply along_sub. by intros R []. Qed.
Lemma collab_steps {A} (m : M A) : Steps m → CollabSteps m.
Proof. intros Hm. by apply collab_messages, message_steps. Qed.
#[export] Hint Resolve respects_collab_closed : steps.
#[export] Hint Extern 6 (CollabSteps _) => apply collab_steps : steps.

(** What the statements of the whole service respect. *)
Class RespectsService {H : Host} (R : relation db) : Prop := {
  rsv_system :: RespectsSystem R;
  rsv_assign : ∀ d id f, assigns f → (db_wf d → not_begun d id) → runs_constraints (update_rows (Store.by_id id) f (runs d)) = true →
    R d (set_runs (update_rows (Store.by_id id) f (runs d)) d);
}.
#[export] Instance respects_service_collab {H : Host} R `{!RespectsService R} : RespectsCollab R.
Proof. split; [apply _|apply rs_conversation|apply rsv_assign]. Qed.

Lemma steps_collab_conversation c : (0 <= cv_last_message_seq c)%Z → CollabSteps (insert_conversation c).
Proof.
  intros Hc. apply steps_query_id. intros R HR HP w. simpl. destruct (_ && _) eqn:E; [|reflexivity].
  apply andb_true_iff in E as [E1%bool_decide_eq_true E2]. by apply rcol_conversation.
Qed.
#[export] Hint Extern 2 (CollabSteps (insert_conversation _)) => apply steps_collab_conversation; simpl; lia : steps.

(** The run whose row was just read. *)
Lemma found_not_begun id r d : find_run id d = Some r → run_steps r = 0%Z → db_wf d → not_begun d id.
Proof.
  intros [Hr E]%find_run_in Hs Hwf s Hin Es. assert (s = r) as ->; [|done]. eapply run_id_unique; [exact Hwf|done|done|congruence].
Qed.
Lemma assign_along R `{!RespectsCollab R} id f w : assigns f → (db_wf (w_db w) → not_begun (w_db w) id) →
  R (w_db w) (w_db (update_runs (Store.by_id id) f w).2).
Proof.
  intros Hf Hn. pose proof (closed_pre (C:=RespectsCollab) R _). unfold update_runs. rewrite bind_query. unfold Datatypes.id.
  destruct (runs_constraints (update_rows (Store.by_id id) f (runs (w_db w)))) eqn:E; simpl; [|reflexivity]. by apply rcol_assign.
Qed.

Section collaborations.
Context {H : Host} {RH : ResultHost} {PR : ReportHost} {PH : PlanHost} {VH : RevisionHost} {RC : ReadChecks}.
#[local] Hint Resolve steps_saveCollaboration steps_loadCollaboration steps_insertMessage steps_update_status steps_abandonRun : steps.

Lemma run_update_answer a now : run_update (set_answer a now).
Proof. intros r. split; [split; simpl; (done || lia)|done]. Qed.
Lemma message_update_body b : message_update (set_body b).
Proof. by intros m. Qed.
#[local] Hint Resolve run_update_answer message_update_body : steps.
#[local] Hint Extern 1 (message_update _) => by intros [] : steps.

(** ** Runs, children and records *)
Lemma steps_insertPlannedRun c q p config : Steps (insertPlannedRun c q p config).
Proof. unfold insertPlannedRun. solve_steps. Qed.
#[local] Hint Resolve steps_insertPlannedRun : steps.
Lemma steps_insertCollaborationRun ws t q p config : CollabSteps (insertCollaborationRun ws t q p config).
Proof. unfold insertCollaborationRun. solve_steps. Qed.
#[local] Hint Resolve steps_insertCollaborationRun : steps.
Lemma steps_assign_children core parent q plan l : CollabSteps (assign_children core parent q plan l).
Proof. induction l as [|s l IH]; simpl; solve_steps. Qed.
#[local] Hint Resolve steps_assign_children : steps.
Lemma steps_savePlanRevision r source reason a : Steps (savePlanRevision r source reason a).
Proof. unfold savePlanRevision. solve_steps. Qed.
#[local] Hint Resolve steps_savePlanRevision : steps.
Lemma steps_insert_collaboration core parent q plan initial source reason : CollabSteps (insert_collaboration core parent q plan initial source reason).
Proof. unfold insert_collaboration. solve_steps. Qed.
#[local] Hint Resolve steps_insert_collaboration : steps.
Lemma collab_or_else {A} (m : M A) e : CollabSteps m → CollabSteps (or_else m e).
Proof. intros Hm R HR w. specialize (Hm R HR w). unfold or_else. by destruct (m w) as [[a|e'] w']. Qed.
#[local] Hint Resolve collab_or_else : steps.
Lemma steps_create_tx core saved snapshot c q plan : CollabSteps (create_tx core saved snapshot c q plan).
Proof. unfold create_tx. solve_steps. Qed.
#[local] Hint Resolve steps_create_tx : steps.
Lemma steps_Create core mode saved snapshot c q plan : CollabSteps (Create core mode saved snapshot c q plan).
Proof. unfold Create. solve_steps. Qed.
Lemma steps_delegation core run plan : CollabSteps (insertActiveDelegation core run plan).
Proof. unfold insertActiveDelegation. solve_steps. Qed.
Lemma steps_start_goal saved c q p snapshot s : CollabSteps (start_goal saved c q p snapshot s).
Proof. unfold start_goal. solve_steps. Qed.

(** ** Changes of a record *)
Lemma steps_change parent edit : (∀ r, CollabSteps (edit r)) → CollabSteps (change parent edit).
Proof. intros He. unfold change. solve_steps. Qed.
#[local] Hint Resolve steps_change : steps.

Lemma steps_revise_child core edit plan parent active c : CollabSteps (revise_child core edit plan parent active c).
Proof.
  intros R HR w. pose proof (closed_pre (C:=RespectsCollab) R HR). unfold revise_child. cbv zeta.
  apply (read_then (R (w_db w))); [apply guard_world|reflexivity|intros [] _].
  apply (read_then (R (w_db w))); [apply reads_query_row|reflexivity|intros run [Hrun _]%query_row_ok]. rewrite bind_query.
  apply (read_then (R (w_db w))); [apply guard_world|reflexivity|intros [] _]. destruct (bool_decide (_ ∈ ed_retire edit)).
  - match goal with |- R _ (w_db (?m w).2) => cut (CollabSteps m); [intros Hm; by apply Hm|solve_steps] end.
  - apply (read_then (R (w_db w))); [apply guard_world|reflexivity|intros [] [Hg _]%guard_ok].
    apply andb_true_iff in Hg as [Hg _]. apply andb_true_iff in Hg as [Hs%bool_decide_eq_true _].
    destruct (List.find _ _) as [spec|]; [|reflexivity].
    apply (read_then (R (w_db w))); [apply reads_lift|reflexivity|intros x _].
    apply bind_along; [apply _|reflexivity|intros now _]. apply bind_along; [apply _| |intros n _].
    + apply assign_along; [apply _|apply assigns_assignment|]. by apply (found_not_begun _ run).
    + match goal with |- R _ (w_db (?m _).2) => cut (CollabSteps m); [intros Hm; by apply Hm|solve_steps] end.
Qed.
#[local] Hint Resolve steps_revise_child : steps.
Lemma steps_revise_children core edit plan parent active l : CollabSteps (revise_children core edit plan parent active l).
Proof. induction l as [|c l IH]; simpl; solve_steps. Qed.
#[local] Hint Resolve steps_revise_children : steps.
Lemma steps_definite_attempt a : CollabSteps (definite_attempt a).
Proof. unfold definite_attempt. solve_steps. Qed.
#[local] Hint Resolve steps_definite_attempt : steps.
Lemma steps_applyPlanEdit core edit source a r : CollabSteps (applyPlanEdit core edit source a r).
Proof. unfold applyPlanEdit. cbv zeta. solve_steps. Qed.
#[local] Hint Resolve steps_applyPlanEdit : steps.
Lemma steps_deliver_edit max report name n r : CollabSteps (deliver_edit max report name n r).
Proof.
  intros R HR w. pose proof (closed_pre (C:=RespectsCollab) R HR). unfold deliver_edit.
  do 2 (apply (read_then (R (w_db w))); [apply guard_world|reflexivity|intros [] _]). destruct (find_child name r) as [c|]; [|reflexivity].
  apply (read_then (R (w_db w))); [apply guard_world|reflexivity|intros [] _]. rewrite bind_query.
  apply (read_then (R (w_db w))); [apply guard_world|reflexivity|intros [] _]. destruct (_ || _).
  { match goal with |- R _ (w_db (?m w).2) => cut (CollabSteps m); [intros Hm; by apply Hm|solve_steps] end. }
  apply (read_then (R (w_db w))); [apply reads_query_row|reflexivity|intros run [Hrun _]%query_row_ok].
  apply (read_then (R (w_db w))); [apply guard_world|reflexivity|intros [] [Hs%bool_decide_eq_true _]%guard_ok].
  apply (read_then (R (w_db w))); [apply reads_lift|reflexivity|intros l _]. cbv zeta.
  apply (read_then (R (w_db w))); [apply guard_world|reflexivity|intros [] _].
  apply bind_along; [apply _|reflexivity|intros now _]. apply bind_along; [apply _| |intros k _].
  - apply assign_along; [apply _|apply assigns_prompt|]. pose proof (find_run_in _ _ _ Hrun) as [_ E]. rewrite E. by apply (found_not_begun _ run).
  - match goal with |- R _ (w_db (?m _).2) => cut (CollabSteps m); [intros Hm; by apply Hm|solve_steps] end.
Qed.
#[local] Hint Resolve steps_deliver_edit : steps.
Lemma steps_plan_goal core parent q plan accepted reason a : CollabSteps (change parent (plan_goal_edit core q plan accepted reason a)).
Proof. apply steps_change. intros r. unfold plan_goal_edit. solve_steps. Qed.
Lemma steps_Revise core parent edit : CollabSteps (Revise core parent edit).
Proof. unfold Revise. solve_steps. Qed.
#[local] Hint Resolve steps_Revise : steps.
Lemma steps_Adjust core parent name spec : CollabSteps (Adjust core parent name spec).
Proof.
  unfold Adjust. apply steps_bind; [apply steps_guard|intros _]. apply steps_bind; [apply reads_steps, reads_Inspect|intros report]. solve_steps.
Qed.
Lemma steps_IncreaseLimits parent b : CollabSteps (Revision.IncreaseLimits parent b).
Proof. unfold Revision.IncreaseLimits. apply steps_bind; [apply steps_lift|intros _]. apply steps_change. intros r. unfold limits_edit. solve_steps. Qed.
Lemma steps_keep_plan parent report a reason n : CollabSteps (change parent (keep_plan_edit report a reason n)).
Proof. apply steps_change. intros r. unfold keep_plan_edit. solve_steps. Qed.
Lemma steps_replan_edit core parent report a edit : CollabSteps (change parent (replan_edit core report a edit)).
Proof. apply steps_change. intros r. unfold replan_edit. solve_steps. Qed.

(** ** Controls, leases and the end *)
Lemma steps_drainCancelled parent : CollabSteps (drainCancelled parent).
Proof.
  assert (Hl : ∀ control l, CollabSteps (drain_children control l)) by (intros control l; induction l as [|c l IH]; simpl; solve_steps).
  unfold drainCancelled. solve_steps.
Qed.
Lemma steps_Control free parent child action : CollabSteps (Control free parent child action).
Proof.
  pose proof reads_control_children. unfold Control. apply steps_bind; [apply steps_guard|intros _]. apply steps_bind.
  - apply steps_change. intros r. apply reads_steps. unfold control_edit. solve_reads.
  - intros _. destruct (_ && _); [apply steps_drainCancelled|apply steps_ret].
Qed.
Lemma steps_Resolve parent digest decision : CollabSteps (Resolve parent digest decision).
Proof.
  unfold Resolve. apply steps_bind; [apply steps_guard|intros _]. apply steps_bind; [apply reads_steps, reads_Inspect|intros report].
  apply steps_bind; [apply steps_guard|intros _]. apply steps_change. intros r. unfold resolve_edit. solve_steps.
Qed.
Lemma steps_deliverResults max parent name n : CollabSteps (deliverResults max parent name n).
Proof. unfold deliverResults. apply steps_bind; [apply reads_steps, reads_Inspect|intros report]. solve_steps. Qed.
Lemma steps_draft parent report : CollabSteps (change parent (draft_edit report)).
Proof. apply steps_change. intros r. unfold draft_edit. solve_steps. Qed.
Lemma steps_complete parent report : CollabSteps (complete_parent parent report).
Proof. unfold complete_parent. solve_steps. Qed.
Lemma steps_leases : Steps recoverCollaborationLeases.
Proof.
  assert (Hl : ∀ l, Steps (save_all l)) by (intros l; induction l as [|r l IH]; simpl; solve_steps). unfold recoverCollaborationLeases. solve_steps.
Qed.

(** Every operation on collaborations moves along whatever they all respect. *)
Lemma collab_op_along R `{!RespectsCollab R} w w' : collab_op w w' → R (w_db w) (w_db w').
Proof.
  destruct 1.
  - by apply steps_Create.
  - by apply steps_delegation.
  - by apply steps_start_goal.
  - by apply steps_plan_goal.
  - by apply steps_Revise.
  - by apply steps_Adjust.
  - by apply steps_IncreaseLimits.
  - by apply steps_keep_plan.
  - by apply steps_replan_edit.
  - by apply steps_Control.
  - by apply steps_Resolve.
  - exact (steps_change parent (λ r, mret (set_active [] r)) (λ r, steps_ret _) R _ w).
  - exact (steps_change parent (λ r, lift (activate_edit names n r)) (λ r, steps_lift _) R _ w).
  - by apply steps_deliverResults.
  - exact (steps_change parent (λ r, mret (deactivate_edit name r)) (λ r, steps_ret _) R _ w).
  - by apply steps_draft.
  - by apply steps_complete.
  - by apply (collab_steps _ (steps_guard_reserve parent child a)).
  - by apply (collab_steps _ (steps_guard_record parent child a size final)).
  - by apply (collab_steps _ steps_leases).
Qed.
End collaborations.

(** ** What never goes back *)

(** A run keeps its place and its identity; from its first step on, also its
    prompt and its attachments. *)
Record run_kept (r s : Run) : Prop := {
  rk_id : run_id s = run_id r;
  rk_conversation : run_conversation s = run_conversation r;
  rk_key : run_request_key s = run_request_key r;
  rk_seq : run_seq s = run_seq r;
  rk_steps : (run_steps r <= run_steps s)%Z;
  rk_last : (run_last_attempt_seq r <= run_last_attempt_seq s)%Z;
  rk_begun : (0 < run_steps r)%Z → run_prompt s = run_prompt r ∧ rc_attachments (run_config s) = rc_attachments (run_config r);
}.
Record service_le (d d' : db) : Prop := {
  sl_conversations : grows conv_le (conversations d) (conversations d');
  sl_messages : grows message_le (messages d) (messages d');
  sl_attempts : grows att_le (attempts d) (attempts d');
  sl_runs : grows run_kept (runs d) (runs d');
}.
#[export] Instance run_kept_pre : PreOrder run_kept.
Proof.
  split; [intros r; split; (done || lia)|]. intros r s t [] []. split; try congruence; [lia|lia|].
  intros Hr. destruct rk_begun0 as [E1 E2]; [done|]. destruct rk_begun1 as [E3 E4]; [lia|]. split; congruence.
Qed.
#[export] Instance service_le_pre : PreOrder service_le.
Proof. split; [intros d; split; reflexivity|]. intros ? ? ? [] []. split; by etrans. Qed.
Definition service_ok (d d' : db) : Prop := db_wf d → db_wf d' ∧ service_le d d'.
#[export] Instance service_ok_pre : PreOrder service_ok.
Proof.
  split; [by intros d Hd|]. intros d1 d2 d3 H1 H2 H. destruct (H1 H) as [H' ?].
  destruct (H2 H') as [? ?]. split; [done|]. by etrans.
Qed.
Lemma grows_sub {A} (R R' : relation A) l l' : (∀ x y, R x y → R' x y) → grows R l l' → grows R' l l'.
Proof. intros Hs (l1 & l2 & E & HF). exists l1, l2. split; [done|]. by eapply Forall2_impl. Qed.
Lemma run_le_kept r s : run_le r s → run_kept r s.
Proof. intros []. by split. Qed.
Lemma step_service d d' : step_ok d d' → service_ok d d'.
Proof. intros Hs Hwf. destruct (Hs Hwf) as [Hwf' []]. split; [done|]. split; try done. eapply grows_sub; [apply run_le_kept|done]. Qed.
Lemma service_assign d id f : assigns f → (db_wf d → not_begun d id) → runs_constraints (update_rows (Store.by_id id) f (runs d)) = true →
  service_ok d (set_runs (update_rows (Store.by_id id) f (runs d)) d).
Proof.
  intros [F1 F2 F3 F4 F5 F6] Hn Hc Hwf. specialize (Hn Hwf). destruct Hwf as [H1 H2 H3 H4 H5 H6 H7 H8 H9 H10]. split.
  - split; simpl; try done.
    + intros a Ha. destruct (H4 a Ha) as (r & Hr & He & Hl). exists (if Store.by_id id r then f r else r).
      split; [apply elem_of_update_rows; eauto|]. destruct (Store.by_id id r); [|done]. by rewrite F1, F6.
    + intros r (x & Hx & ->)%elem_of_update_rows. destruct (H6 x Hx) as (c & Hc' & He). exists c. split; [done|].
      destruct (Store.by_id id x); [by rewrite F2|done].
  - split; simpl; try reflexivity. apply grows_update_rows; [apply _|]. intros r Hr Er%bool_decide_eq_true. specialize (Hn r Hr Er).
    split; rewrite ?F1, ?F2, ?F3, ?F4, ?F5, ?F6; try done. intros; lia.
Qed.

(** A coarser preorder respects as much. *)
Lemma respects_sub (R R' : relation db) : PreOrder R' → (∀ d d', R d d' → R' d d') → Respects R → Respects R'.
Proof.
  intros HP Hs HR. split; [done|intros; apply Hs..].
  - by apply respects_runs.
  - by apply respects_attempts.
  - by apply respects_messages.
  - by apply respects_conversations.
  - by apply respects_meta.
  - by apply respects_insert_run.
  - by apply respects_insert_attempt.
  - by apply respects_insert_message.
  - by apply respects_move_message.
Qed.
Lemma respects_coarser {H : Host} (R R' : relation db) : PreOrder R' → (∀ d d', R d d' → R' d d') → RespectsSystem R → RespectsSystem R'.
Proof.
  intros HP Hs HR. split; [|split; [|intros; by apply Hs, ri_input]].
  - split; [|intros; eapply Hs, rmem_mutate; eassumption]. split; [|intros; by apply Hs, ra_access]. split; [|intros; by apply Hs, rr_revoke].
    split; [|intros; by apply Hs, rs_spaces|intros; by apply Hs, rs_move|intros; by apply Hs, rs_conversation].
    split; [|intros; by apply Hs, rm_message]. apply (respects_sub R R'); [done|done|apply _].
  - apply (respects_sub R R'); [done|done|apply _].
Qed.
#[export] Instance service_ok_respects {H : Host} : RespectsService service_ok.
Proof. split; [apply (respects_coarser step_ok); [apply _|apply step_service|apply _]|apply service_assign]. Qed.

(** ** The machine *)
Section machine.
Context {H : Host} {RH : ResultHost} {PR : ReportHost} {PH : PlanHost} {VH : RevisionHost} {RC : ReadChecks} {D : Disk} {MH : ModelHost} {QH : RoutingHost}.

(** A step of the machine of System.v, or an operation on the collaborations. *)
Inductive service_step (s : system) : system → Prop :=
| sv_system s' (Hop : system_step s s') : service_step s s'
| sv_collab w (Hop : collab_op (sy_world s) w) : service_step s (mkSystem (sy_memory s) w).

Lemma service_step_along R `{!RespectsService R} s s' : service_step s s' → R (w_db (sy_world s)) (w_db (sy_world s')).
Proof. destruct 1; [by apply system_step_along; try apply _|by apply collab_op_along; try apply _]. Qed.
Lemma service_reach R `{!RespectsService R} s s' : rtc service_step s s' → R (w_db (sy_world s)) (w_db (sy_world s')).
Proof.
  pose proof (closed_pre (C:=RespectsCollab) R _). induction 1; [reflexivity|]. etrans; [by apply service_step_along|done].
Qed.

(** C2: Whatever operations of the service follow one another, those on spaces,
    permissions, channels, bots, memory, models, the input queue and the
    collaborations included, in any order and with failures and restarts: the
    schema's invariants hold, and no conversation, message, call or run is ever
    lost. A conversation keeps its title and folder; a message stays in its
    conversation under its key; a call keeps its identity and its request, never
    moves back towards pending, and once it has a result never has another; a
    run keeps its conversation, key and number, its steps never decrease, and
    once it has begun its prompt and attachments are fixed. *)
Theorem reachable_evolves s s' : rtc service_step s s' → db_wf (w_db (sy_world s)) →
  let d := w_db (sy_world s) in let d' := w_db (sy_world s') in
  db_wf d' ∧
  (∀ c, c ∈ conversations d → ∃ e, e ∈ conversations d' ∧ conv_le c e) ∧
  (∀ m, m ∈ messages d → ∃ n, n ∈ messages d' ∧ message_le m n) ∧
  (∀ a, a ∈ attempts d → ∃ b, b ∈ attempts d' ∧ att_le a b) ∧
  (∀ r, r ∈ runs d → ∃ x, x ∈ runs d' ∧ run_kept r x).
Proof.
  intros Hs Hwf. destruct (service_reach service_ok s s' Hs Hwf) as [Hwf' []]. cbv zeta.
  split; [done|]. split_and!; intros x Hx; by eapply grows_elem.
Qed.

(** C9: Once a call has an outcome, whoever saved it, it keeps it: along any
    interleaving of the operations of the service, the row stays, a result is
    never replaced by another one, and an unknown outcome never becomes a result;
    the only change left is that the call is marked unknown. A later save of
    another result, under any budget, and a later settlement of a proposal fail
    and change nothing; a local operation of the call is not executed again but
    gives the result that was saved. *)
Theorem tool_result_saved_once s s' a : rtc service_step s s' → db_wf (w_db (sy_world s)) →
  a ∈ attempts (w_db (sy_world s)) → att_status a ∈ [AFinished; AUnknown] →
  ∃ b, b ∈ attempts (w_db (sy_world s')) ∧ att_id b = att_id a ∧ att_run b = att_run a ∧ att_request b = att_request a ∧
    (att_status b = AUnknown ∨ att_status b = AFinished ∧ att_status a = AFinished ∧ att_response b = att_response a) ∧
    (∀ run c call res g n f m r w `{!GuardSteps g}, att_id c = att_id a →
       saveGuardedTool run c call res g n f m (sy_world s') = (r, w) → r ≠ Ok tt ∧ w_db w = w_db (sy_world s')) ∧
    (∀ run c res closed reason t r w, att_id c = att_id a →
       settleControlProposal run c res closed reason t (sy_world s') = (r, w) → r ≠ Ok tt ∧ w_db w = w_db (sy_world s')) ∧
    (∀ run c call execute norm g n m r w, att_id c = att_id a →
       executeLocalToolMode run c call execute norm g n m (sy_world s') = (r, w) →
       w_db w = w_db (sy_world s') ∧ ∀ x, r = Ok x → att_response a = Some (RTool x)).
Proof.
  intros Hs Hwf Ha Hst. destruct (service_reach service_ok s s' Hs Hwf) as [Hwf' Hle].
  destruct (grows_elem _ _ _ _ (sl_attempts _ _ Hle) Ha) as (b & Hb & Hab).
  assert (Hra : att_rank (att_status a) = 2%nat) by (apply elem_of_cons in Hst as [->|Hst%list_elem_of_singleton]; [done|by rewrite Hst]).
  assert (Hrb : att_rank (att_status b) = 2%nat) by (pose proof (al_rank _ _ Hab); destruct (att_status b); simpl in *; lia).
  assert (Hid : ∀ c, att_id c = att_id a → att_id c = att_id b) by (intros c ->; by rewrite (al_id _ _ Hab)).
  assert (Hout : att_status b = AUnknown ∨ att_status b = AFinished ∧ att_status a = AFinished ∧ att_response b = att_response a).
  { destruct (att_status b) eqn:Eb; try done; [right|by left]. destruct (att_status a) eqn:Ea; try done.
    - split; [done|split; [done|by apply (al_final _ _ Hab)]].
    - pose proof (al_unknown _ _ Hab Ea). congruence. }
  exists b. split; [done|]. split; [apply Hab|]. split; [apply Hab|]. split; [apply Hab|]. split; [done|]. split_and!.
  - intros run c call res g n f m r w Hg Hc E. by apply (saveGuardedTool_settled run c call res g n f m r (sy_world s') w b); auto.
  - intros run c res closed reason t r w Hc E. apply (settleControlProposal_settled run c res closed reason t r (sy_world s') w b); auto.
  - intros run c call ex norm g n m r w Hc E. destruct (executeLocalToolMode_settled run c call ex norm g n m r (sy_world s') w b) as [H1 H2]; eauto.
    split; [done|]. intros x Hx. destruct (H2 x Hx) as [Eb Er]. destruct Hout as [Hu|(_ & _ & <-)]; [congruence|done].
Qed.

(** ** Routing *)

(** What leaves the routes alone and the schema's invariants whole. *)
Lemma keeps_both d d' : step_ok d d' → routes_eq d d' → SpaceProps.keeps d d'.
Proof. intros Hs Hr [Hwf Hk]. split; [by apply Hs|by eapply routes_ok_eq]. Qed.
#[export] Instance keeps_pre : PreOrder SpaceProps.keeps.
Proof. exact (SpaceProps.keeps_closed _ eq_refl). Qed.
#[export] Instance keeps_respects : Respects SpaceProps.keeps.
Proof.
  split; [apply _|intros; apply keeps_both..].
  all: first [by apply respects_runs|by apply respects_attempts|by apply respects_messages|by apply respects_conversations
    |by apply respects_meta|by apply respects_insert_run|by apply respects_insert_attempt|by apply respects_insert_message|by apply respects_move_message].
Qed.
#[export] Instance keeps_messages_respects : RespectsMessages SpaceProps.keeps.
Proof. split; [apply _|]. intros. apply keeps_both; apply rm_message. Qed.
#[export] Instance keeps_inputs : RespectsInputs SpaceProps.keeps.
Proof. split; [apply _|]. intros. apply keeps_both; by apply ri_input. Qed.
#[export] Instance keeps_collab : RespectsCollab SpaceProps.keeps.
Proof.
  split; [apply _| |].
  - intros d c Hc Hf Hr [Hwf Hk]. split; [by apply wf_insert_conversation|by apply routes_ok_insert_conversation].
  - intros d id f Hf Hn Hc [Hwf Hk]. split; [by apply (service_assign d id f)|]. eapply routes_ok_eq; [|exact Hk]. by apply routes_same.
Qed.

(** A message for a space without a conversation opens one in it. *)
Lemma keeps_receive_conversation s r wd : Along (eq SpaceProps.keeps) (receive_conversation s r wd).
Proof.
  intros R <- w. unfold receive_conversation. apply bind_along; [apply _| |].
  { destruct (bool_decide _); [reflexivity|]. unfold query_row, mbind, M_bind. destruct (find_conversation _ _); [|reflexivity]. simpl.
    by destruct (bool_decide _). }
  intros chat _. destruct (bool_decide (chat = "")); [|reflexivity]. apply bind_along; [apply _|reflexivity|intros id _]. apply bind_along; [apply _|reflexivity|intros now _].
  match goal with |- SpaceProps.keeps (w_db ?v) _ => generalize v; intros v0 end.
  unfold mbind at 1, M_bind at 1. destruct (insert_conversation _ v0) as [[[]|e] v1] eqn:E.
  2: { pose proof (steps_collab_conversation (mkConversation id (sp_title s) wd (sp_id s) now now 0 0) ltac:(simpl; lia) SpaceProps.keeps _ v0) as Hk.
       by rewrite E in Hk. }
  intros [Hwf Hk]. match goal with |- routed (w_db (?m v1).2) => assert (Hs : step_ok (w_db v1) (w_db (m v1).2)) end.
  { match goal with |- step_ok _ (w_db (?m v1).2) => cut (SpaceSteps m); [intros Hm; by apply Hm, _|solve_steps] end. }
  assert (Hwf1 : db_wf (w_db v1)).
  { pose proof (steps_collab_conversation (mkConversation id (sp_title s) wd (sp_id s) now now 0 0) ltac:(simpl; lia) service_ok _ v0 Hwf) as [Hx _]. by rewrite E in Hx. }
  split; [by apply Hs|]. apply insert_conversation_ok in E as (Hf & _ & ->). pose proof (belongs_new _ _ Hf) as Hb.
  pose proof (routes_ok_insert_conversation _ (mkConversation id (sp_title s) wd (sp_id s) now now 0 0) Hk) as Hk1.
  unfold mbind, M_bind. destruct (update_spaces _ _ _) as [[n|e] v2] eqn:Eu; [|by apply update_spaces_err in Eu as ->].
  apply update_spaces_ok in Eu as [_ ->]. simpl. refine (routes_ok_update _ _ _ Hk1 _). intros y _ Hy%bool_decide_eq_true. split; [|done].
  intros q Hq _. assert (q = id) as -> by (simpl in Hq; tauto). change (sp_id (route id id (sp_updated_at y) y)) with (sp_id y). rewrite Hy. exact Hb.
Qed.
Lemma keeps_mutate a m r w w' : mutateMemoryTx a m w = (Ok r, w') → SpaceProps.keeps (w_db w) (w_db w').
Proof. intros Hm. apply mutate_ok in Hm as (_ & _ & t & _ & ->). by apply keeps_both; [apply wf_set_memory|apply routes_same]. Qed.
Lemma keeps_sub {A} (m : M A) : MessageSteps m → Along (eq SpaceProps.keeps) m.
Proof. intros Hm R <- w. by apply Hm, _. Qed.
Lemma keeps_ReceiveChannelText s t r wd : Along (eq SpaceProps.keeps) (ReceiveChannelText s t r wd).
Proof.
  unfold ReceiveChannelText. apply steps_bind; [apply steps_guard|intros []].
  apply steps_bind; [destruct (bool_decide _); [apply reads_steps, reads_CheckTelegramAccess|apply steps_ret]|intros access].
  apply steps_transaction, steps_bind; [apply steps_query|intros d]. destruct (message_by_key _ _); [apply steps_ret|].
  apply steps_bind; [apply keeps_sub, message_steps, steps_scanSpace|intros sp].
  apply steps_bind; [apply keeps_receive_conversation|intros chat]. apply keeps_sub.
  pose proof steps_insert_keyed_message. pose proof (λ p, steps_meta_insert_once (personKey (cs_person s)) p eq_refl).
  solve_steps.
Qed.
Lemma keeps_apply_grant r wd : Along (eq SpaceProps.keeps) (apply_grant r wd).
Proof.
  intros R <- w [Hwf Hk]. pose proof (steps_apply_grant r wd step_ok _ w Hwf) as [Hwf' _].
  destruct (apply_grant r wd w) as [[x|e] w'] eqn:E; [|unfold apply_grant in E; apply transaction_err in E; simpl; by rewrite E].
  split; [done|]. simpl. unfold apply_grant in E. rewrite transaction_ok in E. apply bind_ok in E as (p & w1 & Ep & E).
  assert (w1 = w) as -> by (revert Ep; apply reads_ok, reads_telegramAccessRaw). cbv zeta in E.
  apply bind_ok in E as ([] & w1 & [_ <-]%guard_ok & E). apply bind_ok in E as (s & w1 & Hb%bindChannelTx_routes & E); [|done].
  apply bind_ok in E as ([] & w2 & [_ <-]%guard_ok & E). destruct (_ && _); [by apply ret_ok in E as [_ <-]|].
  apply bind_ok in E as (now & w2 & [= _ <-] & E). apply bind_ok in E as ([] & w3 & [= <-] & [_ <-]%ret_ok).
  eapply routes_ok_eq; [|exact Hb]. by apply routes_same.
Qed.

Lemma system_step_keeps s s' : system_step s s' → SpaceProps.keeps (w_db (sy_world s)) (w_db (sy_world s')).
Proof.
  destruct 1; simpl.
  - by apply op_step_keeps.
  - eapply permission_step_along; [apply _|exact Hop].
  - by apply keeps_ReceiveChannelText.
  - by apply (steps_RecordChannelDelivery run delivery text state b SpaceProps.keeps); try apply _.
  - by apply steps_prepareAuto; try apply _.
  - by apply steps_SwitchModel; try apply _.
  - by apply steps_IncreaseRunLimits; try apply _.
  - by apply queue_op_along; try apply _.
  - reflexivity.
  - reflexivity.
  - reflexivity.
  - rewrite run_telegram_db, request_world. reflexivity.
  - rewrite run_telegram_db, build_world. reflexivity.
  - rewrite run_telegram_db. destruct (applyTelegramAccess_world sup record wd now (sy_memory s) (sy_world s)) as [-> | ->]; [reflexivity|].
    by apply keeps_apply_grant.
  - apply SaveMemory_along; [apply _|]. intros. by eapply keeps_mutate.
  - apply executeLocalToolMode_along; [apply _..|]. apply executeMemoryWrite_along; [apply _|]. intros. by eapply keeps_mutate.
Qed.
Lemma service_reach_keeps s s' : rtc service_step s s' → SpaceProps.keeps (w_db (sy_world s)) (w_db (sy_world s')).
Proof.
  induction 1 as [s|s t u Hst _ IH]; [reflexivity|]. etrans; [|exact IH]. destruct Hst; [by apply system_step_keeps|by apply collab_op_along; try apply _].
Qed.

(** C18: Routing. In every state the service can reach from a well-formed one,
    whatever operations follow one another, those on spaces, channels, grants,
    permissions, models, memory, the input queue and collaborations included,
    with failures and restarts: the default and the active conversation of a
    space are conversations of that space, and a channel that does not keep
    several conversations routes to its default. *)
Theorem spaces_route_inside s s' x : rtc service_step s s' → db_wf (w_db (sy_world s)) → routes_ok (w_db (sy_world s)) →
  x ∈ spaces (w_db (sy_world s')) →
  (∀ p, p = sp_default x ∨ p = sp_active x → p ≠ "" →
     ∃ c, c ∈ conversations (w_db (sy_world s')) ∧ cv_id c = p ∧ cv_space c = sp_id x) ∧
  (sp_source x ≠ "local" → sp_multi x = false → sp_active x = sp_default x).
Proof. intros Hs Hwf Hr Hx. apply routed_inside; [by apply (service_reach_keeps _ _ Hs)|done]. Qed.
End machine.

(** ** Witnesses *)
Module ServiceDemo.
Export Demo CallsDemo.
#[export] Existing Instances Demo.host Demo.checks FilePolicyDemo.disk RoutingDemo.models RoutingDemo.words CollabDemo.host PlanDemo.host ScheduleDemo.results ScheduleDemo.reports.
(** A run with one tool call, dispatched and saved; then a collaboration is
    created in the same conversation and revised, and the program restarts. *)
Definition collab : world := (Create CollabDemo.core "auto" "" (Ok config) "" "key" PlanDemo.plan w5).2.
Definition parent : string := match (Create CollabDemo.core "auto" "" (Ok config) "" "key" PlanDemo.plan w5).1 with Ok p => p | Err _ => "" end.
Definition revised : world := (Revise CollabDemo.core parent CollabDemo.edit collab).2.
Definition restarted : world := (recover recoverCollaborationLeases revised).2.
Definition on (w : world) : system := mkSystem TelegramDemo.bots w.
Lemma on_store w w' : run_op w w' → service_step (on w) (on w').
Proof. intros Hop. apply (sv_system (on w) (on w')), (sy_store (on w)), os_run, Hop. Qed.
Lemma on_collab w w' : collab_op w w' → service_step (on w) (on w').
Proof. intros Hop. exact (sv_collab (on w) w' Hop). Qed.
Lemma reach_restarted : rtc service_step (on w5) (on restarted).
Proof.
  eapply rtc_l; [apply on_collab, (co_create CollabDemo.core "auto" "" (Ok config) "" "key" PlanDemo.plan w5)|].
  eapply rtc_l; [apply on_collab, (co_revise CollabDemo.core parent CollabDemo.edit collab)|].
  apply rtc_once, on_store, os_recover, steps_leases.
Qed.
Lemma reach_from_start : rtc service_step (on w1) (on restarted).
Proof.
  eapply rtc_l; [apply on_store, (os_startModel w1 run request 5 None)|].
  eapply rtc_l; [apply on_store, (os_saveModel w2 run model_attempt (mkModelResponse "" [call] None) None 1)|].
  eapply rtc_l; [apply on_store, (os_dispatchTool w3 tool_attempt 5 None)|].
  eapply rtc_l; [apply on_store, (os_saveTool w4 run tool_attempt call result None 1 true true)|].
  exact reach_restarted.
Qed.
Lemma wf_begun_run : db_wf (w_db w1).
Proof. apply (reach_ok empty w1); [|exact wf_empty]. apply rtc_once, os_run, (os_createRun empty "local" "" "c" "k1" "do it" config false None). Qed.
Lemma wf_saved : db_wf (w_db w5).
Proof. pose proof (os_saveTool w4 run tool_attempt call result None 1 true true) as Hs. exact (proj1 (op_step_ok _ _ (os_run _ _ Hs) wf_w4)). Qed.
Definition saved_attempt : Attempt := match List.find (λ a, bool_decide (att_id a = att_id tool_attempt)) (attempts (w_db w5)) with Some a => a | None => tool_attempt end.
End ServiceDemo.
Import ServiceDemo.

(** From the run that was just created to the restart: its call is finished in
    between, its steps are counted, and the conversation and the row remain beside
    those of the collaboration. *)
Lemma reachable_evolves_witness :
  let d' := w_db restarted in
  length (runs d') = 5%nat ∧ length (attempts d') = 2%nat ∧ db_wf d' ∧
  (∀ r, r ∈ runs (w_db w1) → ∃ x, x ∈ runs d' ∧ run_kept r x) ∧
  (∀ a, a ∈ attempts (w_db w5) → ∃ b, b ∈ attempts d' ∧ att_le a b).
Proof.
  split; [vm_compute; reflexivity|]. split; [vm_compute; reflexivity|].
  destruct (reachable_evolves (on w1) (on restarted) reach_from_start wf_begun_run) as (Hwf & _ & _ & _ & Hr).
  destruct (reachable_evolves (on w5) (on restarted) reach_restarted wf_saved) as (_ & _ & _ & Ha & _).
  split; [exact Hwf|]. split; [exact Hr|exact Ha].
Defined.

Lemma tool_result_saved_once_witness :
  (∃ b, b ∈ attempts (w_db restarted) ∧ att_id b = att_id saved_attempt ∧ (att_status b = AUnknown ∨ ∃ x, att_response b = Some (RTool x) ∧ tr_content x = "text")) ∧
  (saveGuardedTool run tool_attempt call (mkToolResult [] None false "another" false [] []) None 1 true true restarted).1 ≠ Ok tt ∧
  (settleControlProposal run tool_attempt result true "" None restarted).1 ≠ Ok tt.
Proof.
  destruct (tool_result_saved_once (on w5) (on restarted) saved_attempt reach_restarted wf_saved) as (b & Hb & Hid & _ & _ & Ho & H1 & H2 & _).
  - vm_compute. right. left.
  - vm_compute. left.
  - split; [exists b; split; [exact Hb|split; [exact Hid|]]|split].
    + destruct Ho as [Hu|(_ & _ & E)]; [left; exact Hu|right]. eexists. split; [rewrite E; vm_compute; reflexivity|reflexivity].
    + refine (proj1 (H1 run tool_attempt call (mkToolResult [] None false "another" false [] []) None 1%Z true true _ _ _ _ (surjective_pairing _))).
      vm_compute. reflexivity.
    + refine (proj1 (H2 run tool_attempt result true "" None _ _ _ (surjective_pairing _))). vm_compute. reflexivity.
Defined.

(** A grant opens the space of a Telegram chat, and a message arrives in it. *)
Lemma spaces_route_inside_witness :
  ∃ x c, x ∈ spaces (w_db TelegramDemo.received.2) ∧ sp_source x = "telegram" ∧
    c ∈ conversations (w_db TelegramDemo.received.2) ∧ cv_id c = sp_active x ∧ cv_space c = sp_id x.
Proof.
  assert (Hr : rtc service_step TelegramDemo.begin (mkSystem (sy_memory TelegramDemo.granted) TelegramDemo.received.2)).
  { eapply rtc_l; [apply sv_system, (sy_request TelegramDemo.begin (mkEvent TelegramDemo.chat TelegramDemo.ann "Ann" "private") 0 TelegramDemo.draws)|].
    eapply rtc_l; [apply sv_system, (sy_apply TelegramDemo.requested TelegramDemo.idle TelegramDemo.first "/w" 2)|].
    apply rtc_once, sv_system. exact (sy_receive TelegramDemo.granted TelegramDemo.source "hello" "" "/w"). }
  destruct (List.find (λ x, bool_decide (sp_source x = "telegram")) (spaces (w_db TelegramDemo.received.2))) as [x|] eqn:Ex; [|vm_compute in Ex; discriminate Ex].
  assert (Hx : x ∈ spaces (w_db TelegramDemo.received.2)) by (apply List.find_some in Ex as [Ex _]; apply list_elem_of_In; exact Ex).
  destruct (proj1 (spaces_route_inside _ _ x Hr wf_empty SpaceDemo.empty_routes Hx) (sp_active x) (or_intror eq_refl)) as (c & Hc & Hp & Hs).
  - vm_compute in Ex. injection Ex as <-. vm_compute. discriminate.
  - exists x, c. split; [exact Hx|]. split; [apply List.find_some in Ex as [_ Ex]; exact (proj1 (bool_decide_eq_true _) Ex)|].
    split; [exact Hc|]. split; [exact Hp|exact Hs].
Defined.
